(* ===== verification/_CoqProject ===== *)
-Q . S2P
Prelude.v
PyText.v
Regex.v
Sha256.v
PyValue.v
Json.v
BrokerProtocol.v
BrokerPolicy.v
BrokerHost.v
BrokerConfig.v
BrokerConfigText.v
BrokerConfigFacts.v
BrokerService.v
BrokerModule.v
BrokerLedger.v
BrokerEngine.v
BrokerServer.v
BrokerEngineFacts.v
BrokerReceipts.v
BrokerAdmission.v
BrokerExamples.v
TaskPlan.v
Budgets.v
EffectPlan.v
EffectPlanFacts.v
Dependencies.v
Capability.v
CapabilityValidation.v
CapabilityRegistry.v
CapabilityRegistryFacts.v
CapabilityCompose.v
CapabilityConfig.v
CapabilityPublic.v
CapabilityExecutor.v
CapabilityExecutorFacts.v
EffectPlanService.v
CapabilityPlans.v
CapabilityExamples.v
EffectPlanRun.v
EffectPlanApproval.v
EffectPlanPrepare.v
WorkingTranscript.v
AgentDecision.v
AgentTurn.v
AgentTurnFacts.v
AgentTurnBudgets.v
AgentTurnGuards.v
AgentTurnAnswers.v
AgentTurnWorld.v
AgentTurnExamples.v
Failure.v
FailureFacts.v
TurnStore.v
TurnQueue.v
TurnControl.v
TurnJournal.v
TurnSpec.v
TurnSteps.v
TurnReach.v
TurnClaim.v
TurnRecover.v
TurnWorker.v
TurnRepair.v
TurnExamples.v
JsonRoundtrip.v
BrokerClient.v
BrokerClientFacts.v
HostTools.v
HostToolsFacts.v
HostReceipts.v
HostReceiptsFacts.v
HostLoop.v
HostLoopFacts.v
HostLoopExamples.v
ConversationContext.v
ConversationFacts.v
ConversationText.v
ChatPolicy.v
Compensation.v
Reversion.v
