(* ===== verification/Prelude.v ===== *)
(** * Verification of the Odoo AI assistant

    The repository is an Odoo addon ([src/addons/odoo_ai_assistant]) that lets a language model
    plan and execute work in Odoo, and a privileged broker ([src/host_broker]) that applies the
    few host operations an administrator allows.  This library models the parts that decide what
    may happen, in which order and how often, and proves that they do.

    ** How the program fits together

    A request of a user becomes a turn in the queue.  A scheduler slot claims a turn under a
    lease and runs the agent, which works with budgets, a task plan and a working transcript, and
    may prepare an effect plan.  A plan that needs approval puts the turn in wait; an approved
    plan is executed behind a write barrier, each effect recorded in a journal.  A failure is
    reported as an envelope, which decides between a retry, a failed turn and a review.  The user
    may stop or redirect a turn at any time.  Operations on the host go to the broker, which
    checks the peer and its policy and keeps a ledger of the requests it has executed.

    ** Files

    Foundations.  [Prelude]: results, statements over a store with exceptions ([ST]), their
    relations ([keeps]), results ([yields]) and triples ([hoare]).  [PyText], [Regex], [Sha256]:
    Python text as code points, UTF-8, white space, regular expressions by derivatives, SHA-256.
    [PyValue], [Json]: the values of Python that cross the interfaces and their JSON text, with
    the lengths and characters of produced text; [JsonRoundtrip]: a printed value reads back.

    Host broker.  [BrokerProtocol] (protocol.py, outcome.py), [BrokerPolicy] (policy.py),
    [BrokerHost] (the host: files, commands, clock), [BrokerConfig] and [BrokerConfigText]
    (config_ops.py), [BrokerService] (service_ops.py), [BrokerModule] (module_ops.py),
    [BrokerLedger] (ledger.py), [BrokerEngine] (engine.py), [BrokerServer] (server.py); theorems
    in [BrokerConfigFacts], [BrokerAdmission], [BrokerEngineFacts] and [BrokerReceipts], examples
    in [BrokerExamples].

    Broker client.  [BrokerClient] (runtime/host_broker.py, host_broker_wire.py): the Odoo side of
    the protocol, written against the interface [BrokerPeer] of a connection that may fail at
    every step.  [BrokerClientFacts] has the requests as the broker reads them, the ends of a call
    and the retries, and asks the sample deployment for a restart.  [HostTools]
    (providers/technical_host.py, decorators.py): the capabilities that call the client, with the
    results they return; [HostToolsFacts] has what their requests are to the broker.

    Agent.  [TaskPlan] (runtime/agent/task_plan.py), [Budgets] (budgets.py), [EffectPlan],
    [EffectPlanService] and [EffectPlanApproval] (plan.py), [WorkingTranscript]
    (working_transcript.py), [Failure] (failure.py, terminal_failure.py); theorems in the same
    file or in the files with the same prefix.  [AgentDecision] (contracts.py,
    decision_validation.py, business_outcome.py) and [AgentTurn] (service.py, telemetry.py): the
    turn service around the provider, written against the interface [AgentHost].
    [AgentTurnFacts] has the counters against the transcript, [AgentTurnBudgets] the end of the
    loop and its budgets, [AgentTurnGuards] what a turn executes, [AgentTurnAnswers] its results
    and their resumption; [AgentTurnWorld] plugs the capability executor into the interface, and
    [AgentTurnExamples] runs a scripted provider on it.

    Capabilities.  [Capability] (runtime/capabilities/contracts.py, policy.py),
    [CapabilityValidation] (validation.py), [Dependencies] and [CapabilityRegistry] (registry.py,
    provider.py), [CapabilityConfig] (config.py), [CapabilityPublic] and [CapabilityExecutor]
    (executor.py, transaction.py).  Theorems in [CapabilityRegistryFacts] and
    [CapabilityCompose] (the composition of providers) and [CapabilityExecutorFacts];
    [CapabilityPlans] plugs the executor into the interface of the plan service, and
    [CapabilityExamples] has a small host.

    Turns.  [TurnStore] (the tables of chat_storage.py, turn_control.py, turn_intervention.py and
    effect_journal.py, and the [write] of a turn with the overlays of turn_failure.py and
    effect_journal.py), [TurnQueue] (turn_queue.py, turn_scheduler.py, turn_failure.py),
    [TurnControl] (turn_control.py, turn_intervention.py, embedded_runtime.py and the checkpoints
    of the worker), [TurnJournal] (effect_journal.py and the recovery checkpoints).  [TurnSpec] is
    the specification of the table of turns with its simulation rules; [TurnSteps] proves that the
    transactions are steps of it, [TurnReach] draws the consequences for every interleaving, and
    [TurnClaim], [TurnWorker], [TurnRecover] and [TurnRepair] prove what single operations do;
    [TurnExamples] has runs on which the theorems apply.

    Host loop.  [HostReceipts] (embedded_runtime_host_loop.py): what the loop records of a
    preparation and of a verified effect, with theorems in [HostReceiptsFacts].  [HostLoop]
    (embedded_runtime_host_loop.py, effect_recovery_runtime.py, turn_control_post_effect.py):
    [run_turn], the composition of the turn service and the plan service around the stored turn,
    written against the interface [HostRuntime].  [HostLoopFacts] proves the course of a turn and
    its end, [HostLoopExamples] runs a turn whose plan fails, is repaired and completes.

    Reversion.  [Compensation] (runtime/agent/compensation.py): which completed plans can be
    reverted, and the service that runs their compensators on the capability executor.
    [Reversion] (turn_control.py, turn_control_projection.py, effect_journal_reversion.py): the
    request of a user to revert a turn, over the rows of the turns and the database of the
    handlers.

    Conversations.  [ConversationContext] (conversation_context.py, conversation_preferences.py):
    the context a turn captures of the turns before it.  [ConversationFacts] proves that the
    incremental context is the one rebuilt from the history of a conversation that grew turn by
    turn, [ConversationText] that it is captured once and, of readable texts, fits the provider.  [ChatPolicy] (chat_policy.py,
    user_preferences.py, conversation_preferences.py): the layers of the capability policy, with
    the profiles of autonomy that a user and a conversation choose.

    ** What the theorems show

    Broker: an effect happens at most once per request id, only what the policy permits, patches
    are atomic, every request is answered and recorded, refusals have no effect.  Effect plans:
    prepared plans are well formed, execution calls only bound, approved steps behind the barrier of
    their unit, after a preview in the same run that found the precondition they are bound to, approval comparison is exact.  Capabilities: every
    call of a handler is registered, available, valid for its schema, authorised and within its
    limit, also when a stored plan is executed on the real executor; a failed call is rolled back;
    the composition of providers ends with a valid catalog whatever optional providers do; the
    validator accepts what a declarative reading of its keywords accepts.  Agent
    turns: whatever the provider answers, a run ends within its budgets, executes only recorded
    calls of reasoning capabilities that the catalog offers the user, only appends to its
    transcript, and returns a checked plan; its counters are those of the transcript, and an
    answered turn that is run again returns the same result and does nothing.  Host loop: a turn
    ends, executes only the authorised plan that is stored or one it just prepared, which needs no
    confirmation or refines the one it tried before, asks the provider only for the answer after an effect, and answers an incomplete effect itself; the
    receipt of a verified effect is recorded however full the transcript is.  Reversion: a request
    runs all compensators of a plan in reverse order or leaves everything as it was, and succeeds
    once.  Conversations: the context of a turn is the one of its history, is captured once and
    fits the provider unless it holds control characters; the resolved policy is no more
    permissive than any layer, and no approval that a layer requires is lost, but for what
    always_confirm exempts.  Broker client: a request of the host provider is one the broker
    admits, a repeated effect happens once, an effect whose end is unknown is reported as
    uncertain, but for three exceptions that malformed responses raise.  Task plans, transcripts, envelopes, decisions and plans
    survive printing and parsing.  Turns: the transactions
    refine a small transition system; therefore at most two turns are active, leases and attempts
    keep their discipline, a barrier is cleared only after every effect was rolled back, and, as
    long as their workers are in time (see Choices), one turn per conversation holds the
    conversation and finished turns are final; the claim takes the fairest eligible turn, the recovery settles every
    expired lease, a worker without its lease changes nothing, a repeated request is answered
    once.

    ** Choices

    Integers are [Z]: Python's integers are unbounded, and the database's widths are not reached
    by the counters.  A Python exception is an [Err]; [ST] keeps the store of the moment it was
    raised, and [transaction] rolls it back as a database cursor does.  Loops of the code are
    structural recursion over the data.  The exceptions are the reading loop of the broker's
    server and child process, whose fuel is the list of segments that arrives, the JSON
    parser, bounded by the length of its input, the contract depth of [Capability], the
    searches of the capability catalog, whose fuel is the number of definitions or providers, and
    the decision loop of a turn, whose fuel is one more than the largest limit of decisions (33),
    the preparation loop of the host, which records a failure each time (limit of replans + 1),
    and the recursion of execution and repair, where every second call records one
    (2 * limit + 3), and the loop that shortens a context, which drops one of at most
    4 + 4 + 8 + 8 + 8 items each time (33): the theorems about them prove that it is never used up.
    The Unicode tables behind [str.casefold] and the word characters are arguments of [ChatPolicy].
    What comes from outside the repository (clock, tokens, file system, systemctl, SQLite and
    PostgreSQL locks, Odoo's users) is an argument: a record or class per component
    ([BrokerHost], [BrokerPeer], [TurnHost], [CapabilityHost], [CapabilityUser], [AgentHost],
    [HostRuntime]).  An operation of PostgreSQL
    that the code relies on (FOR UPDATE SKIP LOCKED, the advisory lock of the claim, constraints)
    is written out as what it returns.  Sessions interleave transaction by transaction: the claim runs at read committed
    under an advisory lock, and the other transactions write a row they hold.

    Two checkpoints of the worker, the approval wait and the commit of a repair, do not test its
    lease.  The steps of [TurnReach] therefore have a parameter: the set of the turns whose
    workers come to these checkpoints late, after the lease was lost.  It is arbitrary, so the
    theorems hold of every worker; what a late checkpoint breaks (the order of a conversation, the
    barrier of a waiting turn, the finality of a finished one) is stated for the other turns, and
    [TurnExamples] shows both breaks.  The run of the agent inside a slot is a parameter
    ([Runtime]) with the hypothesis that it changes turns by those checkpoints.

    The recursion limit of the interpreter, which json.loads meets on nested input, is the class
    [Interpreter] of [Json]: [json_loads] raises [RecursionError] beyond it.  Integers of more than
    4300 digits are refused in both directions, as CPython does.

    ** Not modelled

    The prompts of the planner, the Codex child process and its stream protocol, the capability
    providers other than the one of host operations, which are calls into the Odoo ORM, the source
    workspace, data import, knowledge search, most controllers, the settings forms, the history
    listings and presentation records, the JavaScript client, the superseded standalone service,
    the installer and the migrations: they are I/O, ORM glue or presentation, or are not reached.

    ** Prelude

    Results, stateful statements with exceptions, their program logic, and list lemmas. *)
From stdpp Require Export prelude list gmap.
From Stdlib Require Export NArith ZArith Lia.

(** ** Results: a Python call that returns a value or raises *)

Inductive result (E A : Type) : Type :=
| Ok (a : A)
| Err (e : E).
Arguments Ok {E A} a.
Arguments Err {E A} e.

#[export] Instance result_fmap E : FMap (result E) := λ A B f r,
  match r with Ok a => Ok (f a) | Err e => Err e end.
#[export] Instance result_bind E : MBind (result E) := λ A B f r,
  match r with Ok a => f a | Err e => Err e end.
#[export] Instance result_ret E : MRet (result E) := λ A, Ok.

(** [raise_when b e] is the statement [if b: raise e]. *)
Definition raise_when {E} (b : bool) (e : E) : result E unit :=
  if b then Err e else Ok tt.

(** [of_option o e] unwraps an optional value or raises. *)
Definition of_option {E A} (o : option A) (e : E) : result E A :=
  match o with Some a => Ok a | None => Err e end.

Definition is_ok {E A} (r : result E A) : bool :=
  match r with Ok _ => true | Err _ => false end.

(** The value, or a default when the call raised. *)
Definition result_or {E A} (d : A) (r : result E A) : A :=
  match r with Ok a => a | Err _ => d end.

(** [map_err f r] translates the exception ([raise ... from error]). *)
Definition map_err {E E' A} (f : E → E') (r : result E A) : result E' A :=
  match r with Ok a => Ok a | Err e => Err (f e) end.

(** A [for] loop that builds a list and may raise at any element. *)
Fixpoint mapR {E A B} (f : A → result E B) (l : list A) : result E (list B) :=
  match l with
  | [] => Ok []
  | x :: l => y ← f x; ys ← mapR f l; Ok (y :: ys)
  end.

(** A [for] loop that threads an accumulator and may raise. *)
Fixpoint foldR {E A S} (f : S → A → result E S) (s : S) (l : list A) : result E S :=
  match l with
  | [] => Ok s
  | x :: l => s' ← f s x; foldR f s' l
  end.

(** [all(...)]: stops at the first element that fails. *)
Fixpoint all_of {E A} (f : A → result E bool) (l : list A) : result E bool :=
  match l with
  | [] => Ok true
  | x :: l => b ← f x; if b : bool then all_of f l else Ok false
  end.

(** [if c1 or c2 or ...: raise e] where a later condition may itself raise: the first
    condition that is not plainly false decides. *)
Fixpoint any_of {E} (cs : list (result E bool)) : result E bool :=
  match cs with
  | [] => Ok false
  | Ok false :: cs => any_of cs
  | c :: _ => c
  end.
Definition raise_any {E} (cs : list (result E bool)) (e : E) : result E unit :=
  b ← any_of cs; raise_when b e.

Section result_lemmas.
Context {E : Type}.

Lemma bind_Ok {A B} (r : result E A) (f : A → result E B) b :
  r ≫= f = Ok b ↔ ∃ a, r = Ok a ∧ f a = Ok b.
Proof. destruct r; naive_solver. Qed.

Lemma bind_Err {A B} (r : result E A) (f : A → result E B) e :
  r ≫= f = Err e ↔ r = Err e ∨ ∃ a, r = Ok a ∧ f a = Err e.
Proof. destruct r; naive_solver. Qed.

Lemma fmap_Ok {A B} (r : result E A) (f : A → B) b :
  f <$> r = Ok b ↔ ∃ a, r = Ok a ∧ b = f a.
Proof. destruct r; naive_solver. Qed.

Lemma raise_when_Ok b (e : E) u : raise_when b e = Ok u ↔ b = false.
Proof. destruct b, u; naive_solver. Qed.

Lemma raise_when_Err b (e e' : E) : raise_when b e = Err e' ↔ b = true ∧ e' = e.
Proof. destruct b; naive_solver. Qed.

Lemma of_option_Ok {A} (o : option A) (e : E) a : of_option o e = Ok a ↔ o = Some a.
Proof. destruct o; naive_solver. Qed.

Lemma map_err_Ok {E' A} (f : E → E') (r : result E A) a : map_err f r = Ok a ↔ r = Ok a.
Proof. destruct r; naive_solver. Qed.

Lemma any_of_false (cs : list (result E bool)) :
  any_of cs = Ok false ↔ Forall (λ c, c = Ok false) cs.
Proof.
  induction cs as [|[[]|e] cs IH]; simpl; [done|..|].
  - split; [done|by inversion 1].
  - rewrite Forall_cons, IH. naive_solver.
  - split; [done|by inversion 1].
Qed.

Lemma raise_any_Ok (cs : list (result E bool)) (e : E) x :
  raise_any cs e = Ok x ↔ Forall (λ c, c = Ok false) cs.
Proof.
  unfold raise_any. rewrite <- any_of_false. destruct (any_of cs) as [[]|], x; naive_solver.
Qed.

Lemma mapR_Ok {A B} (f : A → result E B) l k :
  mapR f l = Ok k ↔ Forall2 (λ x y, f x = Ok y) l k.
Proof.
  revert k. induction l as [|x l IH]; intros k; simpl.
  - split; [intros [= <-]; constructor | by inversion 1].
  - rewrite bind_Ok. setoid_rewrite bind_Ok. setoid_rewrite IH. split.
    + intros (y & Hy & ys & Hys & [= <-]). by constructor.
    + inversion 1; subst; eauto 8.
Qed.

Lemma foldR_app {A S} (f : S → A → result E S) s l k :
  foldR f s (l ++ k) = foldR f s l ≫= λ s', foldR f s' k.
Proof.
  revert s. induction l as [|x l IH]; intros s; simpl; [done|].
  destruct (f s x); simpl; [apply IH | done].
Qed.

(** Invariant rule of the accumulating loop. *)
Lemma foldR_inv {A S} (P : S → Prop) (f : S → A → result E S) l s s' :
  P s →
  (∀ s x s', x ∈ l → P s → f s x = Ok s' → P s') →
  foldR f s l = Ok s' → P s'.
Proof.
  revert s. induction l as [|x l IH]; intros s Hs Hf; simpl; [by intros [= <-]|].
  intros (s1 & H1 & H2)%bind_Ok. apply (IH s1); [| |done].
  - apply (Hf s x); [by left|done..].
  - intros s2 y s3 Hy. apply Hf. by right.
Qed.
End result_lemmas.

(** ** State and exceptions

    [ST S E A] is a statement over a mutable store [S] that returns [A] or raises [E].
    The store survives an exception, as Python objects and files do. *)

Definition ST (S E A : Type) : Type := S → result E A * S.

#[export] Instance ST_ret S E : MRet (ST S E) := λ A a s, (Ok a, s).
#[export] Instance ST_bind S E : MBind (ST S E) := λ A B f m s,
  match m s with
  | (Ok a, s') => f a s'
  | (Err e, s') => (Err e, s')
  end.
#[export] Instance ST_fmap S E : FMap (ST S E) := λ A B f m s,
  match m s with
  | (Ok a, s') => (Ok (f a), s')
  | (Err e, s') => (Err e, s')
  end.

Section ST_ops.
Context {S E : Type}.
Definition raise {A} (e : E) : ST S E A := λ s, (Err e, s).
Definition lift {A} (r : result E A) : ST S E A := λ s, (r, s).
Definition gets {A} (f : S → A) : ST S E A := λ s, (Ok (f s), s).
Definition modify (f : S → S) : ST S E unit := λ s, (Ok tt, f s).
(** [try: m except e: h e] *)
Definition catch {A} (m : ST S E A) (h : E → ST S E A) : ST S E A := λ s,
  match m s with
  | (Ok a, s') => (Ok a, s')
  | (Err e, s') => h e s'
  end.

Lemma ST_bind_Ok {A B} (m : ST S E A) (f : A → ST S E B) s b s' :
  (m ≫= f) s = (Ok b, s') ↔ ∃ a s1, m s = (Ok a, s1) ∧ f a s1 = (Ok b, s').
Proof. unfold mbind, ST_bind. destruct (m s) as [[a|e] s1]; naive_solver. Qed.

Lemma ST_bind_Err {A B} (m : ST S E A) (f : A → ST S E B) s e s' :
  (m ≫= f) s = (Err e, s') ↔
  m s = (Err e, s') ∨ ∃ a s1, m s = (Ok a, s1) ∧ f a s1 = (Err e, s').
Proof. unfold mbind, ST_bind. destruct (m s) as [[a|e'] s1]; naive_solver. Qed.

Lemma ST_bind_at {A B} (m : ST S E A) (f : A → ST S E B) s :
  (m ≫= f) s = match m s with (Ok a, s') => f a s' | (Err e, s') => (Err e, s') end.
Proof. done. Qed.
Lemma ST_bind_lift {A B} (r : result E A) (f : A → ST S E B) s :
  (lift r ≫= f) s = match r with Ok a => f a s | Err e => (Err e, s) end.
Proof. by destruct r. Qed.
Lemma gets_Ok {A} (f : S → A) s a s' : gets f s = (Ok a, s') → a = f s ∧ s' = s.
Proof. by intros [= <- <-]. Qed.
Lemma modify_Ok f s x s' : modify f s = (Ok x, s') → s' = f s.
Proof. by intros [= _ <-]. Qed.
Lemma lift_Ok {A} (r : result E A) s a s' : lift r s = (Ok a, s') → r = Ok a ∧ s' = s.
Proof. by intros [= -> <-]. Qed.
Lemma ret_Ok {A} (a b : A) s s' : (mret a : ST S E A) s = (Ok b, s') → a = b ∧ s' = s.
Proof. by intros [= <- <-]. Qed.
End ST_ops.

(** A [for] loop of statements that threads an accumulator. *)
Fixpoint foldST {S E A B} (f : B → A → ST S E B) (b : B) (l : list A) : ST S E B :=
  match l with
  | [] => mret b
  | x :: l => b' ← f b x; foldST f b' l
  end.

(** Invariant rule of the loop: of the accumulator and the store. *)
Lemma foldST_inv {S E A B} (P : B → S → Prop) (f : B → A → ST S E B) l b s b' s' :
  P b s →
  (∀ b s x b' s', x ∈ l → P b s → f b x s = (Ok b', s') → P b' s') →
  foldST f b l s = (Ok b', s') → P b' s'.
Proof.
  revert b s. induction l as [|x l IH]; intros b s Hb Hf; simpl; [by intros [= <- <-]|].
  intros (b1 & s1 & H1 & H2)%ST_bind_Ok. apply (IH b1 s1); [| |done].
  - apply (Hf b s x); [by left|done..].
  - intros b2 s2 y b3 s3 Hy. apply Hf. by right.
Qed.

(** [keeps R m]: whatever [m] returns or raises, it relates the stores before and after
    by [R].  For a preorder [R] the relation composes along [bind] and [catch]. *)
Definition keeps {S E A} (R : S → S → Prop) (m : ST S E A) : Prop :=
  ∀ s, R s (m s).2.

Section keeps_lemmas.
Context {S E : Type} (R : S → S → Prop) `{!PreOrder R}.
Lemma keeps_ret {A} (a : A) : keeps R (mret a : ST S E A).
Proof. intros s. simpl. reflexivity. Qed.
Lemma keeps_raise {A} (e : E) : keeps R (raise e : ST S E A).
Proof. intros s. simpl. reflexivity. Qed.
Lemma keeps_lift {A} (r : result E A) : keeps R (lift r).
Proof. intros s. simpl. reflexivity. Qed.
Lemma keeps_gets {A} (f : S → A) : keeps R (gets f : ST S E A).
Proof. intros s. simpl. reflexivity. Qed.
Lemma keeps_bind {A B} (m : ST S E A) (f : A → ST S E B) :
  keeps R m → (∀ a, keeps R (f a)) → keeps R (m ≫= f).
Proof.
  intros Hm Hf s. unfold mbind, ST_bind. specialize (Hm s).
  destruct (m s) as [[a|e] s1]; simpl in *; [|done].
  etrans; [apply Hm | apply Hf].
Qed.
(** A validator's result is known to the statements after it. *)
Lemma keeps_bind_lift {A B} (r : result E A) (f : A → ST S E B) :
  (∀ a, r = Ok a → keeps R (f a)) → keeps R (lift r ≫= f).
Proof. intros Hf s. unfold lift, mbind, ST_bind. destruct r; simpl; [by apply Hf|reflexivity]. Qed.
Lemma keeps_catch {A} (m : ST S E A) (h : E → ST S E A) :
  keeps R m → (∀ e, keeps R (h e)) → keeps R (catch m h).
Proof.
  intros Hm Hh s. unfold catch. specialize (Hm s).
  destruct (m s) as [[a|e] s1]; simpl in *; [done|].
  etrans; [apply Hm | apply Hh].
Qed.
Lemma keeps_modify (f : S → S) : (∀ s, R s (f s)) → keeps R (modify f : ST S E unit).
Proof. intros Hf s. apply Hf. Qed.
Lemma keeps_if {A} (b : bool) (m1 m2 : ST S E A) :
  keeps R m1 → keeps R m2 → keeps R (if b then m1 else m2).
Proof. by destruct b. Qed.

(** From one store: the continuation starts where the statement ended. *)
Lemma keeps_bind_at {A B} (m : ST S E A) (f : A → ST S E B) s :
  R s (m s).2 → (∀ a s1, m s = (Ok a, s1) → R s1 (f a s1).2) → R s ((m ≫= f) s).2.
Proof.
  intros Hm Hf. unfold mbind, ST_bind. destruct (m s) as [[a|e] s1]; simpl in *; [|done].
  etrans; [done|]. by apply Hf.
Qed.
Lemma keeps_catch_at {A} (m : ST S E A) (h : E → ST S E A) s :
  R s (m s).2 → (∀ e s1, m s = (Err e, s1) → R s1 (h e s1).2) → R s (catch m h s).2.
Proof.
  intros Hm Hh. unfold catch. destruct (m s) as [[a|e] s1]; simpl in *; [done|].
  etrans; [done|]. by apply Hh.
Qed.
End keeps_lemmas.

Create HintDb keeps discriminated.
#[export] Hint Resolve keeps_ret keeps_raise keeps_lift keeps_gets : keeps.

(** Walks a stateful statement with the composition lemmas; database [keeps] closes the
    calls it meets. *)
Ltac solve_keeps :=
  repeat first
    [ solve [eauto 4 with keeps typeclass_instances]
    | apply keeps_bind_lift; [|intros ? ?]
    | apply keeps_bind; [| |intros ?]
    | apply keeps_catch; [| |intros ?]
    | match goal with
      | |- PreOrder _ => apply _
      | |- keeps _ (match ?x with _ => _ end) => destruct x eqn:?
      end
    | apply keeps_modify; intros ?; reflexivity ].

(** [yields Q X m]: whatever the store, [m] returns a value of [Q] or raises one of [X]. *)
Definition result_in {E A} (Q : A → Prop) (X : E → Prop) (r : result E A) : Prop :=
  match r with Ok a => Q a | Err e => X e end.
Definition yields {S E A} (Q : A → Prop) (X : E → Prop) (m : ST S E A) : Prop :=
  ∀ s, result_in Q X (m s).1.

Section yields_lemmas.
Context {S E : Type} (X : E → Prop).

Lemma result_in_bind {A B} (P : A → Prop) (Q : B → Prop) (r : result E A) (f : A → result E B) :
  result_in P X r → (∀ a, P a → result_in Q X (f a)) → result_in Q X (r ≫= f).
Proof. destruct r; simpl; auto. Qed.
Lemma result_in_fmap {A B} (P : A → Prop) (Q : B → Prop) (r : result E A) (f : A → B) :
  result_in P X r → (∀ a, P a → Q (f a)) → result_in Q X (f <$> r).
Proof. destruct r; simpl; auto. Qed.
Lemma result_in_when b (e : E) : X e → result_in (λ _, True) X (raise_when b e).
Proof. by destruct b. Qed.
Lemma result_in_option {A} (o : option A) (e : E) : X e → result_in (λ _, True) X (of_option o e).
Proof. by destruct o. Qed.
Lemma result_in_mono {A} (P Q : A → Prop) (r : result E A) :
  result_in P X r → (∀ a, P a → Q a) → result_in Q X r.
Proof. destruct r; simpl; auto. Qed.

Lemma yields_bind {A B} (P : A → Prop) (Q : B → Prop) (m : ST S E A) (f : A → ST S E B) :
  yields P X m → (∀ a, P a → yields Q X (f a)) → yields Q X (m ≫= f).
Proof.
  intros Hm Hf s. unfold mbind, ST_bind. specialize (Hm s).
  destruct (m s) as [[a|e] s1]; simpl in *; [by apply Hf|done].
Qed.
Lemma yields_catch {A} (X' : E → Prop) (Q : A → Prop) (m : ST S E A) (h : E → ST S E A) :
  yields Q X' m → (∀ e, X' e → yields Q X (h e)) → yields Q X (catch m h).
Proof.
  intros Hm Hh s. unfold catch. specialize (Hm s).
  destruct (m s) as [[a|e] s1]; simpl in *; [done|by apply Hh].
Qed.
Lemma yields_ret {A} (Q : A → Prop) (a : A) : Q a → yields Q X (mret a : ST S E A).
Proof. by intros Ha s. Qed.
Lemma yields_raise {A} (Q : A → Prop) (e : E) : X e → yields Q X (raise e : ST S E A).
Proof. by intros He s. Qed.
Lemma yields_lift {A} (Q : A → Prop) (r : result E A) : result_in Q X r → yields Q X (lift r : ST S E A).
Proof. by intros Hr s. Qed.
Lemma yields_gets {A} (f : S → A) : yields (λ _, True) X (gets f : ST S E A).
Proof. by intros s. Qed.
Lemma yields_modify f : yields (λ _, True) X (modify f : ST S E unit).
Proof. by intros s. Qed.
Lemma yields_mono {A} (P Q : A → Prop) (m : ST S E A) :
  yields P X m → (∀ a, P a → Q a) → yields Q X m.
Proof. intros Hm HPQ s. eapply result_in_mono; [apply Hm|done]. Qed.
Lemma result_in_weaken {A} (X' : E → Prop) (Q : A → Prop) (r : result E A) :
  result_in Q X' r → (∀ e, X' e → X e) → result_in Q X r.
Proof. destruct r; simpl; auto. Qed.
End yields_lemmas.

Lemma yields_any {S E A} (m : ST S E A) : yields (λ _, True) (λ _, True) m.
Proof. intros s. by destruct (m s).1. Qed.

Create HintDb yields discriminated.
#[export] Hint Resolve yields_any : yields.

(** Walks a statement whose intermediate values do not matter. *)
Ltac solve_yields :=
  repeat first
    [ solve [eauto 3 with yields]
    | progress intros
    | match goal with
      | |- yields _ ?X (catch _ _) => apply (yields_catch X X)
      | |- yields _ _ (match ?x with _ => _ end) => destruct x
      | |- result_in _ _ (match ?x with _ => _ end) => destruct x
      | |- result_in _ _ (Ok _) => unfold result_in
      | |- result_in _ _ (Err _) => unfold result_in
      end
    | apply (yields_bind _ (λ _, True))
    | apply yields_gets | apply yields_modify
    | apply yields_ret | apply yields_raise | apply yields_lift
    | apply (result_in_bind _ (λ _, True))
    | apply (result_in_fmap _ (λ _, True))
    | apply result_in_when | apply result_in_option
    | exact I ].

(** [hoare P m Q X]: from a store in [P], [m] returns a value and a store in [Q], or raises in a
    store in [X]. *)
Definition hoare {S E A} (P : S → Prop) (m : ST S E A) (Q : A → S → Prop) (X : S → Prop) : Prop :=
  ∀ s, P s → match m s with (Ok a, s') => Q a s' | (Err _, s') => X s' end.

Section hoare_rules.
Context {S E : Type}.
Implicit Types (P X : S → Prop).

Lemma hoare_ret {A} P (Q : A → S → Prop) X (a : A) :
  (∀ s, P s → Q a s) → hoare P (mret a : ST S E A) Q X.
Proof. intros H s Hs. by apply H. Qed.
Lemma hoare_raise {A} P (Q : A → S → Prop) X (e : E) :
  (∀ s, P s → X s) → hoare P (raise e : ST S E A) Q X.
Proof. intros H s Hs. by apply H. Qed.
Lemma hoare_bind {A B} P (Q : A → S → Prop) (K : B → S → Prop) X (m : ST S E A)
    (f : A → ST S E B) :
  hoare P m Q X → (∀ a, hoare (Q a) (f a) K X) → hoare P (m ≫= f) K X.
Proof.
  intros Hm Hf s Hs. rewrite ST_bind_at. specialize (Hm s Hs).
  destruct (m s) as [[a|e] s1]; [by apply Hf|done].
Qed.
(** A validator: its result is known afterwards, the store is the same. *)
Lemma hoare_bind_lift {A B} P (K : B → S → Prop) X (r : result E A) (f : A → ST S E B) :
  (∀ s, P s → X s) → (∀ a, r = Ok a → hoare P (f a) K X) → hoare P (lift r ≫= f) K X.
Proof.
  intros HX Hf s Hs. rewrite ST_bind_lift. destruct r as [a|e]; [by apply Hf|by apply HX].
Qed.
Lemma hoare_conseq {A} P P' (Q Q' : A → S → Prop) X X' (m : ST S E A) :
  hoare P' m Q' X' → (∀ s, P s → P' s) → (∀ a s, Q' a s → Q a s) → (∀ s, X' s → X s) →
  hoare P m Q X.
Proof.
  intros Hm HP HQ HX s Hs. specialize (Hm s (HP s Hs)). destruct (m s) as [[a|e] s1]; auto.
Qed.
(** What the precondition implies whatever the store. *)
Lemma hoare_pure {A} (φ : Prop) P (Q : A → S → Prop) X (m : ST S E A) :
  (∀ s, P s → φ) → (φ → hoare P m Q X) → hoare P m Q X.
Proof. intros HP Hm s Hs. exact (Hm (HP s Hs) s Hs). Qed.
Lemma hoare_catch {A} P (Q : A → S → Prop) X X' (m : ST S E A) h :
  hoare P m Q X' → (∀ e, hoare X' (h e) Q X) → hoare P (catch m h) Q X.
Proof.
  intros Hm Hh s Hs. unfold catch. specialize (Hm s Hs).
  destruct (m s) as [[a|e] s1]; [done|by apply Hh].
Qed.
(** The invariant may mention the elements already visited. *)
Lemma hoare_fold {A B} (I : list A → B → S → Prop) X (f : B → A → ST S E B) l b :
  (∀ seen x rest b, l = seen ++ x :: rest → hoare (I seen b) (f b x) (I (seen ++ [x])) X) →
  hoare (I [] b) (foldST f b l) (I l) X.
Proof.
  assert (∀ seen rest b, (∀ seen' x rest' b, seen ++ rest = seen' ++ x :: rest' →
      hoare (I seen' b) (f b x) (I (seen' ++ [x])) X) →
    hoare (I seen b) (foldST f b rest) (I (seen ++ rest)) X) as H; [|by apply (H [] l b)].
  intros seen rest. revert seen. induction rest as [|x rest IH]; intros seen b' Hf; simpl.
  - apply hoare_ret. by rewrite app_nil_r.
  - eapply hoare_bind; [by apply (Hf seen x rest)|]. intros b2.
    replace (seen ++ x :: rest) with ((seen ++ [x]) ++ rest) by by rewrite <- app_assoc.
    apply IH. intros seen' y rest' b3 Heq.
    apply (Hf seen' y rest'). by rewrite <- Heq, <- app_assoc.
Qed.
End hoare_rules.

(** ** Tactics *)

(** Turns a successful run of a validator into the facts its guards establish. *)
Ltac result_inv :=
  repeat match goal with
  | H : Ok _ = Ok _ |- _ => injection H as H; try subst
  | H : Err _ = Err _ |- _ => injection H as H; try subst
  | H : Ok _ = Err _ |- _ => discriminate H
  | H : Err _ = Ok _ |- _ => discriminate H
  | H : _ ≫= _ = Ok _ |- _ => apply bind_Ok in H; destruct H as (? & ? & H)
  | H : _ <$> _ = Ok _ |- _ => apply fmap_Ok in H; destruct H as (? & ? & ?); subst
  | H : raise_when _ _ = Ok _ |- _ => apply raise_when_Ok in H
  | H : raise_any _ _ = Ok _ |- _ => apply raise_any_Ok in H
  | H : Forall _ (_ :: _) |- _ => apply Forall_cons in H; destruct H
  | H : Forall _ [] |- _ => clear H
  | H : of_option _ _ = Ok _ |- _ => apply of_option_Ok in H
  | H : map_err _ _ = Ok _ |- _ => apply map_err_Ok in H
  | H : _ || _ = false |- _ => apply orb_false_iff in H; destruct H
  | H : _ && _ = true |- _ => apply andb_true_iff in H; destruct H
  | H : negb _ = false |- _ => apply negb_false_iff in H
  | H : negb _ = true |- _ => apply negb_true_iff in H
  | u : unit |- _ => destruct u
  end.

(** The same for a run of a stateful statement. *)
Ltac st_inv :=
  repeat match goal with
  | H : (_ ≫= _) _ = (Ok _, _) |- _ =>
      apply ST_bind_Ok in H; destruct H as (? & ? & ? & H)
  | H : gets _ _ = (Ok _, _) |- _ => apply gets_Ok in H as [-> ->]
  | H : modify _ _ = (Ok _, _) |- _ => apply modify_Ok in H as ->
  | H : lift _ _ = (Ok _, _) |- _ => apply lift_Ok in H as [? ->]
  | H : mret _ _ = (Ok _, _) |- _ => apply ret_Ok in H as [? ->]
  | H : raise _ _ = (Ok _, _) |- _ => discriminate H
  | H : (Ok _, _) = (Ok _, _) |- _ => injection H as H; try subst
  | H : (Err _, _) = (Ok _, _) |- _ => discriminate H
  | H : (Ok _, _) = (Err _, _) |- _ => discriminate H
  end.

(** [lia] with Euclidean division and remainder by constants. *)
Ltac divlia := zify; Z.to_euclidean_division_equations; lia.

(** Case analysis on the booleans the code tests. *)
Ltac case_bool :=
  match goal with
  | |- context [if ?b then _ else _] => destruct b eqn:?
  | H : context [if ?b then _ else _] |- _ => destruct b eqn:?
  end.

(** ** Lists *)

Lemma existsb_false {A} (f : A → bool) l : existsb f l = false ↔ ∀ x, x ∈ l → f x = false.
Proof.
  induction l as [|a l IH]; simpl; [split; [set_solver|done]|].
  rewrite orb_false_iff, IH. set_solver.
Qed.

Lemma forallb_true {A} (f : A → bool) l : forallb f l = true ↔ ∀ x, x ∈ l → f x = true.
Proof.
  induction l as [|a l IH]; simpl; [split; [set_solver|done]|].
  rewrite andb_true_iff, IH. set_solver.
Qed.

Lemma take_drop_length {A} n (l : list A) : take n l ++ drop (length (take n l)) l = l.
Proof.
  revert n. induction l as [|x l IH]; intros [|n]; simpl; [done..|]. by rewrite IH.
Qed.

Lemma filter_all {A} (P : A → Prop) `{!∀ x, Decision (P x)} (l : list A) :
  (∀ x, x ∈ l → P x) → filter P l = l.
Proof.
  induction l as [|x l IH]; [done|]. intros HP. rewrite filter_cons_True by (apply HP; left). f_equal.
  apply IH. intros y Hy. apply HP. by right.
Qed.

Lemma filter_none {A} (P : A → Prop) `{!∀ x, Decision (P x)} (l : list A) :
  (∀ x, x ∈ l → ¬ P x) → filter P l = [].
Proof.
  induction l as [|x l IH]; [done|]. intros HP. rewrite filter_cons_False by (apply HP; left).
  apply IH. intros y Hy. apply HP. by right.
Qed.

Section mem.
Context {A : Type} `{EqDecision A}.

(** Membership test, [x in l]. *)
Definition mem (x : A) (l : list A) : bool := bool_decide (x ∈ l).

Lemma mem_true x l : mem x l = true ↔ x ∈ l.
Proof. unfold mem. apply bool_decide_eq_true. Qed.
Lemma mem_false x l : mem x l = false ↔ x ∉ l.
Proof. unfold mem. apply bool_decide_eq_false. Qed.

(** [len(set(l)) != len(l)] is false exactly when [l] has no duplicates. *)
Definition has_dup (l : list A) : bool := negb (bool_decide (NoDup l)).

Lemma has_dup_false l : has_dup l = false ↔ NoDup l.
Proof. unfold has_dup. rewrite negb_false_iff. apply bool_decide_eq_true. Qed.

(** [set(l) == set(k)] on lists of hashable values. *)
Definition same_set (l k : list A) : bool :=
  forallb (λ x, mem x k) l && forallb (λ x, mem x l) k.

Lemma same_set_true l k : same_set l k = true ↔ ∀ x, x ∈ l ↔ x ∈ k.
Proof.
  unfold same_set. rewrite andb_true_iff, !forallb_true.
  setoid_rewrite mem_true. naive_solver.
Qed.

(** [set(l) <= set(k)] *)
Definition subset_of (l k : list A) : bool := forallb (λ x, mem x k) l.

Lemma subset_of_true l k : subset_of l k = true ↔ ∀ x, x ∈ l → x ∈ k.
Proof. unfold subset_of. rewrite forallb_true. by setoid_rewrite mem_true. Qed.
End mem.

(** ** Lists built one element at a time

    [grows P l]: every element satisfies [P] relative to the elements before it.  This is what
    a loop that appends a checked element to a list establishes. *)
Section grows.
Context {A : Type} (P : list A → A → Prop).

Definition grows (l : list A) : Prop := ∀ i x, l !! i = Some x → P (take i l) x.

Lemma grows_nil : grows [].
Proof. intros i x. by rewrite lookup_nil. Qed.

Lemma grows_snoc l x : grows (l ++ [x]) ↔ grows l ∧ P l x.
Proof.
  split.
  - intros H. split.
    + intros i t Hi. pose proof (lookup_lt_Some _ _ _ Hi) as Hl.
      specialize (H i t). rewrite lookup_app_l, take_app_le in H by lia. by apply H.
    + specialize (H (length l) x). rewrite lookup_app_r, Nat.sub_diag, take_app_length in H by lia.
      by apply H.
  - intros [H Hx] i t Hi. apply lookup_app_Some in Hi as [Hi|[Hl Hi]].
    + pose proof (lookup_lt_Some _ _ _ Hi). rewrite take_app_le by lia. by apply H.
    + apply list_lookup_singleton_Some in Hi as [Hi <-]. assert (i = length l) as -> by lia.
      by rewrite take_app_length.
Qed.

Lemma grows_middle l x k : grows (l ++ x :: k) → P l x.
Proof.
  intros H. specialize (H (length l) x).
  rewrite lookup_app_r, Nat.sub_diag, take_app_length in H by lia. by apply H.
Qed.

(** A loop whose turns append one checked element. *)
Lemma foldR_grows {E V} (f : list A → V → result E (list A)) vs acc l :
  (∀ acc v acc', f acc v = Ok acc' → ∃ x, acc' = acc ++ [x] ∧ P acc x) →
  grows acc → foldR f acc vs = Ok l → grows l ∧ length l = length acc + length vs.
Proof.
  intros Hf. revert acc. induction vs as [|v vs IH]; intros acc Hacc; simpl.
  - intros [= <-]. split; [done|lia].
  - intros (acc' & (x & -> & Hx)%Hf & H)%bind_Ok. apply IH in H as [Hg Hl].
    + rewrite length_app in Hl. simpl in Hl. split; [done|lia].
    + by apply grows_snoc.
Qed.

(** The same loop on the elements' printed forms gives them back. *)
Lemma foldR_rebuild {E V} (f : list A → V → result E (list A)) (print : A → V) acc l :
  (∀ acc x, P acc x → f acc (print x) = Ok (acc ++ [x])) →
  grows (acc ++ l) → foldR f acc (print <$> l) = Ok (acc ++ l).
Proof.
  intros Hf. revert acc. induction l as [|x l IH]; intros acc Hg; simpl; [by rewrite app_nil_r|].
  rewrite Hf by by eapply grows_middle. simpl. rewrite cons_middle, app_assoc in Hg.
  rewrite IH by done. by rewrite <- app_assoc.
Qed.
End grows.

(** An identifier that is new at its place occurs once. *)
Lemma grows_nodup {A B} (P : list A → A → Prop) (f : A → B) l :
  (∀ pre x, P pre x → f x ∉ f <$> pre) → grows P l → NoDup (f <$> l).
Proof.
  intros HP. induction l as [|x l IH] using rev_ind; [constructor|].
  intros [Hg Hx]%grows_snoc. rewrite fmap_app. apply NoDup_app. split_and!; [by apply IH| |].
  - intros y Hy ->%list_elem_of_singleton. by apply (HP _ _ Hx).
  - apply NoDup_singleton.
Qed.
