(* ===== verification/PyText.v ===== *)
(** * Text: Python [str] and [bytes]

    A Python [str] is a list of code points ([pystr]), [bytes] is a list of bytes.  The file
    holds the operations on them the program calls ([encode], [decode], [splitlines],
    [strip], [startswith], [casefold], [str(int)]) and the ordering [sorted] uses. *)
From S2P Require Import Prelude.
From Stdlib Require Import Strings.String Strings.Byte.
From stdpp Require Import pretty.
Export String.StringSyntax.

Abbreviation pystr := (list N).
Abbreviation pybytes := (list byte).

#[export] Instance byte_eq_decision : EqDecision byte := Byte.byte_eq_dec.

(** ** UTF-8 *)

Definition byte_of (n : N) : byte := default x00 (Byte.of_N n).

Lemma to_N_byte_of n : (n < 256)%N → Byte.to_N (byte_of n) = n.
Proof.
  intros Hn. unfold byte_of. destruct (Byte.of_N n) as [b|] eqn:Hb; simpl.
  - by apply Byte.to_of_N.
  - apply Byte.of_N_None_iff in Hb. lia.
Qed.

Lemma byte_of_to_N b : byte_of (Byte.to_N b) = b.
Proof. unfold byte_of. by rewrite Byte.of_to_N. Qed.

Section utf8.
Local Open Scope N_scope.

(** The surrogates D800-DFFF cannot be encoded ([UnicodeEncodeError]). *)
Definition is_scalar (c : N) : bool :=
  (c <? 0x110000) && negb ((0xD800 <=? c) && (c <=? 0xDFFF)).

Definition utf8_char (c : N) : pybytes :=
  if c <? 0x80 then [byte_of c]
  else if c <? 0x800 then [byte_of (0xC0 + c / 64); byte_of (0x80 + c mod 64)]
  else if c <? 0x10000 then
    [byte_of (0xE0 + c / 4096); byte_of (0x80 + c / 64 mod 64); byte_of (0x80 + c mod 64)]
  else
    [byte_of (0xF0 + c / 262144); byte_of (0x80 + c / 4096 mod 64);
     byte_of (0x80 + c / 64 mod 64); byte_of (0x80 + c mod 64)].

Definition encodable (s : pystr) : bool := forallb is_scalar s.

(** [s.encode("utf-8")] *)
Definition utf8_encode (s : pystr) : option pybytes :=
  if encodable s then Some (s ≫= utf8_char) else None.

(** [s.encode("utf-8", "replace")]: a surrogate becomes ["?"]. *)
Definition utf8_encode_replace (s : pystr) : pybytes :=
  s ≫= λ c, if is_scalar c then utf8_char c else [byte_of 63].

Definition is_cont (n : N) : bool := (0x80 <=? n) && (n <=? 0xBF).

(** [b.decode("utf-8")], strict: no overlong forms, no surrogates. *)
Fixpoint utf8_decode (bs : pybytes) : option pystr :=
  match bs with
  | [] => Some []
  | b0 :: r0 =>
      let n0 := Byte.to_N b0 in
      if n0 <? 0x80 then cons n0 <$> utf8_decode r0 else
      match r0 with
      | [] => None
      | b1 :: r1 =>
          let n1 := Byte.to_N b1 in
          if negb (is_cont n1) then None else
          if (0xC2 <=? n0) && (n0 <=? 0xDF) then
            cons ((n0 - 0xC0) * 64 + (n1 - 0x80)) <$> utf8_decode r1 else
          match r1 with
          | [] => None
          | b2 :: r2 =>
              let n2 := Byte.to_N b2 in
              if negb (is_cont n2) then None else
              if (0xE0 <=? n0) && (n0 <=? 0xEF) then
                let c := (n0 - 0xE0) * 4096 + (n1 - 0x80) * 64 + (n2 - 0x80) in
                if (0x800 <=? c) && is_scalar c then cons c <$> utf8_decode r2 else None
              else
              match r2 with
              | [] => None
              | b3 :: r3 =>
                  let n3 := Byte.to_N b3 in
                  if negb (is_cont n3) then None else
                  if (0xF0 <=? n0) && (n0 <=? 0xF4) then
                    let c := (n0 - 0xF0) * 262144 + (n1 - 0x80) * 4096
                             + (n2 - 0x80) * 64 + (n3 - 0x80) in
                    if (0x10000 <=? c) && is_scalar c then cons c <$> utf8_decode r3
                    else None
                  else None
              end
          end
      end
  end.

(** The base-64 digits of a code point. *)
Lemma digits64 c :
  c < 0x110000 →
  ∃ p q r s, c = p * 262144 + q * 4096 + r * 64 + s ∧ p < 5 ∧ q < 64 ∧ r < 64 ∧ s < 64 ∧
    c mod 64 = s ∧ c / 64 mod 64 = r ∧ c / 4096 mod 64 = q ∧ c / 262144 = p ∧
    c / 64 = p * 4096 + q * 64 + r ∧ c / 4096 = p * 64 + q.
Proof.
  intros Hc. exists (c / 262144), (c / 4096 mod 64), (c / 64 mod 64), (c mod 64).
  repeat split; divlia.
Qed.

Local Ltac decide_cmp :=
  repeat (match goal with
          | |- context [?a <? ?b] =>
              first [rewrite (proj2 (N.ltb_lt a b)) by lia | rewrite (proj2 (N.ltb_ge a b)) by lia]
          | |- context [?a <=? ?b] =>
              first [rewrite (proj2 (N.leb_le a b)) by lia | rewrite (proj2 (N.leb_gt a b)) by lia]
          end; cbn [negb andb]).

Lemma utf8_decode_char c bs :
  is_scalar c = true → utf8_decode (utf8_char c ++ bs) = cons c <$> utf8_decode bs.
Proof.
  intros Hc. assert (c < 0x110000) as Hlt.
  { unfold is_scalar in Hc. apply andb_true_iff in Hc as [Hc _]. by apply N.ltb_lt in Hc. }
  destruct (digits64 c Hlt) as (p & q & r & s & Hd & ? & ? & ? & ? & E1 & E2 & E3 & E4 & E5 & E6).
  unfold utf8_char. rewrite E1, E2, E3, E4, E5, E6.
  destruct (N.ltb_spec c 0x80);
    [|destruct (N.ltb_spec c 0x800); [|destruct (N.ltb_spec c 0x10000)]];
    cbn [utf8_decode app]; rewrite !to_N_byte_of by lia; unfold is_cont; decide_cmp.
  - done.
  - do 2 f_equal. lia.
  - replace (_ + _ + _) with c by lia. rewrite Hc. decide_cmp. done.
  - replace (_ + _ + _ + _) with c by lia. rewrite Hc. decide_cmp. done.
Qed.

(** Decoding undoes encoding. *)
Lemma utf8_decode_encode s bs : utf8_encode s = Some bs → utf8_decode bs = Some s.
Proof.
  unfold utf8_encode, encodable. destruct (forallb _ _) eqn:H; [|done].
  intros [= <-]. induction s as [|c s IH]; [done|]. simpl in H.
  apply andb_true_iff in H as [Hc Hs]. rewrite bind_cons, utf8_decode_char, IH by done. done.
Qed.
End utf8.

(** A [str] literal of the source: its UTF-8 bytes are the bytes of the Rocq literal. *)
Definition u (lit : String.string) : pystr :=
  default [] (utf8_decode (list_byte_of_string lit)).
Arguments u lit%_string : simpl never.

(** ** Character classes *)

Definition in_ranges (rs : list (N * N)) (c : N) : bool :=
  existsb (λ r, (r.1 <=? c)%N && (c <=? r.2)%N) rs.

Lemma in_ranges_within rs lo hi c :
  forallb (λ r, (lo <=? r.1)%N && (r.2 <=? hi)%N) rs = true →
  in_ranges rs c = true → (lo ≤ c ≤ hi)%N.
Proof.
  rewrite forallb_true. intros Hrs. unfold in_ranges. rewrite existsb_exists.
  intros (r & Hin & Hr). specialize (Hrs r). rewrite <- list_elem_of_In in Hin.
  specialize (Hrs Hin). rewrite andb_true_iff, !N.leb_le in *. lia.
Qed.

Lemma in_ranges_outside rs lo hi c :
  forallb (λ r, (r.2 <? lo)%N || (hi <? r.1)%N) rs = true →
  (lo ≤ c ≤ hi)%N → in_ranges rs c = false.
Proof.
  rewrite forallb_true. intros Hrs Hc. apply existsb_false. intros r Hin.
  specialize (Hrs r Hin). rewrite orb_true_iff, !N.ltb_lt in Hrs.
  rewrite andb_false_iff, !N.leb_gt. lia.
Qed.

(** [str.isspace] and [\s] of the [re] module agree on this set. *)
Definition space_ranges : list (N * N) :=
  [(9, 13); (28, 32); (133, 133); (160, 160); (5760, 5760); (8192, 8202); (8232, 8233);
   (8239, 8239); (8287, 8287); (12288, 12288)]%N.
Definition is_space (c : N) : bool := in_ranges space_ranges c.

(** The line boundaries of [str.splitlines]. *)
Definition break_ranges : list (N * N) := [(10, 13); (28, 30); (133, 133); (8232, 8233)]%N.
Definition is_break (c : N) : bool := in_ranges break_ranges c.

(** ** Operations of [str] *)

Definition str_eqb (s t : pystr) : bool := bool_decide (s = t).

Lemma str_eqb_true s t : str_eqb s t = true ↔ s = t.
Proof. apply bool_decide_eq_true. Qed.
Lemma str_eqb_false s t : str_eqb s t = false ↔ s ≠ t.
Proof. apply bool_decide_eq_false. Qed.

Fixpoint startswith (p s : pystr) : bool :=
  match p, s with
  | [], _ => true
  | a :: p, b :: s => (a =? b)%N && startswith p s
  | _ :: _, [] => false
  end.

Definition endswith (p s : pystr) : bool := startswith (reverse p) (reverse s).

Fixpoint lstrip (s : pystr) : pystr :=
  match s with
  | c :: r => if is_space c then lstrip r else s
  | [] => []
  end.
Definition rstrip (s : pystr) : pystr := reverse (lstrip (reverse s)).
Definition strip (s : pystr) : pystr := rstrip (lstrip s).

(** [s.rstrip("\r\n")] *)
Fixpoint drop_crlf (s : pystr) : pystr :=
  match s with
  | c :: r => if (c =? 10)%N || (c =? 13)%N then drop_crlf r else s
  | [] => []
  end.
Definition rstrip_crlf (s : pystr) : pystr := reverse (drop_crlf (reverse s)).

(** [s.splitlines(keepends=True)]: ["\r\n"] is one boundary. *)
Fixpoint splitlines_keep (s : pystr) : list pystr :=
  match s with
  | [] => []
  | c :: r =>
      if is_break c then
        match r with
        | d :: r' =>
            if (c =? 13)%N && (d =? 10)%N then [c; d] :: splitlines_keep r'
            else [c] :: splitlines_keep r
        | [] => [[c]]
        end
      else
        match splitlines_keep r with
        | [] => [[c]]
        | l :: ls => (c :: l) :: ls
        end
  end.

(** The end of a kept line: ["\r\n"] or one boundary character. *)
Definition strip_break (l : pystr) : pystr :=
  match reverse l with
  | d :: c :: r =>
      if (c =? 13)%N && (d =? 10)%N then reverse r
      else if is_break d then reverse (c :: r) else l
  | [d] => if is_break d then [] else l
  | [] => []
  end.
Definition splitlines (s : pystr) : list pystr := strip_break <$> splitlines_keep s.

(** [s.split()]: the maximal runs of non-space characters. *)
Fixpoint split_ws (s : pystr) : list pystr :=
  match s with
  | [] => []
  | c :: r =>
      if is_space c then split_ws r
      else match r with
           | [] => [[c]]
           | d :: _ => if is_space d then [c] :: split_ws r
                       else match split_ws r with
                            | [] => [[c]]
                            | w :: ws => (c :: w) :: ws
                            end
           end
  end.

Fixpoint str_join (sep : pystr) (ws : list pystr) : pystr :=
  match ws with
  | [] => []
  | [w] => w
  | w :: ws => w ++ sep ++ str_join sep ws
  end.

(** [" ".join(s.split())] *)
Definition normalize_ws (s : pystr) : pystr := str_join [32%N] (split_ws s).

(** [s.split(sep, 1)] for a one-character separator: [None] when it does not occur. *)
Fixpoint split_once (sep : N) (s : pystr) : option (pystr * pystr) :=
  match s with
  | [] => None
  | c :: r =>
      if (c =? sep)%N then Some ([], r)
      else match split_once sep r with
           | Some (a, b) => Some (c :: a, b)
           | None => None
           end
  end.

Definition lower_ascii (c : N) : N := if (65 <=? c)%N && (c <=? 90)%N then (c + 32)%N else c.

(** [str.casefold] on ASCII, and on the two code points outside ASCII that fold to one
    ASCII letter (LATIN SMALL LETTER LONG S and KELVIN SIGN).  It is exact for comparing
    with an ASCII word that holds none of the letter pairs a ligature folds to. *)
Definition casefold (s : pystr) : pystr :=
  (λ c, if (c =? 383)%N then 115%N else if (c =? 8490)%N then 107%N else lower_ascii c) <$> s.

(** [str(z)] and [f"{z}"] *)
Definition int_str (z : Z) : pystr := u (pretty z).
Definition nat_str (n : nat) : pystr := int_str (Z.of_nat n).

(** The order of [sorted] on [str]: by code points. *)
Fixpoint str_leb (s t : pystr) : bool :=
  match s, t with
  | [], _ => true
  | _ :: _, [] => false
  | a :: s, b :: t => if (a =? b)%N then str_leb s t else (a <? b)%N
  end.

Fixpoint insert_by {A} (leb : A → A → bool) (x : A) (l : list A) : list A :=
  match l with
  | [] => [x]
  | y :: l' => if leb x y then x :: l else y :: insert_by leb x l'
  end.
Definition sort_by {A} (leb : A → A → bool) (l : list A) : list A :=
  foldr (insert_by leb) [] l.
(** [sorted(l)] on strings *)
Definition sorted_str : list pystr → list pystr := sort_by str_leb.

Lemma insert_by_perm {A} (leb : A → A → bool) x l : insert_by leb x l ≡ₚ x :: l.
Proof.
  induction l as [|y l IH]; simpl; [done|]. destruct (leb x y); [done|].
  rewrite IH. constructor.
Qed.
Lemma sort_by_perm {A} (leb : A → A → bool) l : sort_by leb l ≡ₚ l.
Proof. induction l as [|x l IH]; simpl; [done|]. by rewrite insert_by_perm, IH. Qed.

(** ** Lemmas *)

Lemma splitlines_keep_nil s : splitlines_keep s = [] ↔ s = [].
Proof.
  destruct s as [|c r]; [done|]. split; [|done]. simpl.
  destruct (is_break c).
  - destruct r as [|d r]; [done|]. by destruct (_ && _).
  - by destruct (splitlines_keep r).
Qed.

Lemma splitlines_keep_crlf r :
  splitlines_keep (13 :: 10 :: r)%N = [13; 10]%N :: splitlines_keep r.
Proof. done. Qed.

(** A break character that does not start ["\r\n"] is a boundary of its own. *)
Lemma splitlines_keep_break c r :
  is_break c = true → (c = 13%N → head r ≠ Some 10%N) →
  splitlines_keep (c :: r) = [c] :: splitlines_keep r.
Proof.
  intros Hc Hr. cbn [splitlines_keep]. rewrite Hc. destruct r as [|d r]; [done|].
  destruct (N.eqb_spec c 13), (N.eqb_spec d 10); try done. subst. by destruct Hr.
Qed.

Lemma splitlines_keep_char c r :
  is_break c = false →
  splitlines_keep (c :: r) =
  match splitlines_keep r with [] => [[c]] | l :: ls => (c :: l) :: ls end.
Proof. intros Hc. cbn [splitlines_keep]. by rewrite Hc. Qed.

(** Case analysis on the first step of the split. *)
Lemma splitlines_keep_ind (P : pystr → list pystr → Prop) :
  P [] [] →
  (∀ r ls, P r ls → P (13 :: 10 :: r)%N ([13; 10]%N :: ls)) →
  (∀ c r ls, is_break c = true → (c = 13%N → head r ≠ Some 10%N) → P r ls → P (c :: r) ([c] :: ls)) →
  (∀ c, is_break c = false → P [c] [[c]]) →
  (∀ c r l ls, is_break c = false → r ≠ [] → P r (l :: ls) → P (c :: r) ((c :: l) :: ls)) →
  ∀ s, P s (splitlines_keep s).
Proof.
  intros H0 H1 H2 H3 H4 s.
  induction s as [s IH] using (induction_ltof1 _ (@length N)). unfold ltof in IH.
  destruct s as [|c r]; [done|]. destruct (is_break c) eqn:Hc.
  - destruct (decide (c = 13%N ∧ head r = Some 10%N)) as [[-> Hh]|Hn].
    + destruct r as [|d r]; [done|]. injection Hh as ->. rewrite splitlines_keep_crlf.
      apply H1, IH. simpl. lia.
    + rewrite splitlines_keep_break by naive_solver. apply H2; [done|naive_solver|].
      apply IH. simpl. lia.
  - rewrite splitlines_keep_char by done. specialize (IH r).
    destruct (splitlines_keep r) as [|l ls] eqn:E.
    + apply splitlines_keep_nil in E as ->. by apply H3.
    + apply H4; [done| |apply IH; simpl; lia]. by intros ->.
Qed.

(** Splitting loses nothing. *)
Lemma concat_splitlines_keep s : concat (splitlines_keep s) = s.
Proof.
  apply (splitlines_keep_ind (λ s ls, concat ls = s)); simpl; intros; by simplify_eq.
Qed.

(** No kept line is empty. *)
Lemma splitlines_keep_nonempty s l : l ∈ splitlines_keep s → l ≠ [].
Proof.
  revert l. apply (splitlines_keep_ind (λ _ ls, ∀ l, l ∈ ls → l ≠ [])); set_solver.
Qed.

(** * White space in strings

    [str.split], [" ".join] and [str.strip]: the normalisation [" ".join(text.split())] is
    idempotent, shortens the text and leaves no space at its ends. *)
Local Close Scope N_scope.
#[local] Arguments normalize_ws : simpl never.

Definition word (w : pystr) : Prop := w ≠ [] ∧ Forall (λ c, is_space c = false) w.

Lemma split_ws_space c s : is_space c = true → split_ws (c :: s) = split_ws s.
Proof. intros Hc. simpl. by rewrite Hc. Qed.

Lemma split_ws_words s : Forall word (split_ws s).
Proof.
  induction s as [|c s IH]; simpl; [constructor|]. destruct (is_space c) eqn:Hc; [done|].
  destruct s as [|d s]; [by repeat constructor|]. destruct (is_space d) eqn:Hd.
  - constructor; [|done]. by repeat constructor.
  - destruct (split_ws (d :: s)) as [|w ws]; [by repeat constructor|].
    apply Forall_cons in IH as [[_ Hw] Hws]. constructor; [|done]. split; [done|by constructor].
Qed.

(** A word in front of a text that starts with a space, or of nothing. *)
Lemma split_ws_word w s :
  word w → (∀ c, head s = Some c → is_space c = true) → split_ws (w ++ s) = w :: split_ws s.
Proof.
  intros [Hne Hw] Hs. induction Hw as [|c w Hc Hw IH]; [done|]. simpl. rewrite Hc.
  destruct w as [|d w]; simpl app.
  - destruct s as [|d s]; [done|]. by rewrite (Hs d).
  - apply Forall_cons in Hw as [Hd _]. rewrite Hd.
    change (d :: w ++ s) with ((d :: w) ++ s). by rewrite IH.
Qed.

Lemma split_join ws : Forall word ws → split_ws (str_join [32%N] ws) = ws.
Proof.
  induction 1 as [|w ws Hw Hws IH]; [done|]. destruct ws as [|w' ws].
  - simpl. rewrite <- (app_nil_r w) at 1. by rewrite split_ws_word.
  - change (str_join [32%N] (w :: w' :: ws)) with (w ++ 32%N :: str_join [32%N] (w' :: ws)).
    rewrite split_ws_word; [|done|by intros ? [= <-]]. by rewrite split_ws_space, IH.
Qed.

Lemma split_ws_char c r :
  is_space c = false →
  split_ws (c :: r) = match r with
                      | [] => [[c]]
                      | d :: _ => if is_space d then [c] :: split_ws r
                                  else match split_ws r with
                                       | [] => [[c]]
                                       | w :: ws => (c :: w) :: ws
                                       end
                      end.
Proof. intros Hc. simpl. by rewrite Hc. Qed.

Lemma split_ws_snoc s c : is_space c = true → split_ws (s ++ [c]) = split_ws s.
Proof.
  intros Hc. induction s as [|d s IH]; [by apply split_ws_space|]. rewrite <- app_comm_cons.
  destruct (is_space d) eqn:Hd; [by rewrite !split_ws_space|].
  rewrite !split_ws_char, IH by done. destruct s as [|e s]; [simpl; by rewrite Hc|done].
Qed.

Lemma split_ws_lstrip s : split_ws (lstrip s) = split_ws s.
Proof.
  induction s as [|c s IH]; [done|]. cbn [lstrip]. destruct (is_space c) eqn:Hc; [|done].
  by rewrite split_ws_space.
Qed.

Lemma split_ws_rstrip s : split_ws (rstrip s) = split_ws s.
Proof.
  induction s as [|c s IH] using rev_ind; [done|]. unfold rstrip in *. rewrite reverse_snoc. simpl.
  destruct (is_space c) eqn:Hc; [by rewrite split_ws_snoc|].
  by rewrite reverse_cons, reverse_involutive.
Qed.

Lemma split_ws_strip s : split_ws (strip s) = split_ws s.
Proof. unfold strip. by rewrite split_ws_rstrip, split_ws_lstrip. Qed.

Lemma length_join_cons c w ws : length (str_join [32%N] ((c :: w) :: ws)) = S (length (str_join [32%N] (w :: ws))).
Proof. by destruct ws. Qed.

Lemma length_normalize s : length (normalize_ws s) ≤ length s.
Proof.
  unfold normalize_ws. remember (length s) as n eqn:Hn. revert s Hn.
  induction (lt_wf n) as [n _ IH]. intros s ->.
  assert (∀ t, length t < length s → length (str_join [32%N] (split_ws t)) ≤ length t) as IH'.
  { intros t Ht. by apply (IH (length t)). }
  clear IH. destruct s as [|c s]; [done|]. simpl in *.
  destruct (is_space c); [transitivity (length s); auto with lia|].
  destruct s as [|d s]; [done|]. destruct (is_space d) eqn:Hd.
  - rewrite split_ws_space by done. specialize (IH' s). simpl in *.
    destruct (split_ws s); simpl in *; lia.
  - specialize (IH' (d :: s)). destruct (split_ws (d :: s)) as [|w ws]; [simpl; lia|].
    rewrite length_join_cons. simpl in *. lia.
Qed.

Lemma normalize_strip s : normalize_ws (strip s) = normalize_ws s.
Proof. unfold normalize_ws. by rewrite split_ws_strip. Qed.

Lemma normalize_idemp s : normalize_ws (normalize_ws s) = normalize_ws s.
Proof. unfold normalize_ws. by rewrite split_join by apply split_ws_words. Qed.

Lemma lstrip_id s : (∀ c, head s = Some c → is_space c = false) → lstrip s = s.
Proof. destruct s as [|c s]; [done|]. intros Hc. simpl. by rewrite (Hc c). Qed.

Lemma join_head ws c : Forall word ws → head (str_join [32%N] ws) = Some c → is_space c = false.
Proof.
  intros Hws. destruct Hws as [|w ws [Hne Hw] _]; [done|]. destruct w as [|d w]; [done|].
  assert (head (str_join [32%N] ((d :: w) :: ws)) = Some d) as -> by by destruct ws.
  intros [= <-]. by apply Forall_cons in Hw as [? _].
Qed.

Lemma join_last ws c : Forall word ws → last (str_join [32%N] ws) = Some c → is_space c = false.
Proof.
  induction 1 as [|w ws [Hne Hw] Hws IH]; [done|]. destruct ws as [|w' ws].
  - simpl. intros Hc. by apply (proj1 (Forall_forall _ _) Hw), last_Some_elem_of.
  - change (str_join [32%N] (w :: w' :: ws)) with (w ++ 32%N :: str_join [32%N] (w' :: ws)).
    rewrite last_app, last_cons.
    destruct (last (str_join [32%N] (w' :: ws))) as [d|] eqn:E; [intros [= <-]; by apply IH|].
    apply last_None in E. inversion Hws as [|? ? [Hne' _]]; subst. by destruct w', ws.
Qed.

(** A normalised text has no space at either end. *)
Lemma strip_normalize s : strip (normalize_ws s) = normalize_ws s.
Proof.
  unfold strip, normalize_ws. pose proof (split_ws_words s) as Hw.
  rewrite lstrip_id by (intros c; by apply join_head). unfold rstrip.
  rewrite lstrip_id; [apply reverse_involutive|]. intros c Hc. apply (join_last (split_ws s)); [done|].
  rewrite <- Hc. rewrite <- (reverse_involutive (str_join _ _)) at 1. by rewrite last_reverse.
Qed.

Lemma in_split_ws w s c : w ∈ split_ws s → c ∈ w → c ∈ s.
Proof.
  revert w. induction s as [|d s IH]; intros w; [by intros ?%not_elem_of_nil|].
  destruct (is_space d) eqn:Hd; [rewrite split_ws_space by done; set_solver|].
  rewrite split_ws_char by done.
  destruct s as [|e s]; [by intros ->%list_elem_of_singleton|].
  assert (∀ w, w ∈ split_ws (e :: s) → c ∈ w → c ∈ d :: e :: s) as IH'.
  { intros w' Hw Hc. right. by apply (IH w'). }
  destruct (is_space e).
  - intros [->|Hin]%elem_of_cons Hc; [|by apply (IH' w)].
    apply list_elem_of_singleton in Hc as ->. by left.
  - destruct (split_ws (e :: s)) as [|w' ws]; [by intros ->%list_elem_of_singleton ->%list_elem_of_singleton; left|].
    intros [->|Hin]%elem_of_cons Hc; [|apply (IH' w); [by right|done]].
    apply elem_of_cons in Hc as [->|Hc]; [by left|]. apply (IH' w'); [by left|done].
Qed.

Lemma in_join ws c : c ∈ str_join [32%N] ws → c = 32%N ∨ ∃ w, w ∈ ws ∧ c ∈ w.
Proof.
  induction ws as [|w ws IH]; [by intros ?%not_elem_of_nil|]. destruct ws as [|w' ws].
  - simpl. set_solver.
  - change (str_join [32%N] (w :: w' :: ws)) with (w ++ 32%N :: str_join [32%N] (w' :: ws)).
    intros [Hc|[->|Hc]%elem_of_cons]%elem_of_app; [set_solver|by left|].
    destruct (IH Hc) as [->|(x & Hx & Hcx)]; [by left|set_solver].
Qed.

Lemma in_normalize s c : c ∈ normalize_ws s → c ∈ s ∨ c = 32%N.
Proof.
  intros [->|(w & Hw & Hc)]%in_join; [by right|left]. by eapply in_split_ws.
Qed.

Lemma split_ws_nil s : split_ws s = [] → lstrip s = [].
Proof.
  induction s as [|c s IH]; [done|]. simpl lstrip. destruct (is_space c) eqn:Hc.
  - rewrite split_ws_space by done. apply IH.
  - rewrite split_ws_char by done. destruct s as [|d s]; [done|]. destruct (is_space d); [done|].
    by destruct (split_ws (d :: s)).
Qed.

Lemma normalize_nil s : normalize_ws s = [] → strip s = [].
Proof.
  unfold normalize_ws, strip. intros H. rewrite split_ws_nil; [done|].
  pose proof (split_ws_words s) as Hw. destruct Hw as [|w ws [Hne _] _]; [done|].
  by destruct w, ws.
Qed.
