(* ===== verification/Regex.v ===== *)
(** * Regular expressions

    The patterns the code passes to [re.fullmatch] are values of [regex]; [fullmatch] decides
    them by derivatives and [fullmatch_correct] relates it to their language. *)
From S2P Require Import Prelude PyText.

Inductive regex : Type :=
| RNone
| REps
| RSet (rs : list (N * N))       (* [[a-z...]] *)
| RNot (rs : list (N * N))       (* [[^...]] *)
| RSeq (r1 r2 : regex)
| RAlt (r1 r2 : regex)
| RStar (r : regex)
| RRep (r : regex) (lo hi : nat). (* [r{lo,hi}] *)

(** [r+] and [r?] *)
Definition RPlus (r : regex) : regex := RSeq r (RStar r).
Definition ROpt (r : regex) : regex := RAlt REps r.

(** A literal. *)
Definition RLit (s : pystr) : regex := foldr (λ c, RSeq (RSet [(c, c)])) REps s.
Definition RAny : regex := RNot [(10, 10)%N]. (* [.] *)
Definition RAlts (rs : list regex) : regex := foldr RAlt RNone rs.

Declare Scope regex_scope.
Delimit Scope regex_scope with regex.
Bind Scope regex_scope with regex.
Notation "r1 · r2" := (RSeq r1 r2) (at level 42, right associativity) : regex_scope.

(** Ranges of the ASCII classes. *)
Definition lower : list (N * N) := [(97, 122)%N].
Definition upper : list (N * N) := [(65, 90)%N].
Definition digit : list (N * N) := [(48, 57)%N].
Definition hexdigits : list (N * N) := [(48, 57); (97, 102)]%N.
Definition chars (s : pystr) : list (N * N) := (λ c, (c, c)) <$> s.

Inductive matches : regex → pystr → Prop :=
| MEps : matches REps []
| MSet rs c : in_ranges rs c = true → matches (RSet rs) [c]
| MNot rs c : in_ranges rs c = false → matches (RNot rs) [c]
| MSeq r1 r2 s1 s2 : matches r1 s1 → matches r2 s2 → matches (RSeq r1 r2) (s1 ++ s2)
| MAlt1 r1 r2 s : matches r1 s → matches (RAlt r1 r2) s
| MAlt2 r1 r2 s : matches r2 s → matches (RAlt r1 r2) s
| MStar0 r : matches (RStar r) []
| MStarS r s1 s2 : matches r s1 → matches (RStar r) s2 → matches (RStar r) (s1 ++ s2)
| MRep0 r hi : matches (RRep r 0 hi) []
| MRepS r lo hi s1 s2 :
    matches r s1 → matches (RRep r (pred lo) hi) s2 → matches (RRep r lo (S hi)) (s1 ++ s2).

Fixpoint nullable (r : regex) : bool :=
  match r with
  | RNone | RSet _ | RNot _ => false
  | REps | RStar _ => true
  | RSeq r1 r2 => nullable r1 && nullable r2
  | RAlt r1 r2 => nullable r1 || nullable r2
  | RRep r lo hi => (lo =? 0) || (nullable r && (lo <=? hi))
  end.

(** Constructors that drop impossible branches, so derivatives stay small. *)
Definition seq_ (r1 r2 : regex) : regex :=
  match r1, r2 with
  | RNone, _ | _, RNone => RNone
  | REps, _ => r2
  | _, _ => RSeq r1 r2
  end.
Definition alt_ (r1 r2 : regex) : regex :=
  match r1, r2 with
  | RNone, _ => r2
  | _, RNone => r1
  | _, _ => RAlt r1 r2
  end.

Fixpoint deriv (c : N) (r : regex) : regex :=
  match r with
  | RNone | REps => RNone
  | RSet rs => if in_ranges rs c then REps else RNone
  | RNot rs => if in_ranges rs c then RNone else REps
  | RSeq r1 r2 =>
      let d := seq_ (deriv c r1) r2 in
      if nullable r1 then alt_ d (deriv c r2) else d
  | RAlt r1 r2 => alt_ (deriv c r1) (deriv c r2)
  | RStar r => seq_ (deriv c r) (RStar r)
  | RRep r lo hi =>
      match hi with
      | O => RNone
      | S hi => seq_ (deriv c r) (RRep r (pred lo) hi)
      end
  end.

(** [re.fullmatch(r, s) is not None] *)
Definition fullmatch (r : regex) (s : pystr) : bool := nullable (foldl (flip deriv) r s).

Create HintDb regex discriminated.
#[export] Hint Constructors matches : regex.

Lemma seq_inv r1 r2 s :
  matches (RSeq r1 r2) s → ∃ s1 s2, s = s1 ++ s2 ∧ matches r1 s1 ∧ matches r2 s2.
Proof. inversion 1; eauto. Qed.
Lemma set_inv rs s : matches (RSet rs) s → ∃ c, s = [c] ∧ in_ranges rs c = true.
Proof. inversion 1; eauto. Qed.
Lemma eps_inv s : matches REps s → s = [].
Proof. by inversion 1. Qed.

Lemma seq_matches r1 r2 s : matches (seq_ r1 r2) s ↔ matches (RSeq r1 r2) s.
Proof.
  split.
  - intros H. destruct r1, r2; simpl in H; try done; try by inversion H.
    all: change s with ([] ++ s); auto with regex.
  - intros (s1 & s2 & -> & H1 & H2)%seq_inv.
    destruct r1, r2; simpl; try (by inversion H1); try (by inversion H2); try by constructor.
    all: apply eps_inv in H1 as ->; done.
Qed.

Lemma alt_matches r1 r2 s : matches (alt_ r1 r2) s ↔ matches (RAlt r1 r2) s.
Proof.
  split.
  - destruct r1, r2; simpl; auto with regex.
  - intros H. inversion H as [ | | | |? ? ? H1|? ? ? H1| | | | ]; subst;
      destruct r1, r2; simpl; try done; by inversion H1.
Qed.

Lemma rep_nil r lo hi : matches r [] → lo ≤ hi → matches (RRep r lo hi) [].
Proof.
  intros Hr. revert lo. induction hi as [|hi IH]; intros [|lo] Hle; auto with regex; [lia|].
  change (@nil N) with (@nil N ++ []). constructor; [done|]. apply IH. simpl. lia.
Qed.

Lemma rep_le r lo hi s : matches (RRep r lo hi) s → lo ≤ hi.
Proof.
  remember (RRep r lo hi) as q eqn:E. intros H. revert lo hi E.
  induction H; intros ?? [=]; subst; [lia|]. specialize (IHmatches2 _ _ eq_refl). lia.
Qed.

Lemma nullable_correct r : nullable r = true ↔ matches r [].
Proof.
  induction r as [| |rs|rs|r1 IH1 r2 IH2|r1 IH1 r2 IH2|r IH|r IH lo hi]; simpl.
  - split; [done|inversion 1].
  - split; auto with regex.
  - split; [done|inversion 1].
  - split; [done|inversion 1].
  - rewrite andb_true_iff, IH1, IH2. split.
    + intros []. change (@nil N) with (@nil N ++ []). auto with regex.
    + intros (s1 & s2 & E & ? & ?)%seq_inv. symmetry in E.
      by apply app_nil in E as [-> ->].
  - rewrite orb_true_iff, IH1, IH2. split.
    + intros []; auto with regex.
    + inversion 1; auto.
  - split; auto with regex.
  - rewrite orb_true_iff, andb_true_iff, Nat.eqb_eq, Nat.leb_le, IH. split.
    + intros [->|[Hr Hle]]; auto using rep_nil with regex.
    + intros H. pose proof (rep_le _ _ _ _ H) as Hle.
      inversion H; subst; [by left|].
      match goal with E : _ ++ _ = [] |- _ => apply app_nil in E as [-> ->] end. by right.
Qed.

Lemma star_cons r c s :
  matches (RStar r) (c :: s) ↔
  ∃ s1 s2, s = s1 ++ s2 ∧ matches r (c :: s1) ∧ matches (RStar r) s2.
Proof.
  split.
  - remember (RStar r) as q eqn:Eq. remember (c :: s) as t eqn:Et. intros H. revert c s Et.
    induction H as [| | | | | | |? s1 s2 H1 _ H2 IH2| |]; intros c0 s0 Et; try done.
    injection Eq as ->. destruct s1 as [|c' s1]; simpl in *.
    + by apply IH2.
    + injection Et as -> <-. eauto.
  - intros (s1 & s2 & -> & H1 & H2). by apply (MStarS r (c :: s1) s2).
Qed.

Lemma rep_mono r lo lo' hi hi' s :
  matches (RRep r lo hi) s → matches r [] → lo' ≤ hi' → hi ≤ hi' → matches (RRep r lo' hi') s.
Proof.
  remember (RRep r lo hi) as q eqn:E. intros H Hr. revert lo hi lo' hi' E.
  induction H as [| | | | | | | |? hi0|r0 lo0 hi0 s1 s2 H1 _ H2 IH2];
    intros lo hi lo' hi' [=] Hlo Hhi; subst.
  - by apply rep_nil.
  - destruct hi' as [|hi']; [lia|]. constructor; [done|].
    eapply IH2; [done..| |]; simpl; lia.
Qed.

Lemma rep_cons r lo hi c s :
  matches (RRep r lo hi) (c :: s) ↔
  ∃ s1 s2 hi', hi = S hi' ∧ s = s1 ++ s2 ∧ matches r (c :: s1) ∧ matches (RRep r (pred lo) hi') s2.
Proof.
  split.
  - remember (RRep r lo hi) as q eqn:Eq. remember (c :: s) as t eqn:Et. intros H.
    revert c s lo hi Et Eq.
    induction H as [| | | | | | | |? hi0|r0 lo0 hi0 s1 s2 H1 _ H2 IH2];
      intros c' t' lo hi Et Eq; try done.
    injection Eq as -> -> <-. destruct s1 as [|d s1]; simpl in *.
    + destruct (IH2 c' t' _ _ Et eq_refl) as (s1 & s3 & hi' & -> & -> & Hc & Hs).
      exists s1, s3, (S hi'). repeat split; [done|].
      pose proof (rep_le _ _ _ _ H2). pose proof (rep_le _ _ _ _ Hs).
      apply (rep_mono _ _ (pred lo) _ (S hi') _ Hs H1); lia.
    + injection Et as -> <-. by exists s1, s2, hi0.
  - intros (s1 & s2 & hi' & -> & -> & H1 & H2). by apply (MRepS r lo hi' (c :: s1) s2).
Qed.

Lemma deriv_correct c r s : matches (deriv c r) s ↔ matches r (c :: s).
Proof.
  revert s. induction r as [| |rs|rs|r1 IH1 r2 IH2|r1 IH1 r2 IH2|r IH|r IH lo hi]; intros s; simpl.
  - split; inversion 1.
  - split; inversion 1.
  - destruct (in_ranges rs c) eqn:Hc; split; inversion 1; subst; eauto with regex; congruence.
  - destruct (in_ranges rs c) eqn:Hc; split; inversion 1; subst; eauto with regex; congruence.
  - assert (matches (seq_ (deriv c r1) r2) s ↔
            ∃ s1 s2, s = s1 ++ s2 ∧ matches r1 (c :: s1) ∧ matches r2 s2) as Hseq.
    { rewrite seq_matches. split.
      - inversion 1; subst. eexists _, _. by rewrite <- IH1.
      - intros (s1 & s2 & -> & ? & ?). constructor; [by apply IH1|done]. }
    assert (matches (RSeq r1 r2) (c :: s) ↔
            (∃ s1 s2, s = s1 ++ s2 ∧ matches r1 (c :: s1) ∧ matches r2 s2) ∨
            (matches r1 [] ∧ matches r2 (c :: s))) as ->.
    { split.
      - intros ([|c' s1] & s2 & E & ? & ?)%seq_inv; simpl in *; simplify_eq; eauto 8.
      - intros [(s1 & s2 & -> & ? & ?)|[]].
        + by apply (MSeq r1 r2 (c :: s1) s2).
        + by apply (MSeq r1 r2 [] (c :: s)). }
    rewrite <- nullable_correct. destruct (nullable r1).
    + rewrite alt_matches. split.
      * inversion 1; subst; [left; by apply Hseq | right; split; [done|by apply IH2]].
      * intros [|[]]; [apply MAlt1; by apply Hseq | apply MAlt2; by apply IH2].
    + rewrite Hseq. naive_solver.
  - rewrite alt_matches. split.
    + inversion 1; subst; [apply MAlt1; by apply IH1 | apply MAlt2; by apply IH2].
    + inversion 1; subst; [apply MAlt1; by apply IH1 | apply MAlt2; by apply IH2].
  - rewrite seq_matches, star_cons. split.
    + inversion 1; subst. eexists _, _. by rewrite <- IH.
    + intros (s1 & s2 & -> & ? & ?). constructor; [by apply IH|done].
  - destruct hi as [|hi].
    + rewrite rep_cons. split; [inversion 1|naive_solver].
    + rewrite seq_matches, rep_cons. split.
      * inversion 1; subst. eexists _, _, _. by rewrite <- IH.
      * intros (s1 & s2 & hi' & [= <-] & -> & ? & ?). constructor; [by apply IH|done].
Qed.

(** The matcher decides the language of the pattern. *)
Lemma fullmatch_correct r s : fullmatch r s = true ↔ matches r s.
Proof.
  unfold fullmatch. revert r. induction s as [|c s IH]; intros r; simpl.
  - apply nullable_correct.
  - change (flip deriv r c) with (deriv c r). by rewrite IH, deriv_correct.
Qed.

(** ** Literals and bounded repetitions of a class *)

Lemma lit_matches p s : matches (RLit p) s ↔ s = p.
Proof.
  revert s. induction p as [|a p IH]; intros s; simpl; split.
  - by inversion 1.
  - intros ->. constructor.
  - intros (s1 & s2 & -> & H1 & H2)%seq_inv. apply IH in H2 as ->.
    apply set_inv in H1 as (c & -> & Hc). simpl. f_equal.
    simpl in Hc. rewrite orb_false_r, andb_true_iff, !N.leb_le in Hc. lia.
  - intros ->. apply (MSeq _ _ [a] p); [|by apply IH]. constructor.
    simpl. by rewrite N.leb_refl.
Qed.

Lemma rep_set_matches rs lo hi s :
  matches (RRep (RSet rs) lo hi) s ↔
  lo ≤ length s ≤ hi ∧ Forall (λ c, in_ranges rs c = true) s.
Proof.
  revert lo hi. induction s as [|c s IH]; intros lo hi.
  - rewrite <- nullable_correct. simpl. rewrite orb_false_r, Nat.eqb_eq. split.
    + intros ->. split; [lia|constructor].
    + lia.
  - rewrite rep_cons, Forall_cons. split.
    + intros (s1 & s2 & hi' & -> & -> & (c' & [= <- ->] & Hc)%set_inv & H2). simpl in *.
      apply IH in H2 as [Hl Hs]. repeat split; [lia|lia|done|done].
    + intros ([Hlo Hhi] & Hc & Hs). simpl in *. destruct hi as [|hi]; [lia|].
      exists [], s, hi. repeat split; [by constructor|]. apply IH. split; [lia|done].
Qed.

Lemma seq_lit_matches p r s : matches (RSeq (RLit p) r) s ↔ ∃ t, s = p ++ t ∧ matches r t.
Proof.
  split.
  - intros (s1 & s2 & -> & H1 & H2)%seq_inv. apply lit_matches in H1 as ->. eauto.
  - intros (t & -> & Ht). constructor; [by apply lit_matches|done].
Qed.

(** [^prefix[class]{lo,hi}$] *)
Lemma fullmatch_prefix p rs lo hi s :
  fullmatch (RSeq (RLit p) (RRep (RSet rs) lo hi)) s = true ↔
  ∃ t, s = p ++ t ∧ lo ≤ length t ≤ hi ∧ Forall (λ c, in_ranges rs c = true) t.
Proof.
  rewrite fullmatch_correct, seq_lit_matches.
  split; intros (t & -> & Ht); exists t; split; try done; by apply rep_set_matches.
Qed.
