(* ===== verification/Sha256.v ===== *)
(** * SHA-256

    [hashlib.sha256(data).hexdigest()]: the FIPS 180-4 algorithm on 32-bit words kept as [N]
    with the wrap-around written out. *)
From S2P Require Import Prelude PyText Regex.
From Stdlib Require Import Strings.Byte.
Local Open Scope N_scope.

Definition w32 (x : N) : N := x mod 2 ^ 32.
Definition rotr (n x : N) : N := N.lor (N.shiftr x n) (w32 (N.shiftl x (32 - n))).
Definition not32 (x : N) : N := N.lxor x (2 ^ 32 - 1).
Definition xor3 (x y z : N) : N := N.lxor (N.lxor x y) z.
Definition ch (x y z : N) : N := N.lxor (N.land x y) (N.land (not32 x) z).
Definition maj (x y z : N) : N := xor3 (N.land x y) (N.land x z) (N.land y z).
Definition big_sigma0 (x : N) : N := xor3 (rotr 2 x) (rotr 13 x) (rotr 22 x).
Definition big_sigma1 (x : N) : N := xor3 (rotr 6 x) (rotr 11 x) (rotr 25 x).
Definition small_sigma0 (x : N) : N := xor3 (rotr 7 x) (rotr 18 x) (N.shiftr x 3).
Definition small_sigma1 (x : N) : N := xor3 (rotr 17 x) (rotr 19 x) (N.shiftr x 10).

(** FIPS 180-4 takes its constants from the fractional parts of roots of the first primes. *)
Definition is_prime (p : N) : bool :=
  forallb (λ d, negb (p mod d =? 0)) (N.of_nat <$> seq 2 (N.to_nat p - 2)).
Definition primes : list N := List.filter is_prime (N.of_nat <$> seq 2 310).

(** The integer [k]-th root below [2 ^ bits], most significant bit first. *)
Definition int_root (k : N) (bits : nat) (n : N) : N :=
  foldl (λ r i, let r' := r + 2 ^ N.of_nat i in if r' ^ k <=? n then r' else r) 0
    (reverse (seq 0 bits)).

(** The first 32 bits of the fractional part of the [k]-th root. *)
Definition root_word (k p : N) : N := w32 (int_root k 40 (p * 2 ^ (32 * k))).

Definition round_constants : list N := Eval vm_compute in root_word 3 <$> primes.

(** The eight chaining words [a b c d e f g h]. *)
Record digest_state := DigestState
  { da : N; db : N; dc : N; dd : N; de : N; df : N; dg : N; dh : N }.

Definition initial_words : list N := Eval vm_compute in root_word 2 <$> take 8 primes.

Definition initial_state : digest_state :=
  match initial_words with
  | [a; b; c; d; e; f; g; h] => DigestState a b c d e f g h
  | _ => DigestState 0 0 0 0 0 0 0 0
  end.

(** The message schedule, newest word first while it grows. *)
Fixpoint schedule (n : nat) (rev_w : list N) : list N :=
  match n with
  | O => reverse rev_w
  | S n' =>
      let w i := nth i rev_w 0 in
      schedule n'
        (w32 (small_sigma1 (w 1%nat) + w 6%nat + small_sigma0 (w 14%nat) + w 15%nat) :: rev_w)
  end.

Definition round (s : digest_state) (kw : N * N) : digest_state :=
  let t1 := dh s + big_sigma1 (de s) + ch (de s) (df s) (dg s) + kw.1 + kw.2 in
  let t2 := big_sigma0 (da s) + maj (da s) (db s) (dc s) in
  DigestState (w32 (t1 + t2)) (da s) (db s) (dc s) (w32 (dd s + t1)) (de s) (df s) (dg s).

Definition add_state (s t : digest_state) : digest_state :=
  DigestState (w32 (da s + da t)) (w32 (db s + db t)) (w32 (dc s + dc t)) (w32 (dd s + dd t))
    (w32 (de s + de t)) (w32 (df s + df t)) (w32 (dg s + dg t)) (w32 (dh s + dh t)).

Definition compress (s : digest_state) (block : list N) : digest_state :=
  add_state s (foldl round s (zip round_constants (schedule 48 (reverse block)))).

Definition be_word (bs : pybytes) : N := foldl (λ acc b, acc * 256 + Byte.to_N b) 0 bs.
Definition be_bytes (n : nat) (x : N) : pybytes :=
  (λ i, byte_of ((x / 256 ^ N.of_nat i) mod 256)) <$> reverse (seq 0 n).

Definition pad (msg : pybytes) : pybytes :=
  let l := length msg in
  msg ++ [x80] ++ replicate ((119 - l mod 64) mod 64)%nat x00 ++ be_bytes 8 (N.of_nat (8 * l)).

Fixpoint chunks {A} (fuel n : nat) (l : list A) : list (list A) :=
  match fuel, l with
  | S f, _ :: _ => take n l :: chunks f n (drop n l)
  | _, _ => []
  end.

Definition blocks (msg : pybytes) : list (list N) :=
  let p := pad msg in
  (λ b, be_word <$> chunks 16 4 b) <$> chunks (length p) 64 p.

Definition state_bytes (s : digest_state) : pybytes :=
  [da s; db s; dc s; dd s; de s; df s; dg s; dh s] ≫= be_bytes 4.

Definition sha256 (msg : pybytes) : pybytes :=
  state_bytes (foldl compress initial_state (blocks msg)).

Definition hexdigit (n : N) : N := if n <? 10 then n + 48 else n + 87.
Definition hex (bs : pybytes) : pystr :=
  bs ≫= λ b, [hexdigit (Byte.to_N b / 16); hexdigit (Byte.to_N b mod 16)].

(** [hashlib.sha256(data).hexdigest()] *)
Definition sha256_hexdigest (data : pybytes) : pystr := hex (sha256 data).

(** ** Shape of a digest *)

Lemma length_sha256 msg : length (sha256 msg) = 32%nat.
Proof. reflexivity. Qed.

Lemma length_hex bs : length (hex bs) = (2 * length bs)%nat.
Proof. induction bs as [|b bs IH]; simpl; [done|]. rewrite IH. lia. Qed.

Lemma hexdigit_in_range n : n < 16 → in_ranges hexdigits (hexdigit n) = true.
Proof.
  intros Hn. unfold hexdigit. simpl.
  destruct (N.ltb_spec n 10);
    repeat (match goal with |- context [?a <=? ?b] => destruct (N.leb_spec a b) end;
            try lia; simpl); done.
Qed.

Lemma hex_in_range bs : Forall (λ c, in_ranges hexdigits c = true) (hex bs).
Proof.
  induction bs as [|b bs IH]; simpl; [constructor|].
  pose proof (Byte.to_N_bounded b).
  constructor; [|constructor; [|done]]; apply hexdigit_in_range; divlia.
Qed.

Lemma length_sha256_hexdigest data : length (sha256_hexdigest data) = 64%nat.
Proof. unfold sha256_hexdigest. by rewrite length_hex, length_sha256. Qed.

(** A digest in hexadecimal matches [[0-9a-f]{lo,hi}] whenever 64 lies in between. *)
Lemma sha256_hexdigest_chars data :
  Forall (λ c, in_ranges hexdigits c = true) (sha256_hexdigest data).
Proof. apply hex_in_range. Qed.

#[global] Opaque sha256.

(** The digests of FIPS 180-4's examples. *)
Example sha256_abc :
  sha256_hexdigest [x61; x62; x63] =
  u "ba7816bf8f01cfea414140de5dae2223b00361a396177a9cb410ff61f20015ad".
Proof. vm_compute. reflexivity. Qed.
