(* ===== verification/PyValue.v ===== *)
(** * Python values

    The values the program receives as decoded JSON and builds as payloads.  A [dict] keeps
    its insertion order and has [str] keys; [VFloat] holds the decimal literal of a float
    (at most 15 significant digits denote themselves; binary64 rounding is not modelled). *)
From S2P Require Import Prelude PyText.

Inductive pyfloat : Type :=
| FDec (neg : bool) (m : N) (e : Z)   (* [(-1)^neg * m * 10^e] *)
| FInf (neg : bool)
| FNan.

Inductive pyval : Type :=
| VNone
| VBool (b : bool)
| VInt (z : Z)
| VFloat (f : pyfloat)
| VStr (s : pystr)
| VList (l : list pyval)
| VDict (d : list (pystr * pyval)).

Abbreviation pydict := (list (pystr * pyval)).

(** The induction principle that reaches under lists and dicts. *)
Section pyval_rect.
Variable P : pyval → Prop.
Hypothesis Hnone : P VNone.
Hypothesis Hbool : ∀ b, P (VBool b).
Hypothesis Hint : ∀ z, P (VInt z).
Hypothesis Hfloat : ∀ f, P (VFloat f).
Hypothesis Hstr : ∀ s, P (VStr s).
Hypothesis Hlist : ∀ l, Forall P l → P (VList l).
Hypothesis Hdict : ∀ d, Forall (λ kv, P kv.2) d → P (VDict d).

Fixpoint pyval_deep_ind (v : pyval) : P v :=
  match v with
  | VNone => Hnone
  | VBool b => Hbool b
  | VInt z => Hint z
  | VFloat f => Hfloat f
  | VStr s => Hstr s
  | VList l =>
      Hlist l ((fix go l : Forall P l :=
                  match l with
                  | [] => Forall_nil_2 P
                  | x :: l => Forall_cons_2 P x l (pyval_deep_ind x) (go l)
                  end) l)
  | VDict d =>
      Hdict d ((fix go d : Forall (λ kv, P kv.2) d :=
                  match d with
                  | [] => Forall_nil_2 _
                  | kv :: d => Forall_cons_2 (λ kv, P kv.2) kv d (pyval_deep_ind kv.2) (go d)
                  end) d)
  end.
End pyval_rect.

(** ** Dictionaries *)

(** [d[k]] when present *)
Fixpoint dict_lookup {A} (k : pystr) (d : list (pystr * A)) : option A :=
  match d with
  | [] => None
  | (k', v) :: d => if str_eqb k k' then Some v else dict_lookup k d
  end.

(** [d.get(k)] *)
Definition get (k : pystr) (d : pydict) : pyval := default VNone (dict_lookup k d).

(** [d.get(k, v)] *)
Definition get_default (k : pystr) (v : pyval) (d : pydict) : pyval :=
  default v (dict_lookup k d).

(** [d[k] = v]: an existing key keeps its place. *)
Fixpoint dict_set {A} (k : pystr) (v : A) (d : list (pystr * A)) : list (pystr * A) :=
  match d with
  | [] => [(k, v)]
  | (k', v') :: d => if str_eqb k k' then (k, v) :: d else (k', v') :: dict_set k v d
  end.

Definition keys {A} (d : list (pystr * A)) : list pystr := d.*1.

(** [set(d) == ks], [set(d) <= ks] and [k in d] *)
Definition has_keys {A} (d : list (pystr * A)) (ks : list pystr) : bool := same_set (keys d) ks.
Definition keys_within {A} (d : list (pystr * A)) (ks : list pystr) : bool := subset_of (keys d) ks.
Definition has_key {A} (k : pystr) (d : list (pystr * A)) : bool := mem k (keys d).

(** ** Types and truth *)

Definition as_dict (v : pyval) : option pydict := match v with VDict d => Some d | _ => None end.
Definition as_list (v : pyval) : option (list pyval) := match v with VList l => Some l | _ => None end.
Definition as_str (v : pyval) : option pystr := match v with VStr s => Some s | _ => None end.
(** [type(v) is int]: booleans are excluded. *)
Definition as_int (v : pyval) : option Z := match v with VInt z => Some z | _ => None end.
Definition as_bool (v : pyval) : option bool := match v with VBool b => Some b | _ => None end.
Definition is_none (v : pyval) : bool := match v with VNone => true | _ => false end.
Definition of_opt_str (o : option pystr) : pyval := match o with Some s => VStr s | None => VNone end.

(** [bool(v)] *)
Definition truthy (v : pyval) : bool :=
  match v with
  | VNone => false
  | VBool b => b
  | VInt z => negb (z =? 0)%Z
  | VFloat (FDec _ m _) => negb (m =? 0)%N
  | VFloat _ => true
  | VStr s => negb (bool_decide (s = []))
  | VList l => negb (bool_decide (length l = 0%nat))
  | VDict d => negb (bool_decide (length d = 0%nat))
  end.

(** [v not in S] raises [TypeError] on an unhashable [v]. *)
Definition hashable (v : pyval) : bool := match v with VList _ | VDict _ => false | _ => true end.

(** ** Equality [==] *)

(** Numbers compare across [bool], [int] and [float]: [True == 1 == 1.0]. *)
Definition as_number (v : pyval) : option pyfloat :=
  match v with
  | VBool b => Some (FDec false (if b then 1%N else 0%N) 0)
  | VInt z => Some (FDec (z <? 0)%Z (Z.abs_N z) 0)
  | VFloat f => Some f
  | _ => None
  end.

Definition float_num (neg : bool) (m : N) : Z := if neg then - Z.of_N m else Z.of_N m.

Definition float_eqb (f g : pyfloat) : bool :=
  match f, g with
  | FDec n1 m1 e1, FDec n2 m2 e2 =>
      let e := Z.min e1 e2 in
      (float_num n1 m1 * 10 ^ (e1 - e) =? float_num n2 m2 * 10 ^ (e2 - e))%Z
  | FInf n1, FInf n2 => Bool.eqb n1 n2
  | _, _ => false
  end.

(** [a == b]; dicts compare without regard to order. *)
Fixpoint py_eq (a b : pyval) : bool :=
  match a, b with
  | VNone, VNone => true
  | VStr s, VStr t => str_eqb s t
  | VList l, VList k =>
      (fix go (l k : list pyval) : bool :=
         match l, k with
         | [], [] => true
         | x :: l, y :: k => py_eq x y && go l k
         | _, _ => false
         end) l k
  | VDict d, VDict e =>
      (length d =? length e) &&
      (fix go (d : pydict) : bool :=
         match d with
         | [] => true
         | (k, x) :: d =>
             match dict_lookup k e with Some y => py_eq x y | None => false end && go d
         end) d
  | _, _ =>
      match as_number a, as_number b with
      | Some f, Some g => float_eqb f g
      | _, _ => false
      end
  end.

(** [v == z] for an integer literal *)
Definition eq_int (v : pyval) (z : Z) : bool := py_eq v (VInt z).
(** [v in {s1, ..., sn}] for string literals, [None] when [v] is unhashable *)
Definition in_str_set (v : pyval) (ss : list pystr) : option bool :=
  if hashable v then Some (match v with VStr s => mem s ss | _ => false end) else None.

(** Unique keys at every level, as every Python dict has. *)
Fixpoint wf_val (v : pyval) : Prop :=
  match v with
  | VList l => (fix go l := match l with [] => True | x :: l => wf_val x ∧ go l end) l
  | VDict d =>
      NoDup (keys d) ∧
      (fix go (d : pydict) := match d with [] => True | (_, x) :: d => wf_val x ∧ go d end) d
  | _ => True
  end.

(** ** Lemmas *)

Lemma dict_lookup_Some_in {A} k (d : list (pystr * A)) v : dict_lookup k d = Some v → (k, v) ∈ d.
Proof.
  induction d as [|[k' v'] d IH]; simpl; [done|].
  destruct (str_eqb k k') eqn:E.
  - apply str_eqb_true in E as ->. intros [= ->]. by left.
  - intros H. right. by apply IH.
Qed.

Lemma dict_lookup_None {A} k (d : list (pystr * A)) : dict_lookup k d = None ↔ k ∉ keys d.
Proof.
  induction d as [|[k' v'] d IH]; simpl; [set_solver|].
  destruct (str_eqb k k') eqn:E.
  - apply str_eqb_true in E as ->. set_solver.
  - apply str_eqb_false in E. set_solver.
Qed.

Lemma dict_lookup_in {A} k (d : list (pystr * A)) : k ∈ keys d → is_Some (dict_lookup k d).
Proof. intros Hk. apply not_eq_None_Some. intros H%dict_lookup_None. done. Qed.

Lemma dict_lookup_in_iff {A} k (d : list (pystr * A)) v :
  NoDup (keys d) → (k, v) ∈ d ↔ dict_lookup k d = Some v.
Proof.
  intros Hd. split; [|apply dict_lookup_Some_in].
  induction d as [|[k' v'] d IH]; simpl in *; [set_solver|].
  apply NoDup_cons in Hd as [Hk Hd]. intros [[= -> ->]|Hin]%elem_of_cons.
  - assert (str_eqb k' k' = true) as -> by by apply str_eqb_true. done.
  - destruct (str_eqb k k') eqn:E; [|by apply IH].
    apply str_eqb_true in E as ->. destruct Hk. apply list_elem_of_fmap. by exists (k', v).
Qed.

Lemma dict_lookup_set_eq {A} k (v : A) d : dict_lookup k (dict_set k v d) = Some v.
Proof.
  assert (str_eqb k k = true) as Hk by by apply str_eqb_true.
  induction d as [|[k' v'] d IH]; simpl; [by rewrite Hk|].
  destruct (str_eqb k k') eqn:E; simpl; by rewrite ?Hk, ?E.
Qed.

Lemma dict_lookup_set_ne {A} k k' (v : A) d :
  k ≠ k' → dict_lookup k' (dict_set k v d) = dict_lookup k' d.
Proof.
  intros Hk. assert (str_eqb k' k = false) as Hk' by (apply str_eqb_false; congruence).
  induction d as [|[k1 v1] d IH]; simpl; [by rewrite Hk'|].
  destruct (str_eqb k k1) eqn:E; simpl.
  - apply str_eqb_true in E as <-. by rewrite Hk'.
  - by rewrite IH.
Qed.

Lemma has_keys_true {A} (d : list (pystr * A)) ks :
  has_keys d ks = true ↔ ∀ k, k ∈ keys d ↔ k ∈ ks.
Proof. apply same_set_true. Qed.

(** A key of the expected set is present. *)
Lemma has_keys_lookup {A} (d : list (pystr * A)) ks k :
  has_keys d ks = true → k ∈ ks → is_Some (dict_lookup k d).
Proof. intros H Hk. apply dict_lookup_in. by apply (proj1 (has_keys_true d ks) H). Qed.

Lemma in_str_set_true v ss : in_str_set v ss = Some true ↔ ∃ s, v = VStr s ∧ s ∈ ss.
Proof.
  unfold in_str_set. destruct v; simpl; try naive_solver.
  split; [intros [= H%mem_true]; eauto | intros (? & [= ->] & H%mem_true); by rewrite H].
Qed.

(** Only the same string equals a string. *)
Lemma py_eq_str v s : py_eq v (VStr s) = true ↔ v = VStr s.
Proof.
  split; [|intros ->; simpl; by apply str_eqb_true]. destruct v as [|[]| | | | |]; simpl; try done. by intros ->%str_eqb_true.
Qed.
Lemma py_eq_str_l v s : py_eq (VStr s) v = true ↔ v = VStr s.
Proof. split; [|intros ->; simpl; by apply str_eqb_true]. destruct v; simpl; try done. by intros ->%str_eqb_true. Qed.

Lemma as_str_Some v s : as_str v = Some s ↔ v = VStr s.
Proof. destruct v; naive_solver. Qed.
Lemma as_dict_Some v d : as_dict v = Some d ↔ v = VDict d.
Proof. destruct v; naive_solver. Qed.
Lemma as_int_Some v z : as_int v = Some z ↔ v = VInt z.
Proof. destruct v; naive_solver. Qed.
