(* ===== verification/Json.v ===== *)
(** * JSON

    [json.dumps] as the code calls it (sorted keys, no ASCII escaping, compact separators)
    and [json.loads]. *)
From S2P Require Import Prelude PyText PyValue.
From Stdlib Require Import Strings.String Strings.Byte.
From stdpp Require Import pretty.
Local Open Scope N_scope.

(** ** Printing *)

Definition hex4 (c : N) : pystr :=
  let d n := if n <? 10 then n + 48 else n + 87 in
  [d (c / 4096 mod 16); d (c / 256 mod 16); d (c / 16 mod 16); d (c mod 16)].

Definition escape_char (c : N) : pystr :=
  if c =? 34 then [92; 34]
  else if c =? 92 then [92; 92]
  else if c =? 10 then [92; 110]
  else if c =? 13 then [92; 114]
  else if c =? 9 then [92; 116]
  else if c =? 12 then [92; 102]
  else if c =? 8 then [92; 98]
  else if c <? 32 then [92; 117] ++ hex4 c
  else [c].

Definition dump_str (s : pystr) : pystr := [34] ++ (s ≫= escape_char) ++ [34].

(** [float.__repr__] from the significant digits and the decimal exponent. *)
Definition float_repr (neg : bool) (m : N) (e : Z) : pystr :=
  let ds := int_str (Z.of_N m) in
  let n := Z.of_nat (length ds) in
  let decpt := (n + e)%Z in
  let zeros k := replicate (Z.to_nat k) 48 in
  (if neg then [45] else []) ++
  (if m =? 0 then u "0.0"
   else if ((16 <? decpt) || (decpt <? -3))%Z then
     take 1 ds ++ (if (1 <? n)%Z then [46] ++ drop 1 ds else []) ++ u "e" ++
     (let x := (decpt - 1)%Z in
      (if (x <? 0)%Z then [45] else [43]) ++
      (if (Z.abs x <? 10)%Z then [48] else []) ++ int_str (Z.abs x))
   else if (decpt <=? 0)%Z then u "0." ++ zeros (- decpt)%Z ++ ds
   else if (n <=? decpt)%Z then ds ++ zeros (decpt - n)%Z ++ u ".0"
   else take (Z.to_nat decpt) ds ++ [46] ++ drop (Z.to_nat decpt) ds).

(** [None] stands for the [ValueError] of [allow_nan=False]. *)
Definition dump_float (allow_nan : bool) (f : pyfloat) : option pystr :=
  match f with
  | FDec neg m e => Some (float_repr neg m e)
  | FInf neg => if allow_nan then Some (if neg then u "-Infinity" else u "Infinity") else None
  | FNan => if allow_nan then Some (u "NaN") else None
  end.

Definition entry_leb {A} (x y : pystr * A) : bool := str_leb x.1 y.1.

Definition dump_entry (kt : pystr * pystr) : pystr := dump_str kt.1 ++ [58] ++ kt.2.

(** [int.__repr__] refuses more than 4300 digits with a [ValueError]. *)
Definition int_too_long (z : Z) : bool := Nat.ltb 4300 (length (int_str (Z.abs z))).

(** [json.dumps(v, allow_nan=..., ensure_ascii=False, separators=(",", ":"), sort_keys=True)];
    [None] stands for its [ValueError]. *)
Fixpoint json_dumps (allow_nan : bool) (v : pyval) : option pystr :=
  match v with
  | VNone => Some (u "null")
  | VBool true => Some (u "true")
  | VBool false => Some (u "false")
  | VInt z => if int_too_long z then None else Some (int_str z)
  | VFloat f => dump_float allow_nan f
  | VStr s => Some (dump_str s)
  | VList l =>
      ts ← (fix go (l : list pyval) : option (list pystr) :=
              match l with
              | [] => Some []
              | x :: l => t ← json_dumps allow_nan x; ts ← go l; Some (t :: ts)
              end) l;
      Some ([91] ++ str_join [44] ts ++ [93])
  | VDict d =>
      ts ← (fix go (d : pydict) : option (list (pystr * pystr)) :=
              match d with
              | [] => Some []
              | (k, x) :: d => t ← json_dumps allow_nan x; ts ← go d; Some ((k, t) :: ts)
              end) d;
      Some ([123] ++ str_join [44] (dump_entry <$> sort_by entry_leb ts) ++ [125])
  end.

(** ** Parsing *)

Inductive json_error : Type :=
| JSONDecodeError
| IntTooLong      (* [int()] of more than 4300 digits: a plain [ValueError] *)
| RecursionError  (* the text nests deeper than the interpreter allows *)
| JsonFuel.       (* the fuel [json_loads] gives exceeds any nesting depth of the text *)

Fixpoint skip_ws (s : pystr) : pystr :=
  match s with
  | c :: r => if (c =? 32) || (c =? 9) || (c =? 10) || (c =? 13) then skip_ws r else s
  | [] => []
  end.

Definition is_digit (c : N) : bool := (48 <=? c) && (c <=? 57).
Fixpoint span_digits (s : pystr) : pystr * pystr :=
  match s with
  | c :: r => if is_digit c then let '(ds, t) := span_digits r in (c :: ds, t) else ([], s)
  | [] => ([], [])
  end.
Definition digits_value (ds : pystr) : N := foldl (λ acc c, acc * 10 + (c - 48)) 0 ds.

Definition hex_value (c : N) : option N :=
  if is_digit c then Some (c - 48)
  else if (97 <=? c) && (c <=? 102) then Some (c - 87)
  else if (65 <=? c) && (c <=? 70) then Some (c - 55)
  else None.
Definition hex4_value (a b c d : N) : option N :=
  a ← hex_value a; b ← hex_value b; c ← hex_value c; d ← hex_value d;
  Some (a * 4096 + b * 256 + c * 16 + d).

Definition unescape (c : N) : option N :=
  if c =? 34 then Some 34 else if c =? 92 then Some 92 else if c =? 47 then Some 47
  else if c =? 98 then Some 8 else if c =? 102 then Some 12 else if c =? 110 then Some 10
  else if c =? 114 then Some 13 else if c =? 116 then Some 9 else None.

Definition is_high (c : N) : bool := (0xD800 <=? c) && (c <=? 0xDBFF).
Definition is_low (c : N) : bool := (0xDC00 <=? c) && (c <=? 0xDFFF).

(** [int(text)] of decimal digits with an optional sign and single underscores between digits. *)
Fixpoint digits_from (acc : Z) (s : pystr) : option Z :=
  match s with
  | [] => Some acc
  | c :: s =>
      if is_digit c then digits_from (acc * 10 + Z.of_N (c - 48))%Z s
      else match s with
           | d :: s' => if (c =? 95) && is_digit d then digits_from (acc * 10 + Z.of_N (d - 48))%Z s'
                        else None
           | [] => None
           end
  end.
Definition py_int (s : pystr) : option Z :=
  match strip s with
  | 43 :: ((c :: _) as ds) => if is_digit c then digits_from 0 ds else None
  | 45 :: ((c :: _) as ds) => if is_digit c then Z.opp <$> digits_from 0 ds else None
  | (c :: _) as ds => if is_digit c then digits_from 0 ds else None
  | [] => None
  end.

(** The characters after the opening quote, up to the closing one ([strict=True]).  An
    escaped high surrogate joins an escaped low one that follows it. *)
Fixpoint parse_str (s : pystr) : option (pystr * pystr) :=
  match s with
  | [] => None
  | c :: r =>
      if c =? 34 then Some ([], r)
      else if c <? 32 then None
      else if negb (c =? 92) then
        '(t, rest) ← parse_str r; Some (c :: t, rest)
      else match r with
      | [] => None
      | e :: r =>
          if negb (e =? 117) then
            x ← unescape e; '(t, rest) ← parse_str r; Some (x :: t, rest)
          else match r with
          | h1 :: h2 :: h3 :: h4 :: r =>
              x ← hex4_value h1 h2 h3 h4;
              '(t, rest) ← parse_str r;
              Some (x :: t, rest)
          | _ => None
          end
      end
  end.

(** Joins the surrogate pairs [parse_str] leaves side by side.  A pair written literally in
    the text cannot occur: [str.decode] yields no surrogates. *)
Fixpoint join_surrogates (s : pystr) : pystr :=
  match s with
  | a :: r =>
      match r with
      | b :: r' =>
          if is_high a && is_low b
          then (0x10000 + (a - 0xD800) * 1024 + (b - 0xDC00)) :: join_surrogates r'
          else a :: join_surrogates r
      | [] => [a]
      end
  | [] => []
  end.

Fixpoint drop_zeros (fuel : nat) (m : N) (e : Z) : N * Z :=
  match fuel with
  | O => (m, e)
  | S fuel => if (m mod 10 =? 0) then drop_zeros fuel (m / 10) (e + 1)%Z else (m, e)
  end.
Definition mk_float (neg : bool) (m : N) (e : Z) : pyfloat :=
  if m =? 0 then FDec neg 0 0
  else let '(m, e) := drop_zeros (N.to_nat (N.size m)) m e in FDec neg m e.

(** An optional sign, an integer part without leading zeros, an optional fraction and an
    optional exponent. *)
Definition parse_number (s : pystr) : result json_error (pyval * pystr) :=
  let '(neg, s) := match s with 45 :: r => (true, r) | _ => (false, s) end in
  '(ip, s) ← match s with
             | 48 :: r => Ok ([48], r)
             | c :: _ => if is_digit c then Ok (span_digits s) else Err JSONDecodeError
             | [] => Err JSONDecodeError
             end;
  let '(fp, s) := match s with
                  | 46 :: r => match span_digits r with ([], _) => ([], s) | p => p end
                  | _ => ([], s)
                  end in
  let '(ep, s) := match s with
                  | c :: r =>
                      if (c =? 69) || (c =? 101) then
                        let '(eneg, r') := match r with
                                           | 43 :: r' => (false, r')
                                           | 45 :: r' => (true, r')
                                           | _ => (false, r)
                                           end in
                        match span_digits r' with
                        | ([], _) => (None, s)
                        | (ds, t) => (Some (if eneg then - Z.of_N (digits_value ds)
                                            else Z.of_N (digits_value ds))%Z, t)
                        end
                      else (None, s)
                  | [] => (None, s)
                  end in
  match fp, ep with
  | [], None =>
      if Nat.ltb 4300 (length ip) then Err IntTooLong
      else let z := Z.of_N (digits_value ip) in Ok (VInt (if neg then - z else z)%Z, s)
  | _, _ =>
      Ok (VFloat (mk_float neg (digits_value (ip ++ fp))
                    (default 0%Z ep - Z.of_nat (length fp))), s)
  end.

(** How many lists and objects the decoder can enter below its caller before the interpreter
    raises [RecursionError]. *)
Class Interpreter : Type := recursion_depth : nat.

(** One value at the head of [s] (no leading white space), and what follows it; [depth] is how
    many lists and objects may still be entered. *)
Fixpoint parse_value (fuel depth : nat) (s : pystr) : result json_error (pyval * pystr) :=
  match fuel with
  | O => Err JsonFuel
  | S fuel =>
      match s with
      | 34 :: r =>
          match parse_str r with
          | Some (t, r) => Ok (VStr (join_surrogates t), r)
          | None => Err JSONDecodeError
          end
      | 91 :: r =>
          match depth with
          | O => Err RecursionError
          | S depth =>
              match skip_ws r with
              | 93 :: r => Ok (VList [], r)
              | r => '(l, r) ← parse_items fuel depth r; Ok (VList l, r)
              end
          end
      | 123 :: r =>
          match depth with
          | O => Err RecursionError
          | S depth =>
              match skip_ws r with
              | 125 :: r => Ok (VDict [], r)
              | r => '(d, r) ← parse_entries fuel depth [] r; Ok (VDict d, r)
              end
          end
      | _ =>
          if startswith (u "null") s then Ok (VNone, drop 4 s)
          else if startswith (u "true") s then Ok (VBool true, drop 4 s)
          else if startswith (u "false") s then Ok (VBool false, drop 5 s)
          else if startswith (u "NaN") s then Ok (VFloat FNan, drop 3 s)
          else if startswith (u "Infinity") s then Ok (VFloat (FInf false), drop 8 s)
          else if startswith (u "-Infinity") s then Ok (VFloat (FInf true), drop 9 s)
          else parse_number s
      end
  end
(** The elements of a list after ["["], at least one. *)
with parse_items (fuel depth : nat) (s : pystr) : result json_error (list pyval * pystr) :=
  match fuel with
  | O => Err JsonFuel
  | S fuel =>
      '(v, r) ← parse_value fuel depth s;
      match skip_ws r with
      | 93 :: r => Ok ([v], r)
      | 44 :: r => '(l, r) ← parse_items fuel depth (skip_ws r); Ok (v :: l, r)
      | _ => Err JSONDecodeError
      end
  end
(** The entries of an object after ["{"], at least one; a repeated key keeps its first
    place and its last value. *)
with parse_entries (fuel depth : nat) (acc : pydict) (s : pystr) : result json_error (pydict * pystr) :=
  match fuel with
  | O => Err JsonFuel
  | S fuel =>
      match s with
      | 34 :: r =>
          match parse_str r with
          | None => Err JSONDecodeError
          | Some (k, r) =>
              match skip_ws r with
              | 58 :: r =>
                  '(v, r) ← parse_value fuel depth (skip_ws r);
                  let acc := dict_set (join_surrogates k) v acc in
                  match skip_ws r with
                  | 125 :: r => Ok (acc, r)
                  | 44 :: r => parse_entries fuel depth acc (skip_ws r)
                  | _ => Err JSONDecodeError
                  end
              | _ => Err JSONDecodeError
              end
          end
      | _ => Err JSONDecodeError
      end
  end.

(** [json.loads(s)] *)
Definition json_loads `{Interpreter} (s : pystr) : result json_error pyval :=
  match s with
  | 0xFEFF :: _ => Err JSONDecodeError
  | _ =>
      '(v, r) ← parse_value (S (length s)) recursion_depth (skip_ws s);
      match skip_ws r with [] => Ok v | _ => Err JSONDecodeError end
  end.

(** * Foundations: lengths and characters of produced text

    The characters of printed integers, stripping of text without space at its ends, and the
    length of a string against the JSON text that holds it. *)
Local Close Scope N_scope.
Local Open Scope Z_scope.

(** ** Integers *)

Definition numeric (c : N) : Prop := (45 ≤ c ≤ 57)%N.
Definition numeric_text (s : String.string) : Prop := Forall (λ b, numeric (Byte.to_N b)) (list_byte_of_string s).

Lemma pretty_go_numeric n s : numeric_text s → numeric_text (pretty_N_go n s).
Proof.
  revert s. induction (N.lt_wf_0 n) as [n _ IH]; intros s Hs.
  destruct (decide (n = 0)%N) as [->|]; [done|]. rewrite pretty_N_go_step by lia.
  apply IH; [apply N.div_lt; lia|]. apply Forall_cons. split; [|exact Hs].
  unfold pretty_N_char, numeric. repeat case_match; vm_compute; split; discriminate.
Qed.
Lemma pretty_N_numeric (n : N) : numeric_text (pretty n).
Proof.
  unfold pretty, pretty_N. case_decide; [|by apply pretty_go_numeric; constructor].
  repeat constructor; vm_compute; discriminate.
Qed.
Lemma pretty_Z_numeric (z : Z) : numeric_text (pretty z).
Proof.
  destruct z; unfold pretty, pretty_Z.
  - repeat constructor; vm_compute; discriminate.
  - apply pretty_N_numeric.
  - apply Forall_cons. split; [split; vm_compute; discriminate|apply pretty_N_numeric].
Qed.

Lemma utf8_decode_ascii bs :
  Forall (λ b, (Byte.to_N b < 128)%N) bs → utf8_decode bs = Some (Byte.to_N <$> bs).
Proof.
  induction 1 as [|b bs Hb _ IH]; [done|]. cbn [utf8_decode fmap list_fmap].
  rewrite (proj2 (N.ltb_lt _ _)) by exact Hb. by rewrite IH.
Qed.

Lemma int_str_numeric z : Forall numeric (int_str z).
Proof.
  pose proof (pretty_Z_numeric z) as H. unfold int_str, u. rewrite utf8_decode_ascii.
  - apply Forall_fmap. exact H.
  - eapply Forall_impl; [exact H|]. unfold numeric. intros b. simpl. lia.
Qed.
Lemma int_str_no_nul z : 0%N ∉ int_str z.
Proof. intros H. pose proof (int_str_numeric z) as Hn. rewrite Forall_forall in Hn. apply Hn in H. by destruct H. Qed.

(** ** Stripping *)

Lemma lstrip_head s c : head (lstrip s) = Some c → is_space c = false.
Proof.
  induction s as [|d s IH]; [done|]. cbn [lstrip]. destruct (is_space d) eqn:E; [done|]. by intros [= ->].
Qed.
Lemma lstrip_suffix s : ∃ p, s = p ++ lstrip s.
Proof.
  induction s as [|d s [p IH]]; [by exists []|]. cbn [lstrip]. destruct (is_space d); [|by exists []].
  exists (d :: p). by rewrite IH at 1.
Qed.
Lemma rstrip_prefix s : ∃ p, s = rstrip s ++ p.
Proof.
  unfold rstrip. destruct (lstrip_suffix (reverse s)) as [p E]. exists (reverse p).
  by rewrite <- reverse_app, <- E, reverse_involutive.
Qed.

Lemma strip_id s :
  (∀ c, head s = Some c → is_space c = false) → (∀ c, last s = Some c → is_space c = false) → strip s = s.
Proof.
  intros Hh Hl. unfold strip, rstrip. rewrite (lstrip_id s Hh), lstrip_id, reverse_involutive; [done|].
  intros c. rewrite head_reverse. apply Hl.
Qed.
Lemma strip_idemp s : strip (strip s) = strip s.
Proof.
  apply strip_id; intros c Hc; unfold strip in Hc.
  - destruct (rstrip_prefix (lstrip s)) as [p E]. apply (lstrip_head s). rewrite E, head_app. by rewrite Hc.
  - unfold rstrip in Hc. rewrite last_reverse in Hc. by apply lstrip_head in Hc.
Qed.
Lemma strip_length s : (length (strip s) <= length s)%nat.
Proof.
  destruct (lstrip_suffix s) as [p E]. destruct (rstrip_prefix (lstrip s)) as [q E'].
  apply (f_equal length) in E, E'. rewrite length_app in E, E'. unfold strip. lia.
Qed.
Lemma in_strip s c : c ∈ strip s → c ∈ s.
Proof.
  destruct (lstrip_suffix s) as [p E]. destruct (rstrip_prefix (lstrip s)) as [q E'].
  intros Hc. rewrite E, elem_of_app. right. rewrite E', elem_of_app. by left.
Qed.

(** ** Sizes *)

Lemma length_join_in sep w ws : w ∈ ws → (length w <= length (str_join sep ws))%nat.
Proof.
  induction ws as [|v ws IH]; [by intros ?%not_elem_of_nil|]. intros [->|Hw]%elem_of_cons.
  - destruct ws; simpl; rewrite ?length_app; lia.
  - specialize (IH Hw). destruct ws; [by apply not_elem_of_nil in Hw|].
    change (str_join sep (v :: l :: ws)) with (v ++ sep ++ str_join sep (l :: ws)). rewrite !length_app. lia.
Qed.

Lemma escape_char_length c : (1 <= length (escape_char c))%nat.
Proof. unfold escape_char. repeat case_match; simpl; lia. Qed.
Lemma dump_str_length s : (length s <= length (dump_str s))%nat.
Proof.
  unfold dump_str. rewrite !length_app. cbn [length]. enough (length s <= length (s ≫= escape_char))%nat by lia.
  induction s as [|c s IH]; [done|]. rewrite bind_cons, length_app. pose proof (escape_char_length c). cbn [length]. lia.
Qed.

Lemma utf8_encode_length s b : utf8_encode s = Some b → (length s <= length b)%nat.
Proof.
  unfold utf8_encode. case_match; [|done]. intros [= <-]. clear. induction s as [|c s IH]; [done|].
  rewrite bind_cons, length_app. cbn [length].
  assert (1 <= length (utf8_char c))%nat by (unfold utf8_char; repeat case_match; simpl; lia). lia.
Qed.

(** The text of a member of a serialised dict. *)
Lemma json_dumps_holds b d t k v :
  json_dumps b (VDict d) = Some t → dict_lookup k d = Some v →
  ∃ tv, json_dumps b v = Some tv ∧ (length tv <= length t)%nat.
Proof.
  simpl. intros H Hk. match type of H with (?go d ≫= _) = _ => set (f := go) in H end.
  apply bind_Some in H as (ts & Hts & [= <-]).
  assert (∃ tv, json_dumps b v = Some tv ∧ (k, tv) ∈ ts) as (tv & Htv & Hin).
  { revert ts Hts. induction d as [|[k' v'] d IH]; intros ts Hts; [done|]. simpl in Hts, Hk.
    apply bind_Some in Hts as (t' & Ht' & Hts). apply bind_Some in Hts as (ts' & Hts & [= <-]).
    destruct (str_eqb k k') eqn:E.
    - injection Hk as ->. apply str_eqb_true in E as ->. exists t'. split; [done|by left].
    - destruct (IH Hk ts' Hts) as (tv & ? & ?). exists tv. split; [done|by right]. }
  exists tv. split; [done|].
  assert (dump_entry (k, tv) ∈ dump_entry <$> sort_by entry_leb ts) as He.
  { apply list_elem_of_fmap_2. by rewrite sort_by_perm. }
  apply (length_join_in [44%N]) in He. unfold dump_entry in He at 1. rewrite !length_app in He. simpl in He.
  simpl. rewrite length_app. simpl. lia.
Qed.
