(* ===== verification/BrokerProtocol.v ===== *)
(** * Host broker: wire contract

    [protocol.py] and [outcome.py]: the versioned request and receipt formats, the canonical
    JSON digests that bind them, and the outcome every operation produces. *)
From S2P Require Import Prelude PyText Regex Sha256 PyValue Json.
Local Open Scope Z_scope.

Definition PROTOCOL_VERSION : Z := 1.
Definition MAX_REQUEST_BYTES : Z := 64 * 1024.
Definition MAX_RESPONSE_BYTES : Z := 128 * 1024.
Definition MAX_PAYLOAD_BYTES : Z := 32 * 1024.
Definition MAX_REQUEST_LIFETIME_SECONDS : Z := 300.

(** ** Outcomes and exceptions *)

Record OperationOutcome := MkOutcome {
  o_status : pystr;
  o_effect_state : pystr;
  o_summary : pydict;
  o_precondition_fingerprint : option pystr;
  o_postcondition_fingerprint : option pystr;
  o_recovery_classification : pystr;
  o_recovery_token : option pystr;
  o_error_code : option pystr }.

(** [OperationOutcome()]: the defaults of the dataclass. *)
Definition default_outcome : OperationOutcome :=
  MkOutcome (u "ok") (u "none") [] None None (u "none") None None.

(** What a broker call can raise; [EOther] holds the class name of any other exception. *)
Inductive exn : Type :=
| BrokerProtocolError (code : pystr)
| BrokerOperationError (o : OperationOutcome)
| EOther (cls : pystr).

Definition TypeError : exn := EOther (u "TypeError").
Definition OSError : exn := EOther (u "OSError").
Definition UnicodeEncodeError : exn := EOther (u "UnicodeEncodeError").

(** [BrokerOperationError(code)] with every keyword at its default *)
Definition operation_error (code : pystr) : exn :=
  BrokerOperationError (MkOutcome (u "denied") (u "none") [] None None (u "none") None (Some code)).

(** ** Patterns *)

Local Open Scope regex_scope.
Definition ident_tail : regex := RStar (RSet (lower ++ digit ++ chars (u "_"))).
Definition _REQUEST_ID_RE : regex := RLit (u "req:v1:") · RRep (RSet hexdigits) 32 64.
Definition _RECEIPT_ID_RE : regex := RLit (u "receipt:v1:") · RRep (RSet hexdigits) 32 64.
Definition _OPERATION_RE : regex :=
  RSet lower · ident_tail · RPlus (RLit (u ".") · RSet lower · ident_tail).
Definition _CAPABILITY_RE : regex := _OPERATION_RE.
Definition _SAFE_ID_RE : regex :=
  RRep (RSet (upper ++ lower ++ digit ++ chars (u "_.:@/-"))) 1 128.
Definition _FINGERPRINT_RE : regex := RLit (u "sha256:") · RRep (RSet hexdigits) 64 64.
Definition _ERROR_RE : regex := RSet lower · RRep (RSet (lower ++ digit ++ chars (u "_"))) 0 127.
Local Close Scope regex_scope.

Definition _PHASES : list pystr := [u "preview"; u "execute"; u "verify"].
Definition _STATUSES : list pystr := [u "ok"; u "denied"; u "stale"; u "error"; u "uncertain"].
Definition _EFFECT_STATES : list pystr := [u "none"; u "applied"; u "unknown"].
Definition _RECOVERY : list pystr := [u "none"; u "backup_available"; u "external_or_unknown"].

Definition _REQUEST_KEYS : list pystr :=
  [u "protocol_version"; u "request_id"; u "operation"; u "phase"; u "issued_at";
   u "expires_at"; u "binding"; u "payload"].
Definition _BINDING_KEYS : list pystr :=
  [u "turn_id"; u "conversation_id"; u "odoo_uid"; u "database_fingerprint"; u "capability";
   u "step_id"; u "args_sha256"; u "binding_fingerprint"; u "precondition_fingerprint"].
Definition _RECEIPT_KEYS : list pystr :=
  [u "protocol_version"; u "request_id"; u "receipt_id"; u "operation"; u "phase"; u "status";
   u "effect_state"; u "precondition_fingerprint"; u "postcondition_fingerprint"; u "summary";
   u "recovery"; u "error_code"; u "started_at"; u "completed_at"].

(** ** Canonical JSON *)

Definition canonical_json (value : pyval) : result exn pybytes :=
  of_option (t ← json_dumps false value; utf8_encode t)
    (BrokerProtocolError (u "broker_json_invalid")).

Definition fingerprint_of (data : pybytes) : pystr := u "sha256:" ++ sha256_hexdigest data.

Definition canonical_sha256 (value : pyval) : result exn pystr :=
  fingerprint_of <$> canonical_json value.

(** ** Requests *)

(** A validated request: the fields the engine reads, at the types validation proves. *)
Record request := MkRequest {
  rq_protocol_version : pyval;
  rq_request_id : pystr;
  rq_operation : pystr;
  rq_phase : pystr;
  rq_issued_at : Z;
  rq_expires_at : Z;
  rq_binding : pydict;
  rq_payload : pydict }.

Definition replay_sha256 (r : request) : result exn pystr :=
  canonical_sha256 (VDict
    [(u "protocol_version", rq_protocol_version r);
     (u "request_id", VStr (rq_request_id r));
     (u "operation", VStr (rq_operation r));
     (u "phase", VStr (rq_phase r));
     (u "binding", VDict (rq_binding r));
     (u "payload", VDict (rq_payload r))]).

(** [isinstance(v, str) and R.fullmatch(v) is not None] *)
Definition str_matches (r : regex) (v : pyval) : bool :=
  match v with VStr s => fullmatch r s | _ => false end.
Definition none_or_matches (r : regex) (v : pyval) : bool := is_none v || str_matches r v.

(** A string that matches the pattern, or the exception. *)
Definition matching_str (r : regex) (v : pyval) (e : exn) : result exn pystr :=
  match v with VStr s => if fullmatch r s then Ok s else Err e | _ => Err e end.

(** [v not in S] *)
Definition not_in (v : pyval) (ss : list pystr) : result exn bool :=
  negb <$> of_option (in_str_set v ss) TypeError.

Definition _validate_binding (binding : pydict) : result exn unit :=
  let bad := BrokerProtocolError (u "broker_binding_invalid") in
  raise_when (negb (str_matches _SAFE_ID_RE (get (u "turn_id") binding))) bad;;
  raise_when (negb (none_or_matches _SAFE_ID_RE (get (u "conversation_id") binding))) bad;;
  raise_when (negb (none_or_matches _SAFE_ID_RE (get (u "step_id") binding))) bad;;
  raise_when (match get (u "odoo_uid") binding with VInt uid => uid <=? 0 | _ => true end) bad;;
  raise_when (negb (str_matches _CAPABILITY_RE (get (u "capability") binding))) bad;;
  raise_when (negb (str_matches _FINGERPRINT_RE (get (u "database_fingerprint") binding))) bad;;
  raise_when (negb (str_matches _FINGERPRINT_RE (get (u "args_sha256") binding))) bad;;
  raise_when (negb (none_or_matches _FINGERPRINT_RE (get (u "binding_fingerprint") binding))) bad;;
  raise_when
    (negb (none_or_matches _FINGERPRINT_RE (get (u "precondition_fingerprint") binding))) bad.

Definition byte_len (b : pybytes) : Z := Z.of_nat (length b).

Definition validate_request (value : pyval) (now : Z) : result exn request :=
  let perr c := BrokerProtocolError c in
  d ← of_option (as_dict value) (perr (u "broker_request_invalid"));
  raise_when (negb (has_keys d _REQUEST_KEYS)) (perr (u "broker_request_invalid"));;
  raise_when (negb (eq_int (get (u "protocol_version") d) PROTOCOL_VERSION))
    (perr (u "broker_protocol_unsupported"));;
  request_id ← matching_str _REQUEST_ID_RE (get (u "request_id") d)
                 (perr (u "broker_request_id_invalid"));
  operation ← matching_str _OPERATION_RE (get (u "operation") d)
                (perr (u "broker_operation_invalid"));
  outside ← not_in (get (u "phase") d) _PHASES;
  raise_when outside (perr (u "broker_phase_invalid"));;
  phase ← of_option (as_str (get (u "phase") d)) (perr (u "broker_phase_invalid"));
  issued_at ← of_option (as_int (get (u "issued_at") d)) (perr (u "broker_request_time_invalid"));
  expires_at ← of_option (as_int (get (u "expires_at") d)) (perr (u "broker_request_time_invalid"));
  raise_when
    ((expires_at <=? issued_at) || (MAX_REQUEST_LIFETIME_SECONDS <? expires_at - issued_at)
     || (expires_at <? now) || (now + 30 <? issued_at))
    (perr (u "broker_request_expired"));;
  binding ← of_option (as_dict (get (u "binding") d)) (perr (u "broker_binding_invalid"));
  raise_when (negb (has_keys binding _BINDING_KEYS)) (perr (u "broker_binding_invalid"));;
  _validate_binding binding;;
  payload ← of_option (as_dict (get (u "payload") d)) (perr (u "broker_payload_invalid"));
  payload_json ← canonical_json (VDict payload);
  raise_when (MAX_PAYLOAD_BYTES <? byte_len payload_json) (perr (u "broker_payload_too_large"));;
  raise_any
    [Ok (negb (py_eq (get (u "capability") binding) (VStr operation)));
     (λ h, negb (py_eq (get (u "args_sha256") binding) (VStr h)))
       <$> canonical_sha256 (VDict payload)]
    (perr (u "broker_binding_invalid"));;
  let effect_binding :=
    [get (u "step_id") binding; get (u "binding_fingerprint") binding;
     get (u "precondition_fingerprint") binding] in
  raise_when
    (if str_eqb phase (u "execute") then existsb is_none effect_binding
     else existsb (λ v, negb (is_none v)) effect_binding)
    (perr (u "broker_binding_invalid"));;
  whole ← canonical_json value;
  raise_when (MAX_REQUEST_BYTES <? byte_len whole) (perr (u "broker_request_too_large"));;
  Ok (MkRequest (get (u "protocol_version") d) request_id operation phase issued_at expires_at
        binding payload).

(** ** Receipts *)

Definition token_invalid (v : pyval) : bool :=
  match v with
  | VNone => false
  | VStr t => (160 <? Z.of_nat (length t)) || mem 0%N t
  | _ => true
  end.

Definition recovery_invalid (v : pyval) : result exn bool :=
  match v with
  | VDict recovery =>
      any_of [Ok (negb (has_keys recovery [u "classification"; u "token"]));
              not_in (get (u "classification") recovery) _RECOVERY;
              Ok (token_invalid (get (u "token") recovery))]
  | _ => Ok true
  end.

Definition summary_invalid (v : pyval) : result exn bool :=
  match v with
  | VDict _ => (λ b, MAX_PAYLOAD_BYTES <? byte_len b) <$> canonical_json v
  | _ => Ok true
  end.

Definition validate_receipt (value : pyval) : result exn pydict :=
  let bad := BrokerProtocolError (u "broker_receipt_invalid") in
  d ← of_option (as_dict value) bad;
  raise_when (negb (has_keys d _RECEIPT_KEYS)) bad;;
  raise_when (negb (eq_int (get (u "protocol_version") d) PROTOCOL_VERSION)) bad;;
  raise_any
    [Ok (negb (str_matches _REQUEST_ID_RE (get (u "request_id") d)));
     Ok (negb (str_matches _RECEIPT_ID_RE (get (u "receipt_id") d)));
     Ok (negb (str_matches _OPERATION_RE (get (u "operation") d)));
     not_in (get (u "phase") d) _PHASES;
     not_in (get (u "status") d) _STATUSES;
     not_in (get (u "effect_state") d) _EFFECT_STATES] bad;;
  raise_when (negb (none_or_matches _FINGERPRINT_RE (get (u "precondition_fingerprint") d))) bad;;
  raise_when (negb (none_or_matches _FINGERPRINT_RE (get (u "postcondition_fingerprint") d))) bad;;
  raise_any [summary_invalid (get (u "summary") d)] bad;;
  raise_any [recovery_invalid (get (u "recovery") d)] bad;;
  raise_when (negb (none_or_matches _ERROR_RE (get (u "error_code") d))) bad;;
  started_at ← of_option (as_int (get (u "started_at") d)) bad;
  completed_at ← of_option (as_int (get (u "completed_at") d)) bad;
  raise_when (completed_at <? started_at) bad;;
  whole ← canonical_json value;
  raise_when (MAX_RESPONSE_BYTES <? byte_len whole) bad;;
  Ok d.

Lemma matching_str_Ok r v e s : matching_str r v e = Ok s → v = VStr s ∧ fullmatch r s = true.
Proof. unfold matching_str. destruct v; try done. case_match; [|done]. by intros [= <-]. Qed.

Lemma not_in_false v ss : not_in v ss = Ok false → ∃ s, v = VStr s ∧ s ∈ ss.
Proof.
  unfold not_in. intros (b & Hb%of_option_Ok & Hn)%fmap_Ok. symmetry in Hn.
  apply negb_false_iff in Hn as ->. by apply in_str_set_true.
Qed.
