(* ===== verification/BrokerPolicy.v ===== *)
(** * Host broker: deployment policy

    [policy.py]: the closed set of logical targets the broker may act on, parsed from a JSON
    file whose owner, mode and size are checked first. *)
From S2P Require Import Prelude PyText Regex PyValue Json BrokerProtocol.
Local Open Scope Z_scope.

Local Open Scope regex_scope.
Definition _TARGET_RE : regex :=
  RSet lower · RRep (RSet (lower ++ digit ++ chars (u "_.-"))) 0 63.
Definition _KEY_RE : regex :=
  RSet (upper ++ lower) · RRep (RSet (upper ++ lower ++ digit ++ chars (u "_.-"))) 0 63.
Definition _UNIT_RE : regex :=
  RRep (RSet (upper ++ lower ++ digit ++ chars (u "_.@:-"))) 1 120 · RLit (u ".service").
Definition _MODULE_RE : regex :=
  RSet lower · RRep (RSet (lower ++ digit ++ chars (u "_"))) 0 127.
Definition _DATABASE_RE : regex :=
  RRep (RSet (upper ++ lower ++ digit ++ chars (u "_.-"))) 1 128.
Local Close Scope regex_scope.

Definition _MAX_POLICY_BYTES : Z := 256 * 1024.

Record ConfigTarget := MkConfigTarget {
  ct_target_id : pystr;
  ct_path : pystr;
  ct_allowed_keys : list pystr;
  ct_max_bytes : Z }.

Record ServiceTarget := MkServiceTarget {
  st_target_id : pystr;
  st_unit : pystr;
  st_timeout_seconds : Z }.

Record ModuleTarget := MkModuleTarget {
  mt_target_id : pystr;
  mt_module : pystr;
  mt_database : pystr;
  mt_odoo_python : pystr;
  mt_odoo_bin : pystr;
  mt_config_path : pystr;
  mt_addons_path : list pystr;
  mt_run_as_uid : Z;
  mt_run_as_gid : Z;
  mt_timeout_seconds : Z }.

Record BrokerPolicy := MkBrokerPolicy {
  bp_allowed_peer_uids : list Z;
  bp_config_targets : list (pystr * ConfigTarget);
  bp_service_targets : list (pystr * ServiceTarget);
  bp_module_targets : list (pystr * ModuleTarget);
  bp_systemctl_path : pystr;
  bp_systemd_run_path : pystr;
  bp_socket_gid : option Z }.

Definition policy_invalid : exn := BrokerProtocolError (u "broker_policy_invalid").

(** [isinstance(p, str) and os.path.isabs(p) and no NUL and len(p) <= limit] *)
Definition abs_path (limit : Z) (v : pyval) : option pystr :=
  match v with
  | VStr p =>
      if startswith (u "/") p && negb (mem 0%N p) && (Z.of_nat (length p) <=? limit)
      then Some p else None
  | _ => None
  end.

(** The value when it is a list of strings that all pass [f]. *)
Definition list_of {A} (f : pyval → option A) (v : pyval) : option (list A) :=
  match v with VList l => mapM f l | _ => None end.

Definition opt_match (r : regex) (v : pyval) : option pystr :=
  match v with VStr s => if fullmatch r s then Some s else None | _ => None end.

Definition int_between (lo hi : Z) (v : pyval) : option Z :=
  match v with VInt z => if (lo <=? z) && (z <=? hi) then Some z else None | _ => None end.

Definition config_target (target_id : pystr) (v : pyval) : result exn ConfigTarget :=
  raise_when (negb (fullmatch _TARGET_RE target_id)) policy_invalid;;
  raw ← of_option (as_dict v) policy_invalid;
  raise_when (negb (keys_within raw [u "path"; u "allowed_keys"; u "max_bytes"])) policy_invalid;;
  path ← of_option (abs_path 1024 (get (u "path") raw)) policy_invalid;
  keys ← of_option (list_of (opt_match _KEY_RE) (get (u "allowed_keys") raw)) policy_invalid;
  raise_when ((length keys =? 0)%nat || (128 <? length keys)%nat || has_dup keys) policy_invalid;;
  maximum ← of_option
    (int_between 1024 (4 * 1024 * 1024) (get_default (u "max_bytes") (VInt (256 * 1024)) raw))
    policy_invalid;
  Ok (MkConfigTarget target_id path keys maximum).

Definition service_target (target_id : pystr) (v : pyval) : result exn ServiceTarget :=
  raise_when (negb (fullmatch _TARGET_RE target_id)) policy_invalid;;
  raw ← of_option (as_dict v) policy_invalid;
  raise_when (negb (keys_within raw [u "unit"; u "timeout_seconds"])) policy_invalid;;
  unit ← of_option (opt_match _UNIT_RE (get (u "unit") raw)) policy_invalid;
  timeout ← of_option (int_between 1 300 (get_default (u "timeout_seconds") (VInt 60) raw))
              policy_invalid;
  Ok (MkServiceTarget target_id unit timeout).

Definition module_target_keys : list pystr :=
  [u "module"; u "database"; u "odoo_python"; u "odoo_bin"; u "config_path"; u "addons_path";
   u "run_as_uid"; u "run_as_gid"; u "timeout_seconds"].

Definition positive_int (v : pyval) : option Z :=
  match v with VInt z => if 0 <? z then Some z else None | _ => None end.

Definition module_target (target_id : pystr) (v : pyval) : result exn ModuleTarget :=
  raise_when (negb (fullmatch _TARGET_RE target_id)) policy_invalid;;
  raw ← of_option (as_dict v) policy_invalid;
  raise_when (negb (has_keys raw module_target_keys)) policy_invalid;;
  module ← of_option (opt_match _MODULE_RE (get (u "module") raw)) policy_invalid;
  database ← of_option (opt_match _DATABASE_RE (get (u "database") raw)) policy_invalid;
  odoo_python ← of_option (abs_path 1024 (get (u "odoo_python") raw)) policy_invalid;
  odoo_bin ← of_option (abs_path 1024 (get (u "odoo_bin") raw)) policy_invalid;
  config_path ← of_option (abs_path 1024 (get (u "config_path") raw)) policy_invalid;
  addons ← of_option (as_list (get (u "addons_path") raw)) policy_invalid;
  raise_when (negb ((1 <=? length addons)%nat && (length addons <=? 16)%nat)) policy_invalid;;
  addons_path ← of_option (mapM (abs_path 1024) addons) policy_invalid;
  run_as_uid ← of_option (positive_int (get (u "run_as_uid") raw)) policy_invalid;
  run_as_gid ← of_option (positive_int (get (u "run_as_gid") raw)) policy_invalid;
  timeout ← of_option (int_between 60 540 (get (u "timeout_seconds") raw)) policy_invalid;
  Ok (MkModuleTarget target_id module database odoo_python odoo_bin config_path addons_path
        run_as_uid run_as_gid timeout).

(** The loop [for target_id, raw in value.items(): result[target_id] = ...] *)
Definition targets {T} (limit : nat) (parse : pystr → pyval → result exn T) (value : pyval)
    : result exn (list (pystr * T)) :=
  d ← of_option (as_dict value) policy_invalid;
  raise_when (limit <? length d)%nat policy_invalid;;
  foldR (λ acc kv, t ← parse kv.1 kv.2; Ok (dict_set kv.1 t acc)) [] d.

Definition _config_targets : pyval → result exn (list (pystr * ConfigTarget)) :=
  targets 64 config_target.
Definition _service_targets : pyval → result exn (list (pystr * ServiceTarget)) :=
  targets 64 service_target.
Definition _module_targets : pyval → result exn (list (pystr * ModuleTarget)) :=
  targets 32 module_target.

Definition policy_keys : list pystr :=
  [u "protocol_version"; u "allowed_peer_uids"; u "systemctl_path"; u "systemd_run_path";
   u "socket_gid"; u "config_targets"; u "service_targets"; u "module_targets"].

Definition peer_uid (v : pyval) : option Z :=
  match v with VInt z => if 0 <=? z then Some z else None | _ => None end.

(** [BrokerPolicy.from_mapping] *)
Definition from_mapping (value : pyval) : result exn BrokerPolicy :=
  d ← of_option (as_dict value) policy_invalid;
  raise_when (negb (keys_within d policy_keys)
              || negb (eq_int (get (u "protocol_version") d) 1)) policy_invalid;;
  raw_uids ← of_option (list_of peer_uid (get (u "allowed_peer_uids") d)) policy_invalid;
  raise_when ((length raw_uids =? 0)%nat || has_dup raw_uids) policy_invalid;;
  systemctl_path ← of_option
    (abs_path 512 (get_default (u "systemctl_path") (VStr (u "/usr/bin/systemctl")) d)) policy_invalid;
  systemd_run_path ← of_option
    (abs_path 512 (get_default (u "systemd_run_path") (VStr (u "/usr/bin/systemd-run")) d))
    policy_invalid;
  socket_gid ← match get (u "socket_gid") d with
               | VNone => Ok None
               | v => z ← of_option (peer_uid v) policy_invalid; Ok (Some z)
               end;
  config_targets ← _config_targets (get_default (u "config_targets") (VDict []) d);
  service_targets ← _service_targets (get_default (u "service_targets") (VDict []) d);
  module_targets ← _module_targets (get_default (u "module_targets") (VDict []) d);
  Ok (MkBrokerPolicy (sort_by Z.leb raw_uids) config_targets service_targets module_targets
        systemctl_path systemd_run_path socket_gid).

(** ** Files *)

Inductive file_kind : Type := Regular | Directory | Symlink (dest : pystr) | Special.

Record file := MkFile {
  f_kind : file_kind;
  f_mode : Z;              (* permission bits *)
  f_uid : Z;
  f_gid : Z;
  f_data : pybytes }.

Abbreviation filesystem := (gmap pystr file).

(** [os.stat]: follows symbolic links, at most 40 of them. *)
Fixpoint resolve (fuel : nat) (fs : filesystem) (path : pystr) : option file :=
  match fs !! path with
  | Some f =>
      match f_kind f, fuel with
      | Symlink dest, S fuel => resolve fuel fs dest
      | Symlink _, O => None
      | _, _ => Some f
      end
  | None => None
  end.
Definition os_stat (fs : filesystem) (path : pystr) : option file := resolve 40 fs path.

Definition is_regular (f : file) : bool := match f_kind f with Regular => true | _ => false end.
Definition is_directory (f : file) : bool := match f_kind f with Directory => true | _ => false end.
(** [st_mode & 0o022] and [st_mode & 0o111] *)
Definition others_write (f : file) : bool := negb (Z.land (f_mode f) 18 =? 0).
Definition any_exec (f : file) : bool := negb (Z.land (f_mode f) 73 =? 0).
Definition owned_by (uids : list Z) (f : file) : bool := mem (f_uid f) uids.

Definition policy_unsafe : exn := BrokerProtocolError (u "broker_policy_unsafe").

Section load.
Context `{Interpreter} (fs : filesystem) (euid : Z).

Definition _validate_executable (path : pystr) : result exn unit :=
  f ← of_option (os_stat fs path) policy_unsafe;
  raise_when (negb (is_regular f) || negb (f_uid f =? euid) || others_write f
              || negb (any_exec f)) policy_unsafe.

Definition _validate_target_executable (path : pystr) (run_as_uid : Z) : result exn unit :=
  f ← of_option (os_stat fs path) policy_unsafe;
  raise_when (negb (is_regular f) || negb (owned_by [0; run_as_uid] f) || others_write f
              || negb (any_exec f)) policy_unsafe.

Definition _validate_target_file (path : pystr) (run_as_uid : Z) : result exn unit :=
  f ← of_option (os_stat fs path) policy_unsafe;
  raise_when (negb (is_regular f) || negb (owned_by [0; run_as_uid] f) || others_write f)
    policy_unsafe.

Definition _validate_target_directory (path : pystr) (run_as_uid : Z) : result exn unit :=
  f ← of_option (os_stat fs path) policy_unsafe;
  raise_when (negb (is_directory f) || negb (owned_by [0; run_as_uid] f) || others_write f)
    policy_unsafe.

Definition validate_module_files (target : ModuleTarget) : result exn unit :=
  _validate_target_executable (mt_odoo_python target) (mt_run_as_uid target);;
  _validate_target_executable (mt_odoo_bin target) (mt_run_as_uid target);;
  _validate_target_file (mt_config_path target) (mt_run_as_uid target);;
  foldR (λ _ p, _validate_target_directory p (mt_run_as_uid target)) tt (mt_addons_path target).

Definition load_policy (path : pystr) : result exn BrokerPolicy :=
  f ← of_option (os_stat fs path) (BrokerProtocolError (u "broker_policy_unavailable"));
  raise_when (negb (is_regular f) || negb (f_uid f =? euid) || others_write f
              || (byte_len (f_data f) <=? 0) || (_MAX_POLICY_BYTES <? byte_len (f_data f)))
    policy_unsafe;;
  text ← of_option (utf8_decode (f_data f)) policy_invalid;
  value ← match json_loads text with
          | Ok v => Ok v
          | Err IntTooLong => Err (EOther (u "ValueError"))
          | Err RecursionError => Err (EOther (u "RecursionError"))
          | Err _ => Err policy_invalid
          end;
  policy ← from_mapping value;
  _validate_executable (bp_systemctl_path policy);;
  _validate_executable (bp_systemd_run_path policy);;
  foldR (λ _ kt, validate_module_files kt.2) tt (bp_module_targets policy);;
  Ok policy.
End load.
