(* ===== verification/BrokerHost.v ===== *)
(** * Host broker: the machine it runs on

    The store the broker's operations read and write, and the interface [Host] through which
    they reach what is outside the repository: the clock, the outcome of every system call,
    the commands they run.  A component's theorems hold for every [Host]. *)
From S2P Require Import Prelude PyText Regex Sha256 PyValue Json BrokerProtocol BrokerPolicy.
Local Open Scope Z_scope.

(** ** What an external command reports *)

Inductive run_result : Type :=
| Completed (returncode : Z) (stdout : option pystr)
| TimeoutExpired
| RunOSError
| RunSubprocessError
| RunUnicodeDecodeError.   (* the output of the child is not text *)

(** The state [Env] of the world outside (systemd, Odoo databases) is abstract. *)
Class Host (Env : Type) := {
  (** how deep the interpreter nests *)
  host_interpreter :: Interpreter;
  (** [subprocess.run(argv, timeout=..., input=...)] *)
  host_run : list pystr → Z → option pystr → Env → run_result * Env;
  (** [int(time.time())] at the [n]th reading *)
  host_clock : nat → Z;
  (** whether the [n]th system call or database statement fails *)
  host_fault : nat → bool;
  (** [os.geteuid()] and [os.getegid()] of the broker *)
  host_euid : Z;
  host_egid : Z;
  (** the random suffix [mkstemp] draws at the [n]th system call *)
  host_suffix : nat → pystr }.

(** ** The ledger's table *)

Inductive row_state : Type := RowRunning | RowTerminal.
#[export] Instance row_state_eq_dec : EqDecision row_state.
Proof. solve_decision. Defined.

Record ledger_row := MkRow {
  row_request_hash : pystr;
  row_operation : pystr;
  row_state_ : row_state;
  row_receipt_json : option pystr;
  row_started_at : Z }.

(** ** Observable effects, in order *)

Inductive event : Type :=
| EvRun (argv : list pystr)
| EvReplace (path : pystr) (data : pybytes)
| EvBackup (path : pystr) (data : pybytes).

Record world (Env : Type) := MkWorld {
  w_fs : filesystem;
  w_ledger : gmap pystr ledger_row;
  w_env : Env;
  w_calls : nat;           (* system calls made *)
  w_ticks : nat;           (* clock readings made *)
  w_log : list event }.
Arguments MkWorld {Env}.
Arguments w_fs {Env}.
Arguments w_ledger {Env}.
Arguments w_env {Env}.
Arguments w_calls {Env}.
Arguments w_ticks {Env}.
Arguments w_log {Env}.

Section world.
Context {Env : Type}.
Implicit Types w : world Env.

Definition set_fs (f : filesystem → filesystem) w : world Env :=
  MkWorld (f (w_fs w)) (w_ledger w) (w_env w) (w_calls w) (w_ticks w) (w_log w).
Definition set_ledger (f : gmap pystr ledger_row → gmap pystr ledger_row) w : world Env :=
  MkWorld (w_fs w) (f (w_ledger w)) (w_env w) (w_calls w) (w_ticks w) (w_log w).
Definition set_env (e : Env) w : world Env :=
  MkWorld (w_fs w) (w_ledger w) e (w_calls w) (w_ticks w) (w_log w).
Definition bump_calls w : world Env :=
  MkWorld (w_fs w) (w_ledger w) (w_env w) (S (w_calls w)) (w_ticks w) (w_log w).
Definition bump_ticks w : world Env :=
  MkWorld (w_fs w) (w_ledger w) (w_env w) (w_calls w) (S (w_ticks w)) (w_log w).
Definition add_event (e : event) w : world Env :=
  MkWorld (w_fs w) (w_ledger w) (w_env w) (w_calls w) (w_ticks w) (w_log w ++ [e]).
End world.

Section ops.
Context {Env : Type} `{!Host Env}.
Abbreviation M := (ST (world Env) exn).

(** A system call that fails raises [OSError] (or a [sqlite3] error) and does nothing. *)
Definition sys_as (e : exn) : M unit := λ w,
  (if host_fault (w_calls w) then Err e else Ok tt, bump_calls w).
Definition sys : M unit := sys_as OSError.

(** [int(time.time())] *)
Definition time_now : M Z := λ w, (Ok (host_clock (w_ticks w)), bump_ticks w).

Definition run_command (argv : list pystr) (timeout : Z) (input : option pystr) : M run_result :=
  λ w, let '(r, e) := host_run argv timeout input (w_env w) in
       (Ok r, add_event (EvRun argv) (set_env e w)).

(** [os.read] until the end of the file or one byte past [maximum]. *)
Fixpoint read_loop (fuel : nat) (maximum : Z) (rest data : pybytes) : M pybytes :=
  match fuel with
  | O => mret data
  | S fuel =>
      if byte_len data <=? maximum then
        sys;;
        let chunk := take (Z.to_nat (Z.min (64 * 1024) (maximum + 1 - byte_len data))) rest in
        match chunk with
        | [] => mret data
        | _ => read_loop fuel maximum (drop (length chunk) rest) (data ++ chunk)
        end
      else mret data
  end.

(** [os.path.dirname(path) or "/"] *)
Definition parent_dir (path : pystr) : pystr :=
  let fix cut (s : pystr) := match s with
                             | c :: r => if (c =? 47)%N then s else cut r
                             | [] => [] end in
  let fix drop_slashes (s : pystr) := match s with
                                      | c :: r => if (c =? 47)%N then drop_slashes r else s
                                      | [] => [] end in
  let head := reverse (cut (reverse path)) in
  match drop_slashes (reverse head) with
  | [] => match head with [] => u "/" | _ => head end
  | r => reverse r
  end.

Definition path_join (dir name : pystr) : pystr :=
  if endswith (u "/") dir then dir ++ name else dir ++ u "/" ++ name.

(** ** Relations between worlds *)

(** Nothing but counters and the log's tail may differ. *)
Definition same_files (w w' : world Env) : Prop := w_fs w = w_fs w'.
Definition same_ledger (w w' : world Env) : Prop := w_ledger w = w_ledger w'.
Definition log_grows (w w' : world Env) : Prop := w_log w `prefix_of` w_log w'.
Definition same_log (w w' : world Env) : Prop := w_log w = w_log w'.

#[export] Instance same_files_preorder : PreOrder same_files.
Proof. split; unfold same_files; repeat intro; congruence. Qed.
#[export] Instance same_ledger_preorder : PreOrder same_ledger.
Proof. split; unfold same_ledger; repeat intro; congruence. Qed.
#[export] Instance same_log_preorder : PreOrder same_log.
Proof. split; unfold same_log; repeat intro; congruence. Qed.
#[export] Instance log_grows_preorder : PreOrder log_grows.
Proof. split; unfold log_grows; repeat intro; by etrans. Qed.

Lemma keeps_sys_as (R : world Env → world Env → Prop) e :
  (∀ w, R w (bump_calls w)) → keeps R (sys_as e).
Proof. intros HR w. apply HR. Qed.

Lemma keeps_run_ledger argv t i : keeps same_ledger (run_command argv t i).
Proof. intros w. unfold run_command. by destruct (host_run _ _ _ _). Qed.
Lemma keeps_run_files argv t i : keeps same_files (run_command argv t i).
Proof. intros w. unfold run_command. by destruct (host_run _ _ _ _). Qed.

(** Reading returns the whole file when it fits. *)
Lemma read_loop_Ok fuel maximum rest data w r w' :
  (length rest < fuel)%nat →
  byte_len (data ++ rest) <= maximum →
  read_loop fuel maximum rest data w = (Ok r, w') → r = data ++ rest.
Proof.
  revert rest data w. induction fuel as [|fuel IH]; intros rest data w Hf Hm; [lia|].
  unfold byte_len in *. rewrite length_app in Hm. cbn [read_loop].
  destruct (Z.leb_spec (byte_len data) maximum) as [Hd|Hd]; unfold byte_len in *; [|lia].
  rewrite ST_bind_Ok. intros ([] & w1 & _ & H1).
  destruct rest as [|b rest].
  { rewrite take_nil in H1. injection H1 as <- _. by rewrite app_nil_r. }
  simpl in Hf, Hm.
  destruct (Z.to_nat (Z.min (64 * 1024) (maximum + 1 - Z.of_nat (length data)))) as [|n] eqn:En;
    [lia|].
  apply IH in H1 as ->.
  - by rewrite <- app_assoc, take_drop_length.
  - rewrite length_drop, length_take. simpl. lia.
  - rewrite <- app_assoc, take_drop_length, length_app. simpl. lia.
Qed.

(** The file is never read further than its end. *)
Lemma read_loop_keeps (R : world Env → world Env → Prop) `{!PreOrder R} fuel maximum rest data :
  (∀ w, R w (bump_calls w)) → keeps R (read_loop fuel maximum rest data).
Proof.
  intros HR. revert rest data. induction fuel as [|fuel IH]; intros rest data; simpl.
  - apply keeps_ret. done.
  - case_match; [|by apply keeps_ret]. apply keeps_bind; [done|by apply keeps_sys_as|].
    intros []. case_match; [by apply keeps_ret|apply IH].
Qed.

Lemma keeps_sys_ledger e : keeps same_ledger (sys_as e).
Proof. apply keeps_sys_as. done. Qed.
Lemma keeps_sys_ledger' : keeps same_ledger sys.
Proof. apply keeps_sys_ledger. Qed.
Lemma keeps_read_ledger fuel maximum rest data : keeps same_ledger (read_loop fuel maximum rest data).
Proof. by apply read_loop_keeps; [apply _|]. Qed.
Lemma keeps_sys_files e : keeps same_files (sys_as e).
Proof. apply keeps_sys_as. done. Qed.
Lemma keeps_sys_files' : keeps same_files sys.
Proof. apply keeps_sys_files. Qed.
Lemma keeps_read_files fuel maximum rest data : keeps same_files (read_loop fuel maximum rest data).
Proof. by apply read_loop_keeps; [apply _|]. Qed.
Lemma keeps_sys_log : keeps same_log sys.
Proof. by apply keeps_sys_as. Qed.
Lemma keeps_read_log fuel maximum rest data : keeps same_log (read_loop fuel maximum rest data).
Proof. by apply read_loop_keeps; [apply _|]. Qed.
End ops.

#[export] Hint Resolve keeps_sys_ledger keeps_sys_ledger' keeps_read_ledger keeps_run_ledger
  keeps_sys_files keeps_sys_files' keeps_read_files keeps_run_files keeps_sys_log keeps_read_log
  : keeps.

(** A machine on which every call succeeds: the clock stands at [now] and every command
    exits with 0 after printing [output argv]. *)
Definition steady_host (now : Z) (output : list pystr → pystr) : Host unit := {|
  host_interpreter := 900%nat;
  host_run := λ argv _ _ e, (Completed 0 (Some (output argv)), e);
  host_clock := λ _, now;
  host_fault := λ _, false;
  host_euid := 0;
  host_egid := 0;
  host_suffix := λ n, int_str (Z.of_nat n) |}.
Definition empty_world : world unit := MkWorld ∅ ∅ tt 0 0 [].
