(* ===== verification/BrokerConfig.v ===== *)
(** * Host broker: configuration operations

    [config_ops.py]: reading and patching one option of an Odoo configuration file, with a
    backup, an atomic replacement and a read-back check. *)
From S2P Require Import Prelude PyText Regex Sha256 PyValue BrokerProtocol BrokerPolicy.
From S2P Require Import BrokerHost.
Local Open Scope Z_scope.

Definition _RECEIPT_RE : regex := _RECEIPT_ID_RE.
Definition _MAX_VALUE : Z := 1024.

(** [_SECRET_KEY_RE.search(key)], ignoring case: a secret word between separators. *)
Definition secret_words : list pystr :=
  [u "admin_passwd"; u "db_password"; u "password"; u "passwd"; u "secret"; u "token";
   u "api_key"; u "private_key"].
Definition key_separators : list (N * N) := chars (u "_.-").
Definition _SECRET_KEY_RE : regex :=
  (ROpt (RStar (RNot []) · RSet key_separators)
   · RAlts (RLit <$> secret_words)
   · ROpt (RSet key_separators · RStar (RNot [])))%regex.
Definition is_secret_key (key : pystr) : bool := fullmatch _SECRET_KEY_RE (lower_ascii <$> key).

(** ** The text of a configuration file *)

Fixpoint span (f : N → bool) (s : pystr) : pystr * pystr :=
  match s with
  | c :: r => if f c then let '(a, b) := span f r in (c :: a, b) else ([], s)
  | [] => ([], [])
  end.

(** The group of [_SECTION_RE.match(line)]: spaces, ["["], a name without ["]"], ["]"],
    spaces, and an optional comment up to the end. *)
Definition section_match (line : pystr) : option pystr :=
  match lstrip line with
  | b :: r =>
      if (b =? 91)%N then
        let '(name, r) := span (λ c, negb (c =? 93)%N) r in
        match name, r with
        | _ :: _, _ :: r =>
            match lstrip r with
            | [] => Some name
            | c :: r =>
                if ((c =? 35) || (c =? 59))%N && negb (mem 10%N r) then Some name else None
            end
        | _, _ => None
        end
      else None
  | [] => None
  end.

Record option_line := MkOptionLine {
  ol_indent : pystr;                (* group 1 *)
  ol_key : pystr;                   (* group 2 *)
  ol_equals : pystr;                (* group 3: ["="] and the spaces around it *)
  ol_value : pystr;                 (* group 4 *)
  ol_newline : option pystr }.      (* group 5 *)

Definition is_key_start (c : N) : bool := in_ranges (upper ++ lower) c.
Definition is_key_char (c : N) : bool := in_ranges (upper ++ lower ++ digit ++ chars (u "_.-")) c.

(** The tail [(.*?)(\r?\n)?$]: the value up to the line end. *)
Definition split_newline (s : pystr) : pystr * option pystr :=
  match reverse s with
  | d :: r =>
      if (d =? 10)%N then
        match r with
        | c :: r' => if (c =? 13)%N then (reverse r', Some [13; 10]%N) else (reverse r, Some [10]%N)
        | [] => ([], Some [10]%N)
        end
      else (s, None)
  | [] => (s, None)
  end.

Definition value_tail (s : pystr) : option (pystr * option pystr) :=
  let '(value, newline) := split_newline s in
  if mem 10%N value then None else Some (value, newline).

(** The groups of [_OPTION_RE.match(line)].  The spaces after ["="] are matched greedily, so
    they include the line end of an option without a value. *)
Definition option_match (line : pystr) : option option_line :=
  let '(indent, r) := span is_space line in
  match r with
  | c :: _ =>
      if is_key_start c then
        let '(key, r) := span is_key_char r in
        let '(s1, r) := span is_space r in
        match r with
        | e :: r =>
            if (e =? 61)%N then
              let '(s2, r) := span is_space r in
              match value_tail r with
              | Some (value, newline) =>
                  Some (MkOptionLine indent key (s1 ++ [61%N] ++ s2) value newline)
              | None => None
              end
            else None
        | [] => None
        end
      else None
  | [] => None
  end.

(** The loop of [_bounds], from line [index] with the section start found so far. *)
Fixpoint bounds_loop (index : nat) (start : option nat) (lines : list pystr)
    : option nat * nat :=
  match lines with
  | [] => (start, index)
  | line :: lines =>
      match section_match (rstrip_crlf line) with
      | None => bounds_loop (S index) start lines
      | Some name =>
          match start with
          | None =>
              bounds_loop (S index)
                (if str_eqb (casefold (strip name)) (u "options") then Some (S index) else None)
                lines
          | Some s => (Some s, index)
          end
      end
  end.

Definition _bounds (lines : list pystr) : result exn (nat * nat) :=
  match bounds_loop 0 None lines with
  | (Some start, stop) => Ok (start, stop)
  | (None, _) => Err (operation_error (u "broker_config_options_missing"))
  end.

Definition matches_key (key : pystr) (line : pystr) : option option_line :=
  match option_match line with
  | Some m => if str_eqb (ol_key m) key then Some m else None
  | None => None
  end.

Definition _read_option (text key : pystr) : result exn (option pystr) :=
  let lines := splitlines_keep text in
  '(start, stop) ← _bounds lines;
  let found := omap (matches_key key) (take (stop - start) (drop start lines)) in
  match found with
  | [] => Ok None
  | [m] => Ok (Some (strip (ol_value m)))
  | _ => Err (operation_error (u "broker_config_key_duplicate"))
  end.

Definition ends_with_newline (s : pystr) : bool :=
  match last s with Some c => (c =? 10)%N || (c =? 13)%N | None => false end.

Definition has_crlf (s : pystr) : bool :=
  (fix go (s : pystr) := match s with
                         | a :: r => ((a =? 13)%N && match r with b :: _ => (b =? 10)%N | [] => false end)
                                     || go r
                         | [] => false end) s.

Definition patched_line (text value : pystr) (m : option_line) (key : pystr) : pystr :=
  ol_indent m ++ key ++ ol_equals m ++ value ++
  match ol_newline m with
  | Some nl => nl
  | None => if endswith [10%N] text then [10%N] else []
  end.

Definition insert_option (lines : list pystr) (stop : nat) (newline insertion : pystr) : list pystr :=
  if (stop =? length lines)%nat then
    match last lines with
    | Some l =>
        (if ends_with_newline l then lines
         else take (length lines - 1) lines ++ [l ++ newline]) ++ [insertion]
    | None => [insertion]
    end
  else take stop lines ++ insertion :: drop stop lines.

Definition _patch_option (text key value : pystr) : result exn pystr :=
  let lines := splitlines_keep text in
  '(start, stop) ← _bounds lines;
  let found := omap (λ i, (λ m, (i, m)) <$> (lines !! i ≫= matches_key key))
                 (seq start (stop - start)) in
  match found with
  | [] =>
      let newline := if has_crlf text then [13; 10]%N else [10]%N in
      let insertion := key ++ u " = " ++ value ++ newline in
      Ok (concat (insert_option lines stop newline insertion))
  | [(index, m)] => Ok (concat (<[index := patched_line text value m key]> lines))
  | _ => Err (operation_error (u "broker_config_key_duplicate"))
  end.

(** ** Operations *)

Definition shape_inspect : list pystr := [u "target"; u "key"].
Definition shape_patch : list pystr := [u "target"; u "key"; u "value"].
Definition shape_verify : list pystr :=
  [u "target"; u "key"; u "value"; u "receipt_id"; u "postcondition_fingerprint"].

Definition payload_invalid : exn := operation_error (u "broker_payload_invalid").

Definition config_target_of (policy : BrokerPolicy) (payload : pydict) (shape : list pystr)
    : result exn (ConfigTarget * pystr) :=
  raise_when (negb (has_keys payload shape)) payload_invalid;;
  target_id ← matching_str _TARGET_RE (get (u "target") payload) payload_invalid;
  key ← matching_str _KEY_RE (get (u "key") payload) payload_invalid;
  let denied := operation_error (u "broker_target_denied") in
  target ← of_option (dict_lookup target_id (bp_config_targets policy)) denied;
  raise_when (negb (mem key (ct_allowed_keys target)) || is_secret_key key) denied;;
  Ok (target, key).

Definition _value (payload : pydict) : result exn pystr :=
  value ← of_option (as_str (get (u "value") payload)) payload_invalid;
  data ← of_option (utf8_encode value) UnicodeEncodeError;
  raise_when ((_MAX_VALUE <? byte_len data) || mem 0%N value || mem 10%N value || mem 13%N value)
    payload_invalid;;
  Ok value.

Definition _decode (data : pybytes) : result exn pystr :=
  of_option (utf8_decode data) (operation_error (u "broker_config_encoding_invalid")).

Definition _encode (text : pystr) : result exn pybytes :=
  of_option (utf8_encode text) UnicodeEncodeError.

(** [_fingerprint] *)
Definition _fingerprint (data : pybytes) : pystr := fingerprint_of data.

Definition required_fingerprint (v : pyval) : result exn pystr :=
  matching_str _FINGERPRINT_RE v (operation_error (u "broker_precondition_required")).

Section operations.
Context {Env : Type} `{!Host Env} (policy : BrokerPolicy) (backups_dir : pystr).
Abbreviation M := (ST (world Env) exn).

Definition _read_file (target : ConfigTarget) : M (pybytes * file) :=
  let unavailable := operation_error (u "broker_config_unavailable") in
  catch sys (λ _, raise unavailable);;
  fs ← gets w_fs;
  f ← lift (of_option (fs !! ct_path target) unavailable);
  lift (raise_when (match f_kind f with Symlink _ => true | _ => false end) unavailable);;
  lift (raise_when (negb (is_regular f) || (ct_max_bytes target <? byte_len (f_data f)))
          (operation_error (u "broker_config_invalid")));;
  data ← read_loop (S (length (f_data f))) (ct_max_bytes target) (f_data f) [];
  lift (raise_when (ct_max_bytes target <? byte_len data)
          (operation_error (u "broker_config_too_large")));;
  mret (data, f).

Definition _backup (request_id : pystr) (data : pybytes) : M pystr :=
  ascii ← lift (of_option (if forallb (λ c, (c <? 128)%N) request_id
                           then utf8_encode request_id else None) UnicodeEncodeError);
  let suffix := take 32 (sha256_hexdigest ascii) in
  let path := path_join backups_dir (suffix ++ u ".bak") in
  fs ← gets w_fs;
  sys;;
  lift (raise_when (bool_decide (is_Some (fs !! path))) OSError);;
  modify (set_fs <[path := MkFile Regular 384 host_euid host_egid []]>);;
  sys;;
  modify (set_fs <[path := MkFile Regular 384 host_euid host_egid data]>);;
  sys;;
  modify (add_event (EvBackup path data));;
  mret (u "backup:v1:" ++ suffix).

(** The name [mkstemp(prefix=..., dir=parent)] draws. *)
Definition temporary_path (parent : pystr) (calls : nat) : pystr :=
  path_join parent (u ".odoo-ai-host-broker-" ++ host_suffix calls).

(** The [try] of [_atomic_replace]: fill the temporary file and rename it over the target. *)
Definition swap_in (temporary path : pystr) (data : pybytes) (original : file) : M unit :=
  catch
    (sys;; (* fchmod *)
     modify (set_fs <[temporary := MkFile Regular (f_mode original) host_euid host_egid []]>);;
     sys;; (* fchown *)
     let owned d := MkFile Regular (f_mode original) (f_uid original) (f_gid original) d in
     modify (set_fs <[temporary := owned []]>);;
     sys;; (* write *)
     modify (set_fs <[temporary := owned data]>);;
     sys;; (* fsync *)
     sys;; (* close *)
     sys;; (* os.replace *)
     modify (set_fs (λ m, delete temporary (<[path := owned data]> m)));;
     modify (add_event (EvReplace path data));;
     sys;; (* open the directory *)
     sys   (* fsync the directory *))
    (λ e,
       catch (sys;; modify (set_fs (delete temporary))) (λ _, mret tt);;
       raise e).

Definition _atomic_replace (path : pystr) (data : pybytes) (original : file) : M unit :=
  let parent := parent_dir path in
  calls ← gets w_calls;
  let temporary := temporary_path parent calls in
  sys;;
  fs ← gets w_fs;
  lift (raise_when (bool_decide (is_Some (fs !! temporary))) OSError);;
  modify (set_fs <[temporary := MkFile Regular 384 host_euid host_egid []]>);;
  swap_in temporary path data original.

Definition inspect (payload : pydict) : M OperationOutcome :=
  '(target, key) ← lift (config_target_of policy payload shape_inspect);
  '(data, _) ← _read_file target;
  text ← lift (_decode data);
  value ← lift (_read_option text key);
  let fingerprint := _fingerprint data in
  mret (MkOutcome (u "ok") (u "none")
          [(u "target", VStr (ct_target_id target)); (u "key", VStr key);
           (u "value", of_opt_str value); (u "fingerprint", VStr fingerprint)]
          (Some fingerprint) (Some fingerprint) (u "none") None None).

Definition preview_patch (payload : pydict) : M OperationOutcome :=
  '(target, key) ← lift (config_target_of policy payload shape_patch);
  value ← lift (_value payload);
  '(data, _) ← _read_file target;
  text ← lift (_decode data);
  current ← lift (_read_option text key);
  let fingerprint := _fingerprint data in
  mret (MkOutcome (u "ok") (u "none")
          [(u "target", VStr (ct_target_id target)); (u "key", VStr key);
           (u "current_value", of_opt_str current); (u "new_value", VStr value);
           (u "changed", VBool (negb (bool_decide (current = Some value))))]
          (Some fingerprint) (Some fingerprint) (u "none") None None).

Definition backup_class (token : option pystr) : pystr :=
  match token with Some _ => u "backup_available" | None => u "none" end.

Definition execute_patch (payload : pydict) (request_id : pystr) (expected_precondition : pyval)
    : M OperationOutcome :=
  '(target, key) ← lift (config_target_of policy payload shape_patch);
  value ← lift (_value payload);
  expected ← lift (required_fingerprint expected_precondition);
  '(data, original) ← _read_file target;
  let before := _fingerprint data in
  lift (raise_when (negb (str_eqb before expected))
    (BrokerOperationError
       (MkOutcome (u "stale") (u "none") [] (Some before) None (u "none") None
          (Some (u "broker_precondition_changed")))));;
  text ← lift (_decode data);
  new_text ← lift (_patch_option text key value);
  new_data ← lift (_encode new_text);
  lift (raise_when (ct_max_bytes target <? byte_len new_data)
          (operation_error (u "broker_config_too_large")));;
  let changed := negb (bool_decide (new_data = data)) in
  recovery_token ←
    (if changed then
       token ← _backup request_id data;
       _atomic_replace (ct_path target) new_data original;;
       mret (Some token)
     else mret None);
  '(after_data, _) ← _read_file target;
  let after := _fingerprint after_data in
  after_text ← lift (_decode after_data);
  after_value ← lift (_read_option after_text key);
  lift (raise_when (negb (bool_decide (after_value = Some value)))
    (BrokerOperationError
       (MkOutcome (u "uncertain") (u "unknown") [] (Some before) (Some after)
          (backup_class recovery_token) recovery_token
          (Some (u "broker_config_verify_failed")))));;
  mret (MkOutcome (u "ok") (if changed then u "applied" else u "none")
          [(u "target", VStr (ct_target_id target)); (u "key", VStr key);
           (u "changed", VBool changed); (u "value", VStr value)]
          (Some before) (Some after) (backup_class recovery_token) recovery_token None).

Definition verify_patch (payload : pydict) : M OperationOutcome :=
  '(target, key) ← lift (config_target_of policy payload shape_verify);
  value ← lift (_value payload);
  receipt_id ← lift (matching_str _RECEIPT_RE (get (u "receipt_id") payload) payload_invalid);
  expected ← lift (matching_str _FINGERPRINT_RE (get (u "postcondition_fingerprint") payload)
                     payload_invalid);
  '(data, _) ← _read_file target;
  let fingerprint := _fingerprint data in
  text ← lift (_decode data);
  current ← lift (_read_option text key);
  lift (raise_when (negb (bool_decide (current = Some value)) || negb (str_eqb fingerprint expected))
    (BrokerOperationError
       (MkOutcome (u "error") (u "unknown") [] None (Some fingerprint)
          (u "external_or_unknown") None (Some (u "broker_config_verify_failed")))));;
  mret (MkOutcome (u "ok") (u "none")
          [(u "target", VStr (ct_target_id target)); (u "key", VStr key);
           (u "verified", VBool true); (u "receipt_id", VStr receipt_id)]
          (Some fingerprint) (Some fingerprint) (u "none") None None).
End operations.
