(* ===== verification/BrokerConfigText.v ===== *)
(** * Host broker: correctness of the configuration text edits

    Reading back what [_patch_option] wrote, and what it leaves untouched. *)
From S2P Require Import Prelude PyText Regex PyValue BrokerProtocol BrokerPolicy BrokerHost.
From S2P Require Import BrokerConfig.

(** ** Lines *)

Definition no_break (s : pystr) : Prop := Forall (λ c, is_break c = false) s.

Inductive line_end : pystr → Prop :=
| end_crlf : line_end [13; 10]%N
| end_char c : is_break c = true → line_end [c].

(** Lists of terminated lines: what splitting a text that ends with a line feed yields. *)
Inductive full_lines : list pystr → Prop :=
| full_nil : full_lines []
| full_cons b e ls :
    no_break b → line_end e → (e = [13%N] → head (concat ls) ≠ Some 10%N) →
    full_lines ls → full_lines ((b ++ e) :: ls).

Lemma splitlines_keep_line b e s :
  no_break b → line_end e → (e = [13%N] → head s ≠ Some 10%N) →
  splitlines_keep (b ++ e ++ s) = (b ++ e) :: splitlines_keep s.
Proof.
  intros Hb He Hs. induction Hb as [|c b Hc Hb IH]; simpl app.
  - destruct He as [|c Hc]; [done|]. apply splitlines_keep_break; naive_solver.
  - rewrite splitlines_keep_char, IH by done. done.
Qed.

Lemma full_lines_split ls : full_lines ls → splitlines_keep (concat ls) = ls.
Proof.
  induction 1 as [|b e ls Hb He Hn _ IH]; simpl; [done|].
  by rewrite <- app_assoc, splitlines_keep_line, IH by done.
Qed.

Lemma last_cons_ne {A} (x : A) l : l ≠ [] → last (x :: l) = last l.
Proof. by destruct l. Qed.

(** [s] is empty or ends with a line feed. *)
Definition terminated (s : pystr) : Prop := s = [] ∨ last s = Some 10%N.

Lemma terminated_tail c r : terminated (c :: r) → terminated r.
Proof.
  destruct r as [|d r]; [by left|]. intros [?|H]; [done|]. right. by rewrite <- H.
Qed.

Lemma split_full_lines s : terminated s → full_lines (splitlines_keep s).
Proof.
  cut (concat (splitlines_keep s) = s ∧ (terminated s → full_lines (splitlines_keep s)));
    [naive_solver|].
  apply (splitlines_keep_ind (λ s ls, concat ls = s ∧ (terminated s → full_lines ls))).
  - split; [done|constructor].
  - intros r ls [<- IH]. split; [done|]. intros Ht. apply (full_cons [] [13;10]%N);
      [constructor|constructor|done|]. by apply IH, (terminated_tail 10), (terminated_tail 13).
  - intros c r ls Hc Hn [<- IH]. split; [done|]. intros Ht.
    apply (full_cons [] [c]); [constructor|by constructor|naive_solver|].
    by apply IH, (terminated_tail c).
  - intros c Hc. split; [done|]. intros [|[= ->]]; done.
  - intros c r l ls Hc Hr [<- IH]. split; [done|]. intros Ht%terminated_tail%IH.
    inversion Ht as [|b e ls' Hb He Hn Hls]; subst.
    apply (full_cons (c :: b) e); [by constructor|done..].
Qed.

Lemma full_lines_app_inv ls ks : full_lines (ls ++ ks) → full_lines ks.
Proof. induction ls as [|l ls IH]; simpl; [done|]. inversion 1; auto. Qed.

Lemma concat_head (l : pystr) ls : l ≠ [] → head (concat (l :: ls)) = head l.
Proof. by destruct l. Qed.

Lemma line_nonempty b e : line_end e → b ++ e ≠ [].
Proof. intros He. destruct He; by destruct b. Qed.

(** Replacing the lines in the middle. *)
Lemma full_lines_replace pre old mid post :
  full_lines (pre ++ old ++ post) → full_lines (mid ++ post) →
  head (concat mid) ≠ Some 10%N → mid ≠ [] → Forall (λ l, l ≠ []) mid →
  full_lines (pre ++ mid ++ post).
Proof.
  intros Hold Hmid Hh Hne Hall. induction pre as [|l pre IH]; simpl in *; [done|].
  inversion Hold as [|b e ls Hb He Hn Hls]; subst. apply full_cons; [done..| |by apply IH].
  intros ->. destruct pre as [|l pre].
  - simpl in *. destruct mid as [|m mid]; [done|]. inversion Hall; subst.
    simpl app. rewrite concat_head in * by done. done.
  - simpl app in *. inversion Hls; subst. rewrite !concat_head in * by by apply line_nonempty.
    by apply Hn.
Qed.

(** ** Sections *)

Definition plain_line (l : pystr) : Prop := section_match (rstrip_crlf l) = None.

Lemma bounds_plain index start ls ks :
  Forall plain_line ls →
  bounds_loop index (Some start) (ls ++ ks) = bounds_loop (index + length ls) (Some start) ks.
Proof.
  intros H. revert index. induction H as [|l ls Hl _ IH]; intros index; simpl.
  - by rewrite Nat.add_0_r.
  - unfold plain_line in Hl. rewrite Hl, IH. f_equal. lia.
Qed.

Lemma bounds_start index start ls : (bounds_loop index (Some start) ls).1 = Some start.
Proof.
  revert index. induction ls as [|l ls IH]; intros index; simpl; [done|]. by case_match.
Qed.

(** The [[options]] section: header lines, its plain lines, and what follows from the next
    section header on. *)
Lemma bounds_split lines start stop :
  _bounds lines = Ok (start, stop) →
  ∃ pre sec post, lines = pre ++ sec ++ post ∧ start = length pre ∧ stop = length pre + length sec ∧
    Forall plain_line sec ∧
    ∀ sec', Forall plain_line sec' →
      _bounds (pre ++ sec' ++ post) = Ok (length pre, length pre + length sec').
Proof.
  unfold _bounds.
  cut (∀ index ls start stop, bounds_loop index None ls = (Some start, stop) →
    ∃ pre sec post, ls = pre ++ sec ++ post ∧ start = index + length pre ∧
      stop = index + length pre + length sec ∧ Forall plain_line sec ∧
      ∀ sec', Forall plain_line sec' → bounds_loop index None (pre ++ sec' ++ post) =
        (Some (index + length pre), index + length pre + length sec')).
  { intros Hcut H. destruct (bounds_loop 0 None lines) as [[s|] e] eqn:E; [|done].
    injection H as <- <-. apply Hcut in E as (pre & sec & post & -> & -> & -> & Hs & Hall).
    exists pre, sec, post. split_and!; [done..|]. intros sec' Hs'. by rewrite Hall. }
  assert (∀ index start ls stop, bounds_loop index (Some start) ls = (Some start, stop) →
    ∃ sec post, ls = sec ++ post ∧ stop = index + length sec ∧ Forall plain_line sec ∧
      ∀ i, bounds_loop i (Some start) post = (Some start, i)) as Hsec.
  { intros index start' ls. revert index. induction ls as [|l ls IH]; intros index stop'; simpl.
    - intros [= <-]. exists [], []. split_and!; [done|simpl; lia|constructor|done].
    - destruct (section_match (rstrip_crlf l)) as [name|] eqn:El.
      + intros [= <-]. exists [], (l :: ls). split_and!; [done|simpl; lia|constructor|].
        intros i. simpl. by rewrite El.
      + intros (sec & post & -> & -> & Hs & Hp)%IH. exists (l :: sec), post.
        split_and!; [done|simpl; lia|by constructor|done]. }
  intros index ls. revert index. induction ls as [|l ls IH]; intros index start' stop'; simpl.
  { by intros [=]. }
  destruct (section_match (rstrip_crlf l)) as [name|] eqn:El; [destruct (str_eqb _ _) eqn:Eo|].
  - intros H. assert (start' = S index) as ->.
    { pose proof (bounds_start (S index) (S index) ls) as Hst. rewrite H in Hst. by injection Hst. }
    apply Hsec in H as (sec & post & -> & -> & Hs & Hp).
    exists [l], sec, post. simpl. split_and!; [done|lia|lia|done|].
    intros sec' Hs'. rewrite El, Eo, bounds_plain by done. rewrite Hp. f_equal; [f_equal|]; lia.
  - intros (pre & sec & post & -> & -> & -> & Hs & Hp)%IH. exists (l :: pre), sec, post.
    simpl. split_and!; [done|lia|lia|done|]. intros sec' Hs'. rewrite El, Eo, Hp by done.
    f_equal; [f_equal|]; lia.
  - intros (pre & sec & post & -> & -> & -> & Hs & Hp)%IH. exists (l :: pre), sec, post.
    simpl. split_and!; [done|lia|lia|done|]. intros sec' Hs'. rewrite El, Hp by done.
    f_equal; [f_equal|]; lia.
Qed.

(** ** Option lines *)

Lemma span_spec f s a b :
  span f s = (a, b) → s = a ++ b ∧ Forall (λ c, f c = true) a ∧ ∀ c, head b = Some c → f c = false.
Proof.
  revert a b. induction s as [|c s IH]; intros a b; simpl.
  - intros [= <- <-]. by split_and!.
  - destruct (f c) eqn:Hc.
    + destruct (span f s) as [a' b'] eqn:E. intros [= <- <-].
      destruct (IH _ _ eq_refl) as (-> & Ha & Hb). split_and!; [done|by constructor|done].
    + intros [= <- <-]. split_and!; [done|constructor|]. intros c' [= ->]. done.
Qed.

Lemma span_app f a b :
  Forall (λ c, f c = true) a → (∀ c, head b = Some c → f c = false) → span f (a ++ b) = (a, b).
Proof.
  intros Ha Hb. induction Ha as [|c a Hc Ha IH]; simpl; [|by rewrite Hc, IH].
  destruct b as [|c b]; simpl; [done|]. by rewrite Hb.
Qed.

Definition spaces (s : pystr) : Prop := Forall (λ c, is_space c = true) s.

Lemma key_char_not_space c : is_key_char c = true → is_space c = false.
Proof.
  intros H. apply (in_ranges_within _ 45 122) in H; [|by vm_compute].
  by apply (in_ranges_outside _ 45 122).
Qed.

Lemma key_start_char c : is_key_start c = true → is_key_char c = true.
Proof.
  unfold is_key_char, is_key_start, in_ranges. rewrite !existsb_exists.
  intros (r & Hin & Hr). exists r. split; [|done]. rewrite !in_app_iff in *. tauto.
Qed.

Definition newline_group (nl : option pystr) : Prop :=
  nl = None ∨ nl = Some [10%N] ∨ nl = Some [13; 10]%N.

Lemma split_newline_spec s v nl :
  split_newline s = (v, nl) → s = v ++ default [] nl ∧ newline_group nl.
Proof.
  unfold split_newline, newline_group. pose proof (reverse_involutive s) as Hs.
  destruct (reverse s) as [|d r]; rewrite <- Hs.
  - intros [= <- <-]. auto.
  - destruct (N.eqb_spec d 10) as [->|].
    + destruct r as [|c r]; [|destruct (N.eqb_spec c 13) as [->|]]; intros [= <- <-];
        rewrite ?reverse_cons, <- ?app_assoc; auto.
    + intros [= <- <-]. rewrite app_nil_r. auto.
Qed.

Lemma split_newline_app v nl :
  no_break v → newline_group nl → split_newline (v ++ default [] nl) = (v, nl).
Proof.
  intros Hv%Forall_reverse Hnl. pose proof (reverse_involutive v) as Hs.
  unfold split_newline. destruct Hnl as [->|[->| ->]]; simpl;
    rewrite ?app_nil_r, ?reverse_app; simpl; rewrite ?Hs.
  - destruct (reverse v) as [|c r]; [done|]. inversion Hv as [|? ? Hc]; subst.
    destruct (N.eqb_spec c 10) as [->|]; [by vm_compute in Hc|done].
  - destruct (reverse v) as [|c r]; [by rewrite <- Hs|]. inversion Hv as [|? ? Hc]; subst.
    destruct (N.eqb_spec c 13) as [->|]; [by vm_compute in Hc|done].
  - done.
Qed.

Lemma value_tail_spec s v nl :
  value_tail s = Some (v, nl) → s = v ++ default [] nl ∧ newline_group nl.
Proof.
  unfold value_tail. destruct (split_newline s) as [v' nl'] eqn:E.
  apply split_newline_spec in E as [-> Hnl]. by destruct (mem _ _); [|intros [= <- <-]].
Qed.

Lemma value_tail_app v nl :
  no_break v → newline_group nl → value_tail (v ++ default [] nl) = Some (v, nl).
Proof.
  intros Hv Hnl. unfold value_tail. rewrite split_newline_app by done.
  destruct (mem 10%N v) eqn:Hm; [|done]. apply mem_true in Hm.
  by apply (proj1 (Forall_forall _ _) Hv) in Hm.
Qed.

(** What the groups of an option line are. *)
Record well_formed_option (m : option_line) : Prop := {
  wf_indent : spaces (ol_indent m);
  wf_key : ∃ c k, ol_key m = c :: k ∧ is_key_start c = true ∧ Forall (λ c, is_key_char c = true) k;
  wf_equals : ∃ s1 s2, ol_equals m = s1 ++ [61%N] ++ s2 ∧ spaces s1 ∧ spaces s2;
  wf_newline : newline_group (ol_newline m) }.

Definition option_text (m : option_line) : pystr :=
  ol_indent m ++ ol_key m ++ ol_equals m ++ ol_value m ++ default [] (ol_newline m).

Lemma option_match_spec line m :
  option_match line = Some m →
  line = option_text m ∧ well_formed_option m ∧
  ∀ c, head (ol_value m ++ default [] (ol_newline m)) = Some c → is_space c = false.
Proof.
  unfold option_match, option_text. destruct (span is_space line) as [indent r] eqn:E1.
  apply span_spec in E1 as (-> & H1 & _). destruct r as [|c r]; [done|].
  destruct (is_key_start c) eqn:Hc; [|done].
  destruct (span is_key_char (c :: r)) as [key r1] eqn:E2.
  pose proof E2 as E2'. apply span_spec in E2 as (Ec & H2 & _).
  destruct (span is_space r1) as [s1 r2] eqn:E3. apply span_spec in E3 as (-> & H3 & _).
  destruct r2 as [|e r2]; [done|]. destruct (N.eqb_spec e 61) as [->|]; [|done].
  destruct (span is_space r2) as [s2 r3] eqn:E4. apply span_spec in E4 as (-> & H4 & Hh).
  destruct (value_tail r3) as [[v nl]|] eqn:E5; [|done].
  apply value_tail_spec in E5 as [-> Hnl]. intros [= <-]. simpl. split_and!; [| |done].
  - rewrite Ec, <- !app_assoc. done.
  - split; simpl; [done| |by exists s1, s2|done].
    destruct key as [|c' k].
    + simpl in E2'. rewrite (key_start_char c) in E2' by done.
      by destruct (span is_key_char r) in E2'.
    + injection Ec as <- _. inversion H2; subst. eauto.
Qed.

(** A value the pattern gives back as it is: one line, no space at either end. *)
Definition clean_value (v : pystr) : Prop := no_break v ∧ strip v = v.

Lemma lstrip_length s : length (lstrip s) ≤ length s.
Proof. induction s as [|c s IH]; simpl; [done|]. destruct (is_space c); simpl; lia. Qed.

Lemma strip_head v c : strip v = v → head v = Some c → is_space c = false.
Proof.
  intros Hv Hc. destruct v as [|c' r]; [done|]. injection Hc as ->.
  destruct (is_space c) eqn:E; [|done]. exfalso. apply (f_equal length) in Hv.
  unfold strip, rstrip in Hv. simpl in Hv. rewrite E, length_reverse in Hv.
  pose proof (lstrip_length (reverse (lstrip r))). pose proof (lstrip_length r).
  rewrite length_reverse in *. lia.
Qed.

Lemma space_newline nl : newline_group nl → spaces (default [] nl).
Proof. intros [->|[->| ->]]; simpl; repeat constructor. Qed.

(** The groups of a rebuilt line. *)
Lemma option_match_build m v nl :
  well_formed_option m → clean_value v → newline_group nl →
  ∃ m', option_match (ol_indent m ++ ol_key m ++ ol_equals m ++ v ++ default [] nl) = Some m' ∧
    ol_key m' = ol_key m ∧ ol_value m' = v.
Proof.
  intros [Hi (c & k & Hk & Hc & Hkc) (s1 & s2 & -> & Hs1 & Hs2) _] [Hb Hst] Hnl.
  rewrite Hk. unfold option_match.
  rewrite span_app by (done || by intros ? [= <-]; apply key_char_not_space, key_start_char).
  simpl app. cbv iota beta. rewrite Hc.
  rewrite (app_comm_cons k), span_app; first last.
  { intros d Hd. destruct s1 as [|d' s1]; simpl in Hd; [by injection Hd as <-|].
    injection Hd as <-. inversion Hs1 as [|? ? Hd']; subst.
    destruct (is_key_char d') eqn:E; [|done]. apply key_char_not_space in E. congruence. }
  { constructor; [by apply key_start_char|done]. }
  rewrite <- !app_assoc, span_app by (done || by intros ? [= <-]). simpl app.
  cbv iota beta. rewrite N.eqb_refl.
  destruct v as [|a v].
  - simpl app. rewrite <- (app_nil_r (s2 ++ default [] nl)), span_app.
    + change (value_tail []) with (Some (@nil N, @None pystr)). eauto.
    + apply Forall_app; split; [done|by apply space_newline].
    + done.
  - rewrite span_app; [|done|].
    + rewrite value_tail_app by done. eauto.
    + intros d Hd. by apply (strip_head (a :: v)).
Qed.

(** ** Where the patched line goes *)

Section index.
Context {A B : Type} (f : A → option B).

Definition indexed (lines : list A) (start n : nat) : list (nat * B) :=
  omap (λ i, (λ m, (i, m)) <$> (lines !! i ≫= f)) (seq start n).

Lemma indexed_cons pre l sec post :
  indexed (pre ++ (l :: sec) ++ post) (length pre) (S (length sec)) =
  (match f l with Some m => [(length pre, m)] | None => [] end) ++
  indexed ((pre ++ [l]) ++ sec ++ post) (length (pre ++ [l])) (length sec).
Proof.
  unfold indexed. rewrite length_app, Nat.add_1_r, <- app_assoc. simpl.
  rewrite list_lookup_middle by done. simpl. by destruct (f l).
Qed.

Lemma indexed_nil pre sec post :
  indexed (pre ++ sec ++ post) (length pre) (length sec) = [] → Forall (λ l, f l = None) sec.
Proof.
  revert pre. induction sec as [|l sec IH]; intros pre; [constructor|].
  cbn [length]. rewrite indexed_cons. intros [H1 H2]%app_nil.
  constructor; [by destruct (f l)|by eapply IH].
Qed.

Lemma indexed_one pre sec post i m :
  indexed (pre ++ sec ++ post) (length pre) (length sec) = [(i, m)] →
  ∃ a l b, sec = a ++ l :: b ∧ i = length pre + length a ∧ f l = Some m ∧
    Forall (λ l, f l = None) a ∧ Forall (λ l, f l = None) b.
Proof.
  revert pre. induction sec as [|l sec IH]; intros pre; [done|].
  cbn [length]. rewrite indexed_cons. destruct (f l) as [m'|] eqn:Hl; simpl app.
  - intros [= <- <- H]. apply indexed_nil in H. exists [], l, sec.
    split_and!; [done|simpl; lia|done|constructor|done].
  - intros (a & k & b & -> & -> & Hk & Ha & Hb)%IH. exists (l :: a), k, b.
    rewrite length_app. split_and!; [done|simpl; lia|done|by constructor|done].
Qed.
End index.

Lemma omap_none {A B} (f : A → option B) l : Forall (λ x, f x = None) l → omap f l = [].
Proof. induction 1 as [|x l Hx _ IH]; simpl; [done|]. rewrite Hx. apply IH. Qed.

Lemma insert_middle {A} (pre a b post : list A) l x :
  <[length pre + length a := x]> (pre ++ (a ++ l :: b) ++ post) = pre ++ (a ++ x :: b) ++ post.
Proof.
  rewrite insert_app_r, <- !app_assoc. f_equal. rewrite <- (Nat.add_0_r (length a)), insert_app_r.
  done.
Qed.

(** A line that assigns to the key is not a section header. *)
Lemma option_line_plain m s :
  well_formed_option m → plain_line (ol_indent m ++ ol_key m ++ s).
Proof.
  intros [Hi (c & k & -> & Hc & _) _ _]. unfold plain_line.
  assert (is_space c = false) as Hcs by by apply key_char_not_space, key_start_char.
  assert ((c =? 91)%N = false ∧ (c =? 10)%N = false ∧ (c =? 13)%N = false) as (H1 & H2 & H3).
  { apply (in_ranges_within _ 65 122) in Hc as Hr; [|by vm_compute].
    split_and!; apply N.eqb_neq; [|lia..]. intros ->. by vm_compute in Hc. }
  assert (∀ t, ∃ s', rstrip_crlf (ol_indent m ++ c :: t) = ol_indent m ++ c :: s') as Hstrip.
  { intros t. assert (∃ r', drop_crlf (reverse t ++ c :: reverse (ol_indent m)) =
      r' ++ c :: reverse (ol_indent m)) as [r' Hr'].
    { induction (reverse t) as [|d r IH]; simpl; [exists []; by rewrite H2, H3|].
      destruct (_ || _); [done|]. by exists (d :: r). }
    exists (reverse r'). unfold rstrip_crlf.
    rewrite reverse_app, reverse_cons, <- app_assoc. simpl app. rewrite Hr'.
    by rewrite reverse_app, reverse_cons, reverse_involutive, <- app_assoc. }
  destruct (Hstrip (k ++ s)) as [s' Hs']. rewrite <- app_comm_cons, Hs'.
  unfold section_match. assert (lstrip (ol_indent m ++ c :: s') = c :: s') as ->.
  { clear -Hi Hcs. induction Hi as [|d i Hd _ IH]; simpl; [by rewrite Hcs|by rewrite Hd]. }
  by rewrite H1.
Qed.

(** ** The edit *)

Definition valid_key (key : pystr) : Prop :=
  ∃ c k, key = c :: k ∧ is_key_start c = true ∧ Forall (λ c, is_key_char c = true) k.

(** No line assigns nothing to the key: such a line hides its line end from the pattern. *)
Definition no_empty_option (text key : pystr) : bool :=
  forallb (λ l, match matches_key key l with
                | Some m => match ol_newline m with Some _ => true | None => false end
                | None => true
                end) (splitlines_keep text).

Lemma matches_key_Some key l m :
  matches_key key l = Some m → option_match l = Some m ∧ ol_key m = key.
Proof.
  unfold matches_key. destruct (option_match l) as [m'|]; [|done].
  destruct (str_eqb _ _) eqn:E; [|done]. apply str_eqb_true in E. by intros [= <-].
Qed.

Lemma key_no_break key : valid_key key → no_break key.
Proof.
  intros (c & k & -> & Hc%key_start_char & Hk). unfold no_break.
  assert (∀ c, is_key_char c = true → is_break c = false) as H.
  { intros d Hd. apply (in_ranges_within _ 45 122) in Hd; [|by vm_compute].
    by apply (in_ranges_outside _ 45 122). }
  constructor; [by apply H|]. eapply Forall_impl; [done|]. simpl. auto.
Qed.

(** The line of a key that is assigned something: its head holds no line boundary. *)
Lemma option_prefix_no_break b e m nl :
  no_break b → line_end e → option_match (b ++ e) = Some m → ol_newline m = Some nl →
  no_break (ol_indent m ++ ol_key m ++ ol_equals m).
Proof.
  intros Hb He Hm Hnl. apply option_match_spec in Hm as (Ht & Hwf & Hh).
  unfold option_text in Ht. rewrite Hnl in *. simpl in *.
  assert (ol_value m ≠ []) as Hv.
  { intros Hv. rewrite Hv in Hh. simpl in Hh.
    destruct (wf_newline _ Hwf) as [?|[Hn|Hn]]; [congruence|..];
      rewrite Hnl in Hn; injection Hn as ->; by specialize (Hh _ eq_refl). }
  destruct (exists_last Hv) as (v & x & Ev). rewrite Ev in Ht.
  set (h := ol_indent m ++ ol_key m ++ ol_equals m).
  assert (b ++ e = (h ++ v ++ [x]) ++ nl) as Ht'.
  { subst h. rewrite Ht, <- !app_assoc. done. }
  enough (∃ t, b = h ++ t) as [t ->]. { by apply Forall_app in Hb as [? _]. }
  assert (∀ s : pystr, s ++ [13; 10]%N = (s ++ [13%N]) ++ [10%N]) as Hcrlf.
  { intros s. by rewrite <- app_assoc. }
  destruct (wf_newline _ Hwf) as [?|[Hn|Hn]]; [congruence|..];
    rewrite Hnl in Hn; injection Hn as ->; destruct He as [|c Hc]; rewrite ?Hcrlf in Ht'.
  - apply app_inj_tail in Ht' as [Ht' _]. rewrite app_assoc in Ht'.
    apply app_inj_tail in Ht' as [-> _]. by exists v.
  - apply app_inj_tail in Ht' as [-> _]. by eexists.
  - apply app_inj_tail in Ht' as [Ht' _]. apply app_inj_tail in Ht' as [-> _]. by eexists.
  - apply app_inj_tail in Ht' as [-> _]. apply Forall_app in Hb as [_ Hb].
    inversion Hb as [|? ? H13]; subst. by vm_compute in H13.
Qed.

Lemma full_lines_lookup ls l : full_lines ls → l ∈ ls → ∃ b e, l = b ++ e ∧ no_break b ∧ line_end e.
Proof.
  induction 1 as [|b e ls Hb He _ _ IH]; [by intros ?%not_elem_of_nil|].
  intros [->|Hin]%elem_of_cons; [by exists b, e|by apply IH].
Qed.

(** An edit replaces one line of the section, or adds one at its end. *)
Definition edit (text text' key value : pystr) : Prop :=
  ∃ pre a old b post new m',
    splitlines_keep text = pre ++ (a ++ old ++ b) ++ post ∧
    splitlines_keep text' = pre ++ (a ++ [new] ++ b) ++ post ∧
    _bounds (splitlines_keep text) = Ok (length pre, length pre + length (a ++ old ++ b)) ∧
    _bounds (splitlines_keep text') = Ok (length pre, length pre + length (a ++ [new] ++ b)) ∧
    Forall (λ l, matches_key key l = None) (a ++ b) ∧
    Forall (λ l, is_Some (matches_key key l)) old ∧
    option_match new = Some m' ∧ ol_key m' = key ∧ ol_value m' = value.

(** The new line in its place among terminated lines. *)
Lemma edit_intro text key value pre a old b post m nl :
  terminated text → valid_key key → clean_value value →
  splitlines_keep text = pre ++ (a ++ old ++ b) ++ post →
  _bounds (splitlines_keep text) = Ok (length pre, length pre + length (a ++ old ++ b)) →
  (∀ sec', Forall plain_line sec' →
    _bounds (pre ++ sec' ++ post) = Ok (length pre, length pre + length sec')) →
  Forall plain_line (a ++ b) →
  Forall (λ l, matches_key key l = None) (a ++ b) →
  Forall (λ l, is_Some (matches_key key l)) old →
  well_formed_option m → ol_key m = key →
  no_break (ol_indent m ++ ol_key m ++ ol_equals m) →
  nl = Some [10%N] ∨ nl = Some [13; 10]%N →
  let new := ol_indent m ++ ol_key m ++ ol_equals m ++ value ++ default [] nl in
  edit text (concat (pre ++ (a ++ [new] ++ b) ++ post)) key value.
Proof.
  intros Ht Hk Hv Hsplit Hb Hb' Hplain Hnone Hold Hwf Hkey Hnb Hnl new.
  destruct (option_match_build m value nl) as (m' & Hm' & Hmk & Hmv); [done..|by right|].
  assert (splitlines_keep (concat (pre ++ (a ++ [new] ++ b) ++ post)) =
          pre ++ (a ++ [new] ++ b) ++ post) as Hs.
  { apply full_lines_split. pose proof (split_full_lines text Ht) as Hf. rewrite Hsplit in Hf.
    rewrite <- !app_assoc in *. rewrite (app_assoc pre) in *.
    assert (new ≠ [] ∧ head new ≠ Some 10%N) as [Hne Hhead].
    { destruct Hk as (c & k & -> & Hc & _). subst new. rewrite Hkey.
      apply Forall_app in Hnb as [Hi [Hck _]%Forall_app]. rewrite Hkey in Hck.
      destruct (ol_indent m) as [|d i]; (split; [done|]); intros [= ->].
      - by inversion Hck.
      - by inversion Hi. }
    apply (full_lines_replace _ old); [done| | |done|by constructor].
    - simpl. assert (new = (ol_indent m ++ ol_key m ++ ol_equals m ++ value) ++ default [] nl) as ->.
      { subst new. by rewrite <- !app_assoc. }
      apply full_cons.
      + rewrite !app_assoc. apply Forall_app. rewrite <- !app_assoc. split; [done|apply Hv].
      + destruct Hnl as [->| ->]; simpl; [by constructor|constructor].
      + destruct Hnl as [->| ->]; done.
      + by do 2 apply full_lines_app_inv in Hf.
    - simpl. rewrite app_nil_r. done. }
  exists pre, a, old, b, post, new, m'. rewrite Hs. split_and!; try done; [|congruence].
  apply Hb'. apply Forall_app in Hplain as [Ha Hpb]. apply Forall_app; split; [done|].
  apply Forall_app; split; [|done]. constructor; [|constructor].
  subst new. by apply option_line_plain.
Qed.

Lemma last_concat ls (l : pystr) : last ls = Some l → l ≠ [] → last (concat ls) = last l.
Proof.
  intros Hl Hne. apply last_Some in Hl as [ls' ->]. rewrite concat_app. simpl.
  rewrite app_nil_r, last_app. by destruct (last l) eqn:E; [|apply last_None in E].
Qed.

Lemma insert_option_middle pre sec post (newline insertion : pystr) :
  terminated (concat (pre ++ sec ++ post)) → Forall (λ l, l ≠ []) (pre ++ sec ++ post) →
  pre ≠ [] →
  insert_option (pre ++ sec ++ post) (length pre + length sec) newline insertion =
  pre ++ (sec ++ [insertion]) ++ post.
Proof.
  intros Ht Hne Hpre. unfold insert_option. rewrite !length_app.
  destruct (Nat.eqb_spec (length pre + length sec) (length pre + (length sec + length post))) as [E|E].
  - destruct post as [|p post]; [|simpl in E; lia]. rewrite !app_nil_r in *.
    destruct (last (pre ++ sec)) as [l|] eqn:El.
    + assert (l ≠ []) as Hl.
      { apply last_Some in El as [ls El]. rewrite El in Hne. by apply Forall_app in Hne as [_ ?%Forall_inv]. }
      destruct Ht as [Ht|Ht].
      { apply last_Some in El as [ls El]. rewrite El, concat_app in Ht. simpl in Ht.
        rewrite app_nil_r in Ht. by apply app_nil in Ht as [_ ?]. }
      rewrite (last_concat _ l) in Ht by done. unfold ends_with_newline. rewrite Ht. simpl.
      by rewrite <- app_assoc.
    + apply last_None in El. by apply app_nil in El as [? _].
  - rewrite !app_assoc, <- length_app, take_app_length, drop_app_length, <- !app_assoc. done.
Qed.

Lemma bounds_pre ls start stop : _bounds ls = Ok (start, stop) → start ≠ 0.
Proof.
  unfold _bounds. intros H. destruct (bounds_loop 0 None ls) as [[s|] e] eqn:E; [|done].
  injection H as -> ->. revert E. generalize 0 at 1. induction ls as [|l ls IH]; intros i; simpl; [done|].
  destruct (section_match _); [|apply IH]. destruct (str_eqb _ _); [|apply IH].
  intros E. pose proof (bounds_start (S i) (S i) ls) as Hst. rewrite E in Hst. by injection Hst as ->.
Qed.

Lemma patch_edit text key value text' :
  terminated text → valid_key key → clean_value value → no_empty_option text key = true →
  _patch_option text key value = Ok text' → edit text text' key value.
Proof.
  intros Ht Hk Hv Hempty Hp. unfold _patch_option in Hp. result_inv.
  match goal with Hb : _bounds _ = Ok ?x |- _ => destruct x as [start stop]; rename Hb into Hb0 end.
  pose proof Hb0 as Hbounds.
  apply bounds_split in Hb0 as (pre & sec & post & Hsplit & -> & -> & Hplain & Hb').
  rewrite Hsplit in Hp. replace (length pre + length sec - length pre) with (length sec) in Hp by lia.
  fold (indexed (matches_key key) (pre ++ sec ++ post) (length pre) (length sec)) in Hp.
  destruct (indexed _ _ _ _) as [|[i m] [|]] eqn:Efound; [| |done].
  - apply indexed_nil in Efound. injection Hp as <-.
    set (nl := if has_crlf text then Some [13; 10]%N else Some [10%N]).
    assert (nl = Some [10%N] ∨ nl = Some [13; 10]%N) as Hnl by (subst nl; case_match; auto).
    rewrite insert_option_middle; [| | |].
    + replace (if has_crlf text then _ else _) with (default [] nl)
        by (subst nl; by destruct (has_crlf text)).
      pose (m := MkOptionLine [] key (u " = ") value nl).
      apply (edit_intro text key value pre sec [] [] post m nl);
        simpl; rewrite ?app_nil_r; try done.
      * split; simpl; [constructor|by destruct Hk as (c & k & ?); eauto| |].
        -- exists [32%N], [32%N]. split_and!; [done|repeat constructor..].
        -- destruct Hnl as [->| ->]; [by right; left|by right; right].
      * apply Forall_app; split; [by apply key_no_break|repeat constructor].
    + rewrite <- Hsplit, concat_splitlines_keep. done.
    + rewrite <- Hsplit. apply Forall_forall. apply splitlines_keep_nonempty.
    + intros ->. by apply bounds_pre in Hbounds.
  - apply indexed_one in Efound as (a & l & b & -> & -> & Hm & Ha & Hb).
    injection Hp as <-. rewrite insert_middle.
    assert (l ∈ splitlines_keep text) as Hin.
    { rewrite Hsplit. set_solver. }
    unfold no_empty_option in Hempty. rewrite forallb_true in Hempty.
    specialize (Hempty l Hin). rewrite Hm in Hempty. apply matches_key_Some in Hm as [Hmo Hmk].
    destruct (ol_newline m) as [nl|] eqn:Enl; [|done].
    pose proof (option_match_spec _ _ Hmo) as (_ & Hwf & _).
    unfold patched_line. rewrite Enl.
    destruct (full_lines_lookup _ _ (split_full_lines _ Ht) Hin) as (bd & e & -> & Hbd & He).
    rewrite <- Hmk. apply (edit_intro text (ol_key m) value pre a [bd ++ e] b post m (Some nl)).
    all: rewrite ?Hmk; try done.
    + apply Forall_app in Hplain as [? [_ ?]%Forall_cons]. by apply Forall_app.
    + by apply Forall_app.
    + constructor; [|constructor]. unfold matches_key. rewrite Hmo, Hmk.
      by rewrite (proj2 (str_eqb_true key key) eq_refl).
    + rewrite <- Hmk. by eapply option_prefix_no_break.
    + rewrite <- Enl. destruct (wf_newline _ Hwf) as [?|?]; [congruence|done].
Qed.

(** ** Reading the edited text *)

Lemma read_option_section text key pre sec post :
  splitlines_keep text = pre ++ sec ++ post →
  _bounds (splitlines_keep text) = Ok (length pre, length pre + length sec) →
  _read_option text key =
  match omap (matches_key key) sec with
  | [] => Ok None
  | [m] => Ok (Some (strip (ol_value m)))
  | _ => Err (operation_error (u "broker_config_key_duplicate"))
  end.
Proof.
  intros Hs Hb. unfold _read_option. rewrite Hb. simpl. rewrite Hs.
  replace (length pre + length sec - length pre) with (length sec) by lia.
  by rewrite drop_app_length, take_app_length.
Qed.

Lemma matches_key_own key l m :
  option_match l = Some m → ol_key m = key → matches_key key l = Some m.
Proof.
  intros Hm Hk. unfold matches_key. rewrite Hm, Hk.
  by rewrite (proj2 (str_eqb_true key key) eq_refl).
Qed.

Lemma matches_key_other key key' l m :
  matches_key key l = Some m → key' ≠ key → matches_key key' l = None.
Proof.
  intros [Hm Hk]%matches_key_Some Hne. unfold matches_key. rewrite Hm.
  destruct (str_eqb _ _) eqn:E; [|done]. apply str_eqb_true in E. congruence.
Qed.

Lemma edit_read text text' key value :
  clean_value value → edit text text' key value → _read_option text' key = Ok (Some value).
Proof.
  intros [_ Hv] (pre & a & old & b & post & new & m & _ & Hs & _ & Hb & Hnone & _ & Hm & Hk & Hmv).
  rewrite (read_option_section _ _ _ _ _ Hs Hb), !omap_app.
  apply Forall_app in Hnone as [Ha Hbn]. rewrite (omap_none _ a), (omap_none _ b) by done.
  simpl. rewrite (matches_key_own key new m) by done. simpl. by rewrite Hmv, Hv.
Qed.

Lemma edit_read_other text text' key key' value :
  edit text text' key value → key' ≠ key → _read_option text' key' = _read_option text key'.
Proof.
  intros (pre & a & old & b & post & new & m & Hs & Hs' & Hb & Hb' & _ & Hold & Hm & Hk & _) Hne.
  rewrite (read_option_section _ _ _ _ _ Hs Hb), (read_option_section _ _ _ _ _ Hs' Hb'), !omap_app.
  rewrite (omap_none _ old), (omap_none _ [new]); [done| |].
  - constructor; [|constructor]. eapply matches_key_other; [by apply matches_key_own|done].
  - eapply Forall_impl; [done|]. intros l [m' Hm']. by eapply matches_key_other.
Qed.
