(* ===== verification/BrokerConfigFacts.v ===== *)
(** * Host broker: correctness of the configuration operations

    What the operations may touch, on every branch and whatever system call fails. *)
From S2P Require Import Prelude PyText Regex Sha256 PyValue BrokerProtocol BrokerPolicy.
From S2P Require Import BrokerHost BrokerConfig BrokerConfigText.
Local Open Scope Z_scope.

Section facts.
Context {Env : Type} `{!Host Env} (policy : BrokerPolicy) (backups_dir : pystr).
Implicit Types w : world Env.

(** ** The ledger is not theirs *)

Lemma read_file_ledger target : keeps same_ledger (_read_file target).
Proof. unfold _read_file. solve_keeps. Qed.
#[local] Hint Resolve read_file_ledger : keeps.

Lemma inspect_ledger payload : keeps same_ledger (inspect policy payload).
Proof. unfold inspect. solve_keeps. Qed.
Lemma preview_patch_ledger payload : keeps same_ledger (preview_patch policy payload).
Proof. unfold preview_patch. solve_keeps. Qed.
Lemma verify_patch_ledger payload : keeps same_ledger (verify_patch policy payload).
Proof. unfold verify_patch. solve_keeps. Qed.
Lemma backup_ledger id data : keeps same_ledger (_backup backups_dir id data).
Proof. unfold _backup. solve_keeps. Qed.
Lemma atomic_replace_ledger path data f : keeps same_ledger (_atomic_replace path data f).
Proof. unfold _atomic_replace. solve_keeps. Qed.
#[local] Hint Resolve backup_ledger atomic_replace_ledger : keeps.
Lemma execute_patch_ledger payload id expected :
  keeps same_ledger (execute_patch policy backups_dir payload id expected).
Proof. unfold execute_patch. solve_keeps. Qed.

(** ** Reading changes no file *)

Lemma read_file_files target : keeps same_files (_read_file target).
Proof. unfold _read_file. solve_keeps. Qed.
#[local] Hint Resolve read_file_files : keeps.
Lemma inspect_files payload : keeps same_files (inspect policy payload).
Proof. unfold inspect. solve_keeps. Qed.
Lemma preview_patch_files payload : keeps same_files (preview_patch policy payload).
Proof. unfold preview_patch. solve_keeps. Qed.
Lemma verify_patch_files payload : keeps same_files (verify_patch policy payload).
Proof. unfold verify_patch. solve_keeps. Qed.

(** ** Replacing the file *)

(** Where the file of a target is after a statement: as it was, or replaced as a whole. *)
Definition replaced (path : pystr) (data : pybytes) (original : file) : file :=
  MkFile Regular (f_mode original) (f_uid original) (f_gid original) data.

(** Statements that only write the temporary file [temp]. *)
Definition only_temp (temp : pystr) w w' : Prop := ∀ p, p ≠ temp → w_fs w' !! p = w_fs w !! p.
#[local] Instance only_temp_preorder temp : PreOrder (only_temp temp).
Proof. split; [by intros w p|]. intros w1 w2 w3 H1 H2 p Hp. by rewrite H2, H1. Qed.

Lemma sys_only_temp temp : keeps (only_temp temp) (sys (Env:=Env)).
Proof. by intros w p. Qed.
Lemma write_only_temp temp f : keeps (only_temp temp) (modify (E:=exn) (set_fs (Env:=Env) <[temp := f]>)).
Proof. intros w p Hp. cbn. by rewrite lookup_insert_ne. Qed.
Lemma delete_only_temp temp : keeps (only_temp temp) (modify (E:=exn) (set_fs (Env:=Env) (delete temp))).
Proof. intros w p Hp. cbn. by rewrite lookup_delete_ne. Qed.
Lemma event_only_temp temp ev : keeps (only_temp temp) (modify (E:=exn) (add_event (Env:=Env) ev)).
Proof. by intros w p. Qed.
#[local] Hint Resolve sys_only_temp write_only_temp delete_only_temp event_only_temp : keeps.

(** At most the temporary file changed, or the target was replaced as well. *)
Definition swapped (path temp : pystr) (g : file) w w' : Prop :=
  only_temp temp w w' ∨ ∀ p, p ≠ temp → w_fs w' !! p = <[path := g]> (w_fs w) !! p.

Lemma swapped_before path temp g w1 w2 w3 :
  only_temp temp w1 w2 → swapped path temp g w2 w3 → swapped path temp g w1 w3.
Proof.
  intros H1 [H2|H2]; [left; by etrans|right]. intros p Hp. rewrite H2 by done.
  destruct (decide (p = path)) as [->|]; [by rewrite !lookup_insert_eq|].
  rewrite !lookup_insert_ne by done. by apply H1.
Qed.
Lemma swapped_after path temp g w1 w2 w3 :
  swapped path temp g w1 w2 → only_temp temp w2 w3 → swapped path temp g w1 w3.
Proof.
  intros [H1|H1] H2; [left; by etrans|right]. intros p Hp. rewrite H2 by done. by apply H1.
Qed.

Lemma swapped_bind_before {A B} path temp g (m : ST (world Env) exn A) (k : A → ST (world Env) exn B) :
  keeps (only_temp temp) m → (∀ a, keeps (swapped path temp g) (k a)) →
  keeps (swapped path temp g) (m ≫= k).
Proof.
  intros Hm Hk w. unfold mbind, ST_bind. specialize (Hm w).
  destruct (m w) as [[a|e] w1]; simpl in *; [|by left].
  eapply swapped_before; [done|apply Hk].
Qed.
Lemma swapped_bind_after {A B} path temp g (m : ST (world Env) exn A) (k : A → ST (world Env) exn B) :
  keeps (swapped path temp g) m → (∀ a, keeps (only_temp temp) (k a)) →
  keeps (swapped path temp g) (m ≫= k).
Proof.
  intros Hm Hk w. unfold mbind, ST_bind. specialize (Hm w).
  destruct (m w) as [[a|e] w1]; simpl in *; [|done].
  eapply swapped_after; [done|apply Hk].
Qed.
Lemma swapped_catch {A} path temp g (m : ST (world Env) exn A) h :
  keeps (swapped path temp g) m → (∀ e, keeps (only_temp temp) (h e)) →
  keeps (swapped path temp g) (catch m h).
Proof.
  intros Hm Hh w. unfold catch. specialize (Hm w).
  destruct (m w) as [[a|e] w1]; simpl in *; [done|].
  eapply swapped_after; [done|apply Hh].
Qed.
Lemma swapped_rename path temp g :
  keeps (swapped path temp g) (modify (E:=exn) (set_fs (Env:=Env) (λ m, delete temp (<[path := g]> m)))).
Proof. intros w. right. intros p Hp. cbn. by rewrite lookup_delete_ne. Qed.

(** The files that exist are kept, all but the target, which is kept or replaced whole. *)
Definition kept w w' : Prop := ∀ p f, w_fs w !! p = Some f → w_fs w' !! p = Some f.
Definition kept_but (path : pystr) (g : file) w w' : Prop :=
  w_fs w' !! path = Some g ∧ ∀ p f, p ≠ path → w_fs w !! p = Some f → w_fs w' !! p = Some f.

Lemma same_files_kept w w' : same_files w w' → kept w w'.
Proof. intros E p f. by rewrite E. Qed.

Lemma swap_in_swapped temp path data original :
  keeps (swapped path temp (replaced path data original)) (swap_in temp path data original).
Proof.
  unfold swap_in. apply swapped_catch; [|intros e; solve_keeps].
  repeat first [apply swapped_bind_after; [apply swapped_rename|intros []; solve_keeps]
               |apply swapped_bind_before; [solve [solve_keeps]|intros []]].
Qed.

Lemma atomic_replace_cases path data original f w :
  w_fs w !! path = Some f →
  kept w (_atomic_replace path data original w).2 ∨
  kept_but path (replaced path data original) w (_atomic_replace path data original w).2.
Proof.
  intros Hf. unfold _atomic_replace, mbind, ST_bind, gets, sys, sys_as, lift, modify.
  destruct (host_fault _); [by left; apply same_files_kept|]. cbn [fst snd].
  set (temp := temporary_path _ _).
  unfold raise_when. case_bool_decide as Ht; [by left; apply same_files_kept|].
  apply eq_None_not_Some in Ht. cbn in Ht.
  match goal with |- context [swap_in _ _ _ _ ?w1] =>
    pose proof (swap_in_swapped temp path data original w1) as H end.
  assert (∀ p f, w_fs w !! p = Some f → p ≠ temp) as Hne by (intros p f' Hp ->; congruence).
  destruct H as [H|H]; [left|right; split].
  - intros p f' Hp. rewrite H by eauto. cbn. by rewrite lookup_insert_ne by (symmetry; eauto).
  - rewrite H by eauto. by rewrite lookup_insert_eq.
  - intros p f' Hp Hf'. rewrite H by eauto. rewrite lookup_insert_ne by done. cbn.
    by rewrite lookup_insert_ne by (symmetry; eauto).
Qed.

(** Without an exception the target was replaced. *)
Lemma catch_raise_Ok {A} (m : ST (world Env) exn A) (h : exn → ST (world Env) exn A) w a w' :
  (∀ e w1, is_ok (h e w1).1 = false) → catch m h w = (Ok a, w') → m w = (Ok a, w').
Proof.
  intros Hh. unfold catch. destruct (m w) as [[b|e] w1]; [done|]. intros E.
  specialize (Hh e w1). by rewrite E in Hh.
Qed.
Lemma sys_Ok w x w' : sys w = (Ok x, w') → w' = bump_calls w.
Proof. unfold sys, sys_as. by destruct (host_fault _); intros [=]. Qed.

Lemma atomic_replace_Ok path data original f w x w' :
  w_fs w !! path = Some f → _atomic_replace path data original w = (Ok x, w') →
  kept_but path (replaced path data original) w w'.
Proof.
  intros Hf E. destruct (atomic_replace_cases path data original f w Hf) as [H|H];
    rewrite E in H; [|done].
  assert (w_fs w' !! path = Some (replaced path data original)) as Hg.
  { unfold _atomic_replace, swap_in in E. st_inv.
    match goal with H : catch _ _ _ = _ |- _ => apply catch_raise_Ok in H end.
    2:{ intros e w1. unfold catch, sys, sys_as, modify, mbind, ST_bind, raise.
        destruct (host_fault _); done. }
    st_inv. repeat match goal with H : sys _ = _ |- _ => apply sys_Ok in H; subst end.
    result_inv. cbn in *. rewrite lookup_delete_ne, lookup_insert_eq; [done|].
    intros Ht. match goal with H : bool_decide _ = false |- _ =>
      apply bool_decide_eq_false in H; apply H; rewrite Ht; by eexists end. }
  split; [done|]. intros p f' _ Hp. by apply H.
Qed.

(** ** Reading and backing up *)

Lemma read_file_Ok t w data f w' :
  _read_file t w = (Ok (data, f), w') →
  w_fs w !! ct_path t = Some f ∧ f_kind f = Regular ∧ data = f_data f ∧ same_files w w' ∧
  byte_len data <= ct_max_bytes t.
Proof.
  intros E. pose proof (read_file_files t w) as Hs. rewrite E in Hs. unfold _read_file in E. st_inv.
  match goal with H : catch _ _ w = _ |- _ => apply catch_raise_Ok in H; [|done]; apply sys_Ok in H; subst end.
  result_inv. match goal with H : (_, _) = (_, _) |- _ => injection H as -> -> end.
  cbn [w_fs bump_calls] in *.
  match goal with H : read_loop _ _ _ _ _ = _ |- _ => apply read_loop_Ok in H as Hr end.
  - simpl in Hr. subst data. split_and!; try done; [|lia].
    unfold is_regular in *. by destruct (f_kind f).
  - lia.
  - simpl. lia.
Qed.

Definition saved (data : pybytes) : file := MkFile Regular 384 host_euid host_egid data.

Lemma backup_kept id data : keeps kept (_backup backups_dir id data).
Proof.
  intros w p f Hp. unfold _backup. unfold lift, gets, sys, sys_as, modify, mbind, ST_bind.
  destruct (of_option _ _) as [ascii|]; [|done].
  set (path := path_join _ _). cbn [fst snd]. destruct (host_fault _); [done|]. unfold raise_when.
  case_bool_decide as Hn; [done|]. assert (path ≠ p) as Hne by (intros ->; eauto).
  clearbody path. repeat case_match; simplify_eq/=; by rewrite ?lookup_insert_ne by done.
Qed.

Lemma backup_Ok id data w token w' :
  _backup backups_dir id data w = (Ok token, w') →
  ∃ b, w_fs w !! b = None ∧ w_fs w' !! b = Some (saved data).
Proof.
  intros E. unfold _backup in E. st_inv.
  repeat match goal with H : sys _ = _ |- _ => apply sys_Ok in H; subst end. result_inv.
  match goal with H : bool_decide _ = false |- _ => apply bool_decide_eq_false, eq_None_not_Some in H end.
  eexists. split; [eassumption|]. cbn. by rewrite lookup_insert_eq.
Qed.

(** ** Executing a patch *)

(** The bytes the patch of a request turns the file's bytes into. *)
Definition patch_of (payload : pydict) (key : pystr) (data data' : pybytes) : Prop :=
  ∃ value text text', _value payload = Ok value ∧ utf8_decode data = Some text ∧
    _patch_option text key value = Ok text' ∧ utf8_encode text' = Some data'.

Lemma kept_but_after path g w1 w2 w3 :
  kept_but path g w1 w2 → same_files w2 w3 → kept_but path g w1 w3.
Proof. intros [H1 H2] E. split; [by rewrite <- E|]. intros p f Hp Hf. rewrite <- E. by apply H2. Qed.
Lemma kept_trans w1 w2 w3 : kept w1 w2 → kept w2 w3 → kept w1 w3.
Proof. intros H1 H2 p f Hp. by apply H2, H1. Qed.
Lemma kept_but_before path g w1 w2 w3 :
  kept w1 w2 → kept_but path g w2 w3 → kept_but path g w1 w3.
Proof. intros H1 [H2 H3]. split; [done|]. intros p f Hp Hf. by apply H3, H1. Qed.

(** What an execution leaves: every file as it was, or the target patched as a whole with
    its old bytes in a fresh backup. *)
Inductive patch_effect (t : ConfigTarget) (key : pystr) (payload : pydict) (expected : pyval)
    (f : file) w w' : Prop :=
| patch_unchanged : kept w w' → patch_effect t key payload expected f w w'
| patch_applied data' b :
    expected = VStr (_fingerprint (f_data f)) →
    patch_of payload key (f_data f) data' →
    kept_but (ct_path t) (replaced (ct_path t) data' f) w w' →
    w_fs w !! b = None → w_fs w' !! b = Some (saved (f_data f)) →
    patch_effect t key payload expected f w w'.

Lemma patch_effect_after t key payload expected f w1 w2 w3 :
  patch_effect t key payload expected f w1 w2 → same_files w2 w3 → patch_effect t key payload expected f w1 w3.
Proof.
  intros [H|data' b He Hp H1 H2 H3] E.
  - left. eapply kept_trans; [done|by apply same_files_kept].
  - eright; [done..|by eapply kept_but_after|done|]. by rewrite <- E.
Qed.

(** The backup and the replacement. *)
Lemma backup_replace_effect t key payload expected f id data' w :
  expected = VStr (_fingerprint (f_data f)) → w_fs w !! ct_path t = Some f → patch_of payload key (f_data f) data' →
  patch_effect t key payload expected f w
    ((token ← _backup backups_dir id (f_data f);
     _atomic_replace (ct_path t) data' f;; mret (Some token)) w).2.
Proof.
  intros He Hf Hp. rewrite ST_bind_at. pose proof (backup_kept id (f_data f) w) as Hk.
  pose proof (backup_Ok id (f_data f) w) as Hb.
  destruct (_backup backups_dir id (f_data f) w) as [[token|e] w1]; [|by left].
  simpl in Hk. destruct (Hb _ _ eq_refl) as (b & Hnone & Hsaved). clear Hb.
  rewrite ST_bind_at. pose proof (Hk _ _ Hf) as Hf1.
  pose proof (atomic_replace_cases (ct_path t) data' f f w1 Hf1) as Hc.
  assert (patch_effect t key payload expected f w (_atomic_replace (ct_path t) data' f w1).2) as Hw.
  { destruct Hc as [Hc|Hc].
    - left. by eapply kept_trans.
    - eright; [done..|by eapply kept_but_before|done|]. apply Hc; [|done]. congruence. }
  by destruct (_atomic_replace (ct_path t) data' f w1) as [[]].
Qed.

Lemma patch_effect_bind {A B} t key payload expected f (m : ST (world Env) exn A)
    (k : A → ST (world Env) exn B) w :
  patch_effect t key payload expected f w (m w).2 → (∀ a, keeps same_files (k a)) →
  patch_effect t key payload expected f w ((m ≫= k) w).2.
Proof.
  intros Hm Hk. rewrite ST_bind_at. destruct (m w) as [[a|e] w1]; [|done].
  eapply patch_effect_after; [done|apply Hk].
Qed.
Lemma patch_effect_before t key payload expected f w1 w2 w3 :
  same_files w1 w2 → patch_effect t key payload expected f w2 w3 →
  patch_effect t key payload expected f w1 w3.
Proof.
  intros E [H|data' b He Hp H1 H2 H3].
  - left. by eapply kept_trans; [apply same_files_kept|].
  - eright; [done..| |by rewrite E|done]. by eapply kept_but_before; [apply same_files_kept|].
Qed.

(** C37: Whether execute_patch returns or raises, the target file is unchanged or is exactly the
    patched content with the former owner and mode, the fingerprint the request expected was the
    former content's, and in the second case a fresh backup holds that content. *)
Theorem execute_patch_atomic payload id expected w t key f :
  config_target_of policy payload shape_patch = Ok (t, key) →
  w_fs w !! ct_path t = Some f →
  patch_effect t key payload expected f w (execute_patch policy backups_dir payload id expected w).2.
Proof.
  intros Ht Hf. unfold execute_patch. rewrite ST_bind_lift, Ht. cbv beta iota.
  rewrite ST_bind_lift. destruct (_value payload) as [value|e] eqn:Hvalue; [|by left; apply same_files_kept].
  rewrite ST_bind_lift. destruct (required_fingerprint expected) as [expect|e] eqn:Hexpect; [|by left; apply same_files_kept].
  rewrite ST_bind_at. pose proof (read_file_files t w) as Hs. pose proof (read_file_Ok t w) as Hr.
  destruct (_read_file t w) as [[[data f']|e] w1]; [|by left; apply same_files_kept].
  destruct (Hr _ _ _ eq_refl) as (Hf' & Hkind & -> & _ & _). simplify_eq. simpl in Hs. clear Hr.
  rewrite Hs in Hf. apply (patch_effect_before _ _ _ _ _ _ _ _ Hs). clear w Hs.
  rewrite ST_bind_lift. unfold raise_when at 1.
  destruct (str_eqb (_fingerprint (f_data f)) expect) eqn:Hfp; [|by left; apply same_files_kept].
  apply str_eqb_true in Hfp as <-. simpl negb. cbv iota.
  rewrite ST_bind_lift. destruct (_decode (f_data f)) as [text|e] eqn:Htext; [|by left; apply same_files_kept].
  rewrite ST_bind_lift. destruct (_patch_option text key value) as [text'|e] eqn:Hpatch;
    [|by left; apply same_files_kept].
  rewrite ST_bind_lift. destruct (_encode text') as [data'|e] eqn:Hdata; [|by left; apply same_files_kept].
  rewrite ST_bind_lift. destruct (raise_when _ _) as [[]|e]; [|by left; apply same_files_kept].
  apply of_option_Ok in Htext, Hdata.
  apply patch_effect_bind; [|pose proof read_file_files; intros token; solve_keeps].
  case_bool; [|by left; apply same_files_kept]. apply backup_replace_effect; [|done|].
  - unfold required_fingerprint, matching_str in Hexpect. destruct expected; try done.
    case_match; by simplify_eq.
  - by exists value, text, text'.
Qed.

(** The replacement step, when it succeeds. *)
Lemma replace_step_Ok t id data' f w token w' :
  w_fs w !! ct_path t = Some f →
  (if negb (bool_decide (data' = f_data f)) then
     token ← _backup backups_dir id (f_data f);
     _atomic_replace (ct_path t) data' f;; mret (Some token)
   else mret None) w = (Ok token, w') →
  ∃ g, w_fs w' !! ct_path t = Some g ∧ f_data g = data'.
Proof.
  intros Hf. case_bool_decide as Hd; simpl; intros E.
  - st_inv. subst. by exists f.
  - st_inv. match goal with H : _backup _ _ _ w = _ |- _ =>
      pose proof (backup_kept id (f_data f) w _ _ Hf) as Hk; rewrite H in Hk end.
    match goal with H : _atomic_replace _ _ _ _ = _ |- _ =>
      apply (atomic_replace_Ok _ _ _ f) in H as [H _]; [|done] end.
    eexists. split; [eassumption|done].
Qed.

(** When execute_patch returns an outcome, the stored file decodes and reads back the
    requested value under the requested key, the precondition is the fingerprint of the former
    content, the postcondition that of the new one, and the effect state is none exactly when
    the bytes did not change. *)
Theorem execute_patch_ok payload id expected w o w' :
  execute_patch policy backups_dir payload id expected w = (Ok o, w') →
  ∃ t key value f g text,
    config_target_of policy payload shape_patch = Ok (t, key) ∧ _value payload = Ok value ∧
    w_fs w !! ct_path t = Some f ∧ w_fs w' !! ct_path t = Some g ∧
    expected = VStr (_fingerprint (f_data f)) ∧
    utf8_decode (f_data g) = Some text ∧ _read_option text key = Ok (Some value) ∧
    o_status o = u "ok" ∧
    o_effect_state o = (if bool_decide (f_data g = f_data f) then u "none" else u "applied") ∧
    o_precondition_fingerprint o = Some (_fingerprint (f_data f)) ∧
    o_postcondition_fingerprint o = Some (_fingerprint (f_data g)).
Proof.
  unfold execute_patch. intros E. st_inv. case_match. st_inv. case_match. st_inv. case_match. st_inv.
  result_inv.
  repeat match goal with H : _read_file _ _ = _ |- _ =>
    apply read_file_Ok in H as (? & ? & ? & ? & ?) end. simplify_eq.
  match goal with H : (if _ then _ else _) ?w1 = _ |- _ =>
    apply (replace_step_Ok c id _ f) in H as (g & Hg & Hd); [|by congruence] end.
  simplify_eq/=. match goal with H : bool_decide _ = true |- _ => apply bool_decide_eq_true in H end.
  match goal with H : required_fingerprint _ = Ok _ |- _ => apply matching_str_Ok in H as [-> _] end.
  match goal with H : str_eqb _ _ = true |- _ => apply str_eqb_true in H as <- end.
  match goal with H1 : same_files x15 x17 |- _ => rewrite H1 in * end.
  match goal with H : _decode (f_data g) = Ok ?text |- _ =>
    apply of_option_Ok in H; exists c, l, x0, f, g, text end.
  split_and!; try done.
  - congruence.
  - by case_bool_decide.
Qed.
End facts.

(** ** The text of a patch *)

Lemma key_re_valid key : fullmatch _KEY_RE key = true → valid_key key.
Proof.
  rewrite fullmatch_correct. intros (s1 & s2 & -> & (c & -> & Hc)%set_inv & H2)%seq_inv.
  apply rep_set_matches in H2 as [_ H2]. by exists c, s2.
Qed.

(** Patching an option in a newline-terminated file and reading it back gives the value,
    and every other key reads as before. *)
Lemma patch_option_read text key value text' :
  terminated text → fullmatch _KEY_RE key = true → clean_value value →
  no_empty_option text key = true → _patch_option text key value = Ok text' →
  _read_option text' key = Ok (Some value) ∧
  ∀ key', key' ≠ key → _read_option text' key' = _read_option text key'.
Proof.
  intros Ht Hk%key_re_valid Hv He Hp. apply patch_edit in Hp; try done.
  split; [by eapply edit_read|]. intros key' Hne. by eapply edit_read_other.
Qed.

Definition sample_text : pystr :=
  u "; Odoo" ++ [10%N] ++ u "[options]" ++ [10%N] ++ u "workers = 2" ++ [10%N] ++
  u "log_level=info" ++ [13; 10]%N ++ u "[queue]" ++ [10%N] ++ u "workers = 9" ++ [10%N].

Lemma patch_option_read_witness :
  _patch_option sample_text (u "workers") (u "4") =
    Ok (u "; Odoo" ++ [10%N] ++ u "[options]" ++ [10%N] ++ u "workers = 4" ++ [10%N] ++
        u "log_level=info" ++ [13; 10]%N ++ u "[queue]" ++ [10%N] ++ u "workers = 9" ++ [10%N]) ∧
  ∃ text', _read_option text' (u "workers") = Ok (Some (u "4")) ∧
    ∀ key', key' ≠ u "workers" → _read_option text' key' = _read_option sample_text key'.
Proof.
  split; [vm_compute; reflexivity|]. eexists.
  apply (patch_option_read sample_text (u "workers") (u "4")).
  - right. vm_compute. reflexivity.
  - vm_compute. reflexivity.
  - split; [repeat constructor|vm_compute; reflexivity].
  - vm_compute. reflexivity.
  - vm_compute. reflexivity.
Defined.

(** On the two-line file with an empty addons_path option, the patch writes the value on a
    line of its own after the option, and reading the option back gives the empty string: the
    option regular expression lets its space class cross the line end. *)
Theorem patch_empty_option_misplaced :
  let text := u "[options]" ++ [10%N] ++ u "addons_path =" ++ [10%N] in
  let text' := u "[options]" ++ [10%N] ++ u "addons_path =" ++ [10%N] ++ u "/srv/addons" ++ [10%N] in
  _patch_option text (u "addons_path") (u "/srv/addons") = Ok text' ∧
  _read_option text' (u "addons_path") = Ok (Some []).
Proof. split; vm_compute; reflexivity. Qed.
