(* ===== verification/BrokerService.v ===== *)
(** * Host broker: service operations

    [service_ops.py]: the status, preview, restart and verification of one systemd unit
    through fixed argument vectors. *)
From S2P Require Import Prelude PyText Regex PyValue BrokerProtocol BrokerPolicy BrokerHost.
From S2P Require Import BrokerConfig.
Local Open Scope Z_scope.

Definition service_target_of (policy : BrokerPolicy) (payload : pydict) (verify : bool)
    : result exn ServiceTarget :=
  raise_when
    (negb (has_keys payload (if verify then [u "target"; u "receipt_id"] else [u "target"])))
    payload_invalid;;
  target_id ← matching_str _TARGET_RE (get (u "target") payload) payload_invalid;
  (if verify then matching_str _RECEIPT_RE (get (u "receipt_id") payload) payload_invalid
   else Ok []);;
  of_option (dict_lookup target_id (bp_service_targets policy))
    (operation_error (u "broker_target_denied")).

Definition status_properties : list pystr :=
  [u "ActiveState"; u "SubState"; u "UnitFileState"; u "ExecMainStatus";
   u "ActiveEnterTimestampMonotonic"].

Definition status_invalid : exn := operation_error (u "broker_service_status_invalid").

(** One line of [systemctl show]. *)
Definition status_line (fields : list (pystr * pystr)) (line : pystr)
    : result exn (list (pystr * pystr)) :=
  match split_once 61 line with
  | None => Ok fields
  | Some (key, value) =>
      if mem key status_properties then
        let value := strip value in
        raise_when ((160 <? Z.of_nat (length value)) || mem 0%N value) status_invalid;;
        Ok (dict_set key value fields)
      else Ok fields
  end.

(** The fields of a status report. *)
Record service_status := MkServiceStatus {
  ss_target : pystr;
  ss_active_state : pystr;
  ss_sub_state : pystr;
  ss_unit_file_state : pystr;
  ss_exec_main_status : pystr;
  ss_active_enter : pystr }.

Definition status_dict (s : service_status) : pydict :=
  [(u "target", VStr (ss_target s));
   (u "active_state", VStr (ss_active_state s));
   (u "sub_state", VStr (ss_sub_state s));
   (u "unit_file_state", VStr (ss_unit_file_state s));
   (u "exec_main_status", VStr (ss_exec_main_status s));
   (u "active_enter_timestamp_monotonic", VStr (ss_active_enter s))].

Definition short_status (s : service_status) : pydict :=
  [(u "target", VStr (ss_target s));
   (u "active_state", VStr (ss_active_state s));
   (u "sub_state", VStr (ss_sub_state s))].

(** The parsing half of [_status_fields]. *)
Definition parse_status (target : ServiceTarget) (output : pystr)
    : result exn (service_status * pystr) :=
  raise_when (16 * 1024 <? byte_len (utf8_encode_replace output)) status_invalid;;
  fields ← foldR status_line [] (splitlines output);
  active ← of_option (dict_lookup (u "ActiveState") fields) status_invalid;
  sub ← of_option (dict_lookup (u "SubState") fields) status_invalid;
  let field k := default [] (dict_lookup k fields) in
  let summary := MkServiceStatus (st_target_id target) active sub (field (u "UnitFileState"))
                   (field (u "ExecMainStatus")) (field (u "ActiveEnterTimestampMonotonic")) in
  fingerprint ← canonical_sha256 (VDict (status_dict summary));
  Ok (summary, fingerprint).

Section operations.
Context {Env : Type} `{!Host Env} (policy : BrokerPolicy).
Abbreviation M := (ST (world Env) exn).

(** The argument vectors. *)
Definition status_argv (target : ServiceTarget) : list pystr :=
  [bp_systemctl_path policy; u "show"; st_unit target; u "--no-page";
   u "--property=ActiveState,SubState,UnitFileState,ExecMainStatus,ActiveEnterTimestampMonotonic"].
Definition restart_argv (target : ServiceTarget) : list pystr :=
  [bp_systemctl_path policy; u "restart"; st_unit target].

(** The exceptions of [subprocess.run] other than the timeout. *)
Definition run_or_raise (argv : list pystr) (timeout : Z) (on_timeout : exn)
    : M (Z * option pystr) :=
  r ← run_command argv timeout None;
  match r with
  | Completed returncode stdout => mret (returncode, stdout)
  | TimeoutExpired => raise on_timeout
  | RunOSError => raise OSError
  | RunSubprocessError => raise (EOther (u "SubprocessError"))
  | RunUnicodeDecodeError => raise (EOther (u "UnicodeDecodeError"))
  end.

Definition _status_fields (target : ServiceTarget) : M (service_status * pystr) :=
  '(returncode, stdout) ← run_or_raise (status_argv target) (Z.min 15 (st_timeout_seconds target))
                             (operation_error (u "broker_service_status_timeout"));
  lift (raise_when (negb (returncode =? 0)) (operation_error (u "broker_service_status_failed")));;
  lift (parse_status target (default [] stdout)).

Definition _status_or_unknown (target : ServiceTarget) : M (pydict * option pystr) :=
  catch
    ('(summary, fingerprint) ← _status_fields target;
     mret (short_status summary, Some fingerprint))
    (λ e, match e with
          | BrokerOperationError _ =>
              mret ([(u "target", VStr (st_target_id target));
                     (u "active_state", VStr (u "unknown"));
                     (u "sub_state", VStr (u "unknown"))], None)
          | e => raise e
          end).

Definition status (payload : pydict) : M OperationOutcome :=
  target ← lift (service_target_of policy payload false);
  '(summary, fingerprint) ← _status_fields target;
  mret (MkOutcome (u "ok") (u "none")
          (dict_set (u "fingerprint") (VStr fingerprint) (status_dict summary))
          (Some fingerprint) (Some fingerprint) (u "none") None None).

Definition preview_restart (payload : pydict) : M OperationOutcome :=
  target ← lift (service_target_of policy payload false);
  '(current, fingerprint) ← _status_fields target;
  mret (MkOutcome (u "ok") (u "none") (short_status current)
          (Some fingerprint) (Some fingerprint) (u "external_or_unknown") None None).

Definition restart_uncertain (summary : pydict) (before : pystr) (after : option pystr)
    (code : pystr) : exn :=
  BrokerOperationError
    (MkOutcome (u "uncertain") (u "unknown") summary (Some before) after
       (u "external_or_unknown") None (Some code)).

Definition execute_restart (payload : pydict) (expected_precondition : pyval)
    : M OperationOutcome :=
  target ← lift (service_target_of policy payload false);
  expected ← lift (required_fingerprint expected_precondition);
  '(_, before) ← _status_fields target;
  lift (raise_when (negb (str_eqb before expected))
    (BrokerOperationError
       (MkOutcome (u "stale") (u "none") [] (Some before) None (u "external_or_unknown") None
          (Some (u "broker_precondition_changed")))));;
  '(returncode, _) ← run_or_raise (restart_argv target) (st_timeout_seconds target)
    (restart_uncertain [(u "target", VStr (st_target_id target))] before None
       (u "broker_service_restart_timeout"));
  (if negb (returncode =? 0) then
     '(summary, after) ← _status_or_unknown target;
     raise (restart_uncertain summary before after (u "broker_service_restart_failed"))
   else mret tt);;
  '(summary, after) ← _status_fields target;
  lift (raise_when (negb (str_eqb (ss_active_state summary) (u "active")))
    (restart_uncertain (short_status summary) before (Some after)
       (u "broker_service_restart_unhealthy")));;
  mret (MkOutcome (u "ok") (u "applied") (short_status summary)
          (Some before) (Some after) (u "external_or_unknown") None None).

Definition verify_restart (payload : pydict) : M OperationOutcome :=
  target ← lift (service_target_of policy payload true);
  '(summary, fingerprint) ← _status_fields target;
  lift (raise_when (negb (str_eqb (ss_active_state summary) (u "active")))
    (BrokerOperationError
       (MkOutcome (u "error") (u "unknown") (short_status summary) None (Some fingerprint)
          (u "external_or_unknown") None (Some (u "broker_service_verify_failed")))));;
  mret (MkOutcome (u "ok") (u "none")
          (short_status summary ++ [(u "verified", VBool true);
                                    (u "receipt_id", get (u "receipt_id") payload)])
          (Some fingerprint) (Some fingerprint) (u "none") None None).
End operations.
