(* ===== verification/BrokerModule.v ===== *)
(** * Host broker: module maintenance

    [module_ops.py]: inspecting and updating one Odoo module through [systemd-run] with a
    fixed sandboxed argument vector. *)
From S2P Require Import Prelude PyText Regex Sha256 PyValue Json BrokerProtocol BrokerPolicy.
From S2P Require Import BrokerHost BrokerConfig.
Local Open Scope Z_scope.

Definition _INSPECT_PREFIX : pystr := u "ODOO_AI_MODULE_STATE:".
Definition _MAX_OUTPUT_BYTES : Z := 64 * 1024.

(** [str.encode("utf-8")] of a policy string; the policy's database names are ASCII. *)
Definition database_fingerprint_of (database : pystr) : result exn pystr :=
  fingerprint_of <$> of_option (utf8_encode database) UnicodeEncodeError.

Definition module_target_of (policy : BrokerPolicy) (payload : pydict) (database_fingerprint : pyval)
    (verify : bool) : result exn ModuleTarget :=
  raise_when
    (negb (has_keys payload
       (if verify then [u "target"; u "receipt_id"; u "postcondition_fingerprint"]
        else [u "target"]))) payload_invalid;;
  target_id ← matching_str _TARGET_RE (get (u "target") payload) payload_invalid;
  target ← of_option (dict_lookup target_id (bp_module_targets policy))
             (operation_error (u "broker_target_denied"));
  expected_database ← database_fingerprint_of (mt_database target);
  raise_when (negb (py_eq database_fingerprint (VStr expected_database)))
    (operation_error (u "broker_database_denied"));;
  Ok target.

(** The state line the inspection script prints. *)
Record module_state := MkModuleState {
  ms_target : pystr;
  ms_raw : pydict;               (* the decoded object, spread into the summary *)
  ms_state : pystr;
  ms_database_version : option pystr;
  ms_source_version : option pystr }.

(** [{"target": target.target_id, **raw}] *)
Definition module_summary (m : module_state) : pydict :=
  (u "target", VStr (ms_target m)) :: ms_raw m.

Definition opt_str (v : pyval) : option (option pystr) :=
  match v with VNone => Some None | VStr s => Some (Some s) | _ => None end.

Definition inspection_failed : exn := operation_error (u "broker_module_inspection_failed").

(** The parsing half of [_inspect]. *)
Definition parse_module_state `{Interpreter} (target : ModuleTarget) (stdout : pystr)
    : result exn (module_state * pystr) :=
  raise_when (_MAX_OUTPUT_BYTES <? byte_len (utf8_encode_replace stdout)) inspection_failed;;
  line ← of_option (list_find (λ l, startswith _INSPECT_PREFIX l = true)
                      (reverse (splitlines stdout))) inspection_failed;
  value ← match json_loads (drop (length _INSPECT_PREFIX) line.2) with
          | Ok v => Ok v
          | Err IntTooLong => Err (EOther (u "ValueError"))
          | Err RecursionError => Err (EOther (u "RecursionError"))
          | Err _ => Err inspection_failed
          end;
  raw ← of_option (as_dict value) inspection_failed;
  raise_when (negb (has_keys raw [u "module"; u "state"; u "database_version"; u "source_version"]))
    inspection_failed;;
  raise_when (negb (py_eq (get (u "module") raw) (VStr (mt_module target)))) inspection_failed;;
  state ← of_option (as_str (get (u "state") raw)) inspection_failed;
  database_version ← of_option (opt_str (get (u "database_version") raw)) inspection_failed;
  source_version ← of_option (opt_str (get (u "source_version") raw)) inspection_failed;
  let m := MkModuleState (mt_target_id target) raw state database_version source_version in
  fingerprint ← canonical_sha256 (VDict (module_summary m));
  Ok (m, fingerprint).

(** [state == "installed" and bool(source_version) and database_version == source_version] *)
Definition module_current (m : module_state) : bool :=
  str_eqb (ms_state m) (u "installed") &&
  match ms_source_version m with Some (_ :: _) => true | _ => false end &&
  bool_decide (ms_database_version m = ms_source_version m).

(** [json.dumps(module)] of an ASCII module name *)
Definition inspect_script (module : pystr) : pystr :=
  u "import json" ++ [10%N] ++
  u "module = env['ir.module.module'].search([('name', '=', " ++ dump_str module ++
  u ")], limit=1)" ++ [10%N] ++
  u "value = {'module': module.name if module else '', 'state': module.state if module else 'missing', 'database_version': (module.latest_version or None) if module else None, 'source_version': (module.installed_version or None) if module else None}"
  ++ [10%N] ++
  u "print('ODOO_AI_MODULE_STATE:' + json.dumps(value, sort_keys=True))" ++ [10%N].

Definition _base_options (target : ModuleTarget) : list pystr :=
  [u "--config=" ++ mt_config_path target;
   u "--database=" ++ mt_database target;
   u "--addons-path=" ++ str_join (u ",") (mt_addons_path target);
   u "--no-http"].

Definition _base_argv (target : ModuleTarget) : list pystr :=
  [mt_odoo_python target; mt_odoo_bin target] ++ _base_options target.

Definition inspect_argv (target : ModuleTarget) : list pystr :=
  [mt_odoo_python target; mt_odoo_bin target; u "shell"] ++ _base_options target ++
  [u "--log-level=warn"; u "--logfile=/dev/null"].

Definition update_argv (target : ModuleTarget) : list pystr :=
  _base_argv target ++
  [u "--update=" ++ mt_module target; u "--stop-after-init"; u "--log-level=warn";
   u "--logfile=/dev/null"].

Section operations.
Context {Env : Type} `{!Host Env} (policy : BrokerPolicy).
Abbreviation M := (ST (world Env) exn).

Definition secured_argv (target : ModuleTarget) (argv : list pystr) : list pystr :=
  [bp_systemd_run_path policy; u "--quiet"; u "--wait"; u "--pipe"; u "--collect";
   u "--uid=" ++ int_str (mt_run_as_uid target);
   u "--gid=" ++ int_str (mt_run_as_gid target);
   u "--property=UMask=0077"; u "--property=NoNewPrivileges=yes"; u "--property=PrivateTmp=yes";
   u "--property=ProtectKernelTunables=yes"; u "--property=ProtectKernelModules=yes";
   u "--property=ProtectKernelLogs=yes"; u "--property=ProtectControlGroups=yes";
   u "--property=RestrictAddressFamilies=AF_UNIX"; u "--"] ++ argv.

Definition _run (target : ModuleTarget) (argv : list pystr) (timeout : Z) (input : option pystr)
    : M (Z * option pystr) :=
  r ← run_command (secured_argv target argv) timeout input;
  match r with
  | Completed returncode stdout => mret (returncode, stdout)
  | TimeoutExpired =>
      raise (BrokerOperationError
               (MkOutcome (u "uncertain") (u "unknown") [] None None (u "external_or_unknown")
                  None (Some (u "broker_module_operation_timeout"))))
  | RunOSError | RunSubprocessError =>
      raise (operation_error (u "broker_module_operation_unavailable"))
  | RunUnicodeDecodeError => raise (EOther (u "UnicodeDecodeError"))
  end.

Definition _inspect (target : ModuleTarget) : M (module_state * pystr) :=
  '(returncode, stdout) ← _run target (inspect_argv target)
    (Z.min 120 (mt_timeout_seconds target)) (Some (inspect_script (mt_module target)));
  lift (raise_when (negb (returncode =? 0)) inspection_failed);;
  lift (parse_module_state target (default [] stdout)).

Definition preview_update (payload : pydict) (database_fingerprint : pyval) : M OperationOutcome :=
  target ← lift (module_target_of policy payload database_fingerprint false);
  '(summary, fingerprint) ← _inspect target;
  mret (MkOutcome (u "ok") (u "none") (module_summary summary)
          (Some fingerprint) (Some fingerprint) (u "external_or_unknown") None None).

Definition module_error (status : pystr) (target : ModuleTarget) (before after : option pystr)
    (code : pystr) : exn :=
  BrokerOperationError
    (MkOutcome status (u "unknown")
       [(u "target", VStr (mt_target_id target)); (u "module", VStr (mt_module target))]
       before after (u "external_or_unknown") None (Some code)).

Definition execute_update (payload : pydict) (database_fingerprint expected_precondition : pyval)
    : M OperationOutcome :=
  target ← lift (module_target_of policy payload database_fingerprint false);
  expected ← lift (required_fingerprint expected_precondition);
  '(before_summary, before) ← _inspect target;
  lift (raise_when (negb (str_eqb before expected))
    (BrokerOperationError
       (MkOutcome (u "stale") (u "none") [] (Some before) None (u "external_or_unknown") None
          (Some (u "broker_precondition_changed")))));;
  '(returncode, _) ← _run target (update_argv target) (mt_timeout_seconds target) None;
  lift (raise_when (negb (returncode =? 0))
    (module_error (u "uncertain") target (Some before) None (u "broker_module_update_failed")));;
  '(after_summary, after) ← _inspect target;
  lift (raise_when (negb (module_current after_summary))
    (module_error (u "uncertain") target (Some before) (Some after)
       (u "broker_module_update_verify_failed")));;
  mret (MkOutcome (u "ok") (u "applied")
          (module_summary after_summary ++
           [(u "previous_database_version", of_opt_str (ms_database_version before_summary))])
          (Some before) (Some after) (u "external_or_unknown") None None).

Definition verify_update (payload : pydict) (database_fingerprint : pyval) : M OperationOutcome :=
  target ← lift (module_target_of policy payload database_fingerprint true);
  receipt_id ← lift (matching_str _RECEIPT_RE (get (u "receipt_id") payload) payload_invalid);
  expected ← lift (matching_str _FINGERPRINT_RE (get (u "postcondition_fingerprint") payload)
                     payload_invalid);
  '(summary, fingerprint) ← _inspect target;
  lift (raise_when (negb (str_eqb fingerprint expected && module_current summary))
    (module_error (u "error") target None (Some fingerprint)
       (u "broker_module_update_verify_failed")));;
  mret (MkOutcome (u "ok") (u "none")
          (module_summary summary ++ [(u "verified", VBool true); (u "receipt_id", VStr receipt_id)])
          (Some fingerprint) (Some fingerprint) (u "none") None None).
End operations.
