(* ===== verification/BrokerLedger.v ===== *)
(** * Host broker: execution ledger

    [ledger.py]: the durable table that identifies every execute request before its effect.
    A database statement either takes effect durably or raises and changes nothing. *)
From S2P Require Import Prelude PyText PyValue Json BrokerProtocol BrokerPolicy BrokerHost.

Definition DatabaseError : exn := EOther (u "sqlite3.Error").
Definition ledger_corrupt : exn := BrokerProtocolError (u "broker_ledger_corrupt").
Definition ledger_state_invalid : exn := BrokerProtocolError (u "broker_ledger_state_invalid").

(** The pairs [begin] returns. *)
Inductive begin_state : Type :=
| BeginNew
| BeginTerminal (receipt : pydict)
| BeginRunning
| BeginConflict.

(** [json.loads] and [validate_receipt] on a stored receipt. *)
Definition read_receipt `{Interpreter} (receipt_json : option pystr) : result exn pydict :=
  text ← of_option receipt_json ledger_corrupt;
  value ← match json_loads text with
          | Ok v => Ok v
          | Err IntTooLong => Err (EOther (u "ValueError"))
          | Err RecursionError => Err (EOther (u "RecursionError"))
          | Err _ => Err ledger_corrupt
          end;
  match validate_receipt value with
  | Err (BrokerProtocolError _) => Err ledger_corrupt
  | r => r
  end.

(** The [UPDATE] of [finish]: to the terminal state, once. *)
Definition finish_row (receipt_json : pystr) (row : ledger_row) : ledger_row :=
  MkRow (row_request_hash row) (row_operation row) RowTerminal (Some receipt_json)
    (row_started_at row).

Section ledger.
Context {Env : Type} `{!Host Env}.
Abbreviation M := (ST (world Env) exn).

Definition ledger_begin (request_id request_hash operation : pystr) (started_at : Z)
    : M begin_state :=
  sys_as DatabaseError;;
  table ← gets w_ledger;
  match table !! request_id with
  | None =>
      sys_as DatabaseError;;
      modify (set_ledger
        <[request_id := MkRow request_hash operation RowRunning None started_at]>);;
      mret BeginNew
  | Some row =>
      if negb (str_eqb (row_request_hash row) request_hash) then mret BeginConflict
      else match row_state_ row with
      | RowRunning => mret BeginRunning
      | RowTerminal =>
          receipt ← lift (read_receipt (row_receipt_json row));
          mret (BeginTerminal receipt)
      end
  end.

Definition receipt_text (receipt : pydict) : result exn pystr :=
  bytes ← canonical_json (VDict receipt);
  of_option (utf8_decode bytes) (EOther (u "UnicodeDecodeError")).

Definition ledger_finish (receipt : pydict) : M unit :=
  lift (validate_receipt (VDict receipt));;
  encoded ← lift (receipt_text receipt);
  request_id ← lift (of_option (as_str (get (u "request_id") receipt)) (EOther (u "KeyError")));
  sys_as DatabaseError;;
  table ← gets w_ledger;
  match table !! request_id with
  | Some row =>
      if decide (row_state_ row = RowRunning)
      then modify (set_ledger <[request_id := finish_row encoded row]>)
      else raise ledger_state_invalid
  | None => raise ledger_state_invalid
  end.
End ledger.
