(* ===== verification/BrokerEngine.v ===== *)
(** * Host broker: engine

    [engine.py]: validation, peer authorisation, finite dispatch and the durable
    at-most-once execution of effectful operations. *)
From S2P Require Import Prelude PyText Regex Sha256 PyValue Json BrokerProtocol BrokerPolicy.
From S2P Require Import BrokerHost BrokerConfig BrokerService BrokerModule BrokerLedger.
Local Open Scope Z_scope.

(** An outcome, or a [_StoredReceiptOutcome] that carries a finished receipt. *)
Inductive engine_outcome : Type :=
| Plain (o : OperationOutcome)
| Stored (receipt : pydict).

Definition denied_outcome (code : pystr) : OperationOutcome :=
  MkOutcome (u "denied") (u "none") [] None None (u "none") None (Some code).

Definition uncertain_outcome : OperationOutcome :=
  MkOutcome (u "uncertain") (u "unknown") [] None None (u "external_or_unknown") None
    (Some (u "broker_effect_uncertain")).

Definition internal_error_outcome : OperationOutcome :=
  MkOutcome (u "error") (u "none") [] None None (u "none") None
    (Some (u "broker_internal_error")).

(** The projection of an outcome whose receipt could not be stored. *)
Definition unstored_outcome (o : OperationOutcome) : OperationOutcome :=
  MkOutcome (u "uncertain") (u "unknown") [] (o_precondition_fingerprint o)
    (o_postcondition_fingerprint o)
    (if str_eqb (o_recovery_classification o) (u "none") then u "external_or_unknown"
     else o_recovery_classification o)
    (o_recovery_token o) (Some (u "broker_effect_uncertain")).

Definition _receipt_id (request_id phase : pystr) : pystr :=
  u "receipt:v1:" ++
  take 40 (sha256_hexdigest (default [] (utf8_encode (request_id ++ u "|" ++ phase)))).

(** The dict [_receipt] builds. *)
Definition receipt_dict (request_id operation phase : pystr) (o : OperationOutcome)
    (started_at completed_at : Z) : pydict :=
  [(u "protocol_version", VInt PROTOCOL_VERSION);
   (u "request_id", VStr request_id);
   (u "receipt_id", VStr (_receipt_id request_id phase));
   (u "operation", VStr operation);
   (u "phase", VStr phase);
   (u "status", VStr (o_status o));
   (u "effect_state", VStr (o_effect_state o));
   (u "precondition_fingerprint", of_opt_str (o_precondition_fingerprint o));
   (u "postcondition_fingerprint", of_opt_str (o_postcondition_fingerprint o));
   (u "summary", VDict (o_summary o));
   (u "recovery", VDict [(u "classification", VStr (o_recovery_classification o));
                         (u "token", of_opt_str (o_recovery_token o))]);
   (u "error_code", of_opt_str (o_error_code o));
   (u "started_at", VInt started_at);
   (u "completed_at", VInt completed_at)].

Definition zero_request_id : pystr := u "req:v1:" ++ replicate 32 48%N.

Section engine.
Context {Env : Type} `{!Host Env} (policy : BrokerPolicy) (backups_dir : pystr).
Abbreviation M := (ST (world Env) exn).

Definition _receipt (request_id operation phase : pystr) (outcome : engine_outcome)
    (started_at : Z) : M pydict :=
  match outcome with
  | Stored receipt => mret receipt
  | Plain o =>
      completed_at ← time_now;
      mret (receipt_dict request_id operation phase o started_at completed_at)
  end.

Definition request_receipt (r : request) : engine_outcome → Z → M pydict :=
  _receipt (rq_request_id r) (rq_operation r) (rq_phase r).

Definition _invalid_receipt (value : pyval) (code : pystr) (now : Z) : M pydict :=
  let field k := match value with VDict d => get k d | _ => VNone end in
  let request_id := match field (u "request_id") with
                    | VStr s => if fullmatch _REQUEST_ID_RE s then s else zero_request_id
                    | _ => zero_request_id
                    end in
  let operation := match field (u "operation") with
                   | VStr s => if fullmatch _OPERATION_RE s then s else u "broker.invalid"
                   | _ => u "broker.invalid"
                   end in
  outside ← lift (not_in (field (u "phase")) _PHASES);
  let phase := match field (u "phase") with
               | VStr s => if outside : bool then u "preview" else s
               | _ => u "preview"
               end in
  _receipt request_id operation phase (Plain (denied_outcome code)) now.

(** [sorted(targets)] *)
Definition names {T : Type} (targets : list (pystr * T)) : pyval :=
  VList (VStr <$> sorted_str (keys targets)).

Definition status_summary : pydict :=
  [(u "protocol_version", VInt PROTOCOL_VERSION);
   (u "config_targets", names (bp_config_targets policy));
   (u "service_targets", names (bp_service_targets policy));
   (u "module_targets", names (bp_module_targets policy));
   (u "operations", VList (VStr <$> [u "broker.status"; u "host.service.restart";
      u "host.service.status"; u "odoo.config.inspect"; u "odoo.config.patch";
      u "odoo.module.update"]));
   (u "operation_count", VInt 6)].

(** [except BrokerOperationError as error: outcome = error.outcome
    except Exception: outcome = fallback] *)
Definition outcome_or {A} (wrap : OperationOutcome → A) (fallback : OperationOutcome) (m : M A)
    : M A :=
  catch m (λ e, mret (wrap (match e with BrokerOperationError o => o | _ => fallback end))).

Definition plain (m : M OperationOutcome) : M engine_outcome := o ← m; mret (Plain o).

(** What [_effectful] does once the ledger row exists. *)
Definition run_and_record (r : request) (started_at : Z) (implementation : M OperationOutcome)
    : M engine_outcome :=
  outcome ← outcome_or id uncertain_outcome implementation;
  receipt ← request_receipt r (Plain outcome) started_at;
  catch (ledger_finish receipt;; mret (Stored receipt))
    (λ _, mret (Plain (unstored_outcome outcome))).

Definition _effectful (r : request) (implementation : M OperationOutcome) : M engine_outcome :=
  started_at ← time_now;
  request_hash ← lift (replay_sha256 r);
  state ← ledger_begin (rq_request_id r) request_hash (rq_operation r) started_at;
  match state with
  | BeginConflict => mret (Plain (denied_outcome (u "broker_request_replay_mismatch")))
  | BeginTerminal existing => mret (Stored existing)
  | BeginRunning => mret (Plain uncertain_outcome)
  | BeginNew => run_and_record r started_at implementation
  end.

Definition is_phase (r : request) (p : pystr) : bool := str_eqb (rq_phase r) p.
Definition is_operation (r : request) (o : pystr) : bool := str_eqb (rq_operation r) o.

(** The effect of an execute request, when the pair is one the broker executes. *)
Definition implementation (r : request) : option (M OperationOutcome) :=
  let payload := rq_payload r in
  let expected := get (u "precondition_fingerprint") (rq_binding r) in
  if is_operation r (u "odoo.config.patch") then
    Some (execute_patch policy backups_dir payload (rq_request_id r) expected)
  else if is_operation r (u "host.service.restart") then
    Some (execute_restart policy payload expected)
  else if is_operation r (u "odoo.module.update") then
    Some (execute_update policy payload (get (u "database_fingerprint") (rq_binding r)) expected)
  else None.

(** The previews and verifications. *)
Definition read_operation (r : request) : option (M OperationOutcome) :=
  let payload := rq_payload r in
  let database := get (u "database_fingerprint") (rq_binding r) in
  let preview := is_phase r (u "preview") in
  let verify := is_phase r (u "verify") in
  if is_operation r (u "broker.status") && preview then
    Some (mret (MkOutcome (u "ok") (u "none") status_summary None None (u "none") None None))
  else if is_operation r (u "odoo.config.inspect") && preview then Some (inspect policy payload)
  else if is_operation r (u "odoo.config.patch") && preview then Some (preview_patch policy payload)
  else if is_operation r (u "odoo.config.patch") && verify then Some (verify_patch policy payload)
  else if is_operation r (u "host.service.status") && preview then Some (status policy payload)
  else if is_operation r (u "host.service.restart") && preview then Some (preview_restart policy payload)
  else if is_operation r (u "host.service.restart") && verify then Some (verify_restart policy payload)
  else if is_operation r (u "odoo.module.update") && preview then
    Some (preview_update policy payload database)
  else if is_operation r (u "odoo.module.update") && verify then
    Some (verify_update policy payload database)
  else None.

Definition _dispatch (r : request) : M engine_outcome :=
  match read_operation r with
  | Some m => plain m
  | None =>
      match (if is_phase r (u "execute") then implementation r else None) with
      | Some m => _effectful r m
      | None => raise (operation_error (u "broker_operation_not_allowed"))
      end
  end.

Definition handle (peer_uid : Z) (value : pyval) (now : option Z) : M pydict :=
  current ← match now with Some n => mret n | None => time_now end;
  match validate_request value current with
  | Err (BrokerProtocolError code) => _invalid_receipt value code current
  | Err e => raise e
  | Ok r =>
      if negb (mem peer_uid (bp_allowed_peer_uids policy)) then
        request_receipt r (Plain (denied_outcome (u "broker_peer_denied"))) current
      else
        outcome ← outcome_or Plain internal_error_outcome (_dispatch r);
        request_receipt r outcome current
  end.
End engine.
