(* ===== verification/BrokerServer.v ===== *)
(** * Host broker: connection framing

    [server.py]: one bounded newline-terminated request per connection and one bounded
    receipt in return. *)
From S2P Require Import Prelude PyText PyValue Json BrokerProtocol BrokerPolicy BrokerHost.
From S2P Require Import BrokerLedger BrokerEngine.
Local Open Scope Z_scope.

(** The bytes a peer sends, in the segments the socket delivers them; the end of the list is
    the end of the stream. *)
Abbreviation stream := (list pybytes).

(** [connection.recv(n)]: at most [n] bytes of the next segment. *)
Fixpoint recv (n : nat) (s : stream) : pybytes * stream :=
  match s with
  | [] => ([], [])
  | [] :: s => recv n s
  | seg :: s =>
      (take n seg, match drop n seg with [] => s | rest => rest :: s end)
  end.

Definition newline_byte : Byte.byte := Byte.x0a.

(** The receiving loop of [_recv_line]. *)
Fixpoint recv_loop (fuel : nat) (maximum : Z) (s : stream) (data : pybytes) : pybytes :=
  match fuel with
  | O => data
  | S fuel =>
      if byte_len data <=? maximum then
        let '(chunk, s) := recv (Z.to_nat (Z.min 8192 (maximum + 1 - byte_len data))) s in
        match chunk with
        | [] => data
        | _ => if mem newline_byte chunk then data ++ chunk
               else recv_loop fuel maximum s (data ++ chunk)
        end
      else data
  end.

Fixpoint split_line (data : pybytes) : option (pybytes * pybytes) :=
  match data with
  | [] => None
  | b :: r =>
      if decide (b = newline_byte) then Some ([], r)
      else match split_line r with Some (a, c) => Some (b :: a, c) | None => None end
  end.

Definition _recv_line (s : stream) (maximum : Z) : result exn pybytes :=
  let data := recv_loop (S (length (concat s))) maximum s [] in
  raise_when (maximum <? byte_len data) (BrokerProtocolError (u "broker_request_too_large"));;
  match split_line data with
  | Some (line, trailing) =>
      raise_when (negb (bool_decide (trailing = [])))
        (BrokerProtocolError (u "broker_request_framing_invalid"));;
      Ok line
  | None => Ok data
  end.

(** The decoded request, [{}] when the line is not JSON text. *)
Definition decode_request `{I : Interpreter} (raw : pybytes) : result exn pyval :=
  match utf8_decode raw with
  | None => Ok (VDict [])
  | Some text =>
      match json_loads text with
      | Ok v => Ok v
      | Err IntTooLong => Err (EOther (u "ValueError"))
      | Err RecursionError => Err (EOther (u "RecursionError"))
      | Err _ => Ok (VDict [])
      end
  end.

Section server.
Context {Env : Type} `{!Host Env} (policy : BrokerPolicy) (backups_dir : pystr).
Abbreviation M := (ST (world Env) exn).

(** What one connection sends back. *)
Definition _handle_connection (peer_uid : Z) (s : stream) : M pybytes :=
  raw ← lift (_recv_line s MAX_REQUEST_BYTES);
  request ← lift (decode_request raw);
  receipt ← handle policy backups_dir peer_uid request None;
  encoded ← lift (canonical_json (VDict receipt));
  let reply := encoded ++ [newline_byte] in
  lift (raise_when (MAX_RESPONSE_BYTES <? byte_len reply)
          (BrokerProtocolError (u "broker_response_too_large")));;
  mret reply.

(** One turn of the accept loop: [BrokerProtocolError] and [OSError] drop the connection;
    any other exception leaves [serve_forever]. *)
Definition serve_one (peer_uid : Z) (s : stream) : M (option pybytes) :=
  catch (reply ← _handle_connection peer_uid s; mret (Some reply))
    (λ e, match e with
          | BrokerProtocolError _ => mret None
          | EOther cls => if str_eqb cls (u "OSError") then mret None else raise e
          | e => raise e
          end).
End server.

(** ** Framing *)

Lemma recv_spec n s : (0 < n)%nat →
  let '(chunk, s') := recv n s in chunk ++ concat s' = concat s ∧ (chunk = [] → concat s = []).
Proof.
  intros Hn. induction s as [|[|b seg] s IH]; [done|exact IH|].
  destruct n as [|n]; [lia|]. cbn [recv take drop]. split; [|done].
  rewrite <- (take_drop n seg) at 3. simpl.
  destruct (drop n seg) as [|c rest]; simpl; by rewrite <- ?app_assoc.
Qed.

(** Bytes up to and including the first newline end with it. *)
Lemma line_prefix (line pre post : pybytes) :
  newline_byte ∉ line → newline_byte ∈ pre → pre ++ post = line ++ [newline_byte] → post = [].
Proof.
  intros Hl Hp E. destruct post as [|c post _] using rev_ind; [done|].
  rewrite app_assoc in E. apply app_inj_tail in E as [<- _]. set_solver.
Qed.

Lemma recv_loop_line fuel maximum s data line :
  (length (concat s) < fuel)%nat → newline_byte ∉ line → newline_byte ∉ data →
  data ++ concat s = line ++ [newline_byte] → byte_len (line ++ [newline_byte]) ≤ maximum →
  recv_loop fuel maximum s data = line ++ [newline_byte].
Proof.
  revert s data. induction fuel as [|fuel IH]; intros s data Hf Hline Hdata Htotal Hmax; [lia|].
  assert (byte_len data + byte_len (concat s) = byte_len (line ++ [newline_byte])) as Hlen.
  { rewrite <- Htotal. unfold byte_len. rewrite length_app. lia. }
  assert (concat s ≠ []) as Hne.
  { intros E. rewrite E, app_nil_r in Htotal. apply Hdata. rewrite Htotal. set_solver. }
  assert (0 < byte_len (concat s)).
  { unfold byte_len. destruct (concat s); [done|simpl; lia]. }
  cbn [recv_loop]. destruct (Z.leb_spec (byte_len data) maximum); [|lia].
  pose proof (recv_spec (Z.to_nat (Z.min 8192 (maximum + 1 - byte_len data))) s) as Hr.
  destruct (recv _ s) as [chunk s']. destruct Hr as [Hc Hempty]; [lia|].
  destruct chunk as [|b chunk]; [by destruct Hne; apply Hempty|]. rewrite <- Hc in Htotal.
  rewrite app_assoc in Htotal. destruct (mem newline_byte (b :: chunk)) eqn:Hm.
  - apply mem_true in Hm. assert (concat s' = []) as E.
    { eapply (line_prefix line (data ++ b :: chunk)); [done|set_solver|done]. }
    by rewrite E, app_nil_r in Htotal.
  - apply mem_false in Hm. apply IH; [|done|set_solver|done|done].
    apply (f_equal length) in Hc. rewrite length_app in Hc. simpl in Hc. lia.
Qed.

Lemma split_line_line line : newline_byte ∉ line → split_line (line ++ [newline_byte]) = Some (line, []).
Proof.
  induction line as [|b line IH]; intros Hl; simpl; [done|].
  rewrite decide_False by set_solver. rewrite IH by set_solver. done.
Qed.

Lemma recv_line_Ok s maximum line :
  newline_byte ∉ line → concat s = line ++ [newline_byte] → byte_len line < maximum →
  _recv_line s maximum = Ok line.
Proof.
  intros Hl Hs Hm. assert (byte_len (line ++ [newline_byte]) ≤ maximum) as Hmax.
  { unfold byte_len in *. rewrite length_app. simpl. lia. }
  unfold _recv_line. rewrite (recv_loop_line _ _ _ _ line) by (done || lia || set_solver).
  destruct (Z.ltb_spec maximum (byte_len (line ++ [newline_byte]))); [lia|].
  by rewrite split_line_line.
Qed.

(** A line within the limit is received whatever the segments it arrives in, and two
    segmentations of the same bytes give the same result. *)
Theorem recv_line_any_segments s maximum line :
  newline_byte ∉ line → concat s = line ++ [newline_byte] → byte_len line < maximum →
  _recv_line s maximum = Ok line ∧
  ∀ s', concat s' = concat s → _recv_line s' maximum = _recv_line s maximum.
Proof.
  intros Hl Hs Hm. rewrite (recv_line_Ok s maximum line) by done. split; [done|].
  intros s' E. apply recv_line_Ok; congruence.
Qed.

Lemma recv_line_any_segments_witness :
  _recv_line [[Byte.x7b]; []; [Byte.x7d; newline_byte]] MAX_REQUEST_BYTES = Ok [Byte.x7b; Byte.x7d].
Proof.
  refine (proj1 (recv_line_any_segments [[Byte.x7b]; []; [Byte.x7d; newline_byte]] MAX_REQUEST_BYTES
                   [Byte.x7b; Byte.x7d] _ _ _)); [|reflexivity|reflexivity].
  apply mem_false. reflexivity.
Defined.
