(* ===== verification/BrokerEngineFacts.v ===== *)
(** * Host broker: the ledger's guarantee

    Every execute request is identified in the ledger before its effect, rows are never
    rewritten, and a request whose identifier is known runs nothing. *)
From S2P Require Import Prelude PyText PyValue Json BrokerProtocol BrokerPolicy BrokerHost.
From S2P Require Import BrokerConfig BrokerConfigFacts BrokerService BrokerModule BrokerLedger.
From S2P Require Import BrokerEngine BrokerServer.
Local Open Scope Z_scope.

(** ** Growth of the ledger *)

(** A row keeps its identity; the only transition is from running to terminal. *)
Definition row_le (a b : ledger_row) : Prop :=
  row_request_hash a = row_request_hash b ∧ row_operation a = row_operation b ∧
  row_started_at a = row_started_at b ∧
  (row_state_ a = RowTerminal → a = b).

#[export] Instance row_le_preorder : PreOrder row_le.
Proof.
  split; [by intros a|]. intros a b c (?&?&?&Hab) (?&?&?&Hbc).
  split_and!; try congruence. intros Ha. rewrite (Hab Ha). apply Hbc. by rewrite <- (Hab Ha).
Qed.

Section growth.
Context {Env : Type} `{!Host Env}.
Implicit Types w : world Env.

Definition ledger_le w w' : Prop :=
  ∀ id a, w_ledger w !! id = Some a → ∃ b, w_ledger w' !! id = Some b ∧ row_le a b.

#[export] Instance ledger_le_preorder : PreOrder ledger_le.
Proof.
  split; [by intros w id a Ha; exists a|]. intros w1 w2 w3 H12 H23 id a Ha.
  destruct (H12 _ _ Ha) as (b & Hb & Hab). destruct (H23 _ _ Hb) as (c & Hc & Hbc).
  exists c. split; [done|]. by trans b.
Qed.

Lemma same_ledger_le w w' : same_ledger w w' → ledger_le w w'.
Proof. intros E id a Ha. exists a. by rewrite <- E. Qed.

Lemma keeps_same_ledger_le {E A} (m : ST (world Env) E A) :
  keeps same_ledger m → keeps ledger_le m.
Proof. intros Hm w. by apply same_ledger_le, Hm. Qed.

(** Nothing outside the broker changed: no file, no command, no replacement. *)
Definition no_effects w w' : Prop := same_files w w' ∧ same_log w w'.

#[export] Instance no_effects_preorder : PreOrder no_effects.
Proof.
  split; [intros w; by split|]. intros w1 w2 w3 [] []. split; (etrans; eassumption).
Qed.
End growth.

Section ledger_facts.
Context {Env : Type} `{!Host Env}.
Implicit Types w : world Env.

Lemma ledger_begin_le id h op t : keeps ledger_le (ledger_begin (Env:=Env) id h op t).
Proof.
  intros w. unfold ledger_begin, sys_as, gets, modify, lift, mbind, ST_bind.
  destruct (host_fault _); [by apply same_ledger_le|]. cbn.
  destruct (w_ledger w !! id) as [row|] eqn:E; cbn.
  - repeat case_match; simplify_eq/=; by apply same_ledger_le.
  - destruct (host_fault _); [by apply same_ledger_le|]. cbn. intros id' a Ha.
    exists a. split; [|reflexivity]. cbn in *. rewrite lookup_insert_ne; [done|congruence].
Qed.

Lemma ledger_finish_le receipt : keeps ledger_le (ledger_finish (Env:=Env) receipt).
Proof.
  unfold ledger_finish. repeat (apply keeps_bind; [apply _|by solve_keeps|intros ?]).
  apply keeps_bind; [apply _| |intros ?].
  { by apply keeps_same_ledger_le, keeps_sys_ledger. }
  intros w. unfold gets, modify, raise, mbind, ST_bind. cbn.
  destruct (w_ledger w !! _) as [row|] eqn:E; cbn; [|by apply same_ledger_le].
  case_decide as Hr; cbn; [|by apply same_ledger_le]. intros id' b Hb. cbn.
  match goal with |- context [<[?k := _]> _] => destruct (decide (id' = k)) as [->|] end.
  - rewrite lookup_insert_eq. eexists; split; [done|]. rewrite E in Hb. injection Hb as <-.
    split_and!; [done..|]. congruence.
  - rewrite lookup_insert_ne by done. by exists b.
Qed.

Lemma ledger_begin_files id h op t : keeps no_effects (ledger_begin (Env:=Env) id h op t).
Proof.
  intros w. unfold ledger_begin, sys_as, gets, modify, lift, mbind, ST_bind.
  repeat (case_match || simplify_eq/=); done.
Qed.

(** A known identifier is never new. *)
Lemma ledger_begin_known id h op t w w' s :
  is_Some (w_ledger w !! id) → ledger_begin id h op t w = (Ok s, w') → s ≠ BeginNew.
Proof.
  intros [row Hrow] H ->. unfold ledger_begin, sys_as, gets, modify, lift, mbind, ST_bind in H.
  destruct (host_fault _); [done|]. cbn in H. rewrite Hrow in H.
  repeat (case_match || simplify_eq/=); done.
Qed.

Lemma ledger_begin_new id h op t w w' :
  ledger_begin id h op t w = (Ok BeginNew, w') →
  w_ledger w !! id = None ∧ w_ledger w' !! id = Some (MkRow h op RowRunning None t).
Proof.
  intros H. unfold ledger_begin, sys_as, gets, modify, lift, mbind, ST_bind in H.
  destruct (host_fault _); [done|]. cbn in H.
  destruct (w_ledger w !! id) as [row|] eqn:Hrow.
  - repeat (case_match || simplify_eq/=); done.
  - destruct (host_fault _); simplify_eq/=.
    injection H as <-. cbn. by rewrite lookup_insert_eq.
Qed.
End ledger_facts.
#[export] Hint Resolve ledger_begin_le ledger_finish_le ledger_begin_files : keeps.

(** ** The operations leave the ledger alone *)

Section operations.
Context {Env : Type} `{!Host Env} (policy : BrokerPolicy) (backups_dir : pystr).

Lemma status_fields_ledger target : keeps same_ledger (_status_fields (Env:=Env) policy target).
Proof. unfold _status_fields, run_or_raise. solve_keeps. Qed.
#[local] Hint Resolve status_fields_ledger : keeps.
Lemma status_or_unknown_ledger target :
  keeps same_ledger (_status_or_unknown (Env:=Env) policy target).
Proof. unfold _status_or_unknown. solve_keeps. Qed.
#[local] Hint Resolve status_or_unknown_ledger : keeps.
Lemma execute_restart_ledger payload expected :
  keeps same_ledger (execute_restart (Env:=Env) policy payload expected).
Proof. unfold execute_restart, run_or_raise. solve_keeps. Qed.
Lemma inspect_module_ledger target : keeps same_ledger (_inspect (Env:=Env) policy target).
Proof. unfold _inspect, _run. solve_keeps. Qed.
#[local] Hint Resolve inspect_module_ledger : keeps.
Lemma execute_update_ledger payload db expected :
  keeps same_ledger (execute_update (Env:=Env) policy payload db expected).
Proof. unfold execute_update, _run. solve_keeps. Qed.
#[local] Hint Resolve execute_restart_ledger execute_update_ledger execute_patch_ledger
  inspect_ledger preview_patch_ledger verify_patch_ledger : keeps.

Lemma implementation_ledger r m :
  implementation (Env:=Env) policy backups_dir r = Some m → keeps same_ledger m.
Proof. unfold implementation. repeat case_match; intros [= <-]; auto with keeps. Qed.

Lemma read_operation_ledger r m :
  read_operation (Env:=Env) policy r = Some m → keeps same_ledger m.
Proof.
  unfold read_operation. repeat case_match; intros [= <-];
    unfold status, preview_restart, verify_restart, preview_update, verify_update; solve_keeps.
Qed.

Lemma time_now_ledger : keeps same_ledger (time_now (Env:=Env)).
Proof. done. Qed.
Lemma receipt_ledger id op ph o t : keeps same_ledger (_receipt (Env:=Env) id op ph o t).
Proof. unfold _receipt. pose proof time_now_ledger. solve_keeps. Qed.
End operations.
#[export] Hint Resolve time_now_ledger receipt_ledger : keeps.
#[export] Hint Resolve implementation_ledger read_operation_ledger : keeps.
#[export] Hint Extern 3 (keeps ledger_le _) => apply keeps_same_ledger_le : keeps.

Section engine.
Context {Env : Type} `{!Host Env} (policy : BrokerPolicy) (backups_dir : pystr).
Implicit Types (w : world Env) (r : request).

Lemma run_and_record_le r t m :
  keeps same_ledger m → keeps ledger_le (run_and_record (Env:=Env) r t m).
Proof. intros Hm. unfold run_and_record, outcome_or, request_receipt. solve_keeps. Qed.

Lemma effectful_le r m : keeps same_ledger m → keeps ledger_le (_effectful (Env:=Env) r m).
Proof. intros Hm. pose proof (run_and_record_le r). unfold _effectful. solve_keeps. Qed.

Lemma dispatch_le r : keeps ledger_le (_dispatch (Env:=Env) policy backups_dir r).
Proof.
  unfold _dispatch. destruct (read_operation policy r) as [m|] eqn:E.
  { apply read_operation_ledger in E. unfold plain. solve_keeps. }
  destruct (is_phase r (u "execute")); [|solve_keeps].
  destruct (implementation policy backups_dir r) as [m|] eqn:E'; [|solve_keeps].
  by apply effectful_le, (implementation_ledger policy backups_dir r).
Qed.

(** ** A known identifier *)

Lemma time_now_effects : keeps no_effects (time_now (Env:=Env)).
Proof. done. Qed.
Lemma receipt_effects id op ph o t : keeps no_effects (_receipt (Env:=Env) id op ph o t).
Proof. unfold _receipt. pose proof time_now_effects. solve_keeps. Qed.
#[local] Hint Resolve time_now_effects receipt_effects : keeps.

Lemma time_now_Ok w n w' :
  time_now w = (Ok n, w') → n = host_clock (w_ticks w) ∧ w' = bump_ticks w.
Proof. by intros [= <- <-]. Qed.

Lemma effectful_known r m w :
  is_Some (w_ledger w !! rq_request_id r) → no_effects w (_effectful r m w).2.
Proof.
  intros Hid. unfold _effectful. apply keeps_bind_at; [apply _|done|].
  intros t w1 [-> ->]%time_now_Ok. apply keeps_bind_at; [apply _|done|].
  intros h w2 [= _ <-]. apply keeps_bind_at; [apply _|by apply ledger_begin_files|].
  intros s w3 Hs. apply ledger_begin_known in Hs; [|done]. by destruct s.
Qed.

Lemma read_operation_execute r : rq_phase r = u "execute" → read_operation (Env:=Env) policy r = None.
Proof.
  intros Hp. unfold read_operation, is_phase. rewrite Hp.
  change (str_eqb (u "execute") (u "preview")) with false.
  change (str_eqb (u "execute") (u "verify")) with false.
  by rewrite !andb_false_r.
Qed.

Lemma dispatch_known r w :
  rq_phase r = u "execute" → is_Some (w_ledger w !! rq_request_id r) →
  no_effects w (_dispatch policy backups_dir r w).2.
Proof.
  intros Hp Hid. unfold _dispatch. rewrite read_operation_execute by done.
  case_bool; [|by split]. destruct (implementation _ _ _); [|by split].
  by apply effectful_known.
Qed.

(** ** One request *)

(** The time a request is validated at. *)
Definition request_time (now : option Z) w : Z :=
  match now with Some n => n | None => host_clock (w_ticks w) end.

(** The world in which it is validated. *)
Definition request_world (now : option Z) w : world Env :=
  match now with Some _ => w | None => bump_ticks w end.

Lemma handle_eq peer value now w :
  handle policy backups_dir peer value now w =
  match validate_request value (request_time now w) with
  | Err (BrokerProtocolError code) => _invalid_receipt value code (request_time now w)
  | Err e => raise e
  | Ok r =>
      if negb (mem peer (bp_allowed_peer_uids policy)) then
        request_receipt r (Plain (denied_outcome (u "broker_peer_denied"))) (request_time now w)
      else
        outcome ← outcome_or Plain internal_error_outcome (_dispatch policy backups_dir r);
        request_receipt r outcome (request_time now w)
  end (request_world now w).
Proof. by destruct now. Qed.

Lemma handle_known peer value now w r :
  validate_request value (request_time now w) = Ok r →
  rq_phase r = u "execute" → is_Some (w_ledger w !! rq_request_id r) →
  no_effects w (handle policy backups_dir peer value now w).2.
Proof.
  intros Hv Hp Hid. rewrite handle_eq, Hv.
  trans (request_world now w); [by destruct now|].
  case_bool; [by apply receipt_effects|].
  apply keeps_bind_at; [apply _| |intros; apply receipt_effects].
  unfold outcome_or. apply keeps_catch_at; [apply _| |intros; by split].
  apply dispatch_known; [done|]. by destruct now.
Qed.

(** A request that had an effect is in the ledger afterwards. *)
Lemma effectful_registers r m w :
  keeps same_ledger m → ¬ no_effects w (_effectful r m w).2 →
  is_Some (w_ledger (_effectful r m w).2 !! rq_request_id r).
Proof.
  intros Hm Hne. unfold _effectful in *.
  destruct (replay_sha256 r) as [h|e] eqn:Eh; [|by destruct Hne].
  unfold lift, mbind, ST_bind, time_now in *. cbn [fst snd] in *.
  match goal with |- context [ledger_begin ?i ?h ?o ?t ?w1] =>
    pose proof (ledger_begin_files i h o t w1) as Hf;
    destruct (ledger_begin i h o t w1) as [[[| | |]|] w2] eqn:Eb end;
    try (destruct Hne; split; apply Hf).
  apply ledger_begin_new in Eb as [_ Hrow].
  destruct (run_and_record_le r (host_clock (w_ticks w)) m Hm w2 _ _ Hrow) as (b & Hb & _).
  by exists b.
Qed.

Lemma dispatch_registers r w :
  rq_phase r = u "execute" → ¬ no_effects w (_dispatch policy backups_dir r w).2 →
  is_Some (w_ledger (_dispatch policy backups_dir r w).2 !! rq_request_id r).
Proof.
  intros Hp. unfold _dispatch. rewrite read_operation_execute by done.
  case_bool; [|by intros []]. destruct (implementation _ _ _) as [m|] eqn:E; [|by intros []].
  by apply effectful_registers, (implementation_ledger policy backups_dir r).
Qed.

Lemma handle_registers peer value now w r :
  validate_request value (request_time now w) = Ok r → rq_phase r = u "execute" →
  ¬ no_effects w (handle policy backups_dir peer value now w).2 →
  is_Some (w_ledger (handle policy backups_dir peer value now w).2 !! rq_request_id r).
Proof.
  rewrite handle_eq. intros Hv Hp. rewrite Hv.
  assert (no_effects w (request_world now w)) as Hw by by destruct now.
  revert Hw. generalize (request_world now w) as w0. intros w0 Hw. case_bool.
  { intros Hne. destruct Hne. etrans; [done|]. apply receipt_effects. }
  unfold mbind, ST_bind, outcome_or, catch.
  pose proof (dispatch_registers r w0 Hp) as Hreg.
  destruct (_dispatch policy backups_dir r w0) as [[o|e] w1]; simpl in *.
  - pose proof (receipt_effects (rq_request_id r) (rq_operation r) (rq_phase r) o
      (request_time now w) w1) as He.
    pose proof (receipt_ledger (Env:=Env) (rq_request_id r) (rq_operation r) (rq_phase r) o
      (request_time now w) w1) as Hl. fold (request_receipt r o) in *.
    intros Hne. rewrite <- Hl. apply Hreg. intros Hr. destruct Hne. etrans; [done|]. by etrans.
  - intros Hne. apply Hreg. intros Hr. destruct Hne. by etrans.
Qed.

Lemma handle_le peer value now : keeps ledger_le (handle (Env:=Env) policy backups_dir peer value now).
Proof.
  pose proof dispatch_le.
  unfold handle, _invalid_receipt, outcome_or, request_receipt. solve_keeps.
Qed.

(** ** The running broker *)

(** Between two connections the machine's other programs may change files and services; the
    ledger is the broker's own. *)
Inductive broker_step : world Env → world Env → Prop :=
| step_serve peer s w : broker_step w (serve_one policy backups_dir peer s w).2
| step_outside fs env w : broker_step w (set_env env (set_fs (λ _, fs) w)).

Lemma serve_one_le peer s : keeps ledger_le (serve_one (Env:=Env) policy backups_dir peer s).
Proof. pose proof handle_le. unfold serve_one, _handle_connection. solve_keeps. Qed.

Lemma broker_run_le w w' : rtc broker_step w w' → ledger_le w w'.
Proof.
  induction 1 as [w|w1 w2 w3 Hstep _ IH]; [reflexivity|]. etrans; [|done].
  destruct Hstep; [apply serve_one_le|by apply same_ledger_le].
Qed.

(** Over any sequence of requests a ledger row never disappears, never changes its request
    hash and never leaves a finished state. *)
Theorem ledger_only_grows w w' : rtc broker_step w w' → ledger_le w w'.
Proof. apply broker_run_le. Qed.

(** C1: Once a validated execute request has changed the host (a file or a command), no later
    execute request with the same request id changes anything, whatever other requests, peers
    and clock readings the broker served in between: the ledger makes an effect happen at most
    once. *)
Theorem effect_at_most_once w1 w2 peer1 peer2 value1 value2 now1 now2 r1 r2 :
  validate_request value1 (request_time now1 w1) = Ok r1 →
  rq_phase r1 = u "execute" →
  ¬ no_effects w1 (handle policy backups_dir peer1 value1 now1 w1).2 →
  rtc broker_step (handle policy backups_dir peer1 value1 now1 w1).2 w2 →
  validate_request value2 (request_time now2 w2) = Ok r2 →
  rq_phase r2 = u "execute" →
  rq_request_id r2 = rq_request_id r1 →
  no_effects w2 (handle policy backups_dir peer2 value2 now2 w2).2.
Proof.
  intros Hv1 Hp1 Hne Hsteps Hv2 Hp2 Hid.
  apply (handle_known peer2 value2 now2 w2 r2); [done..|]. rewrite Hid.
  destruct (handle_registers _ _ _ _ _ Hv1 Hp1 Hne) as [row Hrow].
  destruct (broker_run_le _ _ Hsteps _ _ Hrow) as (b & Hb & _). by exists b.
Qed.
End engine.
