(* ===== verification/BrokerReceipts.v ===== *)
(** * Host broker: every request is answered

    The statuses an operation can report, the shape of every receipt, and when the engine
    returns one. *)
From S2P Require Import Prelude PyText Regex PyValue Json BrokerProtocol BrokerPolicy.
From S2P Require Import BrokerHost BrokerConfig BrokerService BrokerModule BrokerLedger.
From S2P Require Import BrokerEngine BrokerEngineFacts.
From S2P Require Import BrokerConfigFacts.
Local Open Scope Z_scope.

(** ** Outcomes *)

Record outcome_ok (o : OperationOutcome) : Prop := {
  ok_status : o_status o ∈ _STATUSES;
  ok_effect : o_effect_state o ∈ _EFFECT_STATES;
  ok_recovery : o_recovery_classification o ∈ _RECOVERY }.

(** What an operation may raise: an outcome of the same kind, or any other exception. *)
Definition exn_ok (e : exn) : Prop :=
  match e with BrokerOperationError o => outcome_ok o | _ => True end.

Ltac solve_outcome :=
  solve [ exact I
        | hnf; apply Build_outcome_ok; simpl; repeat case_match;
            apply (bool_decide_unpack _); vm_compute; exact I ].
#[export] Hint Extern 1 (outcome_ok _) => solve_outcome : yields.
#[export] Hint Extern 1 (exn_ok _) => solve_outcome : yields.

Section outcomes.
Context {Env : Type} `{!Host Env} (policy : BrokerPolicy) (backups_dir : pystr).
Abbreviation reports m := (yields (S:=world Env) outcome_ok exn_ok m).
Abbreviation returns m := (yields (S:=world Env) (λ _, True) exn_ok m).

Lemma canonical_sha256_in X v :
  (∀ c, X (BrokerProtocolError c)) → result_in (λ _, True) X (canonical_sha256 v).
Proof. intros HX. unfold canonical_sha256, canonical_json. by destruct (_ ≫= _); simpl. Qed.
#[local] Hint Resolve canonical_sha256_in : yields.
Lemma sys_in e : exn_ok e → returns (sys_as e).
Proof. intros He w. unfold sys_as. by destruct (host_fault _). Qed.
Lemma run_in argv t i : returns (run_command argv t i).
Proof. intros w. unfold run_command. by destruct (host_run _ _ _ _). Qed.
Lemma time_in : returns time_now.
Proof. by intros w. Qed.
#[local] Hint Resolve sys_in run_in time_in : yields.

Lemma matching_str_in r v e : exn_ok e → result_in (λ _, True) exn_ok (matching_str r v e).
Proof. intros He. unfold matching_str. by repeat case_match. Qed.
#[local] Hint Resolve matching_str_in : yields.

(** *** Configuration *)

Lemma config_target_in payload shape :
  result_in (λ _, True) exn_ok (config_target_of policy payload shape).
Proof. unfold config_target_of. solve_yields. Qed.
Lemma value_in payload : result_in (λ _, True) exn_ok (_value payload).
Proof. unfold _value. solve_yields. Qed.
Lemma bounds_in lines : result_in (λ _, True) exn_ok (_bounds lines).
Proof. unfold _bounds. solve_yields. Qed.
#[local] Hint Resolve config_target_in value_in bounds_in : yields.
Lemma read_option_in text key : result_in (λ _, True) exn_ok (_read_option text key).
Proof. unfold _read_option. solve_yields. Qed.
Lemma patch_option_in text key value : result_in (λ _, True) exn_ok (_patch_option text key value).
Proof. unfold _patch_option. solve_yields. Qed.
#[local] Hint Resolve read_option_in patch_option_in : yields.
Lemma read_loop_in fuel maximum rest data : returns (read_loop fuel maximum rest data).
Proof.
  revert rest data. induction fuel as [|fuel IH]; intros rest data; simpl.
  - solve_yields.
  - pose proof (sys_in OSError). unfold sys. solve_yields.
Qed.
#[local] Hint Resolve read_loop_in : yields.
Lemma sys_in' : returns sys.
Proof. by apply sys_in. Qed.
#[local] Hint Resolve sys_in' : yields.
Lemma read_file_in target : returns (_read_file target).
Proof. unfold _read_file. solve_yields. Qed.
Lemma backup_in id data : returns (_backup backups_dir id data).
Proof. unfold _backup. solve_yields. Qed.
#[local] Hint Resolve read_file_in backup_in : yields.
Lemma atomic_replace_in path data f : returns (_atomic_replace path data f).
Proof. unfold _atomic_replace, swap_in. solve_yields. Qed.
#[local] Hint Resolve atomic_replace_in : yields.
Lemma required_fingerprint_in v : result_in (λ _, True) exn_ok (required_fingerprint v).
Proof. unfold required_fingerprint. solve_yields. Qed.
#[local] Hint Resolve required_fingerprint_in : yields.

Lemma inspect_in payload : reports (inspect policy payload).
Proof. unfold inspect. solve_yields. Qed.
Lemma preview_patch_in payload : reports (preview_patch policy payload).
Proof. unfold preview_patch. solve_yields. Qed.
Lemma verify_patch_in payload : reports (verify_patch policy payload).
Proof. unfold verify_patch. solve_yields. Qed.
Lemma execute_patch_in payload id expected :
  reports (execute_patch policy backups_dir payload id expected).
Proof. unfold execute_patch, backup_class. solve_yields. Qed.

(** *** Services *)

Lemma service_target_in payload verify :
  result_in (λ _, True) exn_ok (service_target_of policy payload verify).
Proof. unfold service_target_of. solve_yields. Qed.
Lemma foldR_in {A T} (f : T → A → result exn T) t l :
  (∀ t a, result_in (λ _, True) exn_ok (f t a)) → result_in (λ _, True) exn_ok (foldR f t l).
Proof. intros Hf. revert t. induction l as [|a l IH]; intros t; simpl; [done|]. solve_yields. Qed.
Lemma parse_status_in target stdout : result_in (λ _, True) exn_ok (parse_status target stdout).
Proof.
  assert (∀ fields line, result_in (λ _, True) exn_ok (status_line fields line)).
  { unfold status_line. solve_yields. }
  pose proof (@foldR_in pystr). unfold parse_status. solve_yields.
Qed.
#[local] Hint Resolve service_target_in parse_status_in : yields.
Lemma status_fields_in target : returns (_status_fields policy target).
Proof. unfold _status_fields, run_or_raise. solve_yields. Qed.
#[local] Hint Resolve status_fields_in : yields.
Lemma status_or_unknown_in target : returns (_status_or_unknown policy target).
Proof. unfold _status_or_unknown. solve_yields. Qed.
#[local] Hint Resolve status_or_unknown_in : yields.
Lemma status_in payload : reports (status policy payload).
Proof. unfold status. solve_yields. Qed.
Lemma preview_restart_in payload : reports (preview_restart policy payload).
Proof. unfold preview_restart. solve_yields. Qed.
Lemma verify_restart_in payload : reports (verify_restart policy payload).
Proof. unfold verify_restart. solve_yields. Qed.
Lemma execute_restart_in payload expected : reports (execute_restart policy payload expected).
Proof. unfold execute_restart, run_or_raise. solve_yields. Qed.

(** *** Modules *)

Lemma module_target_in payload db verify :
  result_in (λ _, True) exn_ok (module_target_of policy payload db verify).
Proof. unfold module_target_of, database_fingerprint_of. solve_yields. Qed.
Lemma parse_module_state_in target stdout :
  result_in (λ _, True) exn_ok (parse_module_state target stdout).
Proof. unfold parse_module_state. solve_yields. Qed.
#[local] Hint Resolve module_target_in parse_module_state_in : yields.
Lemma inspect_module_in target : returns (_inspect policy target).
Proof. unfold _inspect, _run. solve_yields. Qed.
#[local] Hint Resolve inspect_module_in : yields.
Lemma module_error_in status target before after code :
  status ∈ _STATUSES → exn_ok (module_error status target before after code).
Proof.
  intros Hs. split; [done|..]; simpl; apply (bool_decide_unpack _); vm_compute; exact I.
Qed.
Lemma module_uncertain_in target before after code :
  exn_ok (module_error (u "uncertain") target before after code).
Proof. apply module_error_in, (bool_decide_unpack _). vm_compute. exact I. Qed.
#[local] Hint Resolve module_uncertain_in : yields.
Lemma preview_update_in payload db : reports (preview_update policy payload db).
Proof. unfold preview_update. solve_yields. Qed.
Lemma verify_update_in payload db : reports (verify_update policy payload db).
Proof. unfold verify_update. solve_yields. Qed.
Lemma execute_update_in payload db expected : reports (execute_update policy payload db expected).
Proof. unfold execute_update, _run. solve_yields. Qed.

(** *** Dispatch *)

Lemma read_operation_in r m : read_operation policy r = Some m → reports m.
Proof.
  unfold read_operation. repeat case_match; intros [= <-];
    auto using inspect_in, preview_patch_in, verify_patch_in, status_in, preview_restart_in,
      verify_restart_in, preview_update_in, verify_update_in. solve_yields.
Qed.
Lemma implementation_in r m : implementation policy backups_dir r = Some m → reports m.
Proof.
  unfold implementation. repeat case_match; intros [= <-];
    auto using execute_patch_in, execute_restart_in, execute_update_in.
Qed.
End outcomes.

(** ** Receipts *)

Record receipt_shape (d : pydict) : Prop := {
  rs_keys : has_keys d _RECEIPT_KEYS = true;
  rs_status : ∃ s, get (u "status") d = VStr s ∧ s ∈ _STATUSES;
  rs_effect : ∃ s, get (u "effect_state") d = VStr s ∧ s ∈ _EFFECT_STATES }.

Lemma receipt_dict_shape id op ph o t1 t2 : outcome_ok o → receipt_shape (receipt_dict id op ph o t1 t2).
Proof.
  intros [Hs He _]. split.
  - vm_compute. reflexivity.
  - exists (o_status o). by split.
  - exists (o_effect_state o). by split.
Qed.

Lemma validate_receipt_shape v d : validate_receipt v = Ok d → receipt_shape d.
Proof.
  unfold validate_receipt. intros H. result_inv. split; [done|by apply not_in_false..].
Qed.

Definition engine_outcome_ok (o : engine_outcome) : Prop :=
  match o with Plain o => outcome_ok o | Stored d => receipt_shape d end.

Definition request_phase (value : pyval) : pyval :=
  match value with VDict d => get (u "phase") d | _ => VNone end.

Lemma unstored_outcome_ok o : outcome_ok o → outcome_ok (unstored_outcome o).
Proof.
  intros [_ _ Hr]. split; simpl; [apply (bool_decide_unpack _); vm_compute; exact I..|].
  case_match; [|done]. apply (bool_decide_unpack _); vm_compute; exact I.
Qed.

Lemma not_in_hashable X v ss : hashable v = true → result_in (λ _, True) X (not_in v ss).
Proof. intros Hv. unfold not_in, in_str_set. by rewrite Hv. Qed.

Definition protocol_error (e : exn) : Prop := ∃ code, e = BrokerProtocolError code.

Lemma canonical_json_in v : result_in (λ _, True) protocol_error (canonical_json v).
Proof. unfold canonical_json. destruct (_ ≫= _); simpl; [done|]. by eexists. Qed.

Section answers.
#[local] Hint Extern 1 (protocol_error _) => eexists; reflexivity : yields.
#[local] Hint Resolve canonical_json_in canonical_sha256_in : yields.

Lemma matching_str_protocol r v c :
  result_in (λ _, True) protocol_error (matching_str r v (BrokerProtocolError c)).
Proof. unfold matching_str. solve_yields. Qed.
Lemma validate_binding_protocol b : result_in (λ _, True) protocol_error (_validate_binding b).
Proof. unfold _validate_binding. solve_yields. Qed.
Lemma any_of_in X cs :
  Forall (result_in (λ _, True) X) cs → result_in (λ _, True) X (any_of (E:=exn) cs).
Proof. induction 1 as [|[[]|e] cs Hc _ IH]; simpl; done. Qed.
Lemma raise_any_in (X : exn → Prop) cs e :
  Forall (result_in (λ _, True) X) cs → X e → result_in (λ _, True) X (raise_any cs e).
Proof.
  intros Hcs He. apply (result_in_bind _ (λ _, True)); [by apply any_of_in|].
  intros b _. by apply result_in_when.
Qed.
#[local] Hint Resolve matching_str_protocol validate_binding_protocol raise_any_in : yields.

(** Validation refuses with a [BrokerProtocolError] every request of a hashable phase. *)
Lemma validate_request_protocol value now :
  hashable (request_phase value) = true →
  result_in (λ _, True) protocol_error (validate_request value now).
Proof.
  intros Hp. destruct value as [| | | | | |d]; try (by eexists).
  simpl in Hp. pose proof (not_in_hashable protocol_error _ _PHASES Hp).
  unfold validate_request. simpl. unfold request_phase in Hp.
  repeat first [apply any_of_in; repeat apply Forall_cons_2; [..|apply Forall_nil_2] | solve_yields].
Qed.

(** With a list or an object as its phase, every request raises [TypeError]. *)
Lemma validate_request_unhashable value now :
  hashable (request_phase value) = false →
  ∃ e, validate_request value now = Err e ∧ (protocol_error e ∨ e = TypeError).
Proof.
  intros Hp. destruct value as [| | | | | |d]; try done. simpl in Hp.
  assert (not_in (get (u "phase") d) _PHASES = Err TypeError) as Hn.
  { unfold not_in, in_str_set. by rewrite Hp. }
  unfold validate_request. cbn [as_dict of_option mbind result_bind].
  destruct (has_keys d _REQUEST_KEYS); [|by eexists; split; [reflexivity|left; eexists]].
  destruct (eq_int _ _); [|by eexists; split; [reflexivity|left; eexists]].
  unfold raise_when at 1 2. cbn [negb mbind result_bind].
  pose proof (matching_str_protocol _REQUEST_ID_RE (get (u "request_id") d)
    (u "broker_request_id_invalid")) as H1.
  destruct (matching_str _REQUEST_ID_RE _ _); simpl in *; [|by eauto].
  pose proof (matching_str_protocol _OPERATION_RE (get (u "operation") d)
    (u "broker_operation_invalid")) as H2.
  destruct (matching_str _OPERATION_RE _ _); simpl in *; [|by eauto].
  rewrite Hn. simpl. eauto.
Qed.

Context {Env : Type} `{!Host Env} (policy : BrokerPolicy) (backups_dir : pystr).
Implicit Types w : world Env.

Lemma receipt_yields id op ph o t :
  engine_outcome_ok o → yields (S:=world Env) receipt_shape exn_ok (_receipt id op ph o t).
Proof.
  intros Ho. destruct o; simpl; [|by apply yields_ret].
  apply (yields_bind _ (λ _, True)); [by intros w|]. intros t2 _. apply yields_ret.
  by apply receipt_dict_shape.
Qed.

Lemma outcome_or_yields {A} (Q : A → Prop) wrap fallback (m : ST (world Env) exn A) :
  yields Q exn_ok m → outcome_ok fallback → (∀ o, outcome_ok o → Q (wrap o)) →
  yields Q (λ _, False) (outcome_or wrap fallback m).
Proof.
  intros Hm Hf Hw. apply (yields_catch _ exn_ok); [done|]. intros e He. apply yields_ret.
  destruct e; auto.
Qed.

Lemma validate_receipt_in v : result_in (λ _, True) exn_ok (validate_receipt v).
Proof.
  assert (∀ v, result_in (λ _, True) exn_ok (canonical_json v)) as Hc.
  { intros v'. eapply result_in_weaken; [apply canonical_json_in|]. by intros ? [? ->]. }
  assert (∀ v ss, result_in (λ _, True) exn_ok (not_in v ss)) as Hn.
  { intros v' ss. unfold not_in. by destruct (in_str_set v' ss). }
  unfold validate_receipt, summary_invalid, recovery_invalid.
  repeat first [apply any_of_in; repeat apply Forall_cons_2; [..|apply Forall_nil_2] | solve_yields].
Qed.

Lemma ledger_begin_yields id h op t :
  yields (S:=world Env) (λ s, ∀ d, s = BeginTerminal d → receipt_shape d) exn_ok
    (ledger_begin id h op t).
Proof.
  unfold ledger_begin. pose proof (sys_in (Env:=Env) DatabaseError I).
  apply (yields_bind _ (λ _, True)); [done|]. intros _ _.
  apply (yields_bind _ (λ _, True)); [apply yields_gets|]. intros table _.
  destruct (table !! id) as [row|].
  - case_bool; [by apply yields_ret|]. destruct (row_state_ row); [by apply yields_ret|].
    apply (yields_bind _ receipt_shape).
    + apply yields_lift. unfold read_receipt.
      apply (result_in_bind _ (λ _, True)); [by apply result_in_option|]. intros text _.
      apply (result_in_bind _ (λ _, True)); [by repeat case_match|]. intros v _.
      pose proof (validate_receipt_in v) as Hin.
      destruct (validate_receipt v) as [d|[]] eqn:E; simpl; try done.
      by eapply validate_receipt_shape.
    + intros d Hd. apply yields_ret. by intros ? [= <-].
  - apply (yields_bind _ (λ _, True)); [done|]. intros _ _.
    apply (yields_bind _ (λ _, True)); [apply yields_modify|]. intros _ _. by apply yields_ret.
Qed.

Lemma run_and_record_yields r t m :
  yields (S:=world Env) outcome_ok exn_ok m →
  yields engine_outcome_ok exn_ok (run_and_record r t m).
Proof.
  intros Hm. unfold run_and_record. apply (yields_bind _ outcome_ok).
  { intros w. pose proof (outcome_or_yields outcome_ok id uncertain_outcome m Hm
      ltac:(solve_outcome) ltac:(done) w) as H. by destruct (outcome_or _ _ _ w) as [[]]. }
  intros o Ho. apply (yields_bind _ receipt_shape); [by apply receipt_yields|].
  intros d Hd. apply (yields_catch _ (λ _, True)).
  - intros w. unfold mbind, ST_bind. by destruct (ledger_finish d w) as [[[]|]].
  - intros e _. apply yields_ret. by apply unstored_outcome_ok.
Qed.

Lemma effectful_yields r m :
  yields (S:=world Env) outcome_ok exn_ok m → yields engine_outcome_ok exn_ok (_effectful r m).
Proof.
  intros Hm. unfold _effectful. apply (yields_bind _ (λ _, True)); [by intros w|]. intros t _.
  apply (yields_bind _ (λ _, True)).
  { apply yields_lift. by apply canonical_sha256_in. }
  intros h _. eapply yields_bind; [apply ledger_begin_yields|]. intros s Hs.
  destruct s; [by apply run_and_record_yields|..]; apply yields_ret; simpl; [by apply Hs|..];
    solve_outcome.
Qed.

Lemma dispatch_yields r : yields engine_outcome_ok exn_ok (_dispatch (Env:=Env) policy backups_dir r).
Proof.
  unfold _dispatch. destruct (read_operation policy r) as [m|] eqn:E.
  { apply read_operation_in in E. apply (yields_bind _ outcome_ok); [done|].
    intros o Ho. by apply yields_ret. }
  destruct (is_phase _ _); [|apply yields_raise; solve_outcome].
  destruct (implementation policy backups_dir r) as [m|] eqn:E'; [|apply yields_raise; solve_outcome].
  by apply effectful_yields, (implementation_in policy backups_dir r).
Qed.

Lemma invalid_receipt_yields value code t :
  hashable (request_phase value) = true →
  yields (S:=world Env) receipt_shape (λ _, False) (_invalid_receipt value code t).
Proof.
  intros Hp w. unfold _invalid_receipt.
  pose proof (not_in_hashable (λ _, False) _ _PHASES Hp) as Hn. unfold request_phase in Hp.
  fold (request_phase value). destruct (not_in (request_phase value) _PHASES) as [b|]; [|done].
  simpl. apply receipt_dict_shape. solve_outcome.
Qed.

(** For every request whose phase is a hashable value, handle returns a receipt of the
    documented shape: no exception of the validation, the policy, the operation, the ledger or
    the host escapes. *)
Theorem handle_answers peer value now w :
  hashable (request_phase value) = true →
  ∃ receipt w', handle policy backups_dir peer value now w = (Ok receipt, w') ∧
    receipt_shape receipt.
Proof.
  intros Hp. enough (yields (S:=world Env) receipt_shape (λ _, False)
    (handle policy backups_dir peer value now)) as H.
  { specialize (H w). destruct (handle _ _ _ _ _ w) as [[d|e] w']; simpl in H; [by eauto|done]. }
  unfold handle. apply (yields_bind _ (λ _, True)); [by destruct now|]. intros t _.
  pose proof (validate_request_protocol value t Hp) as Hv.
  destruct (validate_request value t) as [r|e]; simpl in Hv; [|destruct Hv as [code ->]].
  2:{ by apply invalid_receipt_yields. }
  assert (∀ o, engine_outcome_ok o →
    yields (S:=world Env) receipt_shape (λ _, False) (request_receipt r o t)) as Hr.
  { intros o Ho w0. pose proof (receipt_yields (rq_request_id r) (rq_operation r) (rq_phase r) o t
      Ho w0) as H. by destruct o. }
  case_bool; [apply Hr; simpl; solve_outcome|]. apply (yields_bind _ engine_outcome_ok); [|done].
  apply outcome_or_yields; [apply dispatch_yields|solve_outcome|done].
Qed.

(** When the phase of a request is a list or an object, handle raises TypeError whatever
    the peer, the policy and the state: the set membership test of the validator raises before
    any check that would answer. *)
Theorem handle_unhashable_phase peer value now w :
  hashable (request_phase value) = false →
  (handle policy backups_dir peer value now w).1 = Err TypeError.
Proof.
  intros Hp. assert (not_in (request_phase value) _PHASES = Err TypeError) as Hn.
  { unfold not_in, in_str_set. by rewrite Hp. }
  assert (∀ code t, _invalid_receipt (Env:=Env) value code t = raise TypeError) as Hi.
  { intros code t. unfold _invalid_receipt. fold (request_phase value). by rewrite Hn. }
  rewrite handle_eq.
  destruct (validate_request_unhashable value (request_time now w) Hp)
    as (e & -> & [[code ->]| ->]); [by rewrite Hi|done].
Qed.
End answers.

(** ** What an execute request is answered *)

Section replies.
Context {Env : Type} `{!Host Env} (policy : BrokerPolicy) (backups_dir : pystr).
Implicit Types (w : world Env) (r : request).

(** The answer to a request whose identifier the ledger knows. *)
Definition known_reply (row : ledger_row) (request_hash : pystr) : result exn engine_outcome :=
  if negb (str_eqb (row_request_hash row) request_hash) then
    Ok (Plain (denied_outcome (u "broker_request_replay_mismatch")))
  else match row_state_ row with
       | RowRunning => Ok (Plain uncertain_outcome)
       | RowTerminal => Stored <$> read_receipt (row_receipt_json row)
       end.

(** A receipt reports the outcome, or is the stored one. *)
Definition reports_outcome (o : engine_outcome) (receipt : pydict) : Prop :=
  match o with
  | Stored d => receipt = d
  | Plain o =>
      get (u "status") receipt = VStr (o_status o) ∧
      get (u "effect_state") receipt = VStr (o_effect_state o) ∧
      get (u "error_code") receipt = of_opt_str (o_error_code o)
  end.

Lemma receipt_reports id op ph o t w :
  ∃ d, (_receipt id op ph o t w).1 = Ok d ∧ reports_outcome o d.
Proof. destruct o; simpl; eauto. Qed.

Lemma receipt_world id op ph o t w :
  no_effects w (_receipt id op ph o t w).2 ∧ same_ledger w (_receipt id op ph o t w).2.
Proof. split; [apply receipt_effects|apply receipt_ledger]. Qed.

(** An authorised execute request runs [_effectful]. *)
Lemma handle_execute peer value now w r m :
  validate_request value (request_time now w) = Ok r →
  peer ∈ bp_allowed_peer_uids policy → rq_phase r = u "execute" →
  implementation policy backups_dir r = Some m →
  handle policy backups_dir peer value now w =
  (outcome ← outcome_or Plain internal_error_outcome (_effectful r m);
   request_receipt r outcome (request_time now w)) (request_world now w).
Proof.
  intros Hv Hpeer%mem_true Hp Hm. rewrite handle_eq, Hv, Hpeer. simpl.
  unfold _dispatch. rewrite read_operation_execute by done. unfold is_phase. rewrite Hp.
  change (str_eqb (u "execute") (u "execute")) with true. cbv iota. by rewrite Hm.
Qed.

(** An execute request whose id is already in the ledger is answered from the ledger row
    alone (the stored receipt, an uncertain outcome for a running row, a conflict for another
    request hash), without an effect and without changing the ledger. *)
Theorem known_request_reply peer value now w r m h row o :
  validate_request value (request_time now w) = Ok r →
  peer ∈ bp_allowed_peer_uids policy → rq_phase r = u "execute" →
  implementation policy backups_dir r = Some m →
  replay_sha256 r = Ok h → host_fault (w_calls w) = false →
  w_ledger w !! rq_request_id r = Some row → known_reply row h = Ok o →
  ∃ receipt w', handle policy backups_dir peer value now w = (Ok receipt, w') ∧
    reports_outcome o receipt ∧ no_effects w w' ∧ same_ledger w w'.
Proof.
  intros Hv Hpeer Hp Hm Hh Hfault Hrow Ho.
  rewrite (handle_execute _ _ _ _ _ _ Hv Hpeer Hp Hm).
  assert (∃ w1, (outcome_or Plain internal_error_outcome (_effectful r m)) (request_world now w) =
    (Ok o, w1) ∧ no_effects w w1 ∧ same_ledger w w1) as (w1 & E & Hne & Hl).
  { unfold outcome_or, catch, _effectful, time_now, lift, ledger_begin, sys_as, gets, mbind, ST_bind.
    rewrite Hh. cbn. assert (w_calls (request_world now w) = w_calls w) as -> by by destruct now.
    rewrite Hfault. cbn.
    assert (w_ledger (request_world now w) = w_ledger w) as -> by by destruct now.
    rewrite Hrow. unfold known_reply in Ho. case_bool.
    - injection Ho as <-. eexists. split; [reflexivity|]. by destruct now.
    - destruct (row_state_ row).
      + injection Ho as <-. eexists. split; [reflexivity|]. by destruct now.
      + unfold lift. apply fmap_Ok in Ho as (d & -> & ->). cbn. eexists. split; [reflexivity|].
        by destruct now. }
  unfold mbind, ST_bind. rewrite E. unfold request_receipt.
  destruct (receipt_reports (rq_request_id r) (rq_operation r) (rq_phase r) o
    (request_time now w) w1) as (d & Hd & Hrep).
  destruct (receipt_world (rq_request_id r) (rq_operation r) (rq_phase r) o
    (request_time now w) w1) as [He Hl'].
  destruct (_receipt _ _ _ _ _ w1) as [res w2] eqn:Er. simpl in *. subst res.
  exists d, w2. split_and!; [done|done|by etrans|by etrans].
Qed.

(** Storing the receipt: the row becomes terminal, or the table does not change. *)
Lemma ledger_finish_cases receipt id w :
  get (u "request_id") receipt = VStr id →
  (∃ text row w', ledger_finish receipt w = (Ok tt, w') ∧ receipt_text receipt = Ok text ∧
     w_ledger w !! id = Some row ∧ row_state_ row = RowRunning ∧
     w_ledger w' = <[id := finish_row text row]> (w_ledger w) ∧ no_effects w w') ∨
  (∃ e w', ledger_finish receipt w = (Err e, w') ∧ same_ledger w w' ∧ no_effects w w').
Proof.
  intros Hid. unfold ledger_finish, lift, sys_as, gets, modify, raise, mbind, ST_bind.
  rewrite Hid. simpl.
  destruct (validate_receipt _) as [d|e]; [|right; by eexists _, _].
  destruct (receipt_text receipt) as [text|e]; [|right; by eexists _, _].
  destruct (host_fault _); [right; by eexists _, _|]. cbn.
  destruct (w_ledger w !! id) as [row|] eqn:Hrow; [|right; by eexists _, _].
  case_decide; [|right; by eexists _, _]. left. by eexists text, row, _.
Qed.

(** What a first execution leaves in the ledger, with the answer that goes with it. *)
Inductive recorded (r : request) (running : ledger_row) (receipt : pydict) : ledger_row → Prop :=
| recorded_terminal text :
    receipt_text receipt = Ok text → recorded r running receipt (finish_row text running)
| recorded_running :
    get (u "status") receipt = VStr (u "uncertain") →
    get (u "effect_state") receipt = VStr (u "unknown") →
    recorded r running receipt running.

Lemma outcome_or_Ok {A} wrap fallback (m : ST (world Env) exn A) w :
  ∃ o, outcome_or wrap fallback m w = (Ok o, (m w).2).
Proof. unfold outcome_or, catch. destruct (m w) as [[o|e] w1]; by eexists. Qed.

Lemma run_and_record_spec r t m w running :
  keeps same_ledger m → w_ledger w !! rq_request_id r = Some running →
  row_state_ running = RowRunning →
  ∃ o w', run_and_record r t m w = (Ok o, w') ∧ no_effects (m w).2 w' ∧
    ∀ receipt, reports_outcome o receipt →
      ∃ row, w_ledger w' !! rq_request_id r = Some row ∧ recorded r running receipt row.
Proof.
  intros Hm Hrow Hrun. unfold run_and_record, mbind at 1, ST_bind at 1.
  pose proof (Hm w) as Hl. destruct (outcome_or_Ok id uncertain_outcome m w) as [o ->].
  cbn. unfold mbind at 1, ST_bind at 1. simpl.
  set (receipt := receipt_dict _ _ _ o _ _).
  assert (w_ledger (bump_ticks (m w).2) = w_ledger w) as Hl' by by rewrite Hl.
  destruct (ledger_finish_cases receipt (rq_request_id r) (bump_ticks (m w).2))
    as [(text & row & w' & E & Htext & Hrow' & _ & Hw' & Hne)|(e & w' & E & Hw' & Hne)];
    [done|unfold catch, mbind, ST_bind; rewrite E; eexists _, _; (split; [reflexivity|])..].
  - split; [exact Hne|]. intros receipt' Hr. simpl in Hr. subst receipt'.
    rewrite Hl', Hrow in Hrow'. injection Hrow' as <-.
    eexists. rewrite Hw', lookup_insert_eq. split; [done|]. by constructor.
  - split; [exact Hne|]. intros receipt' (Hs & He & _). exists running.
    rewrite <- Hw', Hl'. split; [done|]. by constructor.
Qed.

(** The first execution of a request id writes a running row before the operation starts,
    and after it the row records the receipt that is returned, with no other effect. *)
Theorem first_execution_recorded peer value now w r m h :
  validate_request value (request_time now w) = Ok r →
  peer ∈ bp_allowed_peer_uids policy → rq_phase r = u "execute" →
  implementation policy backups_dir r = Some m → replay_sha256 r = Ok h →
  host_fault (w_calls w) = false → host_fault (S (w_calls w)) = false →
  w_ledger w !! rq_request_id r = None →
  ∃ w1 running receipt w' row,
    handle policy backups_dir peer value now w = (Ok receipt, w') ∧
    no_effects w w1 ∧ w_ledger w1 !! rq_request_id r = Some running ∧
    row_state_ running = RowRunning ∧ row_request_hash running = h ∧
    no_effects (m w1).2 w' ∧
    w_ledger w' !! rq_request_id r = Some row ∧ recorded r running receipt row.
Proof.
  intros Hv Hpeer Hp Hm Hh Hf1 Hf2 Hrow.
  rewrite (handle_execute _ _ _ _ _ _ Hv Hpeer Hp Hm).
  set (wr := request_world now w).
  assert (w_calls wr = w_calls w) as Hc by by destruct now.
  assert (w_ledger wr = w_ledger w) as Hl by by destruct now.
  assert (no_effects w wr) as Hne by by destruct now.
  clearbody wr.
  rewrite <- Hc in Hf1, Hf2. rewrite <- Hl in Hrow.
  set (running := MkRow h (rq_operation r) RowRunning None (host_clock (w_ticks wr))).
  set (w1 := set_ledger <[rq_request_id r := running]> (bump_calls (bump_calls (bump_ticks wr)))).
  assert (_effectful r m wr = run_and_record r (host_clock (w_ticks wr)) m w1) as E.
  { unfold _effectful, time_now, lift, ledger_begin, sys_as, gets, modify.
    unfold mbind, ST_bind. rewrite Hh. cbn. rewrite Hf1. cbn. rewrite Hrow. cbn. rewrite Hf2.
    done. }
  destruct (run_and_record_spec r (host_clock (w_ticks wr)) m w1 running) as
    (o & w2 & Erun & Hne2 & Hrec); [by eapply implementation_ledger|apply lookup_insert_eq|done|].
  unfold mbind, ST_bind, outcome_or, catch. rewrite E, Erun. unfold request_receipt.
  destruct (receipt_reports (rq_request_id r) (rq_operation r) (rq_phase r) o
    (request_time now w) w2) as (d & Hd & Hrep).
  destruct (receipt_world (rq_request_id r) (rq_operation r) (rq_phase r) o
    (request_time now w) w2) as [He Hl'].
  destruct (_receipt _ _ _ _ _ w2) as [res w3] eqn:Er. simpl in *. subst res.
  destruct (Hrec _ Hrep) as (row & Hrow' & Hrec').
  exists w1, running, d, w3, row. split_and!; try done.
  - apply lookup_insert_eq.
  - by etrans.
  - by rewrite <- Hl'.
Qed.
End replies.

(** * Host broker: what a request can reach

    Which files a request can change, which commands it can run, and what refused requests
    and read-only phases leave alone. *)
Local Open Scope Z_scope.

Section authority.
Context {Env : Type} `{!Host Env} (policy : BrokerPolicy) (backups_dir : pystr).
Implicit Types (w : world Env) (r : request).

Definition policy_config (t : ConfigTarget) : Prop :=
  ∃ id, dict_lookup id (bp_config_targets policy) = Some t.
Definition policy_service (t : ServiceTarget) : Prop :=
  ∃ id, dict_lookup id (bp_service_targets policy) = Some t.
Definition policy_module (t : ModuleTarget) : Prop :=
  ∃ id, dict_lookup id (bp_module_targets policy) = Some t.

(** The paths the broker may write: a configured file, its temporary file, a backup. *)
Inductive writable : pystr → Prop :=
| writable_target t : policy_config t → writable (ct_path t)
| writable_temporary t n : policy_config t → writable (temporary_path (parent_dir (ct_path t)) n)
| writable_backup s : writable (path_join backups_dir (s ++ u ".bak")).

(** The events it may cause: fixed command lines of a target, and writes of those files. *)
Inductive permitted : event → Prop :=
| permitted_status t : policy_service t → permitted (EvRun (status_argv policy t))
| permitted_restart t : policy_service t → permitted (EvRun (restart_argv policy t))
| permitted_inspect t : policy_module t →
    permitted (EvRun (secured_argv policy t (inspect_argv t)))
| permitted_update t : policy_module t →
    permitted (EvRun (secured_argv policy t (update_argv t)))
| permitted_replace t data : policy_config t → permitted (EvReplace (ct_path t) data)
| permitted_save s data : permitted (EvBackup (path_join backups_dir (s ++ u ".bak")) data).

Definition within w w' : Prop :=
  (∀ p, ¬ writable p → w_fs w' !! p = w_fs w !! p) ∧
  ∃ events, w_log w' = w_log w ++ events ∧ Forall permitted events.

#[export] Instance within_preorder : PreOrder within.
Proof.
  split.
  - intros w. split; [done|]. exists []. by rewrite app_nil_r.
  - intros w1 w2 w3 [H1 (l1 & E1 & P1)] [H2 (l2 & E2 & P2)]. split.
    + intros p Hp. by rewrite H2, H1.
    + exists (l1 ++ l2). rewrite E2, E1, app_assoc. split; [done|]. by apply Forall_app.
Qed.

Lemma no_effects_within w w' : no_effects w w' → within w w'.
Proof. intros [Hf Hl]. split; [by rewrite Hf|]. exists []. by rewrite app_nil_r. Qed.

Lemma sys_within e : keeps within (sys_as (Env:=Env) e).
Proof. intros w. by apply no_effects_within. Qed.
Lemma sys_within' : keeps within (sys (Env:=Env)).
Proof. apply sys_within. Qed.
Lemma time_within : keeps within (time_now (Env:=Env)).
Proof. intros w. by apply no_effects_within. Qed.
Lemma read_loop_within fuel maximum rest data :
  keeps within (read_loop (Env:=Env) fuel maximum rest data).
Proof. apply read_loop_keeps; [apply _|]. intros w. by apply no_effects_within. Qed.
Lemma run_within argv t i : permitted (EvRun argv) → keeps within (run_command (Env:=Env) argv t i).
Proof.
  intros Hp w. unfold run_command. destruct (host_run _ _ _ _) as [res e]. split; [done|].
  exists [EvRun argv]. split; [done|]. by repeat constructor.
Qed.
Lemma write_within p f : writable p → keeps within (modify (E:=exn) (set_fs (Env:=Env) <[p := f]>)).
Proof.
  intros Hp. apply keeps_modify. intros w. split; [|exists []; by rewrite app_nil_r].
  intros q Hq. cbn. rewrite lookup_insert_ne; [done|]. by intros ->.
Qed.
Lemma delete_within p : writable p → keeps within (modify (E:=exn) (set_fs (Env:=Env) (delete p))).
Proof.
  intros Hp. apply keeps_modify. intros w. split; [|exists []; by rewrite app_nil_r].
  intros q Hq. cbn. rewrite lookup_delete_ne; [done|]. by intros ->.
Qed.
Lemma event_within ev : permitted ev → keeps within (modify (E:=exn) (add_event (Env:=Env) ev)).
Proof.
  intros Hp. apply keeps_modify. intros w. split; [done|]. exists [ev]. split; [done|].
  by repeat constructor.
Qed.
Lemma rename_within p q f : writable p → writable q →
  keeps within (modify (E:=exn) (set_fs (Env:=Env) (λ m, delete q (<[p := f]> m)))).
Proof.
  intros Hp Hq. apply keeps_modify. intros w. split; [|exists []; by rewrite app_nil_r].
  intros x Hx. cbn. rewrite lookup_delete_ne, lookup_insert_ne; [done|..]; by intros ->.
Qed.
#[local] Hint Constructors writable permitted : keeps.
#[local] Hint Resolve sys_within sys_within' time_within read_loop_within run_within write_within
  delete_within event_within rename_within : keeps.

Lemma config_target_from payload shape t key :
  config_target_of policy payload shape = Ok (t, key) → policy_config t.
Proof.
  unfold config_target_of. intros H. result_inv. simplify_eq. by eexists.
Qed.
Lemma service_target_from payload verify t :
  service_target_of policy payload verify = Ok t → policy_service t.
Proof. unfold service_target_of. intros H. result_inv. by eexists. Qed.
Lemma module_target_from payload db verify t :
  module_target_of policy payload db verify = Ok t → policy_module t.
Proof. unfold module_target_of. intros H. result_inv. by eexists. Qed.
#[local] Hint Resolve config_target_from service_target_from module_target_from : keeps.

(** *** Configuration *)

Lemma read_file_within t : keeps within (_read_file (Env:=Env) t).
Proof. unfold _read_file. solve_keeps. Qed.
Lemma backup_within id data : keeps within (_backup (Env:=Env) backups_dir id data).
Proof. unfold _backup. solve_keeps. Qed.
Lemma atomic_replace_within t data f :
  policy_config t → keeps within (_atomic_replace (Env:=Env) (ct_path t) data f).
Proof. intros Ht. unfold _atomic_replace, swap_in. solve_keeps. Qed.
#[local] Hint Resolve read_file_within backup_within atomic_replace_within : keeps.

(** *** Services *)

Lemma status_fields_within t : policy_service t → keeps within (_status_fields (Env:=Env) policy t).
Proof. intros Ht. unfold _status_fields, run_or_raise. solve_keeps. Qed.
#[local] Hint Resolve status_fields_within : keeps.
Lemma status_or_unknown_within t :
  policy_service t → keeps within (_status_or_unknown (Env:=Env) policy t).
Proof. intros Ht. unfold _status_or_unknown. solve_keeps. Qed.
#[local] Hint Resolve status_or_unknown_within : keeps.
(** *** Modules *)

Lemma inspect_module_within t : policy_module t → keeps within (_inspect (Env:=Env) policy t).
Proof. intros Ht. unfold _inspect, _run. solve_keeps. Qed.
#[local] Hint Resolve inspect_module_within : keeps.
(** *** Requests *)

Lemma read_operation_within r m : read_operation (Env:=Env) policy r = Some m → keeps within m.
Proof.
  unfold read_operation. repeat case_match; intros [= <-];
    unfold inspect, preview_patch, verify_patch, status, preview_restart, verify_restart,
      preview_update, verify_update; solve_keeps.
Qed.

Lemma implementation_within r m : implementation policy backups_dir r = Some m → keeps within m.
Proof.
  unfold implementation. repeat case_match; intros [= <-];
    unfold execute_patch, execute_restart, execute_update, run_or_raise, _run; solve_keeps.
Qed.

Lemma keeps_no_effects_within {A} (m : ST (world Env) exn A) : keeps no_effects m → keeps within m.
Proof. intros Hm w. by apply no_effects_within, Hm. Qed.

Lemma ledger_finish_effects d : keeps no_effects (ledger_finish (Env:=Env) d).
Proof.
  intros w. unfold ledger_finish, lift, sys_as, gets, modify, raise, mbind, ST_bind.
  repeat (case_match || simplify_eq/=); done.
Qed.

Lemma effectful_within r m : keeps within m → keeps within (_effectful (Env:=Env) r m).
Proof.
  intros Hm. unfold _effectful, run_and_record, outcome_or, request_receipt.
  pose proof (λ id op ph o t, keeps_no_effects_within _ (receipt_effects (Env:=Env) id op ph o t)).
  pose proof (λ id h op t, keeps_no_effects_within _ (ledger_begin_files (Env:=Env) id h op t)).
  pose proof (λ d, keeps_no_effects_within _ (ledger_finish_effects d)).
  solve_keeps.
Qed.

Lemma dispatch_within r : keeps within (_dispatch (Env:=Env) policy backups_dir r).
Proof.
  unfold _dispatch. destruct (read_operation policy r) as [m|] eqn:E.
  { apply read_operation_within in E. unfold plain. solve_keeps. }
  destruct (is_phase r (u "execute")); [|solve_keeps].
  destruct (implementation policy backups_dir r) as [m|] eqn:E'; [|solve_keeps].
  by apply effectful_within, (implementation_within r).
Qed.

(** C14: Whatever request arrives, the broker changes no file outside the configured targets and
    the backup directory, and every event it logs (command, write, backup) is one the policy
    permits. *)
Theorem handle_within_policy peer value now w :
  within w (handle policy backups_dir peer value now w).2.
Proof.
  enough (keeps within (handle policy backups_dir peer value now)) as H by apply H.
  pose proof (λ id op ph o t, keeps_no_effects_within _ (receipt_effects (Env:=Env) id op ph o t)).
  pose proof dispatch_within.
  unfold handle, _invalid_receipt, outcome_or, request_receipt. solve_keeps.
Qed.

(** ** Refusals and read-only phases *)

(** A request that does not validate, or whose peer is not allowed, has no effect, does not
    touch the ledger and is answered with status denied and effect state none. *)
Theorem refused_without_effect peer value now w :
  (∀ r, validate_request value (request_time now w) = Ok r →
    peer ∉ bp_allowed_peer_uids policy) →
  let w' := (handle policy backups_dir peer value now w).2 in
  no_effects w w' ∧ same_ledger w w' ∧
  ∀ receipt, (handle policy backups_dir peer value now w).1 = Ok receipt →
    get (u "status") receipt = VStr (u "denied") ∧
    get (u "effect_state") receipt = VStr (u "none").
Proof.
  intros Hr. rewrite handle_eq.
  destruct (validate_request value (request_time now w)) as [r|[code|o|cls]].
  - assert (mem peer (bp_allowed_peer_uids policy) = false) as -> by by apply mem_false, (Hr r).
    cbn. split_and!; [by destruct now..|]. by intros receipt [= <-].
  - unfold _invalid_receipt, mbind, ST_bind, lift. destruct (not_in _ _) as [b|e]; cbn.
    + split_and!; [by destruct now..|]. by intros receipt [= <-].
    + split_and!; [by destruct now..|]. by intros receipt.
  - split_and!; [by destruct now..|]. by intros receipt.
  - split_and!; [by destruct now..|]. by intros receipt.
Qed.

Lemma read_operation_files r m : read_operation (Env:=Env) policy r = Some m → keeps same_files m.
Proof.
  pose proof (read_file_files (Env:=Env)).
  assert (∀ t, keeps same_files (_status_fields (Env:=Env) policy t)).
  { intros t. unfold _status_fields, run_or_raise. solve_keeps. }
  assert (∀ t, keeps same_files (_inspect (Env:=Env) policy t)).
  { intros t. unfold _inspect, _run. solve_keeps. }
  unfold read_operation. repeat case_match; intros [= <-];
    unfold inspect, preview_patch, verify_patch, status, preview_restart, verify_restart,
      preview_update, verify_update; solve_keeps.
Qed.

Lemma validate_request_phase value now r :
  validate_request value now = Ok r → request_phase value = VStr (rq_phase r).
Proof.
  unfold validate_request. intros H. apply bind_Ok in H as (d & Hd%of_option_Ok%as_dict_Some & H).
  subst value. result_inv. by apply as_str_Some.
Qed.

Definition reads w w' : Prop := same_files w w' ∧ same_ledger w w'.
#[local] Instance reads_preorder : PreOrder reads.
Proof. split; [intros w; by split|]. intros w1 w2 w3 [] []. split; (etrans; eassumption). Qed.

Lemma dispatch_reads r :
  rq_phase r ≠ u "execute" → keeps reads (_dispatch (Env:=Env) policy backups_dir r).
Proof.
  intros Hp. unfold _dispatch. destruct (read_operation policy r) as [m|] eqn:E.
  - apply keeps_bind; [apply _| |intros; by apply keeps_ret, _]. intros w.
    split; [by eapply read_operation_files|by eapply read_operation_ledger].
  - unfold is_phase. destruct (str_eqb (rq_phase r) (u "execute")) eqn:Ep.
    + by apply str_eqb_true in Ep.
    + by apply keeps_raise, _.
Qed.

(** A request whose phase is not execute changes no file and not the ledger. *)
Lemma read_phases_change_nothing peer value now w :
  request_phase value ≠ VStr (u "execute") →
  same_files w (handle policy backups_dir peer value now w).2 ∧
  same_ledger w (handle policy backups_dir peer value now w).2.
Proof.
  intros Hp. enough (keeps reads (handle policy backups_dir peer value now)) as H by apply H.
  pose proof (λ id op ph o t (w : world Env),
    let H := receipt_world id op ph o t w in conj (proj1 (proj1 H)) (proj2 H)) as Hr.
  unfold handle. apply keeps_bind; [apply _|by destruct now|]. intros t.
  destruct (validate_request value t) as [r|[]] eqn:Hv; try by apply keeps_raise, _.
  - case_bool; [intros w'; apply Hr|]. apply keeps_bind; [apply _| |intros o w'; apply Hr].
    apply keeps_catch; [apply _| |intros e; by apply keeps_ret, _].
    apply dispatch_reads. intros E. apply validate_request_phase in Hv. congruence.
  - unfold _invalid_receipt. apply keeps_bind_lift; [apply _|]. intros b _ w'. apply Hr.
Qed.
End authority.
