(* ===== verification/BrokerAdmission.v ===== *)
(** * Host broker: what is admitted

    The properties of every request that passes [validate_request] and of every policy that
    passes [load_policy]. *)
From S2P Require Import Prelude PyText Regex Sha256 PyValue Json BrokerProtocol BrokerPolicy.
From S2P Require Import BrokerHost BrokerConfig BrokerService BrokerModule.
Local Open Scope Z_scope.

#[local] Arguments fullmatch : simpl never.
#[local] Arguments get : simpl never.

(** ** Requests *)

Definition effect_keys : list pystr :=
  [u "step_id"; u "binding_fingerprint"; u "precondition_fingerprint"].

Record request_ok (now : Z) (r : request) : Prop := {
  ro_id : fullmatch _REQUEST_ID_RE (rq_request_id r) = true;
  ro_operation : fullmatch _OPERATION_RE (rq_operation r) = true;
  ro_phase : rq_phase r ∈ _PHASES;
  ro_lifetime : rq_issued_at r < rq_expires_at r ≤ rq_issued_at r + MAX_REQUEST_LIFETIME_SECONDS;
  ro_current : rq_issued_at r - 30 ≤ now ≤ rq_expires_at r;
  ro_capability : get (u "capability") (rq_binding r) = VStr (rq_operation r);
  ro_payload : ∃ body, canonical_json (VDict (rq_payload r)) = Ok body ∧
    byte_len body ≤ MAX_PAYLOAD_BYTES ∧
    get (u "args_sha256") (rq_binding r) = VStr (fingerprint_of body);
  ro_execute : rq_phase r = u "execute" → ∀ k, k ∈ effect_keys →
    ∃ s, get k (rq_binding r) = VStr s;
  ro_read : rq_phase r ≠ u "execute" → ∀ k, k ∈ effect_keys → get k (rq_binding r) = VNone }.

Lemma none_or_matches_str re v : none_or_matches re v = true → is_none v = false → ∃ s, v = VStr s.
Proof. destruct v; try done. eauto. Qed.

Lemma is_none_true v : is_none v = true → v = VNone.
Proof. by destruct v. Qed.

Lemma binding_effect_strs b :
  _validate_binding b = Ok tt → (∀ k, k ∈ effect_keys → is_none (get k b) = false) →
  ∀ k, k ∈ effect_keys → ∃ s, get k b = VStr s.
Proof.
  unfold _validate_binding, effect_keys. intros H Hn k Hk. result_inv. specialize (Hn k Hk).
  repeat (apply elem_of_cons in Hk as [->|Hk]; [by eapply none_or_matches_str|]).
  by apply not_elem_of_nil in Hk.
Qed.

Lemma effect_present (phase : pystr) b :
  _validate_binding b = Ok tt →
  (if str_eqb phase (u "execute") then existsb is_none
     [get (u "step_id") b; get (u "binding_fingerprint") b; get (u "precondition_fingerprint") b]
   else existsb (λ v, negb (is_none v))
     [get (u "step_id") b; get (u "binding_fingerprint") b; get (u "precondition_fingerprint") b]) = false →
  (phase = u "execute" → ∀ k, k ∈ effect_keys → ∃ s, get k b = VStr s) ∧
  (phase ≠ u "execute" → ∀ k, k ∈ effect_keys → get k b = VNone).
Proof.
  intros Hb H. change [get (u "step_id") b; get (u "binding_fingerprint") b; get (u "precondition_fingerprint") b]
    with ((λ k, get k b) <$> effect_keys) in H.
  destruct (str_eqb phase (u "execute")) eqn:E.
  - apply str_eqb_true in E. split; [intros _|done]. apply binding_effect_strs; [done|].
    intros k Hk. rewrite existsb_false in H. apply H, list_elem_of_fmap. eauto.
  - apply str_eqb_false in E. split; [done|intros _]. intros k Hk. rewrite existsb_false in H.
    apply is_none_true, negb_false_iff, H, list_elem_of_fmap. eauto.
Qed.

(** A request that validates satisfies every bound of the protocol: identifiers, phase,
    payload size, lifetime within the maximum and not expired, binding fields. *)
Lemma validate_request_sound value now r : validate_request value now = Ok r → request_ok now r.
Proof.
  unfold validate_request. intros H. result_inv.
  repeat match goal with
  | H : matching_str _ _ _ = Ok _ |- _ => apply matching_str_Ok in H as [? ?]
  | H : (_ <=? _) = false |- _ => apply Z.leb_gt in H
  | H : (_ <? _) = false |- _ => apply Z.ltb_ge in H
  | H : py_eq _ (VStr _) = true |- _ => apply py_eq_str in H
  | H : false = negb _ |- _ => symmetry in H; apply negb_false_iff in H
  | H : as_str _ = Some _ |- _ => apply as_str_Some in H
  end.
  match goal with H : not_in _ _ = Ok false |- _ =>
    destruct (not_in_false _ _ H) as (ph & Eph & Hph) end.
  match goal with Hb : _validate_binding _ = Ok _, H : (if _ then _ else _) = false |- _ =>
    destruct (effect_present _ _ Hb H) as [Hexec Hread] end.
  split; simpl; try done; [congruence|lia|lia|].
  match goal with H : canonical_json (VDict ?p) = Ok ?b |- context [VDict ?p] => exists b end.
  split_and!; [done|done|]. unfold canonical_sha256 in *.
  match goal with H : canonical_json (VDict ?p) = Ok ?b, H' : fingerprint_of <$> canonical_json (VDict ?p) = Ok _ |- _ =>
    rewrite H in H'; injection H' as <- end. done.
Qed.

(** ** Policies *)

Record config_target_ok (id : pystr) (t : ConfigTarget) : Prop := {
  cto_id : ct_target_id t = id ∧ fullmatch _TARGET_RE id = true;
  cto_path : startswith (u "/") (ct_path t) = true ∧ 0%N ∉ ct_path t;
  cto_keys : ct_allowed_keys t ≠ [] ∧ NoDup (ct_allowed_keys t) ∧
             Forall (λ k, fullmatch _KEY_RE k = true) (ct_allowed_keys t);
  cto_max : 1024 ≤ ct_max_bytes t ≤ 4 * 1024 * 1024 }.

Record service_target_ok (id : pystr) (t : ServiceTarget) : Prop := {
  sto_id : st_target_id t = id ∧ fullmatch _TARGET_RE id = true;
  sto_unit : fullmatch _UNIT_RE (st_unit t) = true;
  sto_timeout : 1 ≤ st_timeout_seconds t ≤ 300 }.

Record module_target_ok (id : pystr) (t : ModuleTarget) : Prop := {
  mto_id : mt_target_id t = id ∧ fullmatch _TARGET_RE id = true;
  mto_module : fullmatch _MODULE_RE (mt_module t) = true;
  mto_database : fullmatch _DATABASE_RE (mt_database t) = true;
  mto_user : 0 < mt_run_as_uid t ∧ 0 < mt_run_as_gid t;
  mto_timeout : 60 ≤ mt_timeout_seconds t ≤ 540 }.

Lemma abs_path_Some limit v p :
  abs_path limit v = Some p → startswith (u "/") p = true ∧ (0%N ∉ p) ∧ Z.of_nat (length p) ≤ limit.
Proof.
  unfold abs_path. destruct v; try done. case_bool; [|done]. intros [= <-]. result_inv.
  split_and!; [done|by apply mem_false|by apply Z.leb_le].
Qed.
Lemma opt_match_Some r v s : opt_match r v = Some s → fullmatch r s = true.
Proof. unfold opt_match. destruct v; try done. case_bool; [|done]. by intros [= <-]. Qed.
Lemma int_between_Some lo hi v z : int_between lo hi v = Some z → lo ≤ z ≤ hi.
Proof.
  unfold int_between. destruct v; try done. case_bool; [|done]. intros [= <-]. result_inv.
  split; by apply Z.leb_le.
Qed.
Lemma list_of_Forall {A} (P : A → Prop) (f : pyval → option A) v l :
  (∀ v a, f v = Some a → P a) → list_of f v = Some l → Forall P l.
Proof.
  intros Hf. unfold list_of. destruct v; try done. intros H%mapM_Some.
  induction H; constructor; eauto.
Qed.

Lemma config_target_parsed id v t : config_target id v = Ok t → config_target_ok id t.
Proof.
  unfold config_target. intros H. result_inv.
  repeat match goal with
  | H : abs_path _ _ = Some _ |- _ => apply abs_path_Some in H as (? & ? & ?)
  | H : int_between _ _ _ = Some _ |- _ => apply int_between_Some in H
  | H : list_of _ _ = Some _ |- _ =>
      apply (list_of_Forall (λ k, fullmatch _KEY_RE k = true)) in H; [|apply opt_match_Some]
  | H : has_dup _ = false |- _ => apply has_dup_false in H
  | H : (_ =? 0)%nat = false |- _ => apply Nat.eqb_neq in H
  end.
  split; simpl; try done. split_and!; [|done|done]. by intros ->.
Qed.

Lemma service_target_parsed id v t : service_target id v = Ok t → service_target_ok id t.
Proof.
  unfold service_target. intros H. result_inv.
  repeat match goal with
  | H : opt_match _ _ = Some _ |- _ => apply opt_match_Some in H
  | H : int_between _ _ _ = Some _ |- _ => apply int_between_Some in H
  end. by split.
Qed.

Lemma positive_int_Some v z : positive_int v = Some z → 0 < z.
Proof.
  unfold positive_int. destruct v; try done. case_bool; [|done]. intros [= <-]. by apply Z.ltb_lt.
Qed.

Lemma module_target_parsed id v t : module_target id v = Ok t → module_target_ok id t.
Proof.
  unfold module_target. intros H. result_inv.
  repeat match goal with
  | H : opt_match _ _ = Some _ |- _ => apply opt_match_Some in H
  | H : int_between _ _ _ = Some _ |- _ => apply int_between_Some in H
  | H : positive_int _ = Some _ |- _ => apply positive_int_Some in H
  end. by split.
Qed.

Lemma elem_of_dict_set {A} k (v : A) d k' v' :
  (k', v') ∈ dict_set k v d → (k' = k ∧ v' = v) ∨ (k', v') ∈ d.
Proof.
  induction d as [|[k1 v1] d IH]; simpl; [set_solver|]. case_bool; set_solver.
Qed.

Lemma targets_all {T} (P : pystr → T → Prop) limit parse value l :
  (∀ id v t, parse id v = Ok t → P id t) → targets limit parse value = Ok l →
  ∀ id t, (id, t) ∈ l → P id t.
Proof.
  intros HP. unfold targets. intros H. result_inv.
  revert H. apply (foldR_inv (λ l, ∀ id t, (id, t) ∈ l → P id t)); [by intros id t ?%not_elem_of_nil|].
  intros acc [k v] acc' _ Hacc Hstep id t Hin. result_inv. simpl in *.
  apply elem_of_dict_set in Hin as [[-> ->]|Hin]; [by eapply HP|by apply Hacc].
Qed.

(** A file that only its owner may change, and whether it may be run. *)
Definition safe_file (fs : filesystem) (uids : list Z) (path : pystr) : Prop :=
  ∃ f, os_stat fs path = Some f ∧ f_uid f ∈ uids ∧ others_write f = false.
Definition safe_executable (fs : filesystem) (uids : list Z) (path : pystr) : Prop :=
  ∃ f, os_stat fs path = Some f ∧ f_uid f ∈ uids ∧ others_write f = false ∧
       is_regular f = true ∧ any_exec f = true.

Record policy_ok (fs : filesystem) (euid : Z) (p : BrokerPolicy) : Prop := {
  pk_config : ∀ id t, (id, t) ∈ bp_config_targets p → config_target_ok id t;
  pk_service : ∀ id t, (id, t) ∈ bp_service_targets p → service_target_ok id t;
  pk_module : ∀ id t, (id, t) ∈ bp_module_targets p → module_target_ok id t;
  pk_tools : safe_executable fs [euid] (bp_systemctl_path p) ∧
             safe_executable fs [euid] (bp_systemd_run_path p);
  pk_files : ∀ id t, (id, t) ∈ bp_module_targets p →
    safe_executable fs [0; mt_run_as_uid t] (mt_odoo_python t) ∧
    safe_executable fs [0; mt_run_as_uid t] (mt_odoo_bin t) ∧
    safe_file fs [0; mt_run_as_uid t] (mt_config_path t) ∧
    Forall (safe_file fs [0; mt_run_as_uid t]) (mt_addons_path t) }.

Section files.
Context (fs : filesystem).

Lemma executable_safe euid path x :
  _validate_executable fs euid path = Ok x → safe_executable fs [euid] path.
Proof.
  unfold _validate_executable. intros H. result_inv. eexists. split_and!; [done| |done|done|done].
  apply list_elem_of_singleton. by apply Z.eqb_eq.
Qed.
Lemma target_executable_safe path uid x :
  _validate_target_executable fs path uid = Ok x → safe_executable fs [0; uid] path.
Proof.
  unfold _validate_target_executable, owned_by. intros H. result_inv. eexists.
  split_and!; [done|by apply mem_true|done|done|done].
Qed.
Lemma target_file_safe path uid x :
  _validate_target_file fs path uid = Ok x → safe_file fs [0; uid] path.
Proof.
  unfold _validate_target_file, owned_by. intros H. result_inv. eexists.
  split_and!; [done|by apply mem_true|done].
Qed.
Lemma target_directory_safe path uid x :
  _validate_target_directory fs path uid = Ok x → safe_file fs [0; uid] path.
Proof.
  unfold _validate_target_directory, owned_by. intros H. result_inv. eexists.
  split_and!; [done|by apply mem_true|done].
Qed.

(** A loop that only checks. *)
Lemma foldR_checks {A E} (f : A → result E unit) l x :
  foldR (λ _ a, f a) tt l = Ok x → ∀ a, a ∈ l → f a = Ok tt.
Proof.
  induction l as [|b l IH]; intros H a Ha; [by apply not_elem_of_nil in Ha|].
  simpl in H. result_inv. apply elem_of_cons in Ha as [->|Ha]; [done|by apply IH].
Qed.

(** A policy that loads comes from a root-owned file nobody else can write and names only
    distinct, absolute and safe targets. *)
Lemma load_policy_sound `{HI : Interpreter} euid path p : load_policy fs euid path = Ok p → policy_ok fs euid p.
Proof.
  unfold load_policy. intros H. result_inv.
  match goal with H : from_mapping _ = Ok _ |- _ => rename H into Hmap end.
  repeat match goal with H : _validate_executable _ _ _ = Ok _ |- _ => apply executable_safe in H end.
  unfold from_mapping in Hmap. result_inv. simpl in *.
  split; simpl; [..|done|].
  - by eapply targets_all; [apply config_target_parsed|].
  - by eapply targets_all; [apply service_target_parsed|].
  - by eapply targets_all; [apply module_target_parsed|].
  - intros id t Ht.
    match goal with H : foldR _ tt _ = Ok _ |- _ =>
      eapply (foldR_checks (λ kt, validate_module_files fs kt.2)) in H; [|done] end.
    unfold validate_module_files in *. simpl in *. result_inv.
    split_and!; [by eapply target_executable_safe|by eapply target_executable_safe
      |by eapply target_file_safe|].
    apply Forall_forall. intros a Ha. eapply target_directory_safe.
    by eapply (foldR_checks (λ q, _validate_target_directory fs q (mt_run_as_uid t))).
Qed.
End files.

(** * Host broker: correctness of the service and module operations

    What a restart or an update has done when it succeeds, and what it reports when it does
    not. *)
Local Open Scope Z_scope.

Lemma fingerprint_matches data : fullmatch _FINGERPRINT_RE (fingerprint_of data) = true.
Proof.
  apply fullmatch_prefix. exists (sha256_hexdigest data).
  rewrite length_sha256_hexdigest. split_and!; [done|lia..|apply sha256_hexdigest_chars].
Qed.

Lemma canonical_sha256_Ok v h :
  canonical_sha256 v = Ok h ↔ ∃ data, canonical_json v = Ok data ∧ h = fingerprint_of data.
Proof. unfold canonical_sha256. apply fmap_Ok. Qed.

Section facts.
Context {Env : Type} `{!Host Env} (policy : BrokerPolicy).
Implicit Types w : world Env.

(** The events a statement appended. *)
Definition appended (w w' : world Env) (events : list event) : Prop :=
  w_log w' = w_log w ++ events.

Lemma run_or_raise_log argv t e w :
  appended w (run_or_raise argv t e w).2 [EvRun argv].
Proof.
  unfold appended, run_or_raise, run_command, mbind, ST_bind.
  destruct (host_run _ _ _ _) as [[] env]; done.
Qed.

Lemma status_fields_log t w :
  appended w (_status_fields policy t w).2 [EvRun (status_argv policy t)].
Proof.
  unfold _status_fields. rewrite ST_bind_at.
  pose proof (run_or_raise_log (status_argv policy t) (Z.min 15 (st_timeout_seconds t))
    (operation_error (u "broker_service_status_timeout")) w) as H.
  destruct (run_or_raise _ _ _ w) as [[[rc out]|e] w1]; [|done].
  by rewrite !ST_bind_at; unfold lift; repeat case_match; simplify_eq.
Qed.

Lemma required_fingerprint_Ok v s : required_fingerprint v = Ok s → v = VStr s.
Proof. by intros [-> _]%matching_str_Ok. Qed.

Lemma run_or_raise_Ok argv t e w rc out w' :
  run_or_raise argv t e w = (Ok (rc, out), w') →
  host_run argv t None (w_env w) = (Completed rc out, w_env w') ∧ appended w w' [EvRun argv].
Proof.
  unfold appended, run_or_raise, run_command, mbind, ST_bind.
  by destruct (host_run _ _ _ _) as [[] env]; intros [= <- <- <-].
Qed.

(** ** Restarts *)

Lemma run_log_grows argv t i : keeps log_grows (run_command (Env:=Env) argv t i).
Proof.
  intros w. unfold run_command. destruct (host_run _ _ _ _). exists [EvRun argv]. done.
Qed.
#[local] Hint Resolve run_log_grows : keeps.

Lemma status_fields_Ok t w s fp w' :
  _status_fields policy t w = (Ok (s, fp), w') →
  appended w w' [EvRun (status_argv policy t)].
Proof. intros E. pose proof (status_fields_log t w) as H. by rewrite E in H. Qed.

Lemma appended_trans w1 w2 w3 l1 l2 :
  appended w1 w2 l1 → appended w2 w3 l2 → appended w1 w3 (l1 ++ l2).
Proof. unfold appended. intros -> ->. by rewrite app_assoc. Qed.

(** A restart that returns ran exactly status, restart, status; the state before it had the
    expected fingerprint, the state after it is active, and the outcome carries both
    fingerprints. *)
Theorem execute_restart_ok payload expected w o w' :
  execute_restart policy payload expected w = (Ok o, w') →
  ∃ t s0 before w1 w2 w3 out s after,
    service_target_of policy payload false = Ok t ∧
    _status_fields policy t w = (Ok (s0, before), w1) ∧ expected = VStr before ∧
    run_or_raise (restart_argv policy t) (st_timeout_seconds t)
      (restart_uncertain [(u "target", VStr (st_target_id t))] before None
         (u "broker_service_restart_timeout")) w1 = (Ok (0, out), w2) ∧
    _status_fields policy t w2 = (Ok (s, after), w3) ∧ w' = w3 ∧
    ss_active_state s = u "active" ∧
    appended w w' [EvRun (status_argv policy t); EvRun (restart_argv policy t);
                   EvRun (status_argv policy t)] ∧
    o_status o = u "ok" ∧ o_effect_state o = u "applied" ∧ o_summary o = short_status s ∧
    o_precondition_fingerprint o = Some before ∧ o_postcondition_fingerprint o = Some after.
Proof.
  unfold execute_restart. intros E. st_inv. case_match. st_inv. case_match. st_inv.
  case_match. st_inv. result_inv. simplify_eq.
  match goal with H : (if _ then _ else _) _ = _ |- _ => rename H into Hif end.
  case_bool; [st_inv; case_match; by st_inv|]. st_inv.
  repeat match goal with H : str_eqb _ _ = true |- _ => apply str_eqb_true in H end.
  match goal with H : negb _ = false |- _ => apply negb_false_iff, Z.eqb_eq in H end. subst.
  match goal with H : required_fingerprint _ = Ok _ |- _ => apply required_fingerprint_Ok in H as -> end.
  match goal with Hr : run_or_raise _ _ _ _ = _, H1 : _status_fields _ _ w = _,
    H2 : _status_fields _ _ ?w2 = (_, ?w3) |- _ =>
    pose proof (run_or_raise_Ok _ _ _ _ _ _ _ Hr) as [_ Hl2];
    pose proof (status_fields_Ok _ _ _ _ _ H1) as Hl1;
    pose proof (status_fields_Ok _ _ _ _ _ H2) as Hl3 end.
  eexists _, _, _, _, _, _, _, _, _. split_and!; try eassumption; try done.
  by apply (appended_trans _ _ _ _ _ (appended_trans _ _ _ _ _ Hl1 Hl2) Hl3).
Qed.

Lemma log_grows_appended w w' : log_grows w w' → ∃ events, appended w w' events.
Proof. intros [l Hl]. by exists l. Qed.

(** The restart command runs only when the state of the unit had the fingerprint the
    request expected, whatever the restart then returns or raises. *)
Lemma execute_restart_guarded payload expected w t :
  service_target_of policy payload false = Ok t →
  ∃ events, appended w (execute_restart policy payload expected w).2 events ∧
    (EvRun (restart_argv policy t) ∈ events →
     ∃ s before, (_status_fields policy t w).1 = Ok (s, before) ∧ expected = VStr before).
Proof.
  intros Ht. assert (keeps log_grows (execute_restart (Env:=Env) policy payload expected)) as Hg.
  { unfold execute_restart, _status_or_unknown, _status_fields, run_or_raise. solve_keeps. }
  specialize (Hg w). revert Hg. unfold execute_restart. rewrite ST_bind_lift, Ht, ST_bind_lift.
  destruct (required_fingerprint expected) as [e|] eqn:He.
  2:{ intros _. exists []. split; [by unfold appended; rewrite app_nil_r|by intros ?%not_elem_of_nil]. }
  rewrite ST_bind_at. pose proof (status_fields_log t w) as Hl.
  assert (EvRun (restart_argv policy t) ∉ [EvRun (status_argv policy t)]) as Hne.
  { by intros [=]%list_elem_of_singleton. }
  destruct (_status_fields policy t w) as [[[s before]|err] w1];
    [|intros _; eexists; split; [exact Hl|done]].
  rewrite ST_bind_lift. destruct (str_eqb before e) eqn:Heq; simpl;
    [|intros _; eexists; split; [exact Hl|done]].
  apply str_eqb_true in Heq as ->. apply required_fingerprint_Ok in He as ->.
  intros [events Hev]%log_grows_appended. exists events. split; [exact Hev|].
  intros _. by exists s, e.
Qed.

(** When the restart command succeeds and the following status query exits with an error,
    execute_restart raises an error whose outcome says status denied and effect state none,
    although the restart ran. *)
Theorem restart_applied_reported_denied payload w t s before w1 rc out e2 e3 :
  service_target_of policy payload false = Ok t →
  _status_fields policy t w = (Ok (s, before), w1) →
  fullmatch _FINGERPRINT_RE before = true →
  host_run (restart_argv policy t) (st_timeout_seconds t) None (w_env w1) = (Completed 0 out, e2) →
  host_run (status_argv policy t) (Z.min 15 (st_timeout_seconds t)) None e2 =
    (Completed rc out, e3) →
  rc ≠ 0 →
  let '(r, w') := execute_restart policy payload (VStr before) w in
  EvRun (restart_argv policy t) ∈ w_log w' ∧
  ∃ o, r = Err (BrokerOperationError o) ∧ o_status o = u "denied" ∧ o_effect_state o = u "none".
Proof.
  intros Ht Hs Hf Hrun Hstat Hrc. unfold execute_restart.
  rewrite ST_bind_lift, Ht, ST_bind_lift. unfold required_fingerprint, matching_str.
  rewrite Hf, ST_bind_at, Hs, ST_bind_lift.
  assert (str_eqb before before = true) as -> by by apply str_eqb_true. simpl raise_when. cbv iota beta.
  rewrite ST_bind_at. unfold run_or_raise at 1. rewrite ST_bind_at. unfold run_command at 1.
  rewrite Hrun. cbv iota beta. unfold mret at 1, ST_ret at 1. simpl negb. cbv iota.
  rewrite ST_bind_at. unfold mret at 1, ST_ret at 1. cbv iota beta.
  rewrite ST_bind_at. unfold _status_fields, run_or_raise, run_command. rewrite !ST_bind_at.
  cbn [w_env add_event set_env]. rewrite Hstat. unfold mret, ST_ret. cbv iota beta.
  rewrite ST_bind_lift. assert ((rc =? 0) = false) as -> by lia. simpl. split; [set_solver|by eexists].
Qed.

(** ** Module updates *)

Lemma run_Ok t argv timeout i w rc out w' :
  _run policy t argv timeout i w = (Ok (rc, out), w') →
  host_run (secured_argv policy t argv) timeout i (w_env w) = (Completed rc out, w_env w') ∧
  appended w w' [EvRun (secured_argv policy t argv)].
Proof.
  unfold appended, _run, run_command, mbind, ST_bind.
  by destruct (host_run _ _ _ _) as [[] env]; intros [= <- <- <-].
Qed.

Lemma inspect_Ok t w m fp w' :
  _inspect policy t w = (Ok (m, fp), w') →
  appended w w' [EvRun (secured_argv policy t (inspect_argv t))].
Proof.
  unfold _inspect. intros E. st_inv. case_match. st_inv.
  match goal with H : _run _ _ _ _ _ _ = _ |- _ => by apply run_Ok in H as [_ H] end.
Qed.

(** A module update that returns ran exactly inspect, update, inspect; the module is
    installed afterwards and its database version is the version of its source. *)
Lemma execute_update_ok payload database expected w o w' :
  execute_update policy payload database expected w = (Ok o, w') →
  ∃ t m0 before w1 w2 w3 out m after,
    module_target_of policy payload database false = Ok t ∧
    _inspect policy t w = (Ok (m0, before), w1) ∧ expected = VStr before ∧
    _run policy t (update_argv t) (mt_timeout_seconds t) None w1 = (Ok (0, out), w2) ∧
    _inspect policy t w2 = (Ok (m, after), w3) ∧ w' = w3 ∧
    ms_state m = u "installed" ∧ (∃ v, v ≠ [] ∧ ms_source_version m = Some v) ∧
    ms_database_version m = ms_source_version m ∧
    appended w w' [EvRun (secured_argv policy t (inspect_argv t));
                   EvRun (secured_argv policy t (update_argv t));
                   EvRun (secured_argv policy t (inspect_argv t))] ∧
    o_effect_state o = u "applied" ∧
    o_precondition_fingerprint o = Some before ∧ o_postcondition_fingerprint o = Some after.
Proof.
  unfold execute_update. intros E. st_inv. case_match. st_inv. case_match. st_inv.
  case_match. st_inv. result_inv. simplify_eq.
  match goal with H : module_current _ = true |- _ => unfold module_current in H end. result_inv.
  repeat match goal with H : str_eqb _ _ = true |- _ => apply str_eqb_true in H end.
  match goal with H : (_ =? 0) = true |- _ => apply Z.eqb_eq in H end. subst.
  match goal with H : required_fingerprint _ = Ok _ |- _ => apply required_fingerprint_Ok in H as -> end.
  match goal with Hr : _run _ _ _ _ _ _ = _, H1 : _inspect _ _ w = _,
    H2 : _inspect _ _ ?w2 = (_, ?w3) |- _ =>
    pose proof (run_Ok _ _ _ _ _ _ _ _ Hr) as [_ Hl2];
    pose proof (inspect_Ok _ _ _ _ _ H1) as Hl1;
    pose proof (inspect_Ok _ _ _ _ _ H2) as Hl3 end.
  match goal with H : context [ms_source_version ?m] |- _ =>
    destruct (ms_source_version m) as [[|c v]|] eqn:Hv; try done end.
  match goal with H : bool_decide _ = true |- _ => apply bool_decide_eq_true in H end.
  eexists _, _, _, _, _, _, _, _, _. split_and!; try eassumption; try done.
  - by exists (c :: v).
  - congruence.
  - by apply (appended_trans _ _ _ _ _ (appended_trans _ _ _ _ _ Hl1 Hl2) Hl3).
Qed.
End facts.
