(* ===== verification/BrokerExamples.v ===== *)
(** * Host broker: a concrete deployment

    One policy, one machine and one restart request, on which the theorems about the broker
    are exercised. *)
From S2P Require Import Prelude PyText Regex Sha256 PyValue Json BrokerProtocol BrokerPolicy.
From S2P Require Import BrokerHost BrokerConfig BrokerConfigText BrokerConfigFacts.
From S2P Require Import BrokerService BrokerModule BrokerLedger BrokerEngine BrokerServer.
From S2P Require Import BrokerAdmission BrokerEngineFacts BrokerReceipts.
Local Open Scope Z_scope.

Definition sample_config : ConfigTarget :=
  MkConfigTarget (u "odoo") (u "/etc/odoo.conf") [u "workers"] 4096.
Definition sample_service : ServiceTarget := MkServiceTarget (u "svc") (u "odoo.service") 60.
Definition sample_module : ModuleTarget :=
  MkModuleTarget (u "mod") (u "sale") (u "db") (u "/py") (u "/odoo-bin") (u "/etc/odoo.conf")
    [u "/addons"] 100 100 60.
Definition sample_policy : BrokerPolicy :=
  MkBrokerPolicy [1000] [(u "odoo", sample_config)] [(u "svc", sample_service)]
    [(u "mod", sample_module)] (u "/systemctl") (u "/systemd-run") None.

Definition newline : pystr := [10%N].

(** Commands print the state of a running unit and of an installed module. *)
Definition sample_output (argv : list pystr) : pystr :=
  if mem (u "show") argv then u "ActiveState=active" ++ newline ++ u "SubState=running" ++ newline
  else _INSPECT_PREFIX ++ default [] (json_dumps false (VDict
    [(u "module", VStr (u "sale")); (u "state", VStr (u "installed"));
     (u "database_version", VStr (u "1.0")); (u "source_version", VStr (u "1.0"))])).

#[export] Instance sample_host : Host unit := steady_host 100 sample_output.

Definition sample_file : file :=
  MkFile Regular 416 0 0 (default [] (utf8_encode (u "[options]" ++ newline ++ u "workers = 2" ++ newline))).
Definition sample_world : world unit := MkWorld {[ u "/etc/odoo.conf" := sample_file ]} ∅ tt 0 0 [].
Definition backups : pystr := u "/backups".

(** ** The operations *)

Definition service_payload : pydict := [(u "target", VStr (u "svc"))].
Definition patch_payload : pydict :=
  [(u "target", VStr (u "odoo")); (u "key", VStr (u "workers")); (u "value", VStr (u "4"))].
Definition module_payload : pydict := [(u "target", VStr (u "mod"))].

Definition service_before : pystr :=
  Eval vm_compute in
    (result_or (MkServiceStatus [] [] [] [] [] [], []) (_status_fields sample_policy sample_service sample_world).1).2.

Definition restarted : result exn OperationOutcome * world unit :=
  execute_restart sample_policy service_payload (VStr service_before) sample_world.
Definition no_outcome : OperationOutcome := MkOutcome [] [] [] None None [] None None.
Definition restart_outcome : OperationOutcome := Eval vm_compute in result_or no_outcome restarted.1.
Definition restart_world : world unit := Eval vm_compute in restarted.2.

Lemma execute_restart_ok_witness : o_effect_state restart_outcome = u "applied".
Proof.
  destruct (execute_restart_ok sample_policy service_payload (VStr service_before) sample_world
              restart_outcome restart_world) as (? & ? & ? & ? & ? & ? & ? & ? & ? & ? & ? & ? & ? & ? & ? & ? & ? & ? & H & _).
  - vm_compute. reflexivity.
  - exact H.
Defined.

Lemma execute_restart_guarded_witness :
  ∃ events, appended sample_world restarted.2 events ∧
    (EvRun (restart_argv sample_policy sample_service) ∈ events →
     ∃ s before, (_status_fields sample_policy sample_service sample_world).1 = Ok (s, before) ∧
       VStr service_before = VStr before).
Proof.
  refine (execute_restart_guarded sample_policy service_payload (VStr service_before) sample_world
            sample_service _).
  vm_compute. reflexivity.
Defined.

Definition flaky_world : world nat := MkWorld ∅ ∅ 0%nat 0 0 [].

(** A machine whose third command fails, the status query after the restart, and whose commands
    all print the same. *)
Definition flaky_host : Host nat := {|
  host_interpreter := 900%nat;
  host_run := λ _ _ _ n, (Completed (if (n =? 2)%nat then 1 else 0) (Some (sample_output [u "show"])), S n);
  host_clock := λ _, 100;
  host_fault := λ _, false;
  host_euid := 0;
  host_egid := 0;
  host_suffix := λ n, int_str (Z.of_nat n) |}.

Definition flaky_status : (service_status * pystr) * world nat :=
  Eval vm_compute in
    let '(r, w) := @_status_fields nat flaky_host sample_policy sample_service flaky_world in
    (result_or (MkServiceStatus [] [] [] [] [] [], []) r, w).

Lemma restart_applied_reported_denied_witness :
  let '(r, w') := @execute_restart nat flaky_host sample_policy service_payload
                    (VStr flaky_status.1.2) flaky_world in
  EvRun (restart_argv sample_policy sample_service) ∈ w_log w' ∧
  ∃ o, r = Err (BrokerOperationError o) ∧ o_status o = u "denied" ∧ o_effect_state o = u "none".
Proof.
  refine (@restart_applied_reported_denied nat flaky_host sample_policy service_payload flaky_world
            sample_service flaky_status.1.1 flaky_status.1.2 flaky_status.2 1
            (Some (sample_output [u "show"])) 2%nat 3%nat _ _ _ _ _ _);
    [vm_compute; reflexivity..|discriminate].
Defined.

Definition module_database : pystr :=
  Eval vm_compute in result_or [] (database_fingerprint_of (u "db")).
Definition module_before : pystr :=
  Eval vm_compute in
    (result_or (MkModuleState [] [] [] None None, []) (_inspect sample_policy sample_module sample_world).1).2.
Definition updated : result exn OperationOutcome * world unit :=
  execute_update sample_policy module_payload (VStr module_database) (VStr module_before) sample_world.
Definition update_outcome : OperationOutcome := Eval vm_compute in result_or no_outcome updated.1.
Definition update_world : world unit := Eval vm_compute in updated.2.

Lemma execute_update_ok_witness : o_effect_state update_outcome = u "applied".
Proof.
  destruct (execute_update_ok sample_policy module_payload (VStr module_database) (VStr module_before)
              sample_world update_outcome update_world)
    as (? & ? & ? & ? & ? & ? & ? & ? & ? & ? & ? & ? & ? & ? & ? & ? & ? & ? & ? & H & _).
  - vm_compute. reflexivity.
  - exact H.
Defined.

(** ** The configuration file *)

Definition config_before : pystr := Eval vm_compute in _fingerprint (f_data sample_file).
Definition patched : result exn OperationOutcome * world unit :=
  execute_patch sample_policy backups patch_payload (u "req:v1:" ++ replicate 32 97%N)
    (VStr config_before) sample_world.
Definition patch_outcome : OperationOutcome := Eval vm_compute in result_or no_outcome patched.1.
Definition patch_world : world unit := Eval vm_compute in patched.2.

Lemma execute_patch_ok_witness : o_status patch_outcome = u "ok".
Proof.
  destruct (execute_patch_ok sample_policy backups patch_payload (u "req:v1:" ++ replicate 32 97%N)
              (VStr config_before) sample_world patch_outcome patch_world)
    as (? & ? & ? & ? & ? & ? & ? & ? & ? & ? & ? & ? & ? & H & _).
  - vm_compute. reflexivity.
  - exact H.
Defined.

Lemma execute_patch_atomic_witness :
  patch_effect sample_config (u "workers") patch_payload (VStr config_before) sample_file sample_world
    patched.2.
Proof.
  refine (execute_patch_atomic sample_policy backups patch_payload (u "req:v1:" ++ replicate 32 97%N)
            (VStr config_before) sample_world sample_config (u "workers") sample_file _ _);
    vm_compute; reflexivity.
Defined.

(** ** Requests *)

Definition sample_binding (args expected : pystr) : pydict :=
  [(u "turn_id", VStr (u "turn-1")); (u "conversation_id", VNone); (u "odoo_uid", VInt 2);
   (u "database_fingerprint", VStr module_database);
   (u "capability", VStr (u "host.service.restart")); (u "step_id", VStr (u "step-1"));
   (u "args_sha256", VStr args); (u "binding_fingerprint", VStr module_database);
   (u "precondition_fingerprint", VStr expected)].

Definition service_args : pystr :=
  Eval vm_compute in result_or [] (canonical_sha256 (VDict service_payload)).

Definition sample_request : pyval :=
  VDict [(u "protocol_version", VInt 1); (u "request_id", VStr (u "req:v1:" ++ replicate 32 97%N));
         (u "operation", VStr (u "host.service.restart")); (u "phase", VStr (u "execute"));
         (u "issued_at", VInt 90); (u "expires_at", VInt 110);
         (u "binding", VDict (sample_binding service_args service_before));
         (u "payload", VDict service_payload)].

Definition accepted : request :=
  MkRequest (VInt 1) (u "req:v1:" ++ replicate 32 97%N) (u "host.service.restart") (u "execute") 90 110
    (sample_binding service_args service_before) service_payload.

Lemma sample_request_valid now w :
  request_time (Env := unit) now w = 100 → validate_request sample_request (request_time now w) = Ok accepted.
Proof. intros ->. vm_compute. reflexivity. Qed.

Definition handled : result exn pydict * world unit :=
  handle sample_policy backups 1000 sample_request (Some 100) sample_world.

Lemma handled_has_effect : ¬ no_effects sample_world handled.2.
Proof. intros [_ H]. apply (f_equal length) in H. vm_compute in H. discriminate. Qed.

Lemma effect_at_most_once_witness :
  no_effects handled.2 (handle sample_policy backups 1000 sample_request (Some 100) handled.2).2.
Proof.
  exact (effect_at_most_once sample_policy backups sample_world handled.2 1000 1000 sample_request
           sample_request (Some 100) (Some 100) accepted accepted
           (sample_request_valid (Some 100) sample_world eq_refl) eq_refl handled_has_effect
           (rtc_refl _ _) (sample_request_valid (Some 100) handled.2 eq_refl) eq_refl eq_refl).
Defined.

Lemma ledger_only_grows_witness :
  ledger_le sample_world (set_env tt (set_fs (λ _, ∅) sample_world)).
Proof.
  apply (ledger_only_grows sample_policy backups). apply rtc_once. constructor.
Defined.

Lemma handle_answers_witness :
  ∃ receipt w', handle sample_policy backups 1000 VNone (Some 100) sample_world = (Ok receipt, w') ∧
    receipt_shape receipt.
Proof. exact (handle_answers sample_policy backups 1000 VNone (Some 100) sample_world eq_refl). Defined.

Lemma handle_unhashable_phase_witness :
  (handle sample_policy backups 1000 (VDict [(u "phase", VList [])]) (Some 100) sample_world).1 =
    Err TypeError.
Proof.
  refine (handle_unhashable_phase sample_policy backups 1000 (VDict [(u "phase", VList [])]) (Some 100)
            sample_world _). reflexivity.
Defined.

Lemma replay_sha256_accepted : replay_sha256 accepted = Ok (result_or [] (replay_sha256 accepted)).
Proof.
  unfold replay_sha256, canonical_sha256. set (v := VDict _).
  assert (∃ b, canonical_json v = Ok b) as [b Hb] by (eexists; vm_compute; reflexivity).
  by rewrite Hb.
Qed.

Lemma first_execution_recorded_witness :
  ∃ w1 running receipt w' row,
    handled = (Ok receipt, w') ∧ no_effects sample_world w1 ∧
    w_ledger w1 !! rq_request_id accepted = Some running ∧
    row_state_ running = RowRunning ∧
    row_request_hash running = result_or [] (replay_sha256 accepted) ∧
    no_effects (execute_restart sample_policy service_payload (VStr service_before) w1).2 w' ∧
    w_ledger w' !! rq_request_id accepted = Some row ∧ recorded accepted running receipt row.
Proof.
  refine (first_execution_recorded sample_policy backups 1000 sample_request (Some 100) sample_world
            accepted (execute_restart sample_policy service_payload (VStr service_before)) _
            (sample_request_valid (Some 100) sample_world eq_refl) _ eq_refl eq_refl
            replay_sha256_accepted eq_refl eq_refl eq_refl).
  by left.
Defined.

(** The same request while its row says that it is running. *)
Definition running_world : world unit :=
  set_ledger <[rq_request_id accepted :=
    MkRow (result_or [] (replay_sha256 accepted)) (u "host.service.restart") RowRunning None 90]>
    sample_world.

Lemma running_known row : row_state_ row = RowRunning →
  known_reply row (row_request_hash row) = Ok (Plain uncertain_outcome).
Proof. intros H. unfold known_reply. rewrite (proj2 (str_eqb_true _ _) eq_refl), H. reflexivity. Qed.

Lemma known_request_reply_witness :
  ∃ receipt w', handle sample_policy backups 1000 sample_request (Some 100) running_world =
      (Ok receipt, w') ∧
    reports_outcome (Plain uncertain_outcome) receipt ∧ no_effects running_world w' ∧
    same_ledger running_world w'.
Proof.
  refine (known_request_reply sample_policy backups 1000 sample_request (Some 100) running_world
            accepted (execute_restart sample_policy service_payload (VStr service_before)) _ _ _
            (sample_request_valid (Some 100) running_world eq_refl) _ eq_refl eq_refl
            replay_sha256_accepted eq_refl (lookup_insert_eq _ _ _) _).
  - by left.
  - exact (running_known (MkRow _ _ RowRunning None 90) eq_refl).
Defined.

Lemma refused_without_effect_witness :
  let w' := (handle sample_policy backups 7 sample_request (Some 100) sample_world).2 in
  no_effects sample_world w' ∧ same_ledger sample_world w' ∧
  ∀ receipt, (handle sample_policy backups 7 sample_request (Some 100) sample_world).1 = Ok receipt →
    get (u "status") receipt = VStr (u "denied") ∧ get (u "effect_state") receipt = VStr (u "none").
Proof.
  refine (refused_without_effect sample_policy backups 7 sample_request (Some 100) sample_world _).
  intros r _ H. apply list_elem_of_singleton in H. discriminate.
Defined.

Lemma read_phases_change_nothing_witness :
  same_files sample_world (handle sample_policy backups 1000 VNone (Some 100) sample_world).2 ∧
  same_ledger sample_world (handle sample_policy backups 1000 VNone (Some 100) sample_world).2.
Proof.
  refine (read_phases_change_nothing sample_policy backups 1000 VNone (Some 100) sample_world _).
  discriminate.
Defined.

Lemma validate_request_sound_witness : request_ok 100 accepted.
Proof. exact (validate_request_sound sample_request 100 accepted (sample_request_valid (Some 100) sample_world eq_refl)). Defined.

(** A policy file with one service. *)
Definition policy_value : pyval :=
  VDict [(u "protocol_version", VInt 1); (u "allowed_peer_uids", VList [VInt 1000]);
         (u "systemctl_path", VStr (u "/systemctl")); (u "systemd_run_path", VStr (u "/systemd-run"));
         (u "service_targets", VDict [(u "svc", VDict [(u "unit", VStr (u "odoo.service"))])])].
Definition policy_file : file :=
  MkFile Regular 384 0 0 (default [] (json_dumps false policy_value ≫= utf8_encode)).
Definition tool_file : file := MkFile Regular 493 0 0 [].
Definition policy_fs : filesystem :=
  {[ u "/policy.json" := policy_file; u "/systemctl" := tool_file; u "/systemd-run" := tool_file ]}.
Definition loaded_policy : BrokerPolicy :=
  MkBrokerPolicy [1000] [] [(u "svc", sample_service)] [] (u "/systemctl") (u "/systemd-run") None.

Lemma load_policy_sound_witness : policy_ok policy_fs 0 loaded_policy.
Proof. refine (load_policy_sound policy_fs 0 (u "/policy.json") loaded_policy _). vm_compute. reflexivity. Defined.

(** A request of a thousand nested lists, well below the limit of its length, makes json.loads
    raise an exception that the server does not catch. *)
Definition nested_request : pybytes :=
  default [] (utf8_encode (replicate 1000 91%N ++ replicate 1000 93%N)).
Example nested_request_stops_broker :
  Z.of_nat (length nested_request) <= MAX_REQUEST_BYTES ∧
  decode_request (I := host_interpreter) nested_request = Err (EOther (u "RecursionError")).
Proof. split; [vm_compute; discriminate|vm_compute; reflexivity]. Qed.
