(* ===== verification/TaskPlan.v ===== *)
(** * Agent: task plans

    [runtime/agent/task_plan.py]: the visible plan a provider proposes, parsed from decoded
    JSON into a bounded acyclic list of steps. *)
From S2P Require Import Prelude PyText PyValue.
Local Open Scope Z_scope.

Definition _ALLOWED_STATES : list pystr :=
  [u "pending"; u "in_progress"; u "completed"; u "blocked"; u "skipped"].
Definition _ALLOWED_REVISION_KINDS : list pystr := [u "initial"; u "progress"; u "replan"].
Definition _MAX_TASK_STEPS : Z := 12.

Inductive plan_exn : Type :=
| TaskPlanError (code : pystr)
| PlanTypeError.

Definition task_plan_invalid : plan_exn := TaskPlanError (u "agent_task_plan_invalid").

Record TaskPlanStep := MkTaskPlanStep {
  ts_step_id : pystr;
  ts_title : pystr;
  ts_state : pystr;
  ts_depends_on : list pystr }.

Record TaskPlan := MkTaskPlan {
  tp_goal : pystr;
  tp_revision : Z;
  tp_steps : list TaskPlanStep;
  tp_revision_kind : pystr;
  tp_revision_summary : pystr }.

(** [self.revision_kind or (...)] *)
Definition effective_revision_kind (p : TaskPlan) : pystr :=
  match tp_revision_kind p with
  | [] => if tp_revision p =? 1 then u "initial" else u "progress"
  | kind => kind
  end.

Definition step_payload (s : TaskPlanStep) : pyval :=
  VDict [(u "step_id", VStr (ts_step_id s));
         (u "title", VStr (ts_title s));
         (u "state", VStr (ts_state s));
         (u "depends_on", VList (VStr <$> ts_depends_on s))].

Definition payload (p : TaskPlan) : pyval :=
  VDict [(u "goal", VStr (tp_goal p));
         (u "revision", VInt (tp_revision p));
         (u "revision_kind", VStr (effective_revision_kind p));
         (u "revision_summary", VStr (tp_revision_summary p));
         (u "steps", VList (step_payload <$> tp_steps p))].

Definition legacy_keys : list pystr := [u "goal"; u "revision"; u "steps"].
Definition current_keys : list pystr := legacy_keys ++ [u "revision_kind"; u "revision_summary"].
Definition step_keys : list pystr := [u "step_id"; u "title"; u "state"; u "depends_on"].

(** [lo <= len(s) <= hi] *)
Definition length_between (lo hi : Z) (s : pystr) : bool :=
  (lo <=? Z.of_nat (length s)) && (Z.of_nat (length s) <=? hi).

(** A string without NUL whose stripped length is in the range. *)
Definition text_ok (lo hi : Z) (v : pyval) : bool :=
  match v with VStr s => length_between lo hi (strip s) && negb (mem 0%N s) | _ => false end.

(** [v not in S], where an unhashable [v] raises *)
Definition outside (v : pyval) (ss : list pystr) : result plan_exn bool :=
  negb <$> of_option (in_str_set v ss) PlanTypeError.

(** The identifiers of [depends_on] when it is a list of known strings without repetition. *)
Definition dependencies (known : list pystr) (v : pyval) : option (list pystr) :=
  match v with
  | VList l =>
      ds ← mapM (λ x, match x with VStr s => if mem s known then Some s else None | _ => None end) l;
      if has_dup ds then None else Some ds
  | _ => None
  end.

(** One turn of the loop over [raw_steps], with the steps built so far. *)
Definition parse_step (acc : list TaskPlanStep) (v : pyval) : result plan_exn (list TaskPlanStep) :=
  let known := ts_step_id <$> acc in
  raw ← of_option (as_dict v) task_plan_invalid;
  raise_when (negb (has_keys raw step_keys)) task_plan_invalid;;
  step_id ← of_option (as_str (get (u "step_id") raw)) task_plan_invalid;
  raise_when (negb (length_between 1 128 step_id) || mem step_id known) task_plan_invalid;;
  title ← of_option (as_str (get (u "title") raw)) task_plan_invalid;
  raise_when (negb (text_ok 1 512 (VStr title))) task_plan_invalid;;
  raise_any [outside (get (u "state") raw) _ALLOWED_STATES] task_plan_invalid;;
  state ← of_option (as_str (get (u "state") raw)) task_plan_invalid;
  depends_on ← of_option (dependencies known (get (u "depends_on") raw)) task_plan_invalid;
  Ok (acc ++ [MkTaskPlanStep step_id (normalize_ws title) state depends_on]).

Definition parse_task_plan (value : pyval) : result plan_exn TaskPlan :=
  d ← of_option (as_dict value) task_plan_invalid;
  legacy ← (if has_keys d legacy_keys then Ok true
            else if has_keys d current_keys then Ok false
            else Err task_plan_invalid);
  let revision := get (u "revision") d in
  let revision_kind :=
    if legacy : bool then VStr (if eq_int revision 1 then u "initial" else u "progress")
    else get (u "revision_kind") d in
  let revision_summary := if legacy then VStr [] else get (u "revision_summary") d in
  goal ← of_option (as_str (get (u "goal") d)) task_plan_invalid;
  raise_when (negb (text_ok 1 1000 (VStr goal))) task_plan_invalid;;
  rev ← of_option (as_int revision) task_plan_invalid;
  raise_when (rev <? 1) task_plan_invalid;;
  raise_any [outside revision_kind _ALLOWED_REVISION_KINDS] task_plan_invalid;;
  kind ← of_option (as_str revision_kind) task_plan_invalid;
  summary ← of_option (as_str revision_summary) task_plan_invalid;
  raise_when (negb (text_ok 0 512 (VStr summary))) task_plan_invalid;;
  raw_steps ← of_option (as_list (get (u "steps") d)) task_plan_invalid;
  raise_when (negb ((1 <=? Z.of_nat (length raw_steps))
                    && (Z.of_nat (length raw_steps) <=? _MAX_TASK_STEPS))) task_plan_invalid;;
  raise_when ((rev =? 1) && negb (str_eqb kind (u "initial")))
    (TaskPlanError (u "agent_task_plan_revision_invalid"));;
  raise_when ((1 <? rev) && str_eqb kind (u "initial"))
    (TaskPlanError (u "agent_task_plan_revision_invalid"));;
  raise_when (str_eqb kind (u "replan") && bool_decide (strip summary = []))
    (TaskPlanError (u "agent_task_plan_replan_summary_required"));;
  steps ← foldR parse_step [] raw_steps;
  Ok (MkTaskPlan (normalize_ws goal) rev steps kind (normalize_ws summary)).

(** * Agent: correctness of task plans

    What a parsed plan satisfies, and that its payload parses back to it. *)
Local Close Scope Z_scope.
#[local] Arguments text_ok : simpl never.
#[local] Arguments length_between : simpl never.
#[local] Arguments outside : simpl never.
#[local] Arguments dependencies : simpl never.
#[local] Arguments normalize_ws : simpl never.

Lemma text_ok_normalize lo hi s :
  (lo <= 1)%Z → text_ok lo hi (VStr s) = true → text_ok lo hi (VStr (normalize_ws s)) = true.
Proof.
  unfold text_ok, length_between. rewrite strip_normalize, !andb_true_iff, !Z.leb_le, !negb_true_iff.
  intros Hlo [[H1 H2] H3]. rewrite mem_false in *. split_and!.
  - destruct (decide (normalize_ws s = [])) as [E|E]; [by rewrite E, <- (normalize_nil s)|].
    destruct (normalize_ws s); [done|simpl; lia].
  - pose proof (length_normalize (strip s)) as H. rewrite normalize_strip in H. lia.
  - intros [|]%in_normalize; done.
Qed.

(** ** Well-formed plans *)

Record step_wf (known : list pystr) (s : TaskPlanStep) : Prop := {
  sw_id : length_between 1 128 (ts_step_id s) = true;
  sw_new : ts_step_id s ∉ known;
  sw_title : text_ok 1 512 (VStr (ts_title s)) = true;
  sw_title_normal : normalize_ws (ts_title s) = ts_title s;
  sw_state : ts_state s ∈ _ALLOWED_STATES;
  sw_known : ∀ d, d ∈ ts_depends_on s → d ∈ known;
  sw_nodup : NoDup (ts_depends_on s) }.

(** Every step only depends on steps before it. *)
Definition steps_wf (steps : list TaskPlanStep) : Prop :=
  grows (λ pre s, step_wf (ts_step_id <$> pre) s) steps.

Record plan_wf (p : TaskPlan) : Prop := {
  pw_goal : text_ok 1 1000 (VStr (tp_goal p)) = true;
  pw_goal_normal : normalize_ws (tp_goal p) = tp_goal p;
  pw_revision : (1 <= tp_revision p)%Z;
  pw_kind : tp_revision_kind p ∈ _ALLOWED_REVISION_KINDS;
  pw_initial : tp_revision_kind p = u "initial" ↔ tp_revision p = 1%Z;
  pw_summary : text_ok 0 512 (VStr (tp_revision_summary p)) = true;
  pw_summary_normal : normalize_ws (tp_revision_summary p) = tp_revision_summary p;
  pw_replan : tp_revision_kind p = u "replan" → tp_revision_summary p ≠ [];
  pw_count : 1 ≤ length (tp_steps p) ≤ 12;
  pw_steps : steps_wf (tp_steps p) }.

Lemma outside_false v ss : outside v ss = Ok false ↔ ∃ s, v = VStr s ∧ s ∈ ss.
Proof.
  unfold outside. rewrite <- in_str_set_true. split.
  - intros (b & Hb%of_option_Ok & Hn)%fmap_Ok. by destruct b.
  - intros ->. done.
Qed.

Lemma dependencies_Some known l ds :
  dependencies known (VList l) = Some ds →
  l = VStr <$> ds ∧ (∀ d, d ∈ ds → d ∈ known) ∧ NoDup ds.
Proof.
  unfold dependencies. intros (ds' & Hm & Hd)%bind_Some.
  destruct (has_dup ds') eqn:E; [done|]. injection Hd as ->. apply has_dup_false in E.
  split_and!; [| |done]; clear E; apply mapM_Some in Hm.
  - induction Hm as [|v d l ds Hv _ IH]; [done|]. rewrite fmap_cons, <- IH.
    destruct v as [| | | |s| |]; try done. by destruct (mem s known); simplify_eq.
  - induction Hm as [|v d l ds Hv _ IH]; [by intros ? ?%not_elem_of_nil|].
    destruct v as [| | | |s| |]; try done. destruct (mem s known) eqn:E; [|done].
    injection Hv as ->. apply mem_true in E. intros d' [->|]%elem_of_cons; auto.
Qed.

Lemma dependencies_build known ds :
  (∀ d, d ∈ ds → d ∈ known) → NoDup ds → dependencies known (VList (VStr <$> ds)) = Some ds.
Proof.
  intros Hk Hd. unfold dependencies. apply bind_Some. exists ds.
  rewrite (proj2 (has_dup_false ds) Hd). split; [|done]. apply mapM_Some. clear Hd.
  induction ds as [|d ds IH]; simpl; constructor.
  - by rewrite (proj2 (mem_true d known)) by set_solver.
  - apply IH. set_solver.
Qed.

Lemma parse_step_Ok acc v acc' :
  parse_step acc v = Ok acc' → ∃ s, acc' = acc ++ [s] ∧ step_wf (ts_step_id <$> acc) s.
Proof.
  unfold parse_step. intros H. result_inv. eexists. split; [reflexivity|].
  match goal with H : dependencies _ ?v = Some _ |- _ =>
    destruct v as [| | | | |l|]; try done; apply dependencies_Some in H as (_ & ? & ?) end.
  match goal with H : outside _ _ = Ok false |- _ => apply outside_false in H as (st & Hst & ?) end.
  rewrite Hst in *. simplify_eq/=.
  split; simpl; rewrite ?negb_false_iff in *; try done.
  - by apply mem_false.
  - by apply text_ok_normalize.
  - apply normalize_idemp.
Qed.

Lemma parse_step_build acc s :
  step_wf (ts_step_id <$> acc) s → parse_step acc (step_payload s) = Ok (acc ++ [s]).
Proof.
  intros [Hid Hnew Ht Htn Hst Hk Hd]. unfold parse_step, step_payload.
  cbn [as_dict of_option mbind result_bind].
  replace (has_keys _ step_keys) with true by (vm_compute; reflexivity). simpl raise_when. simpl.
  rewrite Hid. rewrite (proj2 (mem_false _ _) Hnew). simpl.
  rewrite Ht. simpl.
  change (get (u "state") _) with (VStr (ts_state s)).
  change (get (u "depends_on") _) with (VList (VStr <$> ts_depends_on s)).
  rewrite (proj2 (outside_false (VStr (ts_state s)) _ALLOWED_STATES)) by eauto.
  simpl. rewrite dependencies_build by done. simpl. rewrite Htn. by destruct s.
Qed.

Lemma parsed_plan_wf value p : parse_task_plan value = Ok p → plan_wf p.
Proof.
  unfold parse_task_plan. intros H. result_inv.
  repeat match goal with H : as_str _ = Some _ |- _ => apply as_str_Some in H end.
  match goal with H : outside ?k _ = Ok false, H2 : ?k = VStr ?kind |- _ =>
    rewrite H2 in H; apply outside_false in H as (kind' & [= <-] & Hkind) end.
  match goal with H : foldR parse_step [] _ = Ok _ |- _ => eapply foldR_grows in H as [Hw Hl];
    [|exact parse_step_Ok|apply grows_nil] end.
  unfold _MAX_TASK_STEPS in *. simpl in Hl. split; simpl.
  - by apply text_ok_normalize.
  - apply normalize_idemp.
  - lia.
  - done.
  - match goal with H1 : (_ =? 1)%Z && _ = false, H2 : (1 <? _)%Z && _ = false |- _ =>
      rename H1 into Ha; rename H2 into Hb end.
    rewrite andb_false_iff, negb_false_iff, Z.eqb_neq, str_eqb_true in Ha.
    rewrite andb_false_iff, Z.ltb_ge, str_eqb_false in Hb. split; intros E; [|tauto].
    destruct Hb; [lia|done].
  - by apply text_ok_normalize.
  - apply normalize_idemp.
  - intros -> E%normalize_nil. rewrite E in *. by match goal with H : _ && bool_decide _ = false |- _ => vm_compute in H end.
  - lia.
  - done.
Qed.

(** A task plan that parses is bounded and normalised, has distinct step ids, and every
    dependency of a step is an earlier step. *)
Lemma parse_task_plan_wf value p :
  parse_task_plan value = Ok p →
  plan_wf p ∧ NoDup (ts_step_id <$> tp_steps p) ∧
  ∀ i s d, tp_steps p !! i = Some s → d ∈ ts_depends_on s →
    ∃ j t, j < i ∧ tp_steps p !! j = Some t ∧ ts_step_id t = d.
Proof.
  intros H%parsed_plan_wf. split_and!; [done|eapply grows_nodup, (pw_steps _ H); intros pre x; apply sw_new|].
  intros i s d Hi Hd. pose proof (pw_steps _ H i s Hi) as Hs.
  apply (sw_known _ _ Hs), list_elem_of_fmap in Hd as (t & -> & Ht).
  apply list_elem_of_lookup in Ht as [j Hj]. exists j, t.
  apply lookup_take_Some in Hj as [Hj Hl]. done.
Qed.

(** The payload of a well-formed task plan parses back to it. *)
Theorem parse_payload_roundtrip p : plan_wf p → parse_task_plan (payload p) = Ok p.
Proof.
  intros [Hg Hgn Hr Hk Hi Hs Hsn Hrp Hc Hw]. unfold parse_task_plan, payload.
  cbn [as_dict of_option mbind result_bind].
  replace (has_keys _ legacy_keys) with false by (vm_compute; reflexivity).
  replace (has_keys _ current_keys) with true by (vm_compute; reflexivity). cbv iota beta.
  match goal with |- context [get (u "goal") ?d] =>
    change (get (u "goal") d) with (VStr (tp_goal p));
    change (get (u "revision") d) with (VInt (tp_revision p));
    change (get (u "revision_kind") d) with (VStr (effective_revision_kind p));
    change (get (u "revision_summary") d) with (VStr (tp_revision_summary p));
    change (get (u "steps") d) with (VList (step_payload <$> tp_steps p)) end.
  assert (effective_revision_kind p = tp_revision_kind p) as ->.
  { unfold effective_revision_kind. destruct (tp_revision_kind p); [|done].
    apply (bool_decide_pack _) in Hk. by vm_compute in Hk. }
  cbn [as_str as_int as_list of_option mbind result_bind]. rewrite Hg. simpl.
  assert ((tp_revision p <? 1)%Z = false) as -> by lia. simpl.
  rewrite (proj2 (outside_false (VStr (tp_revision_kind p)) _ALLOWED_REVISION_KINDS)) by eauto. simpl.
  rewrite Hs, length_fmap. unfold _MAX_TASK_STEPS. simpl negb.
  assert ((1 <=? Z.of_nat (length (tp_steps p)))%Z = true) as -> by lia.
  assert ((Z.of_nat (length (tp_steps p)) <=? 12)%Z = true) as -> by lia. simpl.
  assert ((tp_revision p =? 1)%Z && negb (str_eqb (tp_revision_kind p) (u "initial")) = false) as ->.
  { destruct (Z.eqb_spec (tp_revision p) 1) as [E|]; [|done].
    by rewrite (proj2 (str_eqb_true _ _) (proj2 Hi E)). }
  assert ((1 <? tp_revision p)%Z && str_eqb (tp_revision_kind p) (u "initial") = false) as ->.
  { destruct (str_eqb _ _) eqn:E; [|by rewrite andb_false_r]. apply str_eqb_true, Hi in E.
    by rewrite E. }
  assert (str_eqb (tp_revision_kind p) (u "replan") &&
    bool_decide (strip (tp_revision_summary p) = []) = false) as ->.
  { destruct (str_eqb _ _) eqn:E; [|done]. apply str_eqb_true in E. apply bool_decide_eq_false.
    rewrite <- Hsn, strip_normalize, Hsn. by apply Hrp. }
  simpl. rewrite (foldR_rebuild _ parse_step step_payload []) by (apply parse_step_build || done). simpl. rewrite Hgn, Hsn. by destruct p.
Qed.

Definition sample_plan : pyval :=
  VDict [(u "goal", VStr (u "  Fix   the VAT rate ")); (u "revision", VInt 2);
    (u "revision_kind", VStr (u "replan")); (u "revision_summary", VStr (u "two  companies"));
    (u "steps", VList
      [VDict [(u "step_id", VStr (u "find")); (u "title", VStr (u "Find taxes"));
              (u "state", VStr (u "completed")); (u "depends_on", VList [])];
       VDict [(u "step_id", VStr (u "fix")); (u "title", VStr (u "Fix  taxes"));
              (u "state", VStr (u "pending")); (u "depends_on", VList [VStr (u "find")])]])].

Lemma parse_task_plan_wf_witness :
  ∃ p, parse_task_plan sample_plan = Ok p ∧ plan_wf p ∧ NoDup (ts_step_id <$> tp_steps p) ∧
  ∀ i s d, tp_steps p !! i = Some s → d ∈ ts_depends_on s →
    ∃ j t, j < i ∧ tp_steps p !! j = Some t ∧ ts_step_id t = d.
Proof.
  eexists. split; [vm_compute; reflexivity|].
  apply (parse_task_plan_wf sample_plan). vm_compute. reflexivity.
Defined.

Lemma parse_payload_roundtrip_witness :
  ∃ p, parse_task_plan sample_plan = Ok p ∧ parse_task_plan (payload p) = Ok p.
Proof.
  eexists. split; [vm_compute; reflexivity|].
  apply parse_payload_roundtrip, (parsed_plan_wf sample_plan). vm_compute. reflexivity.
Defined.
