(* ===== verification/Budgets.v ===== *)
(** * Agent: budgets

    [runtime/agent/budgets.py]: the bounds on one agent turn, resolved from the capability
    policy and the host's overrides, and what is left of them. *)
From S2P Require Import Prelude PyText PyValue.
Local Open Scope Z_scope.

Definition MAX_TRANSCRIPT_BYTES : Z := 128 * 1024.
Definition MAX_RESULT_BYTES : Z := 32 * 1024.
Definition _MAX_PROVIDER_DECISIONS : Z := 32.
Definition _MAX_CAPABILITY_CALLS : Z := 32.
Definition _MAX_CONSECUTIVE_FAILURES : Z := 8.
Definition _MAX_EFFECT_STEPS : Z := 5.

(** [AgentBudgetError], whose code is always the default. *)
Inductive budget_error : Type := AgentBudgetError.

Record SafetyBudget := MkSafetyBudget {
  max_effect_steps : Z;
  max_consecutive_failures : Z }.
Record ExplorationBudget := MkExplorationBudget {
  max_provider_decisions : Z;
  max_capability_calls : Z }.
Record ResponseBudget := MkResponseBudget {
  max_transcript_bytes : Z;
  max_result_bytes : Z }.

(** [CostBudget] and [LatencyBudget] hold one limit on provider decisions each. *)
Record AgentBudgetSet := MkAgentBudgetSet {
  safety : SafetyBudget;
  exploration : ExplorationBudget;
  cost_provider_decisions : Z;
  latency_provider_decisions : Z;
  response : ResponseBudget }.

Definition provider_decision_limit (b : AgentBudgetSet) : Z :=
  Z.min (max_provider_decisions (exploration b))
    (Z.min (cost_provider_decisions b) (latency_provider_decisions b)).

(** [type(v) is int and v >= 0] *)
Definition counter (v : pyval) : option Z :=
  match v with VInt z => if 0 <=? z then Some z else None | _ => None end.

(** The dict [remaining] returns. *)
Record remaining_budget := MkRemaining {
  rem_provider_decisions : Z;
  rem_capability_calls : Z;
  rem_correctable_failures : Z;
  rem_effect_steps : Z;
  rem_cost_provider_decisions : Z;
  rem_latency_provider_decisions : Z;
  rem_transcript_bytes : Z;
  rem_result_bytes : Z }.

Definition remaining (b : AgentBudgetSet)
    (provider_decisions capability_calls consecutive_failures transcript_bytes effect_steps : pyval)
    : result budget_error remaining_budget :=
  decisions ← of_option (counter provider_decisions) AgentBudgetError;
  calls ← of_option (counter capability_calls) AgentBudgetError;
  failures ← of_option (counter consecutive_failures) AgentBudgetError;
  bytes ← of_option (counter transcript_bytes) AgentBudgetError;
  steps ← of_option (counter effect_steps) AgentBudgetError;
  Ok (MkRemaining
        (Z.max 0 (provider_decision_limit b - decisions))
        (Z.max 0 (max_capability_calls (exploration b) - calls))
        (Z.max 0 (max_consecutive_failures (safety b) - failures))
        (Z.max 0 (max_effect_steps (safety b) - steps))
        (Z.max 0 (cost_provider_decisions b - decisions))
        (Z.max 0 (latency_provider_decisions b - decisions))
        (Z.max 0 (max_transcript_bytes (response b) - bytes))
        (max_result_bytes (response b))).

Definition _family (overrides : pydict) (name : pystr) : result budget_error pydict :=
  of_option (as_dict (get_default name (VDict []) overrides)) AgentBudgetError.

Definition _bounded_int (value : pyval) (minimum maximum : Z) : result budget_error Z :=
  match value with
  | VInt z => if (minimum <=? z) && (z <=? maximum) then Ok z else Err AgentBudgetError
  | _ => Err AgentBudgetError
  end.

(** [resolve_agent_budgets(context)], of the context's [metadata] *)
Definition resolve_agent_budgets (metadata : pydict) : result budget_error AgentBudgetSet :=
  let policy := default [] (as_dict (get_default (u "capability_policy") (VDict []) metadata)) in
  overrides ← of_option (as_dict (get_default (u "agent_budgets") (VDict []) metadata))
                AgentBudgetError;
  exploration ← _family overrides (u "exploration");
  safety ← _family overrides (u "safety");
  cost ← _family overrides (u "cost");
  latency ← _family overrides (u "latency");
  response ← _family overrides (u "response");
  provider_decisions ← _bounded_int
    (get_default (u "max_provider_decisions")
       (get_default (u "max_provider_decisions") (VInt 12) policy) exploration)
    1 _MAX_PROVIDER_DECISIONS;
  capability_calls ← _bounded_int
    (get_default (u "max_capability_calls")
       (get_default (u "max_capability_calls") (VInt 8) policy) exploration)
    1 _MAX_CAPABILITY_CALLS;
  failures ← _bounded_int
    (get_default (u "max_consecutive_failures")
       (get_default (u "max_consecutive_correctable_failures")
          (get_default (u "max_consecutive_failures") (VInt 3) policy) policy) safety)
    1 _MAX_CONSECUTIVE_FAILURES;
  policy_write_steps ← _bounded_int
    (get_default (u "max_write_steps_per_plan") (VInt _MAX_EFFECT_STEPS) policy) 0 12;
  requested_effect_steps ← _bounded_int
    (get_default (u "max_effect_steps")
       (get_default (u "max_effect_steps_per_plan") (VInt 1) policy) safety)
    1 _MAX_EFFECT_STEPS;
  cost_provider ← _bounded_int
    (get_default (u "max_provider_decisions") (VInt provider_decisions) cost)
    1 _MAX_PROVIDER_DECISIONS;
  latency_provider ← _bounded_int
    (get_default (u "max_provider_decisions") (VInt provider_decisions) latency)
    1 _MAX_PROVIDER_DECISIONS;
  transcript_bytes ← _bounded_int
    (get_default (u "max_transcript_bytes") (VInt MAX_TRANSCRIPT_BYTES) response)
    4096 MAX_TRANSCRIPT_BYTES;
  result_bytes ← _bounded_int
    (get_default (u "max_result_bytes") (VInt MAX_RESULT_BYTES) response)
    1024 MAX_RESULT_BYTES;
  raise_when (transcript_bytes <? result_bytes) AgentBudgetError;;
  Ok (MkAgentBudgetSet
        (MkSafetyBudget (Z.min requested_effect_steps policy_write_steps) failures)
        (MkExplorationBudget provider_decisions capability_calls)
        cost_provider latency_provider (MkResponseBudget transcript_bytes result_bytes)).

(** ** Correctness *)

Lemma bounded_int_Ok v lo hi z : _bounded_int v lo hi = Ok z → v = VInt z ∧ lo <= z <= hi.
Proof.
  unfold _bounded_int. destruct v; try done. case_bool; [|done]. intros [= ->].
  by apply andb_true_iff in Heqb as [?%Z.leb_le ?%Z.leb_le].
Qed.

Record budgets_wf (b : AgentBudgetSet) : Prop := {
  bw_effects : 0 <= max_effect_steps (safety b) <= 5;
  bw_failures : 1 <= max_consecutive_failures (safety b) <= 8;
  bw_decisions : 1 <= provider_decision_limit b <= 32;
  bw_calls : 1 <= max_capability_calls (exploration b) <= 32;
  bw_transcript : 4096 <= max_transcript_bytes (response b) <= 128 * 1024;
  bw_result : 1024 <= max_result_bytes (response b) <= 32 * 1024;
  bw_fits : max_result_bytes (response b) <= max_transcript_bytes (response b) }.

(** Resolved budgets are within the fixed ceilings. *)
Theorem resolve_bounded metadata b : resolve_agent_budgets metadata = Ok b → budgets_wf b.
Proof.
  unfold resolve_agent_budgets. intros H. result_inv.
  repeat match goal with H : _bounded_int _ _ _ = Ok _ |- _ => apply bounded_int_Ok in H as [_ H] end.
  unfold _MAX_PROVIDER_DECISIONS, _MAX_CAPABILITY_CALLS, _MAX_CONSECUTIVE_FAILURES,
    _MAX_EFFECT_STEPS, MAX_TRANSCRIPT_BYTES, MAX_RESULT_BYTES in *.
  split; unfold provider_decision_limit; simpl; lia.
Qed.

Definition sample_metadata : pydict :=
  [(u "capability_policy", VDict [(u "max_effect_steps_per_plan", VInt 3)]);
   (u "agent_budgets", VDict [(u "cost", VDict [(u "max_provider_decisions", VInt 4)])])].
Definition sample_budgets : AgentBudgetSet :=
  MkAgentBudgetSet (MkSafetyBudget 3 3) (MkExplorationBudget 12 8) 4 12
    (MkResponseBudget 131072 32768).

Lemma resolve_bounded_witness :
  resolve_agent_budgets sample_metadata = Ok sample_budgets ∧ budgets_wf sample_budgets.
Proof.
  assert (resolve_agent_budgets sample_metadata = Ok sample_budgets) as H
    by (vm_compute; reflexivity).
  split; [exact H|]. exact (resolve_bounded sample_metadata sample_budgets H).
Defined.

(** The remaining budgets are never negative, are zero exactly when the counter has reached
    its limit, and the decision budget bounds the cost and latency budgets. *)
Theorem remaining_exact b d c f t e r :
  budgets_wf b →
  remaining b (VInt d) (VInt c) (VInt f) (VInt t) (VInt e) = Ok r →
  0 <= d ∧ 0 <= c ∧ 0 <= f ∧ 0 <= t ∧ 0 <= e ∧
  rem_provider_decisions r = Z.max 0 (provider_decision_limit b - d) ∧
  (0 < rem_provider_decisions r ↔ d < provider_decision_limit b) ∧
  (0 < rem_capability_calls r ↔ c < max_capability_calls (exploration b)) ∧
  (0 < rem_correctable_failures r ↔ f < max_consecutive_failures (safety b)) ∧
  (0 < rem_effect_steps r ↔ e < max_effect_steps (safety b)) ∧
  rem_provider_decisions r <= rem_cost_provider_decisions r ∧
  rem_provider_decisions r <= rem_latency_provider_decisions r ∧
  rem_result_bytes r <= max_transcript_bytes (response b).
Proof.
  intros [] H. unfold remaining, counter in H.
  destruct (0 <=? d) eqn:?, (0 <=? c) eqn:?, (0 <=? f) eqn:?, (0 <=? t) eqn:?, (0 <=? e) eqn:?;
    simpl in H; try discriminate. injection H as <-. unfold provider_decision_limit. simpl.
  split_and!; lia.
Qed.

Lemma remaining_exact_witness :
  ∃ r, remaining sample_budgets (VInt 4) (VInt 2) (VInt 0) (VInt 1000) (VInt 1) = Ok r ∧
    0 <= rem_cost_provider_decisions r ∧ ¬ 0 < rem_provider_decisions r ∧
    rem_provider_decisions r <= rem_cost_provider_decisions r.
Proof.
  set (r := MkRemaining 0 6 3 2 0 8 130072 32768).
  assert (remaining sample_budgets (VInt 4) (VInt 2) (VInt 0) (VInt 1000) (VInt 1) = Ok r) as H
    by (vm_compute; reflexivity).
  assert (budgets_wf sample_budgets) as Hb by (split; vm_compute; split || idtac; discriminate).
  destruct (remaining_exact sample_budgets 4 2 0 1000 1 r Hb H)
    as (_ & _ & _ & _ & _ & _ & _ & _ & _ & _ & Hc & _).
  exists r. split; [exact H|]. split; [vm_compute; discriminate|]. split; [|exact Hc].
  vm_compute. discriminate.
Defined.
