(* ===== verification/EffectPlan.v ===== *)
(** * Agent: effect plans, their format

    [runtime/agent/plan.py]: the stored plan of typed capability steps, its validation in
    formats 1 to 3, and the recovery units the steps are grouped in. *)
From S2P Require Import Prelude PyText Regex Sha256 PyValue Json.
Local Open Scope Z_scope.

Definition _MAX_EFFECT_STEPS : Z := 5.
Definition _SEMANTIC_GROUP_RE : regex :=
  (RLit (u "semantic:v1:") · RRep (RSet hexdigits) 32 32)%regex.

(** What the service, its registry and its executor raise. *)
Inductive plan_exn : Type :=
| CapabilityPlanError (code : pystr)
| CapabilityPlanStepError (code step_id capability phase : pystr) (details : pydict)
| CapabilityError (code : pystr) (details : pydict)
| OtherError (cls : pystr).

Definition PyTypeError : plan_exn := OtherError (u "TypeError").
Definition PyValueError : plan_exn := OtherError (u "ValueError").
Definition plan_invalid : plan_exn := CapabilityPlanError (u "capability_plan_invalid").

(** ** Steps, units and plans *)

Inductive recovery_mode : Type := OdooAtomic | Segmented | External.
Inductive step_state : Type := Previewed | StepExecuting | StepCompleted | Skipped.
Inductive unit_state : Type := UnitPrepared | UnitExecuting | UnitCompleted.
Inductive plan_state : Type :=
| AwaitingConfirmation | Authorized | PlanExecuting | PlanCompleted | Rejected.

#[export] Instance recovery_mode_eq_dec : EqDecision recovery_mode.
Proof. solve_decision. Defined.
#[export] Instance step_state_eq_dec : EqDecision step_state.
Proof. solve_decision. Defined.
#[export] Instance unit_state_eq_dec : EqDecision unit_state.
Proof. solve_decision. Defined.
#[export] Instance plan_state_eq_dec : EqDecision plan_state.
Proof. solve_decision. Defined.

(** The strings of each enumeration. *)
Definition _RECOVERY_MODES : list (pystr * recovery_mode) :=
  [(u "odoo_atomic", OdooAtomic); (u "segmented", Segmented); (u "external", External)].
Definition step_states : list (pystr * step_state) :=
  [(u "previewed", Previewed); (u "executing", StepExecuting); (u "completed", StepCompleted);
   (u "skipped", Skipped)].
Definition unit_states : list (pystr * unit_state) :=
  [(u "prepared", UnitPrepared); (u "executing", UnitExecuting); (u "completed", UnitCompleted)].
Definition plan_states : list (pystr * plan_state) :=
  [(u "awaiting_confirmation", AwaitingConfirmation); (u "authorized", Authorized);
   (u "executing", PlanExecuting); (u "completed", PlanCompleted); (u "rejected", Rejected)].
Definition approvals : list (pystr * pystr) :=
  [(u "none", u "none"); (u "policy", u "policy"); (u "always", u "always")].
Definition _JOURNAL_CLASSES : list (pystr * pystr) :=
  (λ s, (s, s)) <$> [u "none"; u "reversible"; u "reconstructable"; u "irreversible";
                     u "external_or_unknown"].

(** [_TERMINAL_STEP_STATES] *)
Definition terminal (s : step_state) : bool :=
  match s with StepCompleted | Skipped => true | _ => false end.

Record semantic_groups := MkGroups { sg_prepare : pystr; sg_execute : pystr; sg_verify : pystr }.

Record step := MkStep {
  s_position : pyval;
  s_step_id : pystr;
  s_depends_on : list pystr;
  s_capability : pystr;
  s_version : pystr;
  s_arguments : pydict;
  s_title : pystr;
  s_risk : pyval;
  s_effect : pyval;
  s_approval : pystr;
  s_approval_required : bool;
  s_precondition_fingerprint : pyval;
  s_binding_fingerprint : pyval;
  s_preview : pydict;
  s_state : step_state;
  s_result : pyval;
  s_verification : pyval;
  s_semantic_groups : semantic_groups;
  s_recovery_unit_id : pystr;
  s_recovery_mode : recovery_mode;
  s_journal_classification : pystr }.

Record unit_ := MkUnit {
  u_unit_id : pystr;
  u_mode : recovery_mode;
  u_step_ids : list pystr;
  u_state : unit_state }.

Record plan := MkPlan {
  p_state : plan_state;
  p_requires_confirmation : bool;
  p_recovery_units : list unit_;
  p_steps : list step }.

(** Updates of one step and one unit. *)
Definition set_state (st : step_state) (s : step) : step :=
  MkStep (s_position s) (s_step_id s) (s_depends_on s) (s_capability s) (s_version s)
    (s_arguments s) (s_title s) (s_risk s) (s_effect s) (s_approval s) (s_approval_required s)
    (s_precondition_fingerprint s) (s_binding_fingerprint s) (s_preview s) st (s_result s)
    (s_verification s) (s_semantic_groups s) (s_recovery_unit_id s) (s_recovery_mode s)
    (s_journal_classification s).
Definition set_outcome (st : step_state) (result verification : pyval) (s : step) : step :=
  MkStep (s_position s) (s_step_id s) (s_depends_on s) (s_capability s) (s_version s)
    (s_arguments s) (s_title s) (s_risk s) (s_effect s) (s_approval s) (s_approval_required s)
    (s_precondition_fingerprint s) (s_binding_fingerprint s) (s_preview s) st result
    verification (s_semantic_groups s) (s_recovery_unit_id s) (s_recovery_mode s)
    (s_journal_classification s).
Definition set_recovery (unit_id : pystr) (mode : recovery_mode) (journal : pystr) (s : step)
    : step :=
  MkStep (s_position s) (s_step_id s) (s_depends_on s) (s_capability s) (s_version s)
    (s_arguments s) (s_title s) (s_risk s) (s_effect s) (s_approval s) (s_approval_required s)
    (s_precondition_fingerprint s) (s_binding_fingerprint s) (s_preview s) (s_state s)
    (s_result s) (s_verification s) (s_semantic_groups s) unit_id mode journal.
Definition set_unit_state (st : unit_state) (x : unit_) : unit_ :=
  MkUnit (u_unit_id x) (u_mode x) (u_step_ids x) st.

(** [f"step-{i + 1}"] and [f"unit-{i + 1}"] *)
Definition step_name (i : nat) : pystr := u "step-" ++ int_str (Z.of_nat i + 1).
Definition unit_name (i : nat) : pystr := u "unit-" ++ int_str (Z.of_nat i + 1).

(** ** Validation *)

(** The member of an enumeration that a value names. *)
Definition enum_of {A} (table : list (pystr * A)) (v : pyval) : result plan_exn A :=
  if hashable v then
    of_option (match v with VStr s => dict_lookup s table | _ => None end) plan_invalid
  else Err PyTypeError.

Definition step_keys_1 : list pystr :=
  [u "position"; u "capability"; u "version"; u "arguments"; u "title"; u "risk"; u "effect";
   u "approval"; u "approval_required"; u "precondition_fingerprint"; u "binding_fingerprint";
   u "preview"; u "state"; u "result"; u "verification"; u "semantic_groups"].
Definition step_keys_2 : list pystr := step_keys_1 ++ [u "step_id"; u "depends_on"].
Definition step_keys_3 : list pystr :=
  step_keys_2 ++ [u "recovery_unit_id"; u "recovery_mode"; u "journal_classification"].

(** [depends_on]: hashable items, without repetition, all of them known identifiers. *)
Definition parse_dependencies (known : list pystr) (v : pyval) : result plan_exn (list pystr) :=
  l ← of_option (as_list v) plan_invalid;
  raise_when (negb (forallb hashable l)) PyTypeError;;
  ids ← of_option (mapM as_str l) plan_invalid;
  raise_when (has_dup ids || negb (subset_of ids known)) plan_invalid;;
  Ok ids.

Definition group_key (d : pydict) (k : pystr) : option pystr :=
  match get k d with
  | VStr s => if fullmatch _SEMANTIC_GROUP_RE s then Some s else None
  | _ => None
  end.

Definition parse_groups (v : pyval) : result plan_exn semantic_groups :=
  d ← of_option (as_dict v) plan_invalid;
  raise_when (negb (has_keys d [u "prepare"; u "execute"; u "verify"])) plan_invalid;;
  p ← of_option (group_key d (u "prepare")) plan_invalid;
  e ← of_option (group_key d (u "execute")) plan_invalid;
  v ← of_option (group_key d (u "verify")) plan_invalid;
  raise_when (has_dup [p; e; v]) plan_invalid;;
  Ok (MkGroups p e v).

(** The turn of the loop over [raw_steps] at [position = length acc]. *)
Definition parse_plan_step (version : nat) (acc : list step) (raw_step : pyval)
    : result plan_exn (list step) :=
  let position := length acc in
  let known := s_step_id <$> acc in
  raw ← of_option (as_dict raw_step) plan_invalid;
  raise_when (negb (has_keys raw (match version with
                                  | 1%nat => step_keys_1
                                  | 2%nat => step_keys_2
                                  | _ => step_keys_3 end))) plan_invalid;;
  let legacy := (version =? 1)%nat in
  step_id ← (if legacy then Ok (step_name position)
             else of_option (as_str (get (u "step_id") raw)) plan_invalid);
  raise_when (negb ((1 <=? Z.of_nat (length step_id)) && (Z.of_nat (length step_id) <=? 256))
              || mem step_id known) plan_invalid;;
  depends_on ← parse_dependencies known
    (if legacy then VList (match last acc with Some s => [VStr (s_step_id s)] | None => [] end)
     else get (u "depends_on") raw);
  groups ← parse_groups (get (u "semantic_groups") raw);
  raise_when (negb (eq_int (get (u "position") raw) (Z.of_nat position))) plan_invalid;;
  capability ← of_option (as_str (get (u "capability") raw)) plan_invalid;
  version_ ← of_option (as_str (get (u "version") raw)) plan_invalid;
  arguments ← of_option (as_dict (get (u "arguments") raw)) plan_invalid;
  title ← of_option (as_str (get (u "title") raw)) plan_invalid;
  approval ← enum_of approvals (get (u "approval") raw);
  approval_required ← of_option (as_bool (get (u "approval_required") raw)) plan_invalid;
  preview ← of_option (as_dict (get (u "preview") raw)) plan_invalid;
  state ← enum_of step_states (get (u "state") raw);
  '(unit_id, mode, journal) ←
    (if (version =? 3)%nat then
       unit_id ← of_option (as_str (get (u "recovery_unit_id") raw)) plan_invalid;
       raise_when (bool_decide (unit_id = [])) plan_invalid;;
       mode ← enum_of _RECOVERY_MODES (get (u "recovery_mode") raw);
       journal ← enum_of _JOURNAL_CLASSES (get (u "journal_classification") raw);
       Ok (unit_id, mode, journal)
     else Ok (u "unit-1", OdooAtomic, u "external_or_unknown"));
  Ok (acc ++ [MkStep (get (u "position") raw) step_id depends_on capability version_ arguments
                title (get (u "risk") raw) (get (u "effect") raw) approval approval_required
                (get (u "precondition_fingerprint") raw) (get (u "binding_fingerprint") raw)
                preview state (get (u "result") raw) (get (u "verification") raw) groups
                unit_id mode journal]).

Definition find_step (steps : list step) (step_id : pystr) : option step :=
  snd <$> list_find (λ s, s_step_id s = step_id) steps.

(** The inner loop over one unit's [step_ids], with [seen_steps]. *)
Definition check_unit_step (steps : list step) (unit_id : pystr) (mode : recovery_mode)
    (seen : list pystr) (v : pyval) : result plan_exn (list pystr) :=
  step_id ← of_option (as_str v) plan_invalid;
  s ← of_option (find_step steps step_id) plan_invalid;
  raise_when (mem step_id seen || negb (str_eqb (s_recovery_unit_id s) unit_id)
              || negb (bool_decide (s_recovery_mode s = mode))) plan_invalid;;
  Ok (seen ++ [step_id]).

(** The turn of the loop over [raw_units], with [normalized] and [seen_steps]. *)
Definition parse_unit (steps : list step) (acc : list unit_ * list pystr) (raw_unit : pyval)
    : result plan_exn (list unit_ * list pystr) :=
  let '(units, seen) := acc in
  raw ← of_option (as_dict raw_unit) plan_invalid;
  raise_when (negb (has_keys raw [u "unit_id"; u "mode"; u "step_ids"; u "state"])) plan_invalid;;
  let unit_id := unit_name (length units) in
  raise_when (negb (py_eq (get (u "unit_id") raw) (VStr unit_id))) plan_invalid;;
  mode ← enum_of _RECOVERY_MODES (get (u "mode") raw);
  state ← enum_of unit_states (get (u "state") raw);
  step_ids ← of_option (as_list (get (u "step_ids") raw)) plan_invalid;
  raise_when (bool_decide (step_ids = [])) plan_invalid;;
  raise_when (negb (forallb hashable step_ids)) PyTypeError;;
  seen' ← foldR (check_unit_step steps unit_id mode) seen step_ids;
  raise_when (negb (bool_decide (mode = OdooAtomic)) && negb (length step_ids =? 1)%nat)
    plan_invalid;;
  Ok (units ++ [MkUnit unit_id mode (drop (length seen) seen') state], seen').

Definition _validated_recovery_units (raw_units : pyval) (steps : list step)
    : result plan_exn (list unit_) :=
  raw ← of_option (as_list raw_units) plan_invalid;
  raise_when (negb ((1 <=? length raw)%nat && (length raw <=? length steps)%nat)) plan_invalid;;
  '(units, seen) ← foldR (parse_unit steps) ([], []) raw;
  raise_when (negb (same_set seen (s_step_id <$> steps))) plan_invalid;;
  raise_when (negb (bool_decide (concat (u_step_ids <$> units) = s_step_id <$> steps)))
    plan_invalid;;
  Ok units.

(** [version not in {1, 2, 3}], and the format the value equals *)
Definition format_version (v : pyval) : result plan_exn nat :=
  if hashable v then
    if eq_int v 1 then Ok 1%nat else if eq_int v 2 then Ok 2%nat
    else if eq_int v 3 then Ok 3%nat else Err plan_invalid
  else Err PyTypeError.

Definition root_keys_1 : list pystr :=
  [u "format_version"; u "state"; u "requires_confirmation"; u "steps"].
Definition root_keys_3 : list pystr :=
  [u "format_version"; u "state"; u "requires_confirmation"; u "recovery_units"; u "steps"].

Definition is_completed (s : step) : bool := bool_decide (s_state s = StepCompleted).

Definition legacy_units (steps : list step) : list unit_ :=
  [MkUnit (u "unit-1") OdooAtomic (s_step_id <$> steps)
     (if forallb is_completed steps then UnitCompleted else UnitPrepared)].

Definition _validated_plan (payload : pyval) : result plan_exn plan :=
  d ← of_option (as_dict payload) plan_invalid;
  version ← format_version (get (u "format_version") d);
  requires_confirmation ← of_option (as_bool (get (u "requires_confirmation") d)) plan_invalid;
  raise_when (negb (has_keys d (if (version =? 3)%nat then root_keys_3 else root_keys_1)))
    plan_invalid;;
  state ← enum_of plan_states (get (u "state") d);
  raw_steps ← of_option (as_list (get (u "steps") d)) plan_invalid;
  raise_when (negb ((1 <=? length raw_steps)%nat
                    && (Z.of_nat (length raw_steps) <=? _MAX_EFFECT_STEPS))) plan_invalid;;
  steps ← foldR (parse_plan_step version) [] raw_steps;
  units ← (if (version =? 3)%nat then _validated_recovery_units (get (u "recovery_units") d) steps
           else Ok (legacy_units steps));
  Ok (MkPlan state requires_confirmation units steps).

(** ** The stored form *)

Definition name_of {A} `{EqDecision A} (table : list (pystr * A)) (a : A) : pyval :=
  VStr (match list_find (λ x, x.2 = a) table with Some (_, (s, _)) => s | None => [] end).

Definition groups_payload (g : semantic_groups) : pyval :=
  VDict [(u "prepare", VStr (sg_prepare g)); (u "execute", VStr (sg_execute g));
         (u "verify", VStr (sg_verify g))].

Definition step_payload (s : step) : pyval :=
  VDict [(u "position", s_position s);
         (u "step_id", VStr (s_step_id s));
         (u "depends_on", VList (VStr <$> s_depends_on s));
         (u "capability", VStr (s_capability s));
         (u "version", VStr (s_version s));
         (u "arguments", VDict (s_arguments s));
         (u "title", VStr (s_title s));
         (u "risk", s_risk s);
         (u "effect", s_effect s);
         (u "approval", VStr (s_approval s));
         (u "approval_required", VBool (s_approval_required s));
         (u "precondition_fingerprint", s_precondition_fingerprint s);
         (u "binding_fingerprint", s_binding_fingerprint s);
         (u "preview", VDict (s_preview s));
         (u "state", name_of step_states (s_state s));
         (u "result", s_result s);
         (u "verification", s_verification s);
         (u "semantic_groups", groups_payload (s_semantic_groups s));
         (u "recovery_unit_id", VStr (s_recovery_unit_id s));
         (u "recovery_mode", name_of _RECOVERY_MODES (s_recovery_mode s));
         (u "journal_classification", VStr (s_journal_classification s))].

Definition unit_payload (x : unit_) : pyval :=
  VDict [(u "unit_id", VStr (u_unit_id x));
         (u "mode", name_of _RECOVERY_MODES (u_mode x));
         (u "step_ids", VList (VStr <$> u_step_ids x));
         (u "state", name_of unit_states (u_state x))].

(** The dict that [prepare] returns and [_execution_snapshot] copies. *)
Definition plan_payload (p : plan) : pyval :=
  VDict [(u "format_version", VInt 3);
         (u "state", name_of plan_states (p_state p));
         (u "requires_confirmation", VBool (p_requires_confirmation p));
         (u "recovery_units", VList (unit_payload <$> p_recovery_units p));
         (u "steps", VList (step_payload <$> p_steps p))].

Definition _execution_snapshot (p : plan) (steps : list step) (recovery_units : list unit_)
    (state : plan_state) : plan :=
  MkPlan state (p_requires_confirmation p) recovery_units steps.

(** ** Recovery units *)

(** The turn of the loop of [_assign_recovery_units]: the units and steps built so far. *)
Definition assign_unit (acc : list unit_ * list step) (s : step) : list unit_ * list step :=
  let '(units, steps) := acc in
  let mode := s_recovery_mode s in
  match last units with
  | Some x =>
      if bool_decide (mode = OdooAtomic) && bool_decide (u_mode x = OdooAtomic) then
        (removelast units ++ [MkUnit (u_unit_id x) (u_mode x) (u_step_ids x ++ [s_step_id s])
                                (u_state x)],
         steps ++ [set_recovery (u_unit_id x) mode (s_journal_classification s) s])
      else
        (units ++ [MkUnit (unit_name (length units)) mode [s_step_id s] UnitPrepared],
         steps ++ [set_recovery (unit_name (length units)) mode (s_journal_classification s) s])
  | None =>
      ([MkUnit (unit_name 0) mode [s_step_id s] UnitPrepared],
       steps ++ [set_recovery (unit_name 0) mode (s_journal_classification s) s])
  end.

Definition _assign_recovery_units (steps : list step) : list unit_ * list step :=
  foldl assign_unit ([], []) steps.

Definition _step_index (steps : list step) (step_id : pystr) : result plan_exn nat :=
  of_option (fst <$> list_find (λ s, s_step_id s = step_id) steps) plan_invalid.

(** ** Fingerprints *)

(** [_canonical_arguments] *)
Definition _canonical_arguments (arguments : pydict) : result plan_exn pystr :=
  of_option (json_dumps false (VDict arguments)) plan_invalid.

Definition _binding_fingerprint (name version : pystr) (arguments : pydict) (precondition : pyval)
    : result plan_exn pystr :=
  body ← of_option (json_dumps false
           (VDict [(u "name", VStr name); (u "version", VStr version);
                   (u "arguments", VDict arguments); (u "precondition", precondition)])) PyValueError;
  data ← of_option (utf8_encode body) (OtherError (u "UnicodeEncodeError"));
  Ok (u "sha256:" ++ sha256_hexdigest data).
