(* ===== verification/EffectPlanFacts.v ===== *)
(** * Agent: correctness of the plan format

    What a validated plan satisfies, that the stored form validates back to the plan, and that
    the recovery units a plan is given are the ones validation accepts. *)
From S2P Require Import Prelude PyText Regex Sha256 PyValue Json EffectPlan.
Local Open Scope Z_scope.

#[local] Arguments fullmatch : simpl never.
#[local] Arguments eq_int : simpl never.
#[local] Arguments find_step : simpl never.

(** ** Well-formed plans *)

Definition group_ok (s : pystr) : Prop := fullmatch _SEMANTIC_GROUP_RE s = true.

Record groups_ok (g : semantic_groups) : Prop := {
  go_prepare : group_ok (sg_prepare g);
  go_execute : group_ok (sg_execute g);
  go_verify : group_ok (sg_verify g);
  go_distinct : NoDup [sg_prepare g; sg_execute g; sg_verify g] }.

(** A step after the steps [pre]. *)
Record step_ok (pre : list step) (s : step) : Prop := {
  so_position : eq_int (s_position s) (Z.of_nat (length pre)) = true;
  so_id : (1 ≤ length (s_step_id s) ≤ 256)%nat;
  so_new : s_step_id s ∉ s_step_id <$> pre;
  so_depends : ∀ d, d ∈ s_depends_on s → d ∈ s_step_id <$> pre;
  so_depends_once : NoDup (s_depends_on s);
  so_groups : groups_ok (s_semantic_groups s);
  so_approval : dict_lookup (s_approval s) approvals = Some (s_approval s);
  so_unit : s_recovery_unit_id s ≠ [];
  so_journal : dict_lookup (s_journal_classification s) _JOURNAL_CLASSES =
                 Some (s_journal_classification s) }.

(** A unit after the units [pre]: its steps all carry its name and mode. *)
Record unit_ok (steps : list step) (pre : list unit_) (x : unit_) : Prop := {
  uo_id : u_unit_id x = unit_name (length pre);
  uo_steps : u_step_ids x ≠ [];
  uo_single : u_mode x ≠ OdooAtomic → length (u_step_ids x) = 1%nat;
  uo_bound : ∀ s, s ∈ steps → s_step_id s ∈ u_step_ids x →
               s_recovery_unit_id s = u_unit_id x ∧ s_recovery_mode s = u_mode x }.

Record plan_ok (p : plan) : Prop := {
  po_count : (1 ≤ length (p_steps p) ≤ 5)%nat;
  po_steps : grows step_ok (p_steps p);
  po_units : grows (unit_ok (p_steps p)) (p_recovery_units p);
  po_partition : concat (u_step_ids <$> p_recovery_units p) = s_step_id <$> p_steps p }.

Lemma steps_nodup steps : grows step_ok steps → NoDup (s_step_id <$> steps).
Proof. apply grows_nodup. intros pre x. apply so_new. Qed.

(** ** Enumerations *)

Lemma enum_of_Ok {A} (table : list (pystr * A)) v a :
  enum_of table v = Ok a → ∃ s, v = VStr s ∧ dict_lookup s table = Some a.
Proof.
  unfold enum_of. case_bool; [|done]. intros H%of_option_Ok. destruct v; try done. eauto.
Qed.

(** Every member of an enumeration is read back from its name. *)
Lemma enum_of_name {A} `{EqDecision A} (table : list (pystr * A)) a :
  enum_of table (name_of table a) = Ok a ↔
  dict_lookup (match list_find (λ x, x.2 = a) table with Some (_, (s, _)) => s | None => [] end)
    table = Some a.
Proof. unfold enum_of, name_of. simpl. apply of_option_Ok. Qed.
Lemma enum_mode m : enum_of _RECOVERY_MODES (name_of _RECOVERY_MODES m) = Ok m.
Proof. apply enum_of_name. by destruct m; vm_compute. Qed.
Lemma enum_step_state m : enum_of step_states (name_of step_states m) = Ok m.
Proof. apply enum_of_name. by destruct m; vm_compute. Qed.
Lemma enum_unit_state m : enum_of unit_states (name_of unit_states m) = Ok m.
Proof. apply enum_of_name. by destruct m; vm_compute. Qed.
Lemma enum_plan_state m : enum_of plan_states (name_of plan_states m) = Ok m.
Proof. apply enum_of_name. by destruct m; vm_compute. Qed.
Lemma enum_self (table : list (pystr * pystr)) s :
  dict_lookup s table = Some s → enum_of table (VStr s) = Ok s.
Proof. intros H. unfold enum_of. simpl. by rewrite H. Qed.

(** A table of strings that name themselves. *)
Lemma self_table (table : list (pystr * pystr)) s t :
  Forall (λ x, x.1 = x.2) table → dict_lookup s table = Some t → dict_lookup t table = Some t.
Proof.
  intros Hself H. assert (s = t) as <-; [|done]. apply dict_lookup_Some_in in H.
  by apply (proj1 (Forall_forall _ _) Hself) in H.
Qed.

(** ** Steps *)

Lemma mapM_as_str l ids : mapM as_str l = Some ids ↔ l = VStr <$> ids.
Proof.
  rewrite mapM_Some. split.
  - induction 1 as [|v s l ids Hv _ IH]; [done|]. apply as_str_Some in Hv as ->.
    rewrite fmap_cons. by f_equal.
  - intros ->. induction ids as [|s ids IH]; constructor; done.
Qed.

Lemma hashable_strs (ids : list pystr) : forallb hashable (VStr <$> ids) = true.
Proof. by induction ids. Qed.

Lemma parse_dependencies_Ok known v ids :
  parse_dependencies known v = Ok ids →
  v = VList (VStr <$> ids) ∧ NoDup ids ∧ ∀ d, d ∈ ids → d ∈ known.
Proof.
  unfold parse_dependencies. intros H. result_inv.
  match goal with H : mapM as_str _ = Some _ |- _ => apply mapM_as_str in H as -> end.
  match goal with H : as_list ?v = _ |- _ => destruct v; try done; simplify_eq/= end.
  split_and!; [done|by apply has_dup_false|by apply subset_of_true].
Qed.

Lemma parse_dependencies_build known ids :
  NoDup ids → (∀ d, d ∈ ids → d ∈ known) →
  parse_dependencies known (VList (VStr <$> ids)) = Ok ids.
Proof.
  intros Hd Hk. unfold parse_dependencies. simpl. rewrite hashable_strs. simpl.
  rewrite (proj2 (mapM_as_str _ ids) eq_refl). simpl.
  by rewrite (proj2 (has_dup_false ids) Hd), (proj2 (subset_of_true ids known) Hk).
Qed.

Lemma group_key_Some d k s : group_key d k = Some s → group_ok s.
Proof.
  unfold group_key, group_ok. destruct (get k d); try done. case_bool; [|done]. by intros [= <-].
Qed.

Lemma parse_groups_Ok v g : parse_groups v = Ok g → groups_ok g.
Proof.
  unfold parse_groups. intros H. result_inv.
  match goal with H : has_dup _ = false |- _ => apply has_dup_false in H end.
  split; simpl; try done; by eapply group_key_Some.
Qed.

Lemma parse_groups_build g : groups_ok g → parse_groups (groups_payload g) = Ok g.
Proof.
  intros [Hp He Hv Hd]. unfold parse_groups, groups_payload.
  cbn [as_dict of_option mbind result_bind].
  replace (has_keys _ _) with true by (vm_compute; reflexivity). simpl raise_when.
  unfold group_key. cbn [mbind result_bind].
  change (get (u "prepare") _) with (VStr (sg_prepare g)).
  change (get (u "execute") _) with (VStr (sg_execute g)).
  change (get (u "verify") _) with (VStr (sg_verify g)). cbv iota beta.
  rewrite Hp, He, Hv. simpl. rewrite (proj2 (has_dup_false _) Hd). by destruct g.
Qed.

Lemma approvals_self : Forall (λ x, x.1 = x.2) approvals.
Proof. repeat constructor. Qed.
Lemma journal_self : Forall (λ x, x.1 = x.2) _JOURNAL_CLASSES.
Proof. repeat constructor. Qed.

Lemma step_name_length i : (i < 5)%nat → (1 ≤ length (step_name i) ≤ 256)%nat.
Proof. intros Hi. do 5 (destruct i as [|i]; [vm_compute; lia|]). lia. Qed.

(** What the older formats give every step. *)
Definition legacy_step (s : step) : Prop :=
  s_recovery_unit_id s = u "unit-1" ∧ s_recovery_mode s = OdooAtomic.

Lemma parse_plan_step_Ok version acc v acc' :
  parse_plan_step version acc v = Ok acc' →
  ∃ s, acc' = acc ++ [s] ∧ (step_ok acc s ∧ (version ≠ 3%nat → legacy_step s)).
Proof.
  unfold parse_plan_step. intros H. apply bind_Ok in H as (raw & _ & H).
  apply bind_Ok in H as ([] & _ & H). apply bind_Ok in H as (step_id & _ & H).
  result_inv. match goal with x : (_ * _)%type |- _ => destruct x as [[unit_id mode] journal] end.
  injection H as <-. eexists. split; [reflexivity|].
  match goal with H : parse_dependencies _ _ = Ok _ |- _ => apply parse_dependencies_Ok in H as (_ & ? & ?) end.
  match goal with H : parse_groups _ = Ok _ |- _ => apply parse_groups_Ok in H end.
  match goal with H : enum_of approvals _ = Ok _ |- _ =>
    apply enum_of_Ok in H as (? & _ & H); apply self_table in H; [|apply approvals_self] end.
  match goal with H : mem _ _ = false |- _ => apply mem_false in H end.
  match goal with H : (if (version =? 3)%nat then _ else _) = _ |- _ => rename H into Hrec end.
  assert (unit_id ≠ [] ∧ dict_lookup journal _JOURNAL_CLASSES = Some journal ∧
    (version ≠ 3%nat → unit_id = u "unit-1" ∧ mode = OdooAtomic)) as (Hu & Hj & Hlegacy).
  { destruct (Nat.eqb_spec version 3).
    - result_inv. simplify_eq.
      match goal with H : enum_of _JOURNAL_CLASSES _ = Ok _ |- _ =>
        apply enum_of_Ok in H as (? & _ & H); apply self_table in H; [|apply journal_self] end.
      match goal with H : bool_decide _ = false |- _ => apply bool_decide_eq_false in H end. done.
    - by simplify_eq. }
  split; [|done]. split; simpl; try done. lia.
Qed.

Lemma parse_plan_step_build acc s :
  step_ok acc s → parse_plan_step 3 acc (step_payload s) = Ok (acc ++ [s]).
Proof.
  intros [Hpos Hid Hnew Hdep Hdep1 Hg Ha Hu Hj]. unfold parse_plan_step, step_payload.
  cbn [as_dict of_option mbind result_bind].
  replace (has_keys _ step_keys_3) with true by (vm_compute; reflexivity). simpl raise_when.
  match goal with |- context [get (u "step_id") ?d] =>
    change (get (u "step_id") d) with (VStr (s_step_id s));
    change (get (u "depends_on") d) with (VList (VStr <$> s_depends_on s));
    change (get (u "semantic_groups") d) with (groups_payload (s_semantic_groups s));
    change (get (u "position") d) with (s_position s);
    change (get (u "capability") d) with (VStr (s_capability s));
    change (get (u "version") d) with (VStr (s_version s));
    change (get (u "arguments") d) with (VDict (s_arguments s));
    change (get (u "title") d) with (VStr (s_title s));
    change (get (u "approval") d) with (VStr (s_approval s));
    change (get (u "approval_required") d) with (VBool (s_approval_required s));
    change (get (u "preview") d) with (VDict (s_preview s));
    change (get (u "state") d) with (name_of step_states (s_state s));
    change (get (u "recovery_unit_id") d) with (VStr (s_recovery_unit_id s));
    change (get (u "recovery_mode") d) with (name_of _RECOVERY_MODES (s_recovery_mode s));
    change (get (u "journal_classification") d) with (VStr (s_journal_classification s));
    change (get (u "risk") d) with (s_risk s); change (get (u "effect") d) with (s_effect s);
    change (get (u "precondition_fingerprint") d) with (s_precondition_fingerprint s);
    change (get (u "binding_fingerprint") d) with (s_binding_fingerprint s);
    change (get (u "result") d) with (s_result s);
    change (get (u "verification") d) with (s_verification s) end.
  cbn [Nat.eqb as_str as_dict as_bool of_option mbind result_bind].
  assert ((1 <=? Z.of_nat (length (s_step_id s))) && (Z.of_nat (length (s_step_id s)) <=? 256) = true)
    as -> by (apply andb_true_iff; rewrite !Z.leb_le; lia).
  rewrite (proj2 (mem_false _ _) Hnew). cbn [negb orb raise_when mbind result_bind].
  rewrite parse_dependencies_build by done. cbn [mbind result_bind].
  rewrite parse_groups_build by done. cbn [mbind result_bind].
  rewrite Hpos. cbn [negb raise_when mbind result_bind].
  rewrite (enum_self approvals) by done. cbn [mbind result_bind].
  rewrite enum_step_state. cbn [mbind result_bind].
  rewrite bool_decide_false by done. cbn [raise_when mbind result_bind].
  rewrite enum_mode. cbn [mbind result_bind]. rewrite (enum_self _JOURNAL_CLASSES) by done.
  cbn [mbind result_bind]. by destruct s.
Qed.

(** ** Units *)

Lemma find_step_Some steps id s : find_step steps id = Some s → s ∈ steps ∧ s_step_id s = id.
Proof.
  unfold find_step. intros ([i t] & Hf & ->)%fmap_Some. apply list_find_Some in Hf as (Hi & Ht & _).
  split; [|done]. by eapply list_elem_of_lookup_2.
Qed.

Lemma nodup_same_step steps s t :
  NoDup (s_step_id <$> steps) → s ∈ steps → t ∈ steps → s_step_id s = s_step_id t → s = t.
Proof.
  intros Hd [i Hi]%list_elem_of_lookup [j Hj]%list_elem_of_lookup E.
  assert (i = j) as ->; [|congruence]. eapply (NoDup_lookup (s_step_id <$> steps)); [done|..];
    rewrite list_lookup_fmap; [by rewrite Hi|rewrite Hj; simpl; congruence].
Qed.

Lemma find_step_in steps s :
  NoDup (s_step_id <$> steps) → s ∈ steps → find_step steps (s_step_id s) = Some s.
Proof.
  intros Hd Hs. destruct (find_step steps (s_step_id s)) as [t|] eqn:E.
  - apply find_step_Some in E as [Ht E]. f_equal. by eapply nodup_same_step.
  - unfold find_step in E. apply fmap_None, list_find_None in E.
    by apply (proj1 (Forall_forall _ _) E) in Hs.
Qed.

Definition bound_to (steps : list step) (unit_id : pystr) (mode : recovery_mode) (id : pystr) : Prop :=
  ∃ s, find_step steps id = Some s ∧ s_recovery_unit_id s = unit_id ∧ s_recovery_mode s = mode.

Lemma check_unit_steps_Ok steps unit_id mode l seen seen' :
  foldR (check_unit_step steps unit_id mode) seen l = Ok seen' →
  ∃ ids, l = VStr <$> ids ∧ seen' = seen ++ ids ∧ Forall (bound_to steps unit_id mode) ids.
Proof.
  revert seen. induction l as [|v l IH]; intros seen; simpl.
  - intros [= <-]. exists []. by rewrite app_nil_r.
  - intros (seen1 & H1 & (ids & -> & -> & Hids)%IH)%bind_Ok. unfold check_unit_step in H1. result_inv.
    match goal with H : as_str v = Some ?id |- _ => apply as_str_Some in H as ->; exists (id :: ids) end.
    rewrite <- app_assoc. split_and!; [done..|]. constructor; [|done].
    match goal with H : bool_decide _ = true |- _ => apply bool_decide_eq_true in H end.
    match goal with H : str_eqb _ _ = true |- _ => apply str_eqb_true in H end. by eexists.
Qed.

Lemma check_unit_steps_build steps unit_id mode seen ids :
  NoDup (seen ++ ids) → Forall (bound_to steps unit_id mode) ids →
  foldR (check_unit_step steps unit_id mode) seen (VStr <$> ids) = Ok (seen ++ ids).
Proof.
  intros Hd Hids. revert seen Hd. induction Hids as [|id ids (s & Hf & Hu & Hm) _ IH]; intros seen Hd; simpl.
  - by rewrite app_nil_r.
  - assert (check_unit_step steps unit_id mode seen (VStr id) = Ok (seen ++ [id])) as ->.
    { unfold check_unit_step. cbn [as_str of_option mbind result_bind]. rewrite Hf.
      cbn [of_option mbind result_bind].
      rewrite (proj2 (str_eqb_true _ _) Hu), bool_decide_true by done.
      rewrite (proj2 (mem_false id seen)); [done|]. apply NoDup_app in Hd as (_ & Hd & _).
      intros Hin. apply (Hd id Hin). by left. }
    rewrite cons_middle, app_assoc in Hd. rewrite (cons_middle id seen ids), app_assoc.
    by apply IH.
Qed.

(** The state of the loop over the units. *)
Definition units_inv (steps : list step) (acc : list unit_ * list pystr) : Prop :=
  grows (unit_ok steps) acc.1 ∧ acc.2 = concat (u_step_ids <$> acc.1).

Lemma parse_unit_Ok steps acc v acc' :
  NoDup (s_step_id <$> steps) → units_inv steps acc → parse_unit steps acc v = Ok acc' →
  units_inv steps acc'.
Proof.
  intros Hnd [Hg Hs] H. destruct acc as [units seen]. simpl in *. result_inv.
  match goal with H : foldR (check_unit_step _ _ _) _ _ = _ |- _ =>
    apply check_unit_steps_Ok in H as (ids & Hl & -> & Hids) end.
  split; simpl.
  - apply grows_snoc. split; [done|]. rewrite drop_app_length. split; simpl.
    + done.
    + intros ->. rewrite Hl in *. by match goal with H : bool_decide _ = false |- _ => vm_compute in H end.
    + intros Hm. rewrite bool_decide_false in * by done. simpl in *.
      match goal with H : negb (length _ =? 1)%nat = false |- _ => apply negb_false_iff, Nat.eqb_eq in H end.
      by rewrite Hl, length_fmap in *.
    + intros s Hs Hin. apply (proj1 (Forall_forall _ _) Hids) in Hin as (t & Hf & Hu & Hm).
      rewrite find_step_in in Hf by done. by simplify_eq.
  - rewrite fmap_app, concat_app, drop_app_length. simpl. by rewrite app_nil_r.
Qed.

Lemma parse_unit_build steps units x :
  NoDup (s_step_id <$> steps) → unit_ok steps units x →
  NoDup (concat (u_step_ids <$> units ++ [x])) → (∀ id, id ∈ u_step_ids x → id ∈ s_step_id <$> steps) →
  parse_unit steps (units, concat (u_step_ids <$> units)) (unit_payload x) =
  Ok (units ++ [x], concat (u_step_ids <$> units ++ [x])).
Proof.
  intros Hnd [Hid Hne Hsingle Hbound] Hdup Hin. unfold parse_unit, unit_payload.
  cbn [as_dict of_option mbind result_bind].
  replace (has_keys _ _) with true by (vm_compute; reflexivity). simpl raise_when.
  set (d := [_; _; _; _]).
  change (get (u "unit_id") d) with (VStr (u_unit_id x)).
  change (get (u "mode") d) with (name_of _RECOVERY_MODES (u_mode x)).
  change (get (u "step_ids") d) with (VList (VStr <$> u_step_ids x)).
  change (get (u "state") d) with (name_of unit_states (u_state x)). clear d.
  cbn [mbind result_bind]. rewrite <- Hid. cbn [py_eq].
  rewrite (proj2 (str_eqb_true (u_unit_id x) (u_unit_id x)) eq_refl). cbn [negb raise_when mbind result_bind].
  rewrite enum_mode, enum_unit_state. cbn [as_list of_option mbind result_bind].
  rewrite (bool_decide_false (VStr <$> u_step_ids x = [])) by (by destruct (u_step_ids x)). cbn [raise_when mbind result_bind].
  rewrite hashable_strs. cbn [negb raise_when mbind result_bind].
  rewrite fmap_app, concat_app in Hdup |- *. simpl in Hdup |- *. rewrite app_nil_r in Hdup |- *.
  rewrite check_unit_steps_build; [|done|].
  - cbn [mbind result_bind]. rewrite length_fmap, drop_app_length.
    assert (negb (bool_decide (u_mode x = OdooAtomic)) && negb (length (u_step_ids x) =? 1)%nat = false) as ->.
    { case_bool_decide as Hm; [done|]. by rewrite Hsingle. }
    by destruct x.
  - apply Forall_forall. intros id Hi. apply Hin in Hi as Hs.
    apply list_elem_of_fmap in Hs as (s & -> & Hs). exists s. rewrite find_step_in by done.
    split; [done|]. by apply Hbound.
Qed.

(** ** Plans *)

Lemma format_version_Ok v n : format_version v = Ok n → n = 1%nat ∨ n = 2%nat ∨ n = 3%nat.
Proof. unfold format_version. repeat case_bool; naive_solver. Qed.

Lemma grows_impl {A} (P Q : list A → A → Prop) l :
  (∀ pre x, P pre x → Q pre x) → grows P l → grows Q l.
Proof. intros HPQ H i x Hi. by apply HPQ, H. Qed.

Lemma legacy_units_ok steps :
  steps ≠ [] → Forall legacy_step steps → grows (unit_ok steps) (legacy_units steps).
Proof.
  intros Hne Hl. apply (grows_snoc _ []). split; [apply grows_nil|]. split; simpl.
  - vm_compute. reflexivity.
  - by destruct steps.
  - done.
  - intros s Hs _. by apply (proj1 (Forall_forall _ _) Hl).
Qed.

Lemma validated_units_ok v steps units :
  NoDup (s_step_id <$> steps) → _validated_recovery_units v steps = Ok units →
  grows (unit_ok steps) units ∧ concat (u_step_ids <$> units) = s_step_id <$> steps.
Proof.
  intros Hnd H. unfold _validated_recovery_units in H. result_inv.
  match goal with x : (_ * _)%type |- _ => destruct x as [units' seen] end. result_inv.
  match goal with H : foldR _ _ _ = _ |- _ =>
    apply (foldR_inv (units_inv steps)) in H as [Hg Hs] end.
  - split; [done|]. by match goal with H : bool_decide _ = true |- _ => apply bool_decide_eq_true in H end.
  - split; [apply grows_nil|done].
  - intros acc raw acc2 _. by apply parse_unit_Ok.
Qed.

Lemma validated_plan_wf payload p : _validated_plan payload = Ok p → plan_ok p.
Proof.
  unfold _validated_plan. intros H. result_inv. unfold _MAX_EFFECT_STEPS in *.
  match goal with H : foldR (parse_plan_step ?version) [] ?raw = Ok ?steps |- _ =>
    eapply foldR_grows in H as [Hg Hl]; [|apply parse_plan_step_Ok|apply grows_nil] end.
  match goal with H : (1 <=? _)%nat = true |- _ => apply Nat.leb_le in H end.
  rename x6 into steps, x7 into units. match goal with H : (if _ then _ else _) = Ok units |- _ => rename H into Hu end.
  assert (grows step_ok steps) as Hok by (eapply grows_impl, Hg; naive_solver).
  assert (grows (unit_ok steps) units ∧ concat (u_step_ids <$> units) = s_step_id <$> steps) as [Hug Hc].
  { destruct (Nat.eqb_spec x0 3) as [->|Hne].
    - by eapply validated_units_ok; [apply steps_nodup|].
    - injection Hu as <-. simpl. rewrite app_nil_r. split; [|done]. apply legacy_units_ok.
      + intros ->. simpl in Hl. lia.
      + apply Forall_lookup. intros i s Hi. by apply (Hg i s Hi). }
  split; simpl; try done. simpl in Hl. lia.
Qed.

Lemma units_build steps pre units :
  NoDup (s_step_id <$> steps) → grows (unit_ok steps) (pre ++ units) →
  NoDup (concat (u_step_ids <$> pre ++ units)) →
  (∀ id, id ∈ concat (u_step_ids <$> units) → id ∈ s_step_id <$> steps) →
  foldR (parse_unit steps) (pre, concat (u_step_ids <$> pre)) (unit_payload <$> units) =
  Ok (pre ++ units, concat (u_step_ids <$> pre ++ units)).
Proof.
  intros Hnd. revert pre. induction units as [|x units IH]; intros pre Hg Hd Hin.
  - simpl. by rewrite app_nil_r.
  - rewrite fmap_cons. cbn [foldR]. rewrite parse_unit_build; [|done|by eapply grows_middle| |].
    + cbn [mbind result_bind]. rewrite cons_middle, app_assoc in Hg, Hd. rewrite (cons_middle x pre units), app_assoc.
      apply IH; [done..|]. intros id Hid. apply Hin. simpl. apply elem_of_app. by right.
    + rewrite cons_middle, app_assoc, fmap_app, concat_app in Hd. by apply NoDup_app in Hd as [? _].
    + intros id Hid. apply Hin. simpl. apply elem_of_app. by left.
Qed.

Lemma units_count steps units :
  grows (unit_ok steps) units → (length units ≤ length (concat (u_step_ids <$> units)))%nat.
Proof.
  induction units as [|x units IH] using rev_ind; simpl; [lia|].
  intros [Hg Hx]%grows_snoc. rewrite fmap_app, concat_app, !length_app. simpl. rewrite app_nil_r.
  specialize (IH Hg). pose proof (uo_steps _ _ _ Hx). destruct (u_step_ids x); [done|simpl; lia].
Qed.

(** The stored units of a partition of the steps are accepted. *)
Lemma validated_units_build steps units :
  NoDup (s_step_id <$> steps) → steps ≠ [] → grows (unit_ok steps) units →
  concat (u_step_ids <$> units) = s_step_id <$> steps →
  _validated_recovery_units (VList (unit_payload <$> units)) steps = Ok units.
Proof.
  intros Hnd Hne Hg Hp. unfold _validated_recovery_units. cbn [as_list of_option mbind result_bind].
  rewrite length_fmap. pose proof (units_count _ _ Hg) as Hcount. rewrite Hp, length_fmap in Hcount.
  assert ((1 <=? length units)%nat && (length units <=? length steps)%nat = true) as ->.
  { apply andb_true_iff. rewrite !Nat.leb_le. split; [|done].
    destruct units; [|simpl; lia]. by destruct steps. }
  cbn [negb raise_when mbind result_bind]. rewrite (units_build _ []); [|done|done| |].
  - simpl app. rewrite Hp. cbn [mbind result_bind].
    rewrite (proj2 (same_set_true (s_step_id <$> steps) (s_step_id <$> steps))) by done.
    by rewrite bool_decide_true by done.
  - simpl. by rewrite Hp.
  - by rewrite Hp.
Qed.

Lemma plan_payload_build p : plan_ok p → _validated_plan (plan_payload p) = Ok p.
Proof.
  intros [Hc Hs Hu Hp]. unfold _validated_plan, plan_payload. pose proof (steps_nodup _ Hs) as Hnd.
  cbn [as_dict of_option mbind result_bind]. set (d := [_; _; _; _; _]).
  assert (has_keys d root_keys_3 = true) as Hkeys by (vm_compute; reflexivity).
  change (get (u "format_version") d) with (VInt 3).
  change (format_version (VInt 3)) with (@Ok plan_exn nat 3%nat).
  change (get (u "state") d) with (name_of plan_states (p_state p)).
  change (get (u "requires_confirmation") d) with (VBool (p_requires_confirmation p)).
  change (get (u "recovery_units") d) with (VList (unit_payload <$> p_recovery_units p)).
  change (get (u "steps") d) with (VList (step_payload <$> p_steps p)).
  cbn [as_bool as_list of_option mbind result_bind Nat.eqb]. rewrite Hkeys. clear Hkeys d.
  cbn [negb raise_when mbind result_bind]. rewrite enum_plan_state.
  cbn [mbind result_bind]. rewrite length_fmap. unfold _MAX_EFFECT_STEPS.
  assert ((1 <=? length (p_steps p))%nat && (Z.of_nat (length (p_steps p)) <=? 5) = true) as ->.
  { apply andb_true_iff. rewrite Nat.leb_le, Z.leb_le. lia. }
  cbn [negb raise_when mbind result_bind].
  rewrite (foldR_rebuild _ _ step_payload []) by (apply parse_plan_step_build || done).
  cbn [mbind result_bind Nat.eqb]. simpl app.
  assert (p_steps p ≠ []) by (intros E; rewrite E in Hc; simpl in Hc; lia).
  rewrite validated_units_build by done. by destruct p.
Qed.

(** The payload of a well-formed plan validates to the same plan. *)
Theorem plan_payload_roundtrip p : plan_ok p → _validated_plan (plan_payload p) = Ok p.
Proof. apply plan_payload_build. Qed.

(** A stored plan that validates has distinct step ids, dependencies that point backwards,
    and recovery units that cover every step with the step's own mode. *)
Theorem validated_plan_sound payload p :
  _validated_plan payload = Ok p →
  plan_ok p ∧ NoDup (s_step_id <$> p_steps p) ∧
  (∀ i s d, p_steps p !! i = Some s → d ∈ s_depends_on s →
     ∃ j t, (j < i)%nat ∧ p_steps p !! j = Some t ∧ s_step_id t = d) ∧
  (∀ s, s ∈ p_steps p → ∃ x, x ∈ p_recovery_units p ∧ s_step_id s ∈ u_step_ids x ∧
     s_recovery_unit_id s = u_unit_id x ∧ s_recovery_mode s = u_mode x).
Proof.
  intros H%validated_plan_wf. pose proof H as [_ Hs Hu Hp].
  split_and!; [done|by apply steps_nodup| |].
  - intros i s d Hi Hd. apply (so_depends _ _ (Hs i s Hi)), list_elem_of_fmap in Hd as (t & -> & Ht).
    apply list_elem_of_lookup in Ht as [j Hj]. apply lookup_take_Some in Hj as [Hj Hl].
    exists j, t. done.
  - intros s Hin. assert (s_step_id s ∈ concat (u_step_ids <$> p_recovery_units p)) as Hc.
    { rewrite Hp. apply list_elem_of_fmap. eauto. }
    apply list_elem_of_In, in_concat in Hc as (ids & Hids & Hc). apply list_elem_of_In in Hids, Hc.
    apply list_elem_of_fmap in Hids as (x & -> & Hx). exists x. split; [done|]. split; [done|].
    apply list_elem_of_lookup in Hx as [i Hi]. by apply (uo_bound _ _ _ (Hu i x Hi)).
Qed.

(** ** Assigning recovery units *)

(** No two neighbouring units that could have been one. *)
Definition maximal_units (units : list unit_) : Prop :=
  ∀ i x y, units !! i = Some x → units !! S i = Some y → u_mode x = OdooAtomic → u_mode y ≠ OdooAtomic.

Record units_assigned (units : list unit_) (steps : list step) : Prop := {
  ua_units : grows (unit_ok steps) units;
  ua_partition : concat (u_step_ids <$> units) = s_step_id <$> steps;
  ua_prepared : Forall (λ x, u_state x = UnitPrepared) units;
  ua_maximal : maximal_units units }.

Lemma unit_ok_more steps pre x s :
  s_step_id s ∉ u_step_ids x → unit_ok steps pre x → unit_ok (steps ++ [s]) pre x.
Proof.
  intros Hs [H1 H2 H3 H4]. split; [done..|].
  intros t [Ht| ->%list_elem_of_singleton]%elem_of_app Hin; [by apply H4|done].
Qed.

Lemma grows_units_more steps units s :
  s_step_id s ∉ concat (u_step_ids <$> units) → grows (unit_ok steps) units →
  grows (unit_ok (steps ++ [s])) units.
Proof.
  intros Hs H i x Hi. apply unit_ok_more; [|by apply H]. intros Hin. apply Hs.
  apply list_elem_of_In, in_concat. exists (u_step_ids x). rewrite <- !list_elem_of_In.
  split; [|done]. apply list_elem_of_fmap. exists x. split; [done|]. by eapply list_elem_of_lookup_2.
Qed.

Lemma maximal_snoc units x :
  maximal_units units → (∀ y, last units = Some y → u_mode y = OdooAtomic → u_mode x ≠ OdooAtomic) →
  maximal_units (units ++ [x]).
Proof.
  intros H Hx i a b Ha Hb. apply lookup_app_Some in Hb as [Hb|[Hl Hb]].
  - apply (H i); [|done]. apply lookup_app_Some in Ha as [Ha|[Hl _]]; [done|].
    apply lookup_lt_Some in Hb. lia.
  - apply list_lookup_singleton_Some in Hb as [Hi <-]. apply Hx.
    apply lookup_app_Some in Ha as [Ha|[Hl' _]]; [|lia].
    rewrite last_lookup. by replace (pred (length units)) with i by lia.
Qed.

(** A new unit at the end. *)
Lemma assign_new_unit units steps s :
  units_assigned units steps → s_step_id s ∉ s_step_id <$> steps →
  (∀ y, last units = Some y → u_mode y = OdooAtomic → s_recovery_mode s ≠ OdooAtomic) →
  units_assigned
    (units ++ [MkUnit (unit_name (length units)) (s_recovery_mode s) [s_step_id s] UnitPrepared])
    (steps ++ [set_recovery (unit_name (length units)) (s_recovery_mode s) (s_journal_classification s) s]).
Proof.
  intros [Hg Hp Hst Hm] Hnew Hlast. split.
  - apply grows_snoc. split; [apply grows_units_more; [by rewrite Hp|done]|]. split; simpl; try done.
    intros t [Ht| ->%list_elem_of_singleton]%elem_of_app Hin; [|done].
    apply list_elem_of_singleton in Hin. destruct Hnew. rewrite <- Hin. apply list_elem_of_fmap. eauto.
  - rewrite !fmap_app, concat_app, Hp. done.
  - apply Forall_app. by repeat constructor.
  - by apply maximal_snoc.
Qed.

(** One more step in the last unit. *)
Lemma assign_last_unit units x steps s :
  units_assigned (units ++ [x]) steps → s_step_id s ∉ s_step_id <$> steps →
  s_recovery_mode s = OdooAtomic → u_mode x = OdooAtomic →
  units_assigned
    (units ++ [MkUnit (u_unit_id x) (u_mode x) (u_step_ids x ++ [s_step_id s]) (u_state x)])
    (steps ++ [set_recovery (u_unit_id x) (s_recovery_mode s) (s_journal_classification s) s]).
Proof.
  intros [Hg Hp Hst Hm] Hnew Hs Hx. apply grows_snoc in Hg as [Hg [H1 H2 H3 H4]].
  rewrite fmap_app, concat_app in Hp. simpl in Hp. rewrite app_nil_r in Hp. split.
  - apply grows_snoc. split.
    + apply grows_units_more; [|done]. rewrite <- Hp in Hnew. set_solver.
    + split; simpl; [done|by destruct (u_step_ids x)|done|].
      intros t [Ht| ->%list_elem_of_singleton]%elem_of_app Hin; [|by rewrite Hs, Hx].
      apply elem_of_app in Hin as [Hin|Hin%list_elem_of_singleton]; [by apply H4|].
      destruct Hnew. rewrite <- Hin. apply list_elem_of_fmap. eauto.
  - rewrite !fmap_app, concat_app, <- Hp. simpl. by rewrite app_nil_r, !app_assoc.
  - apply Forall_app in Hst as [? Hst]. apply Forall_app. split; [done|].
    inversion Hst; subst. by repeat constructor.
  - intros i a b Ha Hb Ea. apply lookup_app_Some in Hb as [Hb|[Hl Hb]].
    + apply (Hm i a b); [|by rewrite lookup_app_l by (by eapply lookup_lt_Some)|done].
      rewrite lookup_app_l in Ha |- * by (apply lookup_lt_Some in Hb; lia). done.
    + apply list_lookup_singleton_Some in Hb as [Hi <-]. simpl. apply (Hm i a x); [..|done].
      * rewrite lookup_app_l in Ha |- * by lia. done.
      * rewrite lookup_app_r by lia. by replace (S i - length units)%nat with 0%nat by lia.
Qed.

(** A step apart from the unit it is assigned to. *)
Definition unassigned (s : step) : step :=
  set_recovery [] (s_recovery_mode s) (s_journal_classification s) s.

Lemma assign_unit_assigned units steps s :
  units_assigned units steps → s_step_id s ∉ s_step_id <$> steps →
  let '(units', steps') := assign_unit (units, steps) s in
  units_assigned units' steps' ∧ unassigned <$> steps' = (unassigned <$> steps) ++ [unassigned s].
Proof.
  intros H Hnew. unfold assign_unit. destruct (last units) as [x|] eqn:Hl.
  - apply last_Some in Hl as [us ->]. destruct (bool_decide _ && _) eqn:Hb.
    + apply andb_true_iff in Hb as [Hs%bool_decide_eq_true Hx%bool_decide_eq_true].
      rewrite removelast_last. split; [by apply assign_last_unit|]. by rewrite fmap_app.
    + split; [|by rewrite fmap_app]. apply assign_new_unit; [done..|].
      intros y Hy Ey Es. rewrite last_snoc in Hy. injection Hy as ->.
      by rewrite !bool_decide_true in Hb by done.
  - apply last_None in Hl as ->. split; [|by rewrite fmap_app].
    apply (assign_new_unit []); done.
Qed.

Lemma assigned_ids (steps : list step) : s_step_id <$> (unassigned <$> steps) = s_step_id <$> steps.
Proof. rewrite <- list_fmap_compose. by apply list_fmap_ext. Qed.

Lemma assign_units_spec steps :
  NoDup (s_step_id <$> steps) →
  let '(units, steps') := _assign_recovery_units steps in
  units_assigned units steps' ∧ unassigned <$> steps' = unassigned <$> steps.
Proof.
  intros Hnd. unfold _assign_recovery_units. induction steps as [|s steps IH] using rev_ind.
  - split; [|done]. split; [apply grows_nil|done|constructor|]. intros i x y. by rewrite lookup_nil.
  - rewrite foldl_app. cbn [foldl]. rewrite fmap_app in Hnd. apply NoDup_app in Hnd as (Hnd & Hdis & _).
    specialize (IH Hnd). destruct (foldl assign_unit ([], []) steps) as [units steps'].
    destruct IH as [IH Hids]. rewrite fmap_app, <- Hids.
    apply assign_unit_assigned; [done|]. rewrite <- (assigned_ids steps'), Hids, assigned_ids.
    intros Hin. apply (Hdis _ Hin). by left.
Qed.

(** The units _assign_recovery_units builds are accepted by the validator, are maximal runs
    of atomic steps, and nothing of the steps but their unit assignment changes. *)
Lemma assigned_units_validate steps :
  NoDup (s_step_id <$> steps) → steps ≠ [] →
  let '(units, steps') := _assign_recovery_units steps in
  unassigned <$> steps' = unassigned <$> steps ∧ maximal_units units ∧
  _validated_recovery_units (VList (unit_payload <$> units)) steps' = Ok units.
Proof.
  intros Hnd Hne. pose proof (assign_units_spec steps Hnd) as H.
  destruct (_assign_recovery_units steps) as [units steps'].
  destruct H as [[Hg Hp Hst Hm] Hids]. split_and!; [done..|].
  assert (NoDup (s_step_id <$> steps')) as Hnd'.
  { by rewrite <- (assigned_ids steps'), Hids, assigned_ids. }
  apply validated_units_build; [done| |done|done].
  intros ->. by destruct steps.
Qed.
