(* ===== verification/Dependencies.v ===== *)
(** * Dependency graphs

    The depth-first search that the capability registry runs over the names of its
    definitions, and the facts about acyclic graphs its theorems use.  A graph is the list of
    names a name depends on. *)
From S2P Require Import Prelude PyText.

(** ** The search that raises on a cycle *)

Section visit.
Context {E : Type} (deps : pystr → list pystr) (cycle out_of_fuel : E).

(** [visit]: the names of [visited] afterwards.  [visiting] is the stack, which a call leaves as
    it found it unless it raises. *)
Fixpoint visit (fuel : nat) (visiting visited : list pystr) (name : pystr) : result E (list pystr) :=
  match fuel with
  | O => Err out_of_fuel
  | S fuel =>
      if mem name visiting then Err cycle
      else if mem name visited then Ok visited
      else
        visited ← foldR (visit fuel (name :: visiting)) visited (deps name);
        Ok (name :: visited)
  end.
End visit.

(** ** Acyclic graphs *)

Section graph.
Context (deps : pystr → list pystr).

(** [y] is a direct dependency of [x]. *)
Definition needs (x y : pystr) : Prop := y ∈ deps x.
Definition grounded (x : pystr) : Prop := Acc (λ y x, needs x y) x.

Lemma grounded_intro x : (∀ y, y ∈ deps x → grounded y) → grounded x.
Proof. intros H. constructor. exact H. Qed.

Lemma grounded_dep x y : grounded x → y ∈ deps x → grounded y.
Proof. intros H Hy. by apply (Acc_inv H). Qed.

Lemma grounded_tc x y : grounded x → tc needs x y → grounded y.
Proof. intros H Hxy. revert H. induction Hxy; eauto using grounded_dep. Qed.

Lemma grounded_no_cycle x : grounded x → ¬ tc needs x x.
Proof.
  intros H. induction H as [x _ IH]. intros Hx.
  assert (∃ y, needs x y ∧ rtc needs y x) as (y & Hy & Hyx).
  { inversion Hx; subst; [by exists x|]. eexists. split; [done|]. by apply tc_rtc. }
  apply (IH y Hy). by eapply tc_rtc_l; [|by apply tc_once].
Qed.

(** The names on the way to the current one. *)
Definition path_to (nodes path : list pystr) (x : pystr) : Prop :=
  NoDup path ∧ path ⊆ nodes ∧ ∀ p, p ∈ path → tc needs p x.

Lemma path_extend nodes path x y :
  path_to nodes path x → grounded x → x ∈ nodes → y ∈ deps x → path_to nodes (x :: path) y.
Proof.
  intros (Hn & Hs & Hp) Hx Hin Hy. split_and!.
  - constructor; [|done]. intros Hxp. by apply (grounded_no_cycle x Hx), Hp.
  - intros p [->|Hpp]%elem_of_cons; auto.
  - intros p [->|Hpp]%elem_of_cons; [by apply tc_once|]. eapply tc_r; [by apply Hp|done].
Qed.

Lemma path_room nodes path x :
  path_to nodes path x → grounded x → x ∈ nodes → length path < length nodes.
Proof.
  intros (Hn & Hs & Hp) Hx Hin.
  assert (NoDup (x :: path)) as Hd.
  { constructor; [|done]. intros Hxp. by apply (grounded_no_cycle x Hx), Hp. }
  assert (x :: path ⊆+ nodes) as Hsub.
  { apply NoDup_submseteq; [done|]. intros p [->|Hpp]%elem_of_cons; auto. }
  apply submseteq_length in Hsub. simpl in Hsub. lia.
Qed.

(** ** Correctness of the search *)

Context {E : Type} (cycle out_of_fuel : E).
Abbreviation visit := (visit deps cycle out_of_fuel).

Definition all_grounded (l : list pystr) : Prop := ∀ x, x ∈ l → grounded x.

(** What was visited without an exception is grounded. *)
Lemma visit_sound fuel visiting visited name visited' :
  all_grounded visited → visit fuel visiting visited name = Ok visited' →
  all_grounded visited' ∧ visited ⊆ visited' ∧ name ∈ visited'.
Proof.
  revert visiting visited name visited'. induction fuel as [|fuel IH]; [done|].
  intros visiting visited name visited' Hg. simpl.
  destruct (mem name visiting); [done|]. destruct (mem name visited) eqn:Hv.
  { intros [= <-]. split_and!; [done..|]. by apply mem_true. }
  intros (vs & Hfold & [= <-])%bind_Ok.
  enough (∀ ds vs0 vs1, all_grounded vs0 → foldR (visit fuel (name :: visiting)) vs0 ds = Ok vs1 →
    all_grounded vs1 ∧ vs0 ⊆ vs1 ∧ ∀ d, d ∈ ds → d ∈ vs1) as Hall.
  { destruct (Hall _ _ _ Hg Hfold) as (Hg' & Hsub & Hds). split_and!; [|set_solver|by left].
    intros x [->|Hx]%elem_of_cons; [|by apply Hg']. apply grounded_intro. auto. }
  intros ds. induction ds as [|d ds IHds]; intros vs0 vs1 Hvs0; simpl.
  - intros [= <-]. split_and!; [done..|set_solver].
  - intros (vs2 & H1 & H2)%bind_Ok. apply IH in H1 as (Hg1 & Hs1 & Hd); [|done].
    apply IHds in H2 as (Hg2 & Hs2 & Hds); [|done]. split_and!; [done|set_solver|].
    intros x [->|Hx]%elem_of_cons; auto.
Qed.

Lemma visit_all_sound fuel visited names visited' :
  all_grounded visited → foldR (visit fuel []) visited names = Ok visited' → all_grounded names.
Proof.
  revert visited. induction names as [|x names IH]; intros visited Hg; simpl; [set_solver|].
  intros (vs & H1 & H2)%bind_Ok. destruct (visit_sound _ _ _ _ _ Hg H1) as (Hg1 & _ & Hx).
  intros y [->|Hy]%elem_of_cons; [by apply Hg1|]. by eapply (IH vs).
Qed.

(** On a grounded name the search ends, with fuel for every node, and raises nothing. *)
Lemma visit_complete nodes fuel path visited name :
  (∀ x y, x ∈ nodes → y ∈ deps x → y ∈ nodes) →
  path_to nodes path name → grounded name → name ∈ nodes → length nodes < fuel + length path →
  ∃ visited', visit fuel path visited name = Ok visited'.
Proof.
  intros Hclosed. revert path visited name. induction fuel as [|fuel IH]; intros path visited name Hp Hg Hin Hf.
  { pose proof (path_room _ _ _ Hp Hg Hin). simpl in Hf. lia. }
  simpl. destruct (mem name path) eqn:Hm.
  { exfalso. apply mem_true in Hm. by apply (grounded_no_cycle name Hg), Hp. }
  destruct (mem name visited); [by eexists|].
  enough (∀ ds vs, (∀ d, d ∈ ds → d ∈ deps name) →
    ∃ vs', foldR (visit fuel (name :: path)) vs ds = Ok vs') as Hall.
  { destruct (Hall (deps name) visited) as [vs' ->]; [done|]. by eexists. }
  intros ds. induction ds as [|d ds IHds]; intros vs Hds; simpl; [by eexists|].
  assert (d ∈ deps name) as Hd by (apply Hds; by left).
  destruct (IH (name :: path) vs d) as [vs1 ->].
  - by apply path_extend.
  - by eapply grounded_dep.
  - by eapply Hclosed.
  - simpl. lia.
  - simpl. apply IHds. intros d' Hd'. apply Hds. by right.
Qed.

Lemma visit_all_complete nodes fuel visited names :
  (∀ x y, x ∈ nodes → y ∈ deps x → y ∈ nodes) → names ⊆ nodes → all_grounded names →
  length nodes < fuel → ∃ visited', foldR (visit fuel []) visited names = Ok visited'.
Proof.
  intros Hclosed Hn Hg Hf. revert visited. induction names as [|x names IH]; intros visited; simpl; [by eexists|].
  destruct (visit_complete nodes fuel [] visited x) as [vs ->]; [done| |apply Hg; by left|apply Hn; by left|simpl; lia|].
  - split_and!; [constructor|apply list_subseteq_nil|set_solver].
  - simpl. apply IH; [set_solver|]. intros y Hy. apply Hg. by right.
Qed.
End graph.
