(* ===== verification/Capability.v ===== *)
(** * Capabilities: contracts

    [runtime/capabilities/contracts.py] and [policy.py]: the definition of a capability with the
    checks of its construction, who may see it, and when a call of it needs an approval.  A
    handler is not data of the model: the record says whether one is present, and
    [CapabilityExecutor] reaches it by the capability's name. *)
From S2P Require Import Prelude PyText Regex PyValue EffectPlan.
Local Open Scope Z_scope.

Definition capability_error {A} (code : pystr) : result plan_exn A := Err (CapabilityError code []).
Definition refuse (b : bool) (code : pystr) : result plan_exn unit :=
  raise_when b (CapabilityError code []).

(** ** Frozen JSON *)

Definition _MAX_CONTRACT_JSON_DEPTH : nat := 32.

(** [freeze_contract_json] at the depth [33 - fuel]: the frozen containers are equal to the
    given ones. *)
Fixpoint freeze_contract_json (fuel : nat) (v : pyval) : result plan_exn pyval :=
  match fuel with
  | O => capability_error (u "capability_contract_depth_exceeded")
  | S fuel =>
      match v with
      | VFloat (FInf _) | VFloat FNan => capability_error (u "capability_contract_non_finite")
      | VList l => VList <$> mapR (freeze_contract_json fuel) l
      | VDict d => VDict <$> mapR (λ kv, pair kv.1 <$> freeze_contract_json fuel kv.2) d
      | _ => Ok v
      end
  end.

Definition freeze_contract_mapping (d : pydict) : result plan_exn pydict :=
  v ← freeze_contract_json (S _MAX_CONTRACT_JSON_DEPTH) (VDict d);
  of_option (as_dict v) (CapabilityError (u "capability_contract_mapping_invalid") []).

(** ** Data *)

Inductive CapabilityRisk : Type :=
| RiskMetadata | RiskRead | RiskWritePreview | RiskWrite | RiskActionPreview | RiskAction | RiskHost.
Inductive CapabilityEffect : Type :=
| ReadOnly | InternalReversible | InternalIrreversible | ExternalEffect | HostEffect.
Inductive CapabilityExposure : Type := ExposeReasoning | ExposePlan | ExposeHost.
Inductive CapabilityApproval : Type := ApprovalNone | ApprovalPolicy | ApprovalAlways.
Inductive CapabilitySettingType : Type :=
| SettingBoolean | SettingInteger | SettingString | SettingChoice | SettingSecret.

#[export] Instance risk_eq_dec : EqDecision CapabilityRisk.
Proof. solve_decision. Defined.
#[export] Instance effect_eq_dec : EqDecision CapabilityEffect.
Proof. solve_decision. Defined.
#[export] Instance exposure_eq_dec : EqDecision CapabilityExposure.
Proof. solve_decision. Defined.
#[export] Instance approval_eq_dec : EqDecision CapabilityApproval.
Proof. solve_decision. Defined.
#[export] Instance setting_type_eq_dec : EqDecision CapabilitySettingType.
Proof. solve_decision. Defined.

Definition risk_value (r : CapabilityRisk) : pystr :=
  match r with
  | RiskMetadata => u "metadata" | RiskRead => u "read" | RiskWritePreview => u "write-preview"
  | RiskWrite => u "write" | RiskActionPreview => u "action-preview" | RiskAction => u "action"
  | RiskHost => u "host"
  end.
Definition effect_value (e : CapabilityEffect) : pystr :=
  match e with
  | ReadOnly => u "read-only" | InternalReversible => u "internal-reversible"
  | InternalIrreversible => u "internal-irreversible" | ExternalEffect => u "external"
  | HostEffect => u "host"
  end.
Definition exposure_value (e : CapabilityExposure) : pystr :=
  match e with ExposeReasoning => u "reasoning" | ExposePlan => u "plan" | ExposeHost => u "host" end.
Definition approval_value (a : CapabilityApproval) : pystr :=
  match a with ApprovalNone => u "none" | ApprovalPolicy => u "policy" | ApprovalAlways => u "always" end.

Record CapabilityDependency := MkDependency { dep_name : pystr; dep_minimum_version : pystr }.

Record CapabilitySetting := MkSetting {
  st_key : pystr;
  st_title : pystr;
  st_kind : CapabilitySettingType;
  st_default : pyval;
  st_required : bool;
  st_choices : list pystr;
  st_minimum : option Z;
  st_maximum : option Z }.

Record CapabilityActivitySpec := MkActivity {
  act_operation : pystr;
  act_headline_code : pystr;
  act_projector : bool }.

(** [d_preview_handler], [d_verify_handler] and [d_guard]: whether the callable is there. *)
Record CapabilityDefinition := MkDefinition {
  d_name : pystr;
  d_description : pystr;
  d_input_schema : pydict;
  d_output_schema : pydict;
  d_risk : CapabilityRisk;
  d_effect : CapabilityEffect;
  d_title : pystr;
  d_version : pystr;
  d_exposure : CapabilityExposure;
  d_approval : CapabilityApproval;
  d_tags : list pystr;
  d_dependencies : list CapabilityDependency;
  d_settings : list CapabilitySetting;
  d_required_groups : list pystr;
  d_default_enabled : bool;
  d_timeout_seconds : option Z;
  d_max_calls : Z;
  d_max_input_bytes : Z;
  d_max_output_bytes : Z;
  d_audit_metadata : pydict;
  d_developer_metadata : pydict;
  d_activity : option CapabilityActivitySpec;
  d_preview_handler : bool;
  d_verify_handler : bool;
  d_guard : bool }.

(** What the handlers return. *)
Record CapabilityPreview := MkPreview { pv_summary : pydict; pv_precondition_fingerprint : pystr }.
Record CapabilityVerification := MkVerification { vf_verified : bool; vf_summary : pydict }.

(** ** Construction *)

Definition _NAME_RE : regex :=
  let word := (RSet lower · RStar (RSet (lower ++ digit ++ chars (u "_"))))%regex in
  (word · RPlus (RLit (u ".") · word))%regex.
Definition _VERSION_RE : regex := (RSet [(49, 57)%N] · RStar (RSet digit))%regex.
Definition _SETTING_KEY_RE : regex :=
  (RSet lower · RRep (RSet (lower ++ digit ++ chars (u "_"))) 0 63)%regex.

(** [CapabilityDependency.__post_init__] *)
Definition check_dependency (x : CapabilityDependency) : result plan_exn unit :=
  refuse (negb (fullmatch _NAME_RE (dep_name x))) (u "capability_dependency_name_invalid");;
  refuse (negb (fullmatch _VERSION_RE (dep_minimum_version x))) (u "capability_dependency_version_invalid").

(** [CapabilitySetting.__post_init__] *)
Definition check_setting (x : CapabilitySetting) : result plan_exn unit :=
  refuse (negb (fullmatch _SETTING_KEY_RE (st_key x)) || bool_decide (strip (st_title x) = []))
    (u "capability_setting_invalid");;
  let choice := bool_decide (st_kind x = SettingChoice) in
  let none := bool_decide (st_choices x = []) in
  refuse (choice && none) (u "capability_setting_choices_missing");;
  refuse (negb choice && negb none) (u "capability_setting_choices_invalid");;
  refuse (match st_minimum x, st_maximum x with Some a, Some b => b <? a | _, _ => false end)
    (u "capability_setting_range_invalid");;
  freeze_contract_json (S _MAX_CONTRACT_JSON_DEPTH) (st_default x);;
  Ok tt.

(** [CapabilityActivitySpec.__post_init__] *)
Definition check_activity (x : CapabilityActivitySpec) : result plan_exn unit :=
  refuse (negb (fullmatch _NAME_RE (act_operation x))) (u "capability_activity_operation_invalid");;
  refuse (negb (fullmatch _NAME_RE (act_headline_code x))) (u "capability_activity_headline_invalid").

Definition effectful_risk (r : CapabilityRisk) : bool :=
  match r with RiskWrite | RiskAction | RiskHost => true | _ => false end.
Definition between (lo x hi : Z) : bool := (lo <=? x) && (x <=? hi).

(** [CapabilityDefinition.__post_init__] *)
Definition check_definition (d : CapabilityDefinition) : result plan_exn unit :=
  refuse (negb (fullmatch _NAME_RE (d_name d))) (u "capability_name_invalid");;
  refuse (negb (fullmatch _VERSION_RE (d_version d))) (u "capability_version_invalid");;
  refuse (bool_decide (strip (d_description d) = []) || (4000 <? Z.of_nat (length (d_description d))))
    (u "capability_description_invalid");;
  refuse (160 <? Z.of_nat (length (d_title d))) (u "capability_title_invalid");;
  input_schema ← freeze_contract_mapping (d_input_schema d);
  output_schema ← freeze_contract_mapping (d_output_schema d);
  refuse (negb (py_eq (get (u "type") input_schema) (VStr (u "object"))))
    (u "capability_input_schema_invalid");;
  refuse (negb (py_eq (get (u "type") output_schema) (VStr (u "object"))))
    (u "capability_output_schema_invalid");;
  refuse (bool_decide (d_effect d = ReadOnly) && effectful_risk (d_risk d))
    (u "capability_effect_risk_mismatch");;
  refuse (bool_decide (d_risk d = RiskWrite ∨ d_risk d = RiskAction)
          && bool_decide (d_approval d = ApprovalNone)) (u "capability_write_approval_invalid");;
  refuse (bool_decide (d_exposure d = ExposeReasoning) && effectful_risk (d_risk d))
    (u "capability_reasoning_authority_invalid");;
  refuse (bool_decide (d_exposure d = ExposeHost) && bool_decide (d_approval d = ApprovalAlways))
    (u "capability_host_approval_invalid");;
  refuse (bool_decide (d_exposure d = ExposePlan) && negb (bool_decide (d_effect d = ReadOnly))
          && (negb (d_preview_handler d) || negb (d_verify_handler d)))
    (u "capability_plan_lifecycle_incomplete");;
  refuse (negb (bool_decide (d_exposure d = ExposePlan))
          && (d_preview_handler d || d_verify_handler d)) (u "capability_plan_lifecycle_invalid");;
  refuse (match d_timeout_seconds d with Some t => negb (between 1 t 600) | None => false end)
    (u "capability_timeout_invalid");;
  refuse (negb (between 1 (d_max_calls d) 64)) (u "capability_call_limit_invalid");;
  refuse (negb (between 256 (d_max_input_bytes d) (1024 * 1024))) (u "capability_input_limit_invalid");;
  refuse (negb (between 256 (d_max_output_bytes d) (4 * 1024 * 1024)))
    (u "capability_output_limit_invalid");;
  refuse (has_dup (d_tags d)) (u "capability_tag_duplicate");;
  refuse (has_dup (dep_name <$> d_dependencies d)) (u "capability_dependency_duplicate");;
  refuse (has_dup (st_key <$> d_settings d)) (u "capability_setting_duplicate");;
  refuse (has_dup (d_required_groups d)) (u "capability_group_duplicate");;
  freeze_contract_mapping (d_audit_metadata d);;
  freeze_contract_mapping (d_developer_metadata d);;
  Ok tt.

(** The objects inside a definition are constructed before it. *)
Definition new_definition (d : CapabilityDefinition) : result plan_exn CapabilityDefinition :=
  mapR check_dependency (d_dependencies d);;
  mapR check_setting (d_settings d);;
  (match d_activity d with Some x => check_activity x | None => Ok tt end);;
  check_definition d;;
  Ok d.

(** ** Identity *)

(** The text before the last separator. *)
Fixpoint before_last (sep : N) (s : pystr) : option pystr :=
  match s with
  | [] => None
  | c :: s =>
      match before_last sep s with
      | Some p => Some (c :: p)
      | None => if (c =? sep)%N then Some [] else None
      end
  end.

Definition namespace (d : CapabilityDefinition) : pystr := default (d_name d) (before_last 46 (d_name d)).
Definition executor_id (d : CapabilityDefinition) : pystr := d_name d ++ u ".v" ++ d_version d.

Definition wire_descriptor (d : CapabilityDefinition) : pydict :=
  [(u "name", VStr (d_name d));
   (u "title", VStr (if bool_decide (d_title d = []) then d_name d else d_title d));
   (u "description", VStr (d_description d));
   (u "inputSchema", VDict (d_input_schema d));
   (u "outputSchema", VDict (d_output_schema d));
   (u "meta", VDict
     [(u "namespace", VStr (namespace d));
      (u "version", VStr (d_version d));
      (u "executor_id", VStr (executor_id d));
      (u "risk", VStr (risk_value (d_risk d)));
      (u "effect", VStr (effect_value (d_effect d)));
      (u "exposure", VStr (exposure_value (d_exposure d)));
      (u "approval", VStr (approval_value (d_approval d)));
      (u "tags", VList (VStr <$> d_tags d));
      (u "activity",
        match d_activity d with
        | Some a => VDict [(u "operation", VStr (act_operation a));
                           (u "headline_code", VStr (act_headline_code a))]
        | None => VNone
        end)])].

(** ** Policy *)

Inductive ExecutionAuthority : Type := AuthorityReasoning | AuthorityPlan | AuthorityHost.
#[export] Instance authority_eq_dec : EqDecision ExecutionAuthority.
Proof. solve_decision. Defined.

(** The authority of the same value as an exposure. *)
Definition authority_of (e : CapabilityExposure) : ExecutionAuthority :=
  match e with
  | ExposeReasoning => AuthorityReasoning | ExposePlan => AuthorityPlan | ExposeHost => AuthorityHost
  end.

Record CapabilityPolicyDecision := MkDecision {
  pd_allowed : bool;
  pd_requires_approval : bool;
  pd_reason : pystr }.

Inductive risk_band : Type := BandLow | BandModerate | BandHigh | BandProtected.
Definition _RISK_RANK (b : risk_band) : Z :=
  match b with BandLow => 0 | BandModerate => 1 | BandHigh => 2 | BandProtected => 3 end.
Definition risk_bands : list (pystr * risk_band) :=
  [(u "low", BandLow); (u "moderate", BandModerate); (u "high", BandHigh);
   (u "protected", BandProtected)].

Definition _effective_risk (d : CapabilityDefinition) : risk_band :=
  match d_effect d, d_risk d with
  | (InternalIrreversible | ExternalEffect | HostEffect), _ | _, RiskHost => BandProtected
  | _, RiskAction => BandHigh
  | _, (RiskWrite | RiskActionPreview) => BandModerate
  | _, _ => BandLow
  end.

(** [metadata] is the context's.  [mode not in {...}] of an unhashable [mode] raises. *)
Definition _policy_requires_approval (d : CapabilityDefinition) (metadata : pydict)
    : result plan_exn bool :=
  let effectful := negb (bool_decide (d_effect d = ReadOnly)) in
  match get (u "capability_policy") metadata with
  | VDict p =>
      let mode := get (u "confirmation_mode") p in
      known ← of_option (in_str_set mode [u "always_confirm"; u "risk_based"; u "protected_only"])
                PyTypeError;
      if negb known then Ok true else
      let ceiling := get (u "max_auto_risk") p in
      ranked ← of_option (in_str_set ceiling (keys risk_bands)) PyTypeError;
      if negb ranked then Ok true else
      if py_eq mode (VStr (u "always_confirm")) then Ok effectful else
      band ← of_option (s ← as_str ceiling; dict_lookup s risk_bands) PyTypeError;
      Ok (_RISK_RANK band <? _RISK_RANK (_effective_risk d))
  | _ => Ok effectful
  end.

Definition allowed_decision : CapabilityPolicyDecision := MkDecision true false (u "allowed").
Definition approval_decision : CapabilityPolicyDecision :=
  MkDecision false true (u "capability_approval_required").

Definition evaluate (d : CapabilityDefinition) (metadata : pydict) (authority : ExecutionAuthority)
    (approved : bool) : result plan_exn CapabilityPolicyDecision :=
  if negb (bool_decide (authority = authority_of (d_exposure d))) then
    Ok (MkDecision false false (u "capability_authority_mismatch"))
  else if bool_decide (d_approval d = ApprovalAlways) && negb approved then Ok approval_decision
  else if bool_decide (d_approval d = ApprovalPolicy) && negb approved then
    required ← _policy_requires_approval d metadata;
    Ok (if required : bool then approval_decision else allowed_decision)
  else Ok allowed_decision.
