(* ===== verification/CapabilityValidation.v ===== *)
(** * Capabilities: the schema validator

    [runtime/capabilities/validation.py]: the checks of a payload against the keywords of JSON
    Schema that the validator reads, and the reading of those keywords as a relation. *)
From S2P Require Import Prelude PyText PyValue Json EffectPlan Capability.
Local Open Scope Z_scope.

(** ** Comparison of numbers *)

Definition float_ltb (f g : pyfloat) : bool :=
  match f, g with
  | FNan, _ | _, FNan => false
  | FDec n1 m1 e1, FDec n2 m2 e2 =>
      let e := Z.min e1 e2 in
      float_num n1 m1 * 10 ^ (e1 - e) <? float_num n2 m2 * 10 ^ (e2 - e)
  | FInf n1, FInf n2 => n1 && negb n2
  | FInf n, FDec _ _ _ => n
  | FDec _ _ _, FInf n => negb n
  end.

(** [isinstance(v, (int, float))]: a [bool] is an [int]. *)
Definition bound_above (v : pyval) (x : pyfloat) : bool :=
  match as_number v with Some b => negb (float_ltb b x) | None => true end.
Definition bound_below (v : pyval) (x : pyfloat) : bool :=
  match as_number v with Some b => negb (float_ltb x b) | None => true end.

(** [isinstance(v, int)] *)
Definition as_index (v : pyval) : option Z :=
  match v with VInt z => Some z | VBool b => Some (if b then 1 else 0) | _ => None end.
Definition length_at_least (v : pyval) (n : nat) : bool :=
  match as_index v with Some lo => negb (Z.of_nat n <? lo) | None => true end.
Definition length_at_most (v : pyval) (n : nat) : bool :=
  match as_index v with Some hi => negb (hi <? Z.of_nat n) | None => true end.

(** ** The validator *)

Definition _matches_type (v : pyval) (expected : pystr) : bool :=
  default false (dict_lookup expected
    [(u "null", is_none v);
     (u "boolean", bool_decide (is_Some (as_bool v)));
     (u "integer", bool_decide (is_Some (as_int v)));
     (u "number", match v with VInt _ | VFloat _ => true | _ => false end);
     (u "string", bool_decide (is_Some (as_str v)));
     (u "array", bool_decide (is_Some (as_list v)));
     (u "object", bool_decide (is_Some (as_dict v)))]).

(** The keywords that look at the value alone. *)
Definition type_ok (schema : pydict) (v : pyval) : bool :=
  match get (u "type") schema with VStr expected => _matches_type v expected | _ => true end.
Definition enum_ok (schema : pydict) (v : pyval) : bool :=
  match get (u "enum") schema with VList l => existsb (py_eq v) l | _ => true end.
Definition required_ok (required : list pyval) (d : pydict) : bool :=
  forallb (λ item, match item with VStr k => has_key k d | _ => false end) required.

Definition _MAX_DEPTH : nat := 16.

(** [_validate_node] at the depth [17 - fuel]. *)
Fixpoint _validate_node (fuel : nat) (error_code : pystr) (v : pyval) (schema : pydict)
    : result plan_exn unit :=
  let failed := CapabilityError error_code [] in
  match fuel with
  | O => Err failed
  | S fuel =>
      raise_when (negb (type_ok schema v)) failed;;
      raise_when (negb (enum_ok schema v)) failed;;
      match v with
      | VDict d =>
          properties ← of_option (as_dict (get_default (u "properties") (VDict []) schema)) failed;
          required ← of_option (as_list (get_default (u "required") (VList []) schema)) failed;
          raise_when (negb (required_ok required d)) failed;;
          let additional := get_default (u "additionalProperties") (VBool true) schema in
          foldR (λ _ kv,
            match get kv.1 properties, additional with
            | VNone, VBool false => Err failed
            | VNone, VDict a => _validate_node fuel error_code kv.2 a
            | VNone, _ => Ok tt
            | VDict s, _ => _validate_node fuel error_code kv.2 s
            | _, _ => Err failed
            end) tt d
      | VList l =>
          raise_when (negb (length_at_least (get (u "minItems") schema) (length l))) failed;;
          raise_when (negb (length_at_most (get (u "maxItems") schema) (length l))) failed;;
          match get (u "items") schema with
          | VDict s => foldR (λ _ item, _validate_node fuel error_code item s) tt l
          | _ => Ok tt
          end
      | VStr s =>
          raise_when (negb (length_at_least (get (u "minLength") schema) (length s))) failed;;
          raise_when (negb (length_at_most (get (u "maxLength") schema) (length s))) failed
      | VInt _ | VFloat _ =>
          match as_number v with
          | Some x =>
              raise_when (negb (bound_below (get (u "minimum") schema) x)) failed;;
              raise_when (negb (bound_above (get (u "maximum") schema) x)) failed
          | None => Ok tt
          end
      | _ => Ok tt
      end
  end.

(** [allow_nan] is the default [True]. *)
Definition validate_payload (v : pyval) (schema : pydict) (max_bytes : Z) (error_code : pystr)
    : result plan_exn unit :=
  encoded ← of_option (t ← json_dumps true v; utf8_encode t) (CapabilityError error_code []);
  raise_when (max_bytes <? Z.of_nat (length encoded))
    (CapabilityError (error_code ++ u "_too_large") []);;
  _validate_node (S _MAX_DEPTH) error_code v schema.

(** ** The keywords as a relation *)

(** What [properties] and [additionalProperties] say of one member. *)
Inductive member_schema (schema : pydict) (k : pystr) : option pydict → Prop :=
| member_property p s :
    get_default (u "properties") (VDict []) schema = VDict p → get k p = VDict s →
    member_schema schema k (Some s)
| member_additional p s :
    get_default (u "properties") (VDict []) schema = VDict p → get k p = VNone →
    get (u "additionalProperties") schema = VDict s → member_schema schema k (Some s)
| member_free p :
    get_default (u "properties") (VDict []) schema = VDict p → get k p = VNone →
    get_default (u "additionalProperties") (VBool true) schema ≠ VBool false →
    as_dict (get (u "additionalProperties") schema) = None → member_schema schema k None.

Inductive conforms : pydict → pyval → Prop :=
| conforms_object schema d required :
    type_ok schema (VDict d) = true → enum_ok schema (VDict d) = true →
    is_Some (as_dict (get_default (u "properties") (VDict []) schema)) →
    get_default (u "required") (VList []) schema = VList required →
    (∀ item, item ∈ required → ∃ k, item = VStr k ∧ k ∈ keys d) →
    (∀ k, k ∈ keys d → ∃ o, member_schema schema k o) →
    (∀ k x s, (k, x) ∈ d → member_schema schema k (Some s) → conforms s x) →
    conforms schema (VDict d)
| conforms_array schema l :
    type_ok schema (VList l) = true → enum_ok schema (VList l) = true →
    (∀ n, as_index (get (u "minItems") schema) = Some n → n <= Z.of_nat (length l)) →
    (∀ n, as_index (get (u "maxItems") schema) = Some n → Z.of_nat (length l) <= n) →
    (∀ s x, get (u "items") schema = VDict s → x ∈ l → conforms s x) →
    conforms schema (VList l)
| conforms_string schema s :
    type_ok schema (VStr s) = true → enum_ok schema (VStr s) = true →
    (∀ n, as_index (get (u "minLength") schema) = Some n → n <= Z.of_nat (length s)) →
    (∀ n, as_index (get (u "maxLength") schema) = Some n → Z.of_nat (length s) <= n) →
    conforms schema (VStr s)
| conforms_number schema v x :
    as_number v = Some x → as_bool v = None →
    type_ok schema v = true → enum_ok schema v = true →
    (∀ b, as_number (get (u "minimum") schema) = Some b → float_ltb x b = false) →
    (∀ b, as_number (get (u "maximum") schema) = Some b → float_ltb b x = false) →
    conforms schema v
| conforms_none schema : type_ok schema VNone = true → enum_ok schema VNone = true → conforms schema VNone
| conforms_bool schema b :
    type_ok schema (VBool b) = true → enum_ok schema (VBool b) = true → conforms schema (VBool b).

(** The nesting of a value. *)
Fixpoint height (v : pyval) : nat :=
  match v with
  | VList l => S (list_max (height <$> l))
  | VDict d => S ((fix go (d : pydict) := match d with [] => O | kv :: d => Nat.max (height kv.2) (go d) end) d)
  | _ => O
  end.

(** ** Correctness *)

Lemma height_item x l : x ∈ l → (height x < height (VList l))%nat.
Proof.
  intros Hx. simpl. apply Nat.lt_succ_r.
  pose proof (proj1 (list_max_le (height <$> l) (list_max (height <$> l))) ltac:(lia)) as H.
  apply (proj1 (List.Forall_forall _ _) H). apply list_elem_of_In. by apply list_elem_of_fmap_2.
Qed.

Lemma height_member k x d : (k, x) ∈ d → (height x < height (VDict d))%nat.
Proof.
  intros Hx. simpl. apply Nat.lt_succ_r.
  induction d as [|kv d IH]; [by apply elem_of_nil in Hx|].
  apply elem_of_cons in Hx as [<-|Hx]; simpl; [lia|]. specialize (IH Hx). lia.
Qed.

Lemma foldR_unit {A} (f : A → result plan_exn unit) l :
  foldR (λ _ x, f x) tt l = Ok tt ↔ ∀ x, x ∈ l → f x = Ok tt.
Proof.
  induction l as [|x l IH]; simpl; [split; [set_solver|done]|].
  rewrite bind_Ok. split.
  - intros ([] & Hx & Hl) y [->|Hy]%elem_of_cons; [done|]. by apply IH.
  - intros H. exists tt. split; [apply H; by left|]. apply IH. intros y Hy. apply H. by right.
Qed.

Lemma at_least_true v n : length_at_least v n = true ↔ ∀ z, as_index v = Some z → z <= Z.of_nat n.
Proof. unfold length_at_least. destruct (as_index v); rewrite ?negb_true_iff, ?Z.ltb_ge; naive_solver. Qed.
Lemma at_most_true v n : length_at_most v n = true ↔ ∀ z, as_index v = Some z → Z.of_nat n <= z.
Proof. unfold length_at_most. destruct (as_index v); rewrite ?negb_true_iff, ?Z.ltb_ge; naive_solver. Qed.
Lemma below_true v x : bound_below v x = true ↔ ∀ b, as_number v = Some b → float_ltb x b = false.
Proof. unfold bound_below. destruct (as_number v); rewrite ?negb_true_iff; naive_solver. Qed.
Lemma above_true v x : bound_above v x = true ↔ ∀ b, as_number v = Some b → float_ltb b x = false.
Proof. unfold bound_above. destruct (as_number v); rewrite ?negb_true_iff; naive_solver. Qed.

Lemma required_true required d :
  required_ok required d = true ↔ ∀ item, item ∈ required → ∃ k, item = VStr k ∧ k ∈ keys d.
Proof.
  unfold required_ok. rewrite forallb_true. split; intros H item Hi; specialize (H item Hi).
  - destruct item; try done. eexists. split; [done|]. by apply mem_true.
  - destruct H as (k & -> & Hk). by apply mem_true.
Qed.

Lemma additional_dict schema d :
  get_default (u "additionalProperties") (VBool true) schema = VDict d ↔
  get (u "additionalProperties") schema = VDict d.
Proof. unfold get_default, get. destruct (dict_lookup _ schema); simpl; naive_solver. Qed.

(** The schema that governs a member, if the member is admitted. *)
Definition governing (p : pydict) (additional : pyval) (k : pystr) : option (option pydict) :=
  match get k p, additional with
  | VNone, VBool false => None
  | VNone, VDict a => Some (Some a)
  | VNone, _ => Some None
  | VDict s, _ => Some (Some s)
  | _, _ => None
  end.

Lemma member_governing schema p k o :
  get_default (u "properties") (VDict []) schema = VDict p →
  member_schema schema k o ↔
  governing p (get_default (u "additionalProperties") (VBool true) schema) k = Some o.
Proof.
  intros Hp. unfold governing. split.
  - destruct 1 as [q s Hq Hk|q s Hq Hk Ha|q Hq Hk Hf Ha]; simplify_eq; rewrite Hp in *; simplify_eq.
    + by rewrite Hk.
    + rewrite Hk. by rewrite (proj2 (additional_dict _ _) Ha).
    + rewrite Hk. destruct (get_default (u "additionalProperties") (VBool true) schema) as [|[]| | | | |a] eqn:E; try done.
      apply additional_dict in E. by rewrite E in Ha.
  - destruct (get k p) eqn:Hk; try done.
    + destruct (get_default (u "additionalProperties") (VBool true) schema) as [|[]| | | | |a] eqn:E;
        intros [= <-];
        first [ by eapply member_additional; [| |by apply additional_dict in E]
              | eapply member_free; [done|done|by rewrite E|];
                destruct (as_dict _) as [d|] eqn:Ed; [|done]; apply as_dict_Some, additional_dict in Ed;
                congruence ].
    + intros [= <-]. by eapply member_property.
Qed.

(** One turn of the loop over the members. *)
Lemma member_checked fuel code schema p k x :
  get_default (u "properties") (VDict []) schema = VDict p →
  match get k p, get_default (u "additionalProperties") (VBool true) schema with
  | VNone, VBool false => Err (CapabilityError code [])
  | VNone, VDict a => _validate_node fuel code x a
  | VNone, _ => Ok tt
  | VDict s, _ => _validate_node fuel code x s
  | _, _ => Err (CapabilityError code [])
  end = Ok tt ↔
  (∃ o, member_schema schema k o) ∧
  (∀ s, member_schema schema k (Some s) → _validate_node fuel code x s = Ok tt).
Proof.
  intros Hp. setoid_rewrite (member_governing schema p k _ Hp). unfold governing.
  destruct (get k p); try (split; [done|by intros [[? ?] _]]); [|naive_solver].
  destruct (get_default (u "additionalProperties") (VBool true) schema) as [|[]| | | | |a]; try naive_solver.
Qed.

Lemma members_checked fuel code schema p d :
  get_default (u "properties") (VDict []) schema = VDict p →
  foldR (λ _ kv,
    match get kv.1 p, get_default (u "additionalProperties") (VBool true) schema with
    | VNone, VBool false => Err (CapabilityError code [])
    | VNone, VDict a => _validate_node fuel code kv.2 a
    | VNone, _ => Ok tt
    | VDict s, _ => _validate_node fuel code kv.2 s
    | _, _ => Err (CapabilityError code [])
    end) tt d = Ok tt ↔
  (∀ k, k ∈ keys d → ∃ o, member_schema schema k o) ∧
  (∀ k x s, (k, x) ∈ d → member_schema schema k (Some s) → _validate_node fuel code x s = Ok tt).
Proof.
  intros Hp. rewrite foldR_unit. setoid_rewrite (member_checked _ _ _ _ _ _ Hp). split.
  - intros H. split.
    + intros k Hk. apply list_elem_of_fmap in Hk as ([k' x] & -> & Hkx). by apply (H (k', x)).
    + intros k x s Hkx. by apply (H (k, x)).
  - intros [H1 H2] [k x] Hkx. split; [|by eauto]. apply H1. by apply (list_elem_of_fmap_2 fst) in Hkx.
Qed.

Lemma validate_sound fuel code v schema : _validate_node fuel code v schema = Ok tt → conforms schema v.
Proof.
  revert v schema. induction fuel as [|fuel IH]; intros v schema Hv; [done|].
  simpl in Hv. apply bind_Ok in Hv as ([] & Ht%raise_when_Ok%negb_false_iff & Hv).
  apply bind_Ok in Hv as ([] & He%raise_when_Ok%negb_false_iff & Hv).
  destruct v as [|b|z|f|s|l|d].
  - by constructor.
  - by constructor.
  - simpl in Hv. result_inv. eapply conforms_number; [done..| |]; [by apply below_true|by apply above_true].
  - simpl in Hv. result_inv. eapply conforms_number; [done..| |]; [by apply below_true|by apply above_true].
  - result_inv. constructor; [done..|by apply at_least_true|by apply at_most_true].
  - result_inv. constructor; [done..|by apply at_least_true|by apply at_most_true|].
    intros s x Hs Hx. rewrite Hs in *. apply IH. by eapply (proj1 (foldR_unit (λ x, _validate_node fuel code x s) l) Hv).
  - result_inv. rename select (as_dict _ = Some _) into Hp. rename select (as_list _ = Some _) into Hr.
    apply as_dict_Some in Hp. apply members_checked in Hv as [Hm Hs]; [|done].
    econstructor; [done|done|by rewrite Hp| |by apply required_true|done|by eauto].
    by destruct (get_default (u "required") _ schema); naive_solver.
Qed.

Lemma validate_complete fuel code v schema :
  conforms schema v → (height v < fuel)%nat → _validate_node fuel code v schema = Ok tt.
Proof.
  intros Hc. revert fuel. induction Hc as
    [schema d required Ht He [p Hp%as_dict_Some] Hr Hreq Hm _ IH|schema l Ht He Hmin Hmax _ IH
    |schema s Ht He Hmin Hmax|schema v x Hx Hb Ht He Hmin Hmax|schema Ht He|schema b Ht He];
    intros [|fuel] Hf; try lia; cbn [_validate_node]; rewrite Ht, He; cbn [negb raise_when];
    cbn [mbind result_bind].
  - rewrite Hp, Hr. cbn. rewrite (proj2 (required_true required d)) by done. cbn.
    apply members_checked; [done|]. split; [done|]. intros k y s Hk Hs.
    eapply IH; [done..|]. pose proof (height_member k y d Hk). lia.
  - rewrite (proj2 (at_least_true _ _)), (proj2 (at_most_true _ _)) by done. cbn.
    destruct (get (u "items") schema) as [| | | | | |s] eqn:Hs; try done.
    apply foldR_unit. intros y Hy. eapply IH; [done..|]. pose proof (height_item y l Hy). lia.
  - by rewrite (proj2 (at_least_true _ _)), (proj2 (at_most_true _ _)).
  - destruct v; try done; simpl in Hx; simplify_eq; cbn;
      by rewrite (proj2 (below_true _ _)), (proj2 (above_true _ _)).
  - done.
  - done.
Qed.

Definition fits (v : pyval) (max_bytes : Z) : Prop :=
  ∃ t b, json_dumps true v = Some t ∧ utf8_encode t = Some b ∧ Z.of_nat (length b) <= max_bytes.

Lemma payload_accepted v schema max_bytes code :
  validate_payload v schema max_bytes code = Ok tt → conforms schema v ∧ fits v max_bytes.
Proof.
  unfold validate_payload. intros Hv. result_inv.
  rename select (_ = Some _) into Hd. apply bind_Some in Hd as (t & Ht & Hb).
  split; [by eapply validate_sound|]. exists t. eexists. split_and!; [done..|]. by apply Z.ltb_ge.
Qed.

(** C35: An accepted payload conforms to its schema, read as an inductive definition of the
    supported keywords, and every payload of at most 16 levels that conforms and fits the byte
    limit is accepted. *)
Theorem validate_payload_correct v schema max_bytes code :
  (validate_payload v schema max_bytes code = Ok tt → conforms schema v) ∧
  ((height v <= _MAX_DEPTH)%nat →
   validate_payload v schema max_bytes code = Ok tt ↔ conforms schema v ∧ fits v max_bytes).
Proof.
  split; [by intros [Hc _]%payload_accepted|]. intros Hh. split; [apply payload_accepted|].
  intros [Hc (t & b & Ht & Hb & Hl)]. unfold validate_payload. rewrite Ht.
  cbn [mbind option_bind]. rewrite Hb. cbn [of_option mbind result_bind].
  rewrite (proj2 (Z.ltb_ge _ _)) by done. apply validate_complete; [done|lia].
Qed.

(** The keywords the validator reads. *)
Definition keywords : list pystr :=
  [u "type"; u "enum"; u "properties"; u "required"; u "additionalProperties"; u "minItems";
   u "maxItems"; u "items"; u "minLength"; u "maxLength"; u "minimum"; u "maximum"].

Lemma get_set_ne k k' x schema : k ≠ k' → get k' (dict_set k x schema) = get k' schema.
Proof. intros Hk. unfold get. by rewrite dict_lookup_set_ne. Qed.
Lemma get_default_set_ne k k' x v schema :
  k ≠ k' → get_default k' v (dict_set k x schema) = get_default k' v schema.
Proof. intros Hk. unfold get_default. by rewrite dict_lookup_set_ne. Qed.

Lemma node_ignores fuel code v k x schema :
  k ∉ keywords → _validate_node fuel code v (dict_set k x schema) = _validate_node fuel code v schema.
Proof.
  intros Hk. assert (∀ k', mem k' keywords = true → k ≠ k') as H.
  { intros k' H%mem_true ->. done. }
  destruct fuel as [|fuel]; [done|]. cbn [_validate_node]. unfold type_ok, enum_ok.
  rewrite !get_set_ne, !get_default_set_ne by (apply H; vm_compute; reflexivity). reflexivity.
Qed.

(** Adding a constraint under a keyword the validator does not know, such as the pattern of
    several input schemas, changes no answer: the constraint is not enforced. *)
Theorem other_keywords_are_ignored k x schema v max_bytes code :
  k ∉ keywords →
  validate_payload v (dict_set k x schema) max_bytes code = validate_payload v schema max_bytes code.
Proof.
  intros Hk. unfold validate_payload. destruct (of_option _ _) as [b|e]; cbn [mbind result_bind]; [|done].
  destruct (raise_when _ _); cbn [mbind result_bind]; [|done]. by apply node_ignores.
Qed.

(** A list under [type] accepts every value. *)
Theorem type_union_is_ignored schema l v :
  get (u "type") schema = VList l → type_ok schema v = true.
Proof. unfold type_ok. by intros ->. Qed.
