(* ===== verification/CapabilityRegistry.v ===== *)
(** * Capabilities: the registry

    [runtime/capabilities/registry.py] and the parts of [provider.py] it calls: the catalog with
    its dependency checks, the availability of a definition in a context, and the composition of
    extension providers over the base catalog. *)
From S2P Require Import Prelude PyText Regex PyValue Json EffectPlan Capability Dependencies.
Local Open Scope Z_scope.

(** The catalog as a finite map. *)
Abbreviation registry := (gmap pystr CapabilityDefinition).

(** [CapabilityRegistry.resolve] *)
Definition resolve (reg : registry) (name : pystr) : result plan_exn CapabilityDefinition :=
  of_option (reg !! name) (CapabilityError (u "capability_not_registered") []).

Definition by_name (definitions : list CapabilityDefinition) : registry :=
  list_to_map ((λ d, (d_name d, d)) <$> definitions).

Record CapabilityProviderStatus := MkStatus {
  ps_provider_id : pystr;
  ps_version : pystr;
  ps_state : pystr;
  ps_optional : bool;
  ps_capability_count : nat;
  ps_error_code : pystr;
  ps_skill_count : nat;
  ps_context_provider_count : nat;
  ps_evidence_provider_count : nat;
  ps_api_version : pystr }.

(** [rg_definitions] are the values of [_by_name] in its order, and [rg_capability_providers] is
    the dict [_capability_providers]. *)
Record CapabilityRegistry := MkRegistry {
  rg_definitions : list CapabilityDefinition;
  rg_provider_statuses : list CapabilityProviderStatus;
  rg_capability_providers : list (pystr * pystr) }.

(** ** Construction *)

Definition def_leb (d e : CapabilityDefinition) : bool := str_leb (d_name d) (d_name e).
Definition status_leb (x y : CapabilityProviderStatus) : bool :=
  str_leb (ps_provider_id x) (ps_provider_id y).

(** The names and executors seen so far. *)
Definition check_new (seen : list pystr * list pystr) (d : CapabilityDefinition)
    : result plan_exn (list pystr * list pystr) :=
  refuse (mem (d_name d) seen.1) (u "capability_name_duplicate");;
  refuse (mem (executor_id d) seen.2) (u "capability_executor_duplicate");;
  Ok (d_name d :: seen.1, executor_id d :: seen.2).

Definition _validate_provider_local_definitions (definitions : list CapabilityDefinition)
    : result plan_exn unit :=
  foldR check_new ([], []) definitions;; Ok tt.

(** [int(version)] of a version: [int] refuses more than 4300 digits. *)
Definition version_number (version : pystr) : result plan_exn Z :=
  raise_when (negb (forallb is_digit version) || bool_decide (version = [])
              || (4300 <? Z.of_nat (length version))) PyValueError;;
  Ok (Z.of_N (digits_value version)).

Definition dependency_names (reg : registry) (name : pystr) : list pystr :=
  match reg !! name with Some d => dep_name <$> d_dependencies d | None => [] end.

Definition RecursionError : plan_exn := OtherError (u "RecursionError").
Definition dependency_cycle : plan_exn := CapabilityError (u "capability_dependency_cycle") [].

(** The loops before the search: every dependency is there, with its version. *)
Definition check_dependency_target (reg : registry) (x : CapabilityDependency) : result plan_exn unit :=
  target ← of_option (reg !! dep_name x) (CapabilityError (u "capability_dependency_missing") []);
  have ← version_number (d_version target);
  want ← version_number (dep_minimum_version x);
  refuse (have <? want) (u "capability_dependency_version_mismatch").

Definition _validate_dependencies (definitions : list CapabilityDefinition) : result plan_exn unit :=
  let reg := by_name definitions in
  foldR (λ _ d, foldR (λ _ x, check_dependency_target reg x) tt (d_dependencies d)) tt definitions;;
  foldR (visit (dependency_names reg) dependency_cycle RecursionError (S (length definitions)) [])
    [] (d_name <$> definitions);;
  Ok tt.

(** [CapabilityRegistry.__init__] *)
Definition new_registry (definitions : list CapabilityDefinition)
    (provider_statuses : list CapabilityProviderStatus) (capability_providers : list (pystr * pystr))
    : result plan_exn CapabilityRegistry :=
  let definitions := sort_by def_leb definitions in
  foldR check_new ([], []) definitions;;
  let statuses := sort_by status_leb provider_statuses in
  refuse (has_dup (ps_provider_id <$> statuses)) (u "capability_provider_duplicate");;
  refuse (existsb (λ p, negb (mem p.1 (d_name <$> definitions))) capability_providers)
    (u "capability_provider_mapping_invalid");;
  _validate_dependencies definitions;;
  Ok (MkRegistry definitions statuses capability_providers).

Definition provider_for (rg : CapabilityRegistry) (name : pystr) : result plan_exn (option pystr) :=
  refuse (negb (mem name (d_name <$> rg_definitions rg))) (u "capability_not_registered");;
  Ok (dict_lookup name (rg_capability_providers rg)).

Definition by_namespace (rg : CapabilityRegistry) (ns : pystr) : list CapabilityDefinition :=
  filter (λ d, str_eqb (namespace d) ns || startswith (ns ++ u ".") (d_name d)) (rg_definitions rg).

(** ** Availability *)

(** The effective user and the guards of a context: [None] stands for a call that raises. *)
Class CapabilityUser := {
  user_has_group : option (pystr → option bool);
  guard_result : pystr → option bool }.

Section availability.
Context `{CapabilityUser} (metadata : pydict).

(** [CapabilityDefinition.available_for] *)
Definition available_for (d : CapabilityDefinition) : bool :=
  (match d_required_groups d, user_has_group with
   | [], _ => true
   | _, None => false
   | groups, Some has_group => forallb (λ g, default false (has_group g)) groups
   end)
  && (if d_guard d then default false (guard_result (d_name d)) else true).

(** The loop over the namespaces, from the longest; each is shorter than the one before. *)
Fixpoint namespace_override (fuel : nat) (overrides : pydict) (ns : pystr) : option bool :=
  match fuel, ns with
  | S fuel, _ :: _ =>
      match get (ns ++ u ".*") overrides with
      | VBool b => Some b
      | _ => namespace_override fuel overrides (default [] (before_last 46 ns))
      end
  | _, _ => None
  end.

Definition _enabled_by_context (d : CapabilityDefinition) : bool :=
  let overrides := match get (u "capability_enabled") metadata with VDict o => o | _ => [] end in
  match get (d_name d) overrides with
  | VBool exact => exact
  | _ => default (d_default_enabled d)
           (namespace_override (length (namespace d)) overrides (namespace d))
  end.

(** [_available]: whether, and the memo afterwards. *)
Fixpoint _available (fuel : nat) (reg : registry) (memo : list (pystr * bool))
    (d : CapabilityDefinition) : result plan_exn (bool * list (pystr * bool)) :=
  match fuel with
  | O => Err RecursionError
  | S fuel =>
      match dict_lookup (d_name d) memo with
      | Some b => Ok (b, memo)
      | None =>
          '(enabled, memo) ←
            (if _enabled_by_context d && available_for d then
               foldR (λ acc x,
                 if acc.1 : bool then
                   target ← resolve reg (dep_name x);
                   _available fuel reg acc.2 target
                 else Ok acc) (true, memo) (d_dependencies d)
             else Ok (false, memo));
          Ok (enabled, dict_set (d_name d) enabled memo)
      end
  end.

Definition available (rg : CapabilityRegistry) : result plan_exn (list CapabilityDefinition) :=
  let reg := by_name (rg_definitions rg) in
  fst <$> foldR (λ acc d,
    '(b, memo) ← _available (S (length (rg_definitions rg))) reg acc.2 d;
    Ok (if b : bool then acc.1 ++ [d] else acc.1, memo)) ([], []) (rg_definitions rg).

Definition with_exposure (e : CapabilityExposure) (rg : CapabilityRegistry)
    : result plan_exn (list CapabilityDefinition) :=
  filter (λ d, d_exposure d = e) <$> available rg.

Definition for_reasoning : CapabilityRegistry → result plan_exn (list CapabilityDefinition) :=
  with_exposure ExposeReasoning.
Definition for_planning : CapabilityRegistry → result plan_exn (list CapabilityDefinition) :=
  with_exposure ExposePlan.
Definition for_host : CapabilityRegistry → result plan_exn (list CapabilityDefinition) :=
  with_exposure ExposeHost.

Definition model_catalog (rg : CapabilityRegistry) : result plan_exn (list pydict) :=
  reasoning ← for_reasoning rg;
  planning ← for_planning rg;
  Ok (wire_descriptor <$> reasoning ++ planning).
End availability.

(** ** Extension providers *)

Definition CAPABILITY_PROVIDER_API_VERSION : pystr := u "1".
Definition RESERVED_PROVIDER_NAMESPACES : list pystr := [u "odoo."; u "assistant."; u "host."].

(** [pv_loader] is what the loader returns or raises; [None] in its list is an object that is
    not a definition. *)
Record CapabilityProvider := MkProvider {
  pv_provider_id : pystr;
  pv_version : pystr;
  pv_definitions : list CapabilityDefinition;
  pv_loader : option (result plan_exn (list (option CapabilityDefinition)));
  pv_skills : list pystr;
  pv_context_providers : list pystr;
  pv_optional : bool;
  pv_metadata : pydict;
  pv_evidence_providers : list pystr;
  pv_api_version : pystr }.

Definition _uses_reserved_namespace (identifier : pystr) : bool :=
  existsb (λ p, startswith p identifier) RESERVED_PROVIDER_NAMESPACES.

Definition contract_error_code (p : CapabilityProvider) (definitions : option (list CapabilityDefinition))
    : option pystr :=
  let owner := py_eq (get (u "namespace_owner") (pv_metadata p)) (VStr (u "core")) in
  if negb (str_eqb (pv_api_version p) CAPABILITY_PROVIDER_API_VERSION) then
    Some (u "capability_provider_api_version_incompatible")
  else if _uses_reserved_namespace (pv_provider_id p) && negb owner then
    Some (u "capability_provider_namespace_reserved")
  else if owner then None
  else
    let executable := default (pv_definitions p) definitions in
    if existsb _uses_reserved_namespace
         ((d_name <$> executable) ++ pv_skills p ++ pv_context_providers p ++ pv_evidence_providers p)
    then Some (u "capability_provider_resource_namespace_reserved")
    else None.

Definition load_definitions (p : CapabilityProvider) : result plan_exn (list CapabilityDefinition) :=
  match pv_loader p with
  | None => Ok (pv_definitions p)
  | Some (Ok values) =>
      of_option (mapM id values) (CapabilityError (u "capability_provider_definition_invalid") [])
  | Some (Err (CapabilityError code _)) => Err (CapabilityError (take 160 code) [])
  | Some (Err _) => Err (CapabilityError (u "capability_provider_load_failed") [])
  end.

Definition _failed_provider_status (p : CapabilityProvider) (error_code : pystr)
    : CapabilityProviderStatus :=
  MkStatus (pv_provider_id p) (pv_version p) (u "failed") (pv_optional p) 0 error_code 0 0 0
    (pv_api_version p).
Definition loaded_status (p : CapabilityProvider) (definitions : list CapabilityDefinition)
    : CapabilityProviderStatus :=
  MkStatus (pv_provider_id p) (pv_version p) (u "loaded") (pv_optional p) (length definitions) []
    (length (pv_skills p)) (length (pv_context_providers p)) (length (pv_evidence_providers p))
    (pv_api_version p).

(** The statuses so far and the dict of the loaded providers, in the order of their insertion. *)
Record composition := MkComposition {
  cm_statuses : list CapabilityProviderStatus;
  cm_loaded : list (CapabilityProvider * list CapabilityDefinition) }.

Definition provider_failed (p : CapabilityProvider) (error_code : pystr) (c : composition) : composition :=
  MkComposition (cm_statuses c ++ [_failed_provider_status p error_code]) (cm_loaded c).

Definition _handle_provider_failure (p : CapabilityProvider) (error_code : pystr) (c : composition)
    : result plan_exn composition :=
  refuse (negb (pv_optional p)) error_code;;
  Ok (provider_failed p error_code c).

(** The turn of the loop over the providers. *)
Definition load_provider (c : composition) (p : CapabilityProvider) : result plan_exn composition :=
  match contract_error_code p None with
  | Some error => _handle_provider_failure p error c
  | None =>
      match definitions ← load_definitions p;
            _validate_provider_local_definitions definitions;; Ok definitions with
      | Err _ => _handle_provider_failure p (u "capability_provider_load_failed") c
      | Ok definitions =>
          match contract_error_code p (Some definitions) with
          | Some error => _handle_provider_failure p error c
          | None => Ok (MkComposition (cm_statuses c) (cm_loaded c ++ [(p, definitions)]))
          end
      end
  end.

Abbreviation loaded_providers := (list (CapabilityProvider * list CapabilityDefinition)).

(** How many owners an identifier has: the base catalog is one, each provider is one. *)
Definition owner_count (f : CapabilityDefinition → pystr) (base : list CapabilityDefinition)
    (loaded : loaded_providers) (x : pystr) : nat :=
  (if mem x (f <$> base) then 1 else 0) + length (filter (λ q, x ∈ f <$> q.2) loaded).

Definition contested (f : CapabilityDefinition → pystr) (base : list CapabilityDefinition)
    (loaded : loaded_providers) (definitions : list CapabilityDefinition) : bool :=
  existsb (λ d, 1 <? owner_count f base loaded (f d))%nat definitions.

(** [_provider_conflicts], in the order of the loaded providers. *)
Definition conflict_of (base : list CapabilityDefinition) (loaded : loaded_providers)
    (definitions : list CapabilityDefinition) : option pystr :=
  if contested d_name base loaded definitions then Some (u "capability_name_duplicate")
  else if contested executor_id base loaded definitions then Some (u "capability_executor_duplicate")
  else None.
Definition _provider_conflicts (base : list CapabilityDefinition) (loaded : loaded_providers)
    : list (CapabilityProvider * pystr) :=
  omap (λ q, pair q.1 <$> conflict_of base loaded q.2) loaded.

(** [loaded.pop(provider_id)] and the failed status, or the exception of a required provider. *)
Definition drop_provider (c : composition) (f : CapabilityProvider * pystr) : composition :=
  provider_failed f.1 f.2
    (MkComposition (cm_statuses c)
       (filter (λ q, pv_provider_id q.1 ≠ pv_provider_id f.1) (cm_loaded c))).
Definition refuse_required (f : CapabilityProvider * pystr) : result plan_exn unit :=
  refuse (negb (pv_optional f.1)) f.2.

(** ** Dependency failures of providers *)

Abbreviation failures := (list (CapabilityProvider * pystr)).

(** [failures.setdefault(provider_id, code)] *)
Definition setdefault (p : CapabilityProvider) (code : pystr) (fs : failures) : failures :=
  if existsb (λ f, str_eqb (pv_provider_id f.1) (pv_provider_id p)) fs then fs else fs ++ [(p, code)].

Definition all_definitions (base : list CapabilityDefinition) (loaded : loaded_providers)
    : list CapabilityDefinition := base ++ mjoin loaded.*2.

(** [owner_by_name.get(name)], [None] for the base catalog. *)
Definition owner_of (loaded : loaded_providers) (name : pystr) : option CapabilityProvider :=
  fst <$> List.find (λ q, mem name (d_name <$> q.2)) loaded.

Definition target_failure (reg : registry) (p : CapabilityProvider) (fs : failures)
    (x : CapabilityDependency) : result plan_exn failures :=
  match reg !! dep_name x with
  | None => Ok (setdefault p (u "capability_dependency_missing") fs)
  | Some target =>
      have ← version_number (d_version target);
      want ← version_number (dep_minimum_version x);
      Ok (if have <? want then setdefault p (u "capability_dependency_version_mismatch") fs else fs)
  end.

(** [visiting[visiting.index(name):]] *)
Fixpoint drop_until (name : pystr) (l : list pystr) : list pystr :=
  match l with
  | [] => []
  | x :: r => if str_eqb name x then l else drop_until name r
  end.

Definition blame (loaded : loaded_providers) (fs : failures) (names : list pystr) : failures :=
  foldl (λ fs name, match owner_of loaded name with
                    | Some p => setdefault p (u "capability_dependency_cycle") fs
                    | None => fs
                    end) fs names.

(** The search that records the owners of a cycle and goes on: the visited names and the
    failures afterwards. *)
Fixpoint visit_cycles (fuel : nat) (reg : registry) (loaded : loaded_providers)
    (visiting : list pystr) (acc : list pystr * failures) (name : pystr)
    : result plan_exn (list pystr * failures) :=
  match fuel with
  | O => Err RecursionError
  | S fuel =>
      if mem name acc.1 then Ok acc
      else if mem name visiting then Ok (acc.1, blame loaded acc.2 (drop_until name visiting))
      else
        acc ← foldR (λ acc x,
          if bool_decide (is_Some (reg !! x)) then visit_cycles fuel reg loaded (visiting ++ [name]) acc x
          else Ok acc) acc (dependency_names reg name);
        Ok (name :: acc.1, acc.2)
  end.

Definition _provider_dependency_failures (base : list CapabilityDefinition) (loaded : loaded_providers)
    : result plan_exn failures :=
  let all := all_definitions base loaded in
  let reg := by_name all in
  fs ← foldR (λ fs q,
    foldR (λ fs d, foldR (target_failure reg q.1) fs (d_dependencies d)) fs q.2) [] loaded;
  snd <$> foldR (visit_cycles (S (length all)) reg loaded []) ([], fs) (d_name <$> all).

Definition failure_leb (f g : CapabilityProvider * pystr) : bool :=
  str_leb (pv_provider_id f.1) (pv_provider_id g.1).

(** [while loaded]: every turn but the last drops a provider. *)
Fixpoint settle (fuel : nat) (base : list CapabilityDefinition) (c : composition)
    : result plan_exn composition :=
  match cm_loaded c, fuel with
  | [], _ => Ok c
  | _, O => Err RecursionError
  | _, S fuel =>
      fs ← _provider_dependency_failures base (cm_loaded c);
      match sort_by failure_leb fs with
      | [] => Ok c
      | sorted_fs =>
          foldR (λ _ f, refuse_required f) tt sorted_fs;;
          settle fuel base (foldl drop_provider c sorted_fs)
      end
  end.

Definition provider_leb (p q : CapabilityProvider) : bool := str_leb (pv_provider_id p) (pv_provider_id q).

(** [loaded.get(provider_id)] *)
Definition loaded_of (loaded : loaded_providers) (p : CapabilityProvider)
    : option (list CapabilityDefinition) :=
  snd <$> List.find (λ q, str_eqb (pv_provider_id q.1) (pv_provider_id p)) loaded.

Definition base_providers (rg : CapabilityRegistry) : result plan_exn (list (pystr * pystr)) :=
  foldR (λ m d,
    o ← provider_for rg (d_name d);
    Ok (match o with Some p => dict_set (d_name d) p m | None => m end)) [] (rg_definitions rg).

(** The definitions, the mapping and the statuses of the loaded providers, in order. *)
Definition add_loaded (loaded : loaded_providers)
    (acc : list CapabilityDefinition * list (pystr * pystr) * list CapabilityProviderStatus)
    (p : CapabilityProvider) :=
  match loaded_of loaded p with
  | None => acc
  | Some definitions =>
      let '(ds, m, statuses) := acc in
      (ds ++ definitions,
       foldl (λ m d, dict_set (d_name d) (pv_provider_id p) m) m definitions,
       statuses ++ [loaded_status p definitions])
  end.

Definition compose_capability_registry (base_registry : CapabilityRegistry)
    (providers : list CapabilityProvider) : result plan_exn CapabilityRegistry :=
  let ordered := sort_by provider_leb providers in
  let base := rg_definitions base_registry in
  let base_ids := ps_provider_id <$> rg_provider_statuses base_registry in
  refuse (has_dup (pv_provider_id <$> ordered)) (u "capability_provider_duplicate");;
  refuse (existsb (λ p, mem (pv_provider_id p) base_ids) ordered) (u "capability_provider_duplicate");;
  c ← foldR load_provider (MkComposition (rg_provider_statuses base_registry) []) ordered;
  c ← foldR (λ c f, refuse_required f;; Ok (drop_provider c f)) c
        (_provider_conflicts base (cm_loaded c));
  c ← settle (length (cm_loaded c)) base c;
  m ← base_providers base_registry;
  let '(definitions, m, statuses) := foldl (add_loaded (cm_loaded c)) (base, m, cm_statuses c) ordered in
  new_registry definitions statuses m.
