(* ===== verification/CapabilityRegistryFacts.v ===== *)
(** * Capabilities: what the registry guarantees

    A registry is constructed exactly when its catalog is valid, availability is the inductive
    closure over dependencies, and optional providers never break the composition. *)
From S2P Require Import Prelude PyText Regex PyValue Json EffectPlan Capability Dependencies.
From S2P Require Import CapabilityRegistry.
Local Open Scope Z_scope.

(** ** Valid catalogs *)

Definition definitions_of (l : list CapabilityDefinition) : list (pystr * CapabilityDefinition) :=
  (λ d, (d_name d, d)) <$> l.

Definition target_ok (reg : registry) (x : CapabilityDependency) : Prop :=
  ∃ target have want, reg !! dep_name x = Some target ∧ version_number (d_version target) = Ok have ∧
    version_number (dep_minimum_version x) = Ok want ∧ want <= have.

Record valid_catalog (l : list CapabilityDefinition) : Prop := {
  vc_names : NoDup (d_name <$> l);
  vc_executors : NoDup (executor_id <$> l);
  vc_targets : ∀ d x, d ∈ l → x ∈ d_dependencies d → target_ok (by_name l) x;
  vc_grounded : ∀ d, d ∈ l → grounded (dependency_names (by_name l)) (d_name d) }.

Lemma keys_definitions l : (definitions_of l).*1 = d_name <$> l.
Proof. unfold definitions_of. rewrite <- list_fmap_compose. by apply list_fmap_ext. Qed.

Lemma by_name_map l : by_name l = list_to_map (definitions_of l).
Proof. done. Qed.

Lemma by_name_lookup l d : NoDup (d_name <$> l) → d ∈ l → by_name l !! d_name d = Some d.
Proof.
  intros Hn Hd. rewrite by_name_map. apply elem_of_list_to_map_1; [by rewrite (keys_definitions l)|].
  apply list_elem_of_fmap. by exists d.
Qed.
Lemma by_name_Some l name d : by_name l !! name = Some d → d ∈ l ∧ d_name d = name.
Proof.
  intros H. apply elem_of_list_to_map_2, list_elem_of_fmap in H as (d' & [= -> ->] & Hd). done.
Qed.
Lemma by_name_is_Some l name :
  NoDup (d_name <$> l) → is_Some (by_name l !! name) ↔ name ∈ d_name <$> l.
Proof.
  intros Hn. split.
  - intros [d [Hd <-]%by_name_Some]. by apply list_elem_of_fmap_2.
  - intros (d & -> & Hd)%list_elem_of_fmap. rewrite by_name_lookup by done. by eexists.
Qed.
Lemma by_name_perm l l' : NoDup (d_name <$> l) → l ≡ₚ l' → by_name l = by_name l'.
Proof.
  intros Hn Hp. rewrite !by_name_map. apply list_to_map_proper; [by rewrite (keys_definitions l)|].
  by apply fmap_Permutation.
Qed.

Lemma valid_catalog_perm l l' : l ≡ₚ l' → valid_catalog l → valid_catalog l'.
Proof.
  intros Hp [Hn He Ht Hg]. pose proof (by_name_perm l l' Hn Hp) as Hb. split.
  - by rewrite <- Hp.
  - by rewrite <- Hp.
  - intros d x Hd. rewrite <- Hb. apply Ht. by rewrite Hp.
  - intros d Hd. rewrite <- Hb. apply Hg. by rewrite Hp.
Qed.

(** ** Construction *)

Lemma check_new_Ok seen d seen' :
  check_new seen d = Ok seen' ↔
  (d_name d ∉ seen.1) ∧ (executor_id d ∉ seen.2) ∧ seen' = (d_name d :: seen.1, executor_id d :: seen.2).
Proof.
  unfold check_new, refuse. split.
  - intros H. result_inv. by rewrite !mem_false in *.
  - intros (H1%mem_false & H2%mem_false & ->). by rewrite H1, H2.
Qed.

Lemma check_new_fold seen l :
  NoDup seen.1 → NoDup seen.2 →
  is_ok (foldR check_new seen l) = true ↔
  NoDup ((d_name <$> l) ++ seen.1) ∧ NoDup ((executor_id <$> l) ++ seen.2).
Proof.
  revert seen. induction l as [|d l IH]; intros seen H1 H2; simpl; [done|].
  assert (∀ {A} (x : A) k m, NoDup (x :: k ++ m) ↔ (x ∉ m) ∧ NoDup (k ++ x :: m)) as Hmove.
  { intros A x k m. rewrite NoDup_cons, not_elem_of_app.
    rewrite <- (Permutation_middle k m x), NoDup_cons, not_elem_of_app. naive_solver. }
  rewrite !Hmove. destruct (check_new seen d) as [seen'|e] eqn:Hc; simpl.
  - apply check_new_Ok in Hc as (Hn & He & ->). rewrite IH; simpl; [naive_solver|by constructor..].
  - split; [done|]. intros [[Hn _] [He _]].
    by rewrite (proj2 (check_new_Ok seen d _) (conj Hn (conj He eq_refl))) in Hc.
Qed.

Lemma check_new_all l :
  is_ok (foldR check_new ([], []) l) = true ↔ NoDup (d_name <$> l) ∧ NoDup (executor_id <$> l).
Proof. rewrite check_new_fold by constructor. simpl. by rewrite !app_nil_r. Qed.

Lemma is_ok_true {E A} (r : result E A) : is_ok r = true ↔ ∃ a, r = Ok a.
Proof. destruct r; naive_solver. Qed.

Lemma foldR_each {A} (f : A → result plan_exn unit) l :
  foldR (λ _ x, f x) tt l = Ok tt ↔ ∀ x, x ∈ l → f x = Ok tt.
Proof.
  induction l as [|x l IH]; simpl; [split; [set_solver|done]|].
  rewrite bind_Ok. split.
  - intros ([] & Hx & Hl) y [->|Hy]%elem_of_cons; [done|]. by apply IH.
  - intros H. exists tt. split; [apply H; by left|]. apply IH. intros y Hy. apply H. by right.
Qed.

Lemma check_target_Ok reg x : check_dependency_target reg x = Ok tt ↔ target_ok reg x.
Proof.
  unfold check_dependency_target, target_ok, refuse. split.
  - intros H. result_inv. eexists _, _, _. split_and!; [done..|]. by apply Z.ltb_ge.
  - intros (target & have & want & -> & Ht & Hw & Hle). simpl. rewrite Ht. simpl. rewrite Hw. simpl.
    by rewrite (proj2 (Z.ltb_ge _ _)).
Qed.

Lemma dependency_names_of l d :
  NoDup (d_name <$> l) → d ∈ l → dependency_names (by_name l) (d_name d) = dep_name <$> d_dependencies d.
Proof. intros Hn Hd. unfold dependency_names. by rewrite by_name_lookup. Qed.

(** With their targets there, the dependencies of a catalog stay in it. *)
Lemma dependencies_closed l :
  NoDup (d_name <$> l) → (∀ d x, d ∈ l → x ∈ d_dependencies d → target_ok (by_name l) x) →
  ∀ x y, x ∈ d_name <$> l → y ∈ dependency_names (by_name l) x → y ∈ d_name <$> l.
Proof.
  intros Hn Ht x y (d & -> & Hd)%list_elem_of_fmap. rewrite dependency_names_of by done.
  intros (dep & -> & Hdep)%list_elem_of_fmap. destruct (Ht _ _ Hd Hdep) as (target & ? & ? & Hl & _).
  apply by_name_is_Some; [done|]. by eexists.
Qed.

Lemma validate_dependencies_Ok l :
  NoDup (d_name <$> l) → NoDup (executor_id <$> l) →
  _validate_dependencies l = Ok tt ↔ valid_catalog l.
Proof.
  intros Hn He. unfold _validate_dependencies. set (G := dependency_names (by_name l)).
  rewrite bind_Ok. split.
  - intros ([] & Hdeps & (visited & Hvisit & _)%bind_Ok).
    assert (∀ d x, d ∈ l → x ∈ d_dependencies d → target_ok (by_name l) x) as Ht.
    { intros d x Hd Hx. apply check_target_Ok.
      pose proof (proj1 (foldR_each (λ d, foldR (λ _ x, check_dependency_target (by_name l) x) tt (d_dependencies d)) l) Hdeps d Hd) as H.
      by apply (proj1 (foldR_each _ _) H). }
    split; [done..|]. intros d Hd.
    apply (visit_all_sound G dependency_cycle RecursionError _ _ _ _ ltac:(by intros x Hx%elem_of_nil) Hvisit).
    by apply list_elem_of_fmap_2.
  - intros [_ _ Ht Hg]. exists tt. split.
    + apply (proj2 (foldR_each (λ d, foldR (λ _ x, check_dependency_target (by_name l) x) tt (d_dependencies d)) l)).
      intros d Hd. apply foldR_each. intros x Hx. apply check_target_Ok. by eapply Ht.
    + destruct (visit_all_complete G dependency_cycle RecursionError (d_name <$> l)
                  (S (length l)) [] (d_name <$> l)) as [vs ->]; [|done| | |done].
      * by apply dependencies_closed.
      * intros x (d & -> & Hd)%list_elem_of_fmap. by apply Hg.
      * rewrite length_fmap. lia.
Qed.

(** The constructor accepts exactly the valid catalogs, and orders them by name. *)
Theorem new_registry_accepts l statuses m rg :
  new_registry l statuses m = Ok rg ↔
  valid_catalog l ∧ NoDup (ps_provider_id <$> statuses) ∧ (∀ p, p ∈ m → p.1 ∈ d_name <$> l) ∧
  rg = MkRegistry (sort_by def_leb l) (sort_by status_leb statuses) m.
Proof.
  unfold new_registry, refuse. cbv zeta.
  pose proof (sort_by_perm def_leb l) as Hp. pose proof (sort_by_perm status_leb statuses) as Hps.
  set (l' := sort_by def_leb l) in *. set (ss := sort_by status_leb statuses) in *.
  assert (∀ p : pystr, p ∈ d_name <$> l' ↔ p ∈ d_name <$> l) as Hnames by (intros p; by rewrite Hp).
  split.
  - intros H. result_inv. rename select (foldR check_new _ _ = Ok _) into Hc.
    assert (NoDup (d_name <$> l') ∧ NoDup (executor_id <$> l')) as [Hn He].
    { apply check_new_all, is_ok_true. by eexists. }
    rename select (_validate_dependencies _ = _) into Hv. apply validate_dependencies_Ok in Hv; [|done..].
    rename select (has_dup _ = false) into Hd. apply has_dup_false in Hd.
    rename select (existsb _ m = false) into Hm. rewrite existsb_false in Hm. split_and!; [|by rewrite <- Hps| |done].
    + by eapply valid_catalog_perm.
    + intros p Hp'. apply Hnames. specialize (Hm _ Hp'). by apply negb_false_iff, mem_true in Hm.
  - intros (Hv & Hs & Hm & ->). apply (valid_catalog_perm l l') in Hv; [|by symmetry].
    destruct (proj1 (is_ok_true _) (proj2 (check_new_all l') (conj (vc_names _ Hv) (vc_executors _ Hv)))) as [seen ->].
    cbn [mbind result_bind]. rewrite (proj2 (has_dup_false _)) by by rewrite Hps.
    cbn [raise_when mbind result_bind]. rewrite (proj2 (existsb_false _ _)).
    2:{ intros p Hp'. apply negb_false_iff, mem_true, Hnames. by apply Hm. }
    cbn [raise_when mbind result_bind].
    rewrite (proj2 (validate_dependencies_Ok l' (vc_names _ Hv) (vc_executors _ Hv)) Hv). done.
Qed.

(** ** Availability *)

Section availability.
Context `{CapabilityUser} (metadata : pydict).

(** Enabled, permitted, and so are all its dependencies, to any depth. *)
Inductive usable (reg : registry) (d : CapabilityDefinition) : Prop :=
| usable_intro :
    _enabled_by_context metadata d = true → available_for d = true →
    (∀ x, x ∈ d_dependencies d → is_Some (reg !! dep_name x)) →
    (∀ x target, x ∈ d_dependencies d → reg !! dep_name x = Some target → usable reg target) →
    usable reg d.

Context (l : list CapabilityDefinition) (Hvalid : valid_catalog l).
Let reg := by_name l.
Let graph := dependency_names reg.
Let nodes := d_name <$> l.

Definition memo_ok (memo : list (pystr * bool)) : Prop :=
  ∀ name b, dict_lookup name memo = Some b → ∃ d, reg !! name = Some d ∧ (b = true ↔ usable reg d).

Lemma memo_ok_set memo d b :
  memo_ok memo → d ∈ l → (b = true ↔ usable reg d) → memo_ok (dict_set (d_name d) b memo).
Proof.
  intros Hm Hd Hb name b'. destruct (decide (name = d_name d)) as [->|Hne].
  - rewrite dict_lookup_set_eq. intros [= <-]. exists d. split; [|done].
    apply by_name_lookup; [by apply vc_names|done].
  - rewrite dict_lookup_set_ne by done. apply Hm.
Qed.

(** What one call owes to the loop over the dependencies. *)
Definition answers (d : CapabilityDefinition) (r : result plan_exn (bool * list (pystr * bool))) : Prop :=
  ∃ b memo, r = Ok (b, memo) ∧ memo_ok memo ∧ (b = true ↔ usable reg d).

Lemma dependency_target d x :
  d ∈ l → x ∈ d_dependencies d → ∃ target, reg !! dep_name x = Some target ∧ target ∈ l ∧ d_name target = dep_name x.
Proof.
  intros Hd Hx. destruct (vc_targets _ Hvalid _ _ Hd Hx) as (target & ? & ? & Ht & _).
  exists target. split; [done|]. by apply by_name_Some.
Qed.

Lemma dependencies_answered fuel d memo (sub : list CapabilityDependency) :
  d ∈ l → sub ⊆ d_dependencies d → memo_ok memo →
  (∀ x target memo, x ∈ sub → reg !! dep_name x = Some target → memo_ok memo →
     answers target (_available metadata fuel reg memo target)) →
  ∃ b memo', foldR (λ acc x,
      if acc.1 : bool then
        target ← resolve reg (dep_name x); _available metadata fuel reg acc.2 target
      else Ok acc) (true, memo) sub = Ok (b, memo') ∧ memo_ok memo' ∧
    (b = true ↔ ∀ x target, x ∈ sub → reg !! dep_name x = Some target → usable reg target).
Proof.
  intros Hd Hsub Hm Hcall.
  enough (∀ b memo (P : Prop), memo_ok memo → (b = true ↔ P) →
    ∃ b' memo', foldR (λ acc x,
      if acc.1 : bool then
        target ← resolve reg (dep_name x); _available metadata fuel reg acc.2 target
      else Ok acc) (b, memo) sub = Ok (b', memo') ∧ memo_ok memo' ∧
    (b' = true ↔ P ∧ ∀ x target, x ∈ sub → reg !! dep_name x = Some target → usable reg target)) as Hgen.
  { destruct (Hgen true memo True Hm) as (b' & memo' & E & Hm' & Hb); [done|]. exists b', memo'. naive_solver. }
  clear memo Hm. revert Hsub Hcall. induction sub as [|x sub IH]; intros Hsub Hcall b memo P Hm Hb; simpl.
  { exists b, memo. split_and!; [done..|]. rewrite Hb. split; [|naive_solver]. intros HP. split; [done|set_solver]. }
  assert (x ∈ d_dependencies d) as Hx by (apply Hsub; by left).
  destruct (dependency_target d x Hd Hx) as (target & Ht & _ & _).
  assert (∃ b1 memo1, (if b then target ← resolve reg (dep_name x); _available metadata fuel reg memo target
            else Ok (b, memo)) = Ok (b1, memo1) ∧ memo_ok memo1 ∧ (b1 = true ↔ P ∧ usable reg target))
    as (b1 & memo1 & -> & Hm1 & Hb1).
  { destruct b.
    - unfold resolve. rewrite Ht. simpl.
      destruct (Hcall x target memo) as (b1 & memo1 & -> & ? & ?); [by left|done..|].
      exists b1, memo1. naive_solver.
    - exists false, memo. split_and!; [done..|]. naive_solver. }
  simpl. destruct (IH ltac:(set_solver) ltac:(intros y t' m' Hy; apply Hcall; by right) b1 memo1 _ Hm1 Hb1)
    as (b2 & memo2 & -> & Hm2 & Hb2).
  exists b2, memo2. split_and!; [done..|]. rewrite Hb2. split.
  - intros [[HP Hu] Hall]. split; [done|]. intros y t' [->|Hy]%elem_of_cons Hyt; [naive_solver|by eapply Hall].
  - intros [HP Hall]. split; [split; [done|]; by eapply (Hall x); [left|]|]. intros y t' Hy. apply Hall. by right.
Qed.

Lemma available_answers fuel path memo d :
  d ∈ l → path_to graph nodes path (d_name d) → (length nodes < fuel + length path)%nat →
  memo_ok memo → answers d (_available metadata fuel reg memo d).
Proof.
  revert path memo d. induction fuel as [|fuel IH]; intros path memo d Hd Hpath Hf Hm;
    pose proof (vc_grounded _ Hvalid d Hd) as Hg;
    pose proof (list_elem_of_fmap_2 d_name l d Hd) as Hin.
  { pose proof (path_room _ _ _ _ Hpath Hg Hin). simpl in Hf. lia. }
  cbn [_available]. destruct (dict_lookup (d_name d) memo) as [b|] eqn:Hlook.
  { destruct (Hm _ _ Hlook) as (d' & Hd' & Hb). exists b, memo. split_and!; [done..|].
    unfold reg in *. rewrite by_name_lookup in Hd' by (done || by apply vc_names). by simplify_eq. }
  destruct (_enabled_by_context metadata d && available_for d) eqn:He.
  - apply andb_true_iff in He as [He Ha].
    destruct (dependencies_answered fuel d memo (d_dependencies d) Hd ltac:(done) Hm) as (b & memo' & -> & Hm' & Hb).
    { intros x target m Hx Ht Hmm. destruct (dependency_target d x Hd Hx) as (t' & Ht' & Htl & Hnt).
      simplify_eq. apply (IH (d_name d :: path)); [done| |simpl; lia|done].
      apply path_extend; [done..|]. unfold graph, reg.
      rewrite dependency_names_of by (done || by apply vc_names). rewrite Hnt. by apply list_elem_of_fmap_2. }
    cbn [mbind result_bind].
    assert (b = true ↔ usable reg d) as Hu.
    { rewrite Hb. split; [intros Hall; constructor; try done|by destruct 1].
      intros x Hx. destruct (dependency_target d x Hd Hx) as (t & Ht & _). by eexists. }
    eexists _, _. split_and!; [done| |done]. by apply memo_ok_set.
  - cbn [mbind result_bind].
    assert (false = true ↔ usable reg d) as Hu.
    { split; [done|]. destruct 1 as [He' Ha' _ _]. by rewrite He', Ha' in He. }
    eexists _, _. split_and!; [done| |done]. by apply memo_ok_set.
Qed.

Lemma available_fold ds acc memo :
  ds ⊆ l → memo_ok memo →
  ∃ k memo', foldR (λ acc d,
      '(b, memo) ← _available metadata (S (length l)) reg acc.2 d;
      Ok (if b : bool then acc.1 ++ [d] else acc.1, memo)) (acc, memo) ds = Ok (acc ++ k, memo') ∧
    k `sublist_of` ds ∧ ∀ d, d ∈ k ↔ d ∈ ds ∧ usable reg d.
Proof.
  revert acc memo. induction ds as [|d ds IH]; intros acc memo Hds Hm; cbn [foldR].
  { exists [], memo. rewrite app_nil_r. split_and!; [done..|set_solver]. }
  destruct (available_answers (S (length l)) [] memo d) as (b & m1 & Ha & Hm1 & Hb).
  - apply Hds. by left.
  - split_and!; [constructor|apply list_subseteq_nil|set_solver].
  - unfold nodes. rewrite length_fmap. simpl. lia.
  - done.
  - cbn [snd]. rewrite Ha. cbn [mbind result_bind fst].
    destruct b.
    + destruct (IH (acc ++ [d]) m1) as (k & m2 & -> & Hk & Hin); [set_solver|done|].
      exists (d :: k), m2. rewrite <- app_assoc. split_and!; [done|by constructor|].
      intros x. rewrite !elem_of_cons, Hin. naive_solver.
    + destruct (IH acc m1) as (k & m2 & -> & Hk & Hin); [set_solver|done|].
      exists k, m2. split_and!; [done|by constructor|].
      intros x. rewrite elem_of_cons, Hin. naive_solver.
Qed.
End availability.

Lemma available_usable `{CapabilityUser} metadata l statuses m rg :
  new_registry l statuses m = Ok rg →
  ∃ k, available metadata rg = Ok k ∧ k `sublist_of` rg_definitions rg ∧
    ∀ d, d ∈ k ↔ d ∈ rg_definitions rg ∧ usable metadata (by_name (rg_definitions rg)) d.
Proof.
  intros (Hv & _ & _ & ->)%new_registry_accepts.
  apply (valid_catalog_perm _ (sort_by def_leb l)) in Hv; [|by rewrite sort_by_perm]. simpl.
  destruct (available_fold metadata _ Hv (sort_by def_leb l) [] [] ltac:(done)) as (k & memo & E & Hs & Hk).
  { intros name b. done. }
  exists k. split; [|done]. unfold available. cbn [rg_definitions]. by rewrite E.
Qed.

(** The availability of a registered name *)
Lemma available_named `{CapabilityUser} metadata l statuses m rg :
  new_registry l statuses m = Ok rg →
  ∃ k, available metadata rg = Ok k ∧ ∀ name d, by_name (rg_definitions rg) !! name = Some d →
    (mem name (d_name <$> k) = true ↔ usable metadata (by_name (rg_definitions rg)) d).
Proof.
  intros Hb. destruct (available_usable metadata _ _ _ _ Hb) as (k & Hk & _ & Hin). exists k. split; [done|].
  intros name d Hd. rewrite mem_true, list_elem_of_fmap. apply by_name_Some in Hd as Hd'. destruct Hd' as [Hd' <-]. split.
  - intros (d' & Hn & Hd2). apply Hin in Hd2 as [Hd2 Hu]. apply new_registry_accepts in Hb as (Hv & _ & _ & Erg).
    apply (valid_catalog_perm _ (sort_by def_leb l)) in Hv; [|by rewrite sort_by_perm].
    assert (by_name (rg_definitions rg) !! d_name d' = Some d') as E by (apply by_name_lookup; [rewrite Erg; apply Hv|done]).
    rewrite <- Hn in E. by simplify_eq.
  - intros Hu. exists d. split; [done|]. by apply Hin.
Qed.

(** C36: In a constructed registry the memoised search returns, in the order of the catalog,
    exactly the definitions that are enabled, allowed for the user, and whose dependencies are
    in turn. *)
Theorem available_correct `{CapabilityUser} metadata l statuses m rg :
  new_registry l statuses m = Ok rg →
  ∃ k, available metadata rg = Ok k ∧ k `sublist_of` rg_definitions rg ∧
    ∀ d, d ∈ k ↔ d ∈ rg_definitions rg ∧ usable metadata (by_name (rg_definitions rg)) d.
Proof. apply available_usable. Qed.

(** * Capabilities: the dependency failures of providers

    [_provider_dependency_failures] ends on every set of providers, blames loaded providers only,
    and finds nothing exactly when the catalog they make with the base is valid. *)
Local Open Scope nat_scope.

Implicit Types (p : CapabilityProvider) (loaded : loaded_providers) (fs : failures).

Definition ids (ps : list CapabilityProvider) : list pystr := pv_provider_id <$> ps.
Definition failure_ids fs : list pystr := (λ f, pv_provider_id f.1) <$> fs.

(** The versions of a definition are numbers that [int] reads. *)
Definition numbered (d : CapabilityDefinition) : Prop :=
  is_ok (version_number (d_version d)) = true ∧
  ∀ x, x ∈ d_dependencies d → is_ok (version_number (dep_minimum_version x)) = true.

Section failures.
Context (bl : list CapabilityDefinition) (base_valid : valid_catalog bl) (loaded : loaded_providers).
Let all := all_definitions bl loaded.
Let reg := by_name all.
Let graph := dependency_names reg.
Let nodes := d_name <$> all.
Hypothesis all_names : NoDup nodes.
Hypothesis all_numbered : ∀ d, d ∈ all → numbered d.

(** Failures name each provider once, and only loaded ones. *)
Definition fs_ok fs : Prop := NoDup (failure_ids fs) ∧ ∀ f, f ∈ fs → f.1 ∈ loaded.*1.

Lemma setdefault_ok p code fs : p ∈ loaded.*1 → fs_ok fs → fs_ok (setdefault p code fs).
Proof.
  intros Hp [Hn Hf]. unfold setdefault. destruct (existsb _ fs) eqn:He; [done|].
  rewrite existsb_false in He. split.
  - unfold failure_ids. rewrite fmap_app. apply NoDup_app. split_and!; [done| |apply NoDup_singleton].
    intros x (f & -> & Hfs)%list_elem_of_fmap Hx%list_elem_of_singleton. simpl in Hx.
    specialize (He f Hfs). rewrite str_eqb_false in He. done.
  - intros f [Hfs|Hfs%list_elem_of_singleton]%elem_of_app; [by apply Hf|]. by subst.
Qed.

Lemma setdefault_nonempty p code fs : setdefault p code fs ≠ [].
Proof.
  unfold setdefault. destruct (existsb _ fs) eqn:He; [|by destruct fs].
  by destruct fs.
Qed.

Lemma owner_loaded name p : owner_of loaded name = Some p → p ∈ loaded.*1.
Proof.
  unfold owner_of. intros (q & Hq & ->)%fmap_Some.
  apply find_some in Hq as [Hq _]. apply list_elem_of_fmap_2. by apply list_elem_of_In.
Qed.

Lemma owner_none name : owner_of loaded name = None → name ∈ nodes → name ∈ d_name <$> bl.
Proof.
  unfold owner_of. rewrite fmap_None. intros Hnone Hn. apply list_elem_of_fmap in Hn as (d & -> & Hd).
  apply elem_of_app in Hd as [Hd|Hd]; [by apply list_elem_of_fmap_2|].
  apply list_elem_of_join in Hd as (ds & Hd & (q & -> & Hq)%list_elem_of_fmap).
  assert (mem (d_name d) (d_name <$> q.2) = false) as Hm.
  { apply (find_none _ _ Hnone q). by apply list_elem_of_In. }
  apply mem_false in Hm. destruct Hm. by apply list_elem_of_fmap_2.
Qed.

Lemma blame_ok names fs : fs_ok fs → fs_ok (blame loaded fs names).
Proof.
  unfold blame. revert fs. induction names as [|x names IH]; intros fs Hf; simpl; [done|].
  apply IH. destruct (owner_of loaded x) eqn:Ho; [|done]. apply setdefault_ok; [by eapply owner_loaded|done].
Qed.

Lemma blame_grows names fs : fs ≠ [] → blame loaded fs names ≠ [].
Proof.
  unfold blame. revert fs. induction names as [|x names IH]; intros fs Hf; simpl; [done|].
  apply IH. destruct (owner_of loaded x); [apply setdefault_nonempty|done].
Qed.

Lemma blame_first names x fs : owner_of loaded x ≠ None → blame loaded fs (x :: names) ≠ [].
Proof.
  intros Ho. change (blame loaded (match owner_of loaded x with
    | Some p => setdefault p (u "capability_dependency_cycle") fs | None => fs end) names ≠ []).
  apply blame_grows. destruct (owner_of loaded x); [apply setdefault_nonempty|done].
Qed.

Lemma drop_until_head x l : x ∈ l → ∃ r, drop_until x l = x :: r.
Proof.
  induction l as [|y l IH]; simpl; [intros H; by apply elem_of_nil in H|].
  destruct (str_eqb x y) eqn:He.
  - apply str_eqb_true in He as ->. by eexists.
  - apply str_eqb_false in He. intros [->|Hx]%elem_of_cons; [done|by apply IH].
Qed.

(** ** Steps that collect failures

    A step never raises, keeps the failures well formed, and leaves none only where there were
    none and the element is in order. *)
Definition collects {A} (dom : A → Prop) (f : failures → A → result plan_exn failures) (P : A → Prop) : Prop :=
  ∀ fs a, dom a → fs_ok fs → ∃ fs', f fs a = Ok fs' ∧ fs_ok fs' ∧ (fs' = [] → fs = [] ∧ P a).

Lemma collects_fold {A} (dom : A → Prop) f (P : A → Prop) :
  collects dom f P →
  collects (λ l, ∀ a, a ∈ l → dom a) (λ fs l, foldR f fs l) (λ l, ∀ a, a ∈ l → P a).
Proof.
  intros Hc fs l. revert fs. induction l as [|a l IH]; intros fs Hdom Hf; simpl.
  { exists fs. split_and!; [done..|]. intros ->. split; [done|]. intros a Ha. by apply elem_of_nil in Ha. }
  destruct (Hc fs a) as (fs1 & -> & Hf1 & Hn1); [apply Hdom; by left|done|]. simpl.
  destruct (IH fs1) as (fs2 & -> & Hf2 & Hn2); [intros b Hb; apply Hdom; by right|done|].
  exists fs2. split_and!; [done..|]. intros H2. destruct (Hn2 H2) as [H1 Hl].
  destruct (Hn1 H1) as [H0 Ha]. split; [done|]. intros b [->|Hb]%elem_of_cons; [done|by apply Hl].
Qed.

Lemma is_ok_some {E A} (r : result E A) : is_ok r = true → ∃ a, r = Ok a.
Proof. destruct r; [by eexists|done]. Qed.

Lemma target_collects p :
  p ∈ loaded.*1 →
  collects (λ x, is_ok (version_number (dep_minimum_version x)) = true) (target_failure reg p) (target_ok reg).
Proof.
  intros Hp fs x (want & Hw)%is_ok_some Hf. unfold target_failure.
  destruct (reg !! dep_name x) as [target|] eqn:Ht.
  - apply by_name_Some in Ht as Hin. destruct Hin as [Hin _].
    destruct (is_ok_some _ (proj1 (all_numbered _ Hin))) as [have Hh]. rewrite Hh, Hw. simpl.
    eexists. split; [done|]. destruct (have <? want)%Z eqn:Hlt.
    + split; [by apply setdefault_ok|]. intros H. by apply setdefault_nonempty in H.
    + split; [done|]. intros ->. split; [done|]. exists target, have, want. split_and!; [done..|]. by apply Z.ltb_ge.
  - eexists. split; [done|]. split; [by apply setdefault_ok|]. intros H. by apply setdefault_nonempty in H.
Qed.

Definition provider_targets (q : CapabilityProvider * list CapabilityDefinition) : Prop :=
  ∀ d, d ∈ q.2 → ∀ x, x ∈ d_dependencies d → target_ok reg x.

(** The loops over the providers, their definitions and their dependencies. *)
Definition definition_failures p fs (d : CapabilityDefinition) : result plan_exn failures :=
  foldR (target_failure reg p) fs (d_dependencies d).
Definition provider_failures fs (q : CapabilityProvider * list CapabilityDefinition)
    : result plan_exn failures := foldR (definition_failures q.1) fs q.2.

Lemma definition_collects p :
  p ∈ loaded.*1 →
  collects numbered (definition_failures p) (λ d, ∀ x, x ∈ d_dependencies d → target_ok reg x).
Proof. intros Hp fs d [_ Hd] Hf. by apply (collects_fold _ _ _ (target_collects p Hp)). Qed.

Lemma provider_collects : collects (λ q, q ∈ loaded) provider_failures provider_targets.
Proof.
  intros fs q Hq Hf.
  apply (collects_fold _ _ _ (definition_collects q.1 (list_elem_of_fmap_2 fst _ _ Hq))); [|done].
  intros d Hd. apply all_numbered, elem_of_app. right. apply list_elem_of_join.
  exists q.2. split; [done|]. by apply (list_elem_of_fmap_2 snd).
Qed.

Lemma targets_collected :
  ∃ fs, foldR provider_failures [] loaded = Ok fs ∧ fs_ok fs ∧
    (fs = [] → ∀ q, q ∈ loaded → provider_targets q).
Proof.
  destruct (collects_fold _ _ _ provider_collects [] loaded) as (fs & E & Hf & Hn); [done| |].
  - split; [constructor|]. intros f Hf. by apply elem_of_nil in Hf.
  - exists fs. split_and!; [done..|]. intros H. by apply Hn.
Qed.

(** ** The search for cycles *)

(** One dependency of the loop: names outside the catalog are skipped. *)
Definition visit_dependency (fuel : nat) (visiting : list pystr) (acc : list pystr * failures) (x : pystr)
    : result plan_exn (list pystr * failures) :=
  if bool_decide (is_Some (reg !! x)) then visit_cycles fuel reg loaded visiting acc x else Ok acc.

Lemma stack_room (visiting : list pystr) name :
  NoDup visiting → visiting ⊆ nodes → name ∈ nodes → name ∉ visiting → length visiting < length nodes.
Proof.
  intros Hn Hs Hin Hni. assert (name :: visiting ⊆+ nodes) as Hsub.
  { apply NoDup_submseteq; [by constructor|]. intros x [->|Hx]%elem_of_cons; auto. }
  apply submseteq_length in Hsub. simpl in Hsub. lia.
Qed.

Lemma stack_bound (visiting : list pystr) :
  NoDup visiting → visiting ⊆ nodes → length visiting <= length nodes.
Proof. intros Hn Hs. by apply submseteq_length, NoDup_submseteq. Qed.

(** The search ends without an exception. *)
Lemma visit_cycles_total fuel visiting acc name :
  NoDup visiting → visiting ⊆ nodes → name ∈ nodes → length nodes < fuel + length visiting →
  fs_ok acc.2 →
  ∃ acc', visit_cycles fuel reg loaded visiting acc name = Ok acc' ∧ fs_ok acc'.2.
Proof.
  revert visiting acc name. induction fuel as [|fuel IH]; intros visiting acc name Hn Hs Hin Hf Hok.
  { pose proof (stack_bound visiting Hn Hs). simpl in Hf. lia. }
  cbn [visit_cycles]. destruct (mem name acc.1); [by eexists|].
  destruct (mem name visiting) eqn:Hm; [eexists; split; [done|]; by apply blame_ok|].
  apply mem_false in Hm. fold (visit_dependency fuel (visiting ++ [name])).
  assert (∀ ds acc, fs_ok acc.2 →
    ∃ acc', foldR (visit_dependency fuel (visiting ++ [name])) acc ds = Ok acc' ∧ fs_ok acc'.2) as Hfold.
  { intros ds. induction ds as [|x ds IHds]; intros acc0 Hok0; cbn [foldR]; [by eexists|].
    assert (∃ acc1, visit_dependency fuel (visiting ++ [name]) acc0 x = Ok acc1 ∧ fs_ok acc1.2)
      as (acc1 & -> & Hok1).
    { unfold visit_dependency. case_bool_decide as Hx; [|by eexists]. apply IH.
      - apply NoDup_app. split_and!; [done| |apply NoDup_singleton].
        intros y Hy ->%list_elem_of_singleton. done.
      - intros y [Hy|Hy%list_elem_of_singleton]%elem_of_app; [by apply Hs|by subst].
      - by apply by_name_is_Some.
      - rewrite length_app. simpl. lia.
      - done. }
    by apply IHds. }
  destruct (Hfold (dependency_names reg name) acc Hok) as (acc1 & -> & Hok1). by eexists.
Qed.

(** The base catalog keeps its dependencies, so it stays grounded. *)
Lemma base_names name d : by_name bl !! name = Some d → reg !! name = Some d.
Proof.
  intros [Hd <-]%by_name_Some. apply by_name_lookup; [done|]. apply elem_of_app. by left.
Qed.

Lemma base_grounded name : name ∈ d_name <$> bl → grounded graph name.
Proof.
  intros (d & -> & Hd)%list_elem_of_fmap. pose proof (vc_grounded _ base_valid d Hd) as Hg.
  remember (d_name d) as x eqn:Hx. revert d Hd Hx. induction Hg as [x _ IH]. intros d Hd ->.
  apply grounded_intro. intros y Hy.
  assert (graph (d_name d) = dependency_names (by_name bl) (d_name d)) as Hsame.
  { unfold graph, dependency_names.
    by rewrite (base_names _ d), by_name_lookup by (apply base_valid || done || by apply by_name_lookup, Hd; apply base_valid). }
  rewrite Hsame in Hy.
  assert (y ∈ d_name <$> bl) as (d' & -> & Hd')%list_elem_of_fmap.
  { eapply (dependencies_closed bl); [apply base_valid|apply base_valid| |done]. by apply list_elem_of_fmap_2. }
  by apply (IH (d_name d') Hy d').
Qed.

Lemma outside_grounded name : name ∉ nodes → grounded graph name.
Proof.
  intros Hn. apply grounded_intro. intros y Hy. unfold graph, dependency_names in Hy.
  destruct (reg !! name) as [d|] eqn:Hl; [|by apply elem_of_nil in Hy].
  destruct Hn. apply by_name_is_Some; [done|]. by eexists.
Qed.

(** What a search without failures leaves: the visited names, all grounded. *)
Definition clean (acc acc' : list pystr * failures) : Prop :=
  acc'.2 = [] → acc.2 = [] ∧ (all_grounded graph acc.1 → all_grounded graph acc'.1) ∧ acc.1 ⊆ acc'.1.

Lemma clean_refl acc : clean acc acc.
Proof. by intros H. Qed.
Lemma clean_trans acc1 acc2 acc3 : clean acc1 acc2 → clean acc2 acc3 → clean acc1 acc3.
Proof.
  intros H1 H2 H. destruct (H2 H) as (E2 & G2 & S2). destruct (H1 E2) as (E1 & G1 & S1).
  split_and!; [done|by auto|]. by etrans.
Qed.

Lemma cycle_is_blamed visiting name fs :
  name ∈ visiting → name ∈ nodes → (∀ y, y ∈ visiting → tc (needs graph) y name) →
  blame loaded fs (drop_until name visiting) ≠ [].
Proof.
  intros Hv Hin Hpath. destruct (drop_until_head name visiting Hv) as [r ->]. apply blame_first.
  intros Ho. apply (grounded_no_cycle graph name); [|by apply Hpath].
  by apply base_grounded, owner_none.
Qed.

Lemma visit_cycles_sound fuel visiting acc name acc' :
  name ∈ nodes → (∀ y, y ∈ visiting → tc (needs graph) y name) →
  visit_cycles fuel reg loaded visiting acc name = Ok acc' →
  clean acc acc' ∧ (acc'.2 = [] → all_grounded graph acc.1 → name ∈ acc'.1).
Proof.
  revert visiting acc name acc'. induction fuel as [|fuel IH]; [done|].
  intros visiting acc name acc' Hin Hpath. cbn [visit_cycles].
  destruct (mem name acc.1) eqn:Hv; [intros [= <-]; split; [apply clean_refl|]; by apply mem_true in Hv|].
  destruct (mem name visiting) eqn:Hm.
  { intros [= <-]. apply mem_true in Hm. pose proof (cycle_is_blamed visiting name acc.2 Hm Hin Hpath).
    by split. }
  fold (visit_dependency fuel (visiting ++ [name])).
  assert (∀ ds acc acc', ds ⊆ dependency_names reg name →
    foldR (visit_dependency fuel (visiting ++ [name])) acc ds = Ok acc' →
    clean acc acc' ∧ (acc'.2 = [] → all_grounded graph acc.1 → ∀ x, x ∈ ds → x ∈ nodes → x ∈ acc'.1)) as Hfold.
  { intros ds. induction ds as [|x ds IHds]; intros acc0 acc1 Hds; cbn [foldR].
    { intros [= <-]. split; [apply clean_refl|]. intros _ _ x Hx. by apply elem_of_nil in Hx. }
    intros (acc2 & H1 & H2)%bind_Ok. apply IHds in H2 as [Hc2 Hx2]; [|set_solver].
    assert (clean acc0 acc2 ∧ (acc2.2 = [] → all_grounded graph acc0.1 → x ∈ nodes → x ∈ acc2.1)) as [Hc1 Hx1].
    { unfold visit_dependency in H1. case_bool_decide as Hreg.
      - apply (IH (visiting ++ [name])) in H1 as [Hc Hx]; [by split; auto|by apply by_name_is_Some|].
        assert (needs graph name x) as Hstep by (apply Hds; by left).
        intros p [Hp| ->%list_elem_of_singleton]%elem_of_app; [|by apply tc_once].
        eapply tc_r; [by apply Hpath|done].
      - injection H1 as <-. split; [apply clean_refl|]. intros _ _ Hx.
        destruct Hreg. by apply by_name_is_Some. }
    split; [by eapply clean_trans|]. intros He Hg y [->|Hy]%elem_of_cons Hyn.
    - destruct (Hc2 He) as (E2 & _ & S2). apply S2. by apply Hx1.
    - destruct (Hc2 He) as (E2 & _ & S2). apply Hx2; [done| |done|done]. by apply (Hc1 E2). }
  intros (acc1 & Hrun & [= <-])%bind_Ok. destruct (Hfold _ _ _ ltac:(done) Hrun) as [Hc Hx].
  split; [|intros _ _; by left]. intros He. destruct (Hc He) as (E & G & S). split_and!; [done| |set_solver].
  intros Hg y [->|Hy]%elem_of_cons; [|by apply G]. apply grounded_intro. intros z Hz.
  destruct (decide (z ∈ nodes)) as [Hzn|Hzn]; [|by apply outside_grounded]. apply (G Hg). by apply Hx.
Qed.

Lemma visit_all_cycles names acc :
  names ⊆ nodes → fs_ok acc.2 →
  ∃ acc', foldR (visit_cycles (S (length all)) reg loaded []) acc names = Ok acc' ∧ fs_ok acc'.2 ∧
    clean acc acc' ∧ (acc'.2 = [] → all_grounded graph acc.1 → names ⊆ acc'.1).
Proof.
  revert acc. induction names as [|x names IH]; intros acc Hn Hok; cbn [foldR].
  { exists acc. split_and!; [done|done|apply clean_refl|]. intros _ _ x Hx. by apply elem_of_nil in Hx. }
  destruct (visit_cycles_total (S (length all)) [] acc x) as (acc1 & Hx & Hok1);
    [constructor|apply list_subseteq_nil|apply Hn; by left| |done|].
  { unfold nodes. rewrite length_fmap. simpl. lia. }
  destruct (visit_cycles_sound _ _ _ _ _ ltac:(apply Hn; by left)
    ltac:(by intros p Hp%elem_of_nil) Hx) as [Hc1 Hx1].
  rewrite Hx. cbn [mbind result_bind].
  destruct (IH acc1) as (acc2 & -> & Hok2 & Hc2 & Hx2); [set_solver|done|].
  exists acc2. split_and!; [done|done|by eapply clean_trans|]. intros He Hg.
  destruct (Hc2 He) as (E1 & _ & S2). destruct (Hc1 E1) as (_ & G1 & _).
  intros y [->|Hy]%elem_of_cons; [apply S2; by apply Hx1|apply Hx2; auto].
Qed.

(** ** The failures of a set of providers *)

Lemma dependency_failures_total :
  ∃ fs, _provider_dependency_failures bl loaded = Ok fs ∧ fs_ok fs ∧
    (fs = [] → NoDup (executor_id <$> all) → valid_catalog all).
Proof.
  destruct targets_collected as (fs & E & Hok & Hn).
  destruct (visit_all_cycles nodes ([], fs) ltac:(done) Hok) as ([vs fs'] & Ev & Hok' & Hc & Hx).
  exists fs'. unfold _provider_dependency_failures. cbv zeta.
  change (foldR provider_failures [] loaded) with
    (foldR (λ fs q, foldR (λ fs d, foldR (target_failure reg q.1) fs (d_dependencies d)) fs q.2) [] loaded) in E.
  fold all. fold reg. rewrite E. cbn [mbind result_bind]. fold nodes. rewrite Ev.
  split_and!; [done|done|]. intros -> He. destruct (Hc eq_refl) as (Efs & G & _). simpl in Efs. subst fs.
  assert (all_grounded graph []) as Hnil by (by intros x Hx'%elem_of_nil).
  split; [done|done| |].
  - intros d x [Hd|Hd]%elem_of_app Hxd.
    + destruct (vc_targets _ base_valid d x Hd Hxd) as (target & have & want & Ht & Hrest).
      exists target, have, want. split; [by apply base_names|done].
    + apply list_elem_of_join in Hd as (ds & Hd & (q & -> & Hq)%list_elem_of_fmap).
      by eapply (Hn eq_refl q Hq).
  - intros d Hd. apply (G Hnil), (Hx eq_refl Hnil). by apply list_elem_of_fmap_2.
Qed.
End failures.
