(* ===== verification/CapabilityCompose.v ===== *)
(** * Capabilities: composition of extension providers

    Optional providers cannot break the catalog: whatever their definitions, the composition
    ends with a valid registry that keeps the base catalog and reports every provider once. *)
From S2P Require Import Prelude PyText Regex PyValue Json EffectPlan Capability Dependencies.
From S2P Require Import CapabilityRegistry CapabilityRegistryFacts.
Local Open Scope nat_scope.

Implicit Types (p : CapabilityProvider) (loaded : loaded_providers) (fs : failures).

(** ** Identifiers *)

Lemma id_injective ps p q :
  NoDup (ids ps) → p ∈ ps → q ∈ ps → pv_provider_id p = pv_provider_id q → p = q.
Proof.
  intros Hn Hp Hq Heq. apply list_elem_of_lookup in Hp as [i Hi]. apply list_elem_of_lookup in Hq as [j Hj].
  assert (i = j) as <-; [|congruence].
  eapply NoDup_lookup; [exact Hn| |]; unfold ids; rewrite list_lookup_fmap; [by rewrite Hi|by rewrite Hj, Heq].
Qed.

Lemma sublist_ids ps qs : ps `sublist_of` qs → ids ps `sublist_of` ids qs.
Proof. apply fmap_sublist. Qed.

Lemma sublist_filter {A} (P : A → Prop) `{∀ x, Decision (P x)} (l : list A) : filter P l `sublist_of` l.
Proof. induction l as [|x l IH]; [constructor|]. rewrite filter_cons. destruct (decide _); by constructor. Qed.

(** ** The state between the phases *)

Section compose.
Context (base : CapabilityRegistry).
Let bl := rg_definitions base.
Let base_ids := ps_provider_id <$> rg_provider_statuses base.
Context (ps : list CapabilityProvider).
Hypothesis ps_ids : NoDup (ids ps).
Hypothesis ps_optional : ∀ p, p ∈ ps → pv_optional p = true.

(** Every provider handled so far has a status or is loaded. *)
Record comp_inv (done : list CapabilityProvider) (c : composition) : Prop := {
  ci_ids : (ps_provider_id <$> cm_statuses c) ++ ids (cm_loaded c).*1 ≡ₚ base_ids ++ ids done;
  ci_order : (cm_loaded c).*1 `sublist_of` done;
  ci_definitions : ∀ q, q ∈ cm_loaded c →
    load_definitions q.1 = Ok q.2 ∧ NoDup (d_name <$> q.2) ∧ NoDup (executor_id <$> q.2) }.

Lemma ci_loaded c q : comp_inv ps c → q ∈ cm_loaded c → q.1 ∈ ps.
Proof. intros H Hq. eapply elem_of_sublist; [|apply ci_order, H]. by apply list_elem_of_fmap_2. Qed.

Lemma ci_loaded_ids c : comp_inv ps c → NoDup (ids (cm_loaded c).*1).
Proof. intros H. eapply sublist_NoDup; [exact ps_ids|]. apply sublist_ids, H. Qed.

(** *** Loading *)

Lemma failed_inv dn c p code :
  comp_inv dn c → comp_inv (dn ++ [p]) (provider_failed p code c).
Proof.
  intros [Hi Ho Hd]. split; simpl.
  - unfold ids in *. rewrite !fmap_app, (assoc_L app). rewrite <- Hi. simpl.
    rewrite <- !(assoc_L app). f_equiv. apply Permutation_app_comm.
  - by apply sublist_inserts_r.
  - done.
Qed.

Lemma load_inv dn c p :
  pv_optional p = true → comp_inv dn c →
  ∃ c', load_provider c p = Ok c' ∧ comp_inv (dn ++ [p]) c'.
Proof.
  intros Ho Hc. unfold load_provider, _handle_provider_failure, refuse. rewrite Ho.
  destruct (contract_error_code p None); simpl; [eexists; split; [done|by apply failed_inv]|].
  destruct (load_definitions p) as [ds|e] eqn:Hl; simpl; [|eexists; split; [done|by apply failed_inv]].
  destruct (_validate_provider_local_definitions ds) as [[]|e] eqn:Hv; simpl;
    [|eexists; split; [done|by apply failed_inv]].
  destruct (contract_error_code p (Some ds)); simpl; [eexists; split; [done|by apply failed_inv]|].
  eexists. split; [done|]. destruct Hc as [Hi Hs Hd]. split; simpl.
  - unfold ids in *. rewrite !fmap_app, (assoc_L app), Hi. simpl. by rewrite <- (assoc_L app).
  - rewrite fmap_app. by apply sublist_app.
  - intros q [Hq|Hq]%elem_of_app; [by apply Hd|]. apply list_elem_of_singleton in Hq as ->. simpl. split; [done|].
    apply check_new_all, is_ok_true. unfold _validate_provider_local_definitions in Hv.
    apply bind_Ok in Hv as (seen & Hseen & _). by eexists.
Qed.

Lemma load_all dn c todo :
  (∀ p, p ∈ todo → pv_optional p = true) → comp_inv dn c →
  ∃ c', foldR load_provider c todo = Ok c' ∧ comp_inv (dn ++ todo) c'.
Proof.
  revert dn c. induction todo as [|p todo IH]; intros dn c Ho Hc; simpl.
  { exists c. by rewrite app_nil_r. }
  destruct (load_inv dn c p) as (c1 & -> & H1); [apply Ho; by left|done|]. simpl.
  destruct (IH (dn ++ [p]) c1) as (c2 & -> & H2); [intros q Hq; apply Ho; by right|done|].
  exists c2. split; [done|]. by rewrite <- (assoc_L app) in H2.
Qed.

(** *** Dropping *)

Lemma ids_filter loaded p :
  NoDup (ids loaded.*1) → p ∈ loaded.*1 →
  ids loaded.*1 ≡ₚ
    pv_provider_id p :: ids (filter (λ q, pv_provider_id q.1 ≠ pv_provider_id p) loaded).*1.
Proof.
  unfold ids. induction loaded as [|q loaded IH]; simpl; [intros _ H; by apply elem_of_nil in H|].
  intros [Hq Hn]%NoDup_cons Hp. rewrite filter_cons. destruct (decide _) as [Hne|Heq].
  - apply elem_of_cons in Hp as [->|Hp]; [done|]. simpl. rewrite (IH Hn Hp) at 1. constructor.
  - apply dec_stable in Heq. rewrite Heq, filter_all; [done|]. intros x Hx Hxe. apply Hq.
    rewrite Heq, <- Hxe. apply (list_elem_of_fmap_2 pv_provider_id). by apply list_elem_of_fmap_2.
Qed.

Lemma drop_inv c f :
  comp_inv ps c → f.1 ∈ (cm_loaded c).*1 → comp_inv ps (drop_provider c f).
Proof.
  intros Hc Hf. pose proof (ci_loaded_ids c Hc) as Hn. destruct Hc as [Hi Ho Hd]. split; simpl.
  - rewrite <- Hi, fmap_app. simpl. rewrite <- (assoc_L app). f_equiv.
    by rewrite (ids_filter (cm_loaded c) f.1).
  - etrans; [|exact Ho]. apply fmap_sublist, sublist_filter.
  - intros q [_ Hq]%list_elem_of_filter. by apply Hd.
Qed.

Lemma drop_all c fs :
  comp_inv ps c → NoDup (failure_ids fs) → (∀ f, f ∈ fs → f.1 ∈ (cm_loaded c).*1) →
  comp_inv ps (foldl drop_provider c fs) ∧
  cm_loaded (foldl drop_provider c fs) =
    filter (λ q, pv_provider_id q.1 ∉ failure_ids fs) (cm_loaded c).
Proof.
  revert c. induction fs as [|f fs IH]; intros c Hc Hn Hin; cbn [foldl].
  { split; [done|]. symmetry. apply filter_all. intros q _. apply not_elem_of_nil. }
  change (failure_ids (f :: fs)) with (pv_provider_id f.1 :: failure_ids fs) in *.
  apply NoDup_cons in Hn as [Hf Hn].
  destruct (IH (drop_provider c f)) as [H1 H2]; [| done| |].
  - apply drop_inv; [done|]. apply Hin. by left.
  - intros g Hg. specialize (Hin g ltac:(by right)). apply list_elem_of_fmap in Hin as (q & Hgq & Hq).
    rewrite Hgq.
    apply list_elem_of_fmap. exists q. split; [done|]. apply list_elem_of_filter. split; [|done]. intros Heq. apply Hf.
    change (pv_provider_id q.1 = pv_provider_id f.1) in Heq.
    rewrite <- Heq, <- Hgq. apply list_elem_of_fmap. by exists g.
  - split; [done|]. rewrite H2. simpl. rewrite list_filter_filter. apply list_filter_iff.
    intros q. rewrite not_elem_of_cons. tauto.
Qed.

(** *** Conflicts *)

Lemma owner_unique f loaded (x : pystr) q q' :
  owner_count f bl loaded x <= 1 → q ∈ loaded → q' ∈ loaded → x ∈ f <$> q.2 → x ∈ f <$> q'.2 →
  (x ∉ f <$> bl) ∧ q = q'.
Proof.
  unfold owner_count. intros Hc Hq Hq' Hx Hx'. set (k := filter _ loaded) in Hc.
  assert (q ∈ k) as Hk by by apply list_elem_of_filter.
  assert (q' ∈ k) as Hk' by by apply list_elem_of_filter.
  destruct k as [|a [|b k]]; simpl in Hc.
  - by apply elem_of_nil in Hk.
  - apply list_elem_of_singleton in Hk, Hk'. subst. split; [|done].
    destruct (mem x (f <$> bl)) eqn:Hm; [lia|by apply mem_false].
  - destruct (mem x (f <$> bl)); lia.
Qed.

(** The identifiers [f] of the base and the providers, each with one owner, are distinct. *)
Definition owned (f : CapabilityDefinition → pystr) (loaded : loaded_providers) : Prop :=
  ∀ q x, q ∈ loaded → x ∈ f <$> q.2 →
    (x ∉ f <$> bl) ∧ ∀ q', q' ∈ loaded → x ∈ f <$> q'.2 → q = q'.

Lemma owned_nodup f loaded :
  NoDup (f <$> bl) → NoDup loaded → (∀ q, q ∈ loaded → NoDup (f <$> q.2)) → owned f loaded →
  NoDup (f <$> all_definitions bl loaded).
Proof.
  intros Hb Hl Hq Ho. unfold all_definitions. rewrite fmap_app. apply NoDup_app. split; [done|].
  assert (∀ x, x ∈ f <$> mjoin loaded.*2 → ∃ q, q ∈ loaded ∧ x ∈ f <$> q.2) as Hin.
  { intros x (d & -> & (ds & Hd & (q & -> & Hql)%list_elem_of_fmap)%list_elem_of_join)%list_elem_of_fmap.
    exists q. split; [done|]. by apply list_elem_of_fmap_2. }
  split.
  { intros x Hx Hxl. apply Hin in Hxl as (q & Hql & Hxq). by apply (Ho q x). }
  clear Hb Hin. induction loaded as [|q loaded IH]; simpl; [constructor|].
  apply NoDup_cons in Hl as [Hql Hl]. rewrite fmap_app. apply NoDup_app. split_and!.
  - apply Hq. by left.
  - intros x Hx (d & -> & (ds & Hd & (q' & -> & Hql')%list_elem_of_fmap)%list_elem_of_join)%list_elem_of_fmap.
    destruct (Ho q (f d) ltac:(by left) Hx) as [_ Hu].
    rewrite (Hu q') in Hql; [done|by right|by apply list_elem_of_fmap_2].
  - apply IH; [done|intros q' Hq'; apply Hq; by right|].
    intros q' x Hq' Hx. destruct (Ho q' x ltac:(by right) Hx) as [H1 H2]. split; [done|].
    intros q2 Hq2. apply H2. by right.
Qed.

Lemma owned_filter f loaded (P : CapabilityProvider * list CapabilityDefinition → Prop) `{∀ q, Decision (P q)} :
  owned f loaded → owned f (filter P loaded).
Proof.
  intros Ho q x [_ Hq]%list_elem_of_filter Hx. destruct (Ho q x Hq Hx) as [H1 H2]. split; [done|].
  intros q' [_ Hq']%list_elem_of_filter. by apply H2.
Qed.

(** After the conflicts are dropped, names and executors are distinct. *)
Definition catalog_of (c : composition) : list CapabilityDefinition := all_definitions bl (cm_loaded c).

Lemma conflicts_known base' loaded todo :
  let fs := omap (λ q, pair q.1 <$> conflict_of base' loaded q.2) todo in
  (fs.*1 `sublist_of` todo.*1) ∧
  (∀ q, q ∈ todo → conflict_of base' loaded q.2 ≠ None → pv_provider_id q.1 ∈ failure_ids fs).
Proof.
  simpl. induction todo as [|q todo [IH1 IH2]]; simpl; [split; [done|set_solver]|].
  destruct (conflict_of base' loaded q.2) as [code|] eqn:Hc; simpl.
  - split; [by constructor|]. intros q' [->|Hq']%elem_of_cons Hne; [by left|]. right. by apply IH2.
  - split; [by constructor|]. intros q' [->|Hq']%elem_of_cons Hne; [done|]. by apply IH2.
Qed.

Lemma failure_ids_fst fs : failure_ids fs = ids fs.*1.
Proof. unfold failure_ids, ids. rewrite <- list_fmap_compose. done. Qed.

Lemma refuse_optional fs : (∀ f, f ∈ fs → f.1 ∈ ps) →
  foldR (λ _ f, refuse_required f) tt fs = Ok tt.
Proof.
  intros Hf. apply foldR_each. intros f Hfs. unfold refuse_required, refuse.
  by rewrite ps_optional by by apply Hf.
Qed.

Lemma drop_fold c fs :
  (∀ f, f ∈ fs → f.1 ∈ ps) →
  foldR (λ c f, refuse_required f;; Ok (drop_provider c f)) c fs = Ok (foldl drop_provider c fs).
Proof.
  revert c. induction fs as [|f fs IH]; intros c Hf; [done|]. cbn [foldR foldl].
  unfold refuse_required, refuse. rewrite ps_optional by (apply Hf; by left). simpl.
  apply IH. intros g Hg. apply Hf. by right.
Qed.

Definition distinct (c : composition) : Prop :=
  NoDup (d_name <$> catalog_of c) ∧ NoDup (executor_id <$> catalog_of c).

Hypothesis base_valid : valid_catalog bl.

Lemma distinct_owned c :
  comp_inv ps c → owned d_name (cm_loaded c) → owned executor_id (cm_loaded c) → distinct c.
Proof.
  intros Hc H1 H2. pose proof (ci_loaded_ids c Hc) as Hn.
  assert (NoDup (cm_loaded c)) as Hl by by apply NoDup_fmap_1, NoDup_fmap_1 in Hn.
  split; apply owned_nodup; try done; try apply base_valid;
    intros q Hq; by apply (ci_definitions _ _ Hc q Hq).
Qed.

Lemma conflicts_dropped c :
  comp_inv ps c →
  ∃ c', foldR (λ c f, refuse_required f;; Ok (drop_provider c f)) c
          (_provider_conflicts bl (cm_loaded c)) = Ok c' ∧
    comp_inv ps c' ∧ owned d_name (cm_loaded c') ∧ owned executor_id (cm_loaded c').
Proof.
  intros Hc. unfold _provider_conflicts.
  destruct (conflicts_known bl (cm_loaded c) (cm_loaded c)) as [Hsub Hknown]. set (fs := omap _ _) in *.
  assert (∀ f, f ∈ fs → f.1 ∈ (cm_loaded c).*1) as Hf.
  { intros f Hf. eapply elem_of_sublist; [|exact Hsub]. by apply list_elem_of_fmap_2. }
  rewrite drop_fold.
  2:{ intros f Hfs. apply Hf, list_elem_of_fmap in Hfs as (q & -> & Hq). by eapply ci_loaded. }
  destruct (drop_all c fs) as [Hc' Hl]; [done| |done|].
  { rewrite failure_ids_fst. eapply sublist_NoDup; [by apply ci_loaded_ids|]. by apply sublist_ids. }
  eexists. split; [done|]. split; [done|]. rewrite Hl.
  assert (∀ f, (∀ q : CapabilityProvider * list CapabilityDefinition, conflict_of bl (cm_loaded c) q.2 = None → contested f bl (cm_loaded c) q.2 = false) →
    owned f (filter (λ q, pv_provider_id q.1 ∉ failure_ids fs) (cm_loaded c))) as Howned.
  { intros f Hfree q x [Hni Hq]%list_elem_of_filter Hx.
    assert (contested f bl (cm_loaded c) q.2 = false) as Hcon.
    { apply Hfree. destruct (conflict_of bl (cm_loaded c) q.2) eqn:E; [|done].
      exfalso. apply Hni, Hknown; [done|by rewrite E]. }
    apply list_elem_of_fmap in Hx as (d & -> & Hd). unfold contested in Hcon.
    rewrite existsb_false in Hcon. specialize (Hcon d Hd). apply Nat.ltb_ge in Hcon.
    pose proof (list_elem_of_fmap_2 f _ _ Hd) as Hx. split; [by eapply owner_unique|].
    intros q' [_ Hq']%list_elem_of_filter Hx'. by eapply owner_unique. }
  split; apply Howned; intros q; unfold conflict_of; intros Hnone.
  - by destruct (contested d_name _ _ _).
  - destruct (contested d_name _ _ _); [done|]. by destruct (contested executor_id _ _ _).
Qed.
(** *** Dependencies *)

Hypothesis base_numbered : ∀ d, d ∈ bl → numbered d.
Hypothesis providers_numbered : ∀ p ds d, p ∈ ps → load_definitions p = Ok ds → d ∈ ds → numbered d.

Lemma catalog_numbered c d : comp_inv ps c → d ∈ catalog_of c → numbered d.
Proof.
  intros Hc [Hd|Hd]%elem_of_app; [by apply base_numbered|].
  apply list_elem_of_join in Hd as (ds & Hd & (q & -> & Hq)%list_elem_of_fmap).
  eapply providers_numbered; [by eapply ci_loaded| |done]. by apply (ci_definitions _ _ Hc q Hq).
Qed.

(** The state in which the loop over the failures starts and ends. *)
Record settling (c : composition) : Prop := {
  se_inv : comp_inv ps c;
  se_names : owned d_name (cm_loaded c);
  se_executors : owned executor_id (cm_loaded c) }.

Lemma settling_drop c fs :
  settling c → fs_ok (cm_loaded c) fs → settling (foldl drop_provider c fs) ∧
  (fs ≠ [] → length (cm_loaded (foldl drop_provider c fs)) < length (cm_loaded c)).
Proof.
  intros [Hc H1 H2] [Hn Hf]. destruct (drop_all c fs Hc Hn Hf) as [Hc' Hl]. split.
  - split; [done|..]; rewrite Hl; by apply owned_filter.
  - destruct fs as [|f fs]; [done|]. intros _. rewrite Hl.
    specialize (Hf f ltac:(by left)). apply list_elem_of_fmap in Hf as (q & Hfq & Hq).
    apply length_filter_lt with (x := q); [done|]. intros Hni. apply Hni. rewrite <- Hfq. by left.
Qed.

Lemma fs_ok_perm loaded fs fs' : fs ≡ₚ fs' → fs_ok loaded fs → fs_ok loaded fs'.
Proof.
  intros Hp [Hn Hf]. split; [unfold failure_ids; by rewrite <- Hp|].
  intros f Hfs. apply Hf. by rewrite Hp.
Qed.

Lemma settle_correct fuel c :
  settling c → length (cm_loaded c) <= fuel →
  ∃ c', settle fuel bl c = Ok c' ∧ settling c' ∧ valid_catalog (catalog_of c').
Proof.
  revert c. induction fuel as [|fuel IH]; intros c Hc Hf; cbn [settle];
    destruct (cm_loaded c) as [|q0 l0] eqn:Hl; try (simpl in Hf; lia);
    try (exists c; split_and!; [done|done|unfold catalog_of; rewrite Hl; unfold all_definitions; simpl; by rewrite app_nil_r]).
  rewrite <- Hl. destruct (distinct_owned c) as [Hn He]; [apply Hc..|].
  destruct (dependency_failures_total bl base_valid (cm_loaded c) Hn) as (fs & -> & Hok & Hv).
  { intros d. apply catalog_numbered, Hc. }
  cbn [mbind result_bind]. pose proof (sort_by_perm failure_leb fs) as Hp.
  apply (fs_ok_perm _ _ (sort_by failure_leb fs)) in Hok; [|by symmetry].
  destruct (sort_by failure_leb fs) as [|f fs'] eqn:Hsort.
  { exists c. split_and!; [done|done|]. apply Hv; [symmetry; by apply Permutation_nil_l|done]. }
  rewrite refuse_optional.
  2:{ intros g Hg. destruct Hok as [_ Hok]. specialize (Hok g Hg).
      apply list_elem_of_fmap in Hok as (q & -> & Hq). by apply (ci_loaded c q); [apply Hc|]. }
  cbn [mbind result_bind]. destruct (settling_drop c (f :: fs') Hc Hok) as [Hc' Hlt].
  specialize (Hlt ltac:(done)). apply (IH _ Hc'). rewrite Hl in Hlt. simpl in Hf, Hlt. simpl. lia.
Qed.
End compose.

(** ** The composed registry *)

Lemma keys_dict_set {A} k (v : A) m x : x ∈ keys (dict_set k v m) → x = k ∨ x ∈ keys m.
Proof.
  unfold keys. induction m as [|[k' v'] m IH]; simpl; [set_solver|].
  destruct (str_eqb k k') eqn:E; simpl; [apply str_eqb_true in E as ->|]; set_solver.
Qed.

Lemma loaded_of_in loaded q : NoDup (ids loaded.*1) → q ∈ loaded → loaded_of loaded q.1 = Some q.2.
Proof.
  unfold loaded_of, ids. induction loaded as [|q' loaded IH]; simpl; [intros _ H; by apply elem_of_nil in H|].
  intros [Hn Hd]%NoDup_cons [->|Hq]%elem_of_cons.
  - by rewrite (proj2 (str_eqb_true _ _) eq_refl).
  - destruct (str_eqb _ _) eqn:E; [|by apply IH]. apply str_eqb_true in E. destruct Hn. rewrite E.
    apply (list_elem_of_fmap_2 pv_provider_id). by apply list_elem_of_fmap_2.
Qed.

Lemma loaded_of_out loaded p : pv_provider_id p ∉ ids loaded.*1 → loaded_of loaded p = None.
Proof.
  unfold loaded_of, ids. induction loaded as [|q loaded IH]; simpl; [done|].
  intros [Hne Hn]%not_elem_of_cons. destruct (str_eqb _ _) eqn:E; [by apply str_eqb_true in E|by apply IH].
Qed.

Definition loaded_part loaded (ordered : list CapabilityProvider) : loaded_providers :=
  omap (λ p, pair p <$> loaded_of loaded p) ordered.

Lemma loaded_part_cons loaded p ordered :
  loaded_part loaded (p :: ordered) =
  match loaded_of loaded p with Some l => [(p, l)] | None => [] end ++ loaded_part loaded ordered.
Proof. unfold loaded_part. simpl. by destruct (loaded_of loaded p). Qed.

(** The loaded providers met in the order of their identifiers are the dict itself. *)
Lemma loaded_part_all loaded ordered :
  NoDup (ids ordered) → loaded.*1 `sublist_of` ordered → loaded_part loaded ordered = loaded.
Proof.
  intros Hn Hs. pose proof (sublist_NoDup _ _ Hn (sublist_ids _ _ Hs)) as Hl.
  assert (∀ k os, k.*1 `sublist_of` os → NoDup (ids os) → (∀ q, q ∈ k → loaded_of loaded q.1 = Some q.2) →
    (∀ p, p ∈ os → pv_provider_id p ∉ ids k.*1 → loaded_of loaded p = None) → loaded_part loaded os = k) as H.
  { intros k os Hk. remember k.*1 as ks eqn:Hks. revert k Hks. induction Hk as [|p ks os Hk IH|p ks os Hk IH];
      intros k Hks Hos Hin Hout.
    - by destruct k.
    - destruct k as [|q k]; [done|]. injection Hks as -> ->. apply NoDup_cons in Hos as [Hp Hos].
      unfold loaded_part. simpl. rewrite (Hin q) by by left. simpl. rewrite <- surjective_pairing. f_equal.
      apply IH; [done|done|intros q' Hq'; apply Hin; by right|].
      intros p Hpo Hnk. apply Hout; [by right|]. intros [Heq|Hc]%elem_of_cons; [|done].
      apply Hp. rewrite <- Heq. by apply (list_elem_of_fmap_2 pv_provider_id).
    - apply NoDup_cons in Hos as [Hp Hos]. unfold loaded_part. simpl. rewrite (Hout p); [|by left|].
      + simpl. apply IH; [done|done|done|]. intros p' Hp'. apply Hout. by right.
      + intros Hc. apply Hp. eapply elem_of_sublist; [exact Hc|]. subst ks. by apply sublist_ids. }
  apply H; [done|done| |].
  - intros q. by apply loaded_of_in.
  - intros p _. apply loaded_of_out.
Qed.

Lemma add_loaded_fold loaded ordered ds (m : list (pystr * pystr)) statuses :
  ∃ m', foldl (add_loaded loaded) (ds, m, statuses) ordered =
    (ds ++ mjoin (loaded_part loaded ordered).*2, m',
     statuses ++ ((λ q, loaded_status q.1 q.2) <$> loaded_part loaded ordered)) ∧
    ∀ k, k ∈ keys m' → k ∈ keys m ∨ k ∈ d_name <$> mjoin (loaded_part loaded ordered).*2.
Proof.
  revert ds m statuses. induction ordered as [|p ordered IH]; intros ds m statuses; cbn [foldl].
  { exists m. simpl. rewrite !app_nil_r. split; [done|]. by left. }
  rewrite loaded_part_cons. unfold add_loaded at 2.
  destruct (loaded_of loaded p) as [l|]; simpl; [|apply IH].
  destruct (IH (ds ++ l) (foldl (λ m d, dict_set (d_name d) (pv_provider_id p) m) m l)
              (statuses ++ [loaded_status p l])) as (m' & E & Hm).
  exists m'. split; [by rewrite E, <- !(assoc_L app)|]. intros k Hk. rewrite fmap_app, elem_of_app.
  destruct (Hm k Hk) as [Hkm|Hkm]; [|by right; right].
  clear - Hkm. revert m Hkm. induction l as [|d l IHl]; intros m Hk; simpl in *; [by left|].
  destruct (IHl _ Hk) as [[->|Hkm]%keys_dict_set|[Hl|Hr]]; [right; left; by left|by left| |by right; right].
  right. left. by right.
Qed.

Lemma base_providers_Ok base :
  ∃ m, base_providers base = Ok m ∧ ∀ k, k ∈ keys m → k ∈ d_name <$> rg_definitions base.
Proof.
  unfold base_providers.
  enough (∀ ds m0, ds ⊆ rg_definitions base → (∀ k, k ∈ keys m0 → k ∈ d_name <$> rg_definitions base) →
    ∃ m, foldR (λ m d, o ← provider_for base (d_name d);
           Ok (match o with Some p => dict_set (d_name d) p m | None => m end)) m0 ds = Ok m ∧
      ∀ k, k ∈ keys m → k ∈ d_name <$> rg_definitions base) as H by (apply H; [done|set_solver]).
  intros ds. induction ds as [|d ds IH]; intros m0 Hds Hm; cbn [foldR]; [by exists m0|].
  pose proof (list_elem_of_fmap_2 d_name _ _ (Hds d ltac:(by left))) as Hd.
  unfold provider_for, refuse. rewrite (proj2 (mem_true _ _) Hd). simpl.
  apply IH; [set_solver|]. destruct (dict_lookup _ _); [|done]. intros k [->|Hk]%keys_dict_set; auto.
Qed.

Lemma loaded_status_ids loaded :
  ps_provider_id <$> ((λ q, loaded_status q.1 q.2) <$> loaded) = ids loaded.*1.
Proof. unfold ids. by rewrite <- !list_fmap_compose. Qed.

(** *** Constructed definitions *)

Lemma version_digits v : fullmatch _VERSION_RE v = true → (length v ≤ 4300)%nat → is_ok (version_number v) = true.
Proof.
  intros Hm Hl. apply fullmatch_correct, seq_inv in Hm as (s1 & s2 & -> & (c & -> & Hc)%set_inv & Hs).
  assert (is_digit c = true) as Hdc.
  { simpl in Hc. rewrite orb_false_r, andb_true_iff, !N.leb_le in Hc. unfold is_digit. rewrite andb_true_iff, !N.leb_le. lia. }
  assert (forallb is_digit s2 = true) as Hds.
  { clear Hl. remember (RStar (RSet digit)) as r eqn:Hr. induction Hs as [| | | | | | |r s1 s2 H1 _ H2 IH| |]; try done.
    injection Hr as ->. apply set_inv in H1 as (e & -> & He). cbn [app forallb]. rewrite (IH eq_refl), andb_true_r.
    simpl in He. by rewrite orb_false_r in He. }
  unfold version_number. cbn [app forallb]. rewrite Hdc, Hds. cbn [andb negb orb].
  rewrite bool_decide_false by done. rewrite (proj2 (Z.ltb_ge _ _)); [done|]. simpl in *. lia.
Qed.

(** A definition that was constructed, with versions that [int] reads *)
Definition constructed (d : CapabilityDefinition) : Prop :=
  is_ok (new_definition d) = true ∧ (length (d_version d) ≤ 4300)%nat ∧
  ∀ x, x ∈ d_dependencies d → (length (dep_minimum_version x) ≤ 4300)%nat.

Lemma constructed_numbered d : constructed d → numbered d.
Proof.
  intros ([y H]%is_ok_some & Hv & Hd). unfold new_definition in H.
  apply bind_Ok in H as (? & Hdeps%mapR_Ok & H). do 2 (apply bind_Ok in H as (? & _ & H)).
  apply bind_Ok in H as (? & Hdef & _). split.
  - apply version_digits; [|done]. unfold check_definition, refuse in Hdef.
    apply bind_Ok in Hdef as (? & _ & Hdef). apply bind_Ok in Hdef as (? & Hr & _).
    by apply raise_when_Ok, negb_false_iff in Hr.
  - intros e He. apply version_digits; [|by apply Hd]. apply list_elem_of_lookup in He as [i Hi].
    destruct (Forall2_lookup_l _ _ _ _ _ Hdeps Hi) as (? & _ & Hc). unfold check_dependency, refuse in Hc.
    apply bind_Ok in Hc as (? & _ & Hc). by apply raise_when_Ok, negb_false_iff in Hc.
Qed.

(** *** The composition *)

(** No two providers have one identifier, and none has one of the base. *)
Definition distinct_providers (base : CapabilityRegistry) (providers : list CapabilityProvider) : Prop :=
  NoDup (ids providers) ∧ ∀ p, p ∈ providers → pv_provider_id p ∉ ps_provider_id <$> rg_provider_statuses base.

Lemma duplicate_refused base providers :
  ¬ distinct_providers base providers →
  compose_capability_registry base providers = Err (CapabilityError (u "capability_provider_duplicate") []).
Proof.
  intros Hd. unfold compose_capability_registry. cbv zeta. set (ps := sort_by provider_leb providers).
  pose proof (sort_by_perm provider_leb providers) as Hp. fold ps in Hp. unfold refuse.
  destruct (has_dup _) eqn:E1; [done|]. cbn [raise_when mbind result_bind].
  destruct (existsb _ ps) eqn:E2; [done|]. destruct Hd. split.
  - apply has_dup_false in E1. unfold ids. by rewrite <- Hp.
  - intros p Hin. rewrite existsb_false in E2. apply mem_false, E2. by rewrite Hp.
Qed.

Lemma distinct_compose base bl statuses m providers :
  new_registry bl statuses m = Ok base → distinct_providers base providers →
  (∀ p, p ∈ providers → pv_optional p = true) →
  (∀ d, d ∈ rg_definitions base → constructed d) →
  (∀ p ds d, p ∈ providers → load_definitions p = Ok ds → d ∈ ds → constructed d) →
  ∃ rg, compose_capability_registry base providers = Ok rg ∧
    valid_catalog (rg_definitions rg) ∧ rg_definitions base ⊆ rg_definitions rg ∧
    (∀ d, d ∈ rg_definitions rg → d ∈ rg_definitions base ∨
       ∃ p ds, p ∈ providers ∧ load_definitions p = Ok ds ∧ d ∈ ds) ∧
    (ps_provider_id <$> rg_provider_statuses rg) ≡ₚ
      (ps_provider_id <$> rg_provider_statuses base) ++ ids providers.
Proof.
  intros (Hv & Hs & _ & Eb)%new_registry_accepts [Hids Hfresh] Hopt Hcb Hcp.
  assert (∀ d, d ∈ rg_definitions base → numbered d) as Hnb by (intros; by apply constructed_numbered, Hcb).
  assert (∀ p ds d, p ∈ providers → load_definitions p = Ok ds → d ∈ ds → numbered d) as Hnp
    by (intros; eapply constructed_numbered, Hcp; eauto).
  assert (valid_catalog (rg_definitions base)) as Hbase.
  { rewrite Eb. simpl. eapply valid_catalog_perm; [|exact Hv]. by rewrite sort_by_perm. }
  assert (NoDup (ps_provider_id <$> rg_provider_statuses base)) as Hsb.
  { rewrite Eb. simpl. by rewrite sort_by_perm. }
  pose proof (sort_by_perm provider_leb providers) as Hp. set (ps := sort_by provider_leb providers) in *.
  assert (∀ p, p ∈ ps → p ∈ providers) as Hin by (intros p; by rewrite Hp).
  assert (NoDup (ids ps)) as Hpids by (unfold ids; by rewrite Hp).
  destruct (load_all base [] (MkComposition (rg_provider_statuses base) []) ps) as (c0 & E0 & H0); [by auto| |].
  { split; simpl; [by rewrite app_nil_r|constructor|]. intros q Hq. by apply elem_of_nil in Hq. }
  simpl in H0. destruct (conflicts_dropped base ps Hpids ltac:(auto) c0 H0) as (c1 & E1 & H1 & Hn1 & He1).
  destruct (settle_correct base ps Hpids ltac:(auto) Hbase Hnb ltac:(eauto) (length (cm_loaded c1)) c1)
    as (c2 & E2 & [H2 _ _] & Hv2); [by split|done|].
  destruct (base_providers_Ok base) as (m0 & Em & Hm0).
  destruct (add_loaded_fold (cm_loaded c2) ps (rg_definitions base) m0 (cm_statuses c2)) as (m' & Ef & Hm').
  rewrite (loaded_part_all (cm_loaded c2) ps Hpids) in Ef, Hm' by apply H2.
  assert ((ps_provider_id <$> cm_statuses c2 ++ ((λ q, loaded_status q.1 q.2) <$> cm_loaded c2)) ≡ₚ
          (ps_provider_id <$> rg_provider_statuses base) ++ ids providers) as Hst.
  { rewrite fmap_app, loaded_status_ids, (ci_ids _ _ _ H2). unfold ids. by rewrite Hp. }
  eexists. split; [|split_and!].
  - unfold compose_capability_registry, refuse. cbv zeta. fold ps.
    rewrite (proj2 (has_dup_false _)) by exact Hpids. cbn [raise_when mbind result_bind].
    rewrite (proj2 (existsb_false _ _)).
    2:{ intros p Hpp. apply mem_false, Hfresh. by apply Hin. }
    cbn [raise_when mbind result_bind]. rewrite E0. cbn [mbind result_bind]. rewrite E1.
    cbn [mbind result_bind]. rewrite E2. cbn [mbind result_bind]. rewrite Em. cbn [mbind result_bind].
    rewrite Ef. apply new_registry_accepts. split_and!; [exact Hv2| |  |reflexivity].
    + rewrite Hst. apply NoDup_app. split_and!; [done| |done].
      intros x Hx (p & -> & Hpp)%list_elem_of_fmap. by apply (Hfresh p).
    + intros [k v] Hk. apply (list_elem_of_fmap_2 fst) in Hk. rewrite fmap_app, elem_of_app.
      destruct (Hm' _ Hk) as [Hk'|Hk']; [left; by apply Hm0|by right].
  - simpl. eapply valid_catalog_perm; [|exact Hv2]. by rewrite sort_by_perm.
  - simpl. intros d Hd. rewrite sort_by_perm. apply elem_of_app. by left.
  - simpl. intros d. rewrite sort_by_perm. intros [Hd|Hd]%elem_of_app; [by left|right].
    apply list_elem_of_join in Hd as (ds & Hd & (q & -> & Hq)%list_elem_of_fmap).
    exists q.1, q.2. split_and!; [apply Hin; by eapply ci_loaded| |done]. by apply (ci_definitions _ _ _ H2 q Hq).
  - simpl. by rewrite sort_by_perm.
Qed.

(** C25: The composition of a valid base catalog with optional providers, whose loaded
    definitions are constructed ones with version numbers of at most 4300 digits, always
    returns, whichever of them do not load, collide in a capability name, miss a dependency or
    form a cycle: the result is a valid catalog that keeps the base, holds only what the
    providers loaded, and has one status for each provider. Two providers with one identifier
    are refused with capability_provider_duplicate. *)
Theorem compose_isolates_failures base bl statuses m providers :
  new_registry bl statuses m = Ok base →
  (∀ p, p ∈ providers → pv_optional p = true) →
  (∀ d, d ∈ rg_definitions base → constructed d) →
  (∀ p ds d, p ∈ providers → load_definitions p = Ok ds → d ∈ ds → constructed d) →
  (¬ distinct_providers base providers ∧
   compose_capability_registry base providers = Err (CapabilityError (u "capability_provider_duplicate") [])) ∨
  distinct_providers base providers ∧
  ∃ rg, compose_capability_registry base providers = Ok rg ∧
    valid_catalog (rg_definitions rg) ∧ rg_definitions base ⊆ rg_definitions rg ∧
    (∀ d, d ∈ rg_definitions rg → d ∈ rg_definitions base ∨
       ∃ p ds, p ∈ providers ∧ load_definitions p = Ok ds ∧ d ∈ ds) ∧
    (ps_provider_id <$> rg_provider_statuses rg) ≡ₚ
      (ps_provider_id <$> rg_provider_statuses base) ++ ids providers.
Proof.
  intros Hbase Hopt Hcb Hcp. destruct (decide (NoDup (ids providers))) as [Hn|Hn].
  2: { left. assert (¬ distinct_providers base providers) by by intros [? _]. by split; [|apply duplicate_refused]. }
  destruct (existsb (λ p, mem (pv_provider_id p) (ps_provider_id <$> rg_provider_statuses base)) providers) eqn:E.
  - left. assert (¬ distinct_providers base providers); [|by split; [|apply duplicate_refused]].
    intros [_ Hf]. apply existsb_exists in E as (p & Hp%list_elem_of_In & Hm%mem_true). by destruct (Hf p Hp).
  - right. rewrite existsb_false in E. assert (distinct_providers base providers) as Hd.
    { split; [done|]. intros p Hp. by apply mem_false, E. }
    split; [done|]. by eapply distinct_compose.
Qed.
