(* ===== verification/CapabilityConfig.v ===== *)
(** * Capabilities: settings

    [runtime/capabilities/config.py]: the settings and the enablement of a capability from the
    system parameters, from the widest namespace to the capability itself. *)
From S2P Require Import Prelude PyText PyValue Json EffectPlan Capability.
Local Open Scope Z_scope.

Definition _CONFIG_PREFIX : pystr := u "odoo_ai_assistant.capability.".
Definition _ENABLED_PREFIX : pystr := u "odoo_ai_assistant.capability_enabled.".

(** [s.split(sep)] *)
Fixpoint split_all (sep : N) (s : pystr) : list pystr :=
  match s with
  | [] => [[]]
  | c :: r =>
      if (c =? sep)%N then [] :: split_all sep r
      else match split_all sep r with
           | w :: ws => (c :: w) :: ws
           | [] => [[c]]
           end
  end.

Definition _namespace_chain (ns : pystr) : list pystr :=
  let parts := split_all 46 ns in
  (λ i, str_join [46%N] (take i parts)) <$> seq 1 (length parts).

Definition setting_invalid : plan_exn := CapabilityError (u "capability_setting_value_invalid") [].

(** [str.lower] maps no character outside ASCII into one of these words. *)
Definition _decode_bool (raw : pystr) : result plan_exn bool :=
  let value := lower_ascii <$> raw in
  if mem value [u "1"; u "true"; u "yes"; u "on"] then Ok true
  else if mem value [u "0"; u "false"; u "no"; u "off"] then Ok false
  else Err setting_invalid.

(** Decimal digits outside ASCII, which [int] reads too, are refused by [py_int]. *)
Definition _decode (kind : CapabilitySettingType) (raw : pystr) (choices : list pystr)
    : result plan_exn pyval :=
  match kind with
  | SettingBoolean => VBool <$> _decode_bool raw
  | SettingInteger => VInt <$> of_option (py_int raw) setting_invalid
  | SettingChoice => raise_when (negb (mem raw choices)) setting_invalid;; Ok (VStr raw)
  | SettingString | SettingSecret => Ok (VStr raw)
  end.

Definition _validate_resolved (d : CapabilityDefinition) (values : pydict) : result plan_exn unit :=
  foldR (λ _ s,
    let value := get (st_key s) values in
    refuse (st_required s && (is_none value || py_eq value (VStr [])))
      (u "capability_configuration_missing");;
    match st_kind s, value with
    | SettingInteger, VInt z =>
        raise_when (match st_minimum s with Some lo => z <? lo | None => false end) setting_invalid;;
        raise_when (match st_maximum s with Some hi => hi <? z | None => false end) setting_invalid
    | _, _ => Ok tt
    end) tt (d_settings d).

Section resolver.
(** [ir.config_parameter._get_param], with [None] for a parameter that is not set; there is no
    getter in a resolver built without an environment. *)
Context (getter : option (pystr → option pystr)).

(** [raw not in (None, False, "")] *)
Definition parameter (key : pystr) : option pystr :=
  f ← getter; raw ← f key; if bool_decide (raw = []) then None else Some raw.

Definition parameter_key (name key : pystr) : pystr := _CONFIG_PREFIX ++ name ++ u "." ++ key.
Definition enabled_parameter_key (name : pystr) : pystr := _ENABLED_PREFIX ++ name.

(** One parameter that may override the value so far. *)
Definition override (s : CapabilitySetting) (values : pydict) (key : pystr) : result plan_exn pydict :=
  match parameter key with
  | Some raw =>
      value ← _decode (st_kind s) raw (st_choices s);
      Ok (dict_set (st_key s) value values)
  | None => Ok values
  end.

Definition setting_keys (d : CapabilityDefinition) (s : CapabilitySetting) : list pystr :=
  ((λ ns, _CONFIG_PREFIX ++ ns ++ u ".*." ++ st_key s) <$> _namespace_chain (namespace d))
  ++ [parameter_key (d_name d) (st_key s)].

Definition default_values (d : CapabilityDefinition) : pydict :=
  foldl (λ m s, dict_set (st_key s) (st_default s) m) [] (d_settings d).

Definition resolve_settings (d : CapabilityDefinition) (turn_overrides : pydict)
    : result plan_exn pydict :=
  values ← foldR (λ values s, foldR (override s) values (setting_keys d s))
             (default_values d) (d_settings d);
  let values := foldl (λ m kv, if has_key kv.1 m then dict_set kv.1 kv.2 m else m) values turn_overrides in
  _validate_resolved d values;;
  Ok values.

Definition enabled_override (acc : bool) (key : pystr) : result plan_exn bool :=
  match parameter key with Some raw => _decode_bool raw | None => Ok acc end.

Definition enabled (d : CapabilityDefinition) : result plan_exn bool :=
  foldR enabled_override (d_default_enabled d)
    (((λ ns, _ENABLED_PREFIX ++ ns ++ u ".*") <$> _namespace_chain (namespace d))
     ++ [enabled_parameter_key (d_name d)]).

(** [except CapabilityError] of [resolve] only. *)
Definition availability_overrides (definitions : list CapabilityDefinition)
    : result plan_exn (list (pystr * bool)) :=
  foldR (λ acc d,
    b ← enabled d;
    ready ← (if b : bool then
               match resolve_settings d [] with
               | Ok _ => Ok true
               | Err (CapabilityError _ _) => Ok false
               | Err e => Err e
               end
             else Ok false);
    Ok (dict_set (d_name d) ready acc)) [] definitions.
End resolver.

(** ** Resolved settings *)

(** The value a setting may have once it is resolved. *)
Definition setting_value_ok (s : CapabilitySetting) (v : pyval) : Prop :=
  (st_required s = true → v ≠ VNone ∧ v ≠ VStr []) ∧
  (∀ z lo, st_kind s = SettingInteger → v = VInt z → st_minimum s = Some lo → lo <= z) ∧
  (∀ z hi, st_kind s = SettingInteger → v = VInt z → st_maximum s = Some hi → z <= hi).

Lemma validate_resolved_sound d values s :
  _validate_resolved d values = Ok tt → s ∈ d_settings d → setting_value_ok s (get (st_key s) values).
Proof.
  unfold _validate_resolved. induction (d_settings d) as [|s' l IH]; intros H Hs; [by apply elem_of_nil in Hs|].
  cbn [foldR] in H. apply bind_Ok in H as ([] & H & Hl). apply elem_of_cons in Hs as [->|Hs]; [|by apply IH].
  clear Hl IH. apply bind_Ok in H as ([] & Hreq & H). unfold refuse in Hreq. apply raise_when_Ok in Hreq.
  split_and!.
  - intros Hr. rewrite Hr in Hreq. simpl in Hreq. apply orb_false_iff in Hreq as [H1 H2].
    split; intros E; rewrite E in *; done.
  - intros z lo Hk Hz Hm. rewrite Hk, Hz, Hm in H. apply bind_Ok in H as ([] & Hlo%raise_when_Ok & _).
    by apply Z.ltb_ge.
  - intros z hi Hk Hz Hm. rewrite Hk, Hz, Hm in H. apply bind_Ok in H as ([] & _ & Hhi%raise_when_Ok).
    by apply Z.ltb_ge.
Qed.

(** A capability that gets settings gets every one within its declared bounds. *)
Theorem resolved_settings_ok getter d overrides values s :
  resolve_settings getter d overrides = Ok values → s ∈ d_settings d →
  setting_value_ok s (get (st_key s) values).
Proof.
  unfold resolve_settings. intros (v0 & _ & H)%bind_Ok Hs. cbv zeta in H.
  apply bind_Ok in H as ([] & Hv & [= <-]). by eapply validate_resolved_sound.
Qed.
