(* ===== verification/CapabilityPublic.v ===== *)
(** * Capabilities: what a call shows to the user

    The pure part of the projection in [runtime/capabilities/executor.py]: from a validated
    payload or output to the bounded public payload of an activity. *)
From S2P Require Import Prelude PyText Regex PyValue Json EffectPlan Capability.
Local Open Scope Z_scope.

Definition word_chars : list (N * N) := lower ++ upper ++ digit ++ chars (u "_").
Definition _PUBLIC_MODEL : regex :=
  (RSet (lower ++ upper ++ chars (u "_")) · RRep (RSet (word_chars ++ chars (u "."))) 0 127)%regex.
Definition _PUBLIC_FIELD : regex :=
  (RSet (lower ++ upper ++ chars (u "_")) · RRep (RSet word_chars) 0 127)%regex.
Definition _PUBLIC_ACTIVITY_ID : regex := (RLit (u "activity:v1:") · RRep (RSet hexdigits) 32 32)%regex.
Definition _PUBLIC_SEMANTIC_GROUP : regex := (RLit (u "semantic:v1:") · RRep (RSet hexdigits) 32 32)%regex.
Definition _MAX_PUBLIC_RECORD_REFS : nat := 50.
Definition _MAX_PUBLIC_DISPLAY_NAME : nat := 160.
Definition _MAX_PUBLIC_NAV_REFS : nat := 12.
Definition _MAX_PUBLIC_SEMANTIC_ARGS : nat := 8.
Definition _MAX_PUBLIC_SEMANTIC_BYTES : Z := 2048.
Definition _PUBLIC_NAV_KINDS : list pystr :=
  [u "odoo_model"; u "odoo_action"; u "odoo_view"; u "odoo_menu"; u "odoo_setting"].

(** A value the public format admits: [isinstance(v, str) and RE.fullmatch(v)]. *)
Definition public_str (r : regex) (v : pyval) : option pystr :=
  s ← as_str v; if fullmatch r s then Some s else None.
Definition positive_id (v : pyval) : option Z :=
  z ← as_int v; if 0 <? z then Some z else None.

(** ** Semantic arguments *)

Definition semantic_value (v : pyval) : option pyval :=
  match v with
  | VStr s => Some (VStr (take 160 (normalize_ws s)))
  | VBool b => Some (VBool b)
  | VInt z => if between 0 z 1000000 then Some (VInt z) else None
  | _ => None
  end.

(** The loop stops when eight arguments are there. *)
Definition normalize_arg (acc : pydict) (kv : pystr * pyval) : pydict :=
  if (_MAX_PUBLIC_SEMANTIC_ARGS <=? length acc)%nat then acc
  else if fullmatch _PUBLIC_FIELD kv.1 then
    match semantic_value kv.2 with Some v => dict_set kv.1 v acc | None => acc end
  else acc.
Definition _normalize_semantic_args (value : pydict) : pydict := foldl normalize_arg [] value.

Fixpoint merge_args (merged extra : pydict) : pydict :=
  match extra with
  | [] => merged
  | (k, v) :: extra =>
      if (_MAX_PUBLIC_SEMANTIC_ARGS <=? length merged)%nat && negb (has_key k merged) then merged
      else merge_args (dict_set k v merged) extra
  end.

(** [json.dumps(args, ensure_ascii=False)] of a flat dict: the separators have spaces. *)
Definition dump_args (args : pydict) : option pystr :=
  ts ← mapM (λ kv, t ← json_dumps true kv.2; Some (dump_str kv.1 ++ u ": " ++ t)) args;
  Some (u "{" ++ str_join (u ", ") ts ++ u "}").

(** [normalized.pop(next(reversed(normalized)))] while the text is too long. *)
Fixpoint shrink_args (fuel : nat) (args : pydict) : result plan_exn pydict :=
  encoded ← of_option (t ← dump_args args; utf8_encode t) (OtherError (u "UnicodeEncodeError"));
  if negb (_MAX_PUBLIC_SEMANTIC_BYTES <? Z.of_nat (length encoded)) then Ok args
  else match args, fuel with
       | [], _ | _, O => Ok args
       | _, S fuel => shrink_args fuel (take (length args - 1) args)
       end.

Definition _merge_semantic_args (base extra : pydict) : result plan_exn pydict :=
  let normalized := _normalize_semantic_args (merge_args base extra) in
  shrink_args (length normalized) normalized.

(** ** Headlines *)

Definition mutations : list pystr :=
  [u "create"; u "patch"; u "archive"; u "unarchive"; u "delete"; u "confirm"].
Definition _operation_from_tags (tags : list pystr) : option pystr :=
  List.find (λ operation, mem operation tags) mutations.
Definition _mutation_headline (stage : pystr) (operation : option pystr) : pystr :=
  let suffix := match operation with
                | Some o => if mem o mutations then o else u "changes"
                | None => u "changes"
                end in
  u "activity." ++ stage ++ u "." ++ suffix.

(** [operation or _operation_from_tags(tags)] *)
Definition operation_or_tag (operation : option pystr) (tags : list pystr) : option pystr :=
  match operation with Some (_ :: _) => operation | _ => _operation_from_tags tags end.

Definition _input_count (payload : pydict) : option Z :=
  match get (u "rows") payload, get (u "records") payload, get (u "record_ids") payload with
  | VList l, _, _ | _, VList l, _ | _, _, VList l => Some (Z.of_nat (length l))
  | _, _, _ => match get (u "record_id") payload with VInt _ => Some 1 | _ => None end
  end.

Inductive public_stage : Type := StagePrepare | StageExecute | StageVerify.

Definition semantic_headline (d : CapabilityDefinition) (stage : public_stage) (operation : option pystr)
    : pystr * pystr :=
  let operation := operation_or_tag operation (d_tags d) in
  match stage with
  | StageVerify => (u "capability.verify", u "activity.verify.results")
  | StagePrepare => (u "capability.prepare", _mutation_headline (u "prepare") operation)
  | StageExecute =>
      match d_activity d with
      | Some activity => (act_operation activity, act_headline_code activity)
      | None =>
          if negb (bool_decide (d_effect d = ReadOnly)) then
            (u "capability.execute", _mutation_headline (u "execute") operation)
          else if bool_decide (d_risk d = RiskMetadata) then
            (u "odoo.metadata.inspect", u "activity.inspect.odoo")
          else (u "odoo.records.query", u "activity.query.odoo")
      end
  end.

(** ** Results *)

(** The count an output reports. *)
Definition output_count (output : pydict) : option Z :=
  match get (u "count") output, get (u "returned_count") output, get (u "record_ids") output with
  | VInt z, _, _ | _, VInt z, _ => Some z
  | _, _, VList l => Some (Z.of_nat (length l))
  | _, _, _ => None
  end.

Definition _semantic_result (semantic : pyval) (output : pydict) (verified : bool)
    : result plan_exn (option pydict) :=
  match semantic with
  | VDict result_ =>
      args ← match get (u "headline_args") result_ with
             | VDict args => Ok args
             | v => if truthy v then Err PyTypeError else Ok []
             end;
      match output_count output with
      | Some count =>
          if negb (between 0 count 1000000) then Ok (Some result_) else
          let summary_args :=
            [(u "count", VInt count)]
            ++ match get (u "model_label") args with VStr s => [(u "model_label", VStr s)] | _ => [] end
            ++ match get (u "operation") output with
               | VStr s => [(u "operation", VStr (take 64 s))] | _ => [] end in
          let summary code result_ :=
            dict_set (u "result_summary") (VDict [(u "code", VStr code); (u "args", VDict summary_args)])
              result_ in
          if verified then
            let result_ :=
              match get (u "count") args with
              | VInt expected =>
                  if (expected =? count) && (0 <? expected) then
                    dict_set (u "progress")
                      (VDict [(u "current", VInt count); (u "total", VInt expected)]) result_
                  else result_
              | _ => result_
              end in
            Ok (Some (summary (u "activity.result.verified") result_))
          else
            known ← of_option (in_str_set (get (u "operation") result_)
                                 [u "odoo.records.query"; u "odoo.records.aggregate"]) PyTypeError;
            Ok (Some (if known : bool then summary (u "activity.result.records_found") result_ else result_))
      | None => Ok (Some result_)
      end
  | _ => Ok None
  end.

(** ** Navigation references *)

Definition nav_keys (kind : pystr) : list pystr :=
  [u "kind"; u "label"; u "description"; u "model"]
  ++ (if str_eqb kind (u "odoo_action") then [u "action_id"]
      else if str_eqb kind (u "odoo_view") then [u "view_id"]
      else if str_eqb kind (u "odoo_menu") then [u "action_id"; u "menu_id"]
      else if str_eqb kind (u "odoo_setting") then [u "action_id"; u "setting_field"]
      else []).

(** One reference: [Ok None] stands for [return None].  [kind not in ...] raises on a list or a
    dict. *)
Definition nav_reference (item : pyval) : result plan_exn (option pydict) :=
  match item with
  | VDict item =>
      known ← of_option (in_str_set (get (u "kind") item) _PUBLIC_NAV_KINDS) PyTypeError;
      Ok (if negb known then None else
          kind ← as_str (get (u "kind") item);
          label ← as_str (get (u "label") item);
          if negb (between 1 (Z.of_nat (length (normalize_ws label))) 160) then None else
          description ← as_str (get (u "description") item);
          if 240 <? Z.of_nat (length (normalize_ws description)) then None else
          if negb (has_keys item (nav_keys kind)) then None else
          model ← public_str _PUBLIC_MODEL (get (u "model") item);
          ids ← mapM (λ key, z ← positive_id (get key item); Some (key, VInt z))
                  (filter (λ key, has_key key item = true) [u "action_id"; u "view_id"; u "menu_id"]);
          fields ← (if has_key (u "setting_field") item then
                      s ← public_str _PUBLIC_FIELD (get (u "setting_field") item);
                      Some [(u "setting_field", VStr s)]
                    else Some []);
          if str_eqb kind (u "odoo_setting") && negb (str_eqb model (u "res.config.settings")) then None
          else Some ([(u "kind", VStr kind); (u "label", VStr (normalize_ws label));
                      (u "description", VStr (normalize_ws description)); (u "model", VStr model)]
                     ++ ids ++ fields))
  | _ => Ok None
  end.

(** The loop over the references, which returns at the first that is not admitted. *)
Fixpoint nav_references (l : list pyval) : result plan_exn (option (list pydict)) :=
  match l with
  | [] => Ok (Some [])
  | item :: l =>
      o ← nav_reference item;
      match o with
      | None => Ok None
      | Some r => rs ← nav_references l; Ok (rs ← rs; Some (r :: rs))
      end
  end.
Definition _public_navigation_references (value : pyval) : result plan_exn (option (list pydict)) :=
  match value with
  | VList l => if (_MAX_PUBLIC_NAV_REFS <? length l)%nat then Ok None else nav_references l
  | _ => Ok None
  end.

(** ** Record references *)

(** The candidate identifiers of an output, or none when the output names no records. *)
Definition record_candidates (output : pydict) : option (list pyval) :=
  match get (u "record_ids") output, get (u "record_id") output with
  | VList l, _ => Some l
  | _, VInt z => Some [VInt z]
  | _, _ =>
      rows ← as_list (get (u "records") output);
      mapM (λ row, d ← as_dict row; Some (get (u "id") d)) rows
  end.

(** The distinct positive identifiers among the first fifty. *)
Fixpoint public_ids (seen : list Z) (candidates : list pyval) : option (list Z) :=
  match candidates with
  | [] => Some seen
  | v :: candidates =>
      z ← positive_id v;
      if mem z seen then None else public_ids (seen ++ [z]) candidates
  end.

Definition public_name (id : Z) (display_name : pystr) : pystr :=
  let name := normalize_ws display_name in
  take _MAX_PUBLIC_DISPLAY_NAME (if bool_decide (name = []) then u "#" ++ int_str id else name).

(** ** Bounds of the arguments *)

Record public_args (args : pydict) : Prop := {
  pa_count : (length args <= _MAX_PUBLIC_SEMANTIC_ARGS)%nat;
  pa_args : ∀ k v, (k, v) ∈ args → fullmatch _PUBLIC_FIELD k = true ∧ ∃ v0, semantic_value v0 = Some v }.

Lemma dict_set_elem k (v : pyval) d k' v' : (k', v') ∈ dict_set k v d → (k' = k ∧ v' = v) ∨ (k', v') ∈ d.
Proof.
  induction d as [|[k1 v1] d IH]; simpl; [set_solver|].
  destruct (str_eqb k k1); set_solver.
Qed.
Lemma dict_set_length k (v : pyval) d : (length (dict_set k v d) <= S (length d))%nat.
Proof. induction d as [|[k1 v1] d IH]; simpl; [lia|]. destruct (str_eqb k k1); simpl; lia. Qed.

Lemma normalize_public value : public_args (_normalize_semantic_args value).
Proof.
  unfold _normalize_semantic_args. assert (public_args []) as H0 by (split; [simpl; lia|set_solver]).
  revert H0. generalize (@nil (pystr * pyval)). induction value as [|[k v] value IH]; intros acc Hacc; [done|].
  cbn [foldl]. apply IH. unfold normalize_arg. cbn [fst snd].
  destruct (_ <=? _)%nat eqn:Hl; [done|]. apply Nat.leb_gt in Hl.
  destruct (fullmatch _PUBLIC_FIELD k) eqn:Hk; [|done]. destruct (semantic_value v) as [v'|] eqn:Hv; [|done].
  destruct Hacc as [Hc Ha]. split.
  - pose proof (dict_set_length k v' acc). lia.
  - intros k' v0 [[-> ->]|Hin]%dict_set_elem; [by eauto|by apply Ha].
Qed.

Lemma public_args_take n args : public_args args → public_args (take n args).
Proof.
  intros [Hc Ha]. split; [rewrite length_take; lia|]. intros k v H. apply Ha.
  eapply elem_of_sublist; [exact H|]. apply sublist_take.
Qed.

Lemma shrink_public fuel args args' :
  public_args args → (length args <= fuel)%nat → shrink_args fuel args = Ok args' →
  public_args args' ∧ ∃ t b, dump_args args' = Some t ∧ utf8_encode t = Some b ∧
    Z.of_nat (length b) <= _MAX_PUBLIC_SEMANTIC_BYTES.
Proof.
  revert args. induction fuel as [|fuel IH]; intros args Ha Hl; cbn [shrink_args];
    intros (b & Hb%of_option_Ok & H)%bind_Ok; apply bind_Some in Hb as (t & Ht & Hb);
    destruct (negb _) eqn:Hn; try (injection H as <-; apply negb_true_iff, Z.ltb_ge in Hn; by eauto 8).
  - destruct args; [|simpl in Hl; lia]. vm_compute in Ht. injection Ht as <-. vm_compute in Hb.
    injection Hb as <-. by vm_compute in Hn.
  - destruct args as [|kv args].
    + vm_compute in Ht. injection Ht as <-. vm_compute in Hb. injection Hb as <-. by vm_compute in Hn.
    + eapply IH; [by apply public_args_take| |exact H]. rewrite length_take. simpl in *. lia.
Qed.

(** The arguments of a headline: at most eight, well named, of bounded values, and at most 2048
    bytes together, whatever the projector of a provider returned. *)
Theorem semantic_args_bounded base extra args :
  _merge_semantic_args base extra = Ok args →
  public_args args ∧ ∃ t b, dump_args args = Some t ∧ utf8_encode t = Some b ∧
    Z.of_nat (length b) <= _MAX_PUBLIC_SEMANTIC_BYTES.
Proof. apply shrink_public; [apply normalize_public|done]. Qed.
