(* ===== verification/CapabilityExecutor.v ===== *)
(** * Capabilities: the executor

    [runtime/capabilities/executor.py] and [transaction.py]: the lifecycle of a call, with its
    authority, its limits, its savepoint and its events.  Handlers, projectors, the event sink
    and the ORM are the interface [CapabilityHost]; each attempt to call a handler is recorded. *)
From S2P Require Import Prelude PyText Regex PyValue Json EffectPlan Capability CapabilityValidation.
From S2P Require Import CapabilityRegistry CapabilityConfig CapabilityPublic.
Local Open Scope Z_scope.

(** ** The host *)

(** What Python code outside the model does: it returns, or raises one of the kinds of exception
    that the executor tells apart.  [RaisedBase] is not an [Exception]: a cancellation. *)
Inductive outcome (A : Type) : Type :=
| Returned (a : A)
| RaisedTimeout
| RaisedCapability (code : pystr) (details : pydict)
| RaisedOther (cls : pystr)
| RaisedBase (cls : pystr).
Arguments Returned {A} a.
Arguments RaisedTimeout {A}.
Arguments RaisedCapability {A} code details.
Arguments RaisedOther {A} cls.
Arguments RaisedBase {A} cls.

Definition raised {A B} (o : outcome A) (d : outcome B) : outcome B :=
  match o with
  | Returned _ => d
  | RaisedTimeout => RaisedTimeout
  | RaisedCapability c x => RaisedCapability c x
  | RaisedOther c => RaisedOther c
  | RaisedBase c => RaisedBase c
  end.

(** The database, which savepoints roll back, and everything else. *)
Record world (D X : Type) := MkWorld { w_db : D; w_rest : X }.
Arguments MkWorld {D X}.
Arguments w_db {D X}.
Arguments w_rest {D X}.

Record CapabilityResult (Evidence : Type) := MkResult {
  cr_data : pydict;
  cr_evidence : list Evidence;
  cr_changes_preconditions : bool }.
Arguments MkResult {Evidence}.
Arguments cr_data {Evidence}.
Arguments cr_evidence {Evidence}.
Arguments cr_changes_preconditions {Evidence}.

Inductive raw_output (Evidence : Type) : Type :=
| RawPreview (p : CapabilityPreview)
| RawResult (r : CapabilityResult Evidence)
| RawMapping (d : pydict)
| RawVerification (v : CapabilityVerification)
| RawOther.
Arguments RawPreview {Evidence} p.
Arguments RawResult {Evidence} r.
Arguments RawMapping {Evidence} d.
Arguments RawVerification {Evidence} v.
Arguments RawOther {Evidence}.

Inductive stage : Type := PreviewStage | ExecuteStage | VerifyStage.
#[export] Instance stage_eq_dec : EqDecision stage.
Proof. solve_decision. Defined.
Definition stage_value (s : stage) : pystr :=
  match s with PreviewStage => u "preview" | ExecuteStage => u "execute" | VerifyStage => u "verify" end.

(** The settings and the metadata of the context a handler gets. *)
Record handler_context := MkContext { hc_settings : pydict; hc_metadata : pydict }.

(** [call_handler] is the handler of the named capability at a stage, awaited at most its timeout;
    [has_cursor] tells an Odoo environment from a transport-only one. *)
Class CapabilityHost (D X Evidence : Type) := {
  host_user : world D X → CapabilityUser;
  host_parameter : world D X → pystr → option pystr;
  has_cursor : bool;
  flush : world D X → outcome unit * world D X;
  call_handler : stage → pystr → handler_context → pydict → world D X →
    outcome (raw_output Evidence) * world D X;
  call_projector : pystr → handler_context → pydict → world D X → outcome pyval * world D X;
  event_sink : option (pystr → pystr → pydict → world D X → outcome unit * world D X);
  model_label : pystr → world D X → outcome pystr * world D X;
  existing_ids : pystr → list Z → world D X → outcome (list Z) * world D X;
  display_names : pystr → list Z → world D X → outcome (list pystr) * world D X;
  token_hex : world D X → pystr * world D X;
  elapsed_ms : world D X → pyfloat }.

(** A call of a handler, with what the caller claimed for an execution. *)
Record handler_call := MkCall {
  hk_stage : stage;
  hk_name : pystr;
  hk_payload : pydict;
  hk_claim : option (ExecutionAuthority * bool) }.

Record executor (D X : Type) := MkExecutor {
  x_world : world D X;
  x_calls : gmap pystr Z;
  x_trace : list handler_call }.
Arguments MkExecutor {D X}.
Arguments x_world {D X}.
Arguments x_calls {D X}.
Arguments x_trace {D X}.

Section executor.
Context {D X Evidence : Type} `{!CapabilityHost D X Evidence}.
Context (rg : CapabilityRegistry) (metadata : pydict).
Abbreviation W := (world D X).
Abbreviation XS := (ST (executor D X) plan_exn).

(** ** Savepoints *)

(** A savepoint is rolled back by restoring the database it started from. *)
Definition rolled_back (before after : W) : W := MkWorld (w_db before) (w_rest after).

(** [isolated_savepoint]: the outer savepoint guards the flush, the inner one the attempt. *)
Definition isolated_savepoint {A} (m : W → outcome A * W) (w : W) : outcome A * W :=
  if negb has_cursor then m w
  else
    match flush w with
    | (Returned _, w1) =>
        match m w1 with
        | (Returned a, w2) =>
            match flush w2 with
            | (Returned _, w3) => (Returned a, w3)
            | (o, w3) => (raised o (Returned a), rolled_back w1 w3)
            end
        | (o, w2) => (o, rolled_back w1 w2)
        end
    | (o, w1) => (raised o RaisedTimeout, rolled_back w w1)
    end.

Definition set_world (w : W) (s : executor D X) : executor D X := MkExecutor w (x_calls s) (x_trace s).

(** A call outside that the model records in the world only. *)
Definition outside {A} (m : W → outcome A * W) : XS (outcome A) := λ s,
  let '(o, w) := m (x_world s) in (Ok o, set_world w s).

(** ** Events *)

(** [except Exception: return] around the sink. *)
Definition _emit_lifecycle_event (event_type title : pystr) (payload : pydict) : XS unit :=
  match event_sink with
  | None => mret tt
  | Some sink =>
      o ← outside (isolated_savepoint (sink event_type title payload));
      match o with RaisedBase cls => raise (OtherError cls) | _ => mret tt end
  end.

Definition _emit_capability_timing (capability : pystr) (at_stage : stage) (result_ : pystr) : XS unit :=
  ms ← gets (λ s, elapsed_ms (x_world s));
  _emit_lifecycle_event (u "diagnostic.capability_timing") (u "Capability timing checkpoint")
    [(u "capability", VStr capability); (u "stage", VStr (stage_value at_stage));
     (u "elapsed_ms", VFloat ms); (u "outcome", VStr result_)].

(** ** Outputs *)

Definition _validate_bounded_mapping (d : pydict) (maximum : Z) (code : pystr) : result plan_exn unit :=
  encoded ← of_option (t ← json_dumps false (VDict d); utf8_encode t) (CapabilityError code []);
  refuse (maximum <? Z.of_nat (length encoded)) (code ++ u "_too_large").

Definition _PREVIEW_FINGERPRINT_RE : regex := (RLit (u "sha256:") · RRep (RSet hexdigits) 64 64)%regex.

(** The constructors of the results. *)
Definition new_preview (summary : pydict) (fingerprint : pystr) : result plan_exn CapabilityPreview :=
  refuse (negb (fullmatch _PREVIEW_FINGERPRINT_RE fingerprint)) (u "capability_preview_fingerprint_invalid");;
  summary ← freeze_contract_mapping summary;
  Ok (MkPreview summary fingerprint).
Definition new_result (data : pydict) (evidence : list Evidence) (changes : bool)
    : result plan_exn (CapabilityResult Evidence) :=
  data ← freeze_contract_mapping data;
  Ok (MkResult data evidence changes).
Definition new_verification (verified : bool) (summary : pydict) : result plan_exn CapabilityVerification :=
  summary ← freeze_contract_mapping summary;
  Ok (MkVerification verified summary).

Definition _validated_preview_output (d : CapabilityDefinition) (raw : raw_output Evidence)
    : result plan_exn CapabilityPreview :=
  match raw with
  | RawPreview p =>
      _validate_bounded_mapping (pv_summary p) (d_max_output_bytes d) (u "capability_preview_invalid");;
      new_preview (pv_summary p) (pv_precondition_fingerprint p)
  | _ => capability_error (u "capability_preview_invalid")
  end.

Definition _validated_execution_output (d : CapabilityDefinition) (raw : raw_output Evidence)
    : result plan_exn (CapabilityResult Evidence) :=
  result_ ← match raw with
            | RawResult r => Ok r
            | RawMapping data => new_result data [] false
            | _ => capability_error (u "capability_output_invalid")
            end;
  validate_payload (VDict (cr_data result_)) (d_output_schema d) (d_max_output_bytes d)
    (u "capability_output_invalid");;
  new_result (cr_data result_) (cr_evidence result_) (cr_changes_preconditions result_).

Definition _validated_verification_output (d : CapabilityDefinition) (raw : raw_output Evidence)
    : result plan_exn CapabilityVerification :=
  match raw with
  | RawVerification v =>
      _validate_bounded_mapping (vf_summary v) (d_max_output_bytes d) (u "capability_verification_invalid");;
      refuse (negb (vf_verified v)) (u "capability_verification_failed");;
      new_verification true (vf_summary v)
  | _ => capability_error (u "capability_verification_invalid")
  end.

(** ** Invocation *)

(** The attempt inside the savepoint: the handler, then [finalize] on its output. *)
Definition attempt {A} (at_stage : stage) (name : pystr) (context : handler_context) (payload : pydict)
    (finalize : raw_output Evidence → result plan_exn A) (w : W) : outcome A * W :=
  match call_handler at_stage name context payload w with
  | (Returned raw, w') =>
      (match finalize raw with
       | Ok a => Returned a
       | Err (CapabilityError code details) => RaisedCapability code details
       | Err (OtherError cls) => RaisedOther cls
       | Err _ => RaisedOther (u "RuntimeError")
       end, w')
  | (o, w') => (raised o RaisedTimeout, w')
  end.

Definition alnum : list (N * N) := lower ++ upper ++ digit.
Definition handler_details (at_stage : stage) (cls : pystr) : pydict :=
  [(u "stage", VStr (stage_value at_stage))]
  ++ (if forallb (in_ranges word_chars) cls && existsb (in_ranges alnum) cls
         && (Z.of_nat (length cls) <=? 64)
      then [(u "exception_type", VStr cls)] else []).

Definition record_call (c : handler_call) (s : executor D X) : executor D X :=
  MkExecutor (x_world s) (x_calls s) (x_trace s ++ [c]).

(** [try: m finally: f] *)
Definition finally {A} (m : XS A) (f : XS unit) : XS A := λ s,
  let '(r, s1) := m s in
  match f s1 with
  | (Ok _, s2) => (r, s2)
  | (Err e, s2) => (Err e, s2)
  end.

Definition _invoke {A} (d : CapabilityDefinition) (at_stage : stage)
    (context : handler_context) (payload : pydict) (claim : option (ExecutionAuthority * bool))
    (failure_event title : pystr) (public_payload : pydict)
    (finalize : raw_output Evidence → result plan_exn A) : XS A :=
  modify (record_call (MkCall at_stage (d_name d) payload claim));;
  o ← outside (isolated_savepoint (attempt at_stage (d_name d) context payload finalize));
  let timed result_ m := finally m (_emit_capability_timing (d_name d) at_stage result_) in
  let failed code details :=
    timed code
      (_emit_lifecycle_event failure_event title (dict_set (u "code") (VStr code) public_payload);;
       raise (CapabilityError code details)) in
  match o with
  | Returned a => timed (u "ok") (mret a)
  | RaisedTimeout => failed (u "capability_timeout") []
  | RaisedCapability code details => failed code details
  | RaisedOther cls => failed (u "capability_handler_failed") (handler_details at_stage cls)
  | RaisedBase cls => timed (u "ok") (raise (OtherError cls))
  end.

(** ** Public payloads *)

(** [except Exception] around a projection: its default, unless a cancellation passes. *)
Definition projected {A} (m : W → outcome A * W) (default_ : A) : XS A :=
  o ← outside (isolated_savepoint m);
  match o with
  | Returned a => mret a
  | RaisedBase cls => raise (OtherError cls)
  | _ => mret default_
  end.

Definition _public_model_label (model : pyval) : XS (option pystr) :=
  match public_str _PUBLIC_MODEL model with
  | None => mret None
  | Some m =>
      label ← projected (model_label m) [];
      let normalized := normalize_ws label in
      mret (if bool_decide (normalized = []) then None else Some (take 160 normalized))
  end.

Definition _safe_activity_projection (name : pystr) (context : handler_context) (payload : pydict)
    : XS pydict :=
  value ← projected (call_projector name context payload) VNone;
  mret (match value with VDict d => _normalize_semantic_args d | _ => [] end).

Definition _semantic_activity (context : handler_context) (d : CapabilityDefinition) (payload : pydict)
    (at_stage : public_stage) (group_key : option pystr) : XS pydict :=
  lift (refuse (match group_key with
                | Some g => negb (fullmatch _PUBLIC_SEMANTIC_GROUP g)
                | None => false
                end) (u "capability_semantic_group_invalid"));;
  label ← _public_model_label (get (u "model") payload);
  let args := match label with Some l => [(u "model_label", VStr l)] | None => [] end
              ++ match _input_count payload with Some n => [(u "count", VInt n)] | None => [] end in
  args ← match d_activity d with
         | Some (MkActivity _ _ true) =>
             extra ← _safe_activity_projection (d_name d) context payload;
             lift (_merge_semantic_args args extra)
         | _ => mret args
         end;
  let '(operation, headline_code) := semantic_headline d at_stage (as_str (get (u "operation") payload)) in
  mret [(u "group_key", of_opt_str group_key);
        (u "parent_activity_id",
          of_opt_str (public_str _PUBLIC_ACTIVITY_ID
                        (get (u "semantic_parent_activity_id") (hc_metadata context))));
        (u "operation", VStr operation);
        (u "headline_code", VStr headline_code);
        (u "headline_args", VDict args);
        (u "progress", VNone);
        (u "result_summary", VNone)].

(** [_new_activity_id] *)
Definition _new_activity_id : XS pystr := λ s,
  let '(t, w) := token_hex (x_world s) in (Ok (u "activity:v1:" ++ t), set_world w s).

Definition _public_operation_payload (context : handler_context) (d : CapabilityDefinition)
    (payload : pydict) (at_stage : public_stage) (activity_id : pystr) (semantic_group_key : option pystr)
    : XS pydict :=
  semantic ← _semantic_activity context d payload at_stage semantic_group_key;
  mret ([(u "capability", VStr (d_name d))]
        ++ (if fullmatch _PUBLIC_ACTIVITY_ID activity_id then [(u "activity_id", VStr activity_id)] else [])
        ++ match public_str _PUBLIC_MODEL (get (u "model") payload) with
           | Some m => [(u "model", VStr m)] | None => [] end
        ++ match positive_id (get (u "record_id") payload) with
           | Some i => [(u "record_id", VInt i)] | None => [] end
        ++ [(u "semantic", VDict semantic)]).

(** The records of an output that the user may read, with their names, or nothing. *)
Definition read_records (model : pystr) (ids : list Z) (w : W) : outcome (option (list pystr)) * W :=
  match existing_ids model ids w with
  | (Returned found, w1) =>
      if negb (bool_decide (found = ids)) then (Returned None, w1)
      else
        match display_names model ids w1 with
        | (Returned names, w2) => (Returned (Some (zip_with public_name ids names)), w2)
        | (o, w2) => (raised o RaisedTimeout, w2)
        end
  | (o, w1) => (raised o RaisedTimeout, w1)
  end.

Definition with_semantic (public : pydict) (output : pydict) (verified : bool) : result plan_exn pydict :=
  o ← _semantic_result (get (u "semantic") public) output verified;
  Ok (match o with Some semantic => dict_set (u "semantic") (VDict semantic) public | None => public end).

(** The end of [_public_result_payload], with the model known. *)
Definition public_records (output result_ : pydict) (model : pystr) : XS pydict :=
  match candidates ← record_candidates output; public_ids [] (take _MAX_PUBLIC_RECORD_REFS candidates) with
  | None | Some [] => mret result_
  | Some ids =>
      o ← projected (read_records model ids) None;
      mret (match o with
            | Some names =>
                dict_set (u "display_names") (VList (VStr <$> names))
                  (dict_set (u "record_ids") (VList (VInt <$> ids)) result_)
            | None => result_
            end)
  end.

Definition _public_result_payload (public output : pydict) : XS pydict :=
  result_ ← lift (with_semantic public output false);
  result_ ← (if py_eq (get (u "capability") result_) (VStr (u "odoo.resolve_navigation")) then
               o ← lift (_public_navigation_references (get (u "references") output));
               mret (match o with
                     | Some rs => dict_set (u "references") (VList (VDict <$> rs)) result_
                     | None => result_
                     end)
             else mret result_);
  let operation_model := get (u "model") result_ in
  let output_model := public_str _PUBLIC_MODEL (get (u "model") output) in
  match output_model with
  | Some m =>
      if negb (is_none operation_model) && negb (py_eq (VStr m) operation_model) then mret result_
      else public_records output (dict_set (u "model") (VStr m) result_) m
  | None =>
      match operation_model with
      | VStr m => public_records output result_ m
      | _ => mret result_
      end
  end.

Definition _public_verified_payload (public summary : pydict) : result plan_exn pydict :=
  with_semantic public summary true.

(** ** Operations *)

(** [definition not in registry.available(context)]: names are unique in a registry, so equal
    definitions are the same one. *)
Definition find_available (name : pystr) : XS CapabilityDefinition :=
  d ← lift (resolve (by_name (rg_definitions rg)) name);
  user ← gets (λ s, host_user (x_world s));
  usable ← lift (@available user metadata rg);
  lift (refuse (negb (mem (d_name d) (d_name <$> usable))) (u "capability_not_available"));;
  mret d.

(** [_prepare]; [arguments] is already the copy [payload]. *)
Definition _prepare (name : pystr) (arguments : pydict) : XS (CapabilityDefinition * handler_context) :=
  d ← find_available name;
  lift (validate_payload (VDict arguments) (d_input_schema d) (d_max_input_bytes d)
          (u "capability_input_invalid"));;
  getter ← gets (λ s, host_parameter (x_world s));
  settings ← lift (resolve_settings (Some getter) d []);
  settings ← lift (freeze_contract_mapping settings);
  mret (d, MkContext settings metadata).

Definition shown_title (d : CapabilityDefinition) : pystr :=
  if bool_decide (d_title d = []) then d_name d else d_title d.

Definition preview (name : pystr) (arguments : pydict) (semantic_group_key : option pystr)
    : XS CapabilityPreview :=
  '(d, context) ← _prepare name arguments;
  lift (refuse (negb (bool_decide (d_exposure d = ExposePlan))) (u "capability_preview_authority_invalid"));;
  lift (refuse (negb (d_preview_handler d)) (u "capability_preview_unavailable"));;
  activity_id ← _new_activity_id;
  public ← _public_operation_payload context d arguments StagePrepare activity_id semantic_group_key;
  _emit_lifecycle_event (u "tool.preview.started") (shown_title d) public;;
  raw ← _invoke d PreviewStage context arguments None (u "tool.preview.failed") (shown_title d) public
          (_validated_preview_output d);
  _emit_lifecycle_event (u "tool.preview.completed") (shown_title d) public;;
  mret raw.

Definition count_call (name : pystr) (s : executor D X) : executor D X :=
  MkExecutor (x_world s) (<[name := default 0 (x_calls s !! name) + 1]> (x_calls s)) (x_trace s).

Definition execute (name : pystr) (arguments : pydict) (authority : ExecutionAuthority)
    (approved : bool) (semantic_group_key : option pystr) : XS (CapabilityResult Evidence) :=
  '(d, context) ← _prepare name arguments;
  decision ← lift (evaluate d metadata authority approved);
  lift (refuse (negb (pd_allowed decision)) (pd_reason decision));;
  calls ← gets (λ s, default 0 (x_calls s !! name));
  lift (refuse (d_max_calls d <=? calls) (u "capability_call_limit_exceeded"));;
  modify (count_call name);;
  activity_id ← _new_activity_id;
  public ← _public_operation_payload context d arguments StageExecute activity_id semantic_group_key;
  _emit_lifecycle_event (u "tool.started") (shown_title d) public;;
  raw ← _invoke d ExecuteStage context arguments (Some (authority, approved)) (u "tool.failed")
          (shown_title d) public (_validated_execution_output d);
  completed_public ← _public_result_payload public (cr_data raw);
  _emit_lifecycle_event (u "tool.completed") (shown_title d) completed_public;;
  mret raw.

Definition verify (name : pystr) (arguments : pydict) (result_ : CapabilityResult Evidence)
    (semantic_group_key : option pystr) : XS CapabilityVerification :=
  '(d, context) ← _prepare name arguments;
  lift (refuse (negb (bool_decide (d_exposure d = ExposePlan))) (u "capability_verify_authority_invalid"));;
  lift (refuse (negb (d_verify_handler d)) (u "capability_verify_unavailable"));;
  metadata' ← lift (freeze_contract_mapping
                      (dict_set (u "capability_result") (VDict (cr_data result_)) (hc_metadata context)));
  let context := MkContext (hc_settings context) metadata' in
  activity_id ← _new_activity_id;
  public ← _public_operation_payload context d arguments StageVerify activity_id semantic_group_key;
  _emit_lifecycle_event (u "tool.verify.started") (shown_title d) public;;
  raw ← _invoke d VerifyStage context arguments None (u "tool.verify.failed") (shown_title d) public
          (_validated_verification_output d);
  completed_public ← lift (_public_verified_payload public (vf_summary raw));
  _emit_lifecycle_event (u "tool.verify.completed") (shown_title d) completed_public;;
  lift (new_verification true (vf_summary raw)).

Definition approval_required (name : pystr) (approved : bool) : XS bool :=
  d ← find_available name;
  decision ← lift (evaluate d metadata AuthorityPlan approved);
  mret (pd_requires_approval decision).
End executor.
