(* ===== verification/CapabilityExecutorFacts.v ===== *)
(** * Capabilities: what the executor guarantees

    Every call of a handler is authorised and counted, a failed call is rolled back, and what a
    call returns was checked. *)
From S2P Require Import Prelude PyText Regex PyValue Json EffectPlan Capability CapabilityValidation.
From S2P Require Import Dependencies CapabilityRegistry CapabilityRegistryFacts CapabilityConfig.
From S2P Require Import CapabilityPublic CapabilityExecutor.
Local Open Scope Z_scope.

Section executor.
Context {D X Evidence : Type} `{!CapabilityHost D X Evidence}.
Context (rg : CapabilityRegistry) (metadata : pydict).
Abbreviation S := (executor D X).
Abbreviation XS := (ST S plan_exn).
Implicit Types (s : S) (c : handler_call).
Let reg := by_name (rg_definitions rg).

(** ** The log of a statement

    [same_log]: no call is made.  [logs c m]: [m] makes the call [c] and no other, unless it raises
    before. *)
Definition same_log s s' : Prop := x_calls s' = x_calls s ∧ x_trace s' = x_trace s.

#[local] Instance same_log_preorder : PreOrder same_log.
Proof. split; [done|]. intros s1 s2 s3 [H1 H2] [H3 H4]. split; congruence. Qed.

Definition added {E A} c (r : result E A) s s' : Prop :=
  match r with
  | Ok _ => x_trace s' = x_trace s ++ [c]
  | Err _ => x_trace s' = x_trace s ∨ x_trace s' = x_trace s ++ [c]
  end.
Lemma added_or {E A} c (r : result E A) s s' :
  added c r s s' → x_trace s' = x_trace s ∨ x_trace s' = x_trace s ++ [c].
Proof. destruct r; simpl; auto. Qed.
Definition logs {A} c (m : XS A) : Prop := ∀ s, x_calls (m s).2 = x_calls s ∧ added c (m s).1 s (m s).2.

Lemma logs_bind {A B} c (m : XS A) (f : A → XS B) :
  keeps same_log m → (∀ a, logs c (f a)) → logs c (m ≫= f).
Proof.
  intros Hm Hf s. unfold mbind, ST_bind. destruct (Hm s) as [Hc Ht].
  destruct (m s) as [[a|e] s1]; simpl in *; [|split; [done|by left]].
  destruct (Hf a s1) as [Hc' Ht']. split; [congruence|]. unfold added in *. rewrite Ht in Ht'.
  destruct (f a s1) as [[b|e] s2]; exact Ht'.
Qed.
Lemma logs_then {A B} c (m : XS A) (f : A → XS B) :
  logs c m → (∀ a, keeps same_log (f a)) → logs c (m ≫= f).
Proof.
  intros Hm Hf s. unfold mbind, ST_bind. destruct (Hm s) as [Hc Ht].
  destruct (m s) as [[a|e] s1]; simpl in *; [|done].
  destruct (Hf a s1) as [Hc' Ht']. split; [congruence|].
  destruct (f a s1) as [[b|e] s2]; simpl in *; [|right]; congruence.
Qed.

Lemma outside_same {A} (m : world D X → outcome A * world D X) : keeps same_log (outside m).
Proof. intros s. unfold outside. by destruct (m _). Qed.
#[local] Hint Resolve outside_same : keeps.

Lemma emit_same event title payload : keeps same_log (_emit_lifecycle_event event title payload).
Proof. unfold _emit_lifecycle_event. destruct event_sink; solve_keeps. Qed.
#[local] Hint Resolve emit_same : keeps.
Lemma timing_same name at_stage code : keeps same_log (_emit_capability_timing name at_stage code).
Proof. unfold _emit_capability_timing. solve_keeps. Qed.
#[local] Hint Resolve timing_same : keeps.
Lemma projected_same {A} m (a : A) : keeps same_log (projected m a).
Proof. unfold projected. solve_keeps. Qed.
#[local] Hint Resolve projected_same : keeps.
Lemma token_same : keeps same_log _new_activity_id.
Proof. intros s. unfold _new_activity_id. by destruct (token_hex _). Qed.
#[local] Hint Resolve token_same : keeps.
Lemma label_same model : keeps same_log (_public_model_label model).
Proof. unfold _public_model_label. solve_keeps. Qed.
#[local] Hint Resolve label_same : keeps.
Lemma projection_same name context payload : keeps same_log (_safe_activity_projection name context payload).
Proof. unfold _safe_activity_projection. solve_keeps. Qed.
#[local] Hint Resolve projection_same : keeps.
Lemma semantic_same context d payload at_stage group :
  keeps same_log (_semantic_activity context d payload at_stage group).
Proof. unfold _semantic_activity. solve_keeps. Qed.
#[local] Hint Resolve semantic_same : keeps.
Lemma operation_payload_same context d payload at_stage activity group :
  keeps same_log (_public_operation_payload context d payload at_stage activity group).
Proof. unfold _public_operation_payload. solve_keeps. Qed.
#[local] Hint Resolve operation_payload_same : keeps.
Lemma records_same output result_ model : keeps same_log (public_records output result_ model).
Proof. unfold public_records. solve_keeps. Qed.
#[local] Hint Resolve records_same : keeps.
Lemma result_payload_same public output : keeps same_log (_public_result_payload public output).
Proof. unfold _public_result_payload. solve_keeps. Qed.
#[local] Hint Resolve result_payload_same : keeps.

Lemma finally_same {A} (m : XS A) f : keeps same_log m → keeps same_log f → keeps same_log (finally m f).
Proof.
  intros Hm Hf s. unfold finally. specialize (Hm s). destruct (m s) as [r s1].
  specialize (Hf s1). destruct (f s1) as [[]  s2]; simpl in *; by etrans.
Qed.

Lemma record_logs {A} c (m : XS A) : keeps same_log m → logs c (modify (record_call c);; m).
Proof.
  intros H s. destruct (H (record_call c s)) as [Hc Ht]. unfold mbind, ST_bind, modify. split; [exact Hc|].
  destruct (m _) as [[a|e] s1]; [|right]; exact Ht.
Qed.

Lemma invoke_logs {A} d at_stage context payload claim event title public
    (finalize : raw_output Evidence → result plan_exn A) :
  logs (MkCall at_stage (d_name d) payload claim)
    (_invoke d at_stage context payload claim event title public finalize).
Proof.
  unfold _invoke. apply record_logs. apply keeps_bind; [apply _|apply outside_same|].
  intros o. destruct o; apply finally_same; solve_keeps.
Qed.

(** ** What opens a call *)

Context (definitions : list CapabilityDefinition) (statuses : list CapabilityProviderStatus)
  (providers : list (pystr * pystr)).
Hypothesis built : new_registry definitions statuses providers = Ok rg.

Definition calls_of s (name : pystr) : Z := default 0 (x_calls s !! name).

(** The conditions under which a handler may be called from the store [s]. *)
Definition opened s c : Prop :=
  ∃ d, reg !! hk_name c = Some d ∧ @usable (host_user (x_world s)) metadata reg d ∧
    conforms (d_input_schema d) (VDict (hk_payload c)) ∧
    match hk_stage c with
    | PreviewStage => d_exposure d = ExposePlan ∧ d_preview_handler d = true
    | VerifyStage => d_exposure d = ExposePlan ∧ d_verify_handler d = true
    | ExecuteStage =>
        calls_of s (hk_name c) < d_max_calls d ∧
        ∃ authority approved decision, hk_claim c = Some (authority, approved) ∧
          evaluate d metadata authority approved = Ok decision ∧ pd_allowed decision = true
    end.

Lemma find_available_run name s r s1 :
  find_available rg metadata name s = (r, s1) →
  s1 = s ∧ ∀ d, r = Ok d → reg !! name = Some d ∧ d_name d = name ∧
    @usable (host_user (x_world s)) metadata reg d.
Proof.
  unfold find_available. destruct (@available_named (host_user (x_world s)) metadata _ _ _ _ built) as (k & Hk & Hin).
  unfold lift, gets, mbind, ST_bind. fold reg. destruct (resolve reg name) as [d|e] eqn:Hr; [|by intros [= <- <-]].
  unfold resolve in Hr. apply of_option_Ok in Hr. rewrite Hk. unfold refuse.
  destruct (mem (d_name d) _) eqn:Hm; cbn [negb raise_when]; [|by intros [= <- <-]].
  intros [= <- <-]. split; [done|]. intros d' [= <-]. apply by_name_Some in Hr as Hd. destruct Hd as [_ Hn].
  split_and!; [done..|]. rewrite Hn in Hm. by eapply Hin.
Qed.

Lemma prepare_run name arguments s r s1 :
  _prepare rg metadata name arguments s = (r, s1) →
  s1 = s ∧ ∀ d context, r = Ok (d, context) → reg !! name = Some d ∧ d_name d = name ∧
    @usable (host_user (x_world s)) metadata reg d ∧ conforms (d_input_schema d) (VDict arguments) ∧
    hc_metadata context = metadata.
Proof.
  unfold _prepare. rewrite ST_bind_at. destruct (find_available rg metadata name s) as [[d|e] s0] eqn:Hf;
    apply find_available_run in Hf as [-> Hd]; [|by intros [= <- <-]].
  destruct (Hd d eq_refl) as (Hreg & Hn & Hu). unfold lift, gets, mbind, ST_bind.
  destruct (validate_payload _ _ _ _) as [[]|e] eqn:Hv; [|by intros [= <- <-]].
  destruct (resolve_settings _ _ _) as [values|e]; [|by intros [= <- <-]].
  destruct (freeze_contract_mapping values) as [values'|e]; [|by intros [= <- <-]].
  intros [= <- <-]. split; [done|]. intros d' context [= <- <-]. split_and!; [done..| |done].
  exact (proj1 (payload_accepted _ _ _ _ Hv)).
Qed.

(** *** The operations *)

Inductive operation : Type :=
| OpPreview (name : pystr) (arguments : pydict) (group_key : option pystr)
| OpExecute (name : pystr) (arguments : pydict) (authority : ExecutionAuthority) (approved : bool)
    (group_key : option pystr)
| OpVerify (name : pystr) (arguments : pydict) (result_ : CapabilityResult Evidence)
    (group_key : option pystr)
| OpApproval (name : pystr) (approved : bool).

Definition run_operation (o : operation) s : S :=
  match o with
  | OpPreview name arguments g => (preview rg metadata name arguments g s).2
  | OpExecute name arguments a b g => (execute rg metadata name arguments a b g s).2
  | OpVerify name arguments r g => (verify rg metadata name arguments r g s).2
  | OpApproval name b => (approval_required rg metadata name b s).2
  end.

Definition operation_claim (o : operation) : option (ExecutionAuthority * bool) :=
  match o with OpExecute _ _ authority approved _ => Some (authority, approved) | _ => None end.

(** What an operation adds: at most one call, which was open, and an execution is made with the
    given claim and counted before. *)
Definition advances (claim : option (ExecutionAuthority * bool)) s s' : Prop :=
  (x_calls s' = x_calls s ∧
   (x_trace s' = x_trace s ∨ ∃ c, x_trace s' = x_trace s ++ [c] ∧ hk_stage c ≠ ExecuteStage ∧ opened s c)) ∨
  (∃ c, hk_stage c = ExecuteStage ∧ hk_claim c = claim ∧ opened s c ∧
     x_calls s' = <[hk_name c := calls_of s (hk_name c) + 1]> (x_calls s) ∧
     (x_trace s' = x_trace s ∨ x_trace s' = x_trace s ++ [c])).

Lemma advances_refl claim s : advances claim s s.
Proof. left. split; [done|by left]. Qed.

Lemma logs_advances {A} claim c (m : XS A) s :
  logs c m → hk_stage c ≠ ExecuteStage → opened s c → advances claim s (m s).2.
Proof. intros H Hc Ho. left. destruct (H s) as [H1 [H2|H2]%added_or]; split; eauto. Qed.

Lemma lift_then {A B} (r : result plan_exn A) (f : A → XS B) s (P : S → Prop) :
  P s → (∀ a, r = Ok a → P (f a s).2) → P ((lift r ≫= f) s).2.
Proof. intros Hs Hf. unfold lift, mbind, ST_bind. destruct r; simpl; auto. Qed.

Lemma prepare_then {B} name arguments (f : CapabilityDefinition * handler_context → XS B) s (P : S → Prop) :
  P s →
  (∀ d context, reg !! name = Some d → d_name d = name → @usable (host_user (x_world s)) metadata reg d →
     conforms (d_input_schema d) (VDict arguments) → hc_metadata context = metadata → P (f (d, context) s).2) →
  P ((_prepare rg metadata name arguments ≫= f) s).2.
Proof.
  intros Hs Hf. rewrite ST_bind_at. destruct (_prepare rg metadata name arguments s) as [r s1] eqn:Hp.
  apply prepare_run in Hp as [-> Hd]. destruct r as [[d context]|e]; [|done].
  destruct (Hd d context eq_refl) as (? & ? & ? & ? & ?). by apply Hf.
Qed.

Lemma preview_advances claim name arguments g s : advances claim s (preview rg metadata name arguments g s).2.
Proof.
  unfold preview. apply prepare_then; [apply advances_refl|]. intros d context Hreg Hn Hu Hc _.
  apply lift_then; [apply advances_refl|]. intros [] Hx%raise_when_Ok%negb_false_iff%bool_decide_eq_true.
  apply lift_then; [apply advances_refl|]. intros [] Hp%raise_when_Ok%negb_false_iff.
  apply (logs_advances _ (MkCall PreviewStage (d_name d) arguments None)).
  - apply logs_bind; [solve_keeps|intros activity]. apply logs_bind; [solve_keeps|intros public].
    apply logs_bind; [solve_keeps|intros _]. apply logs_then; [apply invoke_logs|]. intros raw. solve_keeps.
  - done.
  - exists d. simpl. by rewrite Hn.
Qed.

Lemma verify_advances claim name arguments result_ g s :
  advances claim s (verify rg metadata name arguments result_ g s).2.
Proof.
  unfold verify. apply prepare_then; [apply advances_refl|]. intros d context Hreg Hn Hu Hc _.
  apply lift_then; [apply advances_refl|]. intros [] Hx%raise_when_Ok%negb_false_iff%bool_decide_eq_true.
  apply lift_then; [apply advances_refl|]. intros [] Hp%raise_when_Ok%negb_false_iff.
  apply lift_then; [apply advances_refl|]. intros metadata' _. cbv zeta.
  apply (logs_advances _ (MkCall VerifyStage (d_name d) arguments None)).
  - apply logs_bind; [solve_keeps|intros activity]. apply logs_bind; [solve_keeps|intros public].
    apply logs_bind; [solve_keeps|intros _]. apply logs_then; [apply invoke_logs|]. intros raw. solve_keeps.
  - done.
  - exists d. simpl. by rewrite Hn.
Qed.

Lemma execute_advances name arguments a b g s :
  advances (Some (a, b)) s (execute rg metadata name arguments a b g s).2.
Proof.
  unfold execute. apply prepare_then; [apply advances_refl|]. intros d context Hreg Hn Hu Hc _.
  apply lift_then; [apply advances_refl|]. intros decision He.
  apply lift_then; [apply advances_refl|]. intros [] Hd%raise_when_Ok%negb_false_iff.
  unfold gets. rewrite ST_bind_at.
  apply lift_then; [apply advances_refl|]. intros [] Hl%raise_when_Ok%Z.leb_gt.
  set (c := MkCall ExecuteStage (d_name d) arguments (Some (a, b))).
  match goal with |- advances _ s ((modify _ ≫= ?f) s).2 => assert (logs c (f tt)) as H end.
  { apply logs_bind; [solve_keeps|intros activity]. apply logs_bind; [solve_keeps|intros public].
    apply logs_bind; [solve_keeps|intros _]. apply logs_then; [apply invoke_logs|]. intros raw. solve_keeps. }
  destruct (H (count_call name s)) as [H1 H2%added_or]. right. exists c. split_and!; [done|done| | |].
  - exists d. simpl. rewrite Hn. split_and!; [done..|]. by exists a, b, decision.
  - etrans; [exact H1|]. simpl. by rewrite Hn.
  - exact H2.
Qed.

(** Which call an execution makes *)
Lemma execute_makes name arguments a b g s :
  added (MkCall ExecuteStage name arguments (Some (a, b))) (execute rg metadata name arguments a b g s).1 s
    (execute rg metadata name arguments a b g s).2.
Proof.
  unfold execute. rewrite ST_bind_at. destruct (_prepare rg metadata name arguments s) as [[[d context]|e] s1] eqn:Hp;
    apply prepare_run in Hp as [-> Hd]; [|by left]. destruct (Hd d context eq_refl) as (_ & Hn & _).
  rewrite ST_bind_lift. destruct (evaluate _ _ _ _) as [decision|e]; [|by left].
  rewrite ST_bind_lift. destruct (refuse _ _) as [[]|e]; [|by left].
  unfold gets. rewrite ST_bind_at, ST_bind_lift. destruct (refuse _ _) as [[]|e]; [|by left].
  rewrite <- Hn at 1. set (c := MkCall ExecuteStage (d_name d) arguments (Some (a, b))).
  match goal with |- added c ((modify _ ≫= ?f) s).1 _ _ => assert (logs c (f tt)) as H end.
  { apply logs_bind; [solve_keeps|intros activity]. apply logs_bind; [solve_keeps|intros public].
    apply logs_bind; [solve_keeps|intros _]. apply logs_then; [apply invoke_logs|]. intros raw. solve_keeps. }
  exact (proj2 (H (count_call name s))).
Qed.

Lemma approval_advances claim name b s : advances claim s (approval_required rg metadata name b s).2.
Proof.
  unfold approval_required. rewrite ST_bind_at.
  destruct (find_available rg metadata name s) as [r s1] eqn:Hf. apply find_available_run in Hf as [-> _].
  destruct r as [d|e]; [|apply advances_refl]. apply lift_then; [apply advances_refl|]. intros decision _. apply advances_refl.
Qed.

Lemma operation_advances o s : advances (operation_claim o) s (run_operation o s).
Proof.
  destruct o; [apply preview_advances|apply execute_advances|apply verify_advances|apply approval_advances].
Qed.

(** C3: Every operation of the executor makes at most one call of a handler, and only when the
    capability is registered and usable by the user, the payload conforms to its input schema,
    and the exposure, the approval and the call limit of the capability allow it; an execution
    is counted before its handler is called. *)
Theorem operations_are_guarded o s : advances (operation_claim o) s (run_operation o s).
Proof. apply operation_advances. Qed.

(** ** The call limit *)

Definition executions s (name : pystr) : Z :=
  Z.of_nat (length (filter (λ c, hk_stage c = ExecuteStage ∧ hk_name c = name) (x_trace s))).

Definition within_limits s : Prop :=
  ∀ name, 0 <= executions s name <= calls_of s name ∧
    ∀ d, reg !! name = Some d → 0 < calls_of s name → calls_of s name <= d_max_calls d.

Lemma executions_snoc s s' c name :
  x_trace s' = x_trace s ++ [c] →
  executions s' name = executions s name + (if decide (hk_stage c = ExecuteStage ∧ hk_name c = name) then 1 else 0).
Proof.
  unfold executions. intros ->. rewrite filter_app, length_app. rewrite filter_cons, filter_nil.
  destruct (decide _); simpl; lia.
Qed.
Lemma executions_same s s' name : x_trace s' = x_trace s → executions s' name = executions s name.
Proof. unfold executions. by intros ->. Qed.

Lemma advances_limits claim s s' : within_limits s → advances claim s s' → within_limits s'.
Proof.
  intros Hw [[Hc Ht]|(c & Hs & _ & Ho & Hc & Ht)] name; unfold calls_of in *; rewrite Hc.
  - assert (executions s' name = executions s name) as ->.
    { destruct Ht as [Ht|(c & Ht & Hne & _)]; [by apply executions_same|].
      rewrite (executions_snoc _ _ _ _ Ht), decide_False by naive_solver. lia. }
    apply Hw.
  - destruct (Hw name) as [[H0 H1] H2]. destruct Ho as (d & Hd & _ & _ & Ho). rewrite Hs in Ho.
    destruct Ho as [Hlt _]. unfold calls_of in *.
    assert (0 <= executions s' name <= executions s name + (if decide (hk_name c = name) then 1 else 0)) as He.
    { destruct Ht as [Ht|Ht]; [rewrite (executions_same _ _ _ Ht)|rewrite (executions_snoc _ _ _ _ Ht)];
        repeat destruct (decide _); naive_solver lia. }
    destruct (decide (hk_name c = name)) as [<-|Hne].
    + rewrite lookup_insert_eq. simpl. split; [lia|]. intros d' Hd' _. simplify_eq. lia.
    + rewrite lookup_insert_ne by done. split; [lia|]. apply H2.
Qed.

(** However many operations run on one executor, in any order, the handler of a capability
    is executed at most max_calls times. *)
Theorem executions_within_limit (operations : list operation) s name d :
  x_calls s = ∅ → x_trace s = [] → reg !! name = Some d → 0 <= d_max_calls d →
  executions (foldl (λ s o, run_operation o s) s operations) name <= d_max_calls d.
Proof.
  intros Hc Ht Hd Hm.
  assert (within_limits s) as Hw.
  { intros n. unfold executions, calls_of. rewrite Hc, Ht, lookup_empty. simpl. split; [lia|]. intros; lia. }
  clear Hc Ht. revert s Hw. induction operations as [|o operations IH]; intros s Hw; simpl.
  - destruct (Hw name) as [H1 H2]. specialize (H2 d Hd). lia.
  - apply IH. eapply advances_limits; [exact Hw|apply operation_advances].
Qed.

(** ** Failed calls *)

Lemma savepoint_restores {A} (m : world D X → outcome A * world D X) w o w' :
  has_cursor = true → isolated_savepoint m w = (o, w') → (∀ a, o ≠ Returned a) →
  w_db w' = w_db w ∨ w_db w' = w_db (flush w).2.
Proof.
  intros Hc. unfold isolated_savepoint. rewrite Hc. cbn [negb]. destruct (flush w) as [[] w1]; cbn [snd raised].
  2-5: intros [= <- <-] _; by left.
  destruct (m w1) as [[] w2]; cbn [raised].
  2-5: intros [= <- <-] _; by right.
  destruct (flush w2) as [[] w3]; cbn [raised]; intros [= <- <-] Hne; try (by right). by destruct (Hne a0).
Qed.

(** What an event leaves of the world: nothing changed without a sink, and otherwise what the sink
    wrote in a savepoint of its own. *)
Definition noted (w w' : world D X) : Prop :=
  match event_sink with
  | None => w' = w
  | Some sink => ∃ event title payload, w' = (isolated_savepoint (sink event title payload) w).2
  end.

(** An event was cancelled: the sink raised past [except Exception]. *)
Definition event_cancelled (cls : pystr) (w : world D X) : Prop :=
  ∃ sink event title payload, event_sink = Some sink ∧
    (isolated_savepoint (sink event title payload) w).1 = RaisedBase cls.

Lemma emit_noted event title payload s r s' :
  _emit_lifecycle_event event title payload s = (r, s') →
  noted (x_world s) (x_world s') ∧
  match r with Ok _ => True | Err e => ∃ cls, e = OtherError cls ∧ event_cancelled cls (x_world s) end.
Proof.
  unfold _emit_lifecycle_event, noted, event_cancelled. destruct event_sink as [sink|]; [|by intros [= <- <-]].
  unfold outside. rewrite ST_bind_at. destruct (isolated_savepoint _ _) as [o w] eqn:Hi.
  intros Hr. split.
  - exists event, title, payload. rewrite Hi. by destruct o; injection Hr as <- <-.
  - destruct o as [| | | |cls]; injection Hr as <- <-; try done. exists cls. split; [done|].
    exists sink, event, title, payload. by rewrite Hi.
Qed.

(** A step after which a timing event is emitted. *)
Lemma timed_noted {A} name at_stage code (m : XS A) s r s' :
  finally m (_emit_capability_timing name at_stage code) s = (r, s') →
  noted (x_world (m s).2) (x_world s') ∧
  (r = (m s).1 ∨ ∃ cls, r = Err (OtherError cls) ∧ event_cancelled cls (x_world (m s).2)).
Proof.
  unfold finally, _emit_capability_timing. destruct (m s) as [r0 s1]. unfold gets. rewrite ST_bind_at. cbn [fst snd].
  destruct (_emit_lifecycle_event _ _ _ s1) as [r1 s2] eqn:He. apply emit_noted in He as [Hn Hr].
  destruct r1; intros [= <- <-]; (split; [exact Hn|]); [by left|].
  destruct Hr as (cls & -> & Hc). right. by exists cls.
Qed.

(** The event of a failure, then its error. *)
Lemma failure_noted {A} event title payload (e : plan_exn) s :
  noted (x_world s) (x_world ((_emit_lifecycle_event event title payload;; raise e : XS A) s).2).
Proof.
  rewrite ST_bind_at. destruct (_emit_lifecycle_event _ _ _ s) as [r s1] eqn:He.
  apply emit_noted in He as [Hn _]. by destruct r.
Qed.

(** C24: With a database cursor, a call of a handler that fails, because the handler raises or
    because its output is refused, leaves the database as it was before the call, or as the
    flush before the savepoint left it; after that only the event sink wrote, at most the
    failure event and the timing event, each in a savepoint of its own. The one other way to
    fail is after the handler returned: a cancellation that the sink raises during the timing
    event. *)
Theorem failed_call_rolls_back {A} d at_stage context payload claim event title public
    (finalize : raw_output Evidence → result plan_exn A) s e s' :
  has_cursor = true →
  _invoke d at_stage context payload claim event title public finalize s = (Err e, s') →
  (∃ w1 w2, (w_db w1 = w_db (x_world s) ∨ w_db w1 = w_db (flush (x_world s)).2) ∧
     (w2 = w1 ∨ noted w1 w2) ∧ noted w2 (x_world s')) ∨
  (∃ a w cls, isolated_savepoint (attempt at_stage (d_name d) context payload finalize) (x_world s)
       = (Returned a, w) ∧ e = OtherError cls ∧ event_cancelled cls w).
Proof.
  intros Hc. unfold _invoke, modify, outside. rewrite ST_bind_at. cbn [fst snd]. rewrite ST_bind_at.
  cbn [record_call x_world].
  destruct (isolated_savepoint _ (x_world s)) as [o w] eqn:Hi.
  pose proof (savepoint_restores _ _ _ _ Hc Hi) as Hr.
  destruct o as [a| |code details|cls|cls]; intros Ht%timed_noted; destruct Ht as [Hn Hres].
  - destruct Hres as [?|(cls & [= ->] & Hx)]; [done|]. right. by exists a, w, cls.
  - left. exists w. eexists. split; [by apply Hr|]. split; [|exact Hn].
    right. eapply failure_noted.
  - left. exists w. eexists. split; [by apply Hr|]. split; [|exact Hn].
    right. eapply failure_noted.
  - left. exists w. eexists. split; [by apply Hr|]. split; [|exact Hn].
    right. eapply failure_noted.
  - left. exists w, w. split; [by apply Hr|]. split; [by left|exact Hn].
Qed.

(** ** Results *)

Lemma freeze_id fuel v v' : freeze_contract_json fuel v = Ok v' → v' = v.
Proof.
  revert v v'. induction fuel as [|fuel IH]; intros v v'; [done|]. cbn [freeze_contract_json].
  destruct v as [| | |[]| |l|d]; try (by intros [= <-]); try done.
  - intros (l' & Hl%mapR_Ok & ->)%fmap_Ok. f_equal. induction Hl; [done|]. f_equal; [by apply IH|done].
  - intros (d' & Hd%mapR_Ok & ->)%fmap_Ok. f_equal.
    induction Hd as [|[k x] [k' x'] d d' H _ IHd]; [done|]. f_equal; [|done].
    simpl in H. apply fmap_Ok in H as (y & Hy & [= -> ->]). f_equal. by apply IH.
Qed.
Lemma freeze_mapping_id d d' : freeze_contract_mapping d = Ok d' → d' = d.
Proof.
  unfold freeze_contract_mapping. intros (v & ->%freeze_id & H)%bind_Ok.
  apply of_option_Ok in H. by injection H as <-.
Qed.

Lemma execution_output_ok d (raw : raw_output Evidence) r :
  _validated_execution_output d raw = Ok r → conforms (d_output_schema d) (VDict (cr_data r)).
Proof.
  unfold _validated_execution_output, new_result. intros (r0 & _ & H)%bind_Ok.
  apply bind_Ok in H as ([] & Hv & H). apply bind_Ok in H as (data & ->%freeze_mapping_id & [= <-]).
  exact (proj1 (payload_accepted _ _ _ _ Hv)).
Qed.

Lemma yields_finally {A} (Q : A → Prop) (m : XS A) f : yields Q (λ _, True) m → yields Q (λ _, True) (finally m f).
Proof.
  intros H s. unfold finally. specialize (H s). destruct (m s) as [r s1]. by destruct (f s1) as [[] s2].
Qed.

Lemma attempt_finalized {A} at_stage name context payload (finalize : raw_output Evidence → result plan_exn A) w a w' :
  attempt at_stage name context payload finalize w = (Returned a, w') → ∃ raw, finalize raw = Ok a.
Proof.
  unfold attempt. destruct (call_handler _ _ _ _ w) as [[raw| | | |] w1]; cbn [raised]; try done.
  destruct (finalize raw) as [a'|[]] eqn:Hf; try done. intros [= <- _]. by exists raw.
Qed.
Lemma savepoint_returned {A} (m : world D X → outcome A * world D X) w a w' :
  isolated_savepoint m w = (Returned a, w') → ∃ w1 w2, m w1 = (Returned a, w2).
Proof.
  unfold isolated_savepoint. destruct has_cursor; cbn [negb]; [|by eauto].
  destruct (flush w) as [[] w1]; cbn [raised]; try done.
  destruct (m w1) as [[] w2] eqn:Hm; cbn [raised]; try done.
  destruct (flush w2) as [[] w3]; cbn [raised]; try done. intros [= <- _]. eauto.
Qed.

Lemma invoke_yields {A} (Q : A → Prop) d at_stage context payload claim event title public
    (finalize : raw_output Evidence → result plan_exn A) :
  (∀ raw a, finalize raw = Ok a → Q a) →
  yields Q (λ _, True) (_invoke d at_stage context payload claim event title public finalize).
Proof.
  intros HQ. unfold _invoke. apply (yields_bind _ (λ _, True)); [apply yields_modify|intros _ _].
  apply (yields_bind _ (λ o, ∀ a, o = Returned a → Q a)).
  - intros s. unfold outside. destruct (isolated_savepoint _ _) as [o w] eqn:Hi. simpl. intros a ->.
    apply savepoint_returned in Hi as (w1 & w2 & Hm). apply attempt_finalized in Hm as [raw Hr]. by eapply HQ.
  - intros o Ho. destruct o; apply yields_finally; [apply yields_ret; by apply Ho|..|by apply yields_raise];
      apply (yields_bind _ (λ _, True)); try (intros _ _; by apply yields_raise);
      intros s; by destruct (_emit_lifecycle_event _ _ _ s) as [[] ?].
Qed.

Lemma yields_all {A} (m : XS A) : yields (λ _, True) (λ _, True) m.
Proof. intros s. by destruct (m s) as [[] ?]. Qed.

(** A result that execute returns conforms to the output schema of its capability. *)
Theorem execute_result_conforms name arguments a b g s r s' :
  execute rg metadata name arguments a b g s = (Ok r, s') →
  ∃ d, reg !! name = Some d ∧ conforms (d_output_schema d) (VDict (cr_data r)).
Proof.
  unfold execute. intros ([d context] & s1 & Hp & Hrun)%ST_bind_Ok.
  apply prepare_run in Hp as [-> Hd]. destruct (Hd d context eq_refl) as (Hreg & _).
  exists d. split; [done|]. revert Hrun.
  match goal with |- ?m s = _ → _ => assert (yields (λ r, conforms (d_output_schema d) (VDict (cr_data r))) (λ _, True) m) as H end.
  { do 8 (apply (yields_bind _ (λ _, True)); [apply yields_all|intros ? _]).
    apply (yields_bind _ (λ r, conforms (d_output_schema d) (VDict (cr_data r)))).
    - apply invoke_yields. intros raw r0. apply execution_output_ok.
    - intros raw Hraw. do 2 (apply (yields_bind _ (λ _, True)); [apply yields_all|intros ? _]).
      by apply yields_ret. }
  intros Hrun. specialize (H s). by rewrite Hrun in H.
Qed.
End executor.
