(* ===== verification/EffectPlanService.v ===== *)
(** * Agent: effect plans, preparation and execution

    [CapabilityPlanService] of [runtime/agent/plan.py].  The registry is a finite map of
    definitions; the executor and the host's callbacks are reached through the interface
    [PlanExecutor], and every call of them is recorded in a trace. *)
From S2P Require Import Prelude PyText Regex Sha256 PyValue Json EffectPlan Capability CapabilityRegistry.
Local Open Scope Z_scope.

(** ** Capability definitions *)

Definition _recovery_mode (d : CapabilityDefinition) : result plan_exn recovery_mode :=
  match get (u "recovery_mode") (d_audit_metadata d) with
  | VNone =>
      Ok (match d_effect d with
          | InternalReversible | InternalIrreversible | ReadOnly => OdooAtomic
          | _ => External
          end)
  | v => map_err (λ e, match e with
                       | CapabilityPlanError _ =>
                           CapabilityPlanError (u "capability_recovery_metadata_invalid")
                       | e => e end) (enum_of _RECOVERY_MODES v)
  end.

(** Whether a preview shows all that is needed to reconstruct the record. *)
Definition reconstruction_complete (preview : pydict) : bool :=
  match get (u "reconstruction") preview with
  | VDict r =>
      match get (u "required_complete") r, get (u "values") r with
      | VBool true, VDict (_ :: _) => true
      | _, _ => false
      end
  | _ => false
  end.

(** [<name>.revert] is a host-only reversible capability. *)
Definition has_compensation (reg : registry) (d : CapabilityDefinition) : bool :=
  match resolve reg (d_name d ++ u ".revert") with
  | Ok c => bool_decide (d_exposure c = ExposeHost) && bool_decide (d_effect c = InternalReversible)
  | Err _ => false
  end.

Definition _journal_classification (reg : registry) (d : CapabilityDefinition)
    (preview : option pydict) : result plan_exn pystr :=
  let bad := CapabilityPlanError (u "capability_journal_metadata_invalid") in
  match get (u "journal_classification") (d_audit_metadata d) with
  | VNone =>
      Ok (match d_effect d with
          | ReadOnly => u "none"
          | ExternalEffect | HostEffect => u "external_or_unknown"
          | InternalReversible =>
              if has_compensation reg d then u "reversible"
              else if mem (u "create") (d_tags d) then u "reconstructable"
              else u "irreversible"
          | InternalIrreversible => u "irreversible"
          end)
  | v =>
      explicit ← map_err (λ e, match e with CapabilityPlanError _ => bad | e => e end)
                   (enum_of _JOURNAL_CLASSES v);
      raise_when (str_eqb explicit (u "reversible")
                  && negb (bool_decide (d_effect d = InternalReversible))) bad;;
      Ok (match preview with
          | Some p =>
              if str_eqb explicit (u "reconstructable") && negb (reconstruction_complete p)
              then u "irreversible" else explicit
          | None => explicit
          end)
  end.

Definition _risk (risk : CapabilityRisk) (effect : CapabilityEffect) : pystr :=
  match effect, risk with
  | (InternalIrreversible | ExternalEffect | HostEffect), _ => u "protected"
  | _, RiskHost => u "protected"
  | _, RiskAction => u "high"
  | _, (RiskWrite | RiskActionPreview) => u "moderate"
  | _, _ => u "low"
  end.

Definition _effect (effect : CapabilityEffect) : pystr :=
  match effect with
  | ReadOnly => u "read_only"
  | InternalReversible => u "internal_reversible"
  | InternalIrreversible => u "internal_irreversible"
  | ExternalEffect | HostEffect => u "external"
  end.

(** ** Dependency outcomes *)

(** [outcome_contracts]: whether a step's capability reports partial outcomes. *)
Abbreviation contracts := (list (pystr * bool)).

Definition _step_outcome_contracts (reg : registry) (steps : list step) : result plan_exn contracts :=
  foldR (λ acc s,
    d ← resolve reg (s_capability s);
    raise_when (negb (str_eqb (d_version d) (s_version s)))
      (CapabilityPlanError (u "capability_plan_version_mismatch"));;
    Ok (dict_set (s_step_id s)
          (py_eq (get (u "partial_failure_semantics") (d_developer_metadata d))
             (VStr (u "continue_on_error"))) acc)) [] steps.

(** [result.get("outcome")] is "partial" or "blocked". *)
Definition incomplete_outcome (value : pyval) : result plan_exn (option pystr) :=
  match value with
  | VDict d =>
      bad ← of_option (in_str_set (get (u "outcome") d) [u "partial"; u "blocked"]) PyTypeError;
      Ok (if bad : bool then as_str (get (u "outcome") d) else None)
  | _ => Ok None
  end.

Definition _step_satisfies_dependencies (cs : contracts) (s : step) : result plan_exn bool :=
  if negb (is_completed s) then Ok false
  else match dict_lookup (s_step_id s) cs with
       | Some true => (λ o, bool_decide (o = None)) <$> incomplete_outcome (s_result s)
       | _ => Ok true
       end.

Definition _unsatisfied_dependency_outcome (cs : contracts) (s : option step)
    : result plan_exn (option pystr) :=
  match s with
  | None => Ok None
  | Some s =>
      match s_state s, dict_lookup (s_step_id s) cs with
      | Skipped, _ => Ok (Some (u "skipped"))
      | StepCompleted, Some true => incomplete_outcome (s_result s)
      | _, _ => Ok None
      end
  end.

(** The last step of the list with the identifier, as in [{item["step_id"]: item ...}]. *)
Definition by_id (steps : list step) (step_id : pystr) : option step :=
  find_step (reverse steps) step_id.

Definition dependency_entry (d : pystr * pystr) : pyval :=
  VDict [(u "step_id", VStr d.1); (u "outcome", VStr d.2)].

Definition skip_result (dependencies : list (pystr * pystr)) : pydict :=
  [(u "outcome", VStr (u "skipped")); (u "reason", VStr (u "dependency_incomplete"));
   (u "executed", VBool false); (u "dependencies", VList (dependency_entry <$> dependencies))].

Definition _dependency_skip_evidence (cs : contracts) (s : step) (steps : list step)
    : result plan_exn (pydict * pydict) :=
  outcomes ← mapR (λ d, o ← _unsatisfied_dependency_outcome cs (by_id steps d); Ok (d, o))
               (s_depends_on s);
  let dependencies := omap (λ x, (λ o, (x.1, o)) <$> x.2) outcomes in
  raise_when (bool_decide (dependencies = []))
    (CapabilityPlanError (u "capability_plan_dependency_unsatisfied"));;
  let result := skip_result dependencies in
  Ok (result, (u "verified", VBool true) :: result).

Definition _validate_skipped_dependency_evidence (cs : contracts) (steps : list step)
    : result plan_exn unit :=
  foldR (λ _ s,
    if bool_decide (s_state s = Skipped) then
      '(expected_result, expected_verification) ← _dependency_skip_evidence cs s steps;
      raise_when (negb (py_eq (s_result s) (VDict expected_result))
                  || negb (py_eq (s_verification s) (VDict expected_verification))) plan_invalid
    else Ok tt) tt steps.

(** The loop of [_potentially_executable_steps]: blocked identifiers and executable steps. *)
Definition executable_step (cs : contracts) (acc : list pystr * list step) (s : step)
    : result plan_exn (list pystr * list step) :=
  let '(blocked, executable) := acc in
  if terminal (s_state s) then
    ok ← _step_satisfies_dependencies cs s;
    Ok (if ok : bool then blocked else s_step_id s :: blocked, executable)
  else if existsb (λ d, mem d blocked) (s_depends_on s) then Ok (s_step_id s :: blocked, executable)
  else Ok (blocked, executable ++ [s]).

Definition _potentially_executable_steps (cs : contracts) (steps : list step)
    : result plan_exn (list step) :=
  snd <$> foldR (executable_step cs) ([], []) steps.

Definition count_calls (capability : pystr) (steps : list step) : Z :=
  Z.of_nat (length (filter (λ s, s_capability s = capability) steps)).

Definition _validate_execution_call_budget (reg : registry) (cs : contracts) (steps : list step)
    : result plan_exn unit :=
  pending ← _potentially_executable_steps cs steps;
  foldR (λ _ s,
    d ← resolve reg (s_capability s);
    raise_when (d_max_calls d <? count_calls (s_capability s) pending)
      (CapabilityPlanError (u "capability_call_limit_exceeded"))) tt pending.

(** ** The executor and the host *)

(** The calls the service makes of its executor.  [W] is everything the calls act on and [R]
    the results they return. *)
Class PlanExecutor (W R : Type) := {
  result_data : R → pydict;
  ex_preview : pystr → pydict → pystr → W → result plan_exn CapabilityPreview * W;
  ex_execute : pystr → pydict → bool → pystr → W → result plan_exn R * W;
  ex_verify : pystr → pydict → R → pystr → W → result plan_exn CapabilityVerification * W;
  ex_approval_required : pystr → bool → W → result plan_exn bool * W;
  (** [secrets.token_hex(16)] *)
  ex_token_hex : W → pystr * W }.

Inductive checkpoint_stage : Type := BeforeUnit | AfterUnit.

Inductive call : Type :=
(** A preview, with the precondition fingerprint it returned, if it did not raise. *)
| CallPreview (step_id capability : pystr) (arguments : pydict) (answer : option pystr)
| CallBeforeEffect
| CallCheckpoint (stage : checkpoint_stage) (snapshot : plan) (x : unit_) (is_last : bool)
| CallExecute (step_id capability : pystr) (arguments : pydict)
| CallVerify (step_id : pystr).

Record run (W : Type) := MkRun { r_world : W; r_trace : list call }.
Arguments MkRun {W}.
Arguments r_world {W}.
Arguments r_trace {W}.

Section service.
Context {W R : Type} `{!PlanExecutor W R} (reg : registry).
Abbreviation M := (ST (run W) plan_exn).

(** A call outside, with its place in the trace and, where the trace tells it, its answer. *)
Definition perform_as {A} (c : option A → call) (f : W → result plan_exn A * W) : M A := λ s,
  let '(r, w) := f (r_world s) in
  (r, MkRun w (r_trace s ++ [c (match r with Ok a => Some a | Err _ => None end)])).
Definition perform {A} (c : call) : (W → result plan_exn A * W) → M A := perform_as (λ _, c).
Definition preview_call (step_id capability : pystr) (arguments : pydict)
    (answer : option CapabilityPreview) : call :=
  CallPreview step_id capability arguments (pv_precondition_fingerprint <$> answer).
Definition quietly {A} (f : W → result plan_exn A * W) : M A := λ s,
  let '(r, w) := f (r_world s) in (r, MkRun w (r_trace s)).

(** [except CapabilityError as error: raise CapabilityPlanStepError(...)] *)
Definition bind_step_error {A} (step_id capability phase : pystr) (m : M A) : M A :=
  catch m (λ e, raise (match e with
                       | CapabilityError code details =>
                           CapabilityPlanStepError code step_id capability phase details
                       | e => e end)).

Definition _new_semantic_group_key : M pystr :=
  token ← quietly (λ w, let '(t, w) := ex_token_hex w in (Ok t, w));
  mret (u "semantic:v1:" ++ token).

(** *** Preparation *)

Record PlannedCapability := MkPlanned {
  pc_capability : pystr;
  pc_arguments : pydict;
  pc_summary : pystr;
  pc_step_id : pystr;
  pc_depends_on : list pystr }.

(** [requested.step_id or f"step-{position + 1}"] *)
Definition requested_id (position : nat) (r : PlannedCapability) : pystr :=
  match pc_step_id r with [] => step_name position | id => id end.

Definition _validate_requested_dependencies (requests : list PlannedCapability)
    : result plan_exn (list pystr) :=
  foldR (λ known r,
    let step_id := requested_id (length known) r in
    raise_when (mem step_id known || negb (subset_of (pc_depends_on r) known))
      (CapabilityPlanError (u "capability_plan_dependency_invalid"));;
    Ok (known ++ [step_id])) [] requests.

(** The turn of the loop of [prepare]; [requires_confirmation] is the flag of the pair. *)
Definition prepare_step (acc : list step * bool) (requested : PlannedCapability)
    : M (list step * bool) :=
  let '(steps, requires_confirmation) := acc in
  let position := length steps in
  let step_id := requested_id position requested in
  definition ← lift (resolve reg (pc_capability requested));
  group_prepare ← _new_semantic_group_key;
  group_execute ← _new_semantic_group_key;
  group_verify ← _new_semantic_group_key;
  preview ← bind_step_error step_id (d_name definition) (u "prepare")
    (perform_as (preview_call step_id (d_name definition) (pc_arguments requested))
       (ex_preview (d_name definition) (pc_arguments requested) group_prepare));
  approval_required ← quietly (ex_approval_required (d_name definition) false);
  binding ← lift (_binding_fingerprint (d_name definition) (d_version definition)
                    (pc_arguments requested) (VStr (pv_precondition_fingerprint preview)));
  mode ← lift (_recovery_mode definition);
  journal ← lift (_journal_classification reg definition (Some (pv_summary preview)));
  let s := MkStep (VInt (Z.of_nat position)) step_id (pc_depends_on requested)
             (d_name definition) (d_version definition) (pc_arguments requested)
             (pc_summary requested)
             (VStr (_risk (d_risk definition) (d_effect definition)))
             (VStr (_effect (d_effect definition)))
             (approval_value (d_approval definition)) approval_required
             (VStr (pv_precondition_fingerprint preview)) (VStr binding) (pv_summary preview)
             Previewed VNone VNone (MkGroups group_prepare group_execute group_verify)
             [] mode journal in
  mret (steps ++ [s], requires_confirmation || approval_required).

Definition prepare (requests : list PlannedCapability) : M plan :=
  lift (raise_when (negb ((1 <=? length requests)%nat
                          && (Z.of_nat (length requests) <=? _MAX_EFFECT_STEPS))) plan_invalid);;
  lift (_validate_requested_dependencies requests);;
  '(steps, requires_confirmation) ← foldST prepare_step ([], false) requests;
  let '(units, steps) := _assign_recovery_units steps in
  mret (MkPlan (if requires_confirmation : bool then AwaitingConfirmation else Authorized)
          requires_confirmation units steps).

(** *** Execution *)

Definition upgrade_step (s : step) : result plan_exn step :=
  d ← resolve reg (s_capability s);
  raise_when (negb (str_eqb (d_version d) (s_version s)))
    (CapabilityPlanError (u "capability_plan_version_mismatch"));;
  mode ← _recovery_mode d;
  journal ← _journal_classification reg d None;
  Ok (set_recovery [] mode journal s).

Definition _upgrade_legacy_recovery (p : plan) : result plan_exn plan :=
  steps ← mapR upgrade_step (p_steps p);
  let '(units, steps) := _assign_recovery_units steps in
  Ok (_execution_snapshot p steps units (p_state p)).

Context (human_approved : bool)
  (before_effect : option (W → result plan_exn unit * W))
  (recovery_checkpoint :
     option (checkpoint_stage → plan → unit_ → bool → W → result plan_exn unit * W)).

(** The local variables of [execute]. *)
Record exec := MkExec {
  e_steps : list step;
  e_units : list unit_;
  e_results : list R;
  e_terminal : list pystr;        (* terminal_ids *)
  e_satisfied : list pystr;       (* satisfied_ids *)
  e_barrier : bool }.             (* barrier_crossed *)

Definition set_steps (steps : list step) (e : exec) : exec :=
  MkExec steps (e_units e) (e_results e) (e_terminal e) (e_satisfied e) (e_barrier e).
Definition set_units (units : list unit_) (e : exec) : exec :=
  MkExec (e_steps e) units (e_results e) (e_terminal e) (e_satisfied e) (e_barrier e).
Definition add_result (r : R) (e : exec) : exec :=
  MkExec (e_steps e) (e_units e) (e_results e ++ [r]) (e_terminal e) (e_satisfied e) (e_barrier e).
Definition add_terminal (id : pystr) (e : exec) : exec :=
  MkExec (e_steps e) (e_units e) (e_results e) (id :: e_terminal e) (e_satisfied e) (e_barrier e).
Definition add_satisfied (b : bool) (id : pystr) (e : exec) : exec :=
  if b then MkExec (e_steps e) (e_units e) (e_results e) (e_terminal e) (id :: e_satisfied e) (e_barrier e)
  else e.
Definition cross_barrier (e : exec) : exec :=
  MkExec (e_steps e) (e_units e) (e_results e) (e_terminal e) (e_satisfied e) true.

Definition step_at (steps : list step) (index : nat) : result plan_exn step :=
  of_option (steps !! index) plan_invalid.

(** The locals of [_preflight_unit]: [unit_seen], [known_unsatisfied] and [definitions]. *)
Record preflight := MkPreflight {
  pf_seen : list pystr;
  pf_unsatisfied : list pystr;
  pf_definitions : list (pystr * CapabilityDefinition) }.

(** The checks of a step whose dependencies may all be satisfied. *)
Definition preflight_bindings (s : step) : M CapabilityDefinition :=
  d ← lift (resolve reg (s_capability s));
  lift (raise_when (negb (str_eqb (d_version d) (s_version s)))
          (CapabilityPlanError (u "capability_plan_version_mismatch")));;
  mode ← lift (_recovery_mode d);
  lift (raise_when (negb (bool_decide (mode = s_recovery_mode s)))
          (CapabilityPlanError (u "capability_plan_recovery_binding_mismatch")));;
  expected_binding ← lift (_binding_fingerprint (d_name d) (d_version d) (s_arguments s)
                             (s_precondition_fingerprint s));
  lift (raise_when (negb (py_eq (s_binding_fingerprint s) (VStr expected_binding)))
          (CapabilityPlanError (u "capability_plan_binding_mismatch")));;
  preview ← bind_step_error (s_step_id s) (d_name d) (u "preflight")
    (perform_as (preview_call (s_step_id s) (d_name d) (s_arguments s))
       (ex_preview (d_name d) (s_arguments s) (sg_prepare (s_semantic_groups s))));
  lift (raise_when (negb (py_eq (s_precondition_fingerprint s)
                            (VStr (pv_precondition_fingerprint preview))))
          (CapabilityPlanStepError (u "capability_plan_precondition_changed") (s_step_id s)
             (d_name d) (u "preflight") []));;
  journal ← lift (_journal_classification reg d (Some (pv_summary preview)));
  lift (raise_when (negb (str_eqb journal (s_journal_classification s)))
          (CapabilityPlanError (u "capability_plan_journal_binding_mismatch")));;
  approval_required ← quietly (ex_approval_required (d_name d) human_approved);
  lift (raise_when approval_required (CapabilityPlanError (u "capability_plan_approval_required")));;
  mret d.

Definition preflight_step (e : exec) (acc : preflight) (step_id : pystr) : M preflight :=
  index ← lift (_step_index (e_steps e) step_id);
  s ← lift (step_at (e_steps e) index);
  if terminal (s_state s) then
    mret (MkPreflight (step_id :: pf_seen acc) (pf_unsatisfied acc) (pf_definitions acc))
  else
    lift (raise_when (existsb (λ d, negb (mem d (e_terminal e)) && negb (mem d (pf_seen acc)))
                        (s_depends_on s))
            (CapabilityPlanError (u "capability_plan_dependency_unsatisfied")));;
    if existsb (λ d, mem d (pf_unsatisfied acc)) (s_depends_on s) then
      mret (MkPreflight (step_id :: pf_seen acc) (step_id :: pf_unsatisfied acc)
              (pf_definitions acc))
    else
      d ← preflight_bindings s;
      mret (MkPreflight (step_id :: pf_seen acc) (pf_unsatisfied acc)
              (dict_set step_id d (pf_definitions acc))).

(** [set(terminal_ids) - set(satisfied_ids)] *)
Definition unsatisfied_ids (e : exec) : list pystr :=
  filter (λ id, id ∉ e_satisfied e) (e_terminal e).

Definition _preflight_unit (e : exec) (x : unit_)
    : M (list (pystr * CapabilityDefinition)) :=
  acc ← foldST (preflight_step e) (MkPreflight [] (unsatisfied_ids e) []) (u_step_ids x);
  mret (pf_definitions acc).

(** The calls of [execute] for one step: the effect and its verification. *)
Definition effect_and_verify (s : step) (d : CapabilityDefinition)
    : M (R * CapabilityVerification) :=
  result ← perform (CallExecute (s_step_id s) (d_name d) (s_arguments s))
    (ex_execute (d_name d) (s_arguments s) human_approved (sg_execute (s_semantic_groups s)));
  verification ← perform (CallVerify (s_step_id s))
    (ex_verify (d_name d) (s_arguments s) result (sg_verify (s_semantic_groups s)));
  mret (result, verification).

(** The turn of the loop over [unit["step_ids"]]. *)
Definition run_step (cs : contracts) (definitions : list (pystr * CapabilityDefinition))
    (e : exec) (step_id : pystr) : M exec :=
  index ← lift (_step_index (e_steps e) step_id);
  s ← lift (step_at (e_steps e) index);
  if terminal (s_state s) then
    ok ← lift (_step_satisfies_dependencies cs s);
    mret (add_satisfied ok step_id (add_terminal step_id e))
  else if existsb (λ d, negb (mem d (e_satisfied e))) (s_depends_on s) then
    '(result, verification) ← lift (_dependency_skip_evidence cs s (e_steps e));
    let s := set_outcome Skipped (VDict result) (VDict verification) s in
    mret (add_terminal step_id (set_steps (<[index := s]> (e_steps e)) e))
  else
    definition ← lift (of_option (dict_lookup step_id definitions) (OtherError (u "KeyError")));
    let s := set_state StepExecuting s in
    let e := set_steps (<[index := s]> (e_steps e)) e in
    '(result, verification) ← bind_step_error step_id (d_name definition) (u "execution")
      (effect_and_verify s definition);
    lift (raise_when (negb (vf_verified verification))
            (CapabilityPlanStepError (u "capability_plan_verification_failed") step_id
               (d_name definition) (u "execution") []));;
    let s := set_outcome StepCompleted (VDict (result_data result))
               (VDict (vf_summary verification)) s in
    ok ← lift (_step_satisfies_dependencies cs s);
    mret (add_satisfied ok step_id
            (add_terminal step_id (add_result result (set_steps (<[index := s]> (e_steps e)) e)))).

(** The barrier before a unit's effects: the checkpoint, or [before_effect] once. *)
Definition cross (e : exec) (snapshot : plan) (x : unit_) (is_last : bool) : M exec :=
  match recovery_checkpoint, before_effect with
  | Some checkpoint, _ =>
      perform (CallCheckpoint BeforeUnit snapshot x is_last) (checkpoint BeforeUnit snapshot x is_last);;
      mret (cross_barrier e)
  | None, Some f =>
      if e_barrier e then mret e
      else perform CallBeforeEffect f;; mret (cross_barrier e)
  | None, None => mret e
  end.

(** The turn of the loop over [recovery_units] at [index]. *)
Definition run_unit (p : plan) (cs : contracts) (e : exec) (index : nat) : M exec :=
  raw_unit ← lift (of_option (e_units e !! index) plan_invalid);
  match u_state raw_unit with
  | UnitCompleted => mret e
  | UnitExecuting => raise (CapabilityPlanError (u "capability_plan_recovery_required"))
  | UnitPrepared =>
      definitions ← _preflight_unit e raw_unit;
      let x := set_unit_state UnitExecuting raw_unit in
      let e := set_units (<[index := x]> (e_units e)) e in
      let is_last := bool_decide (index = length (e_units e) - 1)%nat in
      e ← cross e (_execution_snapshot p (e_steps e) (e_units e) PlanExecuting) x is_last;
      e ← foldST (run_step cs definitions) e (u_step_ids x);
      let x := set_unit_state UnitCompleted x in
      let e := set_units (<[index := x]> (e_units e)) e in
      match recovery_checkpoint with
      | Some checkpoint =>
          if is_last then mret e
          else
            let snapshot := _execution_snapshot p (e_steps e) (e_units e) PlanExecuting in
            perform (CallCheckpoint AfterUnit snapshot x false)
              (checkpoint AfterUnit snapshot x false);;
            mret e
      | None => mret e
      end
  end.

(** The locals before the first unit. *)
Definition initial_exec (cs : contracts) (p : plan) : result plan_exn exec :=
  satisfied ← mapR (λ s, ok ← _step_satisfies_dependencies cs s; Ok (s_step_id s, ok)) (p_steps p);
  Ok (MkExec (p_steps p) (p_recovery_units p) []
        (s_step_id <$> filter (λ s, terminal (s_state s) = true) (p_steps p))
        (fst <$> filter (λ x, x.2 = true) satisfied) false).

(** The guards of [execute] before its loop. *)
Definition open_plan (payload : pyval) : result plan_exn (plan * contracts * exec) :=
  p ← _validated_plan payload;
  let source := match payload with VDict d => get (u "format_version") d | _ => VNone end in
  p ← (if eq_int source 1 || eq_int source 2 then _upgrade_legacy_recovery p else Ok p);
  raise_when (negb (bool_decide (p_state p = Authorized) || bool_decide (p_state p = PlanExecuting)))
    (CapabilityPlanError (u "capability_plan_not_authorized"));;
  let units := p_recovery_units p in
  raise_when (existsb (λ x, bool_decide (u_state x = UnitExecuting)) units)
    (CapabilityPlanError (u "capability_plan_recovery_required"));;
  raise_when (bool_decide (recovery_checkpoint = None) &&
              ((1 <? length units)%nat
               || existsb (λ x, negb (bool_decide (u_mode x = OdooAtomic))) units))
    (CapabilityPlanError (u "capability_plan_recovery_checkpoint_required"));;
  cs ← _step_outcome_contracts reg (p_steps p);
  _validate_skipped_dependency_evidence cs (p_steps p);;
  _validate_execution_call_budget reg cs (p_steps p);;
  e ← initial_exec cs p;
  Ok (p, cs, e).

Definition execute (payload : pyval) : M (plan * list R) :=
  '(p, cs, e) ← lift (open_plan payload);
  e ← foldST (run_unit p cs) e (seq 0 (length (e_units e)));
  mret (_execution_snapshot p (e_steps e) (e_units e) PlanCompleted, e_results e).
End service.
