(* ===== verification/CapabilityPlans.v ===== *)
(** * Capabilities: the plan service on the real executor

    The executor discharges the interface [PlanExecutor] the plan service is written against, so
    what the executor guarantees of its calls holds of the execution of a stored plan. *)
From S2P Require Import Prelude PyText Regex PyValue Json EffectPlan Capability CapabilityValidation.
From S2P Require Import CapabilityRegistry CapabilityRegistryFacts CapabilityPublic CapabilityExecutor.
From S2P Require Import CapabilityExecutorFacts EffectPlanService.
Local Open Scope Z_scope.

Section plans.
Context {D X Evidence : Type} `{!CapabilityHost D X Evidence}.
Context (rg : CapabilityRegistry) (metadata : pydict).
Abbreviation S := (executor D X).
Implicit Types (s : S) (c : handler_call).
Let reg := by_name (rg_definitions rg).

Definition plan_token s : pystr * S :=
  let '(t, w) := token_hex (x_world s) in (t, set_world w s).

(** [CapabilityPlanService] is built with an executor of the same registry. *)
#[local] Instance capability_plan_executor : PlanExecutor S (CapabilityResult Evidence) := {
  result_data := cr_data;
  ex_preview name arguments group := preview rg metadata name arguments (Some group);
  ex_execute name arguments approved group :=
    CapabilityExecutor.execute rg metadata name arguments AuthorityPlan approved (Some group);
  ex_verify name arguments result_ group := verify rg metadata name arguments result_ (Some group);
  ex_approval_required := approval_required rg metadata;
  ex_token_hex := plan_token }.

Context (definitions : list CapabilityDefinition) (statuses : list CapabilityProviderStatus)
  (providers : list (pystr * pystr)).
Hypothesis built : new_registry definitions statuses providers = Ok rg.

Context (human_approved : bool).

(** A call a plan may make: of a registered plan capability, with a payload of its input schema;
    a preview or a verification where the capability has the handler, and an execution with a
    human's approval where the capability always asks for it. *)
Definition plan_call c : Prop :=
  ∃ d, reg !! hk_name c = Some d ∧ d_exposure d = ExposePlan ∧
    conforms (d_input_schema d) (VDict (hk_payload c)) ∧
    match hk_stage c with
    | PreviewStage => d_preview_handler d = true
    | VerifyStage => d_verify_handler d = true
    | ExecuteStage => d_approval d = ApprovalAlways → human_approved = true
    end.

Definition plan_effect s s' : Prop :=
  (within_limits rg s → within_limits rg s') ∧
  ∃ cs, x_trace s' = x_trace s ++ cs ∧ Forall plan_call cs.

#[local] Instance plan_effect_preorder : PreOrder plan_effect.
Proof.
  split.
  - intros s. split; [done|]. exists []. by rewrite app_nil_r.
  - intros s1 s2 s3 [H1 (l1 & E1 & F1)] [H2 (l2 & E2 & F2)]. split; [auto|].
    exists (l1 ++ l2). rewrite E2, E1, app_assoc. split; [done|]. by apply Forall_app.
Qed.

Lemma same_log_effect s s' : same_log s s' → plan_effect s s'.
Proof.
  intros [Hc Ht]. split; [|exists []; by rewrite app_nil_r].
  intros Hw name. specialize (Hw name). unfold executions, calls_of in *. by rewrite Hc, Ht.
Qed.

(** The plan authority is the one of plan capabilities. *)
Lemma plan_authority d decision :
  evaluate d metadata AuthorityPlan human_approved = Ok decision → pd_allowed decision = true →
  d_exposure d = ExposePlan ∧ (d_approval d = ApprovalAlways → human_approved = true).
Proof.
  unfold evaluate. destruct (d_exposure d) eqn:He; simpl; try (intros [= <-]; done).
  destruct human_approved; [by intros|]. split; [done|]. intros Ha. rewrite Ha in *. simpl in *. by simplify_eq/=.
Qed.

Lemma advances_effect s s' :
  advances rg metadata (Some (AuthorityPlan, human_approved)) s s' → plan_effect s s'.
Proof.
  intros Ha. split; [by eauto using advances_limits|].
  destruct Ha as [[_ [Ht|(c & Ht & Hs & Ho)]]|(c & Hs & Hk & Ho & _ & [Ht|Ht])].
  - exists []. by rewrite app_nil_r.
  - exists [c]. split; [done|]. repeat constructor.
    destruct Ho as (d & Hd & _ & Hconf & Hstage). exists d. destruct (hk_stage c) eqn:E; naive_solver.
  - exists []. by rewrite app_nil_r.
  - exists [c]. split; [done|]. repeat constructor.
    destruct Ho as (d & Hd & _ & Hconf & Hstage). rewrite Hs in Hstage.
    destruct Hstage as (_ & a & b & decision & Hk' & He & Hp). rewrite Hk in Hk'. injection Hk' as <- <-.
    destruct (plan_authority _ _ He Hp). exists d. by rewrite Hs.
Qed.

(** ** The plan service *)

Definition run_effect (r r' : run S) : Prop := plan_effect (r_world r) (r_world r').
#[local] Instance run_effect_preorder : PreOrder run_effect.
Proof. split; [intros r; unfold run_effect; reflexivity|]. intros r1 r2 r3 H1 H2. unfold run_effect in *. by etrans. Qed.

Lemma perform_as_effect {A} k (f : S → result plan_exn A * S) :
  keeps plan_effect f → keeps run_effect (perform_as k f).
Proof. intros H r. specialize (H (r_world r)). unfold perform_as. by destruct (f (r_world r)). Qed.
Lemma perform_effect {A} k (f : S → result plan_exn A * S) :
  keeps plan_effect f → keeps run_effect (perform k f).
Proof. apply perform_as_effect. Qed.
Lemma quietly_effect {A} (f : S → result plan_exn A * S) :
  keeps plan_effect f → keeps run_effect (quietly f).
Proof. intros H r. specialize (H (r_world r)). unfold quietly. by destruct (f (r_world r)). Qed.

Lemma ex_preview_effect name arguments group : keeps plan_effect (ex_preview name arguments group).
Proof. intros s. exact (advances_effect _ _ (preview_advances rg metadata _ _ _ built _ name arguments (Some group) s)). Qed.
Lemma ex_execute_effect name arguments group :
  keeps plan_effect (ex_execute name arguments human_approved group).
Proof. intros s. exact (advances_effect _ _ (execute_advances rg metadata _ _ _ built name arguments AuthorityPlan human_approved (Some group) s)). Qed.
Lemma ex_verify_effect name arguments r group : keeps plan_effect (ex_verify name arguments r group).
Proof. intros s. exact (advances_effect _ _ (verify_advances rg metadata _ _ _ built _ name arguments r (Some group) s)). Qed.
Lemma ex_approval_effect name b : keeps plan_effect (ex_approval_required name b).
Proof. intros s. exact (advances_effect _ _ (approval_advances rg metadata _ _ _ built _ name b s)). Qed.
#[local] Hint Resolve perform_as_effect perform_effect quietly_effect ex_preview_effect ex_execute_effect
  ex_verify_effect ex_approval_effect : keeps.

Lemma keeps_foldST {S' E A B} (R : S' → S' → Prop) `{!PreOrder R} (f : B → A → ST S' E B) b l :
  (∀ b x, keeps R (f b x)) → keeps R (foldST f b l).
Proof.
  intros Hf. revert b. induction l as [|x l IH]; intros b; cbn [foldST]; [by apply keeps_ret|].
  apply keeps_bind; [done|apply Hf|intros b'; apply IH].
Qed.

Context (before_effect : option (S → result plan_exn unit * S)).
Context (recovery_checkpoint : option (checkpoint_stage → plan → unit_ → bool → S → result plan_exn unit * S)).
Hypothesis before_quiet : ∀ f, before_effect = Some f → keeps same_log f.
Hypothesis checkpoint_quiet : ∀ f stage p x b, recovery_checkpoint = Some f → keeps same_log (f stage p x b).

Lemma before_effect_effect f : before_effect = Some f → keeps plan_effect f.
Proof. intros H s. by apply same_log_effect, before_quiet. Qed.
Lemma checkpoint_effect f stage p x b : recovery_checkpoint = Some f → keeps plan_effect (f stage p x b).
Proof. intros H s. by apply same_log_effect, checkpoint_quiet. Qed.
#[local] Hint Resolve before_effect_effect checkpoint_effect : keeps.

Lemma bind_step_effect {A} step_id capability phase (m : ST (run S) plan_exn A) :
  keeps run_effect m → keeps run_effect (bind_step_error step_id capability phase m).
Proof. intros H. unfold bind_step_error. solve_keeps. Qed.
#[local] Hint Resolve bind_step_effect : keeps.
Lemma preflight_effect x : keeps run_effect (preflight_bindings reg human_approved x).
Proof. unfold preflight_bindings. solve_keeps. Qed.
#[local] Hint Resolve preflight_effect : keeps.

Lemma preflight_unit_effect (e : exec (R := CapabilityResult Evidence)) x : keeps run_effect (_preflight_unit reg human_approved e x).
Proof.
  unfold _preflight_unit. apply keeps_bind; [apply _| |intros; solve_keeps].
  apply keeps_foldST; [apply _|]. intros acc id. unfold preflight_step. solve_keeps.
Qed.
#[local] Hint Resolve preflight_unit_effect : keeps.
Lemma effect_verify_effect x d : keeps run_effect (effect_and_verify human_approved x d).
Proof. unfold effect_and_verify. solve_keeps. Qed.
#[local] Hint Resolve effect_verify_effect : keeps.
Lemma run_step_effect cs ds e id : keeps run_effect (run_step human_approved cs ds e id).
Proof. unfold run_step. solve_keeps. Qed.
#[local] Hint Resolve run_step_effect : keeps.
Lemma cross_effect (e : exec (R := CapabilityResult Evidence)) p x b : keeps run_effect (cross before_effect recovery_checkpoint e p x b).
Proof.
  pose proof checkpoint_effect as Hcheck. pose proof before_effect_effect as Hbefore.
  unfold cross. destruct recovery_checkpoint as [f|].
  - apply keeps_bind; [apply _|by apply perform_effect, Hcheck|intros; solve_keeps].
  - destruct before_effect as [f|]; [|solve_keeps]. destruct (e_barrier e); [solve_keeps|].
    apply keeps_bind; [apply _|by apply perform_effect, Hbefore|intros; solve_keeps].
Qed.
#[local] Hint Resolve cross_effect : keeps.
Lemma run_unit_effect p cs e i :
  keeps run_effect (run_unit reg human_approved before_effect recovery_checkpoint p cs e i).
Proof.
  unfold run_unit. apply keeps_bind_lift; [apply _|]. intros x _.
  destruct (u_state x); [|solve_keeps|solve_keeps].
  apply keeps_bind; [apply _|solve_keeps|intros ds].
  apply keeps_bind; [apply _|apply cross_effect|intros e1].
  apply keeps_bind; [apply _|apply keeps_foldST; [apply _|apply run_step_effect]|intros e2].
  pose proof checkpoint_effect as Hcheck.
  destruct recovery_checkpoint as [f|]; [|solve_keeps]. case_match; [solve_keeps|].
  apply keeps_bind; [apply _|by apply perform_effect, Hcheck|intros; solve_keeps].
Qed.

(** C4: Whatever plan is stored, its execution by the plan service on the real executor calls
    the handlers of registered plan capabilities only, with payloads of their input schemas: a
    preview or a verification only of a capability with that handler, an execution only with the
    approval of a human where the capability always asks. It keeps every capability within its
    call limit. The callbacks of the host (before_effect and the recovery checkpoint) are
    arbitrary but for one condition: they do not themselves call the executor. *)
Theorem plan_execution_is_authorised payload s r st :
  EffectPlanService.execute reg human_approved before_effect recovery_checkpoint payload (MkRun s [])
    = (r, st) →
  (within_limits rg s → within_limits rg (r_world st)) ∧
  ∃ cs, x_trace (r_world st) = x_trace s ++ cs ∧ Forall plan_call cs.
Proof.
  intros Hrun.
  assert (keeps run_effect (EffectPlanService.execute reg human_approved before_effect recovery_checkpoint payload)) as H.
  { unfold EffectPlanService.execute. apply keeps_bind_lift; [apply _|]. intros [[p cs] e] _.
    apply keeps_bind; [apply _|apply keeps_foldST; [apply _|intros; apply run_unit_effect]|intros; solve_keeps]. }
  specialize (H (MkRun s [])). rewrite Hrun in H. exact H.
Qed.
End plans.
