(* ===== verification/CapabilityExamples.v ===== *)
(** * Capabilities: a concrete host

    A catalog of three capabilities, a host whose handlers write a counter, and runs on which the
    theorems about capabilities apply. *)
From S2P Require Import Prelude PyText Regex PyValue Json EffectPlan Capability CapabilityValidation.
From S2P Require Import Dependencies CapabilityRegistry CapabilityRegistryFacts.
From S2P Require Import CapabilityCompose CapabilityConfig CapabilityPublic CapabilityExecutor.
From S2P Require Import CapabilityExecutorFacts EffectPlanService CapabilityPlans.
Local Open Scope Z_scope.

(** ** A catalog *)

Definition note_schema : pydict :=
  [(u "type", VStr (u "object"));
   (u "properties", VDict [(u "text", VDict [(u "type", VStr (u "string")); (u "maxLength", VInt 8)])]);
   (u "required", VList [VStr (u "text")]);
   (u "additionalProperties", VBool false)].
Definition open_schema : pydict := [(u "type", VStr (u "object"))].

Definition demo (name : pystr) (dependencies : list CapabilityDependency) : CapabilityDefinition :=
  MkDefinition name (u "A note.") note_schema open_schema RiskWrite InternalReversible (u "Note") (u "2")
    ExposePlan ApprovalAlways [] dependencies [] [] true None 2 16384 98304 [] [] None true true false.

Definition note := demo (u "demo.note") [].
Definition tag := demo (u "demo.tag") [MkDependency (u "demo.note") (u "1")].
(** It needs a capability that nobody provides. *)
Definition orphan := demo (u "extra.orphan") [MkDependency (u "extra.gone") (u "1")].
(** A cycle of two providers. *)
Definition ping := demo (u "extra.ping") [MkDependency (u "other.pong") (u "1")].
Definition pong := demo (u "other.pong") [MkDependency (u "extra.ping") (u "1")].
Definition label := demo (u "third.label") [MkDependency (u "demo.tag") (u "2")].

Example definitions_constructed :
  forallb (λ d, is_ok (new_definition d)) [note; tag; orphan; ping; pong; label] = true.
Proof. vm_compute. reflexivity. Qed.

Definition core_status : CapabilityProviderStatus :=
  MkStatus (u "demo.core") (u "1") (u "loaded") false 2 [] 0 0 0 (u "1").
Definition demo_registry : CapabilityRegistry :=
  MkRegistry [note; tag] [core_status] [(u "demo.note", u "demo.core")].

Lemma demo_registry_built :
  new_registry [tag; note] [core_status] [(u "demo.note", u "demo.core")] = Ok demo_registry.
Proof. vm_compute. reflexivity. Qed.

Definition extension (id : pystr) (definitions : list CapabilityDefinition) : CapabilityProvider :=
  MkProvider id (u "1") definitions None [] [] true [] [] (u "1").
Definition extensions : list CapabilityProvider :=
  [extension (u "extra.orphans") [orphan]; extension (u "extra.pings") [ping];
   extension (u "other.pongs") [pong]; extension (u "third.labels") [label]].

(** Of the four extensions only the last is healthy. *)
Example composed_names :
  match compose_capability_registry demo_registry extensions with
  | Ok rg => (d_name <$> rg_definitions rg) = [u "demo.note"; u "demo.tag"; u "third.label"] ∧
             (ps_error_code <$> rg_provider_statuses rg) =
               [[]; u "capability_dependency_missing"; u "capability_dependency_cycle";
                u "capability_dependency_cycle"; []]
  | Err _ => False
  end.
Proof. vm_compute. split; reflexivity. Qed.

Lemma constructed_by b (l : list CapabilityDefinition) :
  forallb (λ d, is_ok (new_definition d) && (length (d_version d) <=? 4300)%nat &&
    forallb (λ x, (length (dep_minimum_version x) <=? 4300)%nat) (d_dependencies d)) l = b →
  b = true → ∀ d, d ∈ l → constructed d.
Proof.
  intros <- H d Hd. rewrite forallb_true in H. apply H in Hd. apply andb_true_iff in Hd as [[H1 H2]%andb_true_iff H3].
  rewrite forallb_true in H3. split_and!; [done|by apply Nat.leb_le|]. intros x Hx. by apply Nat.leb_le, H3.
Qed.

Lemma compose_isolates_failures_witness :
  ∃ rg, compose_capability_registry demo_registry extensions = Ok rg ∧
    valid_catalog (rg_definitions rg) ∧ rg_definitions demo_registry ⊆ rg_definitions rg ∧
    (∀ d, d ∈ rg_definitions rg → d ∈ rg_definitions demo_registry ∨
       ∃ p ds, p ∈ extensions ∧ load_definitions p = Ok ds ∧ d ∈ ds) ∧
    (ps_provider_id <$> rg_provider_statuses rg) ≡ₚ
      (ps_provider_id <$> rg_provider_statuses demo_registry) ++ ids extensions.
Proof.
  destruct (compose_isolates_failures demo_registry [tag; note] [core_status]
           [(u "demo.note", u "demo.core")] extensions) as [[_ H]|[_ H]]; [| | | |exfalso|exact H].
  - vm_compute. reflexivity.
  - apply forallb_true. vm_compute. reflexivity.
  - apply (constructed_by true); [vm_compute; reflexivity|done].
  - intros p ds d Hp Hl Hd.
    assert (d ∈ [orphan; ping; pong; label]) as Hin.
    { apply list_elem_of_In in Hp. simpl in Hp.
      destruct Hp as [<-|[<-|[<-|[<-|[]]]]]; injection Hl as <-;
        apply list_elem_of_singleton in Hd as ->; apply list_elem_of_In; simpl; tauto. }
    clear Hd. revert d Hin. apply (constructed_by true); [vm_compute; reflexivity|done].
  - vm_compute in H. discriminate H.
Defined.

(** ** A host *)

Definition everyone : CapabilityUser := {| user_has_group := None; guard_result _ := None |}.

(** The handler of an execution writes, and fails on the text "bad" after it wrote. *)
Definition handle (at_stage : stage) (payload : pydict) (w : world nat nat)
    : outcome (raw_output unit) * world nat nat :=
  match at_stage with
  | PreviewStage =>
      (Returned (RawPreview (MkPreview [] (u "sha256:" ++ replicate 64 48%N))), w)
  | VerifyStage => (Returned (RawVerification (MkVerification true [])), w)
  | ExecuteStage =>
      let w' := MkWorld (S (w_db w)) (w_rest w) in
      if py_eq (get (u "text") payload) (VStr (u "bad")) then (RaisedOther (u "ValueError"), w')
      else (Returned (RawMapping [(u "count", VInt 1)]), w')
  end.

#[export] Instance demo_host : CapabilityHost nat nat unit := {
  host_user _ := everyone;
  host_parameter _ _ := None;
  has_cursor := true;
  flush w := (Returned tt, w);
  call_handler at_stage _ _ payload w := handle at_stage payload w;
  call_projector _ _ _ w := (Returned VNone, w);
  event_sink := Some (λ _ _ _ w, (Returned tt, MkWorld (w_db w) (3 + w_rest w)%nat));
  model_label _ w := (Returned [], w);
  existing_ids _ ids w := (Returned ids, w);
  display_names _ _ w := (Returned [], w);
  token_hex w := (replicate 32 (97 + N.of_nat (w_rest w `mod` 3))%N, MkWorld (w_db w) (S (w_rest w)));
  elapsed_ms _ := FDec false 0 0 }.

Definition fresh : executor nat nat := MkExecutor (MkWorld 0%nat 0%nat) ∅ [].
Definition text (s : pystr) : pydict := [(u "text", VStr s)].
Definition run_note (arguments : pydict) (approved : bool) (s : executor nat nat) :=
  CapabilityExecutor.execute demo_registry [] (u "demo.note") arguments AuthorityPlan approved None s.

(** Accepted, refused by the schema, refused without approval, and failed with its write undone. *)
Example note_runs :
  let '(r, s) := run_note (text (u "hello")) true fresh in
  is_ok r = true ∧ w_db (x_world s) = 1%nat ∧ x_calls s !! u "demo.note" = Some 1.
Proof. vm_compute. done. Qed.
Example note_too_long :
  (run_note (text (u "far too long")) true fresh).1
    = Err (CapabilityError (u "capability_input_invalid") []).
Proof. vm_compute. reflexivity. Qed.
Example note_unapproved :
  (run_note (text (u "hello")) false fresh).1 = Err (CapabilityError (u "capability_approval_required") []).
Proof. vm_compute. reflexivity. Qed.
Example note_fails :
  let '(r, s) := run_note (text (u "bad")) true fresh in
  r = Err (CapabilityError (u "capability_handler_failed")
             [(u "stage", VStr (u "execute")); (u "exception_type", VStr (u "ValueError"))]) ∧
  w_db (x_world s) = 0%nat.
Proof. vm_compute. done. Qed.

(** ** The theorems on the runs *)

Lemma available_correct_witness :
  ∃ k, @available everyone [] demo_registry = Ok k ∧ k `sublist_of` rg_definitions demo_registry ∧
    ∀ d, d ∈ k ↔ d ∈ rg_definitions demo_registry ∧
      @usable everyone [] (by_name (rg_definitions demo_registry)) d.
Proof. exact (@available_correct everyone [] _ _ _ _ demo_registry_built). Defined.

Lemma other_keywords_are_ignored_witness :
  validate_payload (VStr (u "../etc")) (dict_set (u "pattern") (VStr (u "^[a-z]+$")) [(u "type", VStr (u "string"))])
    64 (u "code") =
  validate_payload (VStr (u "../etc")) [(u "type", VStr (u "string"))] 64 (u "code").
Proof.
  apply (other_keywords_are_ignored (u "pattern")). apply mem_false. vm_compute. reflexivity.
Defined.

Lemma validate_payload_correct_witness :
  validate_payload (VDict (text (u "hello"))) note_schema 64 (u "code") = Ok tt ∧
  conforms note_schema (VDict (text (u "hello"))).
Proof.
  assert (validate_payload (VDict (text (u "hello"))) note_schema 64 (u "code") = Ok tt) as H
    by (vm_compute; reflexivity).
  split; [exact H|].
  exact (proj1 (validate_payload_correct (VDict (text (u "hello"))) note_schema 64 (u "code")) H).
Defined.

Lemma semantic_args_bounded_witness : public_args [(u "count", VInt 3)].
Proof.
  refine (proj1 (semantic_args_bounded [(u "count", VInt 3)] [(u "bad key", VInt 1)] _ _)).
  vm_compute. reflexivity.
Defined.

Lemma resolved_settings_ok_witness :
  let s := MkSetting (u "limit") (u "Limit") SettingInteger (VInt 5) true [] (Some 1) (Some 9) in
  let d := MkDefinition (u "demo.set") (u "x") [] [] RiskRead ReadOnly [] (u "1") ExposeReasoning
    ApprovalNone [] [] [s] [] true None 4 256 256 [] [] None false false false in
  setting_value_ok s (VInt 7).
Proof.
  intros s d.
  assert (resolve_settings (Some (λ key, if str_eqb key (u "odoo_ai_assistant.capability.demo.set.limit")
    then Some (u "7") else None)) d [] = Ok [(u "limit", VInt 7)]) as H by (vm_compute; reflexivity).
  apply (resolved_settings_ok _ _ _ _ s H). by left.
Defined.

Lemma operations_are_guarded_witness :
  advances demo_registry [] (Some (AuthorityPlan, true)) fresh
    (run_operation demo_registry [] (OpExecute (Evidence := unit) (u "demo.note") (text (u "hello"))
       AuthorityPlan true None) fresh).
Proof.
  exact (operations_are_guarded demo_registry [] _ _ _ demo_registry_built
           (OpExecute (u "demo.note") (text (u "hello")) AuthorityPlan true None) fresh).
Defined.

Lemma executions_within_limit_witness :
  executions (foldl (λ s o, run_operation (Evidence := unit) demo_registry [] o s) fresh
    (replicate 5 (OpExecute (u "demo.note") (text (u "hello")) AuthorityPlan true None)))
    (u "demo.note") <= 2.
Proof.
  apply (executions_within_limit demo_registry [] _ _ _ demo_registry_built _ fresh (u "demo.note") note);
    [reflexivity|reflexivity|vm_compute; reflexivity|done].
Defined.

Definition failing_call :=
  _invoke (Evidence := unit) note ExecuteStage (MkContext [] []) (text (u "bad")) (Some (AuthorityPlan, true))
    (u "tool.failed") (u "Note") [] (_validated_execution_output note) fresh.
Lemma failed_call_rolls_back_witness :
  w_db (x_world failing_call.2) = 0%nat ∧ w_rest (x_world failing_call.2) = 6%nat ∧
  ∃ w1 w2, (w_db w1 = 0%nat ∨ w_db w1 = 0%nat) ∧ (w2 = w1 ∨ noted w1 w2) ∧
    noted w2 (x_world failing_call.2).
Proof.
  split; [reflexivity|]. split; [reflexivity|].
  destruct (failed_call_rolls_back note ExecuteStage (MkContext [] []) (text (u "bad"))
    (Some (AuthorityPlan, true)) (u "tool.failed") (u "Note") [] (_validated_execution_output note) fresh
    (CapabilityError (u "capability_handler_failed")
             [(u "stage", VStr (u "execute")); (u "exception_type", VStr (u "ValueError"))])
    failing_call.2) as [H|(? & ? & ? & _ & H & _)]; [reflexivity|vm_compute; reflexivity|exact H|discriminate H].
Defined.

Lemma execute_result_conforms_witness :
  ∃ d, by_name (rg_definitions demo_registry) !! u "demo.note" = Some d ∧
    conforms (d_output_schema d) (VDict [(u "count", VInt 1)]).
Proof.
  refine (execute_result_conforms demo_registry [] _ _ _ demo_registry_built (u "demo.note")
    (text (u "hello")) AuthorityPlan true None fresh
    (MkResult [(u "count", VInt 1)] [] false) (run_note (text (u "hello")) true fresh).2 _).
  vm_compute. reflexivity.
Defined.

(** ** A plan on the real executor *)

Definition demo_executor : PlanExecutor (executor nat nat) (CapabilityResult unit) :=
  capability_plan_executor demo_registry [].
Definition demo_catalog : registry := by_name (rg_definitions demo_registry).
Definition demo_requests : list PlannedCapability :=
  [MkPlanned (u "demo.note") (text (u "one")) (u "First") [] []].
Definition prepared : plan :=
  Eval vm_compute in
    result_or (MkPlan Rejected false [] [])
      (@prepare _ _ demo_executor demo_catalog demo_requests (MkRun fresh [])).1.

(** The plan as it is stored when the user has confirmed it. *)
Definition confirmed : pyval :=
  plan_payload (MkPlan Authorized (p_requires_confirmation prepared)
                  (p_recovery_units prepared) (p_steps prepared)).
(** The host marks the turn before the first effect. *)
Definition mark_turn (s : executor nat nat) : result plan_exn unit * executor nat nat :=
  (Ok tt, set_world (MkWorld (w_db (x_world s)) (3 + w_rest (x_world s))%nat) s).
Definition demo_run :=
  @EffectPlanService.execute _ _ demo_executor demo_catalog true (Some mark_turn) None confirmed
    (MkRun fresh []).

Example demo_run_calls :
  is_ok demo_run.1 = true ∧ w_db (x_world (r_world demo_run.2)) = 1%nat ∧
  (hk_stage <$> x_trace (r_world demo_run.2)) = [PreviewStage; ExecuteStage; VerifyStage].
Proof. vm_compute. done. Qed.

Lemma plan_execution_is_authorised_witness :
  (within_limits demo_registry fresh → within_limits demo_registry (r_world demo_run.2)) ∧
  ∃ cs, x_trace (r_world demo_run.2) = x_trace fresh ++ cs ∧ Forall (plan_call demo_registry true) cs.
Proof.
  refine (plan_execution_is_authorised demo_registry [] _ _ _ demo_registry_built true (Some mark_turn) None _ _
            confirmed fresh demo_run.1 demo_run.2 _); [by intros f [= <-] s|done|].
  unfold demo_run. by destruct (EffectPlanService.execute _ _ _ _ _ _).
Defined.
