(* ===== verification/EffectPlanRun.v ===== *)
(** * Agent: correctness of plan execution

    What the execution of a plan may call and in which order, and the plan it returns. *)
From S2P Require Import Prelude PyText Regex Sha256 PyValue Json EffectPlan EffectPlanFacts.
From S2P Require Import Capability CapabilityRegistry EffectPlanService.
Local Open Scope Z_scope.

#[local] Arguments find_step : simpl never.
#[local] Arguments dict_lookup : simpl never.
#[local] Arguments eq_int : simpl never.

(** ** What execution does not change *)

(** A step without its state and outcome; a unit without its state. *)
Definition frame (s : step) : step := set_outcome Previewed VNone VNone s.
Definition unit_frame (x : unit_) : unit_ := set_unit_state UnitPrepared x.

Lemma frame_ids (l k : list step) : frame <$> l = frame <$> k → s_step_id <$> l = s_step_id <$> k.
Proof.
  intros H. apply (f_equal (fmap s_step_id)) in H. by rewrite <- !list_fmap_compose in H.
Qed.

Lemma frame_lookup (l k : list step) i s :
  frame <$> l = frame <$> k → l !! i = Some s → ∃ t, k !! i = Some t ∧ frame s = frame t.
Proof.
  intros H Hi. apply (f_equal (.!! i)) in H. rewrite !list_lookup_fmap, Hi in H. simpl in H.
  destruct (k !! i) as [t|] eqn:E; [|done]. exists t. split; [done|].
  by apply (inj Some) in H.
Qed.

Lemma frame_step_ok pre pre' s s' :
  frame <$> pre = frame <$> pre' → frame s = frame s' → step_ok pre s → step_ok pre' s'.
Proof.
  intros Hpre Hs [H1 H2 H3 H4 H5 H6 H7 H8 H9].
  assert (length pre = length pre') as Hl.
  { apply (f_equal length) in Hpre. by rewrite !length_fmap in Hpre. }
  apply frame_ids in Hpre. injection Hs as E1 E2 E3 E4 E5 E6 E7 E8 E9 E10 E11 E12 E13 E14 E15 E16 E17 E18.
  split; try congruence.
  - intros d. rewrite <- E3, <- Hpre. apply H4.
Qed.

Lemma frame_steps_ok (l k : list step) : frame <$> l = frame <$> k → grows step_ok l → grows step_ok k.
Proof.
  intros H Hl i s Hi. symmetry in H. destruct (frame_lookup _ _ _ _ H Hi) as (t & Ht & E).
  apply (frame_step_ok (take i l) _ t); [|done|by apply Hl]. by rewrite !fmap_take, H.
Qed.

Lemma frame_units_ok (l k : list step) units units' :
  frame <$> l = frame <$> k → unit_frame <$> units = unit_frame <$> units' →
  grows (unit_ok l) units → grows (unit_ok k) units'.
Proof.
  intros H Hu Hl i x Hi. pose proof (f_equal (.!! i) Hu) as E.
  rewrite !list_lookup_fmap, Hi in E. destruct (units !! i) as [y|] eqn:Hy; [|done].
  assert (u_unit_id x = u_unit_id y ∧ u_mode x = u_mode y ∧ u_step_ids x = u_step_ids y)
    as (E1 & E2 & E3) by (injection E; intros; split_and!; congruence).
  destruct (Hl i y Hy) as [H1 H2 H3 H4]. rewrite <- E1, <- E2, <- E3 in *.
  assert (length (take i units') = length (take i units)) as El.
  { rewrite !length_take. apply (f_equal length) in Hu. rewrite !length_fmap in Hu. lia. }
  split; [by rewrite El|done|done|].
  intros s [j Hj]%list_elem_of_lookup Hs. symmetry in H. destruct (frame_lookup _ _ _ _ H Hj) as (t & Ht & Ef).
  assert (s_step_id s = s_step_id t ∧ s_recovery_unit_id s = s_recovery_unit_id t ∧
    s_recovery_mode s = s_recovery_mode t) as (F1 & -> & ->) by (injection Ef; intros; split_and!; congruence).
  apply H4; [by eapply list_elem_of_lookup_2|congruence].
Qed.

(** The plan's invariant holds of every snapshot. *)
Lemma snapshot_ok p steps units st :
  frame <$> p_steps p = frame <$> steps → unit_frame <$> p_recovery_units p = unit_frame <$> units →
  plan_ok p → plan_ok (_execution_snapshot p steps units st).
Proof.
  intros Hs Hu [H1 H2 H3 H4]. split; simpl.
  - apply (f_equal length) in Hs. rewrite !length_fmap in Hs. lia.
  - by eapply frame_steps_ok.
  - by eapply frame_units_ok.
  - assert (u_step_ids <$> units = u_step_ids <$> p_recovery_units p) as ->.
    { apply (f_equal (fmap u_step_ids)) in Hu. by rewrite <- !list_fmap_compose in Hu. }
    rewrite H4. by apply frame_ids.
Qed.

(** ** Plans that get their units *)

(** A step that lacks nothing but the name of its unit. *)
Definition named (s : step) : step :=
  set_recovery (u "unit") (s_recovery_mode s) (s_journal_classification s) s.

Lemma named_step_ok pre pre' s s' :
  s_step_id <$> pre = s_step_id <$> pre' → unassigned s = unassigned s' →
  s_recovery_unit_id s' ≠ [] → step_ok pre (named s) → step_ok pre' s'.
Proof.
  intros Hpre Hs Hu [H1 H2 H3 H4 H5 H6 H7 _ H9]. simpl in *.
  assert (length pre = length pre') as Hl.
  { apply (f_equal length) in Hpre. by rewrite !length_fmap in Hpre. }
  injection Hs as E1 E2 E3 E4 E5 E6 E7 E8 E9 E10 E11 E12 E13 E14 E15 E16 E17 E18 E19 E20.
  split; try congruence.
  intros d. rewrite <- E3, <- Hpre. apply H4.
Qed.

Lemma unit_name_ne i : unit_name i ≠ [].
Proof. done. Qed.

Lemma assigned_plan_ok steps st rc :
  (1 ≤ length steps ≤ 5)%nat → grows (λ pre s, step_ok pre (named s)) steps →
  let '(units, steps') := _assign_recovery_units steps in plan_ok (MkPlan st rc units steps').
Proof.
  intros Hc Hg. assert (NoDup (s_step_id <$> steps)) as Hnd.
  { eapply grows_nodup, Hg. intros pre s H. apply (so_new _ _ H). }
  pose proof (assign_units_spec steps Hnd) as H. destruct (_assign_recovery_units steps) as [units steps'].
  destruct H as [[Hu Hp _ _] E].
  assert (s_step_id <$> steps' = s_step_id <$> steps) as Eids.
  { by rewrite <- (assigned_ids steps'), E, assigned_ids. }
  split; simpl; [| |done|done].
  - apply (f_equal length) in E. rewrite !length_fmap in E. lia.
  - intros i s' Hi. pose proof (f_equal (.!! i) E) as Ei. rewrite !list_lookup_fmap, Hi in Ei.
    destruct (steps !! i) as [s|] eqn:Hs; [|done]. apply (inj Some) in Ei.
    apply (named_step_ok (take i steps) _ s).
    + by rewrite !fmap_take, Eids.
    + done.
    + assert (s_step_id s' ∈ concat (u_step_ids <$> units)) as Hin.
      { rewrite Hp. apply list_elem_of_fmap. exists s'. split; [done|]. by eapply list_elem_of_lookup_2. }
      apply list_elem_of_In, in_concat in Hin as (ids & Hids & Hin). apply list_elem_of_In in Hids, Hin.
      apply list_elem_of_fmap in Hids as (x & -> & Hx). apply list_elem_of_lookup in Hx as [j Hj].
      destruct (Hu j x Hj) as [Hid _ _ Hb]. destruct (Hb s') as [-> _]; [by eapply list_elem_of_lookup_2|done|].
      rewrite Hid. apply unit_name_ne.
    + by apply Hg.
Qed.

Lemma journal_class reg d preview j :
  _journal_classification reg d preview = Ok j → dict_lookup j _JOURNAL_CLASSES = Some j.
Proof.
  unfold _journal_classification. intros H.
  assert (∀ v, (explicit ← map_err (λ e, match e with
      | CapabilityPlanError _ => CapabilityPlanError (u "capability_journal_metadata_invalid")
      | e => e end) (enum_of _JOURNAL_CLASSES v);
      raise_when (str_eqb explicit (u "reversible")
                  && negb (bool_decide (d_effect d = InternalReversible)))
        (CapabilityPlanError (u "capability_journal_metadata_invalid"));;
      Ok (match preview with
          | Some p =>
              if str_eqb explicit (u "reconstructable") && negb (reconstruction_complete p)
              then u "irreversible" else explicit
          | None => explicit
          end)) = Ok j → dict_lookup j _JOURNAL_CLASSES = Some j) as Hexp.
  { intros v Hv. result_inv.
    match goal with H : enum_of _ _ = Ok _ |- _ =>
      apply enum_of_Ok in H as (? & _ & H); apply self_table in H; [|apply journal_self] end.
    destruct preview; [|done]. by case_bool; [vm_compute|]. }
  destruct (get _ (d_audit_metadata d)); try by eapply Hexp.
  injection H as <-. destruct (d_effect d); [vm_compute; done| |vm_compute; done..].
  repeat case_bool; vm_compute; done.
Qed.

Section opening.
Context {W R : Type} `{!PlanExecutor W R} (reg : registry).

Lemma upgrade_step_Ok s s1 : upgrade_step reg s = Ok s1 →
  ∃ mode journal, s1 = set_recovery [] mode journal s ∧ dict_lookup journal _JOURNAL_CLASSES = Some journal.
Proof.
  unfold upgrade_step. intros H. result_inv. eexists _, _. split; [reflexivity|]. by eapply journal_class.
Qed.

Lemma upgrade_ok p p' : plan_ok p → _upgrade_legacy_recovery reg p = Ok p' →
  plan_ok p' ∧ s_step_id <$> p_steps p' = s_step_id <$> p_steps p.
Proof.
  intros [Hc Hs _ _] H. unfold _upgrade_legacy_recovery in H. result_inv.
  rename x into steps1. match goal with H : mapR _ _ = Ok _ |- _ => apply mapR_Ok in H as Hf end.
  assert (s_step_id <$> p_steps p = s_step_id <$> steps1) as Hids.
  { clear -Hf. induction Hf as [|s s1 l l1 (mode & journal & -> & _)%upgrade_step_Ok _ IH]; [done|].
    rewrite !fmap_cons. by f_equal. }
  assert (grows (λ pre s, step_ok pre (named s)) steps1) as Hg.
  { intros i s1 Hi. destruct (Forall2_lookup_r _ _ _ _ _ Hf Hi) as (s & Hsi & He).
    apply upgrade_step_Ok in He as (mode & journal & -> & Hj).
    destruct (Hs i s Hsi) as [H1 H2 H3 H4 H5 H6 H7 _ _]. split; simpl; try done.
    - rewrite !length_take in *. apply Forall2_length in Hf. congruence.
    - rewrite fmap_take, <- Hids, <- fmap_take. done.
    - rewrite fmap_take, <- Hids, <- fmap_take. done. }
  pose proof (assigned_plan_ok steps1 (p_state p) (p_requires_confirmation p)) as Hok.
  assert (NoDup (s_step_id <$> steps1)) as Hnd by (rewrite <- Hids; by apply steps_nodup).
  pose proof (assign_units_spec steps1 Hnd) as Ha.
  destruct (_assign_recovery_units steps1) as [units steps']. injection H as <-. split.
  - apply Hok; [|done]. apply Forall2_length in Hf. lia.
  - simpl. destruct Ha as [_ Ha]. by rewrite <- (assigned_ids steps'), Ha, assigned_ids.
Qed.
End opening.

(** ** The order of calls *)

Definition executed (T : list call) : list pystr :=
  omap (λ c, match c with CallExecute id _ _ => Some id | _ => None end) T.

Lemma executed_snoc T c :
  executed (T ++ [c]) = executed T ++ match c with CallExecute id _ _ => [id] | _ => [] end.
Proof. unfold executed. rewrite omap_app. by destruct c. Qed.

Section execution.
Context {W R : Type} `{!PlanExecutor W R} (reg : registry) (human_approved : bool)
  (before_effect : option (W → result plan_exn unit * W))
  (recovery_checkpoint :
     option (checkpoint_stage → plan → unit_ → bool → W → result plan_exn unit * W)).
Implicit Types (T : list call) (e : @exec R) (s : step) (x : unit_).
(** The plan as it was opened. *)
Context (p : plan) (Hp : plan_ok p).

(** The call that must come before the effect of a step. *)
Definition barrier (id : pystr) T : Prop :=
  match recovery_checkpoint, before_effect with
  | Some _, _ => ∃ snapshot x last, CallCheckpoint BeforeUnit snapshot x last ∈ T ∧
                   id ∈ u_step_ids x ∧ u_state x = UnitExecuting ∧ x ∈ p_recovery_units snapshot
  | None, Some _ => CallBeforeEffect ∈ T
  | None, None => True
  end.

(** The step's capability is the registered one, in the step's version and recovery mode, and
    the step's fingerprint binds its name, version, arguments and precondition. *)
Definition bound s (d : CapabilityDefinition) : Prop :=
  resolve reg (s_capability s) = Ok d ∧ d_version d = s_version s ∧
  _recovery_mode d = Ok (s_recovery_mode s) ∧
  ∃ b, _binding_fingerprint (d_name d) (d_version d) (s_arguments s)
         (s_precondition_fingerprint s) = Ok b ∧ py_eq (s_binding_fingerprint s) (VStr b) = true.

(** The step was previewed in this run, with its own capability and arguments, and the preview
    returned the precondition the step is bound to. *)
Definition fresh_preview s (d : CapabilityDefinition) T : Prop :=
  ∃ fingerprint,
    CallPreview (s_step_id s) (d_name d) (s_arguments s) (Some fingerprint) ∈ T ∧
    py_eq (s_precondition_fingerprint s) (VStr fingerprint) = true.

(** A call for the step [id] of the plan, with what its binding covers, after its preview. *)
Definition bound_call (id name : pystr) (arguments : pydict) T : Prop :=
  ∃ s d, s ∈ p_steps p ∧ s_step_id s = id ∧ bound s d ∧ name = d_name d ∧ arguments = s_arguments s ∧
    fresh_preview s d T.

(** Every effect is a bound call of a step, follows its barrier and a fresh preview of its
    step, and no step's effect happens twice. *)
Record good_trace T : Prop := {
  gt_guarded : ∀ pre id name arguments post, T = pre ++ CallExecute id name arguments :: post →
    bound_call id name arguments pre ∧ barrier id pre;
  gt_once : NoDup (executed T) }.

Lemma barrier_mono id T c : barrier id T → barrier id (T ++ [c]).
Proof.
  unfold barrier. destruct recovery_checkpoint, before_effect; [..|done].
  - intros (sn & x & l & H & ?). exists sn, x, l. split; [set_solver|done].
  - intros (sn & x & l & H & ?). exists sn, x, l. split; [set_solver|done].
  - set_solver.
Qed.

Lemma good_trace_nil : good_trace [].
Proof. split; [by intros []|constructor]. Qed.

Lemma good_trace_snoc T c :
  good_trace T →
  (∀ id name arguments, c = CallExecute id name arguments →
     (bound_call id name arguments T ∧ barrier id T) ∧ id ∉ executed T) →
  good_trace (T ++ [c]).
Proof.
  intros [Hg Ho] Hc. split.
  - intros pre id name args post E. destruct post as [|d post _] using rev_ind.
    + apply app_inj_tail in E as [-> ->]. by apply (Hc id name args).
    + rewrite app_comm_cons, app_assoc in E. apply app_inj_tail in E as [E _]. by eapply Hg.
  - rewrite executed_snoc. apply NoDup_app. split_and!; [done| |by destruct c; repeat constructor; set_solver].
    intros id Hid Hin. destruct c; try by apply not_elem_of_nil in Hin.
    apply list_elem_of_singleton in Hin as ->. by destruct (Hc _ _ _ eq_refl) as [_ ?].
Qed.

(** Assertions about the trace. *)
Definition tr (P : list call → Prop) : run W → Prop := λ st, P (r_trace st).

Lemma hoare_perform_as {A} (P : list call → Prop) (Q : A → list call → Prop) (X : list call → Prop)
    (c : option A → call) (f : W → result plan_exn A * W) :
  (∀ a T, P T → Q a (T ++ [c (Some a)])) → (∀ T, P T → X (T ++ [c None])) →
  hoare (tr P) (perform_as c f) (λ a, tr (Q a)) (tr X).
Proof.
  intros HQ HX st Hs. unfold perform_as. destruct (f (r_world st)) as [[a|err] w];
    [by apply HQ|by apply HX].
Qed.
Lemma hoare_perform {A} (P Q X : list call → Prop) c (f : W → result plan_exn A * W) :
  (∀ T, P T → Q (T ++ [c])) → (∀ T, P T → X (T ++ [c])) →
  hoare (tr P) (perform c f) (λ _, tr Q) (tr X).
Proof.
  intros HQ HX. apply (hoare_perform_as P (λ _, Q) X (λ _, c)); [intros _|]; done.
Qed.
Lemma hoare_quietly {A} (P X : list call → Prop) (f : W → result plan_exn A * W) :
  (∀ T, P T → X T) → hoare (tr P) (quietly f) (λ _, tr P) (tr X).
Proof.
  intros HX st Hs. unfold quietly. destruct (f (r_world st)) as [[a|err] w]; [done|by apply HX].
Qed.
Lemma hoare_step_error {A} P (Q : A → run W → Prop) X id cap phase (m : ST (run W) plan_exn A) :
  hoare P m Q X → hoare P (bind_step_error id cap phase m) Q X.
Proof. intros Hm. eapply hoare_catch; [done|]. intros err. by apply hoare_raise. Qed.

(** Assertions that calls other than effects keep. *)
Definition quiet (c : call) : bool := match c with CallExecute _ _ _ => false | _ => true end.
Definition stable (P : list call → Prop) : Prop :=
  ∀ T c, quiet c = true → P T → P (T ++ [c]).

(** *** Preflight *)

Lemma preflight_bindings_spec P s :
  stable P →
  hoare (tr P) (preflight_bindings reg human_approved s)
    (λ d, tr (λ T, P T ∧ fresh_preview s d T ∧ bound s d)) (tr P).
Proof.
  intros HP. unfold preflight_bindings.
  apply hoare_bind_lift; [done|intros d Hd].
  apply hoare_bind_lift; [done|intros ? Hversion]. apply hoare_bind_lift; [done|intros mode Hmode].
  apply hoare_bind_lift; [done|intros ? Hm]. apply hoare_bind_lift; [done|intros b Hb].
  apply hoare_bind_lift; [done|intros ? Hbind].
  assert (bound s d) as Hbound.
  { result_inv. apply str_eqb_true in Hversion. apply bool_decide_eq_true in Hm as ->.
    split_and!; [done..|]. by exists b. }
  eapply hoare_bind.
  { apply hoare_step_error, hoare_perform_as with (Q := λ preview T, P T ∧
      CallPreview (s_step_id s) (d_name d) (s_arguments s)
        (Some (pv_precondition_fingerprint preview)) ∈ T).
    - intros preview T HT. split; [by apply HP|set_solver].
    - intros T HT. by apply HP. }
  intros preview. apply hoare_bind_lift; [by intros st []|intros ? Hpre].
  do 2 (apply hoare_bind_lift; [by intros st []|intros ? _]).
  eapply hoare_bind; [apply hoare_quietly; by intros T []|]. intros required.
  apply hoare_bind_lift; [by intros st []|intros ? _]. apply hoare_ret. intros st [HP' Hcall].
  split_and!; [done| |done]. eexists. split; [exact Hcall|]. by result_inv.
Qed.

Definition previewed (defs : list (pystr * CapabilityDefinition)) T : Prop :=
  ∀ id d, dict_lookup id defs = Some d →
    ∀ s, s ∈ p_steps p → s_step_id s = id → fresh_preview s d T ∧ bound s d.

Lemma previewed_mono defs T c : previewed defs T → previewed defs (T ++ [c]).
Proof.
  intros H id d Hd s Hs Hid. destruct (H id d Hd s Hs Hid) as [(f & Hf & He) ?]. split; [|done].
  exists f. split; [|done]. apply elem_of_app. by left.
Qed.

Lemma preview_frame s t d T : frame s = frame t → fresh_preview s d T → fresh_preview t d T.
Proof.
  intros E. unfold fresh_preview. injection E as E1 E2 E3 E4 E5 E6 E7 E8 E9 E10 E11 E12 E13 E14 E15 E16 E17 E18.
  rewrite <- E2, <- E6, <- E12. done.
Qed.

Lemma bound_frame s t d : frame s = frame t → bound s d → bound t d.
Proof.
  intros E. unfold bound. injection E as E1 E2 E3 E4 E5 E6 E7 E8 E9 E10 E11 E12 E13 E14 E15 E16 E17 E18.
  rewrite <- E4, <- E5, <- E6, <- E12, <- E13, <- E17. done.
Qed.

(** The plan's step with the identifier of a step in progress. *)
Lemma frame_same (l : list step) s t :
  frame <$> p_steps p = frame <$> l → s ∈ p_steps p → t ∈ l → s_step_id s = s_step_id t →
  frame s = frame t.
Proof.
  intros H Hs [i Hi]%list_elem_of_lookup E. symmetry in H.
  destruct (frame_lookup _ _ _ _ H Hi) as (t' & Ht' & Ef). rewrite Ef. f_equal.
  eapply nodup_same_step; [apply steps_nodup, Hp|done|by eapply list_elem_of_lookup_2|].
  rewrite E. by injection Ef.
Qed.

Lemma step_index_Ok steps id i :
  _step_index steps id = Ok i → ∃ s, steps !! i = Some s ∧ s_step_id s = id.
Proof.
  unfold _step_index. intros ([j s] & Hf & ->)%of_option_Ok%fmap_Some.
  apply list_find_Some in Hf as (Hi & Hs & _). eauto.
Qed.

Lemma preflight_unit_spec P e x :
  frame <$> p_steps p = frame <$> e_steps e → stable P →
  hoare (tr P) (_preflight_unit reg human_approved e x)
    (λ defs, tr (λ T, P T ∧ previewed defs T)) (tr P).
Proof.
  intros Hframe HP. unfold _preflight_unit. eapply hoare_bind.
  { eapply hoare_conseq;
      [apply (hoare_fold (λ _ acc, tr (λ T, P T ∧ previewed (pf_definitions acc) T)) (tr P)
                (preflight_step reg human_approved e) (u_step_ids x)
                (MkPreflight [] (unsatisfied_ids e) []))
      |by intros st; split|intros acc st H; exact H|done].
    intros seen id rest acc _. unfold preflight_step.
    apply hoare_bind_lift; [by intros st []|intros i Hi].
    apply hoare_bind_lift; [by intros st []|intros s Hs].
    case_bool; [by apply hoare_ret|].
    apply hoare_bind_lift; [by intros st []|intros ? _].
    case_bool; [by apply hoare_ret|].
    eapply hoare_bind.
    { eapply hoare_conseq; [apply (preflight_bindings_spec (λ T, P T ∧ previewed (pf_definitions acc) T))
        |done|intros d st H; exact H|by intros st []].
      intros T c Hc []. split; [by apply HP|by apply previewed_mono]. }
    intros d. apply hoare_ret. intros st [[Hst Hprev] [Hcall Hbound]]. split; [done|]. simpl.
    intros id' d' Hd'. destruct (decide (id = id')) as [<-|Hne].
    - apply step_index_Ok in Hi as (s' & Hs' & <-). apply of_option_Ok in Hs.
      assert (s' = s) as -> by congruence. rewrite dict_lookup_set_eq in Hd'. injection Hd' as <-.
      intros t Ht E. assert (frame s = frame t) as Ef.
      { symmetry. eapply frame_same; [done|done|by eapply list_elem_of_lookup_2|done]. }
      split; [by eapply preview_frame|by eapply bound_frame].
    - rewrite dict_lookup_set_ne in Hd' by done. by eapply Hprev. }
  intros acc. by apply hoare_ret.
Qed.

(** *** Progress of the steps *)

(** Terminal steps stay as they are. *)
Definition progress (l k : list step) : Prop :=
  ∀ i s, l !! i = Some s → terminal (s_state s) = true → k !! i = Some s.

Definition finished (l : list step) (id : pystr) : Prop :=
  ∃ s, s ∈ l ∧ s_step_id s = id ∧ terminal (s_state s) = true.
Definition completed (l : list step) (id : pystr) : Prop :=
  ∃ s, s ∈ l ∧ s_step_id s = id ∧ s_state s = StepCompleted.

#[global] Instance progress_preorder : PreOrder progress.
Proof. split; [by intros l i s Hi Hs|]. intros l k m Hlk Hkm i s Hi Hs. apply Hkm; [by apply Hlk|done]. Qed.

Lemma finished_mono l k id : progress l k → finished l id → finished k id.
Proof.
  intros H (s & [i Hi]%list_elem_of_lookup & Hid & Ht). exists s. split; [|done].
  by eapply list_elem_of_lookup_2, H.
Qed.
Lemma completed_mono l k id : progress l k → completed l id → completed k id.
Proof.
  intros H (s & [i Hi]%list_elem_of_lookup & Hid & Ht). exists s. split; [|done].
  eapply list_elem_of_lookup_2, H; [done|]. by rewrite Ht.
Qed.

Lemma progress_insert l i s s' :
  l !! i = Some s → terminal (s_state s) = false → progress l (<[i := s']> l).
Proof.
  intros Hi Hs j t Hj Ht. destruct (decide (i = j)) as [<-|]; [congruence|].
  by rewrite list_lookup_insert_ne.
Qed.

Lemma frame_insert (l : list step) i s s' :
  l !! i = Some s → frame s' = frame s → frame <$> <[i := s']> l = frame <$> l.
Proof.
  intros Hi Hf. rewrite list_fmap_insert, Hf. apply list_insert_id.
  by rewrite list_lookup_fmap, Hi.
Qed.

(** *** The invariant of the loops *)

Record inv e T : Prop := {
  iv_steps : frame <$> p_steps p = frame <$> e_steps e;
  iv_units : unit_frame <$> p_recovery_units p = unit_frame <$> e_units e;
  iv_trace : good_trace T;
  iv_done : ∀ id, id ∈ executed T → finished (e_steps e) id;
  iv_kept : progress (p_steps p) (e_steps e);
  iv_barrier : e_barrier e = true → recovery_checkpoint = None → CallBeforeEffect ∈ T;
  iv_satisfied : ∀ id, id ∈ e_satisfied e → completed (e_steps e) id;
  iv_new : ∀ i s, e_steps e !! i = Some s → s_state s = StepCompleted →
    p_steps p !! i = Some s ∨
    s_step_id s ∈ executed T ∧ ∀ d, d ∈ s_depends_on s → completed (e_steps e) d;
  iv_results : length (e_results e) = length (executed T) }.

Lemma inv_stable e : stable (inv e).
Proof.
  intros T c Hc [H1 H2 H3 H4 H5 H6 H7 H8 H9].
  assert (executed (T ++ [c]) = executed T) as E.
  { rewrite executed_snoc. by destruct c; try apply app_nil_r. }
  split; rewrite ?E; try done.
  - apply good_trace_snoc; [done|]. by intros id name args ->.
  - intros Hb Hn. apply elem_of_app. left. by apply H6.
Qed.

Lemma inv_nodup e T : inv e T → NoDup (s_step_id <$> e_steps e).
Proof.
  intros H. rewrite <- (frame_ids _ _ (iv_steps _ _ H)). apply steps_nodup, Hp.
Qed.

(** A step that is not terminal had no effect yet. *)
Lemma inv_not_executed e T i s :
  inv e T → e_steps e !! i = Some s → terminal (s_state s) = false → s_step_id s ∉ executed T.
Proof.
  intros H Hi Ht (t & Hin & Hid & Htt)%(iv_done _ _ H).
  assert (s = t) as <-; [|congruence].
  eapply nodup_same_step; [by eapply inv_nodup|by eapply list_elem_of_lookup_2|done|done].
Qed.

Lemma executed_app T k : executed (T ++ k) = executed T ++ executed k.
Proof. apply omap_app. Qed.

(** One step becomes terminal: skipped, or completed by its effect. *)
Lemma inv_advance e T k rs ids i s s' :
  inv e T → e_steps e !! i = Some s → terminal (s_state s) = false →
  frame s' = frame s → terminal (s_state s') = true → good_trace (T ++ k) →
  executed k = (if is_completed s' then [s_step_id s] else []) →
  length rs = length (executed k) →
  (is_completed s' = true → ∀ d, d ∈ s_depends_on s → d ∈ e_satisfied e) →
  inv (MkExec (<[i := s']> (e_steps e)) (e_units e) (e_results e ++ rs) ids (e_satisfied e)
         (e_barrier e)) (T ++ k).
Proof.
  intros [H1 H2 H3 H4 H5 H6 H7 H8 H9] Hi Ht Hf Ht' Hgt Hk Hrs Hdep.
  pose proof (progress_insert _ _ _ s' Hi Ht) as Hpr.
  assert (<[i := s']> (e_steps e) !! i = Some s') as Hi'.
  { apply list_lookup_insert_eq. by eapply lookup_lt_Some. }
  assert (s_step_id s' = s_step_id s ∧ s_depends_on s' = s_depends_on s) as [Eid Edep]
    by (by injection Hf).
  split; simpl; try done.
  - by rewrite (frame_insert _ _ s).
  - intros id. rewrite executed_app, Hk. intros [Hid|Hid]%elem_of_app.
    + eapply finished_mono; [done|by apply H4].
    + destruct (is_completed s'); [|by apply not_elem_of_nil in Hid].
      apply list_elem_of_singleton in Hid as ->. exists s'. split; [|done].
      by eapply list_elem_of_lookup_2.
  - by transitivity (e_steps e).
  - intros Hb Hn. apply elem_of_app. left. by apply H6.
  - intros id Hid. eapply completed_mono; [done|by apply H7].
  - intros j t Hj Hc. rewrite executed_app. destruct (decide (i = j)) as [<-|Hne].
    + rewrite Hi' in Hj. injection Hj as <-. right.
      assert (is_completed s' = true) as Hcs by by apply bool_decide_eq_true.
      rewrite Hk, Hcs, Eid. split; [set_solver|]. rewrite Edep. intros d Hd.
      eapply completed_mono; [done|by apply H7, Hdep].
    + rewrite list_lookup_insert_ne in Hj by done.
      destruct (H8 j t Hj Hc) as [?|[? Hd]]; [by left|right]. split; [set_solver|].
      intros d ?. eapply completed_mono; [done|by apply Hd].
  - rewrite executed_app, !length_app. congruence.
Qed.

Lemma satisfies_completed cs s :
  _step_satisfies_dependencies cs s = Ok true → s_state s = StepCompleted.
Proof.
  unfold _step_satisfies_dependencies. case_bool; [done|]. intros _.
  match goal with H : negb _ = false |- _ => apply negb_false_iff, bool_decide_eq_true in H; done end.
Qed.

(** A step that satisfies its dependents is remembered. *)
Lemma inv_satisfied e T cs ok i s :
  inv e T → e_steps e !! i = Some s → _step_satisfies_dependencies cs s = Ok ok →
  inv (add_satisfied ok (s_step_id s) e) T.
Proof.
  intros [H1 H2 H3 H4 H5 H6 H7 H8 H9] Hi Hok. destruct ok; [|done]. split; simpl; try done.
  intros id [->|Hid]%elem_of_cons; [|by apply H7].
  exists s. split_and!; [by eapply list_elem_of_lookup_2|done|by eapply satisfies_completed].
Qed.

(** *** One step *)

(** A unit whose steps were checked and whose barrier was crossed. *)
Record ready x (defs : list (pystr * CapabilityDefinition)) T : Prop := {
  rd_previewed : previewed defs T;
  rd_barrier : ∀ id, id ∈ u_step_ids x → barrier id T }.

Lemma ready_app x defs T k : ready x defs T → ready x defs (T ++ k).
Proof.
  intros H. induction k as [|c k IH] using rev_ind; [by rewrite app_nil_r|].
  rewrite app_assoc. split; [by apply previewed_mono, IH|].
  intros id Hid. by apply barrier_mono, IH.
Qed.

(** What the loop over a unit's steps keeps, from the steps [l0] the unit started with. *)
Record step_inv x defs (units : list unit_) (l0 : list step) (seen : list pystr) e T : Prop := {
  si_inv : inv e T;
  si_ready : ready x defs T;
  si_units : e_units e = units;
  si_progress : progress l0 (e_steps e);
  si_seen : ∀ id, id ∈ seen → finished (e_steps e) id }.

Lemma effect_spec x defs units l0 seen e i s d :
  e_steps e !! i = Some s → terminal (s_state s) = false → s_step_id s ∈ u_step_ids x →
  dict_lookup (s_step_id s) defs = Some d →
  hoare (tr (step_inv x defs units l0 seen e))
    (effect_and_verify human_approved (set_state StepExecuting s) d)
    (λ _, tr (λ T', ∃ T, T' = T ++ [CallExecute (s_step_id s) (d_name d) (s_arguments s); CallVerify (s_step_id s)] ∧
                step_inv x defs units l0 seen e T ∧ good_trace T')) (tr good_trace).
Proof.
  intros Hi Ht Hin Hd. unfold effect_and_verify.
  assert (∀ T, step_inv x defs units l0 seen e T → good_trace (T ++ [CallExecute (s_step_id s) (d_name d) (s_arguments s)])) as Hg.
  { intros T HT. destruct HT as [HT [Hprev Hbar] _ _ _].
    apply good_trace_snoc; [by eapply iv_trace|]. intros id name args [= <- <- <-].
    split; [|by eapply inv_not_executed]. split; [|by apply Hbar].
    pose proof (iv_steps _ _ HT) as Hframe. symmetry in Hframe.
    destruct (frame_lookup _ _ _ _ Hframe Hi) as (t & Hti & E).
    assert (s_step_id t = s_step_id s ∧ s_arguments t = s_arguments s) as [Eid Eargs] by (by injection E).
    destruct (Hprev _ _ Hd t) as [Hfresh Hbound]; [by eapply list_elem_of_lookup_2|done|].
    exists t, d. split_and!; [by eapply list_elem_of_lookup_2|done..]. }
  eapply hoare_bind.
  { apply hoare_perform with
      (Q := λ T', ∃ T, T' = T ++ [CallExecute (s_step_id s) (d_name d) (s_arguments s)] ∧
              step_inv x defs units l0 seen e T ∧ good_trace T'); [|done].
    intros T HT. exists T. split_and!; [done|done|by apply Hg]. }
  intros r.
  assert (∀ T c, good_trace T → quiet c = true → good_trace (T ++ [c])) as Hq.
  { intros T c HT Hc. apply good_trace_snoc; [done|]. by intros id name args ->. }
  eapply hoare_bind.
  { apply hoare_perform with
      (Q := λ T', ∃ T, T' = T ++ [CallExecute (s_step_id s) (d_name d) (s_arguments s); CallVerify (s_step_id s)] ∧
              step_inv x defs units l0 seen e T ∧ good_trace T').
    - intros T' (T & -> & HT & Hg'). exists T. split_and!; [by rewrite <- app_assoc|done|by apply Hq].
    - intros T' (T & -> & HT & Hg'). by apply Hq. }
  intros v. by apply hoare_ret.
Qed.

Lemma seen_snoc (l k : list step) seen id :
  progress l k → (∀ j, j ∈ seen → finished l j) → finished k id →
  ∀ j, j ∈ seen ++ [id] → finished k j.
Proof.
  intros Hp' Hs Hid j [Hj|Hj%list_elem_of_singleton]%elem_of_app; [|by subst].
  by eapply finished_mono, Hs.
Qed.

Lemma run_step_spec x defs units l0 cs seen e id :
  id ∈ u_step_ids x →
  hoare (tr (step_inv x defs units l0 seen e)) (run_step human_approved cs defs e id)
    (λ e', tr (step_inv x defs units l0 (seen ++ [id]) e')) (tr good_trace).
Proof.
  intros Hin. assert (∀ st, tr (step_inv x defs units l0 seen e) st → tr good_trace st) as HX.
  { intros st H. eapply iv_trace, H. }
  unfold run_step. apply hoare_bind_lift; [done|intros i Hi].
  apply step_index_Ok in Hi as (s & Hi & <-).
  apply hoare_bind_lift; [done|intros s1 Hs1].
  apply of_option_Ok in Hs1. rewrite Hi in Hs1. injection Hs1 as <-.
  case_bool.
  { apply hoare_bind_lift; [done|intros ok Hok]. apply hoare_ret.
    intros st [H1 H2 H3 H4 H5]. assert (finished (e_steps e) (s_step_id s)) as Hf.
    { exists s. split; [by eapply list_elem_of_lookup_2|done]. }
    split; [|done|by destruct ok|by destruct ok|].
    - eapply inv_satisfied; [|exact Hi|done]. destruct H1. by split.
    - assert (progress (e_steps e) (e_steps e)) by reflexivity.
      destruct ok; by eapply (seen_snoc (e_steps e)). }
  case_bool.
  { apply hoare_bind_lift; [done|intros [res ver] Hev]. apply hoare_ret.
    intros st [H1 H2 H3 H4 H5].
    set (s' := set_outcome Skipped (VDict res) (VDict ver) s).
    assert (progress (e_steps e) (<[i := s']> (e_steps e))) as Hpr by by eapply progress_insert.
    split; simpl; [|done|done|by transitivity (e_steps e)|].
    - pose proof (inv_advance e (r_trace st) [] [] (s_step_id s :: e_terminal e) i s s') as Ha.
      rewrite !app_nil_r in Ha. apply Ha; try done. apply H1.
    - eapply seen_snoc; [done..|]. exists s'. split_and!; [|done|done].
      eapply list_elem_of_lookup_2, list_lookup_insert_eq. by eapply lookup_lt_Some. }
  apply hoare_bind_lift; [done|intros d Hd%of_option_Ok].
  eapply hoare_bind; [by apply hoare_step_error; eapply effect_spec|].
  intros [r v].
  apply hoare_bind_lift; [intros st (T & _ & _ & Hg); exact Hg|intros ? _].
  apply hoare_bind_lift; [intros st (T & _ & _ & Hg); exact Hg|intros ok Hok].
  apply hoare_ret. intros st (T & HT & [H1 H2 H3 H4 H5] & Hg). simpl in *. unfold tr.
  rewrite HT in *. rewrite list_insert_insert_eq.
  set (s' := set_outcome StepCompleted _ _ _) in *.
  assert (progress (e_steps e) (<[i := s']> (e_steps e))) as Hpr by by eapply progress_insert.
  assert (<[i := s']> (e_steps e) !! i = Some s') as Hi'.
  { apply list_lookup_insert_eq. by eapply lookup_lt_Some. }
  split.
  - change (s_step_id s) with (s_step_id s'). eapply inv_satisfied; [|exact Hi'|exact Hok].
    apply (inv_advance e T [CallExecute (s_step_id s) (d_name d) (s_arguments s); CallVerify (s_step_id s)] [r]
             (s_step_id s :: e_terminal e) i s s'); try done.
    intros _ dep Hdep.
    match goal with H : existsb _ _ = false |- _ =>
      by apply existsb_false with (x := dep), negb_false_iff, mem_true in H end.
  - by apply ready_app.
  - by destruct ok.
  - assert (progress l0 (<[i := s']> (e_steps e))) by by transitivity (e_steps e). by destruct ok.
  - destruct ok; (eapply seen_snoc; [done..|]; exists s'; split_and!; [|done|done];
      by eapply list_elem_of_lookup_2).
Qed.

(** *** One unit *)

Lemma inv_set_units e T i x x' :
  inv e T → e_units e !! i = Some x → unit_frame x' = unit_frame x →
  inv (set_units (<[i := x']> (e_units e)) e) T.
Proof.
  intros [H1 H2 H3 H4 H5 H6 H7 H8 H9] Hi Hx. split; simpl; try done.
  rewrite list_fmap_insert, Hx, H2. symmetry. apply list_insert_id.
  by rewrite list_lookup_fmap, Hi.
Qed.

Lemma cross_barrier_inv e T : inv e T →
  (recovery_checkpoint = None → CallBeforeEffect ∈ T) → inv (cross_barrier e) T.
Proof. intros [] Hb. split; simpl; try done. Qed.

Lemma cross_spec e snapshot x is_last defs :
  x ∈ p_recovery_units snapshot → u_state x = UnitExecuting →
  hoare (tr (λ T, inv e T ∧ previewed defs T))
    (cross before_effect recovery_checkpoint e snapshot x is_last)
    (λ e', tr (step_inv x defs (e_units e) (e_steps e) [] e')) (tr good_trace).
Proof.
  intros Hx Hst. unfold cross.
  assert (∀ T c, quiet c = true → inv e T ∧ previewed defs T → good_trace (T ++ [c])) as HX.
  { intros T c Hc [HT _]. by eapply iv_trace, inv_stable. }
  assert (∀ T e', inv e' T → previewed defs T → (∀ id, id ∈ u_step_ids x → barrier id T) →
    e_units e' = e_units e → e_steps e' = e_steps e →
    step_inv x defs (e_units e) (e_steps e) [] e' T) as Hmk.
  { intros T e' H1 H2 H3 H4 H5. split; [done|by split|done|by intros i s; rewrite H5|by intros id ?%not_elem_of_nil]. }
  destruct recovery_checkpoint as [ck|] eqn:Eck; [|destruct before_effect as [f|] eqn:Ebe].
  - eapply hoare_bind; [apply hoare_perform with
      (Q := step_inv x defs (e_units e) (e_steps e) [] (cross_barrier e));
      [|by intros T; apply HX]|intros ?; by apply hoare_ret].
    intros T [HT Hd]. apply Hmk; [|by apply previewed_mono| |done|done].
    + apply cross_barrier_inv; [by apply inv_stable|congruence].
    + intros id Hid. unfold barrier. rewrite Eck. exists snapshot, x, is_last.
      split_and!; [set_solver|done..].
  - case_bool.
    + apply hoare_ret. intros st [HT Hd]. apply Hmk; [done|done| |done|done].
      intros id _. unfold barrier. rewrite Eck, Ebe. by apply HT.
    + eapply hoare_bind; [apply hoare_perform with
        (Q := step_inv x defs (e_units e) (e_steps e) [] (cross_barrier e));
        [|by intros T; apply HX]|intros ?; by apply hoare_ret].
      intros T [HT Hd]. apply Hmk; [|by apply previewed_mono| |done|done].
      * apply cross_barrier_inv; [by apply inv_stable|set_solver].
      * intros id Hid. unfold barrier. rewrite Eck, Ebe. set_solver.
  - apply hoare_ret. intros st [HT Hd]. apply Hmk; [done|done| |done|done].
    intros id _. unfold barrier. by rewrite Eck, Ebe.
Qed.

(** A unit is as the plan had it, or was completed with all its steps. *)
Definition units_done (units : list unit_) (l : list step) : Prop :=
  ∀ i x, units !! i = Some x →
    p_recovery_units p !! i = Some x ∨
    u_state x = UnitCompleted ∧ ∀ id, id ∈ u_step_ids x → finished l id.

Record unit_inv (seen : list nat) e T : Prop := {
  ui_inv : inv e T;
  ui_units : units_done (e_units e) (e_steps e);
  ui_seen : ∀ i, i ∈ seen → ∃ x, e_units e !! i = Some x ∧ u_state x = UnitCompleted }.

Lemma unit_inv_stable seen e : stable (unit_inv seen e).
Proof. intros T c Hc []. split; [by apply inv_stable|done..]. Qed.

Lemma unit_inv_complete seen e0 e T i x :
  units_done (e_units e0) (e_steps e0) →
  (∀ j, j ∈ seen → ∃ y, e_units e0 !! j = Some y ∧ u_state y = UnitCompleted) →
  e_units e0 !! i = Some x → inv e T → e_units e = <[i := set_unit_state UnitExecuting x]> (e_units e0) →
  progress (e_steps e0) (e_steps e) →
  (∀ id, id ∈ u_step_ids x → finished (e_steps e) id) →
  unit_inv (seen ++ [i])
    (set_units (<[i := set_unit_state UnitCompleted x]> (e_units e)) e) T.
Proof.
  intros Hu Hs Hi HT He Hpr Hf. pose proof (lookup_lt_Some _ _ _ Hi) as Hl.
  split; simpl.
  - eapply inv_set_units; [exact HT|rewrite He; by apply list_lookup_insert_eq|done].
  - rewrite He, list_insert_insert_eq. intros j y Hj. destruct (decide (i = j)) as [<-|Hne].
    + rewrite list_lookup_insert_eq in Hj by done. injection Hj as <-. by right.
    + rewrite list_lookup_insert_ne in Hj by done. destruct (Hu j y Hj) as [?|[Hc Hd]]; [by left|].
      right. split; [done|]. intros id Hid. by eapply finished_mono, Hd.
  - rewrite He, list_insert_insert_eq. intros j [Hj|Hj%list_elem_of_singleton]%elem_of_app.
    + destruct (decide (i = j)) as [<-|Hne]; [rewrite list_lookup_insert_eq by done; eauto|].
      rewrite list_lookup_insert_ne by done. by apply Hs.
    + subst j. rewrite list_lookup_insert_eq by done. eauto.
Qed.

Lemma run_unit_spec cs seen e i :
  hoare (tr (unit_inv seen e)) (run_unit reg human_approved before_effect recovery_checkpoint p cs e i)
    (λ e', tr (unit_inv (seen ++ [i]) e')) (tr good_trace).
Proof.
  assert (∀ seen e st, tr (unit_inv seen e) st → tr good_trace st) as HX.
  { intros seen' e' st H. eapply iv_trace, H. }
  unfold run_unit. apply hoare_bind_lift; [apply HX|intros x Hx%of_option_Ok].
  destruct (u_state x) eqn:Hst; [|by apply hoare_raise, HX|].
  2: { apply hoare_ret. intros st [H1 H2 H3]. split; [done|done|].
    intros j [Hj| ->%list_elem_of_singleton]%elem_of_app; eauto. }
  eapply hoare_pure;
    [intros st [Hi Hu Hs]; exact (conj (iv_steps _ _ Hi) (conj Hu Hs))|intros (Hf & Hu & Hs)].
  eapply hoare_bind.
  { eapply hoare_conseq; [by apply (preflight_unit_spec (unit_inv seen e)), unit_inv_stable
                          |done| |apply HX].
    intros defs st H. exact H. }
  intros defs. set (x1 := set_unit_state UnitExecuting x).
  set (e1 := set_units (<[i := x1]> (e_units e)) e). set (l := bool_decide _).
  pose proof (lookup_lt_Some _ _ _ Hx) as Hl.
  eapply hoare_bind.
  { eapply hoare_conseq; [apply (cross_spec e1 _ x1 l defs)| |intros e' st H; exact H|done]; [|done|].
    - simpl. eapply list_elem_of_lookup_2. by apply list_lookup_insert_eq.
    - intros st [[HT _ _] Hprev]. split; [by eapply inv_set_units|done]. }
  intros e2. eapply hoare_bind.
  { apply (hoare_fold (λ seen e, tr (step_inv x1 defs (e_units e1) (e_steps e1) seen e))).
    intros seen' id rest e3 Hids. apply run_step_spec. rewrite Hids. set_solver. }
  intros e3. set (e4 := set_units _ e3). set (x2 := set_unit_state UnitCompleted x1).
  eapply hoare_conseq with (P' := tr (unit_inv (seen ++ [i]) e4));
    [|intros st [H1 H2 H3 H4 H5]; apply (unit_inv_complete seen e _ _ i x); done|intros e5 st H; exact H|by intros st H].
  destruct recovery_checkpoint as [ck|]; [|by apply hoare_ret].
  destruct l; [by apply hoare_ret|].
  eapply hoare_bind; [apply hoare_perform with (Q := unit_inv (seen ++ [i]) e4)
                     |intros ?; by apply hoare_ret].
  - intros T HT. by apply unit_inv_stable.
  - intros T [HT _ _]. by eapply iv_trace, inv_stable.
Qed.

(** *** The whole plan *)

Lemma initial_inv cs e : initial_exec (R := R) cs p = Ok e → unit_inv [] e [].
Proof.
  unfold initial_exec. intros H. result_inv.
  match goal with H : mapR _ _ = Ok _ |- _ => apply mapR_Ok in H as Hsat end.
  split; simpl; [split; simpl| |by intros i ?%not_elem_of_nil]; try done.
  - apply good_trace_nil.
  - by intros id ?%not_elem_of_nil.
  - intros id (y & -> & Hy)%list_elem_of_fmap. apply list_elem_of_filter in Hy as [Hok Hy].
    apply list_elem_of_lookup in Hy as [i Hi]. destruct (Forall2_lookup_r _ _ _ _ _ Hsat Hi) as (s & Hs & E).
    result_inv. simpl in *. subst. exists s. split_and!; [by eapply list_elem_of_lookup_2|done|].
    by eapply satisfies_completed.
  - intros i s Hi _. by left.
  - intros i y Hi. by left.
Qed.
End execution.

(** ** Execution *)

(** What an execution of the opened plan [p] with trace [T] returns. *)
Record executed_plan {R} (p : plan) (T : list call) (p' : plan) (results : list R) : Prop := {
  ep_ok : plan_ok p';
  ep_state : p_state p' = PlanCompleted;
  ep_units : Forall (λ x, u_state x = UnitCompleted) (p_recovery_units p');
  ep_frame : frame <$> p_steps p' = frame <$> p_steps p;
  ep_kept : progress (p_steps p) (p_steps p');
  ep_terminal : ∀ x id, x ∈ p_recovery_units p → u_state x = UnitPrepared → id ∈ u_step_ids x →
    finished (p_steps p') id;
  ep_completed : ∀ i s, p_steps p' !! i = Some s → s_state s = StepCompleted →
    p_steps p !! i = Some s ∨
    s_step_id s ∈ executed T ∧ ∀ d, d ∈ s_depends_on s → completed (p_steps p') d;
  ep_results : length results = length (executed T) }.

Section execution_theorems.
Context {W R : Type} `{!PlanExecutor W R} (reg : registry) (human_approved : bool)
  (before_effect : option (W → result plan_exn unit * W))
  (recovery_checkpoint :
     option (checkpoint_stage → plan → unit_ → bool → W → result plan_exn unit * W)).

Lemma open_plan_Ok payload p cs (e : exec (R := R)) :
  open_plan reg recovery_checkpoint payload = Ok (p, cs, e) →
  plan_ok p ∧ (p_state p = Authorized ∨ p_state p = PlanExecuting) ∧
  Forall (λ x, u_state x ≠ UnitExecuting) (p_recovery_units p) ∧
  (recovery_checkpoint = None → length (p_recovery_units p) = 1%nat ∧
     Forall (λ x, u_mode x = OdooAtomic) (p_recovery_units p)) ∧
  initial_exec cs p = Ok e.
Proof.
  unfold open_plan. intros H. result_inv.
  match goal with H : (if _ then _ else Ok _) = Ok p |- _ => rename H into Hup end.
  assert (plan_ok p) as Hok.
  { match goal with H : _validated_plan _ = Ok _ |- _ => apply validated_plan_wf in H as Hwf end.
    case_bool; [by eapply upgrade_ok in Hup as []|by injection Hup as <-]. }
  split_and!; [done| | | |done].
  - match goal with H : bool_decide _ || bool_decide _ = true |- _ =>
      apply orb_true_iff in H as [H%bool_decide_eq_true|H%bool_decide_eq_true]; auto end.
  - apply Forall_forall. intros y Hy.
    match goal with H : existsb _ _ = false |- _ =>
      apply existsb_false with (x := y) in H; [by apply bool_decide_eq_false in H|done] end.
  - intros Hck. match goal with H : _ && _ = false |- _ =>
      apply andb_false_iff in H as [H|H]; [by apply bool_decide_eq_false in H|] end.
    result_inv. split.
    + match goal with H : (1 <? _)%nat = false |- _ => apply Nat.ltb_ge in H end.
      destruct Hok as [Hc _ _ Hcat]. apply (f_equal length) in Hcat.
      rewrite length_fmap in Hcat. destruct (p_recovery_units p) as [|y [|]]; simpl in *; lia.
    + apply Forall_forall. intros y Hy.
      match goal with H : existsb _ _ = false |- _ =>
        apply existsb_false with (x := y) in H;
          [by apply negb_false_iff, bool_decide_eq_true in H|done] end.
Qed.

Lemma unit_inv_final p e T :
  plan_ok p → Forall (λ x, u_state x ≠ UnitExecuting) (p_recovery_units p) →
  unit_inv reg before_effect recovery_checkpoint p (seq 0 (length (p_recovery_units p))) e T →
  executed_plan p T (_execution_snapshot p (e_steps e) (e_units e) PlanCompleted) (e_results (R := R) e).
Proof.
  intros Hp Hne [Hi Hu Hs]. generalize Hi. intros [H1 H2 H3 H4 H5 H6 H7 H8 H9].
  assert (length (e_units e) = length (p_recovery_units p)) as Hl.
  { apply (f_equal length) in H2. by rewrite !length_fmap in H2. }
  assert (∀ i x, e_units e !! i = Some x → u_state x = UnitCompleted) as Hc.
  { intros i x Hx. destruct (Hs i) as (y & Hy & E); [|congruence].
    apply elem_of_seq. apply lookup_lt_Some in Hx. lia. }
  split; simpl; try done.
  - by apply snapshot_ok.
  - apply Forall_lookup. exact Hc.
  - intros x id [i Hx]%list_elem_of_lookup Hst Hid.
    destruct (lookup_lt_is_Some_2 (e_units e) i) as [y Hy].
    { rewrite Hl. by eapply lookup_lt_Some. }
    destruct (Hu i y Hy) as [E|[_ Hf]].
    + rewrite Hx in E. injection E as <-. by rewrite (Hc _ _ Hy) in Hst.
    + apply Hf. pose proof (f_equal (.!! i) H2) as E. rewrite !list_lookup_fmap, Hx, Hy in E.
      injection E as _ _ E. by rewrite <- E.
Qed.

(** The calls of an execution of a plan; of a plan that is not opened there are none. *)
Definition good_calls (payload : pyval) (T : list call) : Prop :=
  match open_plan (R := R) reg recovery_checkpoint payload with
  | Ok (p, _, _) => good_trace reg before_effect recovery_checkpoint p T
  | Err _ => T = []
  end.

Lemma execute_spec payload :
  hoare (tr (λ T, T = [])) (execute reg human_approved before_effect recovery_checkpoint payload)
    (λ r, tr (λ T, good_calls payload T ∧
                ∃ p cs (e : exec (R := R)), open_plan reg recovery_checkpoint payload = Ok (p, cs, e) ∧
                  executed_plan p T r.1 (r.2 : list R)))
    (tr (good_calls payload)).
Proof.
  unfold execute, good_calls.
  destruct (open_plan reg recovery_checkpoint payload) as [[[p cs] e]|err] eqn:Hopen;
    [|by intros st Hst].
  destruct (open_plan_Ok _ _ _ _ Hopen) as (Hp & _ & Hne & _ & He).
  assert (e_units e = p_recovery_units p) as Eu.
  { unfold initial_exec in He. by result_inv. }
  set (I seen (e : exec (R := R)) := tr (W := W) (unit_inv reg before_effect recovery_checkpoint p seen e)).
  apply hoare_bind_lift; [intros st Hst; unfold tr in *; rewrite Hst; apply good_trace_nil|intros q [= <-]].
  eapply hoare_bind.
  { eapply hoare_conseq with (P' := I [] e);
      [apply (hoare_fold I)| |intros e' st H; exact H|intros st H; exact H].
    - intros seen i rest e' _. by apply run_unit_spec.
    - intros st Hst. unfold I, tr in *. rewrite Hst. by eapply initial_inv. }
  intros e'. apply hoare_ret. intros st Hui. split; [eapply iv_trace, Hui|].
  exists p, cs, e. split; [done|]. rewrite Eu in Hui. by eapply unit_inv_final.
Qed.

(** C2: Along every run of CapabilityPlanService.execute, returned or raised, each effect call
    is the bound call of a step of the stored plan (the registered capability in the step's
    version and recovery mode, the step's arguments, a fingerprint that binds them with the
    precondition), and comes after the barrier of its recovery unit and after a preview made in
    the same run with that capability and those arguments, whose precondition is the one the
    step is bound to; no step's effect happens twice, and a plan that is not opened makes no
    call. *)
Theorem execute_effects_guarded payload w :
  good_calls payload
    (r_trace (execute reg human_approved before_effect recovery_checkpoint payload (MkRun w [])).2).
Proof.
  pose proof (execute_spec payload (MkRun w []) eq_refl) as H.
  destruct (execute _ _ _ _ _ _) as [[r|err] st]; [by destruct H|done].
Qed.

(** When execute returns, every unit is completed and every step is completed with its
    verified result or skipped with evidence of the unsatisfied dependency, and the rest of the
    plan is the stored one. *)
Theorem execute_completes payload w p' results st :
  execute reg human_approved before_effect recovery_checkpoint payload (MkRun w []) =
    (Ok (p', results), st) →
  ∃ p cs (e : exec (R := R)),
    open_plan reg recovery_checkpoint payload = Ok (p, cs, e) ∧
    executed_plan p (r_trace st) p' results.
Proof.
  intros H. pose proof (execute_spec payload (MkRun w []) eq_refl) as Hs. rewrite H in Hs. apply Hs.
Qed.

(** A plan is opened only when it is authorized or was executing, with no unit in flight; without
    a checkpoint it must be one atomic unit. *)
Theorem open_plan_guarded payload p cs (e : exec (R := R)) :
  open_plan reg recovery_checkpoint payload = Ok (p, cs, e) →
  plan_ok p ∧ (p_state p = Authorized ∨ p_state p = PlanExecuting) ∧
  Forall (λ x, u_state x ≠ UnitExecuting) (p_recovery_units p) ∧
  (recovery_checkpoint = None → length (p_recovery_units p) = 1%nat ∧
     Forall (λ x, u_mode x = OdooAtomic) (p_recovery_units p)).
Proof. intros H. by destruct (open_plan_Ok _ _ _ _ H) as (? & ? & ? & ? & _). Qed.
End execution_theorems.
