(* ===== verification/EffectPlanApproval.v ===== *)
(** * Agent: approval scopes of effect plans

    [approval_refines] of [runtime/agent/plan.py]: whether a repaired plan stays within what
    was approved, by record sets for the capabilities that allow it and by counted exact
    calls for the others. *)
From S2P Require Import Prelude PyText Regex Sha256 PyValue Json EffectPlan EffectPlanFacts.
From S2P Require Import Capability CapabilityRegistry EffectPlanService.
Local Open Scope Z_scope.

(** ** Definitions *)

(** What one step needs: records of a model, or one call with exactly these arguments. *)
Inductive step_scope : Type :=
| Records (key : pystr * pystr * pystr) (ids : list Z)
| Exact (key : pystr * pystr).

Definition scope_of_step (reg : registry) (s : step) : result plan_exn step_scope :=
  d ← resolve reg (s_capability s);
  if py_eq (get (u "approval_refinement") (d_developer_metadata d)) (VStr (u "record_id_subset"))
  then
    model ← of_option (as_str (get (u "model") (s_arguments s))) plan_invalid;
    operation ← of_option (as_str (get (u "operation") (s_arguments s))) plan_invalid;
    record_ids ← of_option (v ← as_list (get (u "record_ids") (s_arguments s)); mapM as_int v)
                   plan_invalid;
    Ok (Records (d_name d, model, operation) record_ids)
  else
    arguments ← _canonical_arguments (s_arguments s);
    Ok (Exact (d_name d, arguments)).

Abbreviation scopes := (gmap (pystr * pystr * pystr) (gset Z)).
Abbreviation counter := (gmap (pystr * pystr) nat).

(** The turn of the loop: [scopes] and [exact]. *)
Definition scope_step (reg : registry) (acc : scopes * counter) (s : step)
    : result plan_exn (scopes * counter) :=
  x ← scope_of_step reg s;
  Ok (match x with
      | Records k ids => (<[k := default ∅ (acc.1 !! k) ∪ list_to_set ids]> acc.1, acc.2)
      | Exact k => (acc.1, <[k := S (default 0%nat (acc.2 !! k))]> acc.2)
      end).

Definition exact_key (k : pystr * pystr) : pystr * pystr * pystr := (u "exact", k.1, k.2).

(** [set(range(count))] *)
Definition range_set (n : nat) : gset Z := list_to_set (seqZ 0 (Z.of_nat n)).

Definition _approval_scopes (reg : registry) (steps : list step) : result plan_exn scopes :=
  '(scopes, exact) ← foldR (scope_step reg) (∅, ∅) steps;
  Ok (map_fold (λ k n m, <[exact_key k := range_set n]> m) scopes exact).

Definition approval_refines (reg : registry) (approved candidate : pyval) : result plan_exn bool :=
  original ← _validated_plan approved;
  repaired ← _validated_plan candidate;
  original_scopes ← _approval_scopes reg (p_steps original);
  repaired_scopes ← _approval_scopes reg (p_steps repaired);
  Ok (forallb (λ kv, match original_scopes !! kv.1 with
                     | Some values => bool_decide (kv.2 ⊆ values)
                     | None => false end) (map_to_list repaired_scopes)
      && negb (bool_decide (repaired_scopes = ∅))).

(** ** What refinement means *)

Section approval.
Context (reg : registry).
(** [CapabilityDefinition.__post_init__] *)
Hypothesis named : ∀ name d, reg !! name = Some d → fullmatch _NAME_RE (d_name d) = true.
Implicit Types (s t : step) (steps : list step).

Definition is_exact (k : pystr * pystr) s : bool :=
  match scope_of_step reg s with Ok (Exact k') => bool_decide (k = k') | _ => false end.

(** The exact calls of a list of steps. *)
Definition calls (k : pystr * pystr) steps : nat := length (filter (λ s, is_exact k s = true) steps).

(** Some step needs records of [k], with identifiers in [Q]. *)
Definition uses (Q : list Z → Prop) (k : pystr * pystr * pystr) steps : Prop :=
  ∃ s ids, s ∈ steps ∧ scope_of_step reg s = Ok (Records k ids) ∧ Q ids.

(** A step of a plan within the scope of the steps [approved]. *)
Definition in_scope (approved candidate : list step) s : Prop :=
  match scope_of_step reg s with
  | Ok (Records k ids) =>
      uses (λ _, True) k approved ∧ ∀ id, id ∈ ids → uses (λ ids', id ∈ ids') k approved
  | Ok (Exact k) => (calls k candidate ≤ calls k approved)%nat
  | Err _ => False
  end.

Lemma calls_snoc k steps s :
  calls k (steps ++ [s]) = (calls k steps + if is_exact k s then 1 else 0)%nat.
Proof.
  unfold calls. rewrite filter_app, length_app. f_equal. rewrite filter_cons, filter_nil.
  by destruct (is_exact k s).
Qed.

Lemma calls_pos k steps : calls k steps ≠ 0%nat ↔ ∃ s, s ∈ steps ∧ scope_of_step reg s = Ok (Exact k).
Proof.
  induction steps as [|s steps IH] using rev_ind; [split; [done|intros (s & ?%not_elem_of_nil & _); done]|].
  rewrite calls_snoc. unfold is_exact. setoid_rewrite elem_of_app. setoid_rewrite list_elem_of_singleton.
  destruct (scope_of_step reg s) as [[k' ids|k']|] eqn:Hs; rewrite ?Nat.add_0_r, ?IH.
  - split; [naive_solver|]. intros (t & [Ht| ->] & E); [eauto|congruence].
  - case_bool_decide as Hk; [subst; split; [naive_solver|lia]|]. rewrite Nat.add_0_r, IH.
    split; [naive_solver|]. intros (t & [Ht| ->] & E); [eauto|congruence].
  - split; [naive_solver|]. intros (t & [Ht| ->] & E); [eauto|congruence].
Qed.

Lemma uses_snoc Q k steps s x : scope_of_step reg s = Ok x →
  uses Q k (steps ++ [s]) ↔
  uses Q k steps ∨ match x with Records k' ids => k' = k ∧ Q ids | Exact _ => False end.
Proof.
  intros Hx. unfold uses. setoid_rewrite elem_of_app. setoid_rewrite list_elem_of_singleton. split.
  - intros (t & ids & [Ht| ->] & E & HQ); [left; eauto|]. rewrite Hx in E. injection E as ->. by right.
  - intros [(t & ids & Ht & HQ)|Hm]; [naive_solver|]. destruct x as [k' ids|]; [|done].
    destruct Hm as [-> HQ]. exists s, ids. auto.
Qed.

(** The loop's accumulators say exactly what the steps need. *)
Record scopes_of steps (acc : scopes * counter) : Prop := {
  sc_defined : ∀ s, s ∈ steps → ∃ x, scope_of_step reg s = Ok x;
  sc_exact : ∀ k, default 0%nat (acc.2 !! k) = calls k steps;
  sc_counted : ∀ k n, acc.2 !! k = Some n → n ≠ 0%nat;
  sc_keys : ∀ k, is_Some (acc.1 !! k) ↔ uses (λ _, True) k steps;
  sc_records : ∀ k id, id ∈ default ∅ (acc.1 !! k) ↔ uses (λ ids, id ∈ ids) k steps }.

Lemma scopes_of_snoc steps acc s acc' :
  scopes_of steps acc → scope_step reg acc s = Ok acc' → scopes_of (steps ++ [s]) acc'.
Proof.
  intros [H1 H2 H3 H4 H5] (x & Hx & E)%bind_Ok. injection E as <-. split.
  - intros t [Ht|Ht%list_elem_of_singleton]%elem_of_app; [by apply H1|subst; eauto].
  - intros k. rewrite calls_snoc, <- H2. unfold is_exact. rewrite Hx.
    destruct x as [k' ids|k']; simpl; [lia|]. destruct (decide (k = k')) as [<-|Hne].
    + rewrite lookup_insert_eq, bool_decide_eq_true_2 by done. simpl. lia.
    + rewrite lookup_insert_ne, bool_decide_eq_false_2 by done. lia.
  - intros k n. destruct x as [k' ids|k']; simpl; [by apply H3|].
    intros [[<- <-]|[? ?]]%lookup_insert_Some; [done|by eapply H3].
  - intros k. rewrite (uses_snoc _ _ _ _ _ Hx), <- H4. destruct x as [k' ids|k']; simpl; [|naive_solver].
    destruct (decide (k' = k)) as [<-|Hne].
    + rewrite lookup_insert_eq. naive_solver.
    + rewrite lookup_insert_ne by done. naive_solver.
  - intros k id. rewrite (uses_snoc _ _ _ _ _ Hx), <- H5. destruct x as [k' ids|k']; simpl; [|naive_solver].
    destruct (decide (k' = k)) as [<-|Hne].
    + rewrite lookup_insert_eq. simpl. rewrite elem_of_union, elem_of_list_to_set. naive_solver.
    + rewrite lookup_insert_ne by done. naive_solver.
Qed.

Lemma scopes_of_steps steps acc :
  foldR (scope_step reg) (∅, ∅) steps = Ok acc → scopes_of steps acc.
Proof.
  revert acc. induction steps as [|s steps IH] using rev_ind; intros acc.
  - intros [= <-]. split; try setoid_rewrite lookup_empty; simpl; try done.
    + by intros s ?%not_elem_of_nil.
    + intros k. split; [by intros []|]. by intros (s & ids & ?%not_elem_of_nil & _).
    + intros k id. split; [set_solver|]. by intros (s & ids & ?%not_elem_of_nil & _).
  - rewrite foldR_app. intros (acc1 & H1%IH & H2)%bind_Ok. simpl in H2. result_inv.
    by eapply scopes_of_snoc.
Qed.

Lemma not_named_exact s k ids : scope_of_step reg s = Ok (Records k ids) → k.1.1 ≠ u "exact".
Proof.
  unfold scope_of_step. intros (d & Hd%of_option_Ok%named & H)%bind_Ok Hk.
  case_bool; result_inv; [|discriminate]. simpl in Hk. rewrite Hk in Hd. vm_compute in Hd. done.
Qed.

#[local] Instance exact_key_inj : Inj eq eq exact_key.
Proof. by intros [] [] [= -> ->]. Qed.

Lemma with_exact (m : scopes) (c : counter) k :
  map_fold (λ k n m, <[exact_key k := range_set n]> m) m c !! k =
  match k with (e, n, a) =>
    if decide (e = u "exact") then
      match c !! (n, a) with Some n => Some (range_set n) | None => m !! k end
    else m !! k end.
Proof.
  destruct k as [[e nm] a].
  induction c as [|k n c Hk Hfirst IH] using map_first_key_ind.
  - rewrite map_fold_empty. by case_decide.
  - rewrite map_fold_insert_first_key by done. destruct (decide (exact_key k = (e, nm, a))) as [E|Hne].
    + rewrite E, lookup_insert_eq. injection E as <- <- <-. rewrite decide_True by done.
      by rewrite <- surjective_pairing, lookup_insert_eq.
    + rewrite lookup_insert_ne, IH by done. case_decide; [|done]. subst.
      rewrite lookup_insert_ne; [done|]. intros ->. done.
Qed.

Lemma range_set_subset n m : range_set n ⊆ range_set m ↔ (n ≤ m)%nat.
Proof.
  assert (∀ k z, z ∈ range_set k ↔ 0 ≤ z < Z.of_nat k) as Hin.
  { intros k z. unfold range_set. rewrite elem_of_list_to_set, elem_of_seqZ. lia. }
  split; intros H.
  - destruct n as [|n]; [lia|]. specialize (H (Z.of_nat n)). rewrite !Hin in H. lia.
  - intros z. rewrite !Hin. lia.
Qed.

(** The scopes of a plan, key by key. *)
Lemma approval_scopes_spec steps m : _approval_scopes reg steps = Ok m →
  (∀ s, s ∈ steps → ∃ x, scope_of_step reg s = Ok x) ∧
  (∀ k, m !! exact_key k = if decide (calls k steps = 0%nat) then None
                           else Some (range_set (calls k steps))) ∧
  (∀ k, k.1.1 ≠ u "exact" → (is_Some (m !! k) ↔ uses (λ _, True) k steps) ∧
     ∀ id, id ∈ default ∅ (m !! k) ↔ uses (λ ids, id ∈ ids) k steps).
Proof.
  unfold _approval_scopes. intros H. result_inv.
  match goal with H : foldR _ _ _ = Ok ?acc |- _ =>
    destruct acc as [sc ex]; apply scopes_of_steps in H as [H1 H2 H3 H4 H5] end.
  simpl in *. result_inv. split_and!; [done| |].
  - intros [nm a]. rewrite with_exact. unfold exact_key. cbn [fst snd]. rewrite decide_True by done.
    rewrite <- H2. destruct (ex !! (nm, a)) as [n|] eqn:E; simpl.
    + rewrite decide_False by (by eapply H3). done.
    + destruct (sc !! (u "exact", nm, a)) eqn:Esc; [|done].
      destruct (proj1 (H4 (u "exact", nm, a))) as (s & ids & _ & Hs & _); [by rewrite Esc|].
      by apply not_named_exact in Hs.
  - intros [[e nm] a] Hk. rewrite with_exact. simpl in Hk. by rewrite decide_False.
Qed.

Lemma key_cases (k : pystr * pystr * pystr) : k.1.1 ≠ u "exact" ∨ ∃ k', k = exact_key k'.
Proof.
  destruct k as [[e nm] a]. destruct (decide (e = u "exact")) as [->|]; [right; by exists (nm, a)|by left].
Qed.

Lemma scopes_included (approved candidate : list step) (m m' : scopes) :
  _approval_scopes reg approved = Ok m → _approval_scopes reg candidate = Ok m' →
  (∀ k v, m' !! k = Some v → ∃ w, m !! k = Some w ∧ v ⊆ w) ↔
  ∀ s, s ∈ candidate → in_scope approved candidate s.
Proof.
  intros (_ & He & Hr)%approval_scopes_spec (Hd' & He' & Hr')%approval_scopes_spec. split.
  - intros Hin s Hs. destruct (Hd' s Hs) as [x Hx]. unfold in_scope. rewrite Hx.
    destruct x as [k ids|k].
    + pose proof (not_named_exact _ _ _ Hx) as Hk. destruct (Hr' k Hk) as [Hk1 Hk2].
      destruct (proj2 Hk1) as [v Hv]; [by exists s, ids|].
      destruct (Hin k v Hv) as (w & Hw & Hsub). destruct (Hr k Hk) as [Hk3 Hk4].
      split; [apply Hk3; eauto|]. intros id Hid. apply Hk4. rewrite Hw. apply Hsub.
      change v with (default ∅ (Some v)). rewrite <- Hv. apply Hk2. by exists s, ids.
    + specialize (He' k). rewrite decide_False in He' by (apply calls_pos; eauto).
      destruct (Hin _ _ He') as (w & Hw & Hsub). rewrite He in Hw. case_decide; [done|].
      injection Hw as <-. by apply range_set_subset.
  - intros Hin k v Hv. destruct (key_cases k) as [Hk|[k' ->]].
    + destruct (Hr' k Hk) as [Hk1 Hk2], (Hr k Hk) as [Hk3 Hk4].
      destruct (proj1 Hk1) as (s & ids & Hs & Hsc & _); [by rewrite Hv|].
      pose proof (Hin s Hs) as Hin1. unfold in_scope in Hin1. rewrite Hsc in Hin1.
      destruct Hin1 as [Hw _]. apply Hk3 in Hw as [w Hw]. exists w. split; [done|].
      intros id Hid. change w with (default ∅ (Some w)). rewrite <- Hw. apply Hk4.
      destruct (proj1 (Hk2 id)) as (t & ids' & Ht & Htc & Hid'); [by rewrite Hv|].
      pose proof (Hin t Ht) as Hin2. unfold in_scope in Hin2. rewrite Htc in Hin2. by apply Hin2.
    + rewrite He' in Hv. case_decide as Hc; [done|]. injection Hv as <-.
      destruct (proj1 (calls_pos k' candidate) Hc) as (s & Hs & Hsc).
      pose proof (Hin s Hs) as Hle. unfold in_scope in Hle. rewrite Hsc in Hle.
      exists (range_set (calls k' approved)). rewrite He, decide_False by lia.
      split; [done|]. by apply range_set_subset.
Qed.

Lemma scopes_nonempty steps m : steps ≠ [] → _approval_scopes reg steps = Ok m → m ≠ ∅.
Proof.
  destruct steps as [|s steps]; [done|]. intros _ (Hd & He & Hr)%approval_scopes_spec ->.
  destruct (Hd s) as [[k ids|k] Hx]; [by left| |].
  - destruct (Hr k (not_named_exact _ _ _ Hx)) as [Hk _]. rewrite lookup_empty in Hk.
    destruct (proj2 Hk) as [? ?]; [|done]. exists s, ids. set_solver.
  - specialize (He k). rewrite lookup_empty, decide_False in He; [done|].
    apply calls_pos. exists s. set_solver.
Qed.

(** C38: approval_refines accepts a repaired plan exactly when each of its steps is within the
    approved scope: the named records are records approved for the same capability, any other
    call occurs at most as often as in the approved plan with the same arguments. *)
Theorem approval_refines_exact approved candidate b :
  approval_refines reg approved candidate = Ok b →
  ∃ original repaired,
    _validated_plan approved = Ok original ∧ _validated_plan candidate = Ok repaired ∧
    (b = true ↔ ∀ s, s ∈ p_steps repaired → in_scope (p_steps original) (p_steps repaired) s).
Proof.
  unfold approval_refines. intros H. result_inv. eexists _, _. split_and!; [done|done|].
  match goal with H : _validated_plan candidate = Ok ?r, H1 : _approval_scopes _ (p_steps ?r) = Ok _,
    H2 : _approval_scopes _ _ = Ok ?m |- context [map_to_list ?m'] =>
    rewrite <- (scopes_included _ _ _ _ H2 H1);
    apply validated_plan_wf in H as [Hc _ _ _];
    apply scopes_nonempty in H1; [|by destruct (p_steps r); [simpl in Hc; lia|]] end.
  rewrite bool_decide_eq_false_2 by done. rewrite andb_true_r, forallb_true. split.
  - intros Hf k v Hv. apply elem_of_map_to_list in Hv. apply Hf in Hv. simpl in Hv.
    destruct (_ !! k) as [w|]; [|done]. exists w. by apply bool_decide_eq_true in Hv.
  - intros Hf [k v] Hv%elem_of_map_to_list. destruct (Hf k v Hv) as (w & Hw & Hsub).
    simpl. rewrite Hw. by apply bool_decide_eq_true.
Qed.
End approval.
