(* ===== verification/EffectPlanPrepare.v ===== *)
(** * Agent: correctness of plan preparation

    What [CapabilityPlanService.prepare] calls and the plan it returns, on every executor that
    hands out well-formed tokens. *)
From S2P Require Import Prelude PyText Regex Sha256 PyValue Json EffectPlan EffectPlanFacts.
From S2P Require Import Capability CapabilityRegistry EffectPlanService EffectPlanRun.
From S2P Require Import EffectPlanApproval.
Local Open Scope Z_scope.

#[local] Arguments dict_lookup : simpl never.
#[local] Arguments step_name : simpl never.

Definition requested_ids (requests : list PlannedCapability) : list pystr :=
  imap requested_id requests.

Lemma requested_ids_snoc requests r :
  requested_ids (requests ++ [r]) = requested_ids requests ++ [requested_id (length requests) r].
Proof. unfold requested_ids. rewrite imap_app. simpl. by rewrite Nat.add_0_r. Qed.

Lemma requested_ids_length requests : length (requested_ids requests) = length requests.
Proof. apply length_imap. Qed.

Lemma validate_requested_app seen r rest known :
  _validate_requested_dependencies (seen ++ r :: rest) = Ok known →
  (requested_id (length seen) r ∉ requested_ids seen) ∧
  ∀ d, d ∈ pc_depends_on r → d ∈ requested_ids seen.
Proof.
  unfold _validate_requested_dependencies. 
  match goal with |- context [foldR ?g _ _] => set (f := g) end. intros H.
  assert (∀ l k, foldR f [] l = Ok k → k = requested_ids l) as Hids.
  { intros l. induction l as [|x l IH] using rev_ind; intros k; [by intros [= <-]|].
    rewrite foldR_app, requested_ids_snoc. intros (k1 & ->%IH & Hx)%bind_Ok. simpl in Hx.
    unfold f in Hx. result_inv. by rewrite requested_ids_length. }
  rewrite foldR_app in H. apply bind_Ok in H as (k & ->%Hids & H). simpl in H. result_inv.
  match goal with H : f _ _ = Ok _ |- _ => unfold f in H; result_inv end.
  rewrite requested_ids_length in *. split.
  - by match goal with H : mem _ _ = false |- _ => apply mem_false in H end.
  - by match goal with H : subset_of _ _ = true |- _ => rewrite subset_of_true in H end.
Qed.

Lemma existsb_fmap {A} (f : A → bool) l : existsb f l = existsb id (f <$> l).
Proof. induction l as [|x l IH]; [done|]. simpl. by rewrite IH. Qed.

(** What the assignment of units does not touch. *)
Lemma assigned_field {A} (f : step → A) (l k : list step) :
  unassigned <$> l = unassigned <$> k → (∀ s, f (unassigned s) = f s) → f <$> l = f <$> k.
Proof.
  intros H Hf. apply (f_equal (fmap f)) in H. rewrite <- !list_fmap_compose in H.
  assert (∀ m : list step, f ∘ unassigned <$> m = f <$> m) as E.
  { intros m. apply list_fmap_ext. intros i s _. apply Hf. }
  by rewrite !E in H.
Qed.

Section prepare.
Context {W R : Type} `{!PlanExecutor W R} (reg : registry).

(** Three tokens in a row. *)
Definition tokens (w : W) : list pystr :=
  let '(a, w1) := ex_token_hex w in let '(b, w2) := ex_token_hex w1 in
  let '(c, _) := ex_token_hex w2 in [a; b; c].

(** [secrets.token_hex(16)]: 32 hexadecimal digits, different each time. *)
Hypothesis token_format :
  ∀ w t, t ∈ tokens w → length t = 32%nat ∧ Forall (λ c, in_ranges hexdigits c = true) t.
Hypothesis token_fresh : ∀ w, NoDup (tokens w).

(** What the requests must satisfy beyond the checks of [prepare]. *)
Definition request_ok (r : PlannedCapability) : Prop :=
  (length (pc_step_id r) ≤ 256)%nat ∧ NoDup (pc_depends_on r).

Lemma group_token w t : t ∈ tokens w → group_ok (u "semantic:v1:" ++ t).
Proof.
  intros [Hl Hf]%token_format. apply fullmatch_prefix. exists t. split_and!; [done|lia|lia|done].
Qed.

Lemma group_run w T t w' : ex_token_hex w = (t, w') →
  _new_semantic_group_key (MkRun w T) = (Ok (u "semantic:v1:" ++ t), MkRun w' T).
Proof.
  intros E. unfold _new_semantic_group_key. rewrite ST_bind_at. unfold quietly.
  cbn [r_world]. by rewrite E.
Qed.

Lemma hoare_groups {A} P (K : A → run W → Prop) X f :
  (∀ g, groups_ok g → hoare (tr P) (f (sg_prepare g) (sg_execute g) (sg_verify g)) K X) →
  hoare (tr P)
    (a ← _new_semantic_group_key; b ← _new_semantic_group_key; c ← _new_semantic_group_key; f a b c)
    K X.
Proof.
  intros Hf [w T] HT. pose proof (group_token w) as Hg. pose proof (token_fresh w) as Hfresh.
  unfold tokens in *. destruct (ex_token_hex w) as [a w1] eqn:E0.
  destruct (ex_token_hex w1) as [b w2] eqn:E1. destruct (ex_token_hex w2) as [c w3] eqn:E2.
  do 3 (rewrite ST_bind_at; erewrite group_run by done).
  apply (Hf (MkGroups (u "semantic:v1:" ++ a) (u "semantic:v1:" ++ b) (u "semantic:v1:" ++ c)));
    [|exact HT].
  split; simpl; [apply Hg; set_solver..|].
  apply (NoDup_fmap_2 (app (u "semantic:v1:")) _ Hfresh).
Qed.

(** The loop after the requests [seen]. *)
Record prepared (seen : list PlannedCapability) (acc : list step * bool) : Prop := {
  pp_ids : s_step_id <$> acc.1 = requested_ids seen;
  pp_confirm : acc.2 = existsb s_approval_required acc.1;
  pp_steps : grows (λ pre s, step_ok pre (named s)) acc.1;
  pp_previewed : Forall (λ s, s_state s = Previewed) acc.1 }.
(** The step a preview is of. *)
Definition preview_of (c : call) : option pystr :=
  match c with CallPreview id _ _ _ => Some id | _ => None end.
Definition all_previewed (seen : list PlannedCapability) (T : list call) : Prop :=
  preview_of <$> T = Some <$> requested_ids seen.

(** Previews of some of the requests, in their order. *)
Definition previews (requests : list PlannedCapability) (T : list call) : Prop :=
  ∃ n, preview_of <$> T = Some <$> take n (requested_ids requests).

Lemma requested_id_length i r :
  (i < 5)%nat → (length (pc_step_id r) ≤ 256)%nat → (1 ≤ length (requested_id i r) ≤ 256)%nat.
Proof.
  intros Hi Hr. unfold requested_id. destruct (pc_step_id r); [by apply step_name_length|]. simpl in *. lia.
Qed.

Lemma prepare_step_ok i steps seen r d preview required b mode journal g :
  i = length steps → (i < 5)%nat → request_ok r → s_step_id <$> steps = requested_ids seen →
  requested_id i r ∉ requested_ids seen → (∀ x, x ∈ pc_depends_on r → x ∈ requested_ids seen) →
  groups_ok g → dict_lookup journal _JOURNAL_CLASSES = Some journal →
  step_ok steps (named
    (MkStep (VInt (Z.of_nat i)) (requested_id i r) (pc_depends_on r) (d_name d) (d_version d)
       (pc_arguments r) (pc_summary r) (VStr (_risk (d_risk d) (d_effect d)))
       (VStr (_effect (d_effect d))) (approval_value (d_approval d)) required
       (VStr (pv_precondition_fingerprint preview)) (VStr b) (pv_summary preview)
       Previewed VNone VNone g [] mode journal)).
Proof.
  intros -> Hi [Hl Hnd] Hids Hnew Hdep Hg Hj. split; simpl; try done.
  - by apply Z.eqb_refl.
  - by apply requested_id_length.
  - by rewrite Hids.
  - by rewrite Hids.
  - destruct (d_approval d); vm_compute; reflexivity.
Qed.

Lemma previews_app seen rest T : all_previewed seen T → previews (seen ++ rest) T.
Proof.
  intros HT. exists (length seen). rewrite HT. unfold requested_ids. rewrite imap_app.
  by rewrite take_app_length' by by rewrite length_imap.
Qed.

Lemma prepare_step_spec seen r rest acc known :
  (length (seen ++ r :: rest) ≤ 5)%nat → Forall request_ok (seen ++ r :: rest) →
  _validate_requested_dependencies (seen ++ r :: rest) = Ok known → prepared seen acc →
  hoare (tr (all_previewed seen)) (prepare_step reg acc r)
    (λ acc' st, prepared (seen ++ [r]) acc' ∧ tr (all_previewed (seen ++ [r])) st)
    (tr (previews (seen ++ r :: rest))).
Proof.
  intros Hlen Hreq Hval Hacc. apply validate_requested_app in Hval as [Hnew Hdep].
  rewrite length_app in Hlen. simpl in Hlen.
  apply Forall_app in Hreq as [_ Hreq]. apply Forall_cons in Hreq as [Hr _].
  destruct acc as [steps rc], Hacc as [Hids Hrc Hg Hp]. simpl in *.
  assert (length steps = length seen) as El.
  { apply (f_equal length) in Hids. by rewrite length_fmap, requested_ids_length in Hids. }
  assert (∀ T, all_previewed seen T → previews (seen ++ r :: rest) T) as HX.
  { intros T. by apply previews_app. }
  assert (∀ T, all_previewed (seen ++ [r]) T → previews (seen ++ r :: rest) T) as HX'.
  { intros T. rewrite (cons_middle r seen rest), app_assoc. by apply previews_app. }
  unfold prepare_step. apply hoare_bind_lift; [intros st; apply HX|intros d Hd].
  apply hoare_groups. intros g Hgok.
  assert (∀ T a, all_previewed seen T → all_previewed (seen ++ [r])
    (T ++ [preview_call (requested_id (length steps) r) (d_name d) (pc_arguments r) a])) as Hcall.
  { intros T a HT. unfold all_previewed in *. by rewrite requested_ids_snoc, !fmap_app, HT, El. }
  eapply hoare_bind.
  { apply hoare_step_error, hoare_perform_as with (Q := λ _, all_previewed (seen ++ [r])); [intros ? T; apply Hcall|].
    intros T HT. by apply HX', Hcall. }
  intros preview. eapply hoare_bind; [apply hoare_quietly; exact HX'|]. intros required.
  apply hoare_bind_lift; [intros st; apply HX'|intros b Hb].
  apply hoare_bind_lift; [intros st; apply HX'|intros mode Hmode].
  apply hoare_bind_lift; [intros st; apply HX'|intros journal Hj]. apply hoare_ret.
  intros st Hst. split; [|done]. split; simpl.
  - rewrite fmap_app, requested_ids_snoc, Hids. simpl. by rewrite El.
  - rewrite existsb_app. simpl. by rewrite Hrc, orb_false_r.
  - apply grows_snoc. split; [done|]. destruct g as [g1 g2 g3].
    apply prepare_step_ok with (seen := seen); try done; [lia|by rewrite El|by eapply journal_class].
  - apply Forall_app. by repeat constructor.
Qed.

Lemma prepare_spec requests :
  Forall request_ok requests →
  hoare (tr (λ T, T = [])) (prepare reg requests)
    (λ p st, tr (all_previewed requests) st ∧ plan_ok p ∧
       s_step_id <$> p_steps p = requested_ids requests ∧
       Forall (λ s, s_state s = Previewed) (p_steps p) ∧
       p_requires_confirmation p = existsb s_approval_required (p_steps p) ∧
       p_state p = (if p_requires_confirmation p then AwaitingConfirmation else Authorized))
    (tr (previews requests)).
Proof.
  intros Hreq. assert (∀ st : run W, tr (λ T, T = []) st → tr (previews requests) st) as HX.
  { intros st Hst. exists 0%nat. unfold tr in Hst. by rewrite Hst. }
  unfold prepare, _MAX_EFFECT_STEPS. apply hoare_bind_lift; [done|intros ? Hlen].
  apply hoare_bind_lift; [done|intros known Hval]. result_inv.
  match goal with H : (_ <=? _)%nat = true, H' : (_ <=? 5) = true |- _ =>
    apply Nat.leb_le in H; apply Z.leb_le in H' end.
  eapply hoare_bind.
  { eapply hoare_conseq with (P' := λ st, prepared [] ([], false) ∧ tr (all_previewed []) st);
      [apply (hoare_fold (λ seen acc st, prepared seen acc ∧ tr (all_previewed seen) st))
      | |intros acc st Hst; exact Hst|intros st Hst; exact Hst].
    - intros seen r rest acc Heq. eapply hoare_pure; [by intros st []|intros Hacc].
      eapply hoare_conseq with (P' := tr (all_previewed seen));
        [|by intros st []|intros acc' st Hst; exact Hst|intros st Hst; exact Hst].
      rewrite Heq in *. by eapply prepare_step_spec; [lia|..].
    - intros st Hst. split; [|unfold tr in *; by rewrite Hst]. split; [done|done|apply grows_nil|constructor]. }
  intros [steps rc]. intros st [[Hids Hrc Hg Hp] Hst]. simpl in *.
  pose proof (assigned_plan_ok steps (if rc then AwaitingConfirmation else Authorized) rc) as Hok.
  assert (NoDup (s_step_id <$> steps)) as Hnd.
  { eapply grows_nodup, Hg. intros pre s Hs. apply (so_new _ _ Hs). }
  pose proof (assign_units_spec steps Hnd) as Ha.
  destruct (_assign_recovery_units steps) as [units steps']. destruct Ha as [_ Ha]. simpl.
  split_and!; [done| | | | |done].
  - apply Hok; [|done]. apply (f_equal length) in Hids.
    rewrite length_fmap, requested_ids_length in Hids. lia.
  - by rewrite <- (assigned_ids steps'), Ha, assigned_ids.
  - assert (Forall (eq Previewed) (s_state <$> steps')) as Hf.
    { rewrite (assigned_field s_state _ _ Ha) by done. apply Forall_fmap.
      eapply Forall_impl; [done|]. intros s Hs. by symmetry. }
    rewrite Forall_fmap in Hf. eapply Forall_impl; [exact Hf|]. intros s Hs. by symmetry.
  - rewrite Hrc, !(existsb_fmap s_approval_required).
    by rewrite (assigned_field s_approval_required _ _ Ha).
Qed.

(** prepare returns a plan that validates, with one previewed step per request in the order
    asked, and awaits confirmation exactly when a step needs approval. *)
Theorem prepare_sound requests w p st :
  Forall request_ok requests → prepare reg requests (MkRun w []) = (Ok p, st) →
  _validated_plan (plan_payload p) = Ok p ∧
  preview_of <$> r_trace st = Some <$> requested_ids requests ∧
  s_step_id <$> p_steps p = requested_ids requests ∧
  Forall (λ s, s_state s = Previewed) (p_steps p) ∧
  p_requires_confirmation p = existsb s_approval_required (p_steps p) ∧
  p_state p = (if p_requires_confirmation p then AwaitingConfirmation else Authorized).
Proof.
  intros Hreq H. pose proof (prepare_spec requests Hreq (MkRun w []) eq_refl) as Hs. rewrite H in Hs.
  destruct Hs as (HT & Hok & Hrest). split_and!; [by apply plan_payload_build|done|apply Hrest..].
Qed.

(** Whether it returns or raises, [prepare] only calls previews, in the order of the requests. *)
Theorem prepare_only_previews requests w :
  Forall request_ok requests →
  ∃ n, preview_of <$> r_trace (prepare reg requests (MkRun w [])).2 = Some <$> take n (requested_ids requests).
Proof.
  intros Hreq. pose proof (prepare_spec requests Hreq (MkRun w []) eq_refl) as Hs.
  destruct (prepare reg requests (MkRun w [])) as [[p|err] st]; [|exact Hs].
  destruct Hs as [HT _]. exists (length (requested_ids requests)). by rewrite take_ge by lia.
Qed.
End prepare.

(** * Agent: a concrete executor

    A small instance of [PlanExecutor], a registry with one capability and a plan of two
    dependent steps, on which the theorems about plans are exercised. *)
Local Open Scope Z_scope.

(** A world whose tokens repeat with period three. *)
Inductive clock : Type := Tick0 | Tick1 | Tick2.

Definition tick (c : clock) : pystr * clock :=
  match c with
  | Tick0 => (replicate 32 97%N, Tick1)
  | Tick1 => (replicate 32 98%N, Tick2)
  | Tick2 => (replicate 32 99%N, Tick0)
  end.

#[export] Instance sample_executor : PlanExecutor clock unit := {
  result_data _ := [(u "outcome", VStr (u "done"))];
  ex_preview _ _ _ w := (Ok (MkPreview [] (u "fp")), w);
  ex_execute _ _ _ _ w := (Ok tt, w);
  ex_verify _ _ _ _ w := (Ok (MkVerification true []), w);
  ex_approval_required _ _ w := (Ok false, w);
  ex_token_hex := tick }.

Lemma sample_token_format w t :
  t ∈ tokens w → length t = 32%nat ∧ Forall (λ c, in_ranges hexdigits c = true) t.
Proof.
  assert (∀ c, in_ranges hexdigits c = true →
    length (replicate 32 c) = 32%nat ∧ Forall (λ c, in_ranges hexdigits c = true) (replicate 32 c)) as H.
  { intros c Hc. split; [done|]. by apply Forall_replicate. }
  destruct w; unfold tokens; cbn [ex_token_hex sample_executor tick]; intros Ht;
    repeat (apply elem_of_cons in Ht as [->|Ht]; [by apply H|]); by apply not_elem_of_nil in Ht.
Qed.

Lemma sample_token_fresh w : NoDup (tokens w).
Proof. destruct w; apply (bool_decide_unpack _); vm_compute; exact I. Qed.

Definition note : CapabilityDefinition :=
  MkDefinition (u "a.b") (u "Note.") [(u "type", VStr (u "object"))] [(u "type", VStr (u "object"))]
    RiskWrite InternalReversible (u "Note") (u "1") ExposePlan ApprovalPolicy [] [] [] [] true None 4
    16384 98304 [] [] None true true false.
Definition sample_registry : registry := {[ u "a.b" := note ]}.

Definition sample_requests : list PlannedCapability :=
  [MkPlanned (u "a.b") [] (u "First") [] [];
   MkPlanned (u "a.b") [] (u "Second") [] [u "step-1"]].

Definition sample_plan : plan :=
  Eval vm_compute in
    result_or (MkPlan Rejected false [] []) (prepare sample_registry sample_requests (MkRun Tick0 [])).1.

Definition commit : option (clock → result plan_exn unit * clock) := Some (λ w, (Ok tt, w)).

Lemma requests_ok : Forall request_ok sample_requests.
Proof. repeat constructor; simpl; try lia; set_solver. Qed.

Lemma prepare_sound_witness :
  _validated_plan (plan_payload sample_plan) = Ok sample_plan.
Proof.
  refine (proj1 (prepare_sound sample_registry sample_token_format sample_token_fresh
                   sample_requests Tick0 _ _ requests_ok _)).
  vm_compute. reflexivity.
Defined.

Lemma prepare_only_previews_witness :
  ∃ n, preview_of <$> r_trace (prepare sample_registry sample_requests (MkRun Tick0 [])).2 =
       Some <$> take n (requested_ids sample_requests).
Proof.
  exact (prepare_only_previews sample_registry sample_token_format sample_token_fresh
           sample_requests Tick0 requests_ok).
Defined.

(** The stored plan is accepted, and executes to its end. *)
Lemma sample_plan_stored : _validated_plan (plan_payload sample_plan) = Ok sample_plan.
Proof. vm_compute. reflexivity. Qed.

Lemma sample_plan_ok : plan_ok sample_plan.
Proof. exact (validated_plan_wf _ _ sample_plan_stored). Qed.

Definition sample_run : result plan_exn (plan * list unit) * run clock :=
  execute sample_registry true commit None (plan_payload sample_plan) (MkRun Tick0 []).

Definition sample_done : plan * list unit :=
  Eval vm_compute in result_or (sample_plan, []) sample_run.1.
Definition sample_end : run clock := Eval vm_compute in sample_run.2.

Lemma execute_completes_witness :
  ∃ p cs (e : exec (R := unit)),
    open_plan sample_registry (W := clock) None (plan_payload sample_plan) = Ok (p, cs, e) ∧
    executed_plan p (r_trace sample_end) sample_done.1 sample_done.2.
Proof.
  refine (execute_completes sample_registry true commit None (plan_payload sample_plan) Tick0
            sample_done.1 sample_done.2 sample_end _).
  vm_compute. reflexivity.
Defined.

Definition sample_opened : plan * contracts * exec (R := unit) :=
  Eval vm_compute in
    result_or (sample_plan, [], MkExec [] [] [] [] [] false)
      (open_plan sample_registry (W := clock) None (plan_payload sample_plan)).

Lemma open_plan_guarded_witness : p_state sample_opened.1.1 = Authorized ∨ p_state sample_opened.1.1 = PlanExecuting.
Proof.
  refine (proj1 (proj2 (open_plan_guarded sample_registry (W := clock) None (plan_payload sample_plan)
            sample_opened.1.1 sample_opened.1.2 sample_opened.2 _))).
  vm_compute. reflexivity.
Defined.

Lemma sample_names name d :
  sample_registry !! name = Some d → fullmatch _NAME_RE (d_name d) = true.
Proof.
  unfold sample_registry. intros [_ <-]%lookup_singleton_Some. vm_compute. reflexivity.
Qed.

Lemma approval_refines_exact_witness :
  ∃ original repaired,
    _validated_plan (plan_payload sample_plan) = Ok original ∧
    _validated_plan (plan_payload sample_plan) = Ok repaired ∧
    (true = true ↔ ∀ s, s ∈ p_steps repaired →
       in_scope sample_registry (p_steps original) (p_steps repaired) s).
Proof.
  refine (approval_refines_exact sample_registry sample_names (plan_payload sample_plan)
            (plan_payload sample_plan) true _).
  vm_compute. reflexivity.
Defined.

Lemma plan_payload_roundtrip_witness : _validated_plan (plan_payload sample_plan) = Ok sample_plan.
Proof. exact (plan_payload_roundtrip sample_plan sample_plan_ok). Defined.

Lemma validated_plan_sound_witness : plan_ok sample_plan ∧ NoDup (s_step_id <$> p_steps sample_plan).
Proof.
  destruct (validated_plan_sound _ _ sample_plan_stored) as (H1 & H2 & _). split; [exact H1|exact H2].
Defined.

Lemma assigned_units_validate_witness :
  let '(units, steps') := _assign_recovery_units (p_steps sample_plan) in
  unassigned <$> steps' = unassigned <$> p_steps sample_plan ∧ maximal_units units ∧
  _validated_recovery_units (VList (unit_payload <$> units)) steps' = Ok units.
Proof.
  refine (assigned_units_validate (p_steps sample_plan) _ _).
  - exact (steps_nodup _ (po_steps _ sample_plan_ok)).
  - discriminate.
Defined.
