(* ===== verification/WorkingTranscript.v ===== *)
(** * Agent: working transcript

    [runtime/agent/working_transcript.py]: the bounded private transcript of an agent turn,
    loaded from stored JSON and extended item by item. *)
From S2P Require Import Prelude PyText Regex PyValue Json.
Local Open Scope Z_scope.

Definition _ALLOWED_KINDS : list pystr :=
  [u "user_input"; u "assistant_decision"; u "task_plan"; u "task_plan_error"; u "capability_call";
   u "capability_result"; u "capability_error"; u "plan_step_proposed"; u "plan_prepared";
   u "plan_execution_error"; u "verified_effect_receipt"; u "final_answer"].
Definition _CALL_ID_RE : regex :=
  RRep (RSet (upper ++ lower ++ digit ++ chars (u "_.:-"))) 1 256.
Definition MAX_TRANSCRIPT_BYTES : Z := 128 * 1024.
Definition MAX_RESULT_BYTES : Z := 32 * 1024.

Inductive transcript_exn : Type :=
| WorkingTranscriptError (code : pystr)
| TranscriptTypeError.

Definition transcript_error (code : pystr) : transcript_exn :=
  WorkingTranscriptError (u "agent_working_" ++ code).
Definition transcript_invalid : transcript_exn := transcript_error (u "transcript_invalid").
Definition transcript_too_large : transcript_exn := transcript_error (u "transcript_too_large").

Record WorkingItem := MkItem { wi_sequence : Z; wi_kind : pystr; wi_data : pydict }.

(** [WorkingItem.payload] *)
Definition item_payload (x : WorkingItem) : pyval :=
  VDict [(u "sequence", VInt (wi_sequence x)); (u "kind", VStr (wi_kind x));
         (u "data", VDict (wi_data x))].

(** The size of the serialised value. *)
Definition json_bytes (v : pyval) : option Z :=
  t ← json_dumps false v; b ← utf8_encode t; Some (Z.of_nat (length b)).

Definition _bounded (v : pyval) (maximum : Z) (code : transcript_exn) : result transcript_exn unit :=
  n ← of_option (json_bytes v) code;
  raise_when (maximum <? n) code.

Definition _canonical (v : pyval) : result transcript_exn pystr :=
  of_option (json_dumps false v) transcript_invalid.

Definition result_kinds : list pystr :=
  [u "capability_result"; u "capability_error"; u "plan_execution_error"; u "verified_effect_receipt"].
Definition call_kinds : list pystr :=
  [u "assistant_decision"; u "capability_call"; u "capability_result"; u "capability_error";
   u "plan_step_proposed"].
Definition terminal_kinds : list pystr := [u "capability_result"; u "capability_error"].

Definition call_id (x : WorkingItem) : pyval := get (u "call_id") (wi_data x).

Definition item_limit (kind : pystr) : Z :=
  if mem kind result_kinds then MAX_RESULT_BYTES else 16 * 1024.

Definition _validate_item (x : WorkingItem) : result transcript_exn unit :=
  raise_when (negb (mem (wi_kind x) _ALLOWED_KINDS)) (transcript_error (u "item_kind_invalid"));;
  _bounded (VDict (wi_data x)) (item_limit (wi_kind x)) (transcript_error (u "item_too_large"));;
  raise_when (match call_id x with
              | VNone => false
              | VStr s => negb (fullmatch _CALL_ID_RE s)
              | _ => true
              end) (transcript_error (u "call_id_invalid"));;
  raise_when (mem (wi_kind x) call_kinds && is_none (call_id x))
    (transcript_error (u "call_id_missing")).

(** The tuple a decision is compared by. *)
Abbreviation signature := (pyval * pyval * pystr)%type.
Definition signature_eq (a b : signature) : bool :=
  py_eq a.1.1 b.1.1 && py_eq a.1.2 b.1.2 && str_eqb a.2 b.2.

(** [d.get(key)] in a dict keyed by arbitrary hashable values *)
Fixpoint key_lookup {A} (k : pyval) (d : list (pyval * A)) : option A :=
  match d with
  | [] => None
  | (k', a) :: d => if py_eq k k' then Some a else key_lookup k d
  end.

(** The turn of the loop: [decisions] and [terminals]. *)
Definition check_call_id (acc : list (pyval * signature) * list pyval) (x : WorkingItem)
    : result transcript_exn (list (pyval * signature) * list pyval) :=
  let '(decisions, terminals) := acc in
  let id := call_id x in
  decisions ←
    (if str_eqb (wi_kind x) (u "assistant_decision") && negb (is_none id) then
       arguments ← _canonical (get_default (u "arguments") (VDict []) (wi_data x));
       let s := (get (u "decision_kind") (wi_data x), get (u "capability") (wi_data x), arguments) in
       raise_when (negb (hashable id)) TranscriptTypeError;;
       match key_lookup id decisions with
       | Some existing =>
           raise_when (negb (signature_eq existing s)) (transcript_error (u "call_id_conflict"));;
           Err (transcript_error (u "call_id_duplicate"))
       | None => Ok (decisions ++ [(id, s)])
       end
     else Ok decisions);
  if mem (wi_kind x) terminal_kinds then
    raise_when (negb (hashable id)) TranscriptTypeError;;
    raise_when (existsb (py_eq id) terminals) (transcript_error (u "call_terminal_duplicate"));;
    Ok (decisions, terminals ++ [id])
  else Ok (decisions, terminals).

Definition _validate_call_ids (items : list WorkingItem) : result transcript_exn unit :=
  foldR check_call_id ([], []) items;; Ok tt.

Definition payload_of (items : list WorkingItem) : pyval := VList (item_payload <$> items).

Definition validate_transcript (items : list WorkingItem) : result transcript_exn (list WorkingItem) :=
  _validate_call_ids items;;
  _bounded (payload_of items) MAX_TRANSCRIPT_BYTES transcript_too_large;;
  Ok items.

(** The turn of the loop of [load_working_transcript] at [position = length acc + 1]. *)
Definition load_item (acc : list WorkingItem) (v : pyval) : result transcript_exn (list WorkingItem) :=
  let position := Z.of_nat (length acc) + 1 in
  raw ← of_option (as_dict v) transcript_invalid;
  raise_when (negb (has_keys raw [u "sequence"; u "kind"; u "data"])) transcript_invalid;;
  raise_when (negb (eq_int (get (u "sequence") raw) position)) transcript_invalid;;
  raise_any [negb <$> of_option (in_str_set (get (u "kind") raw) _ALLOWED_KINDS) TranscriptTypeError]
    transcript_invalid;;
  kind ← of_option (as_str (get (u "kind") raw)) transcript_invalid;
  data ← of_option (as_dict (get (u "data") raw)) transcript_invalid;
  let item := MkItem position kind data in
  _validate_item item;;
  Ok (acc ++ [item]).

Definition load_working_transcript (value : pyval) : result transcript_exn (list WorkingItem) :=
  if existsb (py_eq value) [VNone; VBool false; VList []] then Ok []
  else
    raw ← of_option (as_list value) transcript_invalid;
    items ← foldR load_item [] raw;
    validate_transcript items.

Definition append_working_item (items : list WorkingItem) (kind : pystr) (data : pydict)
    : result transcript_exn (list WorkingItem) :=
  let candidate := MkItem (Z.of_nat (length items) + 1) kind data in
  _validate_item candidate;;
  validate_transcript (items ++ [candidate]).

Definition transcript_payload (items : list WorkingItem) : result transcript_exn pyval :=
  load_working_transcript (payload_of items);; Ok (payload_of items).

Definition working_transcript_bytes (items : list WorkingItem) : result transcript_exn Z :=
  of_option (json_bytes (payload_of items)) transcript_invalid.

(** [call_state]: [None], or the state of the call. *)
Inductive call_state_value : Type := CallPending | CallProposed | CallCompleted.

Definition call_state_step (id : pystr) (state : option call_state_value) (x : WorkingItem)
    : option call_state_value :=
  if negb (py_eq (call_id x) (VStr id)) then state
  else if mem (wi_kind x) terminal_kinds then Some CallCompleted
  else if str_eqb (wi_kind x) (u "plan_step_proposed") then Some CallProposed
  else if mem (wi_kind x) [u "assistant_decision"; u "capability_call"]
          && bool_decide (state = None) then Some CallPending
  else state.

Definition call_state (items : list WorkingItem) (id : pystr) : option call_state_value :=
  foldl (call_state_step id) None items.

(** * Agent: correctness of the working transcript

    The invariant of a transcript, that every operation keeps it, the round trip through the
    stored form and the life of a call identifier. *)
Local Open Scope Z_scope.

#[local] Arguments fullmatch : simpl never.
#[local] Arguments json_bytes : simpl never.
#[local] Arguments eq_int : simpl never.

(** ** The invariant *)

(** An item is of a known kind, within its size, and carries an identifier when its kind
    belongs to a call. *)
Record item_ok (x : WorkingItem) : Prop := {
  io_kind : wi_kind x ∈ _ALLOWED_KINDS;
  io_size : ∃ n, json_bytes (VDict (wi_data x)) = Some n ∧ n ≤ item_limit (wi_kind x);
  io_call : match call_id x with
            | VNone => wi_kind x ∉ call_kinds
            | VStr s => fullmatch _CALL_ID_RE s = true
            | _ => False
            end }.

Definition numbered (pre : list WorkingItem) (x : WorkingItem) : Prop :=
  wi_sequence x = Z.of_nat (length pre) + 1 ∧ item_ok x.

(** The identifiers that decisions and terminal items carry. *)
Definition ids_of (kinds : list pystr) (items : list WorkingItem) : list pystr :=
  omap (λ x, if mem (wi_kind x) kinds then as_str (call_id x) else None) items.
Definition decision_kinds : list pystr := [u "assistant_decision"].

Record transcript_ok (items : list WorkingItem) : Prop := {
  tk_items : grows numbered items;
  tk_decisions : NoDup (ids_of decision_kinds items);
  tk_terminals : NoDup (ids_of terminal_kinds items);
  tk_size : ∃ n, json_bytes (payload_of items) = Some n ∧ n ≤ MAX_TRANSCRIPT_BYTES }.

(** ** Items *)

Lemma bounded_Ok v maximum code x :
  _bounded v maximum code = Ok x ↔ ∃ n, json_bytes v = Some n ∧ n ≤ maximum.
Proof.
  unfold _bounded. destruct (json_bytes v) as [n|]; simpl; [|naive_solver].
  rewrite raise_when_Ok, Z.ltb_ge. naive_solver.
Qed.

Lemma validate_item_ok x : _validate_item x = Ok tt ↔ item_ok x.
Proof.
  unfold _validate_item. split.
  - intros H. result_inv.
    match goal with H : _bounded _ _ _ = Ok _ |- _ => apply bounded_Ok in H end.
    match goal with H : mem _ _ = true |- _ => apply mem_true in H end.
    split; [done|done|]. destruct (call_id x); try done; [|by result_inv].
    intros Hin. match goal with H : mem _ _ && _ = false |- _ => rewrite (proj2 (mem_true _ _) Hin) in H; done end.
  - intros [Hk Hs Hc]. rewrite (proj2 (mem_true _ _) Hk). cbn [negb raise_when mbind result_bind].
    rewrite (proj2 (bounded_Ok _ _ _ tt) Hs). cbn [mbind result_bind].
    destruct (call_id x); try done; simpl.
    + rewrite (proj2 (mem_false _ _) Hc). done.
    + rewrite Hc. simpl. by rewrite andb_false_r.
Qed.

(** The members of a serialisable dict are serialisable. *)
Lemma json_dumps_member b d t k v :
  json_dumps b (VDict d) = Some t → dict_lookup k d = Some v → is_Some (json_dumps b v).
Proof.
  simpl. intros H. match type of H with (?go d ≫= _) = _ => set (f := go) in H end.
  apply bind_Some in H as (ts & Hts & _). revert ts Hts.
  induction d as [|[k' v'] d IH]; intros ts Hts; simpl; [done|]. simpl in Hts.
  apply bind_Some in Hts as (t' & Ht' & Hts). apply bind_Some in Hts as (ts' & Hts & _).
  case_match; [intros [= <-]; eauto|]. by eapply IH.
Qed.

Lemma arguments_canonical x : item_ok x →
  ∃ s, _canonical (get_default (u "arguments") (VDict []) (wi_data x)) = Ok s.
Proof.
  intros [_ (n & Hn & _) _]. unfold _canonical, get_default, json_bytes in *.
  apply bind_Some in Hn as (t & Ht & _).
  destruct (dict_lookup (u "arguments") (wi_data x)) as [v|] eqn:E; simpl.
  - destruct (json_dumps_member _ _ _ _ _ Ht E) as [s Hs]. rewrite Hs. simpl. eauto.
  - eauto.
Qed.

(** ** Call identifiers *)

Lemma ids_of_snoc kinds items x :
  ids_of kinds (items ++ [x]) =
  ids_of kinds items ++ (if mem (wi_kind x) kinds then option_list (as_str (call_id x)) else []).
Proof.
  unfold ids_of. rewrite omap_app. simpl. case_bool; [|done]. by destruct (as_str (call_id x)).
Qed.

Lemma call_id_str x kinds : item_ok x → wi_kind x ∈ kinds → kinds ⊆ call_kinds →
  ∃ s, call_id x = VStr s.
Proof. intros [_ _ Hc] Hk Hsub. destruct (call_id x); try done; [|eauto]. destruct Hc. by apply Hsub. Qed.

Lemma key_lookup_strs {A} s (d : list (pyval * A)) ids :
  d.*1 = VStr <$> ids → key_lookup (VStr s) d = None ↔ s ∉ ids.
Proof.
  revert ids. induction d as [|[k a] d IH]; intros ids E; destruct ids as [|i ids]; try done.
  - simpl. split; [set_solver|done].
  - simpl in E. injection E as -> E. simpl. destruct (str_eqb s i) eqn:Es.
    + apply str_eqb_true in Es as ->. set_solver.
    + apply str_eqb_false in Es. rewrite (IH ids) by done. set_solver.
Qed.

Lemma existsb_strs s ids : existsb (py_eq (VStr s)) (VStr <$> ids) = false ↔ s ∉ ids.
Proof.
  rewrite existsb_false. split.
  - intros H Hin. assert (py_eq (VStr s) (VStr s) = true) as Hs by by apply str_eqb_true.
    rewrite H in Hs; [done|]. apply list_elem_of_fmap. eauto.
  - intros Hn v (i & -> & Hi)%list_elem_of_fmap. apply str_eqb_false. by intros ->.
Qed.

(** What the loop has recorded after the items, when it has not raised. *)
Definition recorded_ids (items : list WorkingItem) (acc : list (pyval * signature) * list pyval) : Prop :=
  acc.1.*1 = VStr <$> ids_of decision_kinds items ∧ acc.2 = VStr <$> ids_of terminal_kinds items.

Lemma decision_kind_mem x : mem (wi_kind x) decision_kinds = str_eqb (wi_kind x) (u "assistant_decision").
Proof.
  destruct (str_eqb _ _) eqn:E.
  - apply str_eqb_true in E. apply mem_true. rewrite E. by left.
  - apply str_eqb_false in E. apply mem_false. by intros ?%list_elem_of_singleton.
Qed.

(** The item's identifier is new among the items of its kinds. *)
Definition fresh (kinds : list pystr) (items : list WorkingItem) (x : WorkingItem) : Prop :=
  ∀ s, wi_kind x ∈ kinds → call_id x = VStr s → s ∉ ids_of kinds items.

Lemma ids_nodup_snoc kinds items x :
  NoDup (ids_of kinds (items ++ [x])) ↔ NoDup (ids_of kinds items) ∧ fresh kinds items x.
Proof.
  rewrite ids_of_snoc. unfold fresh. destruct (mem (wi_kind x) kinds) eqn:Hk.
  - apply mem_true in Hk. destruct (call_id x); simpl; rewrite ?app_nil_r; try naive_solver.
    rewrite NoDup_app. split.
    + intros (Hnd & Hdis & _). split; [done|]. intros s' _ [= <-] Hin. apply (Hdis _ Hin). by left.
    + intros [Hnd Hf]. split_and!; [done| |apply NoDup_singleton].
      intros y Hy ->%list_elem_of_singleton. by apply (Hf _ Hk eq_refl).
  - apply mem_false in Hk. rewrite app_nil_r. naive_solver.
Qed.

Lemma check_decision items acc x s :
  item_ok x → recorded_ids items acc → wi_kind x = u "assistant_decision" → call_id x = VStr s →
  match check_call_id acc x with
  | Ok acc' => (s ∉ ids_of decision_kinds items) ∧ recorded_ids (items ++ [x]) acc'
  | Err _ => s ∈ ids_of decision_kinds items
  end.
Proof.
  intros Hx [Hd Ht] Hk Hs. destruct acc as [decisions terminals]. simpl in Hd, Ht.
  destruct (arguments_canonical x Hx) as [args Hargs].
  unfold check_call_id. rewrite Hs, Hargs, Hk.
  change (str_eqb (u "assistant_decision") (u "assistant_decision")) with true.
  change (mem (u "assistant_decision") terminal_kinds) with false.
  cbn [is_none negb andb mbind result_bind hashable raise_when].
  pose proof (key_lookup_strs s decisions _ Hd) as Hl.
  destruct (key_lookup (VStr s) decisions) as [old|].
  - destruct (raise_when _ _); simpl; destruct (decide (s ∈ ids_of decision_kinds items)); naive_solver.
  - cbn [mbind result_bind]. split; [by apply Hl|]. split; simpl.
    + rewrite ids_of_snoc, Hk, Hs, !fmap_app, Hd. done.
    + rewrite ids_of_snoc, Hk, Ht. by rewrite app_nil_r.
Qed.

Lemma check_terminal items acc x s :
  recorded_ids items acc → wi_kind x ∈ terminal_kinds → call_id x = VStr s →
  match check_call_id acc x with
  | Ok acc' => (s ∉ ids_of terminal_kinds items) ∧ recorded_ids (items ++ [x]) acc'
  | Err _ => s ∈ ids_of terminal_kinds items
  end.
Proof.
  intros [Hd Ht] Hk Hs. destruct acc as [decisions terminals]. simpl in Hd, Ht. subst terminals.
  assert (str_eqb (wi_kind x) (u "assistant_decision") = false) as Hne.
  { apply str_eqb_false. intros E. rewrite E in Hk. by apply mem_true in Hk. }
  unfold check_call_id. rewrite Hs, Hne, (proj2 (mem_true _ _) Hk).
  cbn [andb mbind result_bind negb hashable raise_when].
  pose proof (existsb_strs s (ids_of terminal_kinds items)) as He.
  destruct (existsb _ _); cbn [raise_when mbind result_bind].
  - destruct (decide (s ∈ ids_of terminal_kinds items)); naive_solver.
  - split; [by apply He|]. split; simpl.
    + rewrite ids_of_snoc, decision_kind_mem, Hne, app_nil_r. done.
    + rewrite ids_of_snoc, (proj2 (mem_true _ _) Hk), Hs, fmap_app. done.
Qed.

Lemma check_other acc items x :
  recorded_ids items acc → wi_kind x ∉ decision_kinds → wi_kind x ∉ terminal_kinds →
  check_call_id acc x = Ok acc ∧ recorded_ids (items ++ [x]) acc.
Proof.
  intros [Hd Ht] H1%mem_false H2%mem_false. pose proof (decision_kind_mem x) as E. rewrite H1 in E.
  destruct acc as [decisions terminals]. unfold check_call_id. rewrite <- E, H2.
  split; [done|]. split; simpl; by rewrite ids_of_snoc, ?H1, ?H2, app_nil_r.
Qed.

(** One turn of the loop raises exactly when an identifier is used again. *)
Lemma check_call_id_spec items acc x :
  item_ok x → recorded_ids items acc →
  match check_call_id acc x with
  | Ok acc' => recorded_ids (items ++ [x]) acc' ∧ fresh decision_kinds items x ∧ fresh terminal_kinds items x
  | Err _ => ¬ (fresh decision_kinds items x ∧ fresh terminal_kinds items x)
  end.
Proof.
  intros Hx Hr. unfold fresh.
  assert (∀ k, k ∈ decision_kinds → k ∉ terminal_kinds) as Hdis.
  { intros k ->%list_elem_of_singleton. by apply mem_false. }
  destruct (decide (wi_kind x ∈ decision_kinds)) as [Hk|Hk];
    [|destruct (decide (wi_kind x ∈ terminal_kinds)) as [Hk'|Hk']].
  - destruct (call_id_str x decision_kinds Hx Hk) as [s Hs]; [apply (bool_decide_unpack _); vm_compute; exact I|].
    pose proof (check_decision items acc x s Hx Hr (proj1 (list_elem_of_singleton _ _) Hk) Hs).
    pose proof (Hdis _ Hk). rewrite Hs. case_match; naive_solver.
  - destruct (call_id_str x terminal_kinds Hx Hk') as [s Hs]; [apply (bool_decide_unpack _); vm_compute; exact I|].
    pose proof (check_terminal items acc x s Hr Hk' Hs). rewrite Hs. case_match; naive_solver.
  - destruct (check_other acc items x Hr Hk Hk') as [-> ?]. naive_solver.
Qed.

Lemma check_call_ids_spec items :
  Forall item_ok items →
  match foldR check_call_id ([], []) items with
  | Ok acc => recorded_ids items acc ∧ NoDup (ids_of decision_kinds items) ∧ NoDup (ids_of terminal_kinds items)
  | Err _ => ¬ (NoDup (ids_of decision_kinds items) ∧ NoDup (ids_of terminal_kinds items))
  end.
Proof.
  induction items as [|x items IH] using rev_ind; intros H.
  - split; [done|]. split; constructor.
  - apply Forall_app in H as [H Hx]. apply Forall_cons in Hx as [Hx _]. specialize (IH H).
    pose proof (ids_nodup_snoc decision_kinds items x) as Ed.
    pose proof (ids_nodup_snoc terminal_kinds items x) as Et. rewrite foldR_app.
    destruct (foldR check_call_id ([], []) items) as [acc|e]; cbn [mbind result_bind];
      [|rewrite Ed, Et; naive_solver].
    destruct IH as (Hr & Hd & Ht). pose proof (check_call_id_spec items acc x Hx Hr) as Hc.
    simpl. destruct (check_call_id acc x) as [acc'|e]; simpl; rewrite Ed, Et; naive_solver.
Qed.

Lemma validate_call_ids_ok items :
  Forall item_ok items →
  _validate_call_ids items = Ok tt ↔
  NoDup (ids_of decision_kinds items) ∧ NoDup (ids_of terminal_kinds items).
Proof.
  intros H%check_call_ids_spec. unfold _validate_call_ids.
  destruct (foldR _ _ items); simpl; naive_solver.
Qed.

(** ** Whole transcripts *)

Lemma numbered_items items : grows numbered items → Forall item_ok items.
Proof. intros H. apply Forall_lookup. intros i x Hi. by apply (H i x Hi). Qed.

Lemma validate_transcript_ok items items' :
  grows numbered items → validate_transcript items = Ok items' ↔ items' = items ∧ transcript_ok items.
Proof.
  intros Hg. pose proof (validate_call_ids_ok _ (numbered_items _ Hg)) as Hids.
  unfold validate_transcript. split.
  - intros H. result_inv. destruct (proj1 Hids) as [Hd Ht]; [done|].
    match goal with H : _bounded _ _ _ = Ok _ |- _ => apply bounded_Ok in H end. done.
  - intros [-> [_ Hd Ht Hs]]. rewrite (proj2 Hids) by done. cbn [mbind result_bind].
    rewrite (proj2 (bounded_Ok _ _ _ tt) Hs). done.
Qed.

Lemma load_item_Ok acc v acc' : load_item acc v = Ok acc' → ∃ x, acc' = acc ++ [x] ∧ numbered acc x.
Proof.
  unfold load_item. intros H. result_inv. eexists. split; [reflexivity|]. split; [done|].
  by apply validate_item_ok.
Qed.

Lemma load_item_build acc x : numbered acc x → load_item acc (item_payload x) = Ok (acc ++ [x]).
Proof.
  intros [Hs Hx]. unfold load_item, item_payload. cbn [as_dict of_option mbind result_bind].
  set (d := [_; _; _]).
  assert (has_keys d [u "sequence"; u "kind"; u "data"] = true) as Hkeys by (vm_compute; reflexivity).
  change (get (u "sequence") d) with (VInt (wi_sequence x)).
  change (get (u "kind") d) with (VStr (wi_kind x)).
  change (get (u "data") d) with (VDict (wi_data x)). rewrite Hkeys.
  cbn [negb raise_when mbind result_bind]. rewrite <- Hs.
  assert (eq_int (VInt (wi_sequence x)) (wi_sequence x) = true) as ->.
  { unfold eq_int. simpl. by destruct (wi_sequence x); apply Z.eqb_refl. }
  cbn [negb raise_when mbind result_bind in_str_set hashable of_option fmap result_fmap].
  rewrite (proj2 (mem_true _ _) (io_kind _ Hx)).
  cbn [negb raise_any any_of raise_when mbind result_bind as_str as_dict of_option].
  assert (MkItem (wi_sequence x) (wi_kind x) (wi_data x) = x) as -> by by destruct x.
  by rewrite (proj2 (validate_item_ok x) Hx).
Qed.

Lemma append_Ok items kind data items' :
  transcript_ok items → append_working_item items kind data = Ok items' →
  items' = items ++ [MkItem (Z.of_nat (length items) + 1) kind data] ∧ transcript_ok items'.
Proof.
  intros [Hg _ _ _]. unfold append_working_item. intros H. result_inv.
  match goal with H : _validate_item _ = Ok _ |- _ => apply validate_item_ok in H as Hx end.
  apply validate_transcript_ok in H as [-> Hok]; [done|].
  apply grows_snoc. split; [done|]. by split.
Qed.

Lemma load_payload items : transcript_ok items → load_working_transcript (payload_of items) = Ok items.
Proof.
  intros H. unfold load_working_transcript, payload_of.
  destruct items as [|x items]; [reflexivity|].
  assert (existsb (py_eq (VList (item_payload <$> x :: items))) [VNone; VBool false; VList []] = false)
    as -> by done.
  cbn [as_list of_option mbind result_bind].
  rewrite (foldR_rebuild numbered _ item_payload []); [|apply load_item_build|apply H].
  cbn [mbind result_bind]. apply validate_transcript_ok; [apply H|done].
Qed.

Lemma empty_ok : transcript_ok [].
Proof.
  split; [apply grows_nil|constructor|constructor|]. exists 2. by vm_compute.
Qed.

(** Appending to a valid transcript gives a valid transcript with exactly one more item,
    numbered by its position, and within the size limit. *)
Theorem append_keeps_transcript items kind data items' :
  transcript_ok items → append_working_item items kind data = Ok items' →
  transcript_ok items' ∧ items' = items ++ [MkItem (Z.of_nat (length items) + 1) kind data] ∧
  ∃ n, working_transcript_bytes items' = Ok n ∧ n ≤ MAX_TRANSCRIPT_BYTES.
Proof.
  intros Hok H. destruct (append_Ok _ _ _ _ Hok H) as [E Hok']. split_and!; [done|done|].
  destruct (tk_size _ Hok') as (n & Hn & Hle). exists n. unfold working_transcript_bytes. by rewrite Hn.
Qed.

(** What loads is a valid transcript. *)
Theorem load_transcript_ok value items : load_working_transcript value = Ok items → transcript_ok items.
Proof.
  unfold load_working_transcript. case_bool; [intros [= <-]; apply empty_ok|]. intros H. result_inv.
  match goal with H : foldR _ _ _ = Ok _ |- _ =>
    apply (foldR_grows numbered) in H as [Hg _]; [|apply load_item_Ok|apply grows_nil] end.
  by apply validate_transcript_ok in H as [-> ?].
Qed.

(** A valid transcript is accepted by transcript_payload and its payload loads back to it.
    *)
Theorem transcript_roundtrip items :
  transcript_ok items →
  transcript_payload items = Ok (payload_of items) ∧
  load_working_transcript (payload_of items) = Ok items.
Proof.
  intros H%load_payload. split; [|done]. unfold transcript_payload. by rewrite H.
Qed.

(** After the terminal item of a call the call is completed, and every further terminal
    item for it is refused. *)
Theorem call_completes_once items kind data id items' :
  transcript_ok items → kind ∈ terminal_kinds → get (u "call_id") data = VStr id →
  append_working_item items kind data = Ok items' →
  call_state items' id = Some CallCompleted ∧
  ∀ kind' data', kind' ∈ terminal_kinds → get (u "call_id") data' = VStr id →
    ∃ e, append_working_item items' kind' data' = Err e.
Proof.
  intros Hok Hk Hid H. destruct (append_Ok _ _ _ _ Hok H) as [-> Hok']. set (x := MkItem _ kind data) in *.
  assert (call_id x = VStr id) as Hx by done. split.
  - unfold call_state. rewrite foldl_app. simpl. unfold call_state_step at 1. rewrite Hx.
    assert (py_eq (VStr id) (VStr id) = true) as -> by by apply str_eqb_true.
    simpl. by rewrite (proj2 (mem_true _ _) Hk).
  - intros kind' data' Hk' Hid'. destruct (append_working_item _ kind' data') as [items''|e] eqn:E; [|eauto].
    apply append_Ok in E as [-> [_ _ Ht _]]; [|done]. apply ids_nodup_snoc in Ht as [_ Hf].
    destruct (Hf id Hk' Hid'). rewrite ids_of_snoc, (proj2 (mem_true _ _) Hk), Hx. set_solver.
Qed.

(** ** A transcript of one call *)

Definition sample_call : pydict :=
  [(u "call_id", VStr (u "call-1")); (u "capability", VStr (u "a.b")); (u "arguments", VDict [])].
Definition sample_result : pydict := [(u "call_id", VStr (u "call-1")); (u "value", VInt 3)].
Definition sample_items : list WorkingItem := [MkItem 1 (u "assistant_decision") sample_call].

Lemma sample_items_ok : transcript_ok sample_items.
Proof. apply (append_Ok [] (u "assistant_decision") sample_call); [apply empty_ok|]. vm_compute. reflexivity. Qed.

Lemma append_keeps_transcript_witness :
  transcript_ok (sample_items ++ [MkItem 2 (u "capability_result") sample_result]).
Proof.
  refine (proj1 (append_keeps_transcript sample_items (u "capability_result") sample_result _
                   sample_items_ok _)).
  vm_compute. reflexivity.
Defined.

Lemma load_transcript_ok_witness : transcript_ok sample_items.
Proof. refine (load_transcript_ok (payload_of sample_items) sample_items _). vm_compute. reflexivity. Defined.

Lemma transcript_roundtrip_witness : transcript_payload sample_items = Ok (payload_of sample_items).
Proof. exact (proj1 (transcript_roundtrip sample_items sample_items_ok)). Defined.

Lemma call_completes_once_witness :
  call_state (sample_items ++ [MkItem 2 (u "capability_result") sample_result]) (u "call-1") =
    Some CallCompleted.
Proof.
  refine (proj1 (call_completes_once sample_items (u "capability_result") sample_result (u "call-1") _
                   sample_items_ok _ _ _)); [|reflexivity|vm_compute; reflexivity].
  by left.
Defined.
