(* ===== verification/AgentDecision.v ===== *)
(** * Agent: decisions

    [runtime/agent/contracts.py], [decision_validation.py] and [business_outcome.py]: what a
    provider may decide, how a decision is parsed and checked against the effective catalog, and
    the summary of a verified but incomplete outcome. *)
From S2P Require Import Prelude PyText Regex PyValue Json TaskPlan WorkingTranscript.
From S2P Require Import EffectPlan Capability CapabilityValidation.
From S2P Require Import Budgets.
Local Open Scope Z_scope.

(** ** Decisions *)

Definition _CAPABILITY_RE : regex := Capability._NAME_RE.
Definition _CONFIDENCE : list pystr := [u "high"; u "medium"; u "low"].
Definition _MAX_ARGUMENT_BYTES : Z := 16 * 1024.

(** The class of a decision fixes its [kind]. *)
Inductive NextDecision : Type :=
| FinalAnswer (answer confidence : pystr)
| TaskPlanUpdate (task_plan : TaskPlan)
| ReasoningCapabilityCall (call_id capability : pystr) (arguments : pydict)
| PlanStepProposal (call_id capability : pystr) (arguments : pydict) (user_summary : pystr).

Inductive decision_exn : Type :=
| NextDecisionError (code : pystr)
| DecisionTypeError.

Definition decision_error (code : pystr) : decision_exn := NextDecisionError (u "agent_next_decision_" ++ code).
Definition decision_invalid : decision_exn := decision_error (u "invalid").

(** [1 <= len(s.strip()) <= maximum] and no NUL *)
Definition stripped_ok (maximum : Z) (s : pystr) : bool :=
  (1 <=? Z.of_nat (length (strip s))) && (Z.of_nat (length (strip s)) <=? maximum) && negb (mem 0%N s).

Definition _call_id (v : pyval) : result decision_exn pystr :=
  s ← of_option (as_str v) (decision_error (u "call_id_invalid"));
  raise_when (negb (fullmatch _CALL_ID_RE s)) (decision_error (u "call_id_invalid"));;
  Ok s.

Definition _capability (v : pyval) : result decision_exn pystr :=
  s ← of_option (as_str v) (decision_error (u "capability_invalid"));
  raise_when (negb (fullmatch _CAPABILITY_RE s) || (128 <? Z.of_nat (length s)))
    (decision_error (u "capability_invalid"));;
  Ok s.

Definition _arguments (v : pyval) : result decision_exn pydict :=
  d ← of_option (as_dict v) (decision_error (u "arguments_invalid"));
  n ← of_option (json_bytes (VDict d)) (decision_error (u "arguments_invalid"));
  raise_when (_MAX_ARGUMENT_BYTES <? n) (decision_error (u "arguments_invalid"));;
  Ok d.

(** The exception of [parse_task_plan], as [except Exception] reads its code. *)
Definition task_plan_code (e : TaskPlan.plan_exn) : pystr :=
  match e with
  | TaskPlanError code => code
  | PlanTypeError => u "agent_task_plan_invalid"
  end.

Definition parse_next_decision (value : pyval) : result decision_exn NextDecision :=
  d ← of_option (as_dict value) decision_invalid;
  let kind k := py_eq (get (u "kind") d) (VStr k) in
  let keys_are ks := raise_when (negb (has_keys d ks)) decision_invalid in
  if kind (u "final_answer") then
    keys_are [u "kind"; u "answer"; u "confidence"];;
    answer ← of_option (as_str (get (u "answer") d)) decision_invalid;
    raise_when (negb (stripped_ok 16384 answer)) decision_invalid;;
    known ← of_option (in_str_set (get (u "confidence") d) _CONFIDENCE) DecisionTypeError;
    raise_when (negb known) decision_invalid;;
    confidence ← of_option (as_str (get (u "confidence") d)) decision_invalid;
    Ok (FinalAnswer (strip answer) confidence)
  else if kind (u "task_plan_update") then
    keys_are [u "kind"; u "task_plan"];;
    plan ← map_err (λ e, NextDecisionError (task_plan_code e)) (parse_task_plan (get (u "task_plan") d));
    Ok (TaskPlanUpdate plan)
  else if kind (u "reasoning_capability_call") then
    keys_are [u "kind"; u "call_id"; u "capability"; u "arguments"];;
    call_id ← _call_id (get (u "call_id") d);
    capability ← _capability (get (u "capability") d);
    arguments ← _arguments (get (u "arguments") d);
    Ok (ReasoningCapabilityCall call_id capability arguments)
  else if kind (u "plan_step_proposal") then
    keys_are [u "kind"; u "call_id"; u "capability"; u "arguments"; u "user_summary"];;
    summary ← of_option (as_str (get (u "user_summary") d)) decision_invalid;
    raise_when (negb (stripped_ok 512 summary)) decision_invalid;;
    call_id ← _call_id (get (u "call_id") d);
    capability ← _capability (get (u "capability") d);
    arguments ← _arguments (get (u "arguments") d);
    Ok (PlanStepProposal call_id capability arguments (normalize_ws summary))
  else Err (decision_error (u "kind_invalid")).

Definition decision_kind (x : NextDecision) : pystr :=
  match x with
  | FinalAnswer _ _ => u "final_answer"
  | TaskPlanUpdate _ => u "task_plan_update"
  | ReasoningCapabilityCall _ _ _ => u "reasoning_capability_call"
  | PlanStepProposal _ _ _ _ => u "plan_step_proposal"
  end.

(** [decision_payload] without its first key, [kind]. *)
Definition decision_fields (x : NextDecision) : pydict :=
  match x with
  | FinalAnswer answer confidence => [(u "answer", VStr answer); (u "confidence", VStr confidence)]
  | TaskPlanUpdate plan => [(u "task_plan", payload plan)]
  | ReasoningCapabilityCall call_id capability arguments =>
      [(u "call_id", VStr call_id); (u "capability", VStr capability); (u "arguments", VDict arguments)]
  | PlanStepProposal call_id capability arguments user_summary =>
      [(u "call_id", VStr call_id); (u "capability", VStr capability); (u "arguments", VDict arguments);
       (u "user_summary", VStr user_summary)]
  end.
Definition decision_payload (x : NextDecision) : pydict :=
  (u "kind", VStr (decision_kind x)) :: decision_fields x.

(** ** Validation against the catalog *)

(** What a refused decision carries: a decision, the revision of a plan that did not parse, or
    nothing the loop can record. *)
Inductive rejected_decision : Type :=
| Rejected (decision : NextDecision)
| RejectedTaskPlanUpdate (rejected_revision : option Z)
| RejectedNothing.

Inductive validation_exn : Type :=
| NextDecisionValidationError (code : pystr) (decision : rejected_decision)
| ValidationOther (e : EffectPlan.plan_exn).

Definition _allowed (name : pystr) (definitions : list CapabilityDefinition)
    : option CapabilityDefinition := list_find (λ d, d_name d = name) definitions ≫= λ p, Some p.2.

(** [except CapabilityError as error: raise NextDecisionValidationError(error.code, decision)] *)
Definition refused (decision : NextDecision) (e : EffectPlan.plan_exn) : validation_exn :=
  match e with
  | CapabilityError code _ => NextDecisionValidationError code (Rejected decision)
  | e => ValidationOther e
  end.

Definition check_call (decision : NextDecision) (capability : pystr) (arguments : pydict)
    (definitions : list CapabilityDefinition) (not_allowed invalid : pystr)
    : result validation_exn CapabilityDefinition :=
  d ← of_option (_allowed capability definitions) (NextDecisionValidationError not_allowed (Rejected decision));
  map_err (refused decision)
    (validate_payload (VDict arguments) (d_input_schema d) (d_max_input_bytes d) invalid);;
  Ok d.

(** [None] stands for an object that is no decision. *)
Definition validate_next_decision (decision : option NextDecision)
    (reasoning planning : list CapabilityDefinition) : result validation_exn NextDecision :=
  match decision with
  | None => Err (NextDecisionValidationError (u "agent_next_decision_invalid") RejectedNothing)
  | Some (FinalAnswer _ _ as x) => Ok x
  | Some (TaskPlanUpdate plan as x) =>
      plan ← map_err (λ e, NextDecisionValidationError (task_plan_code e) (Rejected x))
               (parse_task_plan (payload plan));
      Ok (TaskPlanUpdate plan)
  | Some (ReasoningCapabilityCall call_id capability arguments as x) =>
      d ← check_call x capability arguments reasoning (u "agent_reasoning_capability_not_allowed")
            (u "agent_capability_arguments_invalid");
      Ok (ReasoningCapabilityCall call_id (d_name d) arguments)
  | Some (PlanStepProposal call_id capability arguments user_summary as x) =>
      d ← check_call x capability arguments planning (u "agent_plan_capability_not_allowed")
            (u "agent_plan_arguments_invalid");
      Ok (PlanStepProposal call_id (d_name d) arguments (normalize_ws user_summary))
  end.

(** ** Verified but incomplete outcomes *)

Definition _BUSINESS_OUTCOMES : list pystr := [u "completed"; u "partial"; u "blocked"].
Definition _INCOMPLETE_OUTCOMES : list pystr := [u "partial"; u "blocked"].

(** The counts of [_COUNT_FIELDS], in its order. *)
Record outcome_counts := MkCounts {
  oc_count : Z; oc_requested : Z; oc_failed : Z; oc_excluded : Z }.

Definition exact_count (v : pyval) : option Z := z ← as_int v; if z <? 0 then None else Some z.

Definition _exact_counts (d : pydict) : option outcome_counts :=
  count ← exact_count (get (u "count") d);
  requested ← exact_count (get (u "requested_count") d);
  failed ← exact_count (get (u "failed_count") d);
  excluded ← exact_count (get (u "excluded_count") d);
  if requested <=? 0 then None
  else if negb (count + failed + excluded =? requested) then None
  else Some (MkCounts count requested failed excluded).

(** An unhashable outcome raises [TypeError] in the test of membership. *)
Definition normalized_business_outcome (v : pyval) : result unit (option (pystr * outcome_counts)) :=
  match v with
  | VDict d =>
      known ← of_option (in_str_set (get (u "outcome") d) _BUSINESS_OUTCOMES) tt;
      Ok (if known : bool then
            outcome ← as_str (get (u "outcome") d); counts ← _exact_counts d; Some (outcome, counts)
          else None)
  | _ => Ok None
  end.

Definition add_counts (a b : outcome_counts) : outcome_counts :=
  MkCounts (oc_count a + oc_count b) (oc_requested a + oc_requested b)
    (oc_failed a + oc_failed b) (oc_excluded a + oc_excluded b).

Definition step_outcome (acc : list (pystr * outcome_counts)) (step : pyval)
    : result unit (list (pystr * outcome_counts)) :=
  match step with
  | VDict d =>
      o ← normalized_business_outcome (get (u "result") d);
      Ok (match o with
          | Some p => if mem p.1 _INCOMPLETE_OUTCOMES then acc ++ [p] else acc
          | None => acc
          end)
  | _ => Ok acc
  end.

(** The aggregate outcome, [true] for blocked, with the summed counts. *)
Definition incomplete_effect_summary (steps : pyval) : result unit (option (bool * outcome_counts)) :=
  match steps with
  | VList l =>
      incomplete ← foldR step_outcome [] l;
      Ok (match incomplete with
          | [] => None
          | _ =>
              let partial := mem (u "partial") incomplete.*1
                             || existsb (λ p, 0 <? oc_count p.2) incomplete in
              Some (negb partial, foldr add_counts (MkCounts 0 0 0 0) incomplete.*2)
          end)
  | _ => Ok None
  end.

Definition incomplete_effect_answer (summary : bool * outcome_counts) (spanish : bool) : pystr :=
  let '(blocked, c) := summary in
  let applied := int_str (oc_count c) in
  let requested := int_str (oc_requested c) in
  let failed := int_str (oc_failed c) in
  let excluded := int_str (oc_excluded c) in
  if blocked : bool then
    if spanish then
      u "El resultado quedó verificado: no se pudo aplicar la operación a ninguno de los "
      ++ requested ++ u " registros; " ++ failed ++ u " fallaron y " ++ excluded ++ u " quedaron excluidos."
    else
      u "The result was verified: the operation could not be applied to any of the " ++ requested
      ++ u " records; " ++ failed ++ u " failed and " ++ excluded ++ u " were excluded."
  else if spanish then
    u "El resultado quedó verificado, pero la operación fue parcial: se aplicó a " ++ applied ++ u " de "
    ++ requested ++ u " registros; " ++ failed ++ u " fallaron y " ++ excluded ++ u " quedaron excluidos."
  else
    u "The result was verified, but the operation was partial: it applied to " ++ applied ++ u " of "
    ++ requested ++ u " records; " ++ failed ++ u " failed and " ++ excluded ++ u " were excluded.".

(** * Agent: decisions and outcomes

    Parsing a decision and writing it back, and the counts of a verified but incomplete effect. *)
Local Open Scope Z_scope.

(** ** Decisions *)

Lemma stripped_strip maximum s : stripped_ok maximum s = true → stripped_ok maximum (strip s) = true.
Proof.
  unfold stripped_ok. rewrite strip_idemp. intros [H Hn%negb_true_iff%mem_false]%andb_true_iff.
  apply andb_true_iff. split; [done|]. apply negb_true_iff, mem_false. by intros ?%in_strip.
Qed.
Lemma stripped_normalize maximum s : stripped_ok maximum s = true → stripped_ok maximum (normalize_ws s) = true.
Proof.
  unfold stripped_ok. rewrite strip_normalize.
  intros [[H1%Z.leb_le H2%Z.leb_le]%andb_true_iff Hn%negb_true_iff%mem_false]%andb_true_iff.
  apply andb_true_iff. split.
  - rewrite <- normalize_strip. pose proof (length_normalize (strip s)). apply andb_true_iff. split; apply Z.leb_le; [|lia].
    destruct (normalize_ws (strip s)) as [|c t] eqn:E; [|cbn [length]; lia].
    rewrite normalize_strip in E. apply normalize_nil in E. rewrite E in H1. done.
  - apply negb_true_iff, mem_false. by intros [?|?]%in_normalize.
Qed.

Lemma call_id_again v s : _call_id v = Ok s → _call_id (VStr s) = Ok s.
Proof. unfold _call_id. intros H. result_inv. destruct v; simplify_eq/=. by match goal with H : fullmatch _ _ = _ |- _ => rewrite H end. Qed.
Lemma capability_again v s : _capability v = Ok s → _capability (VStr s) = Ok s.
Proof.
  unfold _capability. intros H. result_inv. destruct v; simplify_eq/=.
  match goal with H : fullmatch _ _ = _ |- _ => rewrite H end.
  by match goal with H : (128 <? _) = _ |- _ => rewrite H end.
Qed.
Lemma arguments_again v d : _arguments v = Ok d → _arguments (VDict d) = Ok d.
Proof.
  unfold _arguments. intros H. result_inv. destruct v; simplify_eq/=.
  match goal with H : json_bytes _ = _ |- _ => rewrite H end. simpl.
  by match goal with H : (_ <? _) = _ |- _ => rewrite H end.
Qed.

Lemma parse_final answer confidence :
  parse_next_decision (VDict (decision_payload (FinalAnswer answer confidence))) =
    (raise_when (negb (stripped_ok 16384 answer)) decision_invalid;;
     raise_when (negb (mem confidence _CONFIDENCE)) decision_invalid;;
     Ok (FinalAnswer (strip answer) confidence)).
Proof. unfold parse_next_decision. destruct (stripped_ok 16384 answer) eqn:E; cbv - [stripped_ok strip mem _CONFIDENCE]; by rewrite E. Qed.
Lemma parse_call call_id capability arguments :
  parse_next_decision (VDict (decision_payload (ReasoningCapabilityCall call_id capability arguments))) =
    (call_id ← _call_id (VStr call_id); capability ← _capability (VStr capability);
     arguments ← _arguments (VDict arguments);
     Ok (ReasoningCapabilityCall call_id capability arguments)).
Proof. reflexivity. Qed.
Lemma parse_proposal call_id capability arguments summary :
  parse_next_decision (VDict (decision_payload (PlanStepProposal call_id capability arguments summary))) =
    (raise_when (negb (stripped_ok 512 summary)) decision_invalid;;
     call_id ← _call_id (VStr call_id); capability ← _capability (VStr capability);
     arguments ← _arguments (VDict arguments);
     Ok (PlanStepProposal call_id capability arguments (normalize_ws summary))).
Proof. reflexivity. Qed.
Lemma parse_update plan :
  parse_next_decision (VDict (decision_payload (TaskPlanUpdate plan))) =
    (plan ← map_err (λ e, NextDecisionError (task_plan_code e)) (parse_task_plan (payload plan));
     Ok (TaskPlanUpdate plan)).
Proof. reflexivity. Qed.

(** C40: A decision that was parsed is written to a payload that parses back to it. *)
Theorem decision_roundtrip value x :
  parse_next_decision value = Ok x → parse_next_decision (VDict (decision_payload x)) = Ok x.
Proof.
  unfold parse_next_decision at 1. intros H. apply bind_Ok in H as (d & Hd & H). cbv zeta in H.
  destruct (py_eq _ _); [|destruct (py_eq _ _); [|destruct (py_eq _ _); [|destruct (py_eq _ _); [|done]]]].
  - result_inv. rewrite parse_final. unfold in_str_set in *.
    match goal with H : stripped_ok _ _ = true |- _ => rewrite (stripped_strip _ _ H) end.
    destruct (get (u "confidence") d); simplify_eq/=.
    repeat match goal with H : mem _ _ = true |- _ => rewrite H; clear H end. simpl. by rewrite strip_idemp.
  - result_inv. rewrite parse_update.
    match goal with H : parse_task_plan _ = Ok _ |- _ => apply parsed_plan_wf in H as Hw end.
    by rewrite parse_payload_roundtrip.
  - result_inv. rewrite parse_call.
    erewrite call_id_again by done. cbn [mbind result_bind]. erewrite capability_again by done. cbn [mbind result_bind].
    by erewrite arguments_again by done.
  - result_inv. rewrite parse_proposal. erewrite stripped_normalize by done. cbn [negb raise_when mbind result_bind].
    erewrite call_id_again by done. cbn [mbind result_bind]. erewrite capability_again by done. cbn [mbind result_bind].
    erewrite arguments_again by done. cbn [mbind result_bind]. by rewrite normalize_idemp.
Qed.

(** ** Incomplete outcomes *)

Record exact_counts (c : outcome_counts) : Prop := {
  ec_count : 0 <= oc_count c;
  ec_failed : 0 <= oc_failed c;
  ec_excluded : 0 <= oc_excluded c;
  ec_requested : 0 < oc_requested c;
  ec_sum : oc_count c + oc_failed c + oc_excluded c = oc_requested c }.

Lemma exact_count_Some v z : exact_count v = Some z → 0 <= z.
Proof.
  unfold exact_count. intros H. apply bind_Some in H as (z' & _ & H). destruct (z' <? 0) eqn:E; [done|].
  injection H as <-. by apply Z.ltb_ge.
Qed.
Lemma exact_counts_Some d c : _exact_counts d = Some c → exact_counts c.
Proof.
  unfold _exact_counts. intros H.
  do 4 (let z := fresh "z" in let Hz := fresh "Hz" in
        apply bind_Some in H as (z & Hz%exact_count_Some & H)).
  destruct (_ <=? 0) eqn:E; [done|]. destruct (_ =? _) eqn:E2; [|done]. injection H as <-.
  split; simpl; lia.
Qed.
Lemma step_outcome_exact acc step acc' :
  step_outcome acc step = Ok acc' →
  Forall (λ p, exact_counts p.2) acc → Forall (λ p, exact_counts p.2) acc'.
Proof.
  unfold step_outcome. destruct step; try (by intros [= <-]). intros H Hacc. result_inv.
  destruct x as [[outcome c]|]; [|done]. destruct (mem _ _); [|done]. apply Forall_app. split; [done|].
  apply Forall_singleton. simpl. unfold normalized_business_outcome in *. destruct (get _ _); try done.
  result_inv. destruct x; [|done].
  match goal with H : _ = Some (outcome, c) |- _ => apply bind_Some in H as (o & _ & H); apply bind_Some in H as (c' & Hc & [= <- <-]) end.
  by eapply exact_counts_Some.
Qed.

Lemma sum_exact (l : list outcome_counts) :
  Forall exact_counts l → let c := foldr add_counts (MkCounts 0 0 0 0) l in
  0 <= oc_count c ∧ 0 <= oc_failed c ∧ 0 <= oc_excluded c ∧ Z.of_nat (length l) <= oc_requested c ∧
  oc_count c + oc_failed c + oc_excluded c = oc_requested c.
Proof.
  induction 1 as [|c l [Hc Hf He Hr Hs] _ IH]; [simpl; lia|]. cbn [foldr add_counts length oc_count oc_failed oc_excluded oc_requested].
  simpl in IH. lia.
Qed.
Lemma sum_zero (l : list outcome_counts) :
  Forall exact_counts l → Forall (λ c, oc_count c <= 0) l → oc_count (foldr add_counts (MkCounts 0 0 0 0) l) = 0.
Proof.
  induction 1 as [|c l Hc _ IH]; [done|]. intros [H0 H]%Forall_cons. destruct Hc. cbn [foldr add_counts oc_count].
  rewrite IH by done. lia.
Qed.

(** The counts that an incomplete verified effect is reported with add up: every requested
    record was applied, failed or excluded, there is one at least, and an effect reported as
    blocked applied to none. *)
Theorem incomplete_summary_exact steps blocked c :
  incomplete_effect_summary steps = Ok (Some (blocked, c)) →
  exact_counts c ∧ (blocked = true → oc_count c = 0).
Proof.
  unfold incomplete_effect_summary. destruct steps; try done. intros H. apply bind_Ok in H as (ps & Hps & H).
  assert (Forall (λ p, exact_counts p.2) ps) as Hall.
  { eapply (foldR_inv (Forall (λ p, exact_counts p.2))); [by constructor| |exact Hps].
    intros acc x acc' _ Hacc Hx. by eapply step_outcome_exact. }
  assert (ps ≠ [] ∧ negb (mem (u "partial") ps.*1 || existsb (λ p, 0 <? oc_count p.2) ps) = blocked ∧
    foldr add_counts (MkCounts 0 0 0 0) ps.*2 = c) as (Hne & Hb & <-) by (by destruct ps; simplify_eq).
  assert (Forall exact_counts ps.*2) as Hc by by apply Forall_fmap.
  pose proof (sum_exact _ Hc) as (H1 & H2 & H3 & H4 & H5). rewrite length_fmap in H4.
  split; [split; try done; destruct ps; [done|]; cbn [length] in H4; lia|].
  intros ->. apply negb_true_iff, orb_false_iff in Hb as [_ Hz].
  apply sum_zero; [done|]. apply Forall_fmap, Forall_forall. intros q Hq.
  apply (proj1 (existsb_false _ _) Hz) in Hq. by apply Z.ltb_ge.
Qed.

(** ** Concrete inputs *)

Definition sample_answer : pyval :=
  VDict [(u "kind", VStr (u "final_answer")); (u "answer", VStr (u " Hecho. ")); (u "confidence", VStr (u "high"))].
Lemma decision_roundtrip_witness :
  let x := FinalAnswer (u "Hecho.") (u "high") in
  parse_next_decision sample_answer = Ok x ∧ parse_next_decision (VDict (decision_payload x)) = Ok x.
Proof.
  intros x. assert (parse_next_decision sample_answer = Ok x) as H by (vm_compute; reflexivity).
  split; [exact H|exact (decision_roundtrip sample_answer x H)].
Defined.

(** A step that failed for all of its records, and one that was applied to some. *)
Definition outcome_of (outcome : pystr) (count requested failed excluded : Z) : pyval :=
  VDict [(u "result", VDict [(u "outcome", VStr outcome); (u "count", VInt count);
    (u "requested_count", VInt requested); (u "failed_count", VInt failed); (u "excluded_count", VInt excluded)])].
Lemma incomplete_summary_exact_witness :
  let c := MkCounts 0 7 5 2 in
  let steps := VList [outcome_of (u "blocked") 0 4 4 0; outcome_of (u "completed") 1 1 0 0;
                      outcome_of (u "blocked") 0 3 1 2] in
  incomplete_effect_summary steps = Ok (Some (true, c)) ∧ (exact_counts c ∧ (true = true → oc_count c = 0)).
Proof.
  intros c steps. assert (incomplete_effect_summary steps = Ok (Some (true, c))) as H by (vm_compute; reflexivity).
  split; [exact H|]. exact (incomplete_summary_exact steps true c H).
Defined.
