(* ===== verification/AgentTurn.v ===== *)
(** * Agent: the turn service

    [AgentTurnService] of [runtime/agent/service.py]: the bounded loop in which a provider decides
    and the host checks, records and executes.  The provider, the executor, the persistence and
    the callbacks are reached through [AgentHost]; the calls that matter for recovery are logged
    in the order they happen. *)
From S2P Require Import Prelude PyText PyValue Json TaskPlan Budgets WorkingTranscript EffectPlan.
From S2P Require Import Capability CapabilityValidation CapabilityRegistry EffectPlanService AgentDecision.
Local Open Scope Z_scope.

(** ** Exceptions *)

Inductive agent_exn : Type :=
| AgentTurnError (code : pystr)
(** Its subclass [ProviderFailureError] *)
| AgentProviderFailure (code : pystr)
| AgentCapabilityError (code : pystr) (details : pydict)
| AgentTranscriptError (code : pystr)
(** Another [Exception], with its attribute [code] when that is a string, and its text. *)
| AgentException (code : option pystr) (message : pystr)
| AgentBaseException (cls : pystr).

Definition of_transcript (e : transcript_exn) : agent_exn :=
  match e with
  | WorkingTranscriptError code => AgentTranscriptError code
  | TranscriptTypeError => AgentException None (u "unhashable type")
  end.
Definition of_capability (e : EffectPlan.plan_exn) : agent_exn :=
  match e with
  | CapabilityError code details => AgentCapabilityError code details
  | CapabilityPlanError code => AgentException (Some code) code
  | CapabilityPlanStepError code _ _ _ _ => AgentException (Some code) code
  | OtherError cls => AgentException None cls
  end.
Definition budget_invalid : pystr := u "agent_budget_invalid".

(** [getattr(error, "code", None) == c or str(error) == c] *)
Definition has_code (c : pystr) (e : agent_exn) : bool :=
  match e with
  | AgentTurnError code | AgentProviderFailure code | AgentCapabilityError code _ | AgentTranscriptError code => str_eqb code c
  | AgentException code message => bool_decide (code = Some c) || str_eqb message c
  | AgentBaseException _ => false
  end.

(** ** Outside *)

Inductive provider_outcome : Type :=
| Decided (decision : option NextDecision)
(** [NextDecisionValidationError], raised by the engine itself *)
| DecisionRefused (code : pystr) (rejected : rejected_decision)
| DecisionFailed (e : agent_exn).

Record AgentTurnResult := MkTurnResult {
  tr_answer : pystr;
  tr_confidence : pystr;
  tr_plan : list PlannedCapability;
  tr_task_plan : option TaskPlan }.

Class AgentHost (W R : Type) := {
  ag_result_data : R → pydict;
  (** The attributes of [context.env]: [su], and [context["lang"]] when that is a string *)
  ag_superuser : bool;
  ag_lang : option pystr;
  ag_user : W → CapabilityUser;
  ag_next_decision : list WorkingItem → remaining_budget → W → provider_outcome * W;
  ag_persist : option (list WorkingItem → W → result agent_exn unit * W);
  ag_cancelled : W → result agent_exn bool * W;
  ag_work_started : option (W → result agent_exn unit * W);
  (** [executor.execute] with the authority of reasoning *)
  ag_execute : pystr → pydict → W → result agent_exn R * W;
  (** [cr.savepoint()] around it, when there is a cursor *)
  ag_savepoint : option ((W → result agent_exn R * W) → W → result agent_exn R * W);
  (** The flush of [emit_optional_telemetry], and its event *)
  ag_flush : W → result agent_exn unit * W;
  ag_emit : pystr → pystr → pydict → W → result agent_exn unit * W }.

Inductive agent_call : Type :=
| AskProvider (remaining : remaining_budget)
(** The items that the callback has persisted *)
| Persisted (items : list WorkingItem)
| ExecuteCapability (name : pystr) (arguments : pydict).

Record agent_run (W : Type) := MkAgentRun {
  an_world : W;
  an_items : list WorkingItem;
  an_work_started : bool;
  an_log : list agent_call }.
Arguments MkAgentRun {W}.
Arguments an_world {W}.
Arguments an_items {W}.
Arguments an_work_started {W}.
Arguments an_log {W}.

(** ** Reading the transcript *)

Definition _CORRECTABLE_ERRORS : list pystr :=
  [u "agent_capability_arguments_invalid"; u "agent_plan_arguments_invalid";
   u "agent_reasoning_capability_not_allowed"; u "agent_plan_capability_not_allowed";
   u "capability_input_invalid"; u "capability_input_invalid_too_large"; u "capability_not_available";
   u "capability_not_registered"; u "capability_call_limit_exceeded";
   u "agent_capability_call_interrupted"].
Definition _TERMINAL_CALL_ERRORS : list pystr :=
  [u "access_denied"; u "capability_authority_mismatch"; u "capability_policy_denied";
   u "capability_plan_approval_required"].

Definition is_kind (k : pystr) (x : WorkingItem) : bool := str_eqb (wi_kind x) k.
Definition kind_in (ks : list pystr) (x : WorkingItem) : bool := mem (wi_kind x) ks.

(** The items after the last [plan_execution_error]. *)
Fixpoint _active_plan_epoch (items : list WorkingItem) : list WorkingItem :=
  match items with
  | [] => []
  | x :: rest =>
      if existsb (is_kind (u "plan_execution_error")) rest then _active_plan_epoch rest
      else if is_kind (u "plan_execution_error") x then rest
      else items
  end.

Definition count_if (f : WorkingItem → bool) (items : list WorkingItem) : Z :=
  Z.of_nat (length (filter (λ x, f x = true) items)).

Definition decision_item_kinds : list pystr :=
  [u "assistant_decision"; u "task_plan"; u "task_plan_error"; u "final_answer"].
Definition _provider_decisions_used (items : list WorkingItem) : Z :=
  count_if (kind_in decision_item_kinds) (_active_plan_epoch items).

Definition is_call_decision (x : WorkingItem) : bool :=
  is_kind (u "assistant_decision") x
  && py_eq (get (u "decision_kind") (wi_data x)) (VStr (u "reasoning_capability_call")).
Definition _capability_calls_used (items : list WorkingItem) : Z :=
  count_if is_call_decision (_active_plan_epoch items).

Definition _definition_call_count (items : list WorkingItem) (capability : pystr) : Z :=
  count_if (λ x, is_call_decision x && py_eq (get (u "capability") (wi_data x)) (VStr capability))
    (_active_plan_epoch items).

(** The loop over the reversed epoch, with [count]. *)
Fixpoint trailing_failures (count : Z) (reversed : list WorkingItem) : Z :=
  match reversed with
  | [] => count
  | x :: rest =>
      if kind_in [u "capability_error"; u "task_plan_error"] x then trailing_failures (count + 1) rest
      else if is_kind (u "capability_result") x then 0
      else if kind_in [u "assistant_decision"; u "capability_call"; u "plan_step_proposed"; u "task_plan"] x
           then trailing_failures count rest
      else count
  end.
Definition _trailing_failure_count (items : list WorkingItem) : Z :=
  trailing_failures 0 (reverse (_active_plan_epoch items)).

Fixpoint pending_terminal (reversed : list WorkingItem) : option pystr :=
  match reversed with
  | [] => None
  | x :: rest =>
      if is_kind (u "capability_result") x then None
      else if is_kind (u "capability_error") x then
        code ← as_str (get (u "code") (wi_data x)); if mem code _TERMINAL_CALL_ERRORS then Some code else None
      else pending_terminal rest
  end.
Definition _terminal_error_pending (items : list WorkingItem) : option pystr :=
  pending_terminal (reverse (_active_plan_epoch items)).

Definition transcript_corrupt : agent_exn := AgentTurnError (u "agent_working_transcript_invalid").

(** The turn of the loop of [_proposed_plan]; the previous step is the last of the result. *)
Definition add_proposed (acc : list PlannedCapability) (x : WorkingItem)
    : result agent_exn (list PlannedCapability) :=
  call_id ← of_option (as_str (get (u "call_id") (wi_data x))) transcript_corrupt;
  capability ← of_option (as_str (get (u "capability") (wi_data x))) transcript_corrupt;
  arguments ← of_option (as_dict (get (u "arguments") (wi_data x))) transcript_corrupt;
  summary ← of_option (as_str (get (u "user_summary") (wi_data x))) transcript_corrupt;
  Ok (acc ++ [MkPlanned capability arguments summary call_id
                match last acc with Some p => [pc_step_id p] | None => [] end]).
Definition _proposed_plan (items : list WorkingItem) : result agent_exn (list PlannedCapability) :=
  foldR add_proposed []
    (filter (λ x, is_kind (u "plan_step_proposed") x = true) (_active_plan_epoch items)).

Definition _latest_task_plan (items : list WorkingItem) : result agent_exn (option TaskPlan) :=
  match list_find (λ x, is_kind (u "task_plan") x = true) (reverse items) with
  | None => Ok None
  | Some (_, x) =>
      map_err (λ e, match e with
                    | TaskPlanError code => AgentTurnError code
                    | PlanTypeError => AgentException None (u "unhashable type")
                    end)
        (Some <$> parse_task_plan (VDict (wi_data x)))
  end.

(** The decisions whose call has no outcome yet. *)
Definition _pending_decisions (items : list WorkingItem) : list (pystr * pydict) :=
  omap (λ x,
    if negb (is_kind (u "assistant_decision") x) then None
    else call_id ← as_str (get (u "call_id") (wi_data x));
         match call_state items call_id with
         | Some CallPending => Some (call_id, wi_data x)
         | _ => None
         end) items.

Definition _validated_answer (answer confidence : pyval) : result agent_exn pystr :=
  s ← of_option (as_str answer) (AgentTurnError (u "agent_answer_invalid"));
  raise_when (negb (stripped_ok 16384 s)) (AgentTurnError (u "agent_answer_invalid"));;
  known ← of_option (in_str_set confidence _CONFIDENCE) (AgentException None (u "unhashable type"));
  raise_when (negb known) (AgentTurnError (u "agent_confidence_invalid"));;
  Ok (strip s).

Definition _definition_max_calls (definitions : list CapabilityDefinition) (capability : pystr)
    : result agent_exn Z :=
  d ← of_option (_allowed capability definitions)
        (AgentTurnError (u "agent_reasoning_capability_not_allowed"));
  Ok (d_max_calls d).

(** ** The loop *)

Section service.
Context {W R : Type} `{!AgentHost W R}.
Context (rg : CapabilityRegistry) (metadata : pydict) (allow_plan_proposals : bool).
Abbreviation AS := (ST (agent_run W) agent_exn).

Definition set_items (items : list WorkingItem) (s : agent_run W) : agent_run W :=
  MkAgentRun (an_world s) items (an_work_started s) (an_log s).
Definition log_call (c : agent_call) (s : agent_run W) : agent_run W :=
  MkAgentRun (an_world s) (an_items s) (an_work_started s) (an_log s ++ [c]).
(** A call of the host. *)
Definition host_call {A} (f : W → result agent_exn A * W) : AS A := λ s,
  let '(r, w) := f (an_world s) in (r, MkAgentRun w (an_items s) (an_work_started s) (an_log s)).

Definition append (kind : pystr) (data : pydict) : AS unit :=
  items ← gets an_items;
  items ← lift (map_err of_transcript (append_working_item items kind data));
  modify (set_items items).

Definition lease_lost : pystr := u "agent_turn_lease_lost".
Definition persist_error (e : agent_exn) : agent_exn :=
  match e with
  | AgentTurnError _ | AgentProviderFailure _ | AgentBaseException _ => e
  | _ => AgentTurnError (if has_code lease_lost e then lease_lost
                         else u "agent_working_transcript_persist_failed")
  end.
Definition _persist : AS unit :=
  items ← gets an_items;
  lift (map_err of_transcript (transcript_payload items));;
  match ag_persist with
  | None => mret tt
  | Some f => catch (host_call (f items)) (λ e, raise (persist_error e));; modify (log_call (Persisted items))
  end.

(** An item appended and persisted. *)
Definition record (kind : pystr) (data : pydict) : AS unit := append kind data;; _persist.

Definition _ensure_not_cancelled : AS unit :=
  b ← host_call ag_cancelled;
  lift (raise_when b (AgentTurnError (u "agent_cancelled"))).

Definition _mark_work_started : AS unit :=
  started ← gets an_work_started;
  if started : bool then mret tt
  else
    modify (λ s, MkAgentRun (an_world s) (an_items s) true (an_log s));;
    match ag_work_started with Some f => host_call f | None => mret tt end.

(** [except Exception] around the event, after the flush. *)
Definition emit_optional_telemetry (event_type title : pystr) (event : pydict) : AS bool :=
  host_call ag_flush;;
  catch (host_call (ag_emit event_type title event);; mret true)
    (λ e, match e with AgentBaseException _ => raise e | _ => mret false end).

Definition call_fields (call_id capability code : pystr) : pydict :=
  [(u "call_id", VStr call_id); (u "capability", VStr capability); (u "code", VStr code)].
Definition record_error (call_id capability code : pystr) : AS unit :=
  record (u "capability_error") (call_fields call_id capability code).

Definition item_too_large : pystr := u "agent_working_item_too_large".
Definition _record_capability_error (call_id capability code : pystr) (details : pydict) : AS unit :=
  let fields := call_fields call_id capability code in
  let full := match details with [] => fields | _ => fields ++ [(u "details", VDict details)] end in
  catch (append (u "capability_error") full)
    (λ e, match e with
          | AgentTranscriptError c =>
              if bool_decide (details = []) || negb (str_eqb c item_too_large) then raise (AgentTurnError c)
              else append (u "capability_error") fields
          | e => raise e
          end);;
  _persist.

(** [_record_decision], of a call or a proposal: the key [kind] moves to the end under another
    name. *)
Definition _record_decision (x : NextDecision) : AS unit :=
  record (u "assistant_decision")
    (decision_fields x ++ [(u "decision_kind", VStr (decision_kind x))]).

Definition call_id_duplicate : agent_exn := AgentTurnError (u "agent_working_call_id_duplicate").
Definition require_fresh_call (call_id : pystr) : AS unit :=
  items ← gets an_items;
  lift (raise_when (negb (bool_decide (call_state items call_id = None))) call_id_duplicate).

Definition _record_rejected_decision (x : NextDecision) (call_id capability code : pystr) : AS unit :=
  require_fresh_call call_id;;
  _record_decision x;;
  record_error call_id capability code.

Definition _record_rejected_revision (revision : option Z) (code : pystr) : AS unit :=
  record (u "task_plan_error")
    [(u "code", VStr code);
     (u "rejected_revision", match revision with Some z => VInt z | None => VNone end)].

Definition _record_task_plan (plan : TaskPlan) : AS unit :=
  items ← gets an_items;
  previous ← lift (_latest_task_plan items);
  let expected := match previous with None => 1 | Some p => tp_revision p + 1 end in
  lift (raise_when (negb (tp_revision plan =? expected))
          (AgentTurnError (u "agent_task_plan_revision_invalid")));;
  record (u "task_plan") (default [] (as_dict (payload plan)));;
  emit_optional_telemetry (u "task_plan.updated") (u "Plan de trabajo actualizado")
    [(u "revision", VInt (tp_revision plan)); (u "step_count", VInt (Z.of_nat (length (tp_steps plan))))];;
  mret tt.

(** ** Safe answers *)

(** [lang.lower().startswith("es")]: no code point outside ASCII lowers to either letter. *)
Definition is_spanish : bool :=
  match ag_lang with
  | None => true
  | Some lang => startswith (u "es") (lower_ascii <$> lang)
  end.

Definition verified_answer : pystr :=
  if is_spanish then
    u "El resultado de la acción quedó verificado en Odoo, pero no pude generar el resumen detallado."
  else u "The action result was verified in Odoo, but I could not produce the detailed summary.".

Definition failure_text (code : pystr) : pystr :=
  if str_eqb code (u "access_denied") then
    if is_spanish then
      u "No pude acceder a los datos necesarios con tus permisos actuales. No se aplicó ningún cambio."
    else u "I could not access the required data with your current permissions. No changes were applied."
  else if mem code [u "record_not_found"; u "capability_not_available"; u "capability_not_registered"] then
    if is_spanish then
      u "No pude identificar con seguridad el registro o la función necesaria. No se aplicó ningún cambio; indícame el registro concreto o abre su ficha y vuelve a intentarlo."
    else
      u "I could not safely identify the required record or function. No changes were applied; specify the record or open it and try again."
  else if str_eqb code (u "action_rejected") then
    if is_spanish then
      u "Odoo rechazó la operación por una restricción del registro. No quedó ningún cambio aplicado; puedo intentarlo de nuevo con un alcance más preciso."
    else
      u "Odoo rejected the operation because of a record constraint. No changes remained applied; I can retry with a narrower scope."
  else if is_spanish then
    u "No pude completar la petición con suficiente seguridad. No se aplicó ningún cambio; prueba a concretar el alcance o los registros afectados."
  else u "I could not complete the request safely. No changes were applied; try clarifying the scope or affected records.".

Definition _safe_failure_answer (items : list WorkingItem) (code : pystr) : result agent_exn pystr :=
  match list_find (λ x, is_kind (u "verified_effect_receipt") x = true) (reverse items) with
  | Some (_, receipt) =>
      incomplete ← map_err (λ _, AgentException None (u "unhashable type"))
                     (incomplete_effect_summary (get (u "steps") (wi_data receipt)));
      Ok (match incomplete with
          | Some summary => incomplete_effect_answer summary is_spanish
          | None => verified_answer
          end)
  | None => Ok (failure_text code)
  end.

Definition finish_safely (code : pystr) : AS AgentTurnResult :=
  items ← gets an_items;
  answer ← lift (_safe_failure_answer items code);
  record (u "final_answer")
    [(u "answer", VStr answer); (u "confidence", VStr (u "low")); (u "discard_plan", VBool true);
     (u "host_fallback_code", VStr code)];;
  mret (MkTurnResult answer (u "low") [] None).

(** ** Plans *)

Definition of_budget {A} (r : result budget_error A) (e : agent_exn) : result agent_exn A := map_err (λ _, e) r.

Definition plan_error : agent_exn := AgentTurnError (u "agent_plan_invalid").
Definition dependency_error : agent_exn := AgentTurnError (u "agent_plan_dependency_invalid").

(** The turn of the loop; the identifiers seen are those of the steps so far. *)
Definition check_planned (planning : list CapabilityDefinition) (acc : list PlannedCapability)
    (step : PlannedCapability) : result agent_exn (list PlannedCapability) :=
  let seen := pc_step_id <$> acc in
  d ← of_option (_allowed (pc_capability step) (reverse planning))
        (AgentTurnError (u "agent_plan_capability_not_allowed"));
  raise_when (negb (stripped_ok 512 (pc_summary step))) plan_error;;
  let step_id := requested_id (length acc) step in
  raise_when (256 <? Z.of_nat (length step_id)) plan_error;;
  raise_when (negb (subset_of (pc_depends_on step) seen)) dependency_error;;
  raise_when (mem step_id seen) dependency_error;;
  map_err of_capability
    (validate_payload (VDict (pc_arguments step)) (d_input_schema d) (d_max_input_bytes d)
       (u "agent_plan_arguments_invalid"));;
  Ok (acc ++ [MkPlanned (d_name d) (pc_arguments step) (normalize_ws (pc_summary step)) step_id
                (pc_depends_on step)]).

Definition plan_limit : agent_exn := AgentTurnError (u "agent_plan_limit_exceeded").
Definition _validate_plan (planning : list CapabilityDefinition) (plan : list PlannedCapability)
    : result agent_exn (list PlannedCapability) :=
  budgets ← of_budget (resolve_agent_budgets metadata) (AgentTurnError budget_invalid);
  raise_when (max_effect_steps (safety budgets) <? Z.of_nat (length plan)) plan_limit;;
  foldR (check_planned planning) [] plan.

(** The steps proposed in the transcript, or none when proposals are off. *)
Definition proposals (items : list WorkingItem) : result agent_exn (list PlannedCapability) :=
  if allow_plan_proposals then _proposed_plan items else Ok [].

(** [self._validate_plan(proposed, planning) if proposed else ()] *)
Definition plan_of (planning : list CapabilityDefinition) (proposed : list PlannedCapability)
    : result agent_exn (list PlannedCapability) :=
  match proposed with [] => Ok [] | _ => _validate_plan planning proposed end.

(** ** Before the loop *)

Definition _ensure_user_input (message : pystr) : AS unit :=
  items ← gets an_items;
  match items with
  | first :: _ =>
      lift (raise_when (negb (is_kind (u "user_input") first)
                        || negb (py_eq (get (u "message") (wi_data first)) (VStr message)))
              (AgentTurnError (u "agent_working_transcript_request_mismatch")))
  | [] => record (u "user_input") [(u "message", VStr message)]
  end.

Definition _resume_terminal (planning : list CapabilityDefinition) : AS (option AgentTurnResult) :=
  items ← gets an_items;
  match last items with
  | None => mret None
  | Some x =>
      if negb (is_kind (u "final_answer") x) then mret None
      else
        answer ← lift (of_option (as_str (get (u "answer") (wi_data x))) transcript_corrupt);
        confidence ← lift (of_option (as_str (get (u "confidence") (wi_data x))) transcript_corrupt);
        let discard_plan := bool_decide (as_bool (get (u "discard_plan") (wi_data x)) = Some true) in
        proposed ← lift (if discard_plan then Ok [] else proposals items);
        plan ← lift (plan_of planning proposed);
        answer ← lift (_validated_answer (VStr answer) (VStr confidence));
        task_plan ← lift (if discard_plan then Ok None else _latest_task_plan items);
        mret (Some (MkTurnResult answer confidence plan task_plan))
  end.

Definition close_call (p : pystr * pydict) : AS unit :=
  let '(call_id, data) := p in
  append (u "capability_error")
    (call_fields call_id (default (u "unknown") (as_str (get (u "capability") data)))
       (if py_eq (get (u "decision_kind") data) (VStr (u "plan_step_proposal"))
        then u "agent_plan_proposal_interrupted" else u "agent_capability_call_interrupted")).
Definition _close_interrupted_calls : AS unit :=
  items ← gets an_items;
  match _pending_decisions items with
  | [] => mret tt
  | pending => foldST (λ _ p, close_call p) tt pending;; _persist
  end.

(** ** The decision loop *)

(** The local variables of the loop. *)
Record counters := MkCounters {
  provider_decisions : Z;
  capability_calls : Z;
  consecutive_failures : Z;
  terminal_error : option pystr }.

Definition count_decision (c : counters) : counters :=
  MkCounters (provider_decisions c + 1) (capability_calls c) (consecutive_failures c) (terminal_error c).
Definition count_capability (c : counters) : counters :=
  MkCounters (provider_decisions c) (capability_calls c + 1) (consecutive_failures c) (terminal_error c).
Definition after_progress (c : counters) : counters :=
  MkCounters (provider_decisions c) (capability_calls c) 0 None.
Definition after_terminal (code : pystr) (c : counters) : counters :=
  MkCounters (provider_decisions c) (capability_calls c) 0 (Some code).

(** A turn of the loop goes on with the counters or returns. *)
Abbreviation turn_of_loop := (counters + AgentTurnResult)%type.
Definition return_ (m : AS AgentTurnResult) : AS turn_of_loop := r ← m; mret (inr r).

(** [consecutive_failures += 1], and the end when there are too many. *)
Definition after_failure (budgets : AgentBudgetSet) (c : counters) : AS turn_of_loop :=
  let c := MkCounters (provider_decisions c) (capability_calls c) (consecutive_failures c + 1)
             (terminal_error c) in
  if max_consecutive_failures (safety budgets) <? consecutive_failures c
  then return_ (finish_safely (u "agent_correctable_failure_budget_exceeded"))
  else mret (inl c).

(** [except NextDecisionValidationError] *)
Definition on_rejected (budgets : AgentBudgetSet) (code : pystr) (rejected : rejected_decision)
    (c : counters) : AS turn_of_loop :=
  match rejected with
  | Rejected (ReasoningCapabilityCall call_id capability _ as x) =>
      let c := count_capability c in
      if max_capability_calls (exploration budgets) <? capability_calls c
      then return_ (finish_safely (u "agent_capability_call_budget_exceeded"))
      else _record_rejected_decision x call_id capability code;; after_failure budgets c
  | Rejected (PlanStepProposal call_id capability _ _ as x) =>
      _record_rejected_decision x call_id capability code;; after_failure budgets c
  | Rejected (TaskPlanUpdate plan) =>
      _record_rejected_revision (Some (tp_revision plan)) code;; after_failure budgets c
  | RejectedTaskPlanUpdate revision => _record_rejected_revision revision code;; after_failure budgets c
  | Rejected (FinalAnswer _ _) | RejectedNothing => raise (AgentTurnError code)
  end.

(** [except (AgentTurnError, CapabilityError): raise / except Exception] *)
Definition provider_error (e : agent_exn) : agent_exn :=
  match e with
  | AgentTranscriptError code => AgentTurnError code
  | AgentException code _ => AgentTurnError (default (u "agent_reasoning_failed") code)
  | e => e
  end.

Definition finish_answer (planning : list CapabilityDefinition) (answer confidence : pystr)
    : AS AgentTurnResult :=
  answer ← lift (_validated_answer (VStr answer) (VStr confidence));
  record (u "final_answer") [(u "answer", VStr answer); (u "confidence", VStr confidence)];;
  items ← gets an_items;
  proposed ← lift (proposals items);
  plan ← lift (plan_of planning proposed);
  task_plan ← lift (_latest_task_plan items);
  mret (MkTurnResult answer confidence plan task_plan).

Definition on_proposal (budgets : AgentBudgetSet) (planning : list CapabilityDefinition)
    (x : NextDecision) (call_id capability : pystr) (arguments : pydict) (user_summary : pystr)
    (c : counters) : AS turn_of_loop :=
  _record_decision x;;
  (if allow_plan_proposals then mret tt
   else
     record_error call_id capability (u "agent_plan_proposal_not_enabled");;
     raise (AgentTurnError (u "agent_plan_proposal_not_enabled")));;
  items ← gets an_items;
  current ← lift (_proposed_plan items);
  (if Z.of_nat (length current) <? max_effect_steps (safety budgets) then mret tt
   else record_error call_id capability (u "agent_plan_limit_exceeded");; raise plan_limit);;
  record (u "plan_step_proposed")
    [(u "call_id", VStr call_id); (u "capability", VStr capability); (u "arguments", VDict arguments);
     (u "user_summary", VStr user_summary)];;
  if max_effect_steps (safety budgets) =? 1 then
    items ← gets an_items;
    proposed ← lift (_proposed_plan items);
    plan ← lift (_validate_plan planning proposed);
    task_plan ← lift (_latest_task_plan items);
    mret (inr (MkTurnResult (u "He preparado la acción solicitada para revisión.") (u "high") plan task_plan))
  else mret (inl (after_progress c)).

(** The capability is executed under a savepoint when there is a cursor. *)
Definition _execute_reasoning (capability : pystr) (arguments : pydict) : AS R :=
  modify (log_call (ExecuteCapability capability arguments));;
  host_call (match ag_savepoint with
             | Some within => within (ag_execute capability arguments)
             | None => ag_execute capability arguments
             end).

(** The append of the result, without the persist; a result that is too large is an error of the
    call. *)
Definition record_result (budgets : AgentBudgetSet) (call_id capability : pystr) (data : pydict)
    (c : counters) : AS turn_of_loop :=
  stored ← catch
    (append (u "capability_result")
       [(u "call_id", VStr call_id); (u "capability", VStr capability); (u "result", VDict data)];;
     mret true)
    (λ e, match e with
          | AgentTranscriptError code =>
              if negb (str_eqb code item_too_large) then raise (AgentTurnError code)
              else append (u "capability_error")
                     (call_fields call_id capability (u "agent_capability_result_too_large"));; mret false
          | e => raise e
          end);
  _persist;;
  if stored : bool then mret (inl (after_progress c)) else after_failure budgets c.

Definition on_call (budgets : AgentBudgetSet) (reasoning : list CapabilityDefinition)
    (x : NextDecision) (call_id capability : pystr) (arguments : pydict) (c : counters)
    : AS turn_of_loop :=
  let c := count_capability c in
  if max_capability_calls (exploration budgets) <? capability_calls c
  then return_ (finish_safely (u "agent_capability_call_budget_exceeded"))
  else
    items ← gets an_items;
    limit ← lift (_definition_max_calls reasoning capability);
    if limit <=? _definition_call_count items capability then
      _record_decision x;;
      record_error call_id capability (u "capability_call_limit_exceeded");;
      after_failure budgets c
    else
      require_fresh_call call_id;;
      _record_decision x;;
      record (u "capability_call")
        [(u "call_id", VStr call_id); (u "capability", VStr capability); (u "arguments", VDict arguments)];;
      _ensure_not_cancelled;;
      outcome ← catch (r ← _execute_reasoning capability arguments; mret (inr r))
        (λ e, match e with
              | AgentCapabilityError code details => mret (inl (code, details))
              | e => raise e
              end);
      match outcome with
      | inl (code, details) =>
          _record_capability_error call_id capability code details;;
          if mem code _TERMINAL_CALL_ERRORS then mret (inl (after_terminal code c))
          else after_failure budgets c
      | inr r => record_result budgets call_id capability (ag_result_data r) c
      end.

(** A decision that was accepted. *)
Definition on_decision (budgets : AgentBudgetSet) (reasoning planning : list CapabilityDefinition)
    (x : NextDecision) (c : counters) : AS turn_of_loop :=
  match terminal_error c, x with
  | _, FinalAnswer answer confidence => return_ (finish_answer planning answer confidence)
  | Some code, _ => return_ (finish_safely code)
  | None, TaskPlanUpdate plan => _mark_work_started;; _record_task_plan plan;; mret (inl c)
  | None, PlanStepProposal call_id capability arguments user_summary =>
      _mark_work_started;;
      on_proposal budgets planning x call_id capability arguments user_summary c
  | None, ReasoningCapabilityCall call_id capability arguments =>
      _mark_work_started;; on_call budgets reasoning x call_id capability arguments c
  end.

(** The answer of the provider, with the validation of a decision. *)
Definition ask_provider (reasoning planning : list CapabilityDefinition) (remaining : remaining_budget)
    : AS (NextDecision + (pystr * rejected_decision)) :=
  modify (log_call (AskProvider remaining));;
  items ← gets an_items;
  o ← host_call (λ w, let '(o, w) := ag_next_decision items remaining w in (Ok o, w));
  match o with
  | DecisionFailed e => raise (provider_error e)
  | DecisionRefused code rejected => mret (inr (code, rejected))
  | Decided decision =>
      match validate_next_decision decision reasoning planning with
      | Ok x => mret (inl x)
      | Err (NextDecisionValidationError code rejected) => mret (inr (code, rejected))
      | Err (ValidationOther e) => raise (provider_error (of_capability e))
      end
  end.

Definition decision_step (budgets : AgentBudgetSet) (reasoning planning : list CapabilityDefinition)
    (c : counters) : AS turn_of_loop :=
  _ensure_not_cancelled;;
  items ← gets an_items;
  proposed ← lift (proposals items);
  bytes ← lift (map_err of_transcript (working_transcript_bytes items));
  left_ ← lift (of_budget
    (remaining budgets (VInt (provider_decisions c)) (VInt (capability_calls c))
       (VInt (consecutive_failures c)) (VInt bytes) (VInt (Z.of_nat (length proposed))))
    (AgentException (Some budget_invalid) budget_invalid));
  answer ← ask_provider reasoning planning left_;
  let c := count_decision c in
  match answer with
  | inl x => on_decision budgets reasoning planning x c
  | inr (code, rejected) => on_rejected budgets code rejected c
  end.

(** [while provider_decisions < limit]; [None] when the fuel is used up. *)
Fixpoint decision_loop (fuel : nat) (budgets : AgentBudgetSet)
    (reasoning planning : list CapabilityDefinition) (c : counters) : AS (option AgentTurnResult) :=
  match fuel with
  | O => mret None
  | S fuel =>
      if provider_decisions c <? provider_decision_limit budgets then
        o ← decision_step budgets reasoning planning c;
        match o with
        | inl c => decision_loop fuel budgets reasoning planning c
        | inr r => mret (Some r)
        end
      else
        Some <$> finish_safely (default (u "agent_provider_decision_budget_exceeded") (terminal_error c))
  end.

Definition counters_of (items : list WorkingItem) : counters :=
  MkCounters (_provider_decisions_used items) (_capability_calls_used items)
    (_trailing_failure_count items) (_terminal_error_pending items).

(** More than the largest limit of decisions. *)
Definition loop_fuel : nat := 33.

Definition _run_decision_loop (message : pystr) (reasoning planning : list CapabilityDefinition)
    : AS (option AgentTurnResult) :=
  budgets ← lift (of_budget (resolve_agent_budgets metadata) (AgentTurnError budget_invalid));
  _ensure_user_input message;;
  resumed ← _resume_terminal planning;
  match resumed with
  | Some r => mret (Some r)
  | None =>
      _close_interrupted_calls;;
      items ← gets an_items;
      decision_loop loop_fuel budgets reasoning planning (counters_of items)
  end.

Definition _validate_request (message conversation_summary : pystr) : result agent_exn unit :=
  raise_when ag_superuser (AgentTurnError (u "agent_superuser_forbidden"));;
  raise_when (negb (stripped_ok 4000 message)) (AgentTurnError (u "agent_message_invalid"));;
  raise_when ((8000 <? Z.of_nat (length conversation_summary)) || mem 0%N conversation_summary)
    (AgentTurnError (u "agent_history_invalid")).

(** What the monolithic engine returns: an answer, its confidence and a plan, or another object. *)
Abbreviation legacy_engine :=
  (W → result agent_exn (option (pyval * pyval * list PlannedCapability)) * W).

Definition legacy_error (e : agent_exn) : agent_exn :=
  match e with
  | AgentTurnError _ | AgentProviderFailure _ | AgentCapabilityError _ _ | AgentBaseException _ => e
  | _ => AgentTurnError (u "agent_reasoning_failed")
  end.

Definition _run_legacy (engine : legacy_engine) (planning : list CapabilityDefinition)
    : AS AgentTurnResult :=
  result_ ← catch (host_call engine) (λ e, raise (legacy_error e));
  match result_ with
  | None => raise (AgentTurnError (u "agent_reasoning_result_invalid"))
  | Some (answer, confidence, plan) =>
      answer ← lift (_validated_answer answer confidence);
      plan ← lift (_validate_plan planning plan);
      mret (MkTurnResult answer (default [] (as_str confidence)) plan None)
  end.

(** [run]; the service has one of the two engines. *)
Definition run (engine : option legacy_engine) (message conversation_summary : pystr)
    : AS (option AgentTurnResult) :=
  lift (_validate_request message conversation_summary);;
  user ← gets (λ s, ag_user (an_world s));
  reasoning ← lift (map_err of_capability (@for_reasoning user metadata rg));
  planning ← lift (map_err of_capability (@for_planning user metadata rg));
  match engine with
  | None => _run_decision_loop message reasoning planning
  | Some engine => Some <$> _run_legacy engine planning
  end.
End service.
