(* ===== verification/AgentTurnFacts.v ===== *)
(** * Agent: the counters and the transcript of a turn

    The counters of the decision loop are those of its transcript, whatever the provider answers,
    so a turn that is resumed has the budgets that were left. *)
From S2P Require Import Prelude PyText PyValue Json TaskPlan Budgets WorkingTranscript.
From S2P Require Import EffectPlan Capability CapabilityValidation Dependencies CapabilityRegistry.
From S2P Require Import CapabilityRegistryFacts EffectPlanService AgentDecision AgentTurn.
Local Open Scope Z_scope.

#[local] Arguments append_working_item : simpl never.
#[local] Arguments transcript_payload : simpl never.
#[local] Arguments append : simpl never.
#[local] Arguments u : simpl never.

(** ** Counting items *)

Lemma count_if_snoc f items x : count_if f (items ++ [x]) = count_if f items + (if f x then 1 else 0).
Proof.
  unfold count_if. rewrite filter_app, length_app, filter_cons, filter_nil.
  destruct (f x); simpl; lia.
Qed.
Lemma count_if_nonneg f items : 0 <= count_if f items.
Proof. unfold count_if. lia. Qed.

Definition plan_failed (x : WorkingItem) : bool := is_kind (u "plan_execution_error") x.

Lemma epoch_snoc items x :
  plan_failed x = false → _active_plan_epoch (items ++ [x]) = _active_plan_epoch items ++ [x].
Proof.
  unfold plan_failed. intros Hx. induction items as [|y items IH]; cbn [app _active_plan_epoch].
  - by rewrite Hx.
  - rewrite existsb_app. cbn [existsb]. rewrite Hx, !orb_false_r.
    destruct (existsb _ items); [done|]. by destruct (is_kind _ y).
Qed.

Lemma append_shape items kind data items' :
  append_working_item items kind data = Ok items' →
  items' = items ++ [MkItem (Z.of_nat (length items) + 1) kind data].
Proof. unfold append_working_item, validate_transcript. intros H. result_inv. by simplify_eq. Qed.

(** ** Statements of the service *)

Section facts.
Context {W R : Type} `{!AgentHost W R}.
Context (rg : CapabilityRegistry) (metadata : pydict) (allow_plan_proposals : bool).
Abbreviation S := (agent_run W).
Abbreviation AS := (ST S agent_exn).
Implicit Types (s : S) (c : counters) (b : AgentBudgetSet).

Lemma append_Ok_run kind data s a s' :
  append kind data s = (Ok a, s') →
  ∃ n, s' = set_items (an_items s ++ [MkItem n kind data]) s.
Proof.
  unfold append. intros H. st_inv. rewrite map_err_Ok in *.
  match goal with H : append_working_item _ _ _ = _ |- _ => apply append_shape in H as -> end. eauto.
Qed.

Definition same_items s s' : Prop := an_items s' = an_items s.
#[local] Instance same_items_preorder : PreOrder same_items.
Proof. split; [done|]. intros s1 s2 s3 H1 H2. unfold same_items in *. congruence. Qed.

Lemma host_call_items {A} (f : W → result agent_exn A * W) : keeps same_items (host_call f).
Proof. intros s. unfold host_call. by destruct (f (an_world s)). Qed.
Lemma log_call_items call : keeps same_items (modify (log_call call) : AS unit).
Proof. by intros s. Qed.
#[local] Hint Resolve host_call_items log_call_items : keeps.
Lemma persist_items : keeps same_items (_persist : AS unit).
Proof. unfold _persist. solve_keeps. Qed.
#[local] Hint Resolve persist_items : keeps.
Lemma cancelled_items : keeps same_items (_ensure_not_cancelled : AS unit).
Proof. unfold _ensure_not_cancelled. solve_keeps. Qed.
Lemma telemetry_items event_type title event : keeps same_items (emit_optional_telemetry event_type title event).
Proof. unfold emit_optional_telemetry. solve_keeps. Qed.
Lemma work_started_items : keeps same_items (_mark_work_started : AS unit).
Proof. unfold _mark_work_started. solve_keeps. Qed.
#[local] Hint Resolve cancelled_items telemetry_items work_started_items : keeps.

(** ** Counters and transcript *)

(** The transcript records as many decisions and calls. *)
Definition agrees (decisions calls : Z) s : Prop :=
  _provider_decisions_used (an_items s) = decisions ∧ _capability_calls_used (an_items s) = calls.

Lemma hoare_same_items {A} decisions calls (m : AS A) :
  keeps same_items m → hoare (agrees decisions calls) m (λ _, agrees decisions calls) (λ _, True).
Proof.
  intros H s Hs. specialize (H s). destruct (m s) as [[a|e] s']; [|done].
  unfold same_items in H. simpl in H. unfold agrees in *. by rewrite H.
Qed.

Definition counted (f : WorkingItem → bool) (kind : pystr) (data : pydict) : Z :=
  if f (MkItem 0 kind data) then 1 else 0.

Lemma append_counts decisions calls kind data :
  str_eqb kind (u "plan_execution_error") = false →
  hoare (agrees decisions calls) (append kind data)
    (λ _, agrees (decisions + counted (kind_in decision_item_kinds) kind data)
            (calls + counted is_call_decision kind data)) (λ _, True).
Proof.
  intros Hk s [Hd Hc]. destruct (append kind data s) as [[[]|e] s'] eqn:E; [|done].
  apply append_Ok_run in E as [n ->]. unfold agrees, _provider_decisions_used, _capability_calls_used, set_items in *.
  cbn [an_items]. rewrite epoch_snoc by done. by rewrite !count_if_snoc, Hd, Hc.
Qed.

Lemma record_counts decisions calls kind data :
  str_eqb kind (u "plan_execution_error") = false →
  hoare (agrees decisions calls) (record kind data)
    (λ _, agrees (decisions + counted (kind_in decision_item_kinds) kind data)
            (calls + counted is_call_decision kind data)) (λ _, True).
Proof.
  intros Hk. eapply hoare_bind; [by apply append_counts|]. intros []. apply hoare_same_items, persist_items.
Qed.

(** The postcondition of a turn of the loop that goes on. *)
Definition goes_on (o : counters + AgentTurnResult) s : Prop :=
  match o with inl c => agrees (provider_decisions c) (capability_calls c) s | inr _ => True end.

Lemma returns_any P (m : AS AgentTurnResult) : hoare P (return_ m) goes_on (λ _, True).
Proof. intros s _. unfold return_. rewrite ST_bind_at. by destruct (m s) as [[r|e] s']. Qed.

(** Items that count as neither. *)
Definition uncounted (kind : pystr) : bool :=
  negb (str_eqb kind (u "plan_execution_error")) && negb (mem kind decision_item_kinds).

Lemma uncounted_zero kind data :
  uncounted kind = true →
  str_eqb kind (u "plan_execution_error") = false ∧
  counted (kind_in decision_item_kinds) kind data = 0 ∧ counted is_call_decision kind data = 0.
Proof.
  unfold uncounted. intros [H1%negb_true_iff H2%negb_true_iff]%andb_true_iff. split; [done|].
  unfold counted, kind_in, is_call_decision, is_kind. cbn [wi_kind]. rewrite H2. split; [done|].
  destruct (str_eqb kind (u "assistant_decision")) eqn:E; [|done].
  apply str_eqb_true in E as ->. by vm_compute in H2.
Qed.

Lemma append_uncounted decisions calls kind data :
  uncounted kind = true →
  hoare (agrees decisions calls) (append kind data) (λ _, agrees decisions calls) (λ _, True).
Proof.
  intros (Hk & H1 & H2)%(uncounted_zero _ data).
  eapply hoare_conseq; [by apply append_counts|done| |done].
  intros a s. rewrite H1, H2, !Z.add_0_r. done.
Qed.
Lemma record_uncounted decisions calls kind data :
  uncounted kind = true →
  hoare (agrees decisions calls) (record kind data) (λ _, agrees decisions calls) (λ _, True).
Proof.
  intros (Hk & H1 & H2)%(uncounted_zero _ data).
  eapply hoare_conseq; [by apply record_counts|done| |done].
  intros a s. rewrite H1, H2, !Z.add_0_r. done.
Qed.

Lemma record_plan_counts decisions calls kind data :
  kind ∈ [u "task_plan"; u "task_plan_error"] →
  hoare (agrees decisions calls) (record kind data) (λ _, agrees (decisions + 1) calls) (λ _, True).
Proof.
  intros Hk. eapply hoare_conseq; [apply record_counts|done| |done].
  - apply list_elem_of_In in Hk. destruct Hk as [<-|[<-|[]]]; by vm_compute.
  - intros a s. unfold counted, is_call_decision, is_kind, kind_in. cbn [wi_kind].
    apply list_elem_of_In in Hk. destruct Hk as [<-|[<-|[]]]; by rewrite Z.add_0_r.
Qed.

(** The decisions that have a call id. *)
Definition is_call (x : NextDecision) : bool :=
  match x with ReasoningCapabilityCall _ _ _ => true | _ => false end.

Lemma decision_counts decisions calls x :
  (∀ answer confidence, x ≠ FinalAnswer answer confidence) → (∀ p, x ≠ TaskPlanUpdate p) →
  hoare (agrees decisions calls) (_record_decision x)
    (λ _, agrees (decisions + 1) (calls + if is_call x then 1 else 0)) (λ _, True).
Proof.
  intros H1 H2. eapply hoare_conseq; [apply record_counts; by vm_compute|done| |done].
  intros a s. destruct x; [by destruct (H1 answer confidence)|by destruct (H2 task_plan)|done..].
Qed.

Lemma gets_counts {A} decisions calls (f : S → A) :
  hoare (agrees decisions calls) (gets f : AS A) (λ _, agrees decisions calls) (λ _, True).
Proof. apply hoare_same_items. by intros s. Qed.

Create HintDb counts discriminated.
Hint Resolve gets_counts append_uncounted record_uncounted returns_any : counts.
Hint Extern 1 (uncounted _ = true) => vm_compute; reflexivity : counts.
Hint Extern 2 (hoare _ _ _ _) => apply hoare_same_items; solve [eauto with keeps] : counts.

(** Walks a statement under [agrees]. *)
Ltac count_walk :=
  repeat first
    [ solve [eauto with counts]
    | apply hoare_bind_lift; [done|intros ? ?]
    | eapply hoare_bind; [solve [eauto with counts]|intros ?]
    | match goal with |- hoare _ (if ?x then _ else _) _ _ => destruct x eqn:? end
    | match goal with |- hoare _ (raise _) _ _ => by apply hoare_raise end ].

Lemma failure_counts b c P :
  (∀ s, P s → agrees (provider_decisions c) (capability_calls c) s) →
  hoare P (after_failure b c) goes_on (λ _, True).
Proof.
  intros HP. unfold after_failure. case_match; [apply returns_any|]. apply hoare_ret. intros s Hs. by apply HP.
Qed.

Lemma require_fresh_items call_id : keeps same_items (require_fresh_call call_id : AS unit).
Proof. unfold require_fresh_call. solve_keeps. Qed.
Hint Resolve require_fresh_items : keeps.

Lemma rejected_counts b code rejected c :
  hoare (agrees (provider_decisions c - 1) (capability_calls c)) (on_rejected b code rejected c)
    goes_on (λ _, True).
Proof.
  assert (∀ revision, hoare (agrees (provider_decisions c - 1) (capability_calls c))
    (_record_rejected_revision revision code;; after_failure b c) goes_on (λ _, True)) as Hrevision.
  { intros revision. eapply hoare_bind; [apply record_plan_counts; set_solver|]. intros [].
    apply failure_counts. intros s. by rewrite Z.sub_add. }
  assert (∀ x, (∀ answer confidence, x ≠ FinalAnswer answer confidence) → (∀ p, x ≠ TaskPlanUpdate p) →
    ∀ call_id capability, hoare (agrees (provider_decisions c - 1) (capability_calls c))
      (_record_rejected_decision x call_id capability code)
      (λ _, agrees (provider_decisions c) (capability_calls c + if is_call x then 1 else 0)) (λ _, True)) as Hx.
  { intros x H1 H2 call_id capability. unfold _record_rejected_decision.
    eapply hoare_bind; [solve [eauto with counts]|intros []].
    eapply hoare_bind; [by apply decision_counts|intros []]. rewrite Z.sub_add. unfold record_error.
    by apply record_uncounted. }
  destruct rejected as [[a f|p|call_id capability args|call_id capability args summary]|revision|];
    cbn [on_rejected].
  - by apply hoare_raise.
  - apply Hrevision.
  - case_match; [apply returns_any|]. eapply hoare_bind; [by apply Hx|]. intros [].
    apply failure_counts. intros s. apply id.
  - eapply hoare_bind; [by apply Hx|]. intros []. apply failure_counts. intros s. cbn [is_call].
    by rewrite Z.add_0_r.
  - apply Hrevision.
  - by apply hoare_raise.
Qed.

(** An append that raises leaves the items. *)
Lemma append_catch decisions calls kind data :
  uncounted kind = true →
  hoare (agrees decisions calls) (append kind data) (λ _, agrees decisions calls) (agrees decisions calls).
Proof.
  intros Hk s Hs. pose proof (append_uncounted decisions calls kind data Hk s Hs) as H.
  destruct (append kind data s) as [[a|e] s'] eqn:E; [done|].
  revert E. unfold append. rewrite ST_bind_at. cbn [gets]. rewrite ST_bind_lift.
  destruct (map_err _ _); [done|]. by intros [= _ <-].
Qed.

Lemma capability_error_counts decisions calls call_id capability code details :
  hoare (agrees decisions calls) (_record_capability_error call_id capability code details)
    (λ _, agrees decisions calls) (λ _, True).
Proof.
  unfold _record_capability_error.
  eapply (hoare_bind _ (λ _, agrees decisions calls)); [|intros []; by apply hoare_same_items, persist_items].
  eapply hoare_catch; [by apply append_catch|]. intros e.
  destruct e; try (by apply hoare_raise). case_match; [by apply hoare_raise|]. by apply append_uncounted.
Qed.

Lemma execute_items capability arguments : keeps same_items (_execute_reasoning capability arguments : AS R).
Proof. unfold _execute_reasoning. solve_keeps. Qed.
Hint Resolve execute_items : keeps.

Lemma result_counts b call_id capability data c :
  hoare (agrees (provider_decisions c) (capability_calls c)) (record_result b call_id capability data c)
    goes_on (λ _, True).
Proof.
  unfold record_result.
  eapply (hoare_bind _ (λ _, agrees (provider_decisions c) (capability_calls c))); [|intros stored].
  - eapply hoare_catch.
    + eapply hoare_bind; [by apply append_catch|]. intros []. by apply hoare_ret.
    + intros e. destruct e; try (by apply hoare_raise). case_match; [by apply hoare_raise|].
      eapply hoare_bind; [by apply append_uncounted|]. intros []. by apply hoare_ret.
  - eapply hoare_bind; [by apply hoare_same_items, persist_items|intros []].
    destruct stored; [by apply hoare_ret|by apply failure_counts].
Qed.

Lemma call_counts b reasoning call_id capability arguments c :
  hoare (agrees (provider_decisions c - 1) (capability_calls c))
    (on_call b reasoning (ReasoningCapabilityCall call_id capability arguments) call_id capability arguments c)
    goes_on (λ _, True).
Proof.
  unfold on_call. case_match; [apply returns_any|].
  eapply hoare_bind; [apply gets_counts|intros items]. apply hoare_bind_lift; [done|intros limit _].
  assert (hoare (agrees (provider_decisions c - 1) (capability_calls c))
    (_record_decision (ReasoningCapabilityCall call_id capability arguments))
    (λ _, agrees (provider_decisions (count_capability c)) (capability_calls (count_capability c)))
    (λ _, True)) as Hd.
  { eapply hoare_conseq; [by apply decision_counts|done| |done]. intros a s. by rewrite Z.sub_add. }
  case_match.
  - eapply hoare_bind; [apply Hd|intros []]. eapply hoare_bind; [by apply record_uncounted|intros []].
    by apply failure_counts.
  - eapply hoare_bind; [apply hoare_same_items, require_fresh_items|intros []].
    eapply hoare_bind; [apply Hd|intros []]. eapply hoare_bind; [by apply record_uncounted|intros []].
    eapply hoare_bind; [apply hoare_same_items, cancelled_items|intros []].
    eapply hoare_bind; [apply hoare_same_items; solve_keeps|intros [[code details]|r]].
    + eapply hoare_bind; [apply capability_error_counts|intros []].
      case_match; [by apply hoare_ret|by apply failure_counts].
    + apply result_counts.
Qed.

Lemma proposal_counts b planning call_id capability arguments summary c :
  hoare (agrees (provider_decisions c - 1) (capability_calls c))
    (on_proposal metadata allow_plan_proposals b planning (PlanStepProposal call_id capability arguments summary)
       call_id capability arguments summary c) goes_on (λ _, True).
Proof.
  unfold on_proposal.
  eapply (hoare_bind _ (λ _, agrees (provider_decisions c) (capability_calls c))); [|intros []].
  { eapply hoare_conseq; [by apply decision_counts|done| |done]. intros a s. by rewrite Z.sub_add, Z.add_0_r. }
  eapply (hoare_bind _ (λ _, agrees (provider_decisions c) (capability_calls c))); [|intros []].
  { destruct allow_plan_proposals; [by apply hoare_ret|].
    eapply hoare_bind; [by apply record_uncounted|intros []]. by apply hoare_raise. }
  eapply hoare_bind; [apply gets_counts|intros items]. apply hoare_bind_lift; [done|intros current _].
  eapply (hoare_bind _ (λ _, agrees (provider_decisions c) (capability_calls c))); [|intros []].
  { case_match; [by apply hoare_ret|]. eapply hoare_bind; [by apply record_uncounted|intros []]. by apply hoare_raise. }
  eapply hoare_bind; [by apply record_uncounted|intros []]. case_match.
  - eapply hoare_bind; [apply gets_counts|intros items2]. apply hoare_bind_lift; [done|intros proposed _].
    apply hoare_bind_lift; [done|intros plan _]. apply hoare_bind_lift; [done|intros task_plan _].
    by apply hoare_ret.
  - by apply hoare_ret.
Qed.

Lemma task_plan_counts decisions calls plan :
  hoare (agrees decisions calls) (_record_task_plan plan) (λ _, agrees (decisions + 1) calls) (λ _, True).
Proof.
  unfold _record_task_plan. eapply hoare_bind; [apply gets_counts|intros items].
  apply hoare_bind_lift; [done|intros previous _]. apply hoare_bind_lift; [done|intros [] _].
  eapply hoare_bind; [apply record_plan_counts; by left|intros []].
  eapply hoare_bind; [apply hoare_same_items, telemetry_items|intros sent]. by apply hoare_ret.
Qed.

Lemma decided_counts b reasoning planning x c :
  hoare (agrees (provider_decisions c - 1) (capability_calls c))
    (on_decision metadata allow_plan_proposals b reasoning planning x c) goes_on (λ _, True).
Proof.
  unfold on_decision.
  destruct (terminal_error c) as [code|], x;
    try match goal with |- hoare _ (return_ _) _ _ => apply returns_any end;
    (eapply hoare_bind; [apply hoare_same_items, work_started_items|intros []]).
  - eapply hoare_bind; [apply task_plan_counts|intros []]. apply hoare_ret. intros s. cbn [goes_on].
    by rewrite Z.sub_add.
  - apply call_counts.
  - apply proposal_counts.
Qed.

Lemma ask_items reasoning planning left_ : keeps same_items (ask_provider reasoning planning left_ : AS _).
Proof. unfold ask_provider. solve_keeps. Qed.

(** A turn of the loop that goes on leaves counters that agree with the transcript. *)
Lemma step_agrees b reasoning planning c :
  hoare (agrees (provider_decisions c) (capability_calls c))
    (decision_step metadata allow_plan_proposals b reasoning planning c) goes_on (λ _, True).
Proof.
  unfold decision_step. eapply hoare_bind; [apply hoare_same_items, cancelled_items|intros []].
  eapply hoare_bind; [apply gets_counts|intros items].
  apply hoare_bind_lift; [done|intros proposed _]. apply hoare_bind_lift; [done|intros bytes _].
  apply hoare_bind_lift; [done|intros left_ _].
  eapply hoare_bind; [apply hoare_same_items, ask_items|intros answer].
  assert (provider_decisions c = provider_decisions (count_decision c) - 1) as -> by (simpl; lia).
  change (capability_calls c) with (capability_calls (count_decision c)).
  destruct answer as [x|[code rejected]]; [apply decided_counts|apply rejected_counts].
Qed.

Lemma user_input_counts decisions calls message :
  hoare (agrees decisions calls) (_ensure_user_input message) (λ _, agrees decisions calls) (λ _, True).
Proof.
  unfold _ensure_user_input. eapply hoare_bind; [apply gets_counts|intros [|x items]].
  - by apply record_uncounted.
  - apply hoare_same_items. by intros s.
Qed.
Lemma resume_items planning :
  keeps same_items (_resume_terminal metadata allow_plan_proposals planning : AS _).
Proof. unfold _resume_terminal. solve_keeps. Qed.
Lemma close_counts decisions calls :
  hoare (agrees decisions calls) (_close_interrupted_calls) (λ _, agrees decisions calls) (λ _, True).
Proof.
  unfold _close_interrupted_calls. eapply hoare_bind; [apply gets_counts|intros items].
  case_match; [by apply hoare_ret|].
  eapply (hoare_bind _ (λ _, agrees decisions calls)); [|intros []; by apply hoare_same_items, persist_items].
  apply (hoare_fold (λ _ _, agrees decisions calls)). intros seen [call_id data] rest [] _.
  unfold close_call. by apply append_uncounted.
Qed.

(** One turn of the loop that goes on. *)
Definition loop_turn b reasoning planning (p q : counters * S) : Prop :=
  decision_step metadata allow_plan_proposals b reasoning planning p.1 p.2 = (Ok (inl q.1), q.2).

(** C11: However many turns the decision loop has made, the decisions and calls it has counted
    are those that its transcript records: a turn resumed from the transcript has the budgets
    that were left. *)
Theorem resumed_budgets_agree b reasoning planning s c' s' :
  rtc (loop_turn b reasoning planning) (counters_of (an_items s), s) (c', s') →
  provider_decisions (counters_of (an_items s')) = provider_decisions c' ∧
  capability_calls (counters_of (an_items s')) = capability_calls c'.
Proof.
  intros Hr.
  assert (∀ p q, rtc (loop_turn b reasoning planning) p q →
    agrees (provider_decisions p.1) (capability_calls p.1) p.2 →
    agrees (provider_decisions q.1) (capability_calls q.1) q.2) as H.
  { induction 1 as [p|p q r Hpq _ IH]; [done|]. intros Hp. apply IH.
    pose proof (step_agrees b reasoning planning p.1 p.2 Hp) as Hs. unfold loop_turn in Hpq.
    by rewrite Hpq in Hs. }
  exact (H _ _ Hr (conj eq_refl eq_refl)).
Qed.
End facts.
