(* ===== verification/AgentTurnBudgets.v ===== *)
(** * Agent: the budgets of a turn

    Whatever the provider answers, the decision loop ends, and it asks the provider and executes
    capabilities within the budgets. *)
From S2P Require Import Prelude PyText PyValue Json TaskPlan Budgets WorkingTranscript.
From S2P Require Import EffectPlan Capability CapabilityValidation Dependencies CapabilityRegistry.
From S2P Require Import CapabilityRegistryFacts EffectPlanService AgentDecision AgentTurn AgentTurnFacts.
Local Open Scope Z_scope.

#[local] Arguments append_working_item : simpl never.
#[local] Arguments transcript_payload : simpl never.
#[local] Arguments append : simpl never.
#[local] Arguments u : simpl never.

Section budgets.
Context {W R : Type} `{!AgentHost W R}.
Context (rg : CapabilityRegistry) (metadata : pydict) (allow_plan_proposals : bool).
Abbreviation S := (agent_run W).
Abbreviation AS := (ST S agent_exn).
Implicit Types (s : S) (c : counters) (b : AgentBudgetSet).

(** ** Calls of the provider and of capabilities *)

Definition is_ask (call : agent_call) : bool := match call with AskProvider _ => true | _ => false end.
Definition is_execution (call : agent_call) : bool :=
  match call with ExecuteCapability _ _ => true | _ => false end.
Definition tally (f : agent_call → bool) s : Z := Z.of_nat (length (filter (λ call, f call = true) (an_log s))).

Definition spends (asks executions : Z) {A} (m : AS A) : Prop := ∀ s,
  tally is_ask (m s).2 <= tally is_ask s + asks ∧
  tally is_execution (m s).2 <= tally is_execution s + executions.

(** The transcript grows at its end and stays valid. *)
Definition extends s s' : Prop :=
  (∃ l, an_items s' = an_items s ++ l) ∧ (transcript_ok (an_items s) → transcript_ok (an_items s')).
#[local] Instance extends_preorder : PreOrder extends.
Proof.
  split; [intros s; split; [exists []; by rewrite app_nil_r|done]|].
  intros s1 s2 s3 [(l1 & E1) H1] [(l2 & E2) H2]. split; [|auto].
  exists (l1 ++ l2). by rewrite E2, E1, app_assoc.
Qed.
Lemma extends_same s s' : an_items s' = an_items s → extends s s'.
Proof. intros E. unfold extends. rewrite E. split; [exists []; by rewrite app_nil_r|done]. Qed.

(** Only persists are logged. *)
Definition persists (call : agent_call) : Prop := ∃ items, call = Persisted items.
Definition quiet s s' : Prop :=
  extends s s' ∧ ∃ new, an_log s' = an_log s ++ new ∧ Forall persists new.
#[local] Instance quiet_preorder : PreOrder quiet.
Proof.
  split; [intros s; split; [reflexivity|]; exists []; by rewrite app_nil_r|].
  intros s1 s2 s3 [X1 (l1 & E1 & H1)] [X2 (l2 & E2 & H2)]. split; [by transitivity s2|].
  exists (l1 ++ l2). rewrite E2, E1, app_assoc. split; [done|]. by apply Forall_app.
Qed.
Lemma quiet_store s s' : an_items s' = an_items s → an_log s' = an_log s → quiet s s'.
Proof. intros Ei E. split; [by apply extends_same|]. exists []. by rewrite app_nil_r. Qed.

Lemma tally_persists f new :
  (∀ items, f (Persisted items) = false) → Forall persists new →
  length (filter (λ call, f call = true) new) = 0%nat.
Proof. intros Hf. induction 1 as [|call new (items & ->) _ IH]; [done|]. by rewrite filter_cons, Hf. Qed.
Lemma quiet_tally s s' :
  quiet s s' → tally is_ask s' = tally is_ask s ∧ tally is_execution s' = tally is_execution s.
Proof.
  intros [_ (new & E & H)]. unfold tally. rewrite E, !filter_app, !length_app.
  rewrite !(tally_persists _ new) by done. lia.
Qed.

Lemma quiet_spends {A} a e (m : AS A) : keeps quiet m → 0 <= a → 0 <= e → spends a e m.
Proof. intros H ? ? s. destruct (quiet_tally _ _ (H s)) as [-> ->]. lia. Qed.
Lemma spends_bind {A B} a1 e1 a2 e2 (m : AS A) (f : A → AS B) :
  spends a1 e1 m → (∀ x, spends a2 e2 (f x)) → 0 <= a2 → 0 <= e2 → spends (a1 + a2) (e1 + e2) (m ≫= f).
Proof.
  intros Hm Hf ? ? s. rewrite ST_bind_at. specialize (Hm s). destruct (m s) as [[x|e] s1]; simpl in *; [|lia].
  specialize (Hf x s1). lia.
Qed.
Lemma spends_after {A B} a e (m : AS A) (f : A → AS B) :
  keeps quiet m → (∀ x, spends a e (f x)) → 0 <= a → 0 <= e → spends a e (m ≫= f).
Proof. intros Hm Hf Ha He. apply (spends_bind 0 0 a e); [by apply quiet_spends|done..]. Qed.
Lemma spends_then_quiet {A B} a e (m : AS A) (f : A → AS B) :
  spends a e m → (∀ x, keeps quiet (f x)) → spends a e (m ≫= f).
Proof.
  intros Hm Hf s. rewrite ST_bind_at. specialize (Hm s). destruct (m s) as [[x|err] s1]; simpl in *; [|done].
  destruct (quiet_tally _ _ (Hf x s1)) as [-> ->]. done.
Qed.

Lemma spends_catch {A} a e (m : AS A) h :
  spends a e m → (∀ x, keeps quiet (h x)) → spends a e (catch m h).
Proof.
  intros Hm Hh s. unfold catch. specialize (Hm s). destruct (m s) as [[x|err] s1]; simpl in *; [done|].
  destruct (quiet_tally _ _ (Hh err s1)) as [-> ->]. done.
Qed.

Lemma host_call_quiet {A} (f : W → result agent_exn A * W) : keeps quiet (host_call f).
Proof. intros s. unfold host_call. destruct (f (an_world s)). by apply quiet_store. Qed.
Lemma persisted_quiet items : keeps quiet (modify (log_call (Persisted items)) : AS unit).
Proof.
  intros s. split; [by apply extends_same|]. exists [Persisted items]. split; [done|].
  repeat constructor. by exists items.
Qed.
Lemma started_quiet :
  keeps quiet (modify (λ s, MkAgentRun (an_world s) (an_items s) true (an_log s)) : AS unit).
Proof. intros s. by apply quiet_store. Qed.
#[local] Hint Resolve host_call_quiet persisted_quiet started_quiet : keeps.
Lemma append_quiet kind data : keeps quiet (append kind data : AS unit).
Proof.
  intros s. unfold append. rewrite ST_bind_at. cbn [gets]. rewrite ST_bind_lift.
  destruct (append_working_item _ kind data) as [items|e] eqn:E; [|by apply quiet_store].
  split; [|exists []; by rewrite app_nil_r]. split; simpl.
  - apply append_shape in E as ->. eauto.
  - intros Hok. by destruct (append_Ok _ _ _ _ Hok E).
Qed.
Lemma persist_quiet : keeps quiet (_persist : AS unit).
Proof. unfold _persist. solve_keeps. Qed.
#[local] Hint Resolve append_quiet persist_quiet : keeps.
Lemma record_quiet kind data : keeps quiet (record kind data : AS unit).
Proof. unfold record. solve_keeps. Qed.
#[local] Hint Resolve record_quiet : keeps.
Lemma finish_quiet code : keeps quiet (finish_safely code : AS AgentTurnResult).
Proof. unfold finish_safely. solve_keeps. Qed.
Lemma cancelled_quiet : keeps quiet (_ensure_not_cancelled : AS unit).
Proof. unfold _ensure_not_cancelled. solve_keeps. Qed.
Lemma telemetry_quiet event_type title event : keeps quiet (emit_optional_telemetry event_type title event).
Proof. unfold emit_optional_telemetry. solve_keeps. Qed.
Lemma work_started_quiet : keeps quiet (_mark_work_started : AS unit).
Proof. unfold _mark_work_started. solve_keeps. Qed.
Lemma capability_error_quiet call_id capability code details :
  keeps quiet (_record_capability_error call_id capability code details : AS unit).
Proof. unfold _record_capability_error. solve_keeps. Qed.
#[local] Hint Resolve finish_quiet cancelled_quiet telemetry_quiet work_started_quiet capability_error_quiet : keeps.
#[local] Opaque append record _persist finish_safely emit_optional_telemetry _mark_work_started.
Lemma task_plan_quiet plan : keeps quiet (_record_task_plan plan : AS unit).
Proof. unfold _record_task_plan. solve_keeps. Qed.
Lemma failure_quiet b c : keeps quiet (after_failure b c : AS _).
Proof. unfold after_failure, return_. solve_keeps. Qed.
Lemma decision_quiet x : keeps quiet (_record_decision x : AS unit).
Proof. unfold _record_decision. solve_keeps. Qed.
Lemma fresh_quiet call_id : keeps quiet (require_fresh_call call_id : AS unit).
Proof. unfold require_fresh_call. solve_keeps. Qed.
#[local] Hint Resolve task_plan_quiet failure_quiet decision_quiet fresh_quiet : keeps.
#[local] Opaque _record_task_plan after_failure _record_decision require_fresh_call.
Lemma record_error_quiet call_id capability code : keeps quiet (record_error call_id capability code : AS unit).
Proof. unfold record_error. apply record_quiet. Qed.
Lemma return_quiet m : keeps quiet m → keeps quiet (return_ m : AS _).
Proof. intros Hm. unfold return_. apply keeps_bind; [apply _|done|intros r; apply keeps_ret, _]. Qed.
#[local] Hint Resolve record_error_quiet return_quiet : keeps.
Lemma rejected_decision_quiet x call_id capability code :
  keeps quiet (_record_rejected_decision x call_id capability code : AS unit).
Proof. unfold _record_rejected_decision. solve_keeps. Qed.
Lemma rejected_revision_quiet revision code : keeps quiet (_record_rejected_revision revision code : AS unit).
Proof. unfold _record_rejected_revision. apply record_quiet. Qed.
#[local] Hint Resolve rejected_decision_quiet rejected_revision_quiet : keeps.
Lemma rejected_quiet b code rejected c : keeps quiet (on_rejected b code rejected c : AS _).
Proof.
  unfold on_rejected. destruct rejected as [[]| |]; solve_keeps.
Qed.
Lemma answer_quiet planning answer confidence :
  keeps quiet (finish_answer metadata allow_plan_proposals planning answer confidence : AS _).
Proof. unfold finish_answer. solve_keeps. Qed.
Lemma proposal_quiet b planning x call_id capability arguments summary c :
  keeps quiet (on_proposal metadata allow_plan_proposals b planning x call_id capability arguments summary c : AS _).
Proof. unfold on_proposal. solve_keeps. Qed.
Lemma result_quiet b call_id capability data c : keeps quiet (record_result b call_id capability data c : AS _).
Proof. unfold record_result. solve_keeps. Qed.
#[local] Hint Resolve rejected_quiet answer_quiet proposal_quiet result_quiet : keeps.

(** A continued turn has counted no decision more and at least [k] calls more. *)
Definition moves_on c (k : Z) (o : counters + AgentTurnResult) : Prop :=
  match o with
  | inl c' => provider_decisions c' = provider_decisions c ∧ capability_calls c + k <= capability_calls c'
  | inr _ => True
  end.
Definition within c (k : Z) (m : AS (counters + AgentTurnResult)) : Prop :=
  spends 0 k m ∧ yields (moves_on c k) (λ _, True) m.

Lemma within_quiet c (m : AS _) : keeps quiet m → yields (moves_on c 0) (λ _, True) m → within c 0 m.
Proof. intros Hq Hy. split; [by apply quiet_spends|done]. Qed.

Lemma yields_then {A B} (Q : B → Prop) (m : AS A) (f : A → AS B) :
  (∀ a, yields Q (λ _, True) (f a)) → yields Q (λ _, True) (m ≫= f).
Proof. intros Hf. apply (yields_bind _ (λ _, True)); [apply yields_any|intros a _; apply Hf]. Qed.
Lemma yields_raised {A} (Q : A → Prop) (e : agent_exn) : yields Q (λ _, True) (raise e : AS A).
Proof. by intros s. Qed.
Lemma yields_returned c k (m : AS AgentTurnResult) : yields (moves_on c k) (λ _, True) (return_ m).
Proof. unfold return_. apply yields_then. intros r. by apply yields_ret. Qed.

#[local] Transparent after_failure.
Lemma failure_moves b c c' k :
  provider_decisions c' = provider_decisions c → capability_calls c + k <= capability_calls c' →
  yields (moves_on c k) (λ _, True) (after_failure b c').
Proof.
  intros Hp Hk. unfold after_failure. case_match; [apply yields_returned|]. by apply yields_ret.
Qed.
#[local] Opaque after_failure.

Lemma rejected_within b code rejected c : within c 0 (on_rejected b code rejected c).
Proof.
  apply within_quiet; [apply rejected_quiet|]. unfold on_rejected.
  destruct rejected as [[]| |]; try (by apply yields_raised).
  - apply yields_then. intros []. apply failure_moves; lia.
  - case_match; [apply yields_returned|]. apply yields_then. intros []. apply failure_moves; simpl; lia.
  - apply yields_then. intros []. apply failure_moves; lia.
  - apply yields_then. intros []. apply failure_moves; lia.
Qed.

Lemma proposal_moves b planning x call_id capability arguments summary c :
  yields (moves_on c 0) (λ _, True)
    (on_proposal metadata allow_plan_proposals b planning x call_id capability arguments summary c).
Proof.
  unfold on_proposal. do 3 (apply yields_then; intros ?). apply yields_then. intros current.
  do 2 (apply yields_then; intros ?). case_match.
  - do 4 (apply yields_then; intros ?). by apply yields_ret.
  - apply yields_ret. split; simpl; lia.
Qed.

Lemma execution_spends capability arguments : spends 0 1 (_execute_reasoning capability arguments : AS R).
Proof.
  unfold _execute_reasoning. apply spends_then_quiet; [|intros []; apply host_call_quiet].
  intros s. unfold tally, log_call. cbn [modify snd an_log]. rewrite !filter_app, !length_app. simpl. lia.
Qed.

Lemma call_within b reasoning x call_id capability arguments c :
  capability_calls c < max_capability_calls (exploration b) →
  within c 1 (on_call b reasoning x call_id capability arguments c).
Proof.
  intros Hc. unfold on_call. cbn [count_capability capability_calls].
  replace (max_capability_calls (exploration b) <? capability_calls c + 1) with false by (symmetry; apply Z.ltb_ge; lia).
  split.
  - apply spends_after; [solve_keeps| |lia..]. intros items. apply spends_after; [solve_keeps| |lia..]. intros limit.
    case_match; [apply quiet_spends; [solve_keeps|lia..]|].
    do 4 (apply spends_after; [solve_keeps| |lia..]; intros []).
    apply spends_then_quiet; [|intros [[code details]|r]; solve_keeps].
    apply spends_catch; [|intros []; solve_keeps].
    apply spends_then_quiet; [apply execution_spends|intros r; apply keeps_ret, _].
  - apply yields_then. intros items. apply yields_then. intros limit. case_match.
    + apply yields_then. intros []. apply yields_then. intros []. apply failure_moves; simpl; lia.
    + do 4 (apply yields_then; intros []). apply yields_then. intros [[code details]|r].
      * apply yields_then. intros []. case_match; [apply yields_ret; split; simpl; lia|].
        apply failure_moves; simpl; lia.
      * unfold record_result. apply yields_then. intros stored. apply yields_then. intros [].
        destruct stored; [apply yields_ret; split; simpl; lia|]. apply failure_moves; simpl; lia.
Qed.

Lemma decided_within b reasoning planning x c :
  ∃ k, (k = 0 ∨ k = 1 ∧ capability_calls c < max_capability_calls (exploration b)) ∧
    within c k (on_decision metadata allow_plan_proposals b reasoning planning x c).
Proof.
  assert (∀ m : AS AgentTurnResult, keeps quiet m → within c 0 (return_ m)) as Hreturn.
  { intros m Hm. apply within_quiet; [by apply return_quiet|apply yields_returned]. }
  assert (∀ m : AS (counters + AgentTurnResult), keeps quiet m → yields (moves_on c 0) (λ _, True) m →
    within c 0 (_mark_work_started;; m)) as Hstarted.
  { intros m Hm Hy. apply within_quiet; [|apply yields_then; by intros []].
    apply keeps_bind; [apply _|apply work_started_quiet|by intros []]. }
  unfold on_decision. destruct (terminal_error c) as [code|].
  - exists 0. split; [by left|]. destruct x; apply Hreturn; (apply finish_quiet || apply answer_quiet).
  - destruct x as [a f|p|call_id capability args|call_id capability args summary].
    + exists 0. split; [by left|]. apply Hreturn, answer_quiet.
    + exists 0. split; [by left|]. apply Hstarted; [solve_keeps|].
      apply yields_then. intros []. apply yields_ret. split; simpl; lia.
    + destruct (decide (capability_calls c < max_capability_calls (exploration b))) as [Hc|Hc].
      * exists 1. split; [by right|]. destruct (call_within b reasoning
          (ReasoningCapabilityCall call_id capability args) call_id capability args c Hc) as [H1 H2].
        split; [|apply yields_then; by intros []]. apply spends_after; [apply work_started_quiet|by intros []|lia..].
      * exists 0. split; [by left|]. apply Hstarted; unfold on_call; cbn [count_capability capability_calls];
          (replace (max_capability_calls (exploration b) <? capability_calls c + 1) with true
             by (symmetry; apply Z.ltb_lt; lia)); [apply return_quiet, finish_quiet|apply yields_returned].
    + exists 0. split; [by left|]. apply Hstarted; [apply proposal_quiet|apply proposal_moves].
Qed.

(** ** The loop *)

(** One more question at most, one more execution when the calls allow it, and the counters of a
    continued turn count them. *)
Definition budget_step b c (m : AS (counters + AgentTurnResult)) : Prop := ∀ s,
  ∃ k, (k = 0 ∨ k = 1 ∧ capability_calls c < max_capability_calls (exploration b)) ∧
    tally is_ask (m s).2 <= tally is_ask s + 1 ∧
    tally is_execution (m s).2 <= tally is_execution s + k ∧
    ∀ c', (m s).1 = Ok (inl c') →
      provider_decisions c' = provider_decisions c + 1 ∧ capability_calls c + k <= capability_calls c'.

Lemma budget_step_after {A} b c (m : AS A) (f : A → AS _) :
  keeps quiet m → (∀ a, budget_step b c (f a)) → budget_step b c (m ≫= f).
Proof.
  intros Hm Hf s. rewrite ST_bind_at. pose proof (quiet_tally _ _ (Hm s)) as Hq. destruct (m s) as [[a|e] s1]; simpl in *.
  - specialize (Hf a s1). destruct Hq as [<- <-]. done.
  - exists 0. destruct Hq as [-> ->]. split_and!; [by left|lia|lia|done].
Qed.

Lemma ask_spends reasoning planning left_ : spends 1 0 (ask_provider reasoning planning left_ : AS _).
Proof.
  unfold ask_provider. apply (spends_bind 1 0 0 0); [|intros []; apply quiet_spends; [solve_keeps|lia..]|lia..].
  intros s. unfold tally, log_call. cbn [modify snd an_log]. rewrite !filter_app, !length_app. simpl. lia.
Qed.

Lemma step_budget b reasoning planning c :
  budget_step b c (decision_step metadata allow_plan_proposals b reasoning planning c).
Proof.
  unfold decision_step. apply budget_step_after; [apply cancelled_quiet|intros []].
  do 4 (apply budget_step_after; [solve_keeps|intros ?]). intros s. rewrite ST_bind_at.
  pose proof (ask_spends reasoning planning a2 s) as [Ha He].
  destruct (ask_provider reasoning planning a2 s) as [[[x|[code rejected]]|e] s1]; simpl in Ha, He.
  - destruct (decided_within b reasoning planning x (count_decision c)) as (k & Hk & Hs & Hy).
    exists k. split; [done|]. specialize (Hs s1) as [? ?]. specialize (Hy s1).
    split_and!; [lia|lia|]. intros c' Hc'. rewrite Hc' in Hy. destruct Hy as [H1 H2]. simpl in *. lia.
  - destruct (rejected_within b code rejected (count_decision c)) as [Hs Hy].
    exists 0. split; [by left|]. specialize (Hs s1) as [? ?]. specialize (Hy s1).
    split_and!; [lia|lia|]. intros c' Hc'. rewrite Hc' in Hy. destruct Hy as [H1 H2]. simpl in *. lia.
  - exists 0. split_and!; [by left|simpl; lia|simpl; lia|done].
Qed.

Lemma loop_budget fuel b reasoning planning c s :
  let '(o, s') := decision_loop metadata allow_plan_proposals fuel b reasoning planning c s in
  tally is_ask s' <= tally is_ask s + Z.max 0 (provider_decision_limit b - provider_decisions c) ∧
  tally is_execution s' <= tally is_execution s
    + Z.max 0 (max_capability_calls (exploration b) - capability_calls c) ∧
  (Z.max 0 (provider_decision_limit b - provider_decisions c) < Z.of_nat fuel → o ≠ Ok None).
Proof.
  revert c s. induction fuel as [|fuel IH]; intros c s; cbn [decision_loop].
  { split_and!; simpl; try lia. }
  destruct (provider_decisions c <? provider_decision_limit b) eqn:Hlt.
  - apply Z.ltb_lt in Hlt. rewrite ST_bind_at.
    destruct (step_budget b reasoning planning c s) as (k & Hk & Ha & He & Hn).
    destruct (decision_step _ _ _ _ _ c s) as [[[c'|r]|e] s1]; simpl in Ha, He, Hn.
    + specialize (IH c' s1). destruct (decision_loop _ _ fuel _ _ _ c' s1) as [o s'].
      destruct (Hn c' eq_refl) as [Hp Hc]. destruct IH as (H1 & H2 & H3). split_and!; [lia|lia|].
      intros Hf. apply H3. lia.
    + split_and!; simpl; try lia. done.
    + split_and!; simpl; try lia. done.
  - unfold fmap, ST_fmap.
    pose proof (quiet_tally _ _ (finish_quiet (default (u "agent_provider_decision_budget_exceeded") (terminal_error c)) s)) as [Ha He].
    destruct (finish_safely _ s) as [[r|e] s']; simpl in *; split_and!; try lia; done.
Qed.

(** ** The whole run *)

Lemma user_input_quiet message : keeps quiet (_ensure_user_input message : AS unit).
Proof. unfold _ensure_user_input. solve_keeps. Qed.
Lemma resume_quiet planning : keeps quiet (_resume_terminal metadata allow_plan_proposals planning : AS _).
Proof. unfold _resume_terminal. solve_keeps. Qed.
Lemma close_call_quiet p : keeps quiet (close_call p : AS unit).
Proof. destruct p as [call_id data]. unfold close_call. apply append_quiet. Qed.
Lemma keeps_each {A} (Rel : S → S → Prop) `{!PreOrder Rel} (f : A → AS unit) l :
  (∀ x, keeps Rel (f x)) → keeps Rel (foldST (λ _ x, f x) tt l).
Proof.
  intros Hf. induction l as [|x l IH]; cbn [foldST]; [by apply keeps_ret|].
  apply keeps_bind; [done|apply Hf|intros []; apply IH].
Qed.
Lemma close_quiet : keeps quiet (_close_interrupted_calls : AS unit).
Proof.
  unfold _close_interrupted_calls. apply keeps_bind; [apply _|solve_keeps|intros items].
  case_match; [solve_keeps|]. apply keeps_bind; [apply _|apply keeps_each; [apply _|apply close_call_quiet]|].
  intros []. apply persist_quiet.
Qed.

(** From the start of the loop the counters are those of the transcript it was given. *)
Lemma decision_loop_budget message reasoning planning b s :
  resolve_agent_budgets metadata = Ok b →
  let '(o, s') := _run_decision_loop metadata allow_plan_proposals message reasoning planning s in
  tally is_ask s' <= tally is_ask s
    + Z.max 0 (provider_decision_limit b - _provider_decisions_used (an_items s)) ∧
  tally is_execution s' <= tally is_execution s
    + Z.max 0 (max_capability_calls (exploration b) - _capability_calls_used (an_items s)) ∧
  o ≠ Ok None.
Proof.
  intros Hb. unfold _run_decision_loop. rewrite Hb. cbn [of_budget map_err]. rewrite ST_bind_lift.
  rewrite ST_bind_at. pose proof (quiet_tally _ _ (user_input_quiet message s)) as [Ha1 He1].
  pose proof (user_input_counts _ _ message s (conj eq_refl eq_refl)) as Hc1.
  destruct (_ensure_user_input message s) as [[[]|e] s1]; simpl in Ha1, He1; [|split_and!; simpl; lia || done].
  rewrite ST_bind_at. pose proof (quiet_tally _ _ (resume_quiet planning s1)) as [Ha2 He2].
  pose proof (resume_items metadata allow_plan_proposals planning s1) as Hi2.
  destruct (_resume_terminal _ _ planning s1) as [[[r|]|e] s2]; simpl in Ha2, He2, Hi2;
    [split_and!; simpl; lia || done| |split_and!; simpl; lia || done].
  rewrite ST_bind_at. pose proof (quiet_tally _ _ (close_quiet s2)) as [Ha3 He3].
  assert (agrees (_provider_decisions_used (an_items s)) (_capability_calls_used (an_items s)) s2) as Hc2.
  { unfold agrees, same_items in *. by rewrite Hi2. }
  pose proof (close_counts _ _ s2 Hc2) as Hc3.
  destruct (_close_interrupted_calls s2) as [[[]|e] s3]; simpl in Ha3, He3; [|split_and!; simpl; lia || done].
  rewrite ST_bind_at. cbn [gets]. destruct Hc3 as [Hd Hk].
  pose proof (loop_budget loop_fuel b reasoning planning (counters_of (an_items s3)) s3) as Hl.
  destruct (decision_loop _ _ loop_fuel _ _ _ _ s3) as [o s']. destruct Hl as (H1 & H2 & H3).
  cbn [counters_of provider_decisions capability_calls] in *. rewrite Hd in *. rewrite Hk in *.
  split_and!; [lia|lia|]. apply H3. destruct (resolve_bounded _ _ Hb) as [_ _ Hlim _ _ _ _].
  pose proof (count_if_nonneg (kind_in decision_item_kinds) (_active_plan_epoch (an_items s))) as Hn.
  unfold _provider_decisions_used, loop_fuel. lia.
Qed.

(** C7: A run of a turn always returns a result or raises, whatever the provider, the executor
    and the callbacks do: the decision loop ends before the fuel of the model does. *)
Theorem run_ends engine message conversation_summary s :
  (run rg metadata allow_plan_proposals engine message conversation_summary s).1 ≠ Ok None.
Proof.
  unfold run. rewrite ST_bind_lift. case_match; [|done]. rewrite ST_bind_at. cbn [gets]. rewrite ST_bind_lift.
  destruct (map_err _ _) as [reasoning|e]; [|done]. rewrite ST_bind_lift.
  destruct (map_err _ _) as [planning|e]; [|done]. destruct engine as [engine|].
  - unfold fmap, ST_fmap. by destruct (_run_legacy metadata engine planning s) as [[r|e] s'].
  - destruct (resolve_agent_budgets metadata) as [b|e] eqn:Hb.
    + pose proof (decision_loop_budget message reasoning planning b s Hb) as H1.
      destruct (_run_decision_loop _ _ message reasoning planning s) as [o s']. apply H1.
    + unfold _run_decision_loop. rewrite Hb. done.
Qed.

(** C9: Whatever the provider decides, a run asks it and executes capabilities only as often as
    the budgets leave to the turn after what its transcript records. *)
Theorem run_within_budgets message conversation_summary b s r s' :
  resolve_agent_budgets metadata = Ok b →
  run rg metadata allow_plan_proposals None message conversation_summary s = (r, s') →
  tally is_ask s' <= tally is_ask s
    + Z.max 0 (provider_decision_limit b - _provider_decisions_used (an_items s)) ∧
  tally is_execution s' <= tally is_execution s
    + Z.max 0 (max_capability_calls (exploration b) - _capability_calls_used (an_items s)).
Proof.
  intros Hb. unfold run. rewrite ST_bind_lift. case_match; [|by intros [= _ <-]; lia].
  rewrite ST_bind_at. cbn [gets]. rewrite ST_bind_lift.
  destruct (map_err _ _) as [reasoning|e]; [|by intros [= _ <-]; lia]. rewrite ST_bind_lift.
  destruct (map_err _ _) as [planning|e]; [|by intros [= _ <-]; lia]. intros Hrun.
  pose proof (decision_loop_budget message reasoning planning b s Hb) as H1. rewrite Hrun in H1.
  destruct H1 as (? & ? & _). done.
Qed.
End budgets.

#[export] Hint Resolve host_call_quiet persisted_quiet started_quiet append_quiet
  persist_quiet record_quiet finish_quiet cancelled_quiet telemetry_quiet work_started_quiet
  capability_error_quiet task_plan_quiet failure_quiet decision_quiet fresh_quiet rejected_quiet
  answer_quiet proposal_quiet result_quiet user_input_quiet resume_quiet close_quiet : keeps.
