(* ===== verification/AgentTurnGuards.v ===== *)
(** * Agent: what a turn executes

    A capability is executed only when the call was checked against the catalog of reasoning and
    the transcript that holds it has been persisted. *)
From S2P Require Import Prelude PyText PyValue Json TaskPlan Budgets WorkingTranscript.
From S2P Require Import EffectPlan Capability CapabilityValidation Dependencies CapabilityRegistry.
From S2P Require Import CapabilityRegistryFacts EffectPlanService AgentDecision AgentTurn AgentTurnFacts.
From S2P Require Import AgentTurnBudgets.
Local Open Scope Z_scope.

#[local] Arguments append_working_item : simpl never.
#[local] Arguments transcript_payload : simpl never.
#[local] Arguments append : simpl never.
#[local] Arguments u : simpl never.

(** ** Accepted decisions *)

Lemma allowed_in name ds d : _allowed name ds = Some d → d ∈ ds ∧ d_name d = name.
Proof.
  unfold _allowed. intros H. apply bind_Some in H as ([i d'] & Hf & [= <-]).
  apply list_find_Some in Hf as (Hi & Hn & _). split; [by eapply list_elem_of_lookup_2|done].
Qed.

(** The payload of a call conforms to the input schema of a definition of the list. *)
Definition call_allowed (ds : list CapabilityDefinition) (name : pystr) (arguments : pydict) : Prop :=
  ∃ d, d ∈ ds ∧ d_name d = name ∧ conforms (d_input_schema d) (VDict arguments).

Lemma check_call_allowed x capability arguments ds e1 e2 d :
  check_call x capability arguments ds e1 e2 = Ok d → call_allowed ds (d_name d) arguments.
Proof.
  unfold check_call. intros H. result_inv.
  match goal with H : _allowed _ _ = Some _ |- _ => apply allowed_in in H as [Hin Hn] end.
  exists d. split_and!; [congruence|done|].
  match goal with H : validate_payload _ _ _ _ = Ok _ |- _ => apply payload_accepted in H as [Hc _] end.
  done.
Qed.

Lemma validated_call decision reasoning planning call_id capability arguments :
  validate_next_decision decision reasoning planning = Ok (ReasoningCapabilityCall call_id capability arguments) →
  call_allowed reasoning capability arguments.
Proof.
  destruct decision as [[]|]; simpl; try done; intros H; result_inv; simplify_eq; try done.
  by eapply check_call_allowed.
Qed.

(** ** Logs *)

Section guards.
Context {W R : Type} `{!AgentHost W R}.
Context (rg : CapabilityRegistry) (metadata : pydict) (allow_plan_proposals : bool).
Abbreviation S := (agent_run W).
Abbreviation AS := (ST S agent_exn).
Implicit Types (s : S) (c : counters) (b : AgentBudgetSet).

#[local] Existing Instances extends_preorder quiet_preorder.

(** The last call was the persist of a transcript that ends with this call. *)
Definition announced (pre : list agent_call) (name : pystr) (arguments : pydict) : Prop :=
  ag_persist = None ∨
  ∃ pre' items n call_id,
    pre = pre' ++ [Persisted (items ++ [MkItem n (u "capability_call")
      [(u "call_id", VStr call_id); (u "capability", VStr name); (u "arguments", VDict arguments)]])].

Lemma announced_app l pre name arguments : announced pre name arguments → announced (l ++ pre) name arguments.
Proof.
  intros [?|(pre' & items & n & id & ->)]; [by left|right]. exists (l ++ pre'), items, n, id. by rewrite app_assoc.
Qed.

Definition guarded_log (allowed : pystr → pydict → Prop) (new : list agent_call) : Prop :=
  ∀ pre name arguments post, new = pre ++ ExecuteCapability name arguments :: post →
    allowed name arguments ∧ announced pre name arguments.

Lemma guarded_app allowed l1 l2 : guarded_log allowed l1 → guarded_log allowed l2 → guarded_log allowed (l1 ++ l2).
Proof.
  intros H1 H2 pre name arguments post E. apply app_eq_app in E as (l & [[-> El]|[-> El]]).
  - destruct l as [|call l]; simpl in El.
    + destruct (H2 [] name arguments post) as [Ha Hn]; [by rewrite <- El|].
      split; [done|]. rewrite <- (app_nil_r pre). by apply announced_app.
    + injection El as <- El. by apply (H1 pre name arguments l).
  - destruct (H2 l name arguments post El) as [Ha Hn]. split; [done|]. by apply announced_app.
Qed.

Lemma guarded_none allowed new : (∀ name arguments, ExecuteCapability name arguments ∉ new) → guarded_log allowed new.
Proof. intros H pre name arguments post ->. destruct (H name arguments). set_solver. Qed.
Lemma persists_no_execution new name arguments : Forall persists new → ExecuteCapability name arguments ∉ new.
Proof. intros H Hin. rewrite Forall_forall in H. by destruct (H _ Hin). Qed.

Definition guarded (allowed : pystr → pydict → Prop) s s' : Prop :=
  extends s s' ∧ ∃ new, an_log s' = an_log s ++ new ∧ guarded_log allowed new.
#[local] Instance guarded_preorder allowed : PreOrder (guarded allowed).
Proof.
  split.
  - intros s. split; [reflexivity|]. exists []. split; [by rewrite app_nil_r|]. apply guarded_none. set_solver.
  - intros s1 s2 s3 [X1 (l1 & E1 & H1)] [X2 (l2 & E2 & H2)]. split; [by transitivity s2|]. exists (l1 ++ l2). rewrite E2, E1, app_assoc.
    split; [done|]. by apply guarded_app.
Qed.

Lemma quiet_guarded allowed s s' : quiet s s' → guarded allowed s s'.
Proof.
  intros [X (new & E & H)]. split; [done|]. exists new. split; [done|]. apply guarded_none. intros name arguments.
  by apply persists_no_execution.
Qed.
Lemma keeps_quiet_guarded {A} allowed (m : AS A) : keeps quiet m → keeps (guarded allowed) m.
Proof. intros H s. apply quiet_guarded, H. Qed.

(** ** The execution of a call *)

Lemma record_persisted kind data s s' :
  record kind data s = (Ok tt, s') →
  ag_persist = None ∧ an_log s' = an_log s ∨
  ∃ n, an_log s' = an_log s ++ [Persisted (an_items s ++ [MkItem n kind data])].
Proof.
  unfold record. rewrite ST_bind_at. destruct (append kind data s) as [[[]|e] s1] eqn:Ha; [|done].
  apply append_Ok_run in Ha as [n ->]. unfold _persist. rewrite ST_bind_at. cbn [gets].
  rewrite ST_bind_lift. destruct (map_err _ _); [|done].
  destruct ag_persist as [f|]; [|intros [= <-]; by left].
  rewrite ST_bind_at. unfold catch, host_call. destruct (f _ _) as [[[]|e] w]; [|done].
  intros [= <-]. right. by exists n.
Qed.

(** After a persisted call the check for a stop request, the execution, and what follows. *)
Lemma announced_execution allowed call_id capability arguments {A}
    (h : agent_exn → AS A) (g : R → A)
    (f : A → AS (counters + AgentTurnResult)) :
  allowed capability arguments → (∀ e, keeps quiet (h e)) → (∀ a, keeps quiet (f a)) →
  keeps (guarded allowed)
    (record (u "capability_call")
       [(u "call_id", VStr call_id); (u "capability", VStr capability); (u "arguments", VDict arguments)];;
     _ensure_not_cancelled;;
     o ← catch (r ← _execute_reasoning capability arguments; mret (g r)) h;
     f o).
Proof.
  intros Hal Hh Hf s. rewrite ST_bind_at.
  match goal with |- context [record ?k ?d s] => pose proof (record_quiet k d s) as Hq;
    destruct (record k d s) as [[[]|e] s1] eqn:Hr end; [|by apply quiet_guarded].
  rewrite ST_bind_at. pose proof (cancelled_quiet s1) as Hc.
  assert (an_log (_ensure_not_cancelled s1).2 = an_log s1) as Hlog.
  { unfold _ensure_not_cancelled. rewrite ST_bind_at. unfold host_call.
    destruct (ag_cancelled (an_world s1)) as [[b|e] w]; [|done]. by destruct b. }
  destruct (_ensure_not_cancelled s1) as [[[]|e] s2]; simpl in Hlog, Hc;
    [|apply quiet_guarded; by transitivity s1].
  set (s3 := log_call (ExecuteCapability capability arguments) s2).
  match goal with |- guarded _ _ (?m s2).2 => assert (quiet s3 (m s2).2) as [X (rest & Erest & Hrest)] end.
  { transitivity (catch (r ← _execute_reasoning capability arguments; mret (g r)) h s2).2.
    - unfold catch. assert (keeps quiet (r ← (host_call (match ag_savepoint with
             | Some within => within (ag_execute capability arguments)
             | None => ag_execute capability arguments
             end) : AS R); (mret (g r) : AS A))) as Hq3.
      { apply keeps_bind; [apply _|apply host_call_quiet|intros r; apply keeps_ret, _]. }
      specialize (Hq3 s3). unfold _execute_reasoning.
      match goal with |- context [match ?m s2 with _ => _ end] =>
        change (m s2) with ((r ← (host_call (match ag_savepoint with
             | Some within => within (ag_execute capability arguments)
             | None => ag_execute capability arguments
             end) : AS R); (mret (g r) : AS A)) s3) end.
      revert Hq3. match goal with |- context [match ?m s3 with _ => _ end] => destruct (m s3) as [[a|e] s4] end;
        simpl; intros Hq3; [done|]. etrans; [exact Hq3|apply Hh].
    - rewrite ST_bind_at. destruct (catch _ _ s2) as [[a|e] s4]; [apply Hf|reflexivity]. }
  split; [transitivity s1; [apply Hq|transitivity s2; [apply Hc|exact X]]|].
  assert (guarded_log allowed rest) as Hquiet by (apply guarded_none; intros; by apply persists_no_execution).
  apply record_persisted in Hr as [[Hnone Hsame]|(n & Hp)].
  - exists ([ExecuteCapability capability arguments] ++ rest). split.
    + rewrite Erest. unfold s3, log_call. cbn [an_log]. by rewrite Hlog, Hsame, <- app_assoc.
    + apply guarded_app; [|done]. intros pre name args post E.
      destruct pre as [|? [|]]; simplify_eq/=. split; [done|by left].
  - eexists ([_; ExecuteCapability capability arguments] ++ rest). split.
    + rewrite Erest. unfold s3, log_call. cbn [an_log]. rewrite Hlog, Hp, <- !app_assoc. reflexivity.
    + apply guarded_app; [|done]. intros pre name args post E.
      destruct pre as [|? [|? [|]]]; simplify_eq/=. split; [done|]. right. by eexists [], _, _, _.
Qed.
#[local] Opaque append record _persist finish_safely _ensure_not_cancelled after_failure _record_decision
  require_fresh_call _record_capability_error record_result.

Lemma call_guarded b reasoning x call_id capability arguments c :
  call_allowed reasoning capability arguments →
  keeps (guarded (call_allowed reasoning)) (on_call b reasoning x call_id capability arguments c).
Proof.
  intros Hal. pose proof (@keeps_quiet_guarded) as Hq. unfold on_call.
  destruct (_ <? _); [apply Hq, return_quiet, finish_quiet|].
  apply keeps_bind; [apply _|apply Hq; solve_keeps|intros items].
  apply keeps_bind; [apply _|apply Hq; solve_keeps|intros limit].
  destruct (_ <=? _); [apply Hq; unfold record_error; solve_keeps|].
  apply keeps_bind; [apply _|apply Hq, fresh_quiet|intros []].
  apply keeps_bind; [apply _|apply Hq, decision_quiet|intros []].
  apply announced_execution; [done|intros []; solve_keeps|intros [[code details]|r]; solve_keeps].
Qed.

Lemma decided_guarded b reasoning planning x c :
  (∀ call_id capability arguments, x = ReasoningCapabilityCall call_id capability arguments →
     call_allowed reasoning capability arguments) →
  keeps (guarded (call_allowed reasoning)) (on_decision metadata allow_plan_proposals b reasoning planning x c).
Proof.
  intros Hx. pose proof (@keeps_quiet_guarded) as Hq. unfold on_decision.
  destruct (terminal_error c) as [code|].
  - destruct x; apply Hq, return_quiet; (apply answer_quiet || apply finish_quiet).
  - destruct x as [a f|p|call_id capability args|call_id capability args summary].
    + apply Hq, return_quiet, answer_quiet.
    + apply Hq. solve_keeps.
    + apply keeps_bind; [apply _|apply Hq, work_started_quiet|intros []]. by eapply call_guarded, Hx.
    + apply Hq. solve_keeps.
Qed.

Lemma ask_accepted reasoning planning left_ s x s' :
  ask_provider reasoning planning left_ s = (Ok (inl x), s') →
  ∃ decision, validate_next_decision decision reasoning planning = Ok x.
Proof.
  unfold ask_provider. intros H. st_inv. repeat case_match; st_inv; simplify_eq; eauto.
Qed.
Lemma ask_guarded allowed reasoning planning left_ :
  keeps (guarded allowed) (ask_provider reasoning planning left_ : AS _).
Proof.
  unfold ask_provider. apply keeps_bind; [apply _| |intros []; apply keeps_quiet_guarded; solve_keeps].
  intros s. split; [by apply extends_same|]. exists [AskProvider left_]. split; [done|]. apply guarded_none. intros name args. set_solver.
Qed.

Lemma step_guarded b reasoning planning c :
  keeps (guarded (call_allowed reasoning)) (decision_step metadata allow_plan_proposals b reasoning planning c).
Proof.
  pose proof (@keeps_quiet_guarded) as Hq. unfold decision_step.
  apply keeps_bind; [apply _|apply Hq, cancelled_quiet|intros []].
  do 4 (apply keeps_bind; [apply _|apply Hq; solve_keeps|intros ?]).
  intros s. apply keeps_bind_at; [apply _|apply ask_guarded|]. intros [x|[code rejected]] s1 Ha.
  - apply ask_accepted in Ha as [decision Hd]. apply decided_guarded.
    intros call_id capability arguments ->. by eapply validated_call.
  - apply Hq, rejected_quiet.
Qed.

Lemma loop_guarded fuel b reasoning planning c :
  keeps (guarded (call_allowed reasoning)) (decision_loop metadata allow_plan_proposals fuel b reasoning planning c).
Proof.
  revert c. induction fuel as [|fuel IH]; intros c; cbn [decision_loop]; [apply keeps_ret, _|].
  destruct (_ <? _).
  - apply keeps_bind; [apply _|apply step_guarded|intros [c'|r]; [apply IH|apply keeps_ret, _]].
  - intros s. unfold fmap, ST_fmap.
    pose proof (finish_quiet (default (u "agent_provider_decision_budget_exceeded") (terminal_error c)) s) as H.
    destruct (finish_safely _ s) as [[r|e] s']; by apply quiet_guarded.
Qed.

#[local] Opaque _close_interrupted_calls _ensure_user_input _resume_terminal.

(** The calls that the catalog of the user allows at the start of the run. *)
Definition offered s (name : pystr) (arguments : pydict) : Prop :=
  ∃ ds, @for_reasoning (ag_user (an_world s)) metadata rg = Ok ds ∧ call_allowed ds name arguments.

Lemma guarded_mono (P Q : pystr → pydict → Prop) s s' :
  (∀ name arguments, P name arguments → Q name arguments) → guarded P s s' → guarded Q s s'.
Proof.
  intros H [X (new & E & Hg)]. split; [done|]. exists new. split; [done|].
  intros pre name arguments post Hn. destruct (Hg pre name arguments post Hn). auto.
Qed.

Lemma run_guarded message conversation_summary s :
  guarded (offered s) s (run rg metadata allow_plan_proposals None message conversation_summary s).2.
Proof.
  unfold run. rewrite ST_bind_lift.
  destruct (_validate_request _ _); [|simpl; reflexivity].
  rewrite ST_bind_at. cbn [gets]. rewrite ST_bind_lift.
  destruct (for_reasoning metadata rg) as [reasoning|e] eqn:Hr; [|simpl; reflexivity]. cbn [map_err].
  rewrite ST_bind_lift. destruct (for_planning metadata rg) as [planning|e]; [|simpl; reflexivity]. cbn [map_err].
  apply (guarded_mono (call_allowed reasoning)); [by exists reasoning|].
  pose proof (@keeps_quiet_guarded) as Hq. clear Hr. unfold _run_decision_loop. revert s.
  apply keeps_bind; [apply _|apply Hq; solve_keeps|intros b].
  apply keeps_bind; [apply _|apply Hq, user_input_quiet|intros []].
  apply keeps_bind; [apply _|apply Hq, resume_quiet|intros [r'|]]; [apply keeps_ret, _|].
  apply keeps_bind; [apply _|apply Hq, close_quiet|intros []].
  apply keeps_bind; [apply _|apply Hq; solve_keeps|intros items]. apply loop_guarded.
Qed.

(** A run of a turn, returned or raised, only appends to its transcript, and a valid
    transcript stays valid: numbered items, distinct calls and outcomes, within the size limit.
    *)
Theorem run_extends_transcript message conversation_summary s r s' :
  transcript_ok (an_items s) →
  run rg metadata allow_plan_proposals None message conversation_summary s = (r, s') →
  transcript_ok (an_items s') ∧ ∃ l, an_items s' = an_items s ++ l.
Proof.
  intros Hok Hrun. destruct (run_guarded message conversation_summary s) as [[Hl Hv] _].
  rewrite Hrun in Hl, Hv. auto.
Qed.
Context (definitions : list CapabilityDefinition) (statuses : list CapabilityProviderStatus)
  (providers : list (pystr * pystr)).
Hypothesis built : new_registry definitions statuses providers = Ok rg.

(** A capability of the catalog with this exposure that the user may use, with a payload of its
    schema. *)
Definition exposed_call (e : CapabilityExposure) s (name : pystr) (arguments : pydict) : Prop :=
  ∃ d, by_name (rg_definitions rg) !! name = Some d ∧ d_exposure d = e ∧
    @usable (ag_user (an_world s)) metadata (by_name (rg_definitions rg)) d ∧
    conforms (d_input_schema d) (VDict arguments).
Definition reasoning_call := exposed_call ExposeReasoning.
Definition planning_call := exposed_call ExposePlan.

Lemma exposed_usable e s ds name arguments :
  @with_exposure (ag_user (an_world s)) metadata e rg = Ok ds → call_allowed ds name arguments →
  exposed_call e s name arguments.
Proof.
  unfold with_exposure. intros Hr (d & Hd & <- & Hc).
  destruct (@available_usable (ag_user (an_world s)) metadata _ _ _ _ built) as (k & Hk & _ & Hin).
  rewrite Hk in Hr. injection Hr as <-. apply list_elem_of_filter in Hd as [He Hd].
  apply Hin in Hd as [Hd Hu]. exists d. split_and!; [|done..]. apply by_name_lookup; [|done].
  apply new_registry_accepts in built as (Hv & _ & _ & ->).
  apply (valid_catalog_perm _ (sort_by def_leb definitions)) in Hv; [apply Hv|by rewrite sort_by_perm].
Qed.

(** C6: Whatever the provider decides, a turn executes only reasoning capabilities that the
    catalog offers this user, with payloads of their input schemas, and each execution directly
    follows the successful persist of a transcript that ends with the call. *)
Theorem executions_are_recorded message conversation_summary s r s' :
  run rg metadata allow_plan_proposals None message conversation_summary s = (r, s') →
  ∃ new, an_log s' = an_log s ++ new ∧
    ∀ pre name arguments post, new = pre ++ ExecuteCapability name arguments :: post →
      reasoning_call s name arguments ∧ announced pre name arguments.
Proof.
  intros Hrun. destruct (run_guarded message conversation_summary s) as [_ (new & E & H)].
  rewrite Hrun in E. exists new. split; [done|]. intros pre name arguments post Hn.
  destruct (H pre name arguments post Hn) as [(ds & Hds & Ha) Hp]. split; [by eapply exposed_usable|done].
Qed.

End guards.
