(* ===== verification/AgentTurnAnswers.v ===== *)
(** * Agent: the results of a turn

    The plan a run returns is checked, a finished turn that is run again gives the same result
    without asking the provider, and what a resumed turn forgets. *)
From S2P Require Import Prelude PyText PyValue Json TaskPlan Budgets.
From S2P Require Import WorkingTranscript EffectPlan Capability CapabilityValidation.
From S2P Require Import Dependencies CapabilityRegistry CapabilityRegistryFacts EffectPlanService AgentDecision.
From S2P Require Import AgentTurn AgentTurnFacts AgentTurnBudgets AgentTurnGuards.
Local Open Scope Z_scope.

#[local] Arguments append_working_item : simpl never.
#[local] Arguments transcript_payload : simpl never.
#[local] Arguments append : simpl never.
#[local] Arguments u : simpl never.

(** ** Plans *)

(** A step of a plan: an allowed call under a new identifier, after the steps it depends on. *)
Record step_checked (planning : list CapabilityDefinition) (pre : list PlannedCapability)
    (x : PlannedCapability) : Prop := {
  sc_call : call_allowed planning (pc_capability x) (pc_arguments x);
  sc_id : pc_step_id x ∉ pc_step_id <$> pre;
  sc_size : Z.of_nat (length (pc_step_id x)) <= 256;
  sc_deps : pc_depends_on x ⊆ pc_step_id <$> pre }.

Lemma check_planned_Ok planning acc step acc' :
  check_planned planning acc step = Ok acc' → ∃ x, acc' = acc ++ [x] ∧ step_checked planning acc x.
Proof.
  unfold check_planned. intros H. result_inv. eexists. split; [done|].
  match goal with H : _allowed _ _ = Some _ |- _ => apply allowed_in in H as [Hin Hn] end.
  match goal with H : validate_payload _ _ _ _ = Ok _ |- _ => apply payload_accepted in H as [Hc _] end.
  split; simpl.
  - eexists. split_and!; [by apply elem_of_reverse|done|done].
  - by apply mem_false.
  - by apply Z.ltb_ge.
  - match goal with H : subset_of _ _ = true |- _ => rewrite subset_of_true in H; exact H end.
Qed.

Section results.
Context {W R : Type} `{!AgentHost W R}.
Context (rg : CapabilityRegistry) (metadata : pydict) (allow_plan_proposals : bool).
Abbreviation S := (agent_run W).
Abbreviation AS := (ST S agent_exn).
Implicit Types (s : S) (c : counters) (b : AgentBudgetSet).

Definition plan_checked (planning : list CapabilityDefinition) (plan : list PlannedCapability) : Prop :=
  grows (step_checked planning) plan ∧ Z.of_nat (length plan) <= _MAX_EFFECT_STEPS.

Lemma no_plan planning : plan_checked planning [].
Proof. split; [apply grows_nil|done]. Qed.

Lemma validate_plan_Ok planning plan plan' :
  _validate_plan metadata planning plan = Ok plan' → plan_checked planning plan'.
Proof.
  unfold _validate_plan, of_budget. intros H. result_inv.
  match goal with H : foldR _ _ _ = Ok _ |- _ =>
    apply (foldR_grows (step_checked planning)) in H as [Hg Hl]; [|apply check_planned_Ok|apply grows_nil] end.
  split; [done|].
  match goal with H : resolve_agent_budgets _ = Ok _ |- _ => apply resolve_bounded in H as [Hb _ _ _ _ _ _] end.
  match goal with H : (_ <? _) = false |- _ => apply Z.ltb_ge in H end.
  rewrite Hl. simpl. unfold _MAX_EFFECT_STEPS. lia.
Qed.
Lemma plan_of_Ok planning proposed plan :
  plan_of metadata planning proposed = Ok plan → plan_checked planning plan.
Proof. destruct proposed; simpl; [intros [= <-]; apply no_plan|apply validate_plan_Ok]. Qed.

Definition result_checked (planning : list CapabilityDefinition) (r : AgentTurnResult) : Prop :=
  plan_checked planning (tr_plan r) ∧ tr_confidence r ∈ _CONFIDENCE.

Lemma confidence_ok answer confidence a :
  _validated_answer answer (VStr confidence) = Ok a → confidence ∈ _CONFIDENCE.
Proof.
  unfold _validated_answer. intros H. result_inv. unfold in_str_set in *. simpl in *.
  match goal with H : Some _ = Some _ |- _ => injection H as H end. subst. by apply mem_true.
Qed.

(** ** Resuming an answered turn *)

Definition answered s : Prop := ∃ x, last (an_items s) = Some x ∧ is_kind (u "final_answer") x = true.
(** From these items the turn is over with this result, whatever else the run holds. *)
Definition resumes (planning : list CapabilityDefinition) (r : AgentTurnResult) (items : list WorkingItem) : Prop :=
  ∀ s, an_items s = items →
    _resume_terminal metadata allow_plan_proposals planning s = (Ok (Some r), s).

Lemma resume_at planning s items n data answer confidence discard :
  an_items s = items ++ [MkItem n (u "final_answer") data] →
  get (u "answer") data = VStr answer → get (u "confidence") data = VStr confidence →
  bool_decide (as_bool (get (u "discard_plan") data) = Some true) = discard →
  _resume_terminal metadata allow_plan_proposals planning s =
    (proposed ← (if discard then Ok [] else proposals allow_plan_proposals (an_items s));
     plan ← plan_of metadata planning proposed;
     a ← _validated_answer (VStr answer) (VStr confidence);
     task_plan ← (if discard then Ok None else _latest_task_plan (an_items s));
     Ok (Some (MkTurnResult a confidence plan task_plan)), s).
Proof.
  intros Hi Ha Hc Hd. unfold _resume_terminal. rewrite ST_bind_at. cbn [gets].
  assert (last (an_items s) = Some (MkItem n (u "final_answer") data)) as -> by (rewrite Hi; apply last_snoc).
  assert (negb (is_kind (u "final_answer") (MkItem n (u "final_answer") data)) = false) as -> by by vm_compute.
  cbn [wi_data]. rewrite Ha, Hc, Hd. cbn [as_str of_option]. do 3 rewrite ST_bind_lift.
  destruct (if discard then _ else _) as [proposed|e]; [|done]. simpl. rewrite ST_bind_lift.
  destruct (plan_of _ _ _) as [plan|e]; [|done]. simpl. rewrite ST_bind_lift.
  destruct (_validated_answer _ _) as [a|e]; [|done]. simpl. rewrite ST_bind_lift.
  by destruct (if discard then _ else _) as [tp|e].
Qed.

Lemma resume_reads planning s r s' :
  _resume_terminal metadata allow_plan_proposals planning s = (Ok (Some r), s') →
  resumes planning r (an_items s').
Proof.
  intros H s2 E. assert (s' = s) as ->.
  { revert H. unfold _resume_terminal. intros H. st_inv. repeat case_match; by st_inv. }
  revert H. unfold _resume_terminal. rewrite !ST_bind_at. cbn [gets]. rewrite E.
  destruct (last _) as [x|]; [|done]. destruct (negb _); [done|]. rewrite !ST_bind_lift.
  destruct (of_option _ _); [|done]. rewrite !ST_bind_lift. destruct (of_option _ _); [|done]. rewrite !ST_bind_lift.
  destruct (if bool_decide _ then _ else _) as [proposed|e]; [|done]. rewrite !ST_bind_lift.
  destruct (plan_of _ _ _) as [plan|e]; [|done]. rewrite !ST_bind_lift.
  destruct (_validated_answer _ _); [|done]. rewrite !ST_bind_lift.
  destruct (if bool_decide _ then _ else _) as [tp|e]; [|done]. by intros [= ->].
Qed.

Lemma record_item kind data s s' :
  record kind data s = (Ok tt, s') →
  ∃ n, an_items s' = an_items s ++ [MkItem n kind data] ∧ item_ok (MkItem n kind data).
Proof.
  unfold record. rewrite ST_bind_at. destruct (append kind data s) as [[[]|e] s1] eqn:Ha; [|done]. intros Hp.
  pose proof (persist_items s1) as Hi. rewrite Hp in Hi. unfold same_items in Hi. simpl in Hi. rewrite Hi.
  revert Ha. unfold append. intros H. st_inv. rewrite map_err_Ok in *.
  match goal with H : append_working_item _ _ _ = _ |- _ => pose proof (append_shape _ _ _ _ H) as ->;
    unfold append_working_item in H; result_inv end.
  match goal with H : _validate_item _ = Ok _ |- _ => apply validate_item_ok in H end.
  eauto.
Qed.

(** The text of a final answer that was recorded fits its own bound. *)
Lemma answer_fits n answer rest :
  item_ok (MkItem n (u "final_answer") ((u "answer", VStr answer) :: rest)) → Z.of_nat (length answer) <= 16384.
Proof.
  intros [_ (m & Hm & Hle) _]. cbn [wi_data wi_kind] in *.
  assert (item_limit (u "final_answer") = 16384) as E by by vm_compute. rewrite E in Hle.
  unfold json_bytes in Hm. apply bind_Some in Hm as (t & Ht & Hm). apply bind_Some in Hm as (bytes & Hb & [= <-]).
  assert (dict_lookup (u "answer") ((u "answer", VStr answer) :: rest) = Some (VStr answer)) as Hk.
  { by vm_compute. }
  destruct (json_dumps_holds _ _ _ _ _ Ht Hk) as (tv & [= <-] & Hlen).
  pose proof (dump_str_length answer). pose proof (utf8_encode_length _ _ Hb). lia.
Qed.

(** ** Safe answers *)

Definition clean (text : pystr) : bool := str_eqb (strip text) text && negb (mem 0%N text) && (1 <=? Z.of_nat (length text)).

Lemma clean_validated text :
  clean text = true → Z.of_nat (length text) <= 16384 →
  ∀ confidence, confidence ∈ _CONFIDENCE → _validated_answer (VStr text) (VStr confidence) = Ok text.
Proof.
  intros [[Hs%str_eqb_true Hn]%andb_true_iff Hl]%andb_true_iff Hm confidence Hc. unfold _validated_answer, stripped_ok.
  cbn [as_str of_option mbind result_bind]. rewrite Hs, Hl, Hn, (proj2 (Z.leb_le _ _) Hm). cbn [andb negb raise_when mbind result_bind].
  unfold in_str_set. rewrite (proj2 (mem_true _ _) Hc). cbn [of_option mbind result_bind negb raise_when]. done.
Qed.
Lemma clean_iff text : strip text = text → 0%N ∉ text → text ≠ [] → clean text = true.
Proof.
  intros Hs Hn Hl. unfold clean. rewrite Hs, (proj2 (mem_false _ _) Hn). destruct text; [done|].
  rewrite (proj2 (str_eqb_true _ _) eq_refl). cbn [andb negb]. apply Z.leb_le. cbn [length]. lia.
Qed.
Lemma validated_idemp answer confidence a :
  _validated_answer answer (VStr confidence) = Ok a → _validated_answer (VStr a) (VStr confidence) = Ok a.
Proof.
  intros H. pose proof (confidence_ok _ _ _ H) as Hc. unfold _validated_answer, stripped_ok in H. result_inv.
  match goal with H : (_ <=? 16384) = true |- _ => apply Z.leb_le in H end.
  apply clean_validated; [|done..]. apply clean_iff; [apply strip_idemp| |].
  - intros Hn%in_strip. match goal with H : mem 0%N _ = false |- _ => by apply mem_false in H end.
  - intros E. match goal with H : (1 <=? _) = true |- _ => by rewrite E in H end.
Qed.

Lemma failure_text_clean code : clean (failure_text code) = true.
Proof. unfold failure_text. destruct is_spanish; destruct (str_eqb code _); [by vm_compute| |by vm_compute|];
  (destruct (mem code _); [by vm_compute|]); destruct (str_eqb code _); by vm_compute. Qed.

Lemma not_in_app (c : N) (t1 t2 : pystr) : c ∉ t1 → c ∉ t2 → c ∉ t1 ++ t2.
Proof. rewrite elem_of_app. naive_solver. Qed.
Lemma incomplete_clean summary spanish : clean (incomplete_effect_answer summary spanish) = true.
Proof.
  destruct summary as [blocked c]. unfold incomplete_effect_answer.
  pose proof (int_str_no_nul (oc_count c)). pose proof (int_str_no_nul (oc_requested c)).
  pose proof (int_str_no_nul (oc_failed c)). pose proof (int_str_no_nul (oc_excluded c)).
  generalize dependent (int_str (oc_count c)). generalize dependent (int_str (oc_requested c)).
  generalize dependent (int_str (oc_failed c)). generalize dependent (int_str (oc_excluded c)).
  intros w Hw x Hx y Hy z Hz.
  destruct blocked, spanish; apply clean_iff;
    try (apply strip_id; intros ch Hc; [|rewrite !last_app in Hc]; vm_compute in Hc; injection Hc as <-; by vm_compute);
    try (repeat apply not_in_app; first [assumption | by apply mem_false; vm_compute]);
    by vm_compute.
Qed.

Lemma safe_answer_clean items code answer : _safe_failure_answer items code = Ok answer → clean answer = true.
Proof.
  unfold _safe_failure_answer. destruct (list_find _ _) as [[i receipt]|].
  - intros H. result_inv. match goal with H : map_err _ _ = Ok _ |- _ => clear H | _ => idtac end.
    match goal with |- clean (match ?o with _ => _ end) = true => destruct o as [summary|] end.
    + apply incomplete_clean.
    + unfold verified_answer. destruct is_spanish; by vm_compute.
  - intros [= <-]. apply failure_text_clean.
Qed.

(** ** Every result of the loop *)

(** A result is checked; when the turn ended with its answer, a resumed turn returns the same. *)
Definition settled (planning : list CapabilityDefinition) (r : AgentTurnResult) s : Prop :=
  result_checked planning r ∧ (answered s → resumes planning r (an_items s)).
Definition turn_settled (planning : list CapabilityDefinition) (o : counters + AgentTurnResult) s : Prop :=
  match o with inl _ => True | inr r => settled planning r s end.

(** What holds of the value and the store of any run that returns. *)
Definition ensures {A} (Q : A → S → Prop) (m : AS A) : Prop := hoare (λ _, True) m Q (λ _, True).

Lemma ensures_then {A B} (Q : B → S → Prop) (m : AS A) (f : A → AS B) :
  (∀ a, ensures Q (f a)) → ensures Q (m ≫= f).
Proof. intros Hf s _. rewrite ST_bind_at. destruct (m s) as [[a|e] s1]; [by apply Hf|done]. Qed.
Lemma ensures_going planning c : ensures (turn_settled planning) (mret (inl c) : AS _).
Proof. by intros s _. Qed.
Lemma ensures_raise {A} (Q : A → S → Prop) (e : agent_exn) : ensures Q (raise e : AS A).
Proof. by intros s _. Qed.
Lemma ensures_return planning (m : AS AgentTurnResult) :
  ensures (settled planning) m → ensures (turn_settled planning) (return_ m).
Proof.
  intros Hm s _. unfold return_. rewrite ST_bind_at. specialize (Hm s I). by destruct (m s) as [[r|e] s1].
Qed.

Lemma finish_settled planning code : ensures (settled planning) (finish_safely code : AS _).
Proof.
  intros s _. destruct (finish_safely code s) as [[r|e] s'] eqn:H; [|done]. unfold finish_safely in H. st_inv. subst r.
  match goal with H : record _ _ _ = (Ok ?x, _) |- _ => destruct x; apply record_item in H as (n & Hi & Hok) end.
  match goal with H : _safe_failure_answer _ _ = Ok ?a |- _ => rename a into answer; apply safe_answer_clean in H as Hc end.
  apply answer_fits in Hok. split; [split; [apply no_plan|apply mem_true; by vm_compute]|].
  intros _ s2 Hs2. rewrite <- Hs2 in Hi. rewrite (resume_at planning s2 _ n _ answer (u "low") true Hi); [|by vm_compute..].
  cbn [mbind result_bind plan_of]. rewrite clean_validated; [done|done|done|]. apply mem_true. by vm_compute.
Qed.

Lemma answer_settled planning answer confidence :
  ensures (settled planning) (finish_answer metadata allow_plan_proposals planning answer confidence : AS _).
Proof.
  intros s _. destruct (finish_answer _ _ planning answer confidence s) as [[r|e] s'] eqn:H; [|done].
  unfold finish_answer in H. st_inv. subst r.
  match goal with H : record _ _ _ = (Ok ?x, _) |- _ => destruct x; apply record_item in H as (n & Hi & _) end.
  match goal with H : _validated_answer _ _ = Ok ?a |- _ => rename H into Ha, a into text end.
  match goal with H : plan_of _ _ _ = Ok _ |- _ => rename H into Hp end.
  match goal with H : proposals _ _ = Ok _ |- _ => rename H into Hq end.
  match goal with H : _latest_task_plan _ = Ok _ |- _ => rename H into Ht end.
  split; [split; [by apply plan_of_Ok in Hp|by apply confidence_ok in Ha]|].
  intros _ s2 Hs2. rewrite <- Hs2 in Hi. rewrite (resume_at planning s2 _ n _ text confidence false Hi); [|by vm_compute..].
  rewrite Hs2, Hq. cbn [mbind result_bind]. rewrite Hp. cbn [mbind result_bind].
  rewrite (validated_idemp _ _ _ Ha). cbn [mbind result_bind]. by rewrite Ht.
Qed.
#[local] Opaque finish_safely finish_answer record append _persist.

Lemma failure_settled planning b c : ensures (turn_settled planning) (after_failure b c : AS _).
Proof. unfold after_failure. destruct (_ <? _); [apply ensures_return, finish_settled|apply ensures_going]. Qed.

Lemma rejected_settled planning b code rejected c :
  ensures (turn_settled planning) (on_rejected b code rejected c : AS _).
Proof.
  unfold on_rejected. destruct rejected as [[a f|p|call_id capability args|call_id capability args summary]|revision|].
  - apply ensures_raise.
  - apply ensures_then. intros []. apply failure_settled.
  - destruct (_ <? _); [apply ensures_return, finish_settled|]. apply ensures_then. intros []. apply failure_settled.
  - apply ensures_then. intros []. apply failure_settled.
  - apply ensures_then. intros []. apply failure_settled.
  - apply ensures_raise.
Qed.

(** A turn that ends with its first proposal has no answer. *)
Lemma proposal_settled b planning x call_id capability arguments summary c :
  ensures (turn_settled planning)
    (on_proposal metadata allow_plan_proposals b planning x call_id capability arguments summary c : AS _).
Proof.
  unfold on_proposal. do 3 (apply ensures_then; intros ?). apply ensures_then. intros current.
  apply ensures_then. intros []. intros s _.
  match goal with |- match ?m s with _ => _ end => destruct (m s) as [[o|e] s'] eqn:H end; [|done].
  apply ST_bind_Ok in H as ([] & s1 & Hr & H). apply record_item in Hr as (n & Hi & _).
  destruct (_ =? 1); [|st_inv; by subst o]. st_inv. subst o.
  match goal with H : _validate_plan _ _ _ = Ok _ |- _ => apply validate_plan_Ok in H end.
  split; [split; [done|apply mem_true; by vm_compute]|]. intros (y & Hy & Hk).
  rewrite Hi, last_snoc in Hy. injection Hy as <-. exfalso. revert Hk. by vm_compute.
Qed.

Lemma call_settled planning b reasoning x call_id capability arguments c :
  ensures (turn_settled planning) (on_call b reasoning x call_id capability arguments c : AS _).
Proof.
  unfold on_call. destruct (_ <? _); [apply ensures_return, finish_settled|].
  apply ensures_then. intros items. apply ensures_then. intros limit. destruct (_ <=? _).
  - do 2 (apply ensures_then; intros []). apply failure_settled.
  - do 4 (apply ensures_then; intros []). apply ensures_then. intros [[code details]|r].
    + apply ensures_then. intros []. destruct (mem _ _); [apply ensures_going|apply failure_settled].
    + unfold record_result. apply ensures_then. intros stored. apply ensures_then. intros [].
      destruct stored; [apply ensures_going|apply failure_settled].
Qed.

Lemma step_settled b reasoning planning c :
  ensures (turn_settled planning) (decision_step metadata allow_plan_proposals b reasoning planning c : AS _).
Proof.
  unfold decision_step. do 5 (apply ensures_then; intros ?). apply ensures_then. intros [x|[code rejected]];
    [|apply rejected_settled].
  unfold on_decision. destruct (terminal_error _) as [code|].
  - destruct x as [a' f| | |]; [apply ensures_return, answer_settled|apply ensures_return, finish_settled..].
  - destruct x as [a' f|p|call_id capability args|call_id capability args summary].
    + apply ensures_return, answer_settled.
    + do 2 (apply ensures_then; intros []). apply ensures_going.
    + apply ensures_then. intros []. apply call_settled.
    + apply ensures_then. intros []. apply proposal_settled.
Qed.

Definition run_settled (planning : list CapabilityDefinition) (o : option AgentTurnResult) s : Prop :=
  match o with Some r => settled planning r s | None => True end.

Lemma loop_settled fuel b reasoning planning c :
  ensures (run_settled planning) (decision_loop metadata allow_plan_proposals fuel b reasoning planning c : AS _).
Proof.
  revert c. induction fuel as [|fuel IH]; intros c; cbn [decision_loop]; [by intros s _|].
  destruct (_ <? _).
  - eapply hoare_bind; [apply step_settled|]. intros [c'|r].
    + intros s _. by apply IH.
    + by intros s Hs.
  - intros s _. pose proof (finish_settled planning
      (default (u "agent_provider_decision_budget_exceeded") (terminal_error c)) s I) as H.
    unfold fmap, ST_fmap. by destruct (finish_safely _ s) as [[r|e] s'].
Qed.

Lemma resume_settled planning :
  ensures (run_settled planning) (_resume_terminal metadata allow_plan_proposals planning : AS _).
Proof.
  intros s _. destruct (_resume_terminal _ _ planning s) as [[[r|]|e] s'] eqn:E; [|done..].
  split; [|intros _; by eapply resume_reads]. revert E. unfold _resume_terminal. intros H. st_inv.
  destruct (last _) as [x|]; [|by st_inv]. destruct (negb _); [by st_inv|]. st_inv.
  match goal with H : Some _ = Some _ |- _ => injection H as <- | _ => idtac end.
  match goal with H : plan_of _ _ _ = Ok _ |- _ => apply plan_of_Ok in H end.
  match goal with H : _validated_answer _ _ = Ok _ |- _ => apply confidence_ok in H end. done.
Qed.

(** ** The whole run *)

Lemma input_head message s s1 :
  _ensure_user_input message s = (Ok tt, s1) →
  ∃ x rest, an_items s1 = x :: rest ∧
    negb (is_kind (u "user_input") x) || negb (py_eq (get (u "message") (wi_data x)) (VStr message)) = false.
Proof.
  unfold _ensure_user_input. intros H. st_inv. destruct (an_items s) as [|x rest] eqn:E.
  - apply record_item in H as (n & -> & _). rewrite E. eexists _, []. split; [done|].
    assert (∀ data, negb (is_kind (u "user_input") (MkItem n (u "user_input") data)) = false) as -> by by vm_compute.
    cbn [orb wi_data]. assert (get (u "message") [(u "message", VStr message)] = VStr message) as -> by by vm_compute.
    cbn [py_eq]. by rewrite (proj2 (str_eqb_true _ _) eq_refl).
  - st_inv. rewrite E. match goal with H : raise_when _ _ = Ok _ |- _ => apply raise_when_Ok in H end. eauto.
Qed.
Lemma input_again message s x rest :
  an_items s = x :: rest →
  negb (is_kind (u "user_input") x) || negb (py_eq (get (u "message") (wi_data x)) (VStr message)) = false →
  _ensure_user_input message s = (Ok tt, s).
Proof. intros E Hx. unfold _ensure_user_input. rewrite ST_bind_at. cbn [gets]. by rewrite E, Hx. Qed.

#[local] Existing Instances extends_preorder quiet_preorder guarded_preorder.

Lemma loop_run_resumes message reasoning planning s r s' :
  _run_decision_loop metadata allow_plan_proposals message reasoning planning s = (Ok (Some r), s') →
  result_checked planning r ∧
  (answered s' → ∀ s2, an_items s2 = an_items s' →
     _run_decision_loop metadata allow_plan_proposals message reasoning planning s2 = (Ok (Some r), s2)).
Proof.
  intros H. unfold _run_decision_loop in H |- *.
  apply ST_bind_Ok in H as (b & s0 & Hb & H). apply lift_Ok in Hb as [Hb ->]. rewrite Hb.
  apply ST_bind_Ok in H as ([] & s1 & Hu & H). apply input_head in Hu as (x & rest & Hx & Hm).
  apply ST_bind_Ok in H as (resumed & s2 & Hr & H).
  pose proof (resume_settled planning s1 I) as Hset. rewrite Hr in Hset.
  pose proof (resume_items metadata allow_plan_proposals planning s1) as Hsame. rewrite Hr in Hsame.
  unfold same_items in Hsame. simpl in Hsame.
  enough (settled planning r s' ∧ extends s1 s') as [[Hc Hs] [(l & Hl) _]].
  { split; [done|]. intros Ha s3 E. rewrite ST_bind_lift, ST_bind_at.
    rewrite (input_again message s3 x (rest ++ l)); [|by rewrite E, Hl, Hx|done].
    rewrite ST_bind_at. by rewrite (Hs Ha s3 E). }
  destruct resumed as [r'|].
  - apply ret_Ok in H as [[= ->] ->]. split; [done|]. by apply extends_same.
  - apply ST_bind_Ok in H as ([] & s3 & Hc & H). apply ST_bind_Ok in H as (items & s4 & Hi & H).
    apply gets_Ok in Hi as [-> ->].
    pose proof (loop_settled loop_fuel b reasoning planning (counters_of (an_items s3)) s3 I) as Hl.
    pose proof (loop_guarded metadata allow_plan_proposals loop_fuel b reasoning planning
      (counters_of (an_items s3)) s3) as [Hx3 _].
    rewrite H in Hl, Hx3. split; [done|].
    transitivity s2; [by apply extends_same|]. transitivity s3; [|done].
    pose proof (close_quiet s2) as [Hq _]. by rewrite Hc in Hq.
Qed.

Lemma legacy_checked engine planning s r s' :
  _run_legacy metadata engine planning s = (Ok r, s') → result_checked planning r.
Proof.
  unfold _run_legacy. intros H. apply ST_bind_Ok in H as (o & s1 & _ & H).
  destruct o as [[[answer confidence] plan]|]; [|done]. st_inv. subst r.
  match goal with H : _validate_plan _ _ _ = Ok _ |- _ => apply validate_plan_Ok in H end.
  match goal with H : _validated_answer _ _ = Ok _ |- _ => rename H into Ha end.
  split; [done|].
  destruct confidence; try (unfold _validated_answer in Ha; result_inv; unfold in_str_set in *; simpl in *; simplify_eq; done). by apply confidence_ok in Ha.
Qed.

(** C10: A turn that ended with its answer and is run again, by whatever host holds its
    transcript and gives the user the same rights, returns the same result, calls nobody and
    changes nothing. *)
Theorem answered_turn_resumes message conversation_summary s r s' w started log :
  run rg metadata allow_plan_proposals None message conversation_summary s = (Ok (Some r), s') →
  answered s' → ag_user w = ag_user (an_world s) →
  let again := MkAgentRun w (an_items s') started log in
  run rg metadata allow_plan_proposals None message conversation_summary again = (Ok (Some r), again).
Proof.
  intros H Ha Hw again. unfold run in H |- *. rewrite ST_bind_lift in H |- *.
  destruct (_validate_request _ _) as [[]|e]; [|done]. rewrite ST_bind_at in H |- *. cbn [gets again an_world] in H |- *.
  rewrite Hw, ST_bind_lift. rewrite ST_bind_lift in H.
  destruct (map_err _ (for_reasoning _ _)) as [reasoning|e]; [|done]. rewrite ST_bind_lift. rewrite ST_bind_lift in H.
  destruct (map_err _ (for_planning _ _)) as [planning|e]; [|done].
  apply loop_run_resumes in H as [_ H]. by apply H.
Qed.

Context (definitions : list CapabilityDefinition) (statuses : list CapabilityProviderStatus)
  (providers : list (pystr * pystr)).
Hypothesis built : new_registry definitions statuses providers = Ok rg.

(** A plan whose every step is a planning capability that the user may use, with a payload of its
    schema, under a new identifier and after the steps it depends on. *)
Definition plan_offered s (plan : list PlannedCapability) : Prop :=
  Z.of_nat (length plan) <= _MAX_EFFECT_STEPS ∧
  grows (λ pre x, planning_call rg metadata s (pc_capability x) (pc_arguments x) ∧
                  (pc_step_id x ∉ pc_step_id <$> pre) ∧ (pc_depends_on x ⊆ pc_step_id <$> pre)) plan.

(** C12: The plan that a run returns, by either engine and whatever the model answered, has at
    most five steps, each a planning capability that the user may use with a payload of its
    input schema, under a new identifier and after the steps it depends on, and the confidence
    is one of the three levels. *)
Theorem returned_plan_checked engine message conversation_summary s r s' :
  run rg metadata allow_plan_proposals engine message conversation_summary s = (Ok (Some r), s') →
  plan_offered s (tr_plan r) ∧ (tr_confidence r ∈ _CONFIDENCE).
Proof.
  intros H. unfold run in H. st_inv. rewrite map_err_Ok in *.
  match goal with H : for_planning _ _ = Ok ?d |- _ => rename H into Hp, d into planning end.
  assert (result_checked planning r) as [[Hg Hl] Hc].
  { destruct engine as [engine|]; [|by apply loop_run_resumes in H as [? _]].
    unfold fmap, ST_fmap in H. destruct (_run_legacy _ _ _ _) as [[r'|e] s1] eqn:E; [|done].
    injection H as -> ->. by eapply legacy_checked. }
  split; [split; [done|]|done]. intros i step Hx. destruct (Hg i step Hx) as [Hcall Hid _ Hdeps].
  split_and!; [|done..]. by eapply exposed_usable.
Qed.
End results.

(** ** What a resumed turn forgets *)

(** The items that the count of trailing failures reads past. *)
Definition skipped : list pystr :=
  [u "capability_error"; u "task_plan_error"; u "assistant_decision"; u "capability_call";
   u "plan_step_proposed"; u "task_plan"].

Lemma skipped_keeps_epoch x : kind_in skipped x = true → plan_failed x = false.
Proof.
  unfold kind_in, plan_failed, is_kind. intros H%mem_true. apply list_elem_of_In in H.
  repeat destruct H as [<-|H]; [by vm_compute..|done].
Qed.
Lemma epoch_app items later :
  Forall (λ x, plan_failed x = false) later → _active_plan_epoch (items ++ later) = _active_plan_epoch items ++ later.
Proof.
  induction later as [|x later IH] using rev_ind; [by rewrite !app_nil_r|].
  intros [Hl [Hx _]%Forall_cons]%Forall_app. by rewrite !app_assoc, epoch_snoc, IH.
Qed.

(** A resumed turn starts from no consecutive failures once a call of the epoch succeeded,
    however many failures followed it, which the interrupted loop had counted. *)
Theorem resumed_failures_forgotten items x later :
  is_kind (u "capability_result") x = true → Forall (λ y, kind_in skipped y = true) later →
  _trailing_failure_count (items ++ x :: later) = 0.
Proof.
  intros Hx Hl. unfold _trailing_failure_count. rewrite epoch_app.
  - rewrite reverse_app, reverse_cons, <- app_assoc. generalize 0 at 1.
    apply Forall_reverse in Hl. induction Hl as [|y l Hy _ IH]; intros count.
    + cbn [app trailing_failures]. rewrite Hx. apply str_eqb_true in Hx as E. unfold kind_in at 1. rewrite E.
      by vm_compute.
    + cbn [app trailing_failures]. destruct (kind_in [_; _] y) eqn:E1; [apply IH|].
      destruct (is_kind _ y); [done|]. assert (kind_in [u "assistant_decision"; u "capability_call";
        u "plan_step_proposed"; u "task_plan"] y = true) as ->; [|apply IH].
      unfold kind_in in *. apply mem_true. apply mem_true in Hy. apply mem_false in E1. unfold skipped in Hy. set_solver.
  - apply Forall_cons. split; [|eapply Forall_impl; [exact Hl|apply skipped_keeps_epoch]].
    unfold plan_failed, is_kind in *. apply str_eqb_true in Hx as ->. by vm_compute.
Qed.
