(* ===== verification/AgentTurnWorld.v ===== *)
(** * Agent: a turn on the real executor

    What every call of the host keeps, a turn keeps.  With the capability executor as the host,
    the handlers that a turn reaches are the ones the executor guards. *)
From S2P Require Import Prelude PyText PyValue Json TaskPlan Budgets WorkingTranscript EffectPlan.
From S2P Require Import Capability CapabilityValidation CapabilityRegistry CapabilityRegistryFacts.
From S2P Require Import CapabilityPublic CapabilityExecutor CapabilityExecutorFacts EffectPlanService.
From S2P Require Import AgentDecision AgentTurn.
Local Open Scope Z_scope.

#[local] Arguments append_working_item : simpl never.
#[local] Arguments transcript_payload : simpl never.
#[local] Arguments append : simpl never.
#[local] Arguments u : simpl never.

(** ** What the calls of the host keep *)

Section world.
Context {W R : Type} `{!AgentHost W R}.
Context (rg : CapabilityRegistry) (metadata : pydict) (allow_plan_proposals : bool).
Abbreviation AS := (ST (agent_run W) agent_exn).
Context (Rel : W → W → Prop) `{!PreOrder Rel}.

Definition world_rel (s s' : agent_run W) : Prop := Rel (an_world s) (an_world s').
#[local] Instance world_rel_preorder : PreOrder world_rel.
Proof. split; [intros s; unfold world_rel; reflexivity|]. intros s1 s2 s3 H1 H2. unfold world_rel in *. by etrans. Qed.

(** A call of the host keeps the relation. *)
Definition keeps_world {A} (f : W → result agent_exn A * W) : Prop := ∀ w, Rel w (f w).2.

Hypothesis decision_keeps : ∀ items left_ w, Rel w (ag_next_decision items left_ w).2.
Hypothesis persist_keeps : ∀ f items, ag_persist = Some f → keeps_world (f items).
Hypothesis cancelled_keeps : keeps_world ag_cancelled.
Hypothesis started_keeps : ∀ f, ag_work_started = Some f → keeps_world f.
Hypothesis execute_keeps : ∀ name arguments, keeps_world (ag_execute name arguments).
Hypothesis savepoint_keeps : ∀ within f, ag_savepoint = Some within → keeps_world f → keeps_world (within f).
Hypothesis flush_keeps : keeps_world ag_flush.
Hypothesis emit_keeps : ∀ event_type title event, keeps_world (ag_emit event_type title event).

Lemma call_world {A} (f : W → result agent_exn A * W) : keeps_world f → keeps world_rel (host_call f : AS A).
Proof. intros H s. specialize (H (an_world s)). unfold host_call. by destruct (f (an_world s)). Qed.
Lemma log_world call : keeps world_rel (modify (log_call call) : AS unit).
Proof. intros s. unfold world_rel. simpl. reflexivity. Qed.
Lemma items_world items : keeps world_rel (modify (set_items items) : AS unit).
Proof. intros s. unfold world_rel. simpl. reflexivity. Qed.
#[local] Hint Resolve call_world log_world items_world cancelled_keeps flush_keeps emit_keeps execute_keeps : keeps.

Lemma persist_world : keeps world_rel (_persist : AS unit).
Proof.
  unfold _persist. apply keeps_bind; [apply _|solve_keeps|intros items].
  apply keeps_bind; [apply _|solve_keeps|intros v]. destruct ag_persist as [f|] eqn:E; [|solve_keeps].
  apply keeps_bind; [apply _| |intros []; apply log_world].
  apply keeps_catch; [apply _|by apply call_world, persist_keeps|solve_keeps].
Qed.
Lemma append_world kind data : keeps world_rel (append kind data : AS unit).
Proof. unfold append. solve_keeps. Qed.
#[local] Hint Resolve persist_world append_world : keeps.
#[local] Opaque append _persist.
Lemma record_world kind data : keeps world_rel (record kind data : AS unit).
Proof. unfold record. solve_keeps. Qed.
#[local] Hint Resolve record_world : keeps.
#[local] Opaque record.
Lemma cancelled_world : keeps world_rel (_ensure_not_cancelled : AS unit).
Proof. unfold _ensure_not_cancelled. solve_keeps. Qed.
Lemma started_world : keeps world_rel (_mark_work_started : AS unit).
Proof.
  unfold _mark_work_started. apply keeps_bind; [apply _|solve_keeps|intros started].
  destruct started; [solve_keeps|]. apply keeps_bind; [apply _| |intros []].
  - intros s. unfold world_rel. simpl. reflexivity.
  - destruct ag_work_started as [f|] eqn:E; [by apply call_world, started_keeps|solve_keeps].
Qed.
Lemma telemetry_world event_type title event : keeps world_rel (emit_optional_telemetry event_type title event : AS bool).
Proof. unfold emit_optional_telemetry. solve_keeps. Qed.
Lemma finish_world code : keeps world_rel (finish_safely code : AS _).
Proof. unfold finish_safely. solve_keeps. Qed.
Lemma capability_error_world call_id capability code details :
  keeps world_rel (_record_capability_error call_id capability code details : AS unit).
Proof. unfold _record_capability_error. solve_keeps. Qed.
#[local] Hint Resolve cancelled_world started_world telemetry_world finish_world capability_error_world : keeps.
#[local] Opaque _ensure_not_cancelled _mark_work_started emit_optional_telemetry finish_safely _record_capability_error.
Lemma task_plan_world plan : keeps world_rel (_record_task_plan plan : AS unit).
Proof. unfold _record_task_plan. solve_keeps. Qed.
Lemma failure_world b c : keeps world_rel (after_failure b c : AS _).
Proof. unfold after_failure, return_. solve_keeps. Qed.
Lemma record_decision_world x : keeps world_rel (_record_decision x : AS unit).
Proof. unfold _record_decision. solve_keeps. Qed.
Lemma fresh_world call_id : keeps world_rel (require_fresh_call call_id : AS unit).
Proof. unfold require_fresh_call. solve_keeps. Qed.
#[local] Hint Resolve failure_world record_decision_world fresh_world : keeps.
#[local] Opaque _record_decision require_fresh_call.
Lemma rejected_world b code rejected c : keeps world_rel (on_rejected b code rejected c : AS _).
Proof.
  unfold on_rejected, _record_rejected_decision, _record_rejected_revision, record_error, return_. destruct rejected as [[]| |]; solve_keeps.
Qed.
Lemma answer_world planning answer confidence :
  keeps world_rel (finish_answer metadata allow_plan_proposals planning answer confidence : AS _).
Proof. unfold finish_answer. solve_keeps. Qed.
#[local] Hint Resolve task_plan_world rejected_world answer_world : keeps.
#[local] Opaque _record_task_plan after_failure on_rejected finish_answer.
Lemma proposal_world b planning x call_id capability arguments summary c :
  keeps world_rel (on_proposal metadata allow_plan_proposals b planning x call_id capability arguments summary c : AS _).
Proof. unfold on_proposal, record_error. solve_keeps. Qed.
Lemma execution_world capability arguments : keeps world_rel (_execute_reasoning capability arguments : AS R).
Proof.
  unfold _execute_reasoning. apply keeps_bind; [apply _|apply log_world|intros []].
  apply call_world. destruct ag_savepoint as [within|] eqn:E; [by apply savepoint_keeps|apply execute_keeps].
Qed.
#[local] Hint Resolve proposal_world execution_world : keeps.
Lemma result_world b call_id capability data c : keeps world_rel (record_result b call_id capability data c : AS _).
Proof. unfold record_result. solve_keeps. Qed.
#[local] Hint Resolve result_world : keeps.
#[local] Opaque record_result.
Lemma on_call_world b reasoning x call_id capability arguments c :
  keeps world_rel (on_call b reasoning x call_id capability arguments c : AS _).
Proof.
  unfold on_call, return_, record_error. destruct (_ <? _); [solve_keeps|].
  apply keeps_bind; [apply _|solve_keeps|intros items].
  apply keeps_bind; [apply _|solve_keeps|intros limit]. destruct (_ <=? _); solve_keeps.
Qed.
#[local] Hint Resolve on_call_world : keeps.
#[local] Opaque on_call on_proposal.
Lemma decision_world b reasoning planning x c :
  keeps world_rel (on_decision metadata allow_plan_proposals b reasoning planning x c : AS _).
Proof. unfold on_decision, return_. destruct (terminal_error c), x; solve_keeps. Qed.
Lemma ask_world reasoning planning left_ : keeps world_rel (ask_provider reasoning planning left_ : AS _).
Proof.
  unfold ask_provider. apply keeps_bind; [apply _|apply log_world|intros []].
  apply keeps_bind; [apply _|solve_keeps|intros items]. apply keeps_bind; [apply _| |intros o; solve_keeps].
  apply call_world. intros w. specialize (decision_keeps items left_ w). by destruct (ag_next_decision items left_ w).
Qed.
#[local] Hint Resolve decision_world ask_world : keeps.
Lemma loop_world fuel b reasoning planning c :
  keeps world_rel (decision_loop metadata allow_plan_proposals fuel b reasoning planning c : AS _).
Proof.
  revert c. induction fuel as [|fuel IH]; intros c; cbn [decision_loop]; [solve_keeps|].
  destruct (_ <? _).
  - apply keeps_bind; [apply _| |intros [c'|r]; [apply IH|solve_keeps]]. unfold decision_step.
    repeat (apply keeps_bind; [apply _|solve_keeps|intros ?]). destruct a4 as [x|[code rejected]]; solve_keeps.
  - intros s. pose proof (finish_world (default (u "agent_provider_decision_budget_exceeded") (terminal_error c)) s) as H.
    unfold fmap, ST_fmap. by destruct (finish_safely _ s) as [[r|e] s'].
Qed.

Lemma user_input_world message : keeps world_rel (_ensure_user_input message : AS unit).
Proof. unfold _ensure_user_input. solve_keeps. Qed.
Lemma resume_world planning : keeps world_rel (_resume_terminal metadata allow_plan_proposals planning : AS _).
Proof. unfold _resume_terminal. solve_keeps. Qed.
Lemma close_world : keeps world_rel (_close_interrupted_calls : AS unit).
Proof.
  unfold _close_interrupted_calls. apply keeps_bind; [apply _|solve_keeps|intros items].
  destruct (_pending_decisions items) as [|p ps]; [solve_keeps|].
  apply keeps_bind; [apply _| |intros []; apply persist_world]. generalize (p :: ps). intros l.
  induction l as [|[call_id data] l IH]; cbn [foldST]; [solve_keeps|].
  apply keeps_bind; [apply _|apply append_world|intros []; apply IH].
Qed.
#[local] Opaque _ensure_user_input _resume_terminal _close_interrupted_calls decision_loop.

(** A turn keeps what every call of its host keeps. *)
Lemma run_world message conversation_summary :
  keeps world_rel (run rg metadata allow_plan_proposals None message conversation_summary : AS _).
Proof.
  unfold run, _run_decision_loop. do 4 (apply keeps_bind; [apply _|solve_keeps|intros ?]).
  apply keeps_bind; [apply _|solve_keeps|intros b].
  apply keeps_bind; [apply _|apply user_input_world|intros []].
  apply keeps_bind; [apply _|apply resume_world|intros [r|]]; [solve_keeps|].
  apply keeps_bind; [apply _|apply close_world|intros []].
  apply keeps_bind; [apply _|solve_keeps|intros items]. apply loop_world.
Qed.
End world.

(** ** The capability executor as the host *)

Section executor.
Context {D X Evidence : Type} `{!CapabilityHost D X Evidence}.
Context (rg : CapabilityRegistry) (metadata : pydict) (allow_plan_proposals : bool).
Abbreviation S := (executor D X).
Abbreviation R := (CapabilityResult Evidence).
Let reg := by_name (rg_definitions rg).

(** The provider, the callbacks of the turn and the savepoint of the cursor. *)
Context (superuser : bool) (lang : option pystr).
Context (next_decision : list WorkingItem → remaining_budget → S → provider_outcome * S).
Context (persist : option (list WorkingItem → S → result agent_exn unit * S)).
Context (cancelled : S → result agent_exn bool * S).
Context (work_started : option (S → result agent_exn unit * S)).
Context (savepoint : option ((S → result agent_exn R * S) → S → result agent_exn R * S)).
Context (flush_ : S → result agent_exn unit * S).
Context (emit : pystr → pystr → pydict → S → result agent_exn unit * S).

(** The authority of reasoning, which no human approves. *)
Definition execute_reasoning (name : pystr) (arguments : pydict) (s : S) : result agent_exn R * S :=
  let '(r, s') := CapabilityExecutor.execute rg metadata name arguments AuthorityReasoning false None s in
  (map_err of_capability r, s').

#[local] Instance capability_agent_host : AgentHost S R := {
  ag_result_data := cr_data;
  ag_superuser := superuser;
  ag_lang := lang;
  ag_user s := host_user (x_world s);
  ag_next_decision := next_decision;
  ag_persist := persist;
  ag_cancelled := cancelled;
  ag_work_started := work_started;
  ag_execute := execute_reasoning;
  ag_savepoint := savepoint;
  ag_flush := flush_;
  ag_emit := emit }.

Context (definitions : list CapabilityDefinition) (statuses : list CapabilityProviderStatus)
  (providers : list (pystr * pystr)).
Hypothesis built : new_registry definitions statuses providers = Ok rg.

(** Neither the provider nor a callback of the turn calls the executor, and a savepoint undoes
    writes of the database, not calls. *)
Hypothesis decision_quiet : ∀ items left_ s, same_log s (next_decision items left_ s).2.
Hypothesis persist_quiet : ∀ f items s, persist = Some f → same_log s (f items s).2.
Hypothesis cancelled_quiet : ∀ s, same_log s (cancelled s).2.
Hypothesis started_quiet : ∀ f s, work_started = Some f → same_log s (f s).2.
Hypothesis savepoint_quiet : ∀ within f s, savepoint = Some within → same_log (f s).2 (within f s).2.
Hypothesis flush_quiet : ∀ s, same_log s (flush_ s).2.
Hypothesis emit_quiet : ∀ event_type title event s, same_log s (emit event_type title event s).2.

(** The calls of a turn: executions of capabilities for reasoning that need no approval, with
    payloads of their schemas. *)
Definition turn_call (c : handler_call) : Prop :=
  hk_stage c = ExecuteStage →
  ∃ d, reg !! hk_name c = Some d ∧ d_exposure d = ExposeReasoning ∧ d_approval d ≠ ApprovalAlways ∧
    conforms (d_input_schema d) (VDict (hk_payload c)).

Definition turn_effect (s s' : S) : Prop :=
  (within_limits rg s → within_limits rg s') ∧ ∃ cs, x_trace s' = x_trace s ++ cs ∧ Forall turn_call cs.
#[local] Instance turn_effect_preorder : PreOrder turn_effect.
Proof.
  split.
  - intros s. split; [done|]. exists []. by rewrite app_nil_r.
  - intros s1 s2 s3 [H1 (l1 & E1 & F1)] [H2 (l2 & E2 & F2)]. split; [auto|].
    exists (l1 ++ l2). rewrite E2, E1, app_assoc. split; [done|]. by apply Forall_app.
Qed.

Lemma same_log_turn s s' : same_log s s' → turn_effect s s'.
Proof.
  intros [Hc Ht]. split; [|exists []; by rewrite app_nil_r].
  intros Hw name. specialize (Hw name). unfold executions, calls_of in *. by rewrite Hc, Ht.
Qed.

Lemma reasoning_authority d decision :
  evaluate d metadata AuthorityReasoning false = Ok decision → pd_allowed decision = true →
  d_exposure d = ExposeReasoning ∧ d_approval d ≠ ApprovalAlways.
Proof.
  unfold evaluate. destruct (d_exposure d); simpl; try (by intros [= <-]).
  intros H Hp. split; [done|]. intros Ha. rewrite Ha in H. simpl in H. by simplify_eq/=.
Qed.

Lemma execution_turn name arguments s : turn_effect s (execute_reasoning name arguments s).2.
Proof.
  pose proof (execute_advances rg metadata _ _ _ built name arguments AuthorityReasoning false None s) as Ha.
  unfold execute_reasoning. destruct (CapabilityExecutor.execute _ _ _ _ _ _ _ s) as [r s']. simpl in Ha |- *.
  split; [by eauto using advances_limits|].
  destruct Ha as [[_ [Ht|(c & Ht & Hs & _)]]|(c & Hs & Hk & Ho & _ & [Ht|Ht])].
  - exists []. by rewrite app_nil_r.
  - exists [c]. split; [done|]. repeat constructor. by intros Hc.
  - exists []. by rewrite app_nil_r.
  - exists [c]. split; [done|]. repeat constructor. intros _.
    destruct Ho as (d & Hd & _ & Hconf & Hstage). rewrite Hs in Hstage.
    destruct Hstage as (_ & a & b & decision & Hk' & He & Hp). rewrite Hk in Hk'. injection Hk' as <- <-.
    destruct (reasoning_authority _ _ He Hp). by exists d.
Qed.

(** Whatever the provider decides, a turn on the real executor calls the handlers of
    reasoning capabilities only, none that always asks for approval, with payloads of their
    input schemas, and keeps every capability within its call limit. *)
Theorem turn_execution_is_authorised message conversation_summary s r s' :
  run rg metadata allow_plan_proposals None message conversation_summary s = (r, s') →
  (within_limits rg (an_world s) → within_limits rg (an_world s')) ∧
  ∃ cs, x_trace (an_world s') = x_trace (an_world s) ++ cs ∧ Forall turn_call cs.
Proof.
  intros Hrun. assert (keeps (world_rel turn_effect)
    (run rg metadata allow_plan_proposals None message conversation_summary)) as H.
  { apply run_world; unfold keeps_world; simpl.
    - apply _.
    - intros items left_ w. apply same_log_turn, decision_quiet.
    - intros f items Hf w. by apply same_log_turn, persist_quiet.
    - intros w. apply same_log_turn, cancelled_quiet.
    - intros f Hf w. by apply same_log_turn, started_quiet.
    - intros name arguments w. apply execution_turn.
    - intros within f Hw Hf w. transitivity (f w).2; [apply Hf|]. by apply same_log_turn, savepoint_quiet.
    - intros w. apply same_log_turn, flush_quiet.
    - intros event_type title event w. apply same_log_turn, emit_quiet. }
  specialize (H s). by rewrite Hrun in H.
Qed.
End executor.
