(* ===== verification/AgentTurnExamples.v ===== *)
(** * Agent: a concrete turn

    A provider that answers by a script, on the real executor over a catalog of two capabilities,
    and the theorems about turns on its runs. *)
From S2P Require Import Prelude PyText PyValue Json TaskPlan Budgets WorkingTranscript.
From S2P Require Import EffectPlan Capability CapabilityValidation Dependencies CapabilityRegistry.
From S2P Require Import CapabilityRegistryFacts CapabilityExecutor CapabilityExecutorFacts EffectPlanService.
From S2P Require Import CapabilityExamples AgentDecision AgentTurn AgentTurnFacts.
From S2P Require Import AgentTurnBudgets AgentTurnGuards AgentTurnAnswers AgentTurnWorld.
Local Open Scope Z_scope.

(** ** A host *)

Definition find : CapabilityDefinition :=
  MkDefinition (u "demo.find") (u "Find notes.") note_schema open_schema RiskRead ReadOnly (u "Find") (u "1")
    ExposeReasoning ApprovalNone [] [] [] [] true None 2 16384 98304 [] [] None false false false.
Definition turn_registry : CapabilityRegistry :=
  MkRegistry [find; note] [core_status] [(u "demo.find", u "demo.core"); (u "demo.note", u "demo.core")].
Lemma turn_registry_built :
  new_registry [note; find] [core_status] [(u "demo.find", u "demo.core"); (u "demo.note", u "demo.core")]
    = Ok turn_registry.
Proof. vm_compute. reflexivity. Qed.

(** Two calls, of which the second fails, a proposal and an answer. *)
Definition script (items : list WorkingItem) : NextDecision :=
  match length items with
  | 1%nat => ReasoningCapabilityCall (u "c1") (u "demo.find") (text (u "hello"))
  | 4%nat => ReasoningCapabilityCall (u "c2") (u "demo.find") (text (u "bad"))
  | 7%nat => PlanStepProposal (u "c3") (u "demo.note") (text (u "hi")) (u "Write a note")
  | _ => FinalAnswer (u " Done. ") (u "high")
  end.

Abbreviation demo_state := (executor nat nat).
Definition demo_within (f : demo_state → result agent_exn (CapabilityResult unit) * demo_state) (s : demo_state)
    : result agent_exn (CapabilityResult unit) * demo_state :=
  match f s with
  | (Ok r, s') => (Ok r, s')
  | (Err e, s') => (Err e, set_world (rolled_back (x_world s) (x_world s')) s')
  end.
Definition done_ (s : demo_state) : result agent_exn unit * demo_state := (Ok tt, s).

#[export] Instance scripted : AgentHost demo_state (CapabilityResult unit) :=
  capability_agent_host turn_registry [(u "capability_policy", VDict [(u "max_effect_steps_per_plan", VInt 2)])]
    false (Some (u "en_US")) (λ items _ s, (Decided (Some (script items)), s)) (Some (λ _, done_))
    (λ s, (Ok false, s)) None (Some demo_within) done_ (λ _ _ _, done_).

Definition turn_metadata : pydict := [(u "capability_policy", VDict [(u "max_effect_steps_per_plan", VInt 2)])].
Definition start : agent_run demo_state := MkAgentRun fresh [] false [].
Definition turn := run turn_registry turn_metadata true None (u "Note it") [] start.
Definition turn_result : AgentTurnResult :=
  MkTurnResult (u "Done.") (u "high") [MkPlanned (u "demo.note") (text (u "hi")) (u "Write a note") (u "c3") []] None.

Lemma turn_ends : turn = (Ok (Some turn_result), turn.2).
Proof. rewrite (surjective_pairing turn) at 1. apply (f_equal (λ r, (r, turn.2))). vm_compute. reflexivity. Qed.
Example turn_calls :
  tally is_ask turn.2 = 4 ∧ tally is_execution turn.2 = 2 ∧
  (hk_stage <$> x_trace (an_world turn.2)) = [ExecuteStage; ExecuteStage] ∧
  w_db (x_world (an_world turn.2)) = 1%nat ∧ length (an_items turn.2) = 10%nat.
Proof. vm_compute. done. Qed.

(** A provider that never answers is stopped: after two calls the limit of the capability refuses
    each further one, and the fourth refusal in a row ends the turn. *)
Example endless_provider :
  let ask items (_ : remaining_budget) (s : demo_state) :=
    (Decided (Some (ReasoningCapabilityCall (u "c" ++ int_str (Z.of_nat (length items))) (u "demo.find")
                      (text (u "hello")))), s) in
  let host := capability_agent_host turn_registry turn_metadata
    false None ask None (λ s, (Ok false, s)) None None done_ (λ _ _ _, done_) in
  let '(r, s) := @run _ _ host turn_registry turn_metadata true None (u "Note it") [] start in
  tally is_ask s = 6 ∧ tally is_execution s = 2 ∧
  match r with Ok (Some r) => tr_confidence r = u "low" | _ => False end.
Proof. vm_compute. done. Qed.

(** ** The theorems on the runs *)

Lemma run_within_budgets_witness :
  ∃ b, resolve_agent_budgets turn_metadata = Ok b ∧
    tally is_ask turn.2 <= tally is_ask start
      + Z.max 0 (provider_decision_limit b - _provider_decisions_used (an_items start)) ∧
    tally is_execution turn.2 <= tally is_execution start
      + Z.max 0 (max_capability_calls (exploration b) - _capability_calls_used (an_items start)).
Proof.
  destruct (resolve_agent_budgets turn_metadata) as [b|e] eqn:E; [|by vm_compute in E].
  exists b. split; [done|].
  exact (run_within_budgets turn_registry turn_metadata true (u "Note it") [] b start turn.1 turn.2 E
           (surjective_pairing turn)).
Defined.

Lemma executions_are_recorded_witness :
  ∃ new, an_log turn.2 = an_log start ++ new ∧
    ∀ pre name arguments post, new = pre ++ ExecuteCapability name arguments :: post →
      reasoning_call turn_registry turn_metadata start name arguments ∧ announced pre name arguments.
Proof.
  exact (executions_are_recorded turn_registry turn_metadata true _ _ _ turn_registry_built (u "Note it") [] start
           turn.1 turn.2 (surjective_pairing turn)).
Defined.

Lemma run_extends_transcript_witness :
  transcript_ok (an_items turn.2) ∧ ∃ l, an_items turn.2 = an_items start ++ l.
Proof.
  exact (run_extends_transcript turn_registry turn_metadata true (u "Note it") [] start
           turn.1 turn.2 empty_ok (surjective_pairing turn)).
Defined.

(** The turn is run again in a world where nothing happened. *)
Lemma answered_turn_resumes_witness :
  let again := MkAgentRun fresh (an_items turn.2) false [] in
  run turn_registry turn_metadata true None (u "Note it") [] again = (Ok (Some turn_result), again).
Proof.
  apply (answered_turn_resumes turn_registry turn_metadata true (u "Note it") [] start turn_result turn.2).
  - exact turn_ends.
  - eexists. split; vm_compute; reflexivity.
  - reflexivity.
Defined.

Lemma returned_plan_checked_witness :
  plan_offered turn_registry turn_metadata start (tr_plan turn_result) ∧ (tr_confidence turn_result ∈ _CONFIDENCE).
Proof.
  exact (returned_plan_checked turn_registry turn_metadata true _ _ _ turn_registry_built None (u "Note it") []
           start turn_result turn.2 turn_ends).
Defined.

Lemma turn_execution_is_authorised_witness :
  (within_limits turn_registry fresh → within_limits turn_registry (an_world turn.2)) ∧
  ∃ cs, x_trace (an_world turn.2) = x_trace fresh ++ cs ∧ Forall (turn_call turn_registry) cs.
Proof.
  refine (turn_execution_is_authorised turn_registry turn_metadata true false (Some (u "en_US"))
    (λ items _ s, (Decided (Some (script items)), s)) (Some (λ _, done_)) (λ s, (Ok false, s)) None
    (Some demo_within) done_ (λ _ _ _, done_) _ _ _ turn_registry_built _ _ _ _ _ _ _
    (u "Note it") [] start turn.1 turn.2 (surjective_pairing turn)); try done.
  - intros f items s [= <-]. done.
  - intros within f s [= <-]. unfold demo_within. by destruct (f s) as [[r|e] s'].
Defined.

(** Two turns of the loop after the user's input: a result, and then a failure. *)
Definition asked : agent_run demo_state := (_ensure_user_input (u "Note it") start).2.
Definition next_turn (p : counters * agent_run demo_state) : counters * agent_run demo_state :=
  match decision_step turn_metadata true sample_budgets [find] [note] p.1 p.2 with
  | (Ok (inl c), s) => (c, s)
  | _ => p
  end.
Definition two_turns := next_turn (next_turn (counters_of (an_items asked), asked)).

Lemma resumed_budgets_agree_witness :
  provider_decisions (counters_of (an_items two_turns.2)) = provider_decisions two_turns.1 ∧
  capability_calls (counters_of (an_items two_turns.2)) = capability_calls two_turns.1.
Proof.
  apply (resumed_budgets_agree turn_metadata true sample_budgets [find] [note] asked two_turns.1 two_turns.2).
  eapply rtc_l; [|eapply rtc_l; [|apply rtc_refl]].
  - instantiate (1 := next_turn (counters_of (an_items asked), asked)). vm_compute. reflexivity.
  - vm_compute. reflexivity.
Defined.

(** The loop had counted the failure; a turn resumed from the same transcript starts from zero. *)
Lemma resumed_failures_forgotten_witness :
  consecutive_failures two_turns.1 = 1 ∧ _trailing_failure_count (an_items two_turns.2) = 0.
Proof.
  split; [vm_compute; reflexivity|].
  assert (∃ items x later, an_items two_turns.2 = items ++ x :: later ∧
    is_kind (u "capability_result") x = true ∧ forallb (kind_in skipped) later = true) as (items & x & later & -> & Hx & Hl).
  { exists (take 3 (an_items two_turns.2)). eexists _, _. split; [vm_compute; reflexivity|]. split; vm_compute; reflexivity. }
  apply resumed_failures_forgotten; [exact Hx|]. by apply Forall_forall, (proj1 (forallb_true _ _)).
Defined.
