(* ===== verification/Failure.v ===== *)
(** * Agent: failure envelopes

    [runtime/agent/failure.py] and [runtime/agent/terminal_failure.py]: the bounded contract in
    which every terminal failure is stored and shown, the routes from error codes to it, and
    the projection that makes the queue's write barrier authoritative. *)
From S2P Require Import Prelude PyText Regex PyValue Json.
Local Open Scope Z_scope.

Definition FAILURE_CATEGORIES : list pystr :=
  [u "input"; u "context"; u "authentication"; u "provider_connection"; u "provider_protocol";
   u "provider_capacity"; u "provider_output"; u "capability_discovery"; u "capability_input";
   u "capability_execution"; u "capability_output"; u "policy"; u "approval"; u "odoo_access";
   u "retrieval"; u "write_execution"; u "verification"; u "queue_worker"; u "persistence";
   u "cancellation"; u "internal"].
Definition FAILURE_STAGES : list pystr :=
  [u "input"; u "context"; u "enqueue"; u "queue"; u "runtime"; u "provider"; u "reasoning";
   u "capability"; u "retrieval"; u "policy"; u "approval"; u "execution"; u "verification";
   u "persistence"; u "cancellation"; u "browser"; u "unknown"].
Definition FAILURE_COMPONENTS : list pystr :=
  [u "codex"; u "queue"; u "capability"; u "retrieval"; u "odoo"; u "browser"].
Definition FAILURE_RETRYABILITIES : list pystr :=
  [u "never"; u "safe"; u "after_change"; u "unknown"].
Definition FAILURE_EFFECT_STATES : list pystr :=
  [u "none"; u "not_started"; u "confirmed"; u "partial"; u "unknown"].
Definition FAILURE_USER_ACTIONS : list pystr :=
  [u "retry"; u "reconnect"; u "clarify"; u "request_access"; u "review"; u "none"].

Definition word_chars : list (N * N) := lower ++ digit ++ chars (u "_").
Definition _CODE_RE : regex := RSeq (RSet lower) (RRep (RSet word_chars) 0 127).
Definition _DETAIL_KEY_RE : regex := RSeq (RSet lower) (RRep (RSet word_chars) 0 63).
Definition token_chars : list (N * N) := upper ++ lower ++ digit ++ chars (u "_.:-").
Definition _DIAGNOSTIC_ID_RE : regex := RRep (RSet token_chars) 8 128.
Definition _PROVIDER_CODE_RE : regex := RSeq (RSet (upper ++ lower)) (RRep (RSet token_chars) 0 63).
Definition _MAX_SUMMARY : Z := 512.
Definition _MAX_DETAILS_BYTES : Z := 4 * 1024.
Definition _MAX_DETAILS_DEPTH : Z := 4.
Definition _MAX_DETAILS_ITEMS : Z := 32.
Definition _MAX_DETAIL_STRING : Z := 1024.

(** The only exception of the module, with its default code. *)
Inductive failure_exn : Type := FailureEnvelopeError.

(** ** Safe details *)

(** [_safe_json_value] and, for a dict, [_safe_json_object]. *)
Fixpoint _safe_json_value (v : pyval) (depth : Z) : result failure_exn pyval :=
  if _MAX_DETAILS_DEPTH <? depth then Err FailureEnvelopeError else
  match v with
  | VNone | VBool _ | VInt _ => Ok v
  | VFloat f => match f with FDec _ _ _ => Ok v | _ => Err FailureEnvelopeError end
  | VStr s =>
      if (_MAX_DETAIL_STRING <? Z.of_nat (length s)) || mem 0%N s then Err FailureEnvelopeError
      else Ok v
  | VList l =>
      if _MAX_DETAILS_ITEMS <? Z.of_nat (length l) then Err FailureEnvelopeError else
      (λ l', VList l') <$>
        (fix go (l : list pyval) : result failure_exn (list pyval) :=
           match l with
           | [] => Ok []
           | x :: l => y ← _safe_json_value x (depth + 1); ys ← go l; Ok (y :: ys)
           end) l
  | VDict d =>
      if _MAX_DETAILS_ITEMS <? Z.of_nat (length d) then Err FailureEnvelopeError else
      (λ d', VDict d') <$>
        (fix go (d : pydict) : result failure_exn pydict :=
           match d with
           | [] => Ok []
           | (k, x) :: d =>
               raise_when (negb (fullmatch _DETAIL_KEY_RE k)) FailureEnvelopeError;;
               y ← _safe_json_value x (depth + 1); ys ← go d; Ok ((k, y) :: ys)
           end) d
  end.

Definition _safe_json_object (d : pydict) (depth : Z) : result failure_exn pydict :=
  v ← _safe_json_value (VDict d) depth;
  of_option (as_dict v) FailureEnvelopeError.

Definition _safe_details (d : pydict) : result failure_exn pydict :=
  normalized ← _safe_json_object d 0;
  t ← of_option (json_dumps false (VDict normalized)) FailureEnvelopeError;
  b ← of_option (utf8_encode t) FailureEnvelopeError;
  raise_when (_MAX_DETAILS_BYTES <? Z.of_nat (length b)) FailureEnvelopeError;;
  Ok normalized.

(** ** The envelope *)

Record FailureEnvelope := MkFailure {
  f_code : pystr;
  f_category : pystr;
  f_stage : pystr;
  f_component : pystr;
  f_retryability : pystr;
  f_effect_state : pystr;
  f_user_action : pystr;
  f_safe_summary : pystr;
  f_safe_details : pydict;
  f_diagnostic_id : pystr;
  f_provider_code : option pystr }.

(** [isinstance(v, str) and v in S] *)
Definition str_in (v : pyval) (ss : list pystr) : result failure_exn pystr :=
  s ← of_option (as_str v) FailureEnvelopeError;
  raise_when (negb (mem s ss)) FailureEnvelopeError;; Ok s.

(** [isinstance(v, str) and R.fullmatch(v)] *)
Definition str_like (v : pyval) (r : regex) : result failure_exn pystr :=
  s ← of_option (as_str v) FailureEnvelopeError;
  raise_when (negb (fullmatch r s)) FailureEnvelopeError;; Ok s.

Definition _summary (v : pyval) : result failure_exn pystr :=
  s ← of_option (as_str v) FailureEnvelopeError;
  let normalized := normalize_ws s in
  raise_when (negb ((1 <=? Z.of_nat (length normalized))
                    && (Z.of_nat (length normalized) <=? _MAX_SUMMARY))
              || mem 0%N normalized) FailureEnvelopeError;;
  Ok normalized.

Definition _provider (v : pyval) : result failure_exn (option pystr) :=
  if is_none v then Ok None else Some <$> str_like v _PROVIDER_CODE_RE.

(** The dataclass with its [__post_init__]. *)
Definition new_failure (code category stage component retryability effect_state user_action
    safe_summary safe_details diagnostic_id provider_code : pyval)
    : result failure_exn FailureEnvelope :=
  code ← str_like code _CODE_RE;
  category ← str_in category FAILURE_CATEGORIES;
  stage ← str_in stage FAILURE_STAGES;
  component ← str_in component FAILURE_COMPONENTS;
  retryability ← str_in retryability FAILURE_RETRYABILITIES;
  effect_state ← str_in effect_state FAILURE_EFFECT_STATES;
  user_action ← str_in user_action FAILURE_USER_ACTIONS;
  safe_summary ← _summary safe_summary;
  details ← of_option (as_dict safe_details) FailureEnvelopeError;
  details ← _safe_details details;
  diagnostic_id ← str_like diagnostic_id _DIAGNOSTIC_ID_RE;
  provider_code ← _provider provider_code;
  Ok (MkFailure code category stage component retryability effect_state user_action safe_summary
        details diagnostic_id provider_code).

Definition envelope_keys : list pystr :=
  [u "code"; u "category"; u "stage"; u "component"; u "retryability"; u "effect_state";
   u "user_action"; u "safe_summary"; u "safe_details"; u "diagnostic_id"; u "provider_code"].

Definition parse_failure_envelope (value : pyval) : result failure_exn FailureEnvelope :=
  d ← of_option (as_dict value) FailureEnvelopeError;
  raise_when (negb (has_keys d envelope_keys)) FailureEnvelopeError;;
  new_failure (get (u "code") d) (get (u "category") d) (get (u "stage") d)
    (get (u "component") d) (get (u "retryability") d) (get (u "effect_state") d)
    (get (u "user_action") d) (get (u "safe_summary") d) (get (u "safe_details") d)
    (get (u "diagnostic_id") d) (get (u "provider_code") d).

Definition failure_envelope_payload (e : FailureEnvelope) : pyval :=
  VDict [(u "code", VStr (f_code e)); (u "category", VStr (f_category e));
         (u "stage", VStr (f_stage e)); (u "component", VStr (f_component e));
         (u "retryability", VStr (f_retryability e)); (u "effect_state", VStr (f_effect_state e));
         (u "user_action", VStr (f_user_action e)); (u "safe_summary", VStr (f_safe_summary e));
         (u "safe_details", VDict (f_safe_details e));
         (u "diagnostic_id", VStr (f_diagnostic_id e));
         (u "provider_code", of_opt_str (f_provider_code e))].

(** ** Provider failures *)

Record _FailureRoute := MkRoute {
  r_category : pystr;
  r_stage : pystr;
  r_retryability : pystr;
  r_user_action : pystr;
  r_safe_summary : pystr }.

Definition _PROVIDER_CATEGORY_ROUTES : list (pystr * _FailureRoute) :=
  [(u "unauthorized",
    MkRoute (u "authentication") (u "provider") (u "after_change") (u "reconnect")
      (u "El proveedor de razonamiento rechazó la autenticación."));
   (u "usageLimitExceeded",
    MkRoute (u "provider_capacity") (u "provider") (u "after_change") (u "retry")
      (u "El proveedor de razonamiento alcanzó un límite de uso."));
   (u "serverOverloaded",
    MkRoute (u "provider_capacity") (u "provider") (u "unknown") (u "retry")
      (u "El proveedor de razonamiento está temporalmente saturado."));
   (u "httpConnectionFailed",
    MkRoute (u "provider_connection") (u "provider") (u "unknown") (u "retry")
      (u "La conexión con el proveedor de razonamiento falló."));
   (u "responseStreamConnectionFailed",
    MkRoute (u "provider_connection") (u "provider") (u "unknown") (u "retry")
      (u "La conexión de respuesta con el proveedor de razonamiento falló."));
   (u "responseStreamDisconnected",
    MkRoute (u "provider_connection") (u "provider") (u "unknown") (u "retry")
      (u "La respuesta del proveedor de razonamiento se interrumpió."));
   (u "contextWindowExceeded",
    MkRoute (u "context") (u "provider") (u "after_change") (u "clarify")
      (u "El contexto superó el límite que el proveedor puede procesar."));
   (u "badRequest",
    MkRoute (u "provider_protocol") (u "provider") (u "never") (u "review")
      (u "El proveedor rechazó la petición por un problema de protocolo."));
   (u "sandboxError",
    MkRoute (u "provider_protocol") (u "provider") (u "never") (u "review")
      (u "El runtime del proveedor no pudo completar su aislamiento de ejecución."));
   (u "internalError",
    MkRoute (u "internal") (u "provider") (u "unknown") (u "retry")
      (u "El proveedor de razonamiento devolvió un error interno."))].

Definition _PROVIDER_CONNECTION_CODES : list pystr :=
  [u "codex_process_eof"; u "codex_process_not_running"; u "codex_read_timeout";
   u "codex_runtime_start_failed"; u "codex_stdout_unavailable"; u "codex_write_timeout"].
Definition _PROVIDER_PROTOCOL_CODES : list pystr :=
  [u "codex_error_event_invalid"; u "codex_initialize_response_invalid"; u "codex_provider_error";
   u "codex_server_request_not_allowed"; u "codex_turn_completion_mismatch"].
Definition _PROVIDER_OUTPUT_CODES : list pystr :=
  [u "agent_next_decision_invalid"; u "agent_next_decision_kind_invalid"; u "codex_answer_invalid";
   u "codex_answer_missing"; u "codex_output_schema_invalid"; u "codex_turn_items_invalid"].

(** [code.startswith((p1, ..., pn))] *)
Definition starts_any (ps : list pystr) (code : pystr) : bool := existsb (λ p, startswith p code) ps.

Definition output_route : _FailureRoute :=
  MkRoute (u "provider_output") (u "provider") (u "never") (u "review")
    (u "La salida del proveedor no pudo validarse con el contrato esperado.").

Definition _provider_failure_route (code : pystr) (provider_category upstream_code : option pystr)
    : _FailureRoute :=
  if str_eqb code (u "agent_cancelled") then
    MkRoute (u "cancellation") (u "cancellation") (u "never") (u "none")
      (u "La petición fue cancelada antes de completar el razonamiento.")
  else if bool_decide (upstream_code = Some (u "invalid_json_schema"))
          || str_eqb code (u "codex_output_schema_invalid") then output_route
  else match c ← provider_category; dict_lookup c _PROVIDER_CATEGORY_ROUTES with
  | Some route => route
  | None =>
    if startswith (u "codex_context_") code then
      MkRoute (u "context") (u "provider") (u "after_change") (u "clarify")
        (u "El contexto enviado al proveedor no pudo procesarse de forma segura.")
    else if mem code _PROVIDER_CONNECTION_CODES then
      MkRoute (u "provider_connection") (u "provider") (u "unknown") (u "retry")
        (u "La conexión con el proveedor de razonamiento no pudo completarse.")
    else if mem code _PROVIDER_PROTOCOL_CODES || startswith (u "codex_event_") code
            || startswith (u "codex_response_") code || startswith (u "codex_server_request_") code then
      MkRoute (u "provider_protocol") (u "provider") (u "never") (u "review")
        (u "La respuesta del proveedor no cumplió el protocolo esperado.")
    else if mem code _PROVIDER_OUTPUT_CODES || startswith (u "codex_answer_") code then output_route
    else
      MkRoute (u "internal") (u "provider") (u "unknown") (u "review")
        (u "El proveedor de razonamiento no pudo completar la petición.")
  end.

Definition _safe_provider_code (v : pyval) : option pystr :=
  match v with VStr s => if fullmatch _PROVIDER_CODE_RE s then Some s else None | _ => None end.

(** What [getattr(..., None)] finds on a provider exception. *)
Record provider_error := MkProviderError {
  pe_code : pyval;
  pe_category : pyval;            (* [provider_failure.category] *)
  pe_upstream_code : pyval;       (* [provider_failure.upstream_code] *)
  pe_http_status : pyval;         (* [provider_failure.http_status_code] *)
  pe_retryable : pyval            (* [provider_retryable] *) }.

Definition http_status_of (v : pyval) : option Z :=
  match v with VInt z => if (100 <=? z) && (z <=? 599) then Some z else None | _ => None end.

(** [safe_details], filled in this order. *)
Definition provider_details (http_status : option Z) (provider_category upstream_code : option pystr)
    (provider_retryable : bool) : pydict :=
  match http_status with Some z => [(u "http_status", VInt z)] | None => [] end
  ++ match upstream_code with
     | Some c => if bool_decide (Some c = provider_category) then [] else [(u "upstream_code", VStr c)]
     | None => []
     end
  ++ (if provider_retryable then [(u "provider_retryable", VBool true)] else []).

(** [provider_code] *)
Definition provider_code_of (code : pystr) (provider_category upstream_code : option pystr)
    : option pystr :=
  if str_eqb code (u "codex_output_schema_invalid") && bool_decide (is_Some upstream_code)
  then upstream_code
  else match provider_category with Some c => Some c | None => upstream_code end.

(** [diagnostic_id]: the argument, or the fresh identifier of [_new_diagnostic_id]. *)
Definition normalize_provider_failure (error : provider_error) (component effect_state : pystr)
    (diagnostic_id : pystr) : result failure_exn FailureEnvelope :=
  raise_when (negb (mem component FAILURE_COMPONENTS) || negb (mem effect_state FAILURE_EFFECT_STATES))
    FailureEnvelopeError;;
  let code := match pe_code error with
              | VStr s => if fullmatch _CODE_RE s then s else u "agent_reasoning_failed"
              | _ => u "agent_reasoning_failed"
              end in
  let provider_category := _safe_provider_code (pe_category error) in
  let upstream_code := _safe_provider_code (pe_upstream_code error) in
  let http_status := http_status_of (pe_http_status error) in
  let route := _provider_failure_route code provider_category upstream_code in
  let provider_retryable := match pe_retryable error with VBool b => b | _ => false end in
  let retryability :=
    if bool_decide (provider_category = Some (u "serverOverloaded")) && provider_retryable
       && mem effect_state [u "none"; u "not_started"]
    then u "safe" else r_retryability route in
  let safe_details := provider_details http_status provider_category upstream_code provider_retryable in
  let provider_code := provider_code_of code provider_category upstream_code in
  new_failure (VStr code) (VStr (r_category route)) (VStr (r_stage route)) (VStr component)
    (VStr retryability) (VStr effect_state) (VStr (r_user_action route))
    (VStr (r_safe_summary route)) (VDict safe_details) (VStr diagnostic_id)
    (of_opt_str provider_code).

(** ** Terminal failures *)

Record _TerminalRoute := MkTerminal {
  t_category : pystr;
  t_stage : pystr;
  t_component : pystr;
  t_retryability : pystr;
  t_user_action : pystr;
  t_safe_summary : pystr }.

Definition _EXACT_ROUTES : list (pystr * _TerminalRoute) :=
  [(u "access_denied",
    MkTerminal (u "odoo_access") (u "runtime") (u "odoo") (u "after_change") (u "request_access")
      (u "Odoo denegó el acceso necesario para completar la petición."));
   (u "runtime_unavailable",
    MkTerminal (u "queue_worker") (u "runtime") (u "queue") (u "unknown") (u "retry")
      (u "El runtime del Assistant no pudo completar la petición."));
   (u "worker_lost",
    MkTerminal (u "queue_worker") (u "queue") (u "queue") (u "safe") (u "retry")
      (u "El worker que procesaba la petición dejó de estar disponible."));
   (u "worker_lost_after_write_barrier",
    MkTerminal (u "queue_worker") (u "execution") (u "queue") (u "never") (u "review")
      (u "El worker se perdió después de cruzar el límite de escritura."));
   (u "agent_turn_lease_lost",
    MkTerminal (u "queue_worker") (u "queue") (u "queue") (u "unknown") (u "review")
      (u "El worker perdió la autoridad sobre la petición en curso."));
   (u "agent_working_transcript_persist_failed",
    MkTerminal (u "persistence") (u "persistence") (u "odoo") (u "unknown") (u "review")
      (u "No se pudo persistir el estado interno seguro de la petición."));
   (u "capability_verification_failed",
    MkTerminal (u "verification") (u "verification") (u "capability") (u "never") (u "review")
      (u "La verificación del resultado de la operación no pudo completarse."));
   (u "capability_plan_approval_required",
    MkTerminal (u "approval") (u "approval") (u "capability") (u "after_change") (u "review")
      (u "La operación requiere una aprobación que no estaba disponible."));
   (u "capability_plan_not_authorized",
    MkTerminal (u "approval") (u "approval") (u "capability") (u "after_change") (u "review")
      (u "La operación no estaba autorizada para ejecutarse."));
   (u "capability_authority_mismatch",
    MkTerminal (u "policy") (u "policy") (u "capability") (u "never") (u "review")
      (u "La capacidad solicitada no coincidió con la autoridad permitida."));
   (u "capability_policy_denied",
    MkTerminal (u "policy") (u "policy") (u "capability") (u "after_change") (u "review")
      (u "La política del Assistant bloqueó la operación solicitada."));
   (u "capability_not_available",
    MkTerminal (u "capability_discovery") (u "capability") (u "capability") (u "after_change") (u "review")
      (u "La capacidad necesaria no está disponible en esta instancia."));
   (u "capability_not_registered",
    MkTerminal (u "capability_discovery") (u "capability") (u "capability") (u "after_change") (u "review")
      (u "La capacidad solicitada no está registrada en esta instancia."))].

(** [token in code] *)
Fixpoint contains (p s : pystr) : bool :=
  startswith p s || match s with [] => false | _ :: s => contains p s end.
Definition contains_any (ps : list pystr) (s : pystr) : bool := existsb (λ p, contains p s) ps.

Definition _route_for_code (code : pystr) : _TerminalRoute :=
  match dict_lookup code _EXACT_ROUTES with
  | Some exact => exact
  | None =>
    if str_eqb code (u "agent_cancelled") then
      MkTerminal (u "cancellation") (u "cancellation") (u "queue") (u "never") (u "none")
        (u "La petición fue cancelada antes de completarse.")
    else if startswith (u "codex_") code then
      if contains_any [u "timeout"; u "process_"; u "runtime_start"; u "stdout_unavailable"] code then
        MkTerminal (u "provider_connection") (u "provider") (u "codex") (u "unknown") (u "retry")
          (u "La conexión con el proveedor de razonamiento no pudo completarse.")
      else if contains_any [u "answer_"; u "output_"; u "turn_items"] code then
        MkTerminal (u "provider_output") (u "provider") (u "codex") (u "never") (u "review")
          (u "La salida del proveedor no pudo validarse con el contrato esperado.")
      else
        MkTerminal (u "provider_protocol") (u "provider") (u "codex") (u "never") (u "review")
          (u "La respuesta del proveedor no cumplió el protocolo esperado.")
    else if starts_any [u "capability_input_"; u "agent_capability_arguments_";
                        u "agent_plan_arguments_"] code then
      MkTerminal (u "capability_input") (u "capability") (u "capability") (u "after_change") (u "clarify")
        (u "Los datos solicitados para la capacidad no cumplen su contrato.")
    else if starts_any [u "capability_output_"; u "agent_capability_result_"] code then
      MkTerminal (u "capability_output") (u "capability") (u "capability") (u "unknown") (u "review")
        (u "El resultado de la capacidad no cumplió su contrato.")
    else if starts_any [u "capability_"; u "agent_capability_"] code then
      MkTerminal (u "capability_execution") (u "capability") (u "capability") (u "unknown") (u "review")
        (u "La capacidad necesaria no pudo completar su ejecución.")
    else if startswith (u "retrieval_") code then
      MkTerminal (u "retrieval") (u "retrieval") (u "retrieval") (u "unknown") (u "retry")
        (u "La recuperación de contexto no pudo completarse.")
    else if starts_any [u "agent_message_"; u "agent_history_"] code then
      MkTerminal (u "input") (u "input") (u "odoo") (u "after_change") (u "clarify")
        (u "La petición no pudo validarse con el contrato de entrada.")
    else if starts_any [u "agent_context_"; u "codex_context_"] code then
      MkTerminal (u "context") (u "context") (u "odoo") (u "after_change") (u "clarify")
        (u "El contexto de la petición no pudo procesarse de forma segura.")
    else
      MkTerminal (u "internal") (u "runtime") (u "odoo") (u "unknown") (u "review")
        (u "El Assistant no pudo completar la petición.")
  end.

(** The envelope of [e] with another retryability, effect state and user action. *)
Definition restate (e : FailureEnvelope) (retryability effect_state user_action : pystr)
    : result failure_exn FailureEnvelope :=
  new_failure (VStr (f_code e)) (VStr (f_category e)) (VStr (f_stage e)) (VStr (f_component e))
    (VStr retryability) (VStr effect_state) (VStr user_action) (VStr (f_safe_summary e))
    (VDict (f_safe_details e)) (VStr (f_diagnostic_id e)) (of_opt_str (f_provider_code e)).

(** [carried] is the [failure] attribute of the error when it is an envelope; [diagnostic_id]
    is the argument or the fresh identifier. *)
Definition terminal_failure_envelope (carried : option FailureEnvelope) (error_code : pystr)
    (write_barrier : bool) (diagnostic_id : pystr) : result failure_exn FailureEnvelope :=
  raise_when (negb (fullmatch _CODE_RE error_code)) FailureEnvelopeError;;
  let route := _route_for_code error_code in
  let routed :=
    new_failure (VStr error_code) (VStr (t_category route)) (VStr (t_stage route))
      (VStr (t_component route)) (VStr (t_retryability route)) (VStr (u "none"))
      (VStr (t_user_action route)) (VStr (t_safe_summary route)) (VDict []) (VStr diagnostic_id)
      VNone in
  base ← match carried with
         | Some c => if str_eqb (f_code c) error_code then Ok c else routed
         | None => routed
         end;
  if write_barrier then restate base (u "never") (u "unknown") (u "review")
  else if str_eqb (f_effect_state base) (u "none") then Ok base
  else restate base (f_retryability base) (u "none") (f_user_action base).
