(* ===== verification/FailureFacts.v ===== *)
(** * Agent: correctness of failure envelopes

    Every envelope that is built is well formed, its payload parses back to it, and the
    terminal projection always succeeds on a valid code and follows the write barrier. *)
From S2P Require Import Prelude PyText Regex PyValue Json Failure.
From Stdlib Require Import ZifyBool ZifyN.
Local Open Scope Z_scope.

#[local] Arguments normalize_ws : simpl never.
#[local] Arguments fullmatch : simpl never.
#[local] Arguments mem : simpl never.
#[local] Arguments _safe_details : simpl never.

(** ** Details are checked, not changed *)

Lemma safe_json_value_id v depth v' : _safe_json_value v depth = Ok v' → v' = v.
Proof.
  revert depth v'. induction v as [|b|z|f|s|l IH|d IH] using pyval_deep_ind; intros depth v';
    simpl; (case_bool; [done|]); try by intros [= <-].
  - destruct f; [by intros [= <-]|done..].
  - case_bool; [done|by intros [= <-]].
  - case_bool; [done|]. intros (l' & Hl & ->)%fmap_Ok. f_equal. clear -IH Hl.
    revert l' Hl. induction IH as [|x l Hx _ IHl]; intros l'; [by intros [= <-]|].
    intros (y & Hy%Hx & (ys & Hys%IHl & [= <-])%bind_Ok)%bind_Ok. by subst.
  - case_bool; [done|]. intros (d' & Hd & ->)%fmap_Ok. f_equal. clear -IH Hd.
    revert d' Hd. induction IH as [|[k x] d Hx _ IHd]; intros d'; [by intros [= <-]|].
    intros (? & _ & (y & Hy%Hx & (ys & Hys%IHd & [= <-])%bind_Ok)%bind_Ok)%bind_Ok. by simplify_eq/=.
Qed.

Lemma safe_details_id d d' : _safe_details d = Ok d' → d' = d.
Proof.
  unfold _safe_details, _safe_json_object. intros H. result_inv.
  match goal with H : _safe_json_value _ _ = Ok _ |- _ => apply safe_json_value_id in H; subst end.
  by simplify_eq/=.
Qed.

(** ** Well-formed envelopes *)

Record failure_wf (e : FailureEnvelope) : Prop := {
  fw_code : fullmatch _CODE_RE (f_code e) = true;
  fw_category : f_category e ∈ FAILURE_CATEGORIES;
  fw_stage : f_stage e ∈ FAILURE_STAGES;
  fw_component : f_component e ∈ FAILURE_COMPONENTS;
  fw_retryability : f_retryability e ∈ FAILURE_RETRYABILITIES;
  fw_effect_state : f_effect_state e ∈ FAILURE_EFFECT_STATES;
  fw_user_action : f_user_action e ∈ FAILURE_USER_ACTIONS;
  fw_summary_normal : normalize_ws (f_safe_summary e) = f_safe_summary e;
  fw_summary_length : 1 <= Z.of_nat (length (f_safe_summary e)) <= _MAX_SUMMARY;
  fw_summary_nul : 0%N ∉ f_safe_summary e;
  fw_details : _safe_details (f_safe_details e) = Ok (f_safe_details e);
  fw_diagnostic : fullmatch _DIAGNOSTIC_ID_RE (f_diagnostic_id e) = true;
  fw_provider : ∀ c, f_provider_code e = Some c → fullmatch _PROVIDER_CODE_RE c = true }.

Lemma str_in_Ok v ss s : str_in v ss = Ok s ↔ v = VStr s ∧ s ∈ ss.
Proof.
  unfold str_in. split.
  - intros H. result_inv. rewrite mem_true in *. by rewrite as_str_Some in *.
  - intros [-> Hs%mem_true]. simpl. by rewrite Hs.
Qed.

Lemma str_like_Ok v r s : str_like v r = Ok s ↔ v = VStr s ∧ fullmatch r s = true.
Proof.
  unfold str_like. split.
  - intros H. result_inv. by rewrite as_str_Some in *.
  - intros [-> Hs]. simpl. by rewrite Hs.
Qed.

Lemma summary_Ok v s :
  _summary v = Ok s ↔ ∃ t, v = VStr t ∧ s = normalize_ws t ∧
    1 <= Z.of_nat (length s) <= _MAX_SUMMARY ∧ 0%N ∉ s.
Proof.
  unfold _summary. split.
  - intros H. result_inv. rewrite as_str_Some, mem_false in *. subst. eexists. split_and!; try done; lia.
  - intros (t & -> & -> & Hl & H0%mem_false). simpl. rewrite H0.
    by rewrite (proj2 (Z.leb_le _ _) (proj1 Hl)), (proj2 (Z.leb_le _ _) (proj2 Hl)).
Qed.

Lemma provider_Ok v o :
  _provider v = Ok o ↔ v = of_opt_str o ∧ ∀ c, o = Some c → fullmatch _PROVIDER_CODE_RE c = true.
Proof.
  unfold _provider. split.
  - destruct (is_none v) eqn:E; [destruct v; try done; by intros [= <-]|].
    intros (c & [-> Hc]%str_like_Ok & ->)%fmap_Ok. split; [done|by intros ? [= <-]].
  - intros [-> Hc]. destruct o as [c|]; [|done]. simpl.
    apply fmap_Ok. exists c. split; [|done]. by apply str_like_Ok; split; [|apply Hc].
Qed.

(** What the constructor accepts, and that it accepts the parts of any well-formed envelope. *)
Lemma new_failure_wf a b c d e f g h i j k x :
  new_failure a b c d e f g h i j k = Ok x →
  failure_wf x ∧ a = VStr (f_code x) ∧ e = VStr (f_retryability x) ∧ f = VStr (f_effect_state x) ∧
  g = VStr (f_user_action x).
Proof.
  unfold new_failure. intros H. result_inv.
  repeat match goal with
  | H : str_in _ _ = Ok _ |- _ => apply str_in_Ok in H as [? ?]
  | H : str_like _ _ = Ok _ |- _ => apply str_like_Ok in H as [? ?]
  | H : _summary _ = Ok _ |- _ => apply summary_Ok in H as (? & ? & ? & ? & ?)
  | H : _provider _ = Ok _ |- _ => apply provider_Ok in H as [? ?]
  end.
  match goal with H : _safe_details _ = Ok _ |- _ => pose proof (safe_details_id _ _ H) end. subst. split_and!; [|done..]. split; simpl; try done. apply normalize_idemp.
Qed.

Lemma new_failure_build x :
  failure_wf x →
  new_failure (VStr (f_code x)) (VStr (f_category x)) (VStr (f_stage x)) (VStr (f_component x))
    (VStr (f_retryability x)) (VStr (f_effect_state x)) (VStr (f_user_action x))
    (VStr (f_safe_summary x)) (VDict (f_safe_details x)) (VStr (f_diagnostic_id x))
    (of_opt_str (f_provider_code x)) = Ok x.
Proof.
  intros []. unfold new_failure.
  repeat (first [rewrite (proj2 (str_in_Ok _ _ _)) by (split; [reflexivity|done])
                |rewrite (proj2 (str_like_Ok _ _ _)) by (split; [reflexivity|done])];
          cbn [mbind result_bind]).
  rewrite (proj2 (summary_Ok _ (f_safe_summary x))) by by eexists.
  simpl. rewrite fw_details0. simpl.
  rewrite (proj2 (provider_Ok _ (f_provider_code x))) by done. by destruct x.
Qed.

Lemma parsed_failure_wf v x : parse_failure_envelope v = Ok x → failure_wf x.
Proof. unfold parse_failure_envelope. intros H. result_inv. by apply new_failure_wf in H as [? _]. Qed.

(** The payload of a well-formed failure envelope parses back to it. *)
Theorem failure_payload_roundtrip x :
  failure_wf x → parse_failure_envelope (failure_envelope_payload x) = Ok x.
Proof.
  intros Hx. unfold parse_failure_envelope, failure_envelope_payload. cbn [as_dict of_option mbind result_bind].
  replace (has_keys _ envelope_keys) with true by (vm_compute; reflexivity).
  exact (new_failure_build x Hx).
Qed.

(** ** Routes *)

Definition route_okb (r : _TerminalRoute) : bool :=
  mem (t_category r) FAILURE_CATEGORIES && mem (t_stage r) FAILURE_STAGES
  && mem (t_component r) FAILURE_COMPONENTS && mem (t_retryability r) FAILURE_RETRYABILITIES
  && mem (t_user_action r) FAILURE_USER_ACTIONS
  && str_eqb (normalize_ws (t_safe_summary r)) (t_safe_summary r)
  && (1 <=? Z.of_nat (length (t_safe_summary r))) && (Z.of_nat (length (t_safe_summary r)) <=? _MAX_SUMMARY)
  && negb (mem 0%N (t_safe_summary r)).

(** Every entry of the exact table is within the contract. *)
Lemma exact_routes_ok code r : dict_lookup code _EXACT_ROUTES = Some r → route_okb r = true.
Proof.
  intros Hr%dict_lookup_Some_in.
  assert (forallb (λ kr, route_okb kr.2) _EXACT_ROUTES = true) as H by (vm_compute; reflexivity).
  by apply (proj1 (forallb_true _ _) H) in Hr.
Qed.

Lemma route_for_code_ok code : route_okb (_route_for_code code) = true.
Proof.
  unfold _route_for_code. destruct (dict_lookup code _EXACT_ROUTES) as [r|] eqn:E;
    [by eapply exact_routes_ok|]. clear E.
  repeat case_bool; vm_compute; reflexivity.
Qed.

Lemma safe_details_nil : _safe_details [] = Ok [].
Proof. vm_compute. reflexivity. Qed.

Lemma route_failure_wf code diagnostic_id :
  fullmatch _CODE_RE code = true → fullmatch _DIAGNOSTIC_ID_RE diagnostic_id = true →
  let r := _route_for_code code in
  failure_wf (MkFailure code (t_category r) (t_stage r) (t_component r) (t_retryability r) (u "none")
    (t_user_action r) (t_safe_summary r) [] diagnostic_id None).
Proof.
  intros Hc Hd r. pose proof (route_for_code_ok code) as Hr. unfold route_okb in Hr. fold r in Hr.
  rewrite !andb_true_iff, !mem_true, !Z.leb_le, str_eqb_true, negb_true_iff, mem_false in Hr.
  destruct Hr as ((((((((? & ?) & ?) & ?) & ?) & ?) & ?) & ?) & ?).
  split; simpl; try done; try apply safe_details_nil.
  apply (bool_decide_unpack _). vm_compute. exact I.
Qed.

Lemma restate_build x r e a :
  failure_wf x → r ∈ FAILURE_RETRYABILITIES → e ∈ FAILURE_EFFECT_STATES → a ∈ FAILURE_USER_ACTIONS →
  let y := MkFailure (f_code x) (f_category x) (f_stage x) (f_component x) r e a (f_safe_summary x)
             (f_safe_details x) (f_diagnostic_id x) (f_provider_code x) in
  failure_wf y ∧ restate x r e a = Ok y.
Proof.
  intros [] Hr He Ha y. assert (failure_wf y) as Hy by by split. split; [done|].
  by apply (new_failure_build y).
Qed.

Lemma elem_by_compute (s : pystr) l : mem s l = true → s ∈ l.
Proof. apply mem_true. Qed.

(** The envelope of a terminal failure is always built. *)
Lemma terminal_envelope_built carried code write_barrier diagnostic_id :
  (∀ c, carried = Some c → failure_wf c) →
  fullmatch _CODE_RE code = true → fullmatch _DIAGNOSTIC_ID_RE diagnostic_id = true →
  ∃ x, terminal_failure_envelope carried code write_barrier diagnostic_id = Ok x ∧ failure_wf x ∧
    f_code x = code ∧
    if write_barrier : bool
    then f_retryability x = u "never" ∧ f_effect_state x = u "unknown" ∧ f_user_action x = u "review"
    else f_effect_state x = u "none".
Proof.
  intros Hcar Hc Hd. unfold terminal_failure_envelope. rewrite Hc. simpl raise_when. cbn [mbind result_bind].
  pose proof (route_failure_wf code diagnostic_id Hc Hd) as Hw. cbv zeta in Hw.
  pose proof (new_failure_build _ Hw) as Hb.
  cbn [f_code f_category f_stage f_component f_retryability f_effect_state f_user_action
       f_safe_summary f_safe_details f_diagnostic_id f_provider_code of_opt_str] in Hb.
  rewrite Hb.
  match goal with |- context [mbind _ ?b] => assert (∃ x, b = Ok x ∧ failure_wf x ∧ f_code x = code) as
    (x & -> & Hx & Hcode) end.
  { destruct carried as [c|]; [|by eauto]. destruct (str_eqb (f_code c) code) eqn:E; [|by eauto].
    apply str_eqb_true in E. eauto. }
  cbn [mbind result_bind]. destruct write_barrier.
  - destruct (restate_build x (u "never") (u "unknown") (u "review")) as [Hy ->]; [done|..|by eauto 8];
      apply elem_by_compute; vm_compute; reflexivity.
  - destruct (str_eqb (f_effect_state x) (u "none")) eqn:E; [apply str_eqb_true in E; by eauto 8|].
    destruct (restate_build x (f_retryability x) (u "none") (f_user_action x)) as [Hy ->];
      [done|apply Hx|apply elem_by_compute; vm_compute; reflexivity|apply Hx|by eauto 8].
Qed.

(** For every error code of the contract terminal_failure_envelope returns a well-formed
    envelope with that code; behind the write barrier it says never, unknown, review, and before
    it that there is no effect. *)
Theorem terminal_failure_total carried code write_barrier diagnostic_id :
  (∀ c, carried = Some c → failure_wf c) →
  fullmatch _CODE_RE code = true → fullmatch _DIAGNOSTIC_ID_RE diagnostic_id = true →
  ∃ x, terminal_failure_envelope carried code write_barrier diagnostic_id = Ok x ∧ failure_wf x ∧
    f_code x = code ∧
    if write_barrier : bool
    then f_retryability x = u "never" ∧ f_effect_state x = u "unknown" ∧ f_user_action x = u "review"
    else f_effect_state x = u "none".
Proof. apply terminal_envelope_built. Qed.

Definition sample_failure : pyval :=
  VDict [(u "code", VStr (u "worker_lost")); (u "category", VStr (u "queue_worker"));
    (u "stage", VStr (u "queue")); (u "component", VStr (u "queue"));
    (u "retryability", VStr (u "safe")); (u "effect_state", VStr (u "none"));
    (u "user_action", VStr (u "retry")); (u "safe_summary", VStr (u " Worker  lost "));
    (u "safe_details", VDict [(u "attempt", VInt 2)]);
    (u "diagnostic_id", VStr (u "diag-0123456789")); (u "provider_code", VNone)].

Lemma failure_payload_roundtrip_witness :
  ∃ x, parse_failure_envelope sample_failure = Ok x ∧
    parse_failure_envelope (failure_envelope_payload x) = Ok x.
Proof.
  eexists. split; [vm_compute; reflexivity|].
  apply failure_payload_roundtrip, (parsed_failure_wf sample_failure). vm_compute. reflexivity.
Defined.

Lemma terminal_failure_total_witness :
  ∃ c x, parse_failure_envelope sample_failure = Ok c ∧
    terminal_failure_envelope (Some c) (u "worker_lost") true (u "diag-0000") = Ok x ∧
    f_retryability x = u "never" ∧ f_effect_state x = u "unknown" ∧ f_user_action x = u "review".
Proof.
  destruct (parse_failure_envelope sample_failure) as [c|] eqn:E; [|by vm_compute in E].
  destruct (terminal_failure_total (Some c) (u "worker_lost") true (u "diag-0000"))
    as (x & Hx & _ & _ & Hb).
  - intros c' [= <-]. by apply (parsed_failure_wf sample_failure).
  - vm_compute. reflexivity.
  - vm_compute. reflexivity.
  - exists c, x. split; [done|]. by split.
Defined.

Lemma startswith_app p q s : startswith (p ++ q) s = true → startswith p s = true.
Proof.
  revert s. induction p as [|a p IH]; intros [|b s]; simpl; try done.
  rewrite !andb_true_iff. naive_solver.
Qed.

(** A code of the provider context family is never routed to the context category: the test on
    the prefix ["codex_"] is made first. *)
Lemma codex_context_not_context code :
  startswith (u "codex_context_") code = true → t_category (_route_for_code code) ≠ u "context".
Proof.
  intros Hs. unfold _route_for_code. destruct (dict_lookup code _EXACT_ROUTES) as [r|] eqn:E.
  - apply dict_lookup_Some_in in E.
    assert (forallb (λ kr, negb (startswith (u "codex_context_") kr.1)) _EXACT_ROUTES = true) as H
      by (vm_compute; reflexivity).
    apply (proj1 (forallb_true _ _) H) in E. cbn [fst] in E. by rewrite Hs in E.
  - assert (startswith (u "codex_") code = true) as ->.
    { apply (startswith_app _ (u "context_")). exact Hs. }
    repeat case_bool; by vm_compute.
Qed.

(** * Agent: correctness of provider failures

    Every provider exception is projected to a well-formed envelope; a retry is only declared
    safe for an overloaded provider before any effect. *)
Local Open Scope Z_scope.

#[local] Arguments normalize_ws : simpl never.
#[local] Arguments fullmatch : simpl never.
#[local] Arguments mem : simpl never.

(** A character JSON prints as itself in one byte. *)
Definition plain (c : N) : Prop := (32 <= c < 128 ∧ c ≠ 34 ∧ c ≠ 92)%N.

Lemma dump_plain s : Forall plain s → s ≫= escape_char = s.
Proof.
  induction 1 as [|c s Hc _ IH]; [done|]. rewrite bind_cons, IH. unfold plain in Hc.
  unfold escape_char. repeat (case_bool; [exfalso; lia|]). done.
Qed.

Lemma encode_ascii s :
  Forall (λ c, c < 128)%N s → ∃ b, utf8_encode s = Some b ∧ length b = length s.
Proof.
  intros Hs. exists (s ≫= utf8_char). unfold utf8_encode. assert (encodable s = true) as ->.
  { apply forallb_true. intros c Hc. unfold is_scalar.
    pose proof (proj1 (Forall_forall _ _) Hs c Hc). simpl in *. lia. }
  split; [done|]. induction Hs as [|c s Hc _ IH]; [done|]. rewrite bind_cons, length_app, IH.
  unfold utf8_char. assert ((c <? 128)%N = true) as -> by lia. done.
Qed.

Lemma in_token_plain c : in_ranges token_chars c = true → plain c.
Proof.
  unfold plain, token_chars. vm_compute (_ ++ _). unfold in_ranges, existsb.
  cbn [fst snd]. rewrite !orb_true_iff, !andb_true_iff, !N.leb_le. lia.
Qed.

Lemma provider_code_plain s :
  fullmatch _PROVIDER_CODE_RE s = true → (length s ≤ 64)%nat ∧ Forall plain s ∧ mem 0%N s = false.
Proof.
  rewrite fullmatch_correct. intros (s1 & s2 & -> & (c & -> & Hc)%set_inv & [Hl Hs]%rep_set_matches)%seq_inv.
  assert (Forall plain ([c] ++ s2)) as Hp.
  { apply Forall_cons. split.
    - apply in_token_plain. revert Hc. unfold token_chars, in_ranges. rewrite !existsb_app.
      rewrite !orb_true_iff. tauto.
    - eapply Forall_impl; [exact Hs|]. intros x. apply in_token_plain. }
  split_and!; [simpl; lia|done|]. apply mem_false. intros H0.
  pose proof (proj1 (Forall_forall _ _) Hp 0%N H0) as H. unfold plain in H. lia.
Qed.

Lemma status_text z :
  100 <= z <= 599 → length (int_str z) = 3%nat ∧ Forall plain (int_str z).
Proof.
  intros Hz.
  assert (forallb (λ n, (length (int_str (Z.of_nat n)) =? 3)%nat &&
    forallb (λ c, (32 <=? c) && (c <? 128) && negb (c =? 34) && negb (c =? 92))%N (int_str (Z.of_nat n)))
    (seq 100 500) = true) as H by (vm_compute; reflexivity).
  rewrite forallb_true in H. specialize (H (Z.to_nat z)). rewrite Z2Nat.id in H by lia.
  apply andb_true_iff in H as [H1 H2]; [|apply elem_of_seq; lia].
  split; [by apply Nat.eqb_eq|]. rewrite forallb_true in H2. apply Forall_forall. intros c Hc%H2.
  unfold plain. lia.
Qed.

(** ASCII text of at most [n] characters. *)
Definition ascii_upto (n : nat) (t : pystr) : Prop := (length t ≤ n)%nat ∧ Forall (λ c, c < 128)%N t.

Lemma ascii_app n m s t : ascii_upto n s → ascii_upto m t → ascii_upto (n + m) (s ++ t).
Proof. intros [Hl1 H1] [Hl2 H2]. split; [rewrite length_app; lia|by apply Forall_app]. Qed.
Lemma ascii_cons n c t : (c < 128)%N → ascii_upto n t → ascii_upto (S n) (c :: t).
Proof. intros Hc [Hl Ht]. split; [simpl; lia|by constructor]. Qed.
Lemma ascii_nil n : ascii_upto n [].
Proof. split; [simpl; lia|constructor]. Qed.

Lemma ascii_plain s : Forall plain s → ascii_upto (length s + 2) (dump_str s).
Proof.
  intros Hs. unfold dump_str. rewrite dump_plain by done. split.
  - rewrite !length_app. simpl. lia.
  - apply Forall_app. split; [by repeat constructor|]. apply Forall_app.
    split; [|by repeat constructor]. eapply Forall_impl; [exact Hs|]. intros c. unfold plain. lia.
Qed.

Section dump_details.
#[local] Arguments dump_str : simpl never.
#[local] Arguments int_str : simpl never.
#[local] Arguments int_too_long : simpl never.

Lemma dump_details_ascii (http : option Z) (upstream : option pystr) (retry : bool) :
  (∀ z, http = Some z → int_too_long z = false ∧ ascii_upto 3 (int_str z)) →
  (∀ s, upstream = Some s → ascii_upto 66 (dump_str s)) →
  ∃ t, json_dumps false (VDict (match http with Some z => [(u "http_status", VInt z)] | None => [] end
      ++ match upstream with Some c => [(u "upstream_code", VStr c)] | None => [] end
      ++ (if retry then [(u "provider_retryable", VBool true)] else []))) = Some t ∧
    ascii_upto 200 t.
Proof.
  intros Hz Hs.
  assert (∀ n m t, (n ≤ m)%nat → ascii_upto n t → ascii_upto m t) as Hmono.
  { intros n m t Hnm [Hl Ht]. split; [lia|done]. }
  destruct http as [z|], upstream as [s|], retry; cbn -[dump_str int_str int_too_long u str_join sort_by];
    try (destruct (Hz _ eq_refl) as [Hlong Hzt]; rewrite Hlong; clear Hlong Hz; revert Hzt; generalize (int_str z); intros a Hzt);
    try (specialize (Hs _ eq_refl); revert Hs; generalize (dump_str s); intros b Hs);
    (eexists; split; [cbv -[app]; reflexivity|]);
    (eapply Hmono; [|repeat lazymatch goal with
      | |- ascii_upto _ (_ ++ _) => eapply ascii_app
      | |- ascii_upto _ (_ :: _) => apply ascii_cons; [lia|]
      | |- ascii_upto _ [] => apply (ascii_nil 0)
      | |- _ => eassumption
      end]; lia).
Qed.
End dump_details.

(** The details of a provider failure are within their bounds. *)
Lemma details_safe (http : option Z) (upstream : option pystr) (retry : bool) :
  (∀ z, http = Some z → 100 <= z <= 599) →
  (∀ s, upstream = Some s → fullmatch _PROVIDER_CODE_RE s = true) →
  let d := match http with Some z => [(u "http_status", VInt z)] | None => [] end
    ++ match upstream with Some c => [(u "upstream_code", VStr c)] | None => [] end
    ++ (if retry then [(u "provider_retryable", VBool true)] else []) in
  _safe_details d = Ok d.
Proof.
  intros Hz Hs d. unfold _safe_details.
  assert (_safe_json_object d 0 = Ok d) as ->.
  { destruct upstream as [s|]; [|by destruct http, retry; vm_compute].
    destruct (provider_code_plain s (Hs s eq_refl)) as (Hl & _ & Hm).
    unfold _safe_json_object, d.
    assert ((1024 <? Z.of_nat (length s)) = false) as Hl' by lia.
    destruct http, retry; simpl; unfold _MAX_DETAIL_STRING; rewrite Hl', Hm; reflexivity. }
  cbn [mbind result_bind].
  destruct (dump_details_ascii http upstream retry) as (t & Ht & Hl & Ha).
  { intros z Hhz. destruct (status_text z (Hz z Hhz)) as [Hlz Hpz]. specialize (Hz z Hhz). split.
    { unfold int_too_long. rewrite Z.abs_eq by lia. apply Nat.ltb_ge. lia. }
    split; [lia|].
    eapply Forall_impl; [exact Hpz|]. intros c. unfold plain. lia. }
  { intros s Hus. destruct (provider_code_plain s (Hs s Hus)) as (Hls & Hp & _).
    destruct (ascii_plain s Hp) as [Hl' Ha']. split; [lia|done]. }
  unfold d. rewrite Ht. destruct (encode_ascii t Ha) as (b & Hb & Hlb). simpl. rewrite Hb. simpl.
  rewrite Hlb. unfold _MAX_DETAILS_BYTES.
  assert ((4 * 1024 <? Z.of_nat (length t)) = false) as -> by lia. done.
Qed.

(** ** Provider failures *)

Definition provider_route_okb (r : _FailureRoute) : bool :=
  mem (r_category r) FAILURE_CATEGORIES && mem (r_stage r) FAILURE_STAGES
  && mem (r_retryability r) FAILURE_RETRYABILITIES && negb (str_eqb (r_retryability r) (u "safe"))
  && mem (r_user_action r) FAILURE_USER_ACTIONS
  && str_eqb (normalize_ws (r_safe_summary r)) (r_safe_summary r)
  && (1 <=? Z.of_nat (length (r_safe_summary r))) && (Z.of_nat (length (r_safe_summary r)) <=? _MAX_SUMMARY)
  && negb (mem 0%N (r_safe_summary r)).

Lemma provider_route_ok code category upstream :
  provider_route_okb (_provider_failure_route code category upstream) = true.
Proof.
  unfold _provider_failure_route. do 2 (case_bool; [vm_compute; reflexivity|]).
  destruct (category ≫= _) as [r|] eqn:E; [|repeat case_bool; vm_compute; reflexivity].
  apply bind_Some in E as (c & _ & Hr%dict_lookup_Some_in).
  assert (forallb (λ kr, provider_route_okb kr.2) _PROVIDER_CATEGORY_ROUTES = true) as H
    by (vm_compute; reflexivity).
  by apply (proj1 (forallb_true _ _) H) in Hr.
Qed.

Lemma safe_provider_code_Some v s :
  _safe_provider_code v = Some s → fullmatch _PROVIDER_CODE_RE s = true.
Proof. destruct v; try done. simpl. case_bool; [by intros [= <-]|done]. Qed.

Lemma http_status_Some v z : http_status_of v = Some z → 100 <= z <= 599.
Proof. destruct v; try done. simpl. case_bool; [intros [= <-]; lia|done]. Qed.

Lemma provider_details_safe v category w retry :
  let d := provider_details (http_status_of v) category (_safe_provider_code w) retry in
  _safe_details d = Ok d.
Proof.
  set (up := match _safe_provider_code w with
    | Some c => if bool_decide (Some c = category) then None else Some c | None => None end).
  assert (provider_details (http_status_of v) category (_safe_provider_code w) retry =
    match http_status_of v with Some z => [(u "http_status", VInt z)] | None => [] end
    ++ match up with Some c => [(u "upstream_code", VStr c)] | None => [] end
    ++ (if retry then [(u "provider_retryable", VBool true)] else [])) as ->.
  { unfold provider_details, up. destruct (_safe_provider_code w) as [c|]; [|done].
    by destruct (bool_decide (Some c = category)). }
  apply details_safe; [intros z; apply http_status_Some|]. unfold up.
  destruct (_safe_provider_code w) as [c|] eqn:E; [|done]. intros s.
  destruct (bool_decide (Some c = category)); intros [= <-]. by eapply safe_provider_code_Some.
Qed.

Lemma provider_code_ok code v w c :
  provider_code_of code (_safe_provider_code v) (_safe_provider_code w) = Some c →
  fullmatch _PROVIDER_CODE_RE c = true.
Proof.
  unfold provider_code_of. case_bool; [apply safe_provider_code_Some|].
  destruct (_safe_provider_code v) eqn:E; [|apply safe_provider_code_Some].
  intros [= <-]. by eapply safe_provider_code_Some.
Qed.

(** The code of the envelope: the error's own when it is well formed. *)
Lemma provider_error_code v :
  fullmatch _CODE_RE match v with
    | VStr s => if fullmatch _CODE_RE s then s else u "agent_reasoning_failed"
    | _ => u "agent_reasoning_failed"
    end = true.
Proof.
  destruct v as [| | | |s| |]; try (vm_compute; reflexivity).
  destruct (fullmatch _CODE_RE s) eqn:E; [done|vm_compute; reflexivity].
Qed.

(** The retry decision is only relaxed for an overloaded provider before any effect. *)
Definition safe_retry (error : provider_error) (effect_state : pystr) : Prop :=
  pe_category error = VStr (u "serverOverloaded") ∧ pe_retryable error = VBool true ∧
  effect_state ∈ [u "none"; u "not_started"].

(** Every provider exception is projected to a well-formed envelope with the given effect
    state, and a retry is declared safe only for an overloaded, retryable provider before any
    effect. *)
Theorem provider_failure_total error component effect_state diagnostic_id :
  component ∈ FAILURE_COMPONENTS → effect_state ∈ FAILURE_EFFECT_STATES →
  fullmatch _DIAGNOSTIC_ID_RE diagnostic_id = true →
  ∃ x, normalize_provider_failure error component effect_state diagnostic_id = Ok x ∧ failure_wf x ∧
    f_effect_state x = effect_state ∧
    (f_retryability x = u "safe" → safe_retry error effect_state).
Proof.
  intros Hc He Hd. unfold normalize_provider_failure.
  rewrite (proj2 (mem_true _ _) Hc), (proj2 (mem_true _ _) He). cbn [negb orb raise_when mbind result_bind].
  pose proof (provider_error_code (pe_code error)) as Hcode.
  set (code := match pe_code error with VStr s => _ | _ => _ end) in *.
  set (category := _safe_provider_code (pe_category error)).
  set (upstream := _safe_provider_code (pe_upstream_code error)).
  set (route := _provider_failure_route code category upstream).
  set (retry := match pe_retryable error with VBool b => b | _ => false end).
  set (safe := bool_decide (category = _) && retry && _).
  pose proof (provider_route_ok code category upstream) as Hr. fold route in Hr.
  unfold provider_route_okb in Hr.
  rewrite !andb_true_iff, !mem_true, !Z.leb_le, str_eqb_true, !negb_true_iff, str_eqb_false, mem_false in Hr.
  destruct Hr as ((((((((? & ?) & ?) & Hsafe) & ?) & ?) & ?) & ?) & ?).
  set (x := MkFailure code (r_category route) (r_stage route) component
    (if safe then u "safe" else r_retryability route) effect_state (r_user_action route)
    (r_safe_summary route) (provider_details (http_status_of (pe_http_status error)) category upstream retry)
    diagnostic_id (provider_code_of code category upstream)).
  assert (failure_wf x) as Hx.
  { split; simpl; try done; [|apply provider_details_safe|intros c; apply provider_code_ok].
    destruct safe; [apply elem_by_compute; vm_compute; reflexivity|done]. }
  exists x. split; [apply (new_failure_build x Hx)|]. split_and!; [done..|]. simpl.
  destruct safe eqn:E; [|done]. intros _. unfold safe in E.
  rewrite !andb_true_iff, bool_decide_eq_true, mem_true in E. destruct E as [[E1 E2] E3].
  unfold category, _safe_provider_code in E1. unfold retry in E2. split_and!; [| |done].
  - destruct (pe_category error); try done. by case_bool; simplify_eq.
  - by destruct (pe_retryable error) as [|[]| | | | |].
Qed.

Definition sample_provider_error : provider_error :=
  MkProviderError (VStr (u "codex_provider_error")) (VStr (u "serverOverloaded")) (VStr (u "upstream-7"))
    (VInt 503) (VBool true).

Lemma provider_failure_total_witness :
  ∃ x, normalize_provider_failure sample_provider_error (u "codex") (u "none") (u "diag-00000001") = Ok x ∧
    failure_wf x ∧ f_effect_state x = u "none" ∧ f_retryability x = u "safe" ∧
    safe_retry sample_provider_error (u "none").
Proof.
  destruct (provider_failure_total sample_provider_error (u "codex") (u "none") (u "diag-00000001"))
    as (x & Hx & Hw & He & Hs).
  - apply elem_by_compute. vm_compute. reflexivity.
  - apply elem_by_compute. vm_compute. reflexivity.
  - vm_compute. reflexivity.
  - assert (f_retryability x = u "safe") as Hr by (vm_compute in Hx; by injection Hx as <-).
    exists x. split_and!; auto.
Defined.
