(* ===== verification/TurnStore.v ===== *)
(** * Turns: the stored rows

    [models/chat_storage.py] (the turn), [models/turn_control.py] and
    [models/turn_intervention.py] (the control rows), [models/effect_journal.py] (the journal
    rows): the tables a turn lives in, transactions on them, and the [write] of a turn with the
    overlays of [models/turn_failure.py] and [models/effect_journal.py].

    What comes from outside (the clock, fresh tokens, row locks held by other sessions, whether
    the optional event table accepts a row) is read from an instance of [TurnHost] at a tick of
    a counter that every reading advances. *)
From S2P Require Import Prelude PyText Regex PyValue Json Failure.
Local Open Scope Z_scope.

(** ** Rows *)

Inductive turn_state : Type :=
| TQueued | TRunning | TCancelRequested | TAwaiting
| TCompleted | TFailed | TCancelled | TRecoveryRequired.

#[export] Instance turn_state_eq_decision : EqDecision turn_state.
Proof. solve_decision. Defined.

Record turn := MkTurn {
  t_uuid : pystr;
  t_conversation : option Z;
  t_user : Z;
  t_company : Z;
  t_state : turn_state;
  t_input_message : pystr;
  t_screen : pyval;
  t_allowed_companies : list Z;
  t_policy : pyval;
  t_client_request_id : option pystr;
  t_request_fingerprint : pystr;
  t_user_message : option Z;
  t_assistant_message : option Z;
  t_result : pyval;
  t_queued_at : Z;
  t_started_at : option Z;
  t_heartbeat_at : option Z;
  t_lease_expires_at : option Z;
  t_lease_token : option pystr;
  t_attempt_count : Z;
  t_max_attempts : Z;
  t_write_barrier : bool;
  t_cancel_requested_at : option Z;
  t_completed_at : option Z;
  t_error_code : option pystr;
  t_failure : pyval;
  t_scheduler_claimed_at : option Z;
  t_plan : pyval;
  t_working_items : pyval }.

(** One entry of the dictionary given to [write]; [False] is [None] or [VNone]. *)
Inductive field : Type :=
| FState (s : turn_state)
| FAssistantMessage (m : option Z)
| FResult (v : pyval)
| FQueuedAt (z : Z)
| FStartedAt (z : option Z)
| FHeartbeatAt (z : option Z)
| FLeaseExpiresAt (z : option Z)
| FLeaseToken (s : option pystr)
| FAttemptCount (z : Z)
| FMaxAttempts (z : Z)
| FWriteBarrier (b : bool)
| FCancelRequestedAt (z : option Z)
| FCompletedAt (z : option Z)
| FErrorCode (s : option pystr)
| FFailure (v : pyval)
| FSchedulerClaimedAt (z : option Z)
| FPlan (v : pyval)
| FWorkingItems (v : pyval).

Definition set_field (t : turn) (f : field) : turn :=
  MkTurn (t_uuid t) (t_conversation t) (t_user t) (t_company t)
    (match f with FState x => x | _ => t_state t end)
    (t_input_message t) (t_screen t) (t_allowed_companies t) (t_policy t) (t_client_request_id t) (t_request_fingerprint t) (t_user_message t)
    (match f with FAssistantMessage x => x | _ => t_assistant_message t end)
    (match f with FResult x => x | _ => t_result t end)
    (match f with FQueuedAt x => x | _ => t_queued_at t end)
    (match f with FStartedAt x => x | _ => t_started_at t end)
    (match f with FHeartbeatAt x => x | _ => t_heartbeat_at t end)
    (match f with FLeaseExpiresAt x => x | _ => t_lease_expires_at t end)
    (match f with FLeaseToken x => x | _ => t_lease_token t end)
    (match f with FAttemptCount x => x | _ => t_attempt_count t end)
    (match f with FMaxAttempts x => x | _ => t_max_attempts t end)
    (match f with FWriteBarrier x => x | _ => t_write_barrier t end)
    (match f with FCancelRequestedAt x => x | _ => t_cancel_requested_at t end)
    (match f with FCompletedAt x => x | _ => t_completed_at t end)
    (match f with FErrorCode x => x | _ => t_error_code t end)
    (match f with FFailure x => x | _ => t_failure t end)
    (match f with FSchedulerClaimedAt x => x | _ => t_scheduler_claimed_at t end)
    (match f with FPlan x => x | _ => t_plan t end)
    (match f with FWorkingItems x => x | _ => t_working_items t end).
Definition set_fields (fs : list field) (t : turn) : turn := foldl set_field t fs.

(** The row after its conversation and some messages were deleted ([ondelete="set null"]). *)
Definition unlink_refs (conversations messages : list Z) (t : turn) : turn :=
  let kept l o := match o with Some i => if bool_decide (i ∈ l) then None else Some i | None => None end in
  MkTurn (t_uuid t) (kept conversations (t_conversation t)) (t_user t) (t_company t) (t_state t)
    (t_input_message t) (t_screen t) (t_allowed_companies t) (t_policy t) (t_client_request_id t)
    (t_request_fingerprint t) (kept messages (t_user_message t)) (kept messages (t_assistant_message t))
    (t_result t) (t_queued_at t) (t_started_at t) (t_heartbeat_at t) (t_lease_expires_at t)
    (t_lease_token t) (t_attempt_count t) (t_max_attempts t) (t_write_barrier t)
    (t_cancel_requested_at t) (t_completed_at t) (t_error_code t) (t_failure t)
    (t_scheduler_claimed_at t) (t_plan t) (t_working_items t).

(** [odoo.ai.turn.control], keyed by its unique [turn_ref_id]. *)
Record control := MkControl {
  c_turn_uuid : pystr;
  c_user : Z;
  c_company : Z;
  c_intervention_sequence : Z;
  c_applied_sequence : Z;
  c_intervention_payload : pyval;
  c_cancel_requested : bool;
  c_cancel_requested_at : option Z }.

(** [odoo.ai.turn.intervention] *)
Record intervention := MkIntervention {
  i_turn : Z;
  i_turn_uuid : pystr;
  i_conversation : Z;
  i_user : Z;
  i_company : Z;
  i_sequence : Z;
  i_client_id : pystr;
  i_message : pystr;
  i_message_ref : Z;
  i_applied_at : option Z         (* [None] while the state is ["pending"] *) }.

(** [odoo.ai.conversation] *)
Record conversation := MkConversation {
  cv_uuid : pystr;
  cv_user : Z;
  cv_title : pystr;
  cv_last_message_at : Z }.

(** [odoo.ai.message] *)
Record message := MkMessage {
  m_conversation : option Z;
  m_role : pystr;
  m_content : pystr;
  m_workflow : pystr }.

Definition set_last_message_at (z : Z) (c : conversation) : conversation :=
  MkConversation (cv_uuid c) (cv_user c) (cv_title c) z.

Inductive journal_state : Type :=
| JPrepared | JExecuting | JVerified | JSkipped | JRolledBack | JUncertain | JReverted.

#[export] Instance journal_state_eq_decision : EqDecision journal_state.
Proof. solve_decision. Defined.

(** [odoo.ai.effect.journal] *)
Record journal_row := MkJournal {
  j_turn : Z;
  j_turn_uuid : pystr;
  j_user : Z;
  j_company : Z;
  j_unit_id : pystr;
  j_step_id : pystr;
  j_capability : pystr;
  j_version : pystr;
  j_recovery_mode : pystr;
  j_classification : pystr;
  j_state : journal_state;
  j_before : pyval;
  j_after : pyval;
  j_receipt : pyval;
  j_expires_at : Z }.

Definition set_journal_state (s : journal_state) (r : journal_row) : journal_row :=
  MkJournal (j_turn r) (j_turn_uuid r) (j_user r) (j_company r) (j_unit_id r) (j_step_id r) (j_capability r)
    (j_version r) (j_recovery_mode r) (j_classification r) s (j_before r) (j_after r) (j_receipt r)
    (j_expires_at r).

(** An optional event of a turn: its type and diagnostic code. *)
Record event := MkEvent { e_turn : Z; e_type : pystr; e_diagnostic : option pystr }.

Record db := MkDb {
  d_turns : gmap Z turn;
  d_controls : gmap Z control;
  d_interventions : list intervention;
  d_messages : gmap Z message;
  d_conversations : gmap Z conversation;
  d_journal : list journal_row;
  d_events : list event;
  d_wakes : nat;                  (* triggers of the two scheduled slots *)
  d_next : Z;                     (* the next row identifier *)
  d_ticks : nat }.

Definition with_turns (f : gmap Z turn → gmap Z turn) (s : db) : db :=
  MkDb (f (d_turns s)) (d_controls s) (d_interventions s) (d_messages s) (d_conversations s)
    (d_journal s) (d_events s) (d_wakes s) (d_next s) (d_ticks s).
Definition with_controls (f : gmap Z control → gmap Z control) (s : db) : db :=
  MkDb (d_turns s) (f (d_controls s)) (d_interventions s) (d_messages s) (d_conversations s)
    (d_journal s) (d_events s) (d_wakes s) (d_next s) (d_ticks s).
Definition with_interventions (f : list intervention → list intervention) (s : db) : db :=
  MkDb (d_turns s) (d_controls s) (f (d_interventions s)) (d_messages s) (d_conversations s)
    (d_journal s) (d_events s) (d_wakes s) (d_next s) (d_ticks s).
Definition with_messages (f : gmap Z message → gmap Z message) (s : db) : db :=
  MkDb (d_turns s) (d_controls s) (d_interventions s) (f (d_messages s)) (d_conversations s)
    (d_journal s) (d_events s) (d_wakes s) (d_next s) (d_ticks s).
Definition with_conversations (f : gmap Z conversation → gmap Z conversation) (s : db) : db :=
  MkDb (d_turns s) (d_controls s) (d_interventions s) (d_messages s) (f (d_conversations s))
    (d_journal s) (d_events s) (d_wakes s) (d_next s) (d_ticks s).
Definition with_journal (f : list journal_row → list journal_row) (s : db) : db :=
  MkDb (d_turns s) (d_controls s) (d_interventions s) (d_messages s) (d_conversations s)
    (f (d_journal s)) (d_events s) (d_wakes s) (d_next s) (d_ticks s).
Definition with_events (f : list event → list event) (s : db) : db :=
  MkDb (d_turns s) (d_controls s) (d_interventions s) (d_messages s) (d_conversations s)
    (d_journal s) (f (d_events s)) (d_wakes s) (d_next s) (d_ticks s).
Definition bump_wakes (s : db) : db :=
  MkDb (d_turns s) (d_controls s) (d_interventions s) (d_messages s) (d_conversations s)
    (d_journal s) (d_events s) (S (d_wakes s)) (d_next s) (d_ticks s).
Definition bump_next (s : db) : db :=
  MkDb (d_turns s) (d_controls s) (d_interventions s) (d_messages s) (d_conversations s)
    (d_journal s) (d_events s) (d_wakes s) (d_next s + 1) (d_ticks s).
Definition bump_tick (s : db) : db :=
  MkDb (d_turns s) (d_controls s) (d_interventions s) (d_messages s) (d_conversations s)
    (d_journal s) (d_events s) (d_wakes s) (d_next s) (S (d_ticks s)).

(** ** What comes from outside *)

Class TurnHost := {
  clock : nat → Z;                       (* [fields.Datetime.now()] *)
  new_uuid : nat → pystr;                (* [str(uuid4())] *)
  token_urlsafe : nat → pystr;           (* [secrets.token_urlsafe(24)] *)
  diagnostic_token : nat → pystr;        (* [_new_diagnostic_id()] *)
  event_stored : nat → bool;             (* whether [append_optional_for_turn] stores *)
  row_locked : nat → Z → bool;           (* rows [SKIP LOCKED] passes over *)
  capacity_parameter : nat → option pystr;  (* [ir.config_parameter] *)
  interrupted_content : nat → Z → pystr; (* [_interrupted_content], from the live events *)
  user_record : nat → Z → option (bool * list Z)  (* [active] and [company_ids] of a user *) }.

Inductive turn_exn : Type :=
| AccessError
| MissingError                           (* writing a row that is gone *)
| ValidationError
| IntegrityError                         (* a violated SQL constraint *)
| EncodeError                            (* a string that UTF-8 cannot encode *)
| PyError                                (* an uncaught [TypeError] or [KeyError] *)
| EnvelopeError                          (* [FailureEnvelopeError] *)
| CodedError (code : pystr)              (* [EmbeddedRuntimeError], [TurnControlError], ... *)
| FailureError (code : pystr) (failure : FailureEnvelope)   (* one that carries an envelope *).

Abbreviation TS := (ST db turn_exn).

(** ** Transactions *)

(** [with Registry(dbname).cursor() as cr: m] where [m] commits once at its end, and a request
    handler: committed when it returns, rolled back when it raises. *)
Definition transaction {A} (m : TS A) : TS A := λ s,
  match m s with
  | (Ok a, s') => (Ok a, s')
  | (Err e, _) => (Err e, s)
  end.

Section store.
Context `{TurnHost}.

(** A reading at the current tick. *)
Definition outside {A} (f : nat → A) : TS A :=
  n ← gets d_ticks; modify bump_tick;; mret (f n).
Definition now : TS Z := outside clock.

Definition get_turn (id : Z) : TS (option turn) := gets (λ s, d_turns s !! id).

(** [_next_id]: the value of the sequence of the table. *)
Definition next_id : TS Z := n ← gets d_next; modify bump_next;; mret n.

Definition wake : TS unit := modify bump_wakes.

(** [append_optional_for_turn] *)
Definition append_event (id : Z) (event_type : pystr) (diagnostic : option pystr) : TS unit :=
  stored ← outside event_stored;
  if stored : bool then modify (with_events (λ l, l ++ [MkEvent id event_type diagnostic]))
  else mret tt.

Definition create_message (m : message) : TS Z :=
  id ← next_id; modify (with_messages <[id := m]>);; mret id.

Definition touch_conversation (c : option Z) : TS unit :=
  match c with
  | Some c => t ← now; modify (with_conversations (alter (set_last_message_at t) c))
  | None => mret tt
  end.

(** ** The effect journal *)

(** [plan = envelope.get("plan")] and [units = plan.get("recovery_units")], when they have the
    right type. *)
Definition plan_units (envelope : pyval) : option (list pyval) :=
  e ← as_dict envelope; p ← as_dict (get (u "plan") e); as_list (get (u "recovery_units") p).

(** [by_unit.get(unit_id)]: the last unit with this identifier. *)
Definition unit_of (units : list pyval) (unit_id : pystr) : option pydict :=
  List.find (λ x, py_eq (get (u "unit_id") x) (VStr unit_id)) (reverse (omap as_dict units)).

(** The turn of the loop over the rows of the turn. *)
Definition mark_row (units : list pyval) (r : journal_row) : journal_row :=
  if bool_decide (j_state r = JVerified ∨ j_state r = JSkipped ∨ j_state r = JReverted) then r
  else match unit_of units (j_unit_id r) with
  | None => if bool_decide (j_state r = JExecuting) then set_journal_state JUncertain r else r
  | Some x =>
      let unit_state := get (u "state") x in
      if py_eq unit_state (VStr (u "completed")) then set_journal_state JUncertain r
      else if py_eq unit_state (VStr (u "executing"))
              || (py_eq unit_state (VStr (u "prepared")) && bool_decide (j_state r = JExecuting))
      then set_journal_state
             (if py_eq (get (u "mode") x) (VStr (u "external")) then JUncertain else JRolledBack) r
      else r
  end.

Definition uncertain_row (r : journal_row) : journal_row :=
  if bool_decide (j_state r = JExecuting) then set_journal_state JUncertain r else r.

Definition _mark_turn_failure (id : Z) (t : turn) : TS unit :=
  let mark := match plan_units (t_plan t) with Some units => mark_row units | None => uncertain_row end in
  modify (with_journal (fmap (λ r, if j_turn r =? id then mark r else r))).

Definition _mark_reverted (id : Z) : TS unit :=
  modify (with_journal (fmap (λ r,
    if (j_turn r =? id) && str_eqb (j_classification r) (u "reversible")
       && bool_decide (j_state r = JVerified)
    then set_journal_state JReverted r else r))).

Definition _all_turn_effects_rolled_back (id : Z) : TS bool :=
  rows ← gets (λ s, filter (λ r, j_turn r = id) (d_journal s));
  mret (negb (bool_decide (length rows = 0%nat)) &&
        forallb (λ r, bool_decide (j_state r = JRolledBack ∨ j_state r = JSkipped)) rows).

(** ** Writing a turn *)

Definition written_state (fs : list field) : option turn_state :=
  head (omap (λ f, match f with FState x => Some x | _ => None end) fs).
Definition written_error (fs : list field) : option (option pystr) :=
  head (omap (λ f, match f with FErrorCode x => Some x | _ => None end) fs).
Definition written_failure (fs : list field) : option pyval :=
  head (omap (λ f, match f with FFailure x => Some x | _ => None end) fs).
Definition written_barrier (fs : list field) : option bool :=
  head (omap (λ f, match f with FWriteBarrier x => Some x | _ => None end) fs).

Definition _TERMINAL_FAILURE_STATES (x : turn_state) : bool :=
  bool_decide (x = TFailed ∨ x = TRecoveryRequired).

Definition envelope_or {A} (r : result failure_exn A) : result turn_exn A := map_err (λ _, EnvelopeError) r.

(** [AssistantTurnFailurePersistence.write] up to its [super().write]: the values with the
    failure payload aligned with the state. *)
Definition failure_overlay (t : turn) (fs : list field) : TS (list field) :=
  let target_state := default (t_state t) (written_state fs) in
  let target_error := default (t_error_code t) (written_error fs) in
  if bool_decide (written_state fs = Some TQueued) || bool_decide (written_error fs = Some None) then
    mret (fs ++ [FFailure VNone])
  else if truthy (default VNone (written_failure fs)) then
    failure ← lift (envelope_or (parse_failure_envelope (default VNone (written_failure fs))));
    lift (raise_when (negb (_TERMINAL_FAILURE_STATES target_state)) EnvelopeError);;
    lift (raise_when (match target_error with
                      | Some e => negb (str_eqb (f_code failure) e)
                      | None => false
                      end) EnvelopeError);;
    mret (fs ++ [FFailure (failure_envelope_payload failure)])
  else match target_error with
  | Some ((_ :: _) as e) =>
      if _TERMINAL_FAILURE_STATES target_state
         && (match written_state fs with Some x => _TERMINAL_FAILURE_STATES x | None => false end
             || bool_decide (is_Some (written_error fs)) || negb (truthy (t_failure t)))
      then
        diagnostic ← outside diagnostic_token;
        failure ← lift (envelope_or (terminal_failure_envelope None e
                     (default (t_write_barrier t) (written_barrier fs)) diagnostic));
        mret (fs ++ [FFailure (failure_envelope_payload failure)])
      else mret fs
  | _ => mret fs
  end.

(** [CHECK(attempt_count >= 0 AND max_attempts >= 1 AND attempt_count <= max_attempts)] *)
Definition attempts_valid (t : turn) : bool :=
  (0 <=? t_attempt_count t) && (1 <=? t_max_attempts t) && (t_attempt_count t <=? t_max_attempts t).

(** The [UPDATE], with the constraint of the table. *)
Definition update_turn (id : Z) (fs : list field) : TS turn :=
  o ← get_turn id;
  t ← lift (of_option o MissingError);
  let t' := set_fields fs t in
  lift (raise_when (negb (attempts_valid t')) IntegrityError);;
  modify (with_turns <[id := t']>);;
  mret t'.

(** [turn.write(values)]: the journal overlay around the failure overlay around the table. *)
Definition write (id : Z) (fs : list field) : TS unit :=
  o ← get_turn id;
  t ← lift (of_option o MissingError);
  fs' ← failure_overlay t fs;
  t' ← update_turn id fs';
  match written_state fs with
  | Some (TFailed | TRecoveryRequired | TCancelled) =>
      if t_write_barrier t' then _mark_turn_failure id t' else mret tt
  | _ => mret tt
  end.
End store.
