(* ===== verification/TurnQueue.v ===== *)
(** * Turns: the queue and its scheduler

    [models/turn_queue.py], [models/turn_scheduler.py] and [models/turn_failure.py]: enqueuing,
    the fair claim under bounded capacity, the execution of a claimed turn, its completion,
    cancellation and failure, and the recovery of turns whose lease expired. *)
From S2P Require Import Prelude PyText Regex Sha256 PyValue Json Failure TurnStore.
Local Open Scope Z_scope.

Definition _MAX_MESSAGE : Z := 4000.
Definition _MAX_ATTEMPTS : Z := 3.
Definition _MAX_ATTEMPTS_WITH_REDIRECTS : Z := _MAX_ATTEMPTS + 16.
Definition _LEASE_SECONDS : Z := 300.
Definition _STALE_SCAN_LIMIT : nat := 25.
Definition _CLIENT_REQUEST_ID : regex := RRep (RSet token_chars) 8 128.
Definition _ERROR_CODE : regex := RRep (RSet word_chars) 1 128.
Definition _NON_RETRYABLE_TURN_ERRORS : list pystr :=
  [u "access_denied"; u "agent_capability_call_budget_exceeded";
   u "agent_correctable_failure_budget_exceeded"; u "agent_provider_decision_budget_exceeded";
   u "agent_task_plan_invalid"; u "agent_task_plan_revision_invalid";
   u "capability_authority_mismatch"; u "capability_not_available";
   u "capability_plan_approval_required"; u "capability_plan_binding_mismatch";
   u "capability_plan_corrupt"; u "capability_plan_not_authorized";
   u "capability_plan_precondition_changed"; u "capability_plan_version_mismatch";
   u "capability_verification_failed"; u "runtime_contract_invalid"].

Definition _DEFAULT_TURN_CAPACITY : Z := 2.
Definition _SUPPORTED_RUNNER_CAPACITY : Z := 2.

(** ** Validation *)

Definition _validate_message (value : pyval) : result turn_exn pystr :=
  match value with
  | VStr s =>
      if (1 <=? Z.of_nat (length (strip s))) && (Z.of_nat (length (strip s)) <=? _MAX_MESSAGE)
         && negb (mem 0%N s)
      then Ok s else Err ValidationError
  | _ => Err ValidationError
  end.

Definition _validate_client_request_id (value : pyval) : result turn_exn pystr :=
  match value with
  | VStr s => if fullmatch _CLIENT_REQUEST_ID s then Ok s else Err ValidationError
  | _ => Err ValidationError
  end.

(** [_title]: the text with single spaces, cut to 80 characters with an ellipsis. *)
Definition _title (message : pystr) : pystr :=
  let normalized := normalize_ws message in
  if (length normalized <=? 80)%nat then normalized
  else rstrip (take 79 normalized) ++ u "…".

(** [_runtime_error_code] *)
Definition _runtime_error_code (e : turn_exn) : pystr :=
  match e with
  | CodedError code | FailureError code _ =>
      if fullmatch _ERROR_CODE code then code else u "runtime_unavailable"
  | EnvelopeError => u "failure_envelope_invalid"
  | AccessError => u "access_denied"
  | ValidationError => u "runtime_contract_invalid"
  | MissingError | IntegrityError | EncodeError | PyError => u "runtime_unavailable"
  end.

(** ** Capacity *)

Definition _configured_turn_capacity (raw : option pystr) : option Z :=
  match raw with
  | None | Some [] => Some _DEFAULT_TURN_CAPACITY
  | Some text => py_int text
  end.

Definition _effective_turn_capacity (raw : option pystr) : Z :=
  Z.max 1 (Z.min (default _DEFAULT_TURN_CAPACITY (_configured_turn_capacity raw))
             _SUPPORTED_RUNNER_CAPACITY).

(** ** The queries of the claim *)

(** [state IN ('running', 'cancel_requested')] *)
Definition active (t : turn) : bool := bool_decide (t_state t = TRunning ∨ t_state t = TCancelRequested).
Definition claimable (t : turn) : bool :=
  bool_decide (t_state t = TQueued) && (t_attempt_count t <? t_max_attempts t).

(** A non-terminal predecessor in the same conversation. *)
Definition blocks (id : Z) (t : turn) (p : Z * turn) : bool :=
  match t_conversation t, t_conversation p.2 with
  | Some c, Some c' =>
      (c =? c') && (p.1 <? id)
      && (active p.2 || bool_decide (t_state p.2 = TAwaiting) || claimable p.2)
  | _, _ => false
  end.

Definition rows (s : db) : list (Z * turn) := map_to_list (d_turns s).
Definition active_count (s : db) : Z := Z.of_nat (length (List.filter (λ p, active p.2) (rows s))).
Definition eligible (s : db) (p : Z * turn) : bool :=
  claimable p.2 && negb (existsb (blocks p.1 p.2) (rows s)).

(** The lateral row of the candidate's user. *)
Definition service_active (s : db) (user : Z) : Z :=
  Z.of_nat (length (List.filter (λ p, (t_user p.2 =? user) && active p.2) (rows s))).
Definition later (a b : option Z) : option Z :=
  match a, b with Some x, Some y => Some (Z.max x y) | Some x, None => Some x | None, o => o end.
Definition last_claimed (s : db) (user : Z) : option Z :=
  foldr (λ p, later (if t_user p.2 =? user then t_scheduler_claimed_at p.2 else None)) None (rows s).

(** [ORDER BY active_count, last_claimed_at NULLS FIRST, queued_at, id] *)
Abbreviation rank := (Z * option Z * Z * Z)%type.
Definition rank_of (s : db) (p : Z * turn) : rank :=
  (service_active s (t_user p.2), last_claimed s (t_user p.2), t_queued_at p.2, p.1).
Definition compare_opt (a b : option Z) : comparison :=
  match a, b with
  | None, None => Eq
  | None, Some _ => Lt
  | Some _, None => Gt
  | Some x, Some y => x ?= y
  end.
Definition lex (c d : comparison) : comparison := match c with Eq => d | _ => c end.
Definition compare_rank (a b : rank) : comparison :=
  let '(x1, x2, x3, x4) := a in
  let '(y1, y2, y3, y4) := b in
  lex (x1 ?= y1) (lex (compare_opt x2 y2) (lex (x3 ?= y3) (x4 ?= y4))).
Definition rank_leb (s : db) (p q : Z * turn) : bool :=
  match compare_rank (rank_of s p) (rank_of s q) with Gt => false | _ => true end.

(** The first row of an [ORDER BY ... LIMIT 1]. *)
Definition first_by {A} (leb : A → A → bool) (l : list A) : option A :=
  foldr (λ x o, match o with Some y => Some (if leb x y then x else y) | None => Some x end) None l.

Section queue.
Context `{TurnHost}.

(** [_claim_next_turn] of the scheduler: one transaction under the advisory lock, then the
    event. *)
Definition claim_transaction : TS (option (Z * pystr)) := transaction (
  raw ← outside capacity_parameter;
  s ← gets (λ s, s);
  if _effective_turn_capacity raw <=? active_count s then mret None else
  locked ← outside row_locked;
  match first_by (rank_leb s) (List.filter (λ p, eligible s p && negb (locked p.1)) (rows s)) with
  | None => mret None
  | Some (turn_id, t) =>
      lease_token ← outside token_urlsafe;
      n ← now;
      update_turn turn_id
        [FState TRunning; FAttemptCount (t_attempt_count t + 1);
         FStartedAt (match t_started_at t with Some x => Some x | None => Some n end);
         FSchedulerClaimedAt (Some n); FHeartbeatAt (Some n);
         FLeaseExpiresAt (Some (n + _LEASE_SECONDS)); FLeaseToken (Some lease_token)];;
      mret (Some (turn_id, lease_token))
  end).

Definition _claim_next_turn : TS (option (Z * pystr)) :=
  claimed ← claim_transaction;
  match claimed with
  | Some (turn_id, _) => transaction (append_event turn_id (u "started") None);; mret claimed
  | None => mret None
  end.

(** ** Cancellation *)

(** [search([("turn_ref_id", "=", turn.id), ("turn_uuid", "=", turn.turn_uuid)])] *)
Definition control_of (s : db) (id : Z) (t : turn) : option control :=
  c ← d_controls s !! id; if str_eqb (c_turn_uuid c) (t_uuid t) then Some c else None.

Definition _control_cancel_requested_in_env (id : Z) (t : turn) : TS bool :=
  gets (λ s, match control_of s id t with Some c => c_cancel_requested c | None => false end).

Definition cancel_is_requested (id : Z) (t : turn) : TS bool :=
  if bool_decide (t_state t = TCancelRequested) then mret true
  else _control_cancel_requested_in_env id t.

(** The tag of [turn_control_interrupt_persistence.py]. *)
Definition _interrupted_tag (t : turn) : pystr := u "AGENT_INTERRUPTED:" ++ t_uuid t.
Definition tagged_message (s : db) (c : Z) (tag : pystr) : option (Z * message) :=
  head (List.filter (λ p, bool_decide (m_conversation p.2 = Some c) && str_eqb (m_workflow p.2) tag)
         (map_to_list (d_messages s))).

(** [turn_control.py]: the visible interrupted prose becomes the answer. *)
Definition finalize_from_live (id : Z) (t : turn) : TS unit :=
  match t_assistant_message t, t_conversation t with
  | None, Some c =>
      at_ ← outside interrupted_content;
      let content := at_ id in
      m ← create_message (MkMessage (Some c) (u "assistant") content (u "AGENT_INTERRUPTED"));
      write id (FAssistantMessage (Some m)
        :: match t_result t with
           | VDict d => [FResult (VDict (dict_set (u "answer") (VStr content) d))]
           | _ => []
           end);;
      touch_conversation (Some c)
  | _, _ => mret tt
  end.

Definition _finalize_interrupted_answer (id : Z) (t : turn) : TS unit :=
  match t_assistant_message t with
  | Some _ => mret tt
  | None =>
      s ← gets (λ s, s);
      match c ← t_conversation t; tagged_message s c (_interrupted_tag t) with
      | Some (m, _) => write id [FAssistantMessage (Some m)];; touch_conversation (t_conversation t)
      | None => finalize_from_live id t
      end
  end.

(** The values that release the lease. *)
Definition released : list field := [FLeaseToken None; FLeaseExpiresAt None].

(** [write({"state": "cancelled", "completed_at": now, ...})] *)
Definition write_cancelled (id : Z) : TS unit :=
  n ← now; write id (FState TCancelled :: FCompletedAt (Some n) :: released).

(** A claimed turn that still holds the given lease. *)
Definition leased (o : option turn) (lease_token : pystr) : option turn :=
  t ← o; if bool_decide (t_lease_token t = Some lease_token) then Some t else None.

Definition _cancellation_requested (id : Z) (lease_token : pystr) : TS bool :=
  o ← get_turn id;
  match leased o lease_token with
  | Some t => cancel_is_requested id t
  | None => mret false
  end.

(** The transaction of [_cancel_claimed_turn]: whether it cancelled. *)
Definition cancel_transaction (id : Z) (lease_token : pystr) : TS bool := transaction (
  o ← get_turn id;
  match leased o lease_token with
  | None => mret false
  | Some t => _finalize_interrupted_answer id t;; write_cancelled id;; mret true
  end).

Definition _cancel_claimed_turn (id : Z) (lease_token : pystr) : TS unit :=
  cancelled ← cancel_transaction id lease_token;
  if cancelled : bool then transaction (append_event id (u "cancelled") None) else mret tt.

(** ** Failure *)

(** What the transaction of a failed turn did. *)
Inductive settled : Type := LeaseLost | SettledCancelled | Requeued | Settled (x : turn_state).

Definition requeue (id : Z) (extra : list field) : TS unit :=
  n ← now;
  write id (FState TQueued :: FQueuedAt n :: released ++ FErrorCode None :: extra).

Definition fail_transaction (id : Z) (lease_token error_code : pystr) : TS settled := transaction (
  o ← get_turn id;
  match leased o lease_token with
  | None => mret LeaseLost
  | Some t =>
      cancel ← cancel_is_requested id t;
      if cancel : bool then
        _finalize_interrupted_answer id t;; write_cancelled id;; mret SettledCancelled
      else
        let retryable := negb (mem error_code _NON_RETRYABLE_TURN_ERRORS) in
        (if str_eqb error_code (u "agent_redirected") && negb (t_write_barrier t)
            && (t_max_attempts t <? _MAX_ATTEMPTS_WITH_REDIRECTS)
            && (t_max_attempts t <=? t_attempt_count t)
         then write id [FMaxAttempts (Z.min _MAX_ATTEMPTS_WITH_REDIRECTS (t_max_attempts t + 1))]
         else mret tt);;
        o ← get_turn id;
        t ← lift (of_option o MissingError);
        if retryable && negb (t_write_barrier t) && (t_attempt_count t <? t_max_attempts t) then
          requeue id [];; mret Requeued
        else
          let target_state := if t_write_barrier t then TRecoveryRequired else TFailed in
          n ← now;
          write id (FState target_state :: FErrorCode (Some error_code) :: FCompletedAt (Some n)
                    :: released);;
          mret (Settled target_state)
  end).

Definition state_event (x : turn_state) : pystr :=
  match x with
  | TQueued => u "queued"
  | TRunning => u "running"
  | TCancelRequested => u "cancel_requested"
  | TAwaiting => u "awaiting_confirmation"
  | TCompleted => u "completed"
  | TFailed => u "failed"
  | TCancelled => u "cancelled"
  | TRecoveryRequired => u "recovery_required"
  end.

(** The event, and the wake-up of a retry, after the transaction. *)
Definition report_settled (id : Z) (error_code : pystr) (x : settled) : TS unit :=
  match x with
  | LeaseLost => mret tt
  | SettledCancelled => transaction (append_event id (u "cancelled") None)
  | Requeued => transaction (append_event id (u "requeued") (Some error_code));; wake
  | Settled x => transaction (append_event id (state_event x) (Some error_code))
  end.

Definition _fail_claimed_turn (id : Z) (lease_token error_code : pystr) : TS unit :=
  x ← fail_transaction id lease_token error_code; report_settled id error_code x.

(** A retry is decided by the envelope. *)
Definition safe_to_retry (f : FailureEnvelope) : bool :=
  str_eqb (f_retryability f) (u "safe") && mem (f_effect_state f) [u "none"; u "not_started"]
  && str_eqb (f_user_action f) (u "retry").

Definition fail_with_failure_transaction (id : Z) (lease_token : pystr)
    (carried : option FailureEnvelope) (error_code : pystr) : TS settled := transaction (
  o ← get_turn id;
  match leased o lease_token with
  | None => mret LeaseLost
  | Some t =>
      cancel ← cancel_is_requested id t;
      if cancel : bool then
        _finalize_interrupted_answer id t;;
        n ← now;
        write id (FState TCancelled :: FCompletedAt (Some n) :: released ++ [FFailure VNone]);;
        mret SettledCancelled
      else
        diagnostic ← outside diagnostic_token;
        failure ← lift (envelope_or
          (terminal_failure_envelope carried error_code (t_write_barrier t) diagnostic));
        if safe_to_retry failure && negb (t_write_barrier t)
           && (t_attempt_count t <? t_max_attempts t)
        then requeue id [FFailure VNone];; mret Requeued
        else
          let target_state := if t_write_barrier t then TRecoveryRequired else TFailed in
          n ← now;
          write id (FState target_state :: FErrorCode (Some error_code)
                    :: FFailure (failure_envelope_payload failure) :: FCompletedAt (Some n)
                    :: released);;
          mret (Settled target_state)
  end).

Definition _fail_claimed_turn_with_failure (id : Z) (lease_token : pystr)
    (carried : option FailureEnvelope) (error_code : pystr) : TS unit :=
  x ← fail_with_failure_transaction id lease_token carried error_code;
  report_settled id error_code x.

(** ** Recovery of expired leases *)

Definition stale (n : Z) (t : turn) : bool :=
  active t && match t_lease_expires_at t with Some x => x <? n | None => false end.

Definition stale_leb (p q : Z * turn) : bool :=
  match lex (compare_opt (t_lease_expires_at p.2) (t_lease_expires_at q.2)) (p.1 ?= q.1) with
  | Gt => false
  | _ => true
  end.

(** The turn of the loop over the stale turns. *)
Definition recover_turn (n : Z) (_ : unit) (id : Z) : TS unit :=
  o ← get_turn id;
  match o with
  | None => mret tt
  | Some t =>
      cancel ← cancel_is_requested id t;
      if cancel : bool then
        _finalize_interrupted_answer id t;;
        write id (FState TCancelled :: FCompletedAt (Some n) :: released);;
        append_event id (u "cancelled") None
      else if truthy (t_result t) then
        write id (FState TCompleted
          :: FCompletedAt (Some (default n (t_completed_at t))) :: released);;
        append_event id (u "completed") None
      else if t_write_barrier t then
        write id (FState TRecoveryRequired :: FErrorCode (Some (u "worker_lost_after_write_barrier"))
          :: FCompletedAt (Some n) :: released);;
        append_event id (u "recovery_required") (Some (u "worker_lost_after_write_barrier"))
      else if t_attempt_count t <? t_max_attempts t then
        write id (FState TQueued :: FQueuedAt n :: released ++ [FErrorCode None]);;
        append_event id (u "requeued") (Some (u "worker_lost"))
      else
        write id (FState TFailed :: FErrorCode (Some (u "worker_lost")) :: FCompletedAt (Some n)
          :: released);;
        append_event id (u "failed") (Some (u "worker_lost"))
  end.

(** The identifiers the scan locks. *)
Definition stale_ids (n : Z) (locked : Z → bool) (s : db) : list Z :=
  fst <$> take _STALE_SCAN_LIMIT
    (sort_by stale_leb (List.filter (λ p, stale n p.2 && negb (locked p.1)) (rows s))).

Definition recover_transaction (n : Z) : TS bool := transaction (
  locked ← outside row_locked;
  ids ← gets (stale_ids n locked);
  foldST (recover_turn n) tt ids;;
  mret (negb (bool_decide (length ids = 0%nat)))).

Definition _recover_stale_turns : TS unit :=
  n ← now;
  recovered ← recover_transaction n;
  if recovered : bool then wake else mret tt.

(** ** Execution of a claimed turn *)

Definition _stage_completed_turn (id : Z) (t : turn) (result_ : pydict) : TS unit :=
  answer ← lift (of_option (as_str (get (u "answer") result_)) ValidationError);
  lift (raise_when (negb ((1 <=? Z.of_nat (length (strip answer)))
                          && (Z.of_nat (length (strip answer)) <=? 16384))) ValidationError);;
  m ← match t_assistant_message t with
      | Some m => modify (with_messages (alter (λ x, MkMessage (m_conversation x) (m_role x) answer
                                                      (m_workflow x)) m));; mret m
      | None => create_message (MkMessage (t_conversation t) (u "assistant") answer (u "AGENT"))
      end;
  completed_at ← now;
  heartbeat_at ← now;
  write id (FState TCompleted :: FAssistantMessage (Some m) :: FResult (VDict result_)
            :: FCompletedAt (Some completed_at) :: released ++ [FHeartbeatAt (Some heartbeat_at)]);;
  touch_conversation (t_conversation t).

(** The result of [run_turn] with the worker's uncommitted store and its last commit. *)
Record run_outcome := MkOutcome {
  ro_result : result turn_exn pyval;
  ro_current : db;
  ro_committed : db }.

(** [odoo.ai.embedded.runtime]: it runs a turn under a lease for the companies allowed. *)
Class Runtime := run_turn : Z → pystr → list Z → db → run_outcome.

(** The companies of the turn the user still has. *)
Definition allowed_now (t : turn) (current : list Z) : list Z :=
  List.filter (λ c, mem c current) (t_allowed_companies t).

(** The part after [run_turn]: whether the turn was completed. *)
Definition after_run (id : Z) (lease_token : pystr) (v : pyval) : TS bool :=
  result_ ← lift (of_option (as_dict v) ValidationError);
  o ← get_turn id;
  t ← lift (of_option o MissingError);
  if bool_decide (t_state t = TRunning ∧ t_lease_token t = Some lease_token) then
    _stage_completed_turn id t result_;; mret true
  else
    lift (raise_when (negb (bool_decide (t_state t = TAwaiting))) ValidationError);; mret false.

(** The worker's cursor commits at the end; an exception leaves the last commit. *)
Definition run_and_commit `{Runtime} (id : Z) (lease_token : pystr) (allowed : list Z) : TS bool := λ s,
  let o := run_turn id lease_token allowed s in
  match ro_result o with
  | Err e => (Err e, ro_committed o)
  | Ok v =>
      match after_run id lease_token v (ro_current o) with
      | (Ok b, s') => (Ok b, s')
      | (Err e, _) => (Err e, ro_committed o)
      end
  end.

Definition execute_transaction `{Runtime} (id : Z) (lease_token : pystr) : TS bool :=
  o ← get_turn id;
  match leased o lease_token with
  | Some t =>
      if negb (bool_decide (t_state t = TRunning)) then mret false else
      user ← outside user_record;
      match user (t_user t) with
      | Some (true, companies) =>
          let allowed := allowed_now t companies in
          lift (raise_when (negb (mem (t_company t) allowed) || bool_decide (length allowed = 0%nat))
                  AccessError);;
          run_and_commit id lease_token allowed
      | _ => raise AccessError
      end
  | None => mret false
  end.

Definition _execute_claimed_turn `{Runtime} (id : Z) (lease_token : pystr) : TS unit :=
  cancel ← transaction (_cancellation_requested id lease_token);
  if cancel : bool then _cancel_claimed_turn id lease_token
  else
    completed ← execute_transaction id lease_token;
    if completed : bool then transaction (append_event id (u "completed") None) else mret tt.

(** [try: ... finally: _wake_turn_crons_safely()] *)
Definition finally {A} (m : TS A) (h : TS unit) : TS A := λ s,
  let '(r, s1) := m s in
  match h s1 with
  | (Ok _, s2) => (r, s2)
  | (Err e, s2) => (Err e, s2)
  end.

(** The scheduler's slot. *)
Definition _cron_run_turn_slot `{Runtime} : TS unit :=
  _recover_stale_turns;;
  claimed ← _claim_next_turn;
  match claimed with
  | None => mret tt
  | Some (id, lease_token) =>
      finally
        (catch (_execute_claimed_turn id lease_token) (λ e,
           match e with
           | FailureError _ failure =>
               _fail_claimed_turn_with_failure id lease_token (Some failure) (_runtime_error_code e)
           | _ => _fail_claimed_turn id lease_token (_runtime_error_code e)
           end))
        wake
  end.

(** ** Enqueuing *)

(** The calling user: [_is_internal()], the current company and the companies of the session. *)
Record caller := MkCaller {
  u_id : Z;
  u_internal : bool;
  u_company : Z;
  u_companies : list Z }.

Definition _UUID_RE : regex :=
  RSeq (RRep (RSet hexdigits) 8 8) (RSeq (RLit (u "-")) (RSeq (RRep (RSet hexdigits) 4 4)
  (RSeq (RLit (u "-")) (RSeq (RRep (RSet hexdigits) 4 4) (RSeq (RLit (u "-"))
  (RSeq (RRep (RSet hexdigits) 4 4) (RSeq (RLit (u "-")) (RRep (RSet hexdigits) 12 12)))))))).

(** [str(UUID(value)) == value] holds of the canonical form only. *)
Definition _canonical_uuid (value : pyval) : result turn_exn pystr :=
  match value with
  | VStr s => if fullmatch _UUID_RE s then Ok s else Err ValidationError
  | _ => Err ValidationError
  end.

Definition _owned_turn (c : caller) (turn_uuid : pyval) : TS Z :=
  canonical ← lift (_canonical_uuid turn_uuid);
  s ← gets (λ s, s);
  match head (List.filter (λ p, str_eqb (t_uuid p.2) canonical && (t_user p.2 =? u_id c)) (rows s)) with
  | Some (id, _) => mret id
  | None => raise AccessError
  end.

Definition _owned_conversation (c : caller) (conversation_uuid : pyval) : TS Z :=
  canonical ← lift (_canonical_uuid conversation_uuid);
  s ← gets (λ s, s);
  match head (List.filter (λ p, str_eqb (cv_uuid p.2) canonical && (cv_user p.2 =? u_id c))
               (map_to_list (d_conversations s))) with
  | Some (id, _) => mret id
  | None => raise AccessError
  end.

(** [records.unlink()] of conversations: their messages go with them ([ondelete="cascade"]), their
    turns stay without them. *)
Definition unlink_conversations (ids : list Z) (s : db) : db :=
  let messages := fst <$> List.filter (λ p, match m_conversation p.2 with
                                            | Some c => bool_decide (c ∈ ids) | None => false end)
                            (map_to_list (d_messages s)) in
  with_turns (fmap (unlink_refs ids messages))
    (with_messages (filter (λ p, p.1 ∉ messages)) (with_conversations (filter (λ p, p.1 ∉ ids)) s)).

Definition delete_owned (c : caller) (conversation_uuids : list pyval) : TS Z := transaction (
  parsed ← lift (mapR _canonical_uuid conversation_uuids);
  lift (raise_when (negb ((1 <=? length parsed)%nat && (length parsed <=? 50)%nat)
                    || negb (bool_decide (NoDup parsed))) ValidationError);;
  s ← gets (λ s, s);
  let records := fst <$> List.filter (λ p, mem (cv_uuid p.2) parsed && (cv_user p.2 =? u_id c))
                           (map_to_list (d_conversations s)) in
  lift (raise_when (negb (length records =? length parsed)%nat) AccessError);;
  modify (unlink_conversations records);;
  mret (Z.of_nat (length records))).

Definition _MAX_SCREEN_BYTES : Z := 16 * 1024.

Definition _validate_json_bytes (value : pyval) (maximum : Z) : result turn_exn unit :=
  b ← of_option (t ← json_dumps false value; utf8_encode t) ValidationError;
  raise_when (maximum <? Z.of_nat (length b)) ValidationError.

Definition _request_fingerprint (uid company_id : Z) (allowed_company_ids : list Z) (message_ : pystr)
    (screen : pyval) (conversation_uuid : pystr) : result turn_exn pystr :=
  let body := VDict [(u "allowed_company_ids", VList (VInt <$> allowed_company_ids));
                     (u "company_id", VInt company_id);
                     (u "conversation_id", VStr conversation_uuid);
                     (u "message", VStr message_);
                     (u "screen", screen);
                     (u "uid", VInt uid)] in
  b ← of_option (t ← json_dumps false body; utf8_encode t) EncodeError;
  Ok (u "sha256:" ++ sha256_hexdigest b).

(** [tuple(sorted(set(ids)))] *)
Definition sorted_ids (l : list Z) : list Z := sort_by Z.leb (remove_dups l).

(** [screen] is the validated screen payload and [policy] the resolved policy layers. *)
Definition enqueue_for_current_user (c : caller) (message_ : pyval)
    (screen : result turn_exn pyval) (policy : pyval)
    (conversation_uuid client_request_id : pyval) : TS Z := transaction (
  lift (raise_when (negb (u_internal c)) AccessError);;
  text ← lift (_validate_message message_);
  screen_payload ← lift screen;
  lift (_validate_json_bytes screen_payload _MAX_SCREEN_BYTES);;
  conversation_id ←
    (if truthy conversation_uuid then _owned_conversation c conversation_uuid
     else
        uuid ← outside new_uuid;
        n ← now;
        i ← next_id;
        modify (with_conversations <[i := MkConversation uuid (u_id c) (_title text) n]>);;
        mret i);
  request_id ← lift (if truthy client_request_id
                     then Some <$> _validate_client_request_id client_request_id else Ok None);
  s ← gets (λ s, s);
  match
    r ← request_id;
    head (List.filter (λ p, (t_user p.2 =? u_id c) && bool_decide (t_client_request_id p.2 = Some r))
            (rows s))
  with
  | Some (existing, _) => mret existing
  | None =>
      user_message ← create_message (MkMessage (Some conversation_id) (u "user") text (u "AGENT"));
      let allowed := sorted_ids (u_companies c) in
      lift (raise_when (negb (mem (u_company c) allowed)) AccessError);;
      conv ← lift (of_option (d_conversations s !! conversation_id) MissingError);
      request_fingerprint ←
        lift (_request_fingerprint (u_id c) (u_company c) allowed text screen_payload (cv_uuid conv));
      turn_uuid ← outside new_uuid;
      queued_at ← now;
      i ← next_id;
      modify (with_turns <[i := MkTurn turn_uuid (Some conversation_id) (u_id c) (u_company c) TQueued
        text screen_payload allowed policy request_id request_fingerprint (Some user_message) None
        VNone queued_at None None None None 0 _MAX_ATTEMPTS false None None None VNone None VNone
        VNone]>);;
      touch_conversation (Some conversation_id);;
      append_event i (u "queued") None;;
      wake;;
      mret i
  end).
End queue.
