(* ===== verification/TurnControl.v ===== *)
(** * Turns: control by the user and by the worker

    Stop, redirect and the approval decision ([models/turn_control.py],
    [models/turn_intervention.py], [models/turn_control_interrupt_persistence.py],
    [models/embedded_runtime.py]) and the checkpoints of the worker that runs a turn
    ([models/embedded_runtime.py], [models/turn_working_transcript.py],
    [models/effect_recovery_runtime.py]).  The advisory lock of
    [turn_control_effect_boundary.py] orders a control request and a barrier commit, which are
    transactions here. *)
From S2P Require Import Prelude PyText Regex PyValue Json Failure TurnStore TurnQueue.
Local Open Scope Z_scope.

Definition _MAX_INTERVENTIONS : nat := 16.
Definition _MAX_INTERVENTION_CHARS : Z := 4000.
Definition _MAX_INTERVENTION_BYTES : Z := 24 * 1024.
Definition _CLIENT_INTERVENTION_ID : regex := RRep (RSet token_chars) 8 128.
Definition _PLAN_ENVELOPE_KEYS : list pystr :=
  [u "answer"; u "confidence"; u "format_version"; u "human_approved"; u "plan"].

Definition control_invalid : turn_exn := CodedError (u "agent_turn_control_invalid").

(** ** Payloads *)

(** A message of 1 to 4000 characters when stripped, without NUL. *)
Definition intervention_text (s : pystr) : bool :=
  (1 <=? Z.of_nat (length (strip s))) && (Z.of_nat (length (strip s)) <=? _MAX_INTERVENTION_CHARS)
  && negb (mem 0%N s).

Definition _validated_intervention (value : pyval) : result turn_exn pystr :=
  match value with
  | VStr s => if intervention_text s then Ok (strip s) else Err ValidationError
  | _ => Err ValidationError
  end.

Definition _validated_client_intervention_id (value : pyval) : result turn_exn pystr :=
  match value with
  | VStr s => if fullmatch _CLIENT_INTERVENTION_ID s then Ok s else Err ValidationError
  | _ => Err ValidationError
  end.

Definition _bounded_interventions (v : pyval) : result turn_exn unit :=
  b ← of_option (t ← json_dumps false v; utf8_encode t) control_invalid;
  raise_when (_MAX_INTERVENTION_BYTES <? Z.of_nat (length b)) (CodedError (u "turn_redirect_budget_exceeded")).

(** The turn of the loop of [_validated_intervention_payload]: the last sequence so far. *)
Definition check_intervention (acc : Z * list (Z * pystr)) (item : pyval)
    : result turn_exn (Z * list (Z * pystr)) :=
  d ← of_option (as_dict item) control_invalid;
  raise_when (negb (has_keys d [u "message"; u "message_id"; u "sequence"])) control_invalid;;
  sequence ← of_option (as_int (get (u "sequence") d)) control_invalid;
  message_ ← of_option (as_str (get (u "message") d)) control_invalid;
  message_id ← of_option (as_int (get (u "message_id") d)) control_invalid;
  raise_when ((sequence <=? acc.1) || negb (intervention_text message_) || (message_id <=? 0))
    control_invalid;;
  Ok (sequence, acc.2 ++ [(sequence, message_)]).

(** The sequence and message of each item. *)
Definition _validated_intervention_payload (value : pyval) (expected_sequence : Z)
    : result turn_exn (list (Z * pystr)) :=
  items ← of_option (as_list value) control_invalid;
  raise_when (_MAX_INTERVENTIONS <? length items)%nat control_invalid;;
  acc ← foldR check_intervention (0, []) items;
  raise_when (negb (acc.1 =? expected_sequence)) control_invalid;;
  _bounded_interventions value;;
  Ok acc.2.

(** [item.get("sequence", 0) for item in payload if isinstance(item, dict)] *)
Definition legacy_sequences (items : list pyval) : result turn_exn (list Z) :=
  mapR (λ d, of_option (as_int (get_default (u "sequence") (VInt 0) d)) PyError) (omap as_dict items).

Definition _legacy_interventions (c : control) : result turn_exn (list (Z * pystr)) :=
  if negb (truthy (c_intervention_payload c)) then Ok [] else
  items ← of_option (as_list (c_intervention_payload c)) PyError;
  sequences ← legacy_sequences items;
  let last_ := match sequences with [] => 0 | x :: l => foldl Z.max x l end in
  _validated_intervention_payload (c_intervention_payload c)
    (Z.min (c_intervention_sequence c) last_).

(** [plan["state"] = state] in a copy of the plan of a copy of the envelope. *)
Definition with_plan_state (envelope : pyval) (state_ : pystr) : pyval :=
  match envelope with
  | VDict e =>
      match get (u "plan") e with
      | VDict p => VDict (dict_set (u "plan") (VDict (dict_set (u "state") (VStr state_) p)) e)
      | _ => envelope
      end
  | _ => envelope
  end.

Definition plan_corrupt : turn_exn := CodedError (u "capability_plan_corrupt").

(** [_plan_envelope]: the envelope, when it is not empty. *)
Definition _plan_envelope (value : pyval) : result turn_exn (option pydict) :=
  if negb (truthy value) then Ok None else
  e ← of_option (as_dict value) plan_corrupt;
  raise_when (negb (has_keys e _PLAN_ENVELOPE_KEYS)) plan_corrupt;;
  raise_any
    [Ok (negb (eq_int (get (u "format_version") e) 1));
     Ok (negb (bool_decide (is_Some (as_str (get (u "answer") e)))));
     negb <$> of_option (in_str_set (get (u "confidence") e) [u "high"; u "medium"; u "low"]) PyError;
     Ok (negb (bool_decide (is_Some (as_bool (get (u "human_approved") e)))));
     Ok (negb (bool_decide (is_Some (as_dict (get (u "plan") e)))))] plan_corrupt;;
  Ok (Some e).

Section control.
Context `{TurnHost}.

(** ** The control row *)

Definition _control_for_turn (id : Z) (t : turn) : TS control :=
  s ← gets (λ s, s);
  match control_of s id t with
  | Some c => mret c
  | None =>
      lift (raise_when (bool_decide (is_Some (d_controls s !! id))) IntegrityError);;
      let c := MkControl (t_uuid t) (t_user t) (t_company t) 0 0 (VList []) false None in
      modify (with_controls <[id := c]>);;
      mret c
  end.

(** [if not control.cancel_requested: control.write(...)] *)
Definition request_cancel (id : Z) (c : control) : TS unit :=
  if c_cancel_requested c then mret tt
  else
    n ← now;
    modify (with_controls <[id :=
      MkControl (c_turn_uuid c) (c_user c) (c_company c) (c_intervention_sequence c)
        (c_applied_sequence c) (c_intervention_payload c) true (Some n)]>).

Definition set_sequences (c : control) (sequence applied : Z) : control :=
  MkControl (c_turn_uuid c) (c_user c) (c_company c) sequence applied (c_intervention_payload c)
    (c_cancel_requested c) (c_cancel_requested_at c).

(** [_intervention_domain]; the copied conversation uuid is that of the conversation. *)
Definition in_domain (id : Z) (t : turn) (i : intervention) : bool :=
  (i_turn i =? id) && str_eqb (i_turn_uuid i) (t_uuid t)
  && bool_decide (t_conversation t = Some (i_conversation i)) && (i_user i =? t_user t)
  && (i_company i =? t_company t).

Definition sequence_leb (a b : intervention) : bool := i_sequence a <=? i_sequence b.
Definition interventions_of (id : Z) (t : turn) (s : db) : list intervention :=
  sort_by sequence_leb (List.filter (in_domain id t) (d_interventions s)).

(** [_validate_snapshot_sequence]: numbered 1, 2, ... up to the control's sequence. *)
Fixpoint contiguous (previous : Z) (l : list Z) : option Z :=
  match l with
  | [] => Some previous
  | x :: l => if x =? previous + 1 then contiguous x l else None
  end.

(** [runtime_control_snapshot] of a turn of the calling user with a conversation:
    [cancel_requested], [sequence] and [applied_sequence]. *)
Definition runtime_control_snapshot (id : Z) (t : turn) : TS (bool * Z * Z) :=
  lift (raise_when (bool_decide (t_conversation t = None)) control_invalid);;
  s ← gets (λ s, s);
  match control_of s id t with
  | None => mret (false, 0, 0)
  | Some c =>
      legacy ← lift (_legacy_interventions c);
      lift (raise_when
        (negb (bool_decide (contiguous 0 (legacy.*1 ++ (i_sequence <$> interventions_of id t s))
                            = Some (c_intervention_sequence c)))) control_invalid);;
      mret (c_cancel_requested c, c_intervention_sequence c, c_applied_sequence c)
  end.

Definition _ensure_turn_control_current (id : Z) : TS unit :=
  o ← get_turn id;
  t ← lift (of_option o control_invalid);
  snapshot ← runtime_control_snapshot id t;
  let '(cancel, sequence, applied) := snapshot in
  lift (raise_when cancel (CodedError (u "agent_cancelled")));;
  lift (raise_when (negb (sequence =? applied)) (CodedError (u "agent_redirected"))).

Definition mark_applied_row (n : Z) (sequence : Z) (i : intervention) : intervention :=
  if (i_sequence i <=? sequence) && bool_decide (i_applied_at i = None)
  then MkIntervention (i_turn i) (i_turn_uuid i) (i_conversation i) (i_user i) (i_company i)
         (i_sequence i) (i_client_id i) (i_message i) (i_message_ref i) (Some n)
  else i.

Definition mark_runtime_control_applied (c : caller) (turn_uuid sequence : pyval) : TS unit :=
  transaction (
    id ← _owned_turn c turn_uuid;
    sequence ← lift (of_option (as_int sequence) control_invalid);
    lift (raise_when (sequence <? 0) control_invalid);;
    o ← get_turn id;
    t ← lift (of_option o control_invalid);
    lift (raise_when (negb (t_company t =? u_company c)) control_invalid);;
    s ← gets (λ s, s);
    match control_of s id t with
    | None => lift (raise_when (negb (sequence =? 0)) control_invalid)
    | Some r =>
        lift (raise_when (c_intervention_sequence r <? sequence) control_invalid);;
        let applied := Z.max (c_applied_sequence r) sequence in
        if applied =? c_applied_sequence r then mret tt
        else
          modify (with_controls <[id := set_sequences r (c_intervention_sequence r) applied]>);;
          n ← now;
          modify (with_interventions (fmap (λ i,
            if in_domain id t i then mark_applied_row n applied i else i)))
    end).

(** ** Stop *)

(** The [state] and [answer] of [browser_status]. *)
Record turn_status := MkStatus { rs_state : turn_state; rs_answer : option pystr }.

Definition browser_status (id : Z) : TS turn_status :=
  o ← get_turn id;
  t ← lift (of_option o MissingError);
  s ← gets (λ s, s);
  mret (MkStatus (t_state t) (m_content <$> (m ← t_assistant_message t; d_messages s !! m))).

Definition terminal_turn (x : turn_state) : bool :=
  bool_decide (x = TCompleted ∨ x = TFailed ∨ x = TCancelled ∨ x = TRecoveryRequired).

(** [turn_queue.py] *)
Definition cancel_queue (id : Z) : TS turn_status :=
  o ← get_turn id;
  t ← lift (of_option o MissingError);
  (if terminal_turn (t_state t) then mret tt
   else if bool_decide (t_state t = TQueued) then
     requested ← now;
     completed ← now;
     write id (FState TCancelled :: FCancelRequestedAt (Some requested)
               :: FCompletedAt (Some completed) :: released);;
     append_event id (u "cancelled") None
   else if bool_decide (t_state t = TCancelRequested) then mret tt
   else
     requested ← now;
     write id [FState TCancelRequested; FCancelRequestedAt (Some requested)];;
     append_event id (u "cancel_requested") None);;
  browser_status id.

(** [turn_scheduler.py]: wakes a successor. *)
Definition cancel_scheduler (id : Z) : TS turn_status :=
  o ← get_turn id;
  t ← lift (of_option o MissingError);
  r ← cancel_queue id;
  (if bool_decide (t_state t = TQueued ∧ rs_state r = TCancelled) then wake else mret tt);;
  mret r.

(** The answer a running turn would show if it stopped now. *)
Definition cancel_requested_status (id : Z) : TS turn_status :=
  at_ ← outside interrupted_content; mret (MkStatus TCancelRequested (Some (at_ id))).

(** The approval wait of nobody: the proposal is rejected and the turn ends. *)
Definition cancel_awaiting (id : Z) (t : turn) : TS turn_status :=
  let envelope := with_plan_state (t_plan t) (u "rejected") in
  requested ← now;
  completed ← now;
  write id (FState TCancelled :: FPlan (if truthy envelope then envelope else VNone)
            :: FCancelRequestedAt (Some requested) :: FCompletedAt (Some completed) :: released);;
  o ← get_turn id;
  t ← lift (of_option o MissingError);
  _finalize_interrupted_answer id t;;
  append_event id (u "cancelled") None;;
  browser_status id.

(** [turn_control.py] *)
Definition cancel_control (id : Z) : TS turn_status :=
  o ← get_turn id;
  t ← lift (of_option o MissingError);
  locked ← (if bool_decide (t_state t = TQueued) then (λ f, f id) <$> outside row_locked else mret false);
  if locked : bool then cancel_requested_status id
  else if terminal_turn (t_state t) then browser_status id
  else if bool_decide (t_state t = TQueued) then cancel_scheduler id
  else if bool_decide (t_state t = TAwaiting) then cancel_awaiting id t
  else
    c ← _control_for_turn id t;
    request_cancel id c;;
    cancel_requested_status id.

Definition _persist_independent_interrupted_message (t : turn) (content : pystr) : TS unit :=
  s ← gets (λ s, s);
  match t_conversation t with
  | Some c =>
      if bool_decide (content = []) || bool_decide (is_Some (tagged_message s c (_interrupted_tag t)))
      then mret tt
      else
        create_message (MkMessage (Some c) (u "assistant") content (_interrupted_tag t));; mret tt
  | None => mret tt
  end.

(** [turn_control_interrupt_persistence.py], the outermost override. *)
Definition cancel_for_current_user (c : caller) (turn_uuid : pyval) : TS turn_status := transaction (
  id ← _owned_turn c turn_uuid;
  o ← get_turn id;
  t ← lift (of_option o MissingError);
  (if bool_decide (t_state t = TQueued) then r ← _control_for_turn id t; request_cancel id r
   else mret tt);;
  response ← cancel_control id;
  (if bool_decide (t_state t = TRunning ∨ t_state t = TCancelRequested)
      && bool_decide (rs_state response = TCancelRequested ∨ rs_state response = TCancelled)
   then match rs_answer response with
        | Some answer => _persist_independent_interrupted_message t answer
        | None => mret tt
        end
   else mret tt);;
  mret response).

(** ** Redirect *)

Definition _validate_total_budget (messages : list pystr) : result turn_exn unit :=
  b ← of_option (t ← json_dumps false (VList (VStr <$> messages)); utf8_encode t) EncodeError;
  raise_when (_MAX_INTERVENTION_BYTES <? Z.of_nat (length b))
    (CodedError (u "turn_redirect_budget_exceeded")).

(** The attempts a superseded approval leaves. *)
Definition next_max_attempts (t : turn) : Z :=
  Z.min _MAX_ATTEMPTS_WITH_REDIRECTS (Z.max (t_max_attempts t) (t_attempt_count t + 2)).

(** The turn of the caller goes back to reasoning, without its plan. *)
Definition supersede_approval (id : Z) (t : turn) : TS unit :=
  append_event id (u "approval.rejected") None;;
  n ← now;
  write id (FState TQueued :: FQueuedAt n :: FPlan VNone :: FWorkingItems VNone :: FResult VNone
            :: FAssistantMessage None :: FErrorCode None :: released
            ++ [FCompletedAt None; FMaxAttempts (next_max_attempts t)]).

Definition redirectable (x : turn_state) : bool :=
  bool_decide (x = TQueued ∨ x = TRunning ∨ x = TAwaiting).

(** The state and sequence of the response, and whether the intervention existed before. *)
Definition redirect_for_current_user (c : caller) (turn_uuid message_ client_intervention_id : pyval)
    : TS (turn_state * Z * bool) := transaction (
  normalized ← lift (_validated_intervention message_);
  client_id ← lift (_validated_client_intervention_id client_intervention_id);
  id ← _owned_turn c turn_uuid;
  o ← get_turn id;
  t ← lift (of_option o MissingError);
  lift (raise_when (t_write_barrier t) (CodedError (u "turn_effect_already_committed")));;
  lift (raise_when (negb (redirectable (t_state t))) (CodedError (u "turn_not_redirectable")));;
  conversation_id ← lift (of_option (t_conversation t) control_invalid);
  s ← gets (λ s, s);
  match List.find (λ i, str_eqb (i_client_id i) client_id) (interventions_of id t s) with
  | Some existing =>
      lift (raise_when (negb (str_eqb (i_message existing) normalized))
              (CodedError (u "turn_intervention_id_conflict")));;
      mret (t_state t, i_sequence existing, true)
  | None =>
      r ← _control_for_turn id t;
      legacy ← lift (_legacy_interventions r);
      let rows_ := interventions_of id t s in
      lift (raise_when (_MAX_INTERVENTIONS <=? length legacy + length rows_)%nat
              (CodedError (u "turn_redirect_limit_exceeded")));;
      lift (_validate_total_budget (legacy.*2 ++ (i_message <$> rows_) ++ [normalized]));;
      let sequence := c_intervention_sequence r + 1 in
      lift (raise_when (match last rows_ with Some i => sequence <=? i_sequence i | None => false end)
              control_invalid);;
      m ← create_message (MkMessage (Some conversation_id) (u "user") normalized (u "AGENT_REDIRECT"));
      lift (raise_when (existsb (λ i, (i_turn i =? id)
              && (str_eqb (i_client_id i) client_id || (i_sequence i =? sequence)))
              (d_interventions s) || (sequence <=? 0)) IntegrityError);;
      modify (with_interventions (λ l, l ++
        [MkIntervention id (t_uuid t) conversation_id (t_user t) (t_company t) sequence client_id
           normalized m None]));;
      modify (with_controls <[id := set_sequences r sequence (c_applied_sequence r)]>);;
      touch_conversation (Some conversation_id);;
      (if bool_decide (t_state t = TAwaiting) then supersede_approval id t
       else if bool_decide (t_state t = TQueued) then append_event id (u "redirect.requested") None
       else mret tt);;
      (if bool_decide (t_state t = TRunning) then mret tt else wake);;
      mret (if bool_decide (t_state t = TAwaiting) then TQueued else t_state t, sequence, false)
  end).

(** ** The approval decision *)

Definition reject_answer : pystr := u "Acción cancelada. No se ha realizado ningún cambio.".

(** The stored response of a rejected plan. *)
Definition rejected_response (v : pyval) : pydict :=
  let d := match v with VDict d => d | _ => [] end in
  let d := dict_set (u "confidence") (VStr (u "high")) (dict_set (u "answer") (VStr reject_answer) d) in
  match get (u "plan") d with
  | VDict p => dict_set (u "plan") (VDict (dict_set (u "state") (VStr (u "rejected")) p)) d
  | _ => d
  end.

(** [resume_attempt_ceiling] *)
Definition resume_attempt_ceiling (t : turn) : Z := Z.max (t_max_attempts t) (t_attempt_count t + 1).

Definition approved_envelope (e : pydict) : pyval :=
  match with_plan_state (VDict e) (u "authorized") with
  | VDict e => VDict (dict_set (u "human_approved") (VBool true) e)
  | v => v
  end.

(** [present] stands for the projection of the approved plan to the browser, which may raise;
    the result is the decided plan state. *)
Definition decide_capability_plan_for_current_user (present : turn → pyval → result turn_exn unit)
    (c : caller) (plan_id decision : pyval) : TS pystr := transaction (
  known ← lift (of_option (in_str_set decision [u "approve"; u "reject"]) PyError);
  lift (raise_when (negb known) ValidationError);;
  id ← _owned_turn c plan_id;
  o ← get_turn id;
  t ← lift (of_option o MissingError);
  lift (raise_when (negb (bool_decide (t_state t = TAwaiting))) ValidationError);;
  envelope ← lift (_plan_envelope (t_plan t));
  e ← lift (of_option envelope ValidationError);
  p ← lift (of_option (as_dict (get (u "plan") e)) PyError);
  plan_state ← lift (of_option (dict_lookup (u "state") p) PyError);
  lift (raise_when (negb (py_eq plan_state (VStr (u "awaiting_confirmation")))) ValidationError);;
  if py_eq decision (VStr (u "reject")) then
    m ← create_message (MkMessage (t_conversation t) (u "assistant") reject_answer (u "AGENT"));
    n ← now;
    write id (FState TCompleted :: FPlan (with_plan_state (VDict e) (u "rejected"))
              :: FResult (VDict (rejected_response (t_result t))) :: FAssistantMessage (Some m)
              :: FCompletedAt (Some n) :: released);;
    append_event id (u "approval.rejected") None;;
    wake;;
    mret (u "rejected")
  else
    n ← now;
    write id (FState TQueued :: FQueuedAt n :: FMaxAttempts (resume_attempt_ceiling t)
              :: FPlan (approved_envelope e) :: FResult VNone :: FErrorCode None :: released);;
    append_event id (u "approval.approved") None;;
    wake;;
    lift (present t (approved_envelope e));;
    wake;;
    mret (u "authorized")).

(** ** Checkpoints of the worker *)

Definition lease_lost : turn_exn := CodedError (u "agent_turn_lease_lost").

(** [technical.state == "running" and technical.lease_token == lease_token], or the error. *)
Definition require_lease (lost : turn_exn) (id : Z) (lease_token : pystr) : TS turn :=
  o ← get_turn id;
  t ← lift (of_option (leased o lease_token) lost);
  lift (raise_when (negb (bool_decide (t_state t = TRunning))) lost);;
  mret t.

(** [persist_working_transcript] of an already validated payload. *)
Definition persist_working_transcript (id : Z) (lease_token : pystr) (payload_ : pyval) : TS unit :=
  transaction (
    require_lease PyError id lease_token;;
    n ← now;
    write id [FWorkingItems payload_; FHeartbeatAt (Some n)]).

Definition _commit_plan_barrier (id : Z) (lease_token : pystr) (envelope : pyval)
    (working_items_payload : option pyval) : TS unit :=
  require_lease lease_lost id lease_token;;
  n ← now;
  write id ([FPlan envelope; FWriteBarrier true; FHeartbeatAt (Some n)]
            ++ match working_items_payload with Some v => [FWorkingItems v] | None => [] end);;
  append_event id (u "execution.barrier") None.

(** [before_effect]: the last control check and the barrier, in one transaction. *)
Definition before_effect (id : Z) (lease_token : pystr) (envelope working_items : pyval) : TS unit :=
  transaction (
    _ensure_turn_control_current id;;
    _commit_plan_barrier id lease_token envelope (Some working_items)).

(** [_persist_awaiting_plan]; the worker's transaction ends after it. *)
Definition _persist_awaiting_plan (id : Z) (envelope : pyval) (response : pydict) : TS unit :=
  o ← get_turn id;
  t ← lift (of_option o MissingError);
  answer ← lift (of_option (as_str (get (u "answer") response)) PyError);
  m ← create_message (MkMessage (t_conversation t) (u "assistant") answer (u "AGENT"));
  n ← now;
  write id (FState TAwaiting :: FPlan envelope :: FResult (VDict response)
            :: FAssistantMessage (Some m) :: released ++ [FHeartbeatAt (Some n)]);;
  touch_conversation (t_conversation t);;
  append_event id (u "approval.required") None.

Inductive repair_phase : Type := PhaseExecution | PhasePrepare | PhasePreflight | PhaseOther.

(** [_repair_recoverable_plan] up to its commit: a failure proven to have had no effect clears
    the barrier. *)
Definition repair_recoverable_plan (id : Z) (envelope : pyval) (phase : repair_phase) (code : pystr)
    (repaired_items : pyval) : TS unit := transaction (
  let failed := CodedError code in
  units ← lift (of_option (plan_units envelope) failed);
  lift (raise_when (bool_decide (length units = 0%nat)) failed);;
  (match phase with
   | PhaseExecution =>
       atomic ← lift (match units with
                      | [VDict x] => Ok (py_eq (get (u "mode") x) (VStr (u "odoo_atomic")))
                      | [_] => Err PyError
                      | _ => Ok false
                      end);
       lift (raise_when (negb atomic) failed);;
       _ensure_turn_control_current id;;
       o ← get_turn id;
       t ← lift (of_option o MissingError);
       _mark_turn_failure id t;;
       proven ← _all_turn_effects_rolled_back id;
       lift (raise_when (negb proven) failed)
   | PhasePrepare | PhasePreflight =>
       _ensure_turn_control_current id;;
       o ← get_turn id;
       t ← lift (of_option o MissingError);
       lift (raise_when (t_write_barrier t) failed)
   | PhaseOther => raise failed
   end);;
  write id [FWriteBarrier false; FPlan VNone; FWorkingItems repaired_items; FErrorCode None;
            FFailure VNone]).

(** ** Review *)

(** [_reconcile_confirmed_atomic_rollback]: whether the turn was resolved. *)
Definition reconcile_confirmed_atomic_rollback (id : Z) : TS bool := transaction (
  o ← get_turn id;
  t ← lift (of_option o MissingError);
  if negb (bool_decide (t_state t = TRecoveryRequired) && t_write_barrier t) then mret false else
  proven ← _all_turn_effects_rolled_back id;
  if negb proven then mret false else
  match parse_failure_envelope (t_failure t) with
  | Err _ => mret false
  | Ok f =>
      resolved ← lift (envelope_or (new_failure (VStr (f_code f)) (VStr (f_category f))
        (VStr (f_stage f)) (VStr (f_component f)) (VStr (u "after_change")) (VStr (u "none"))
        (VStr (u "retry"))
        (VStr (u "La operación atómica se revirtió por completo; no se confirmó ningún cambio."))
        (VDict (f_safe_details f)) (VStr (f_diagnostic_id f)) (of_opt_str (f_provider_code f))));
      write id [FState TFailed; FFailure (failure_envelope_payload resolved)];;
      append_event id (u "recovery.rolled_back") (Some (f_code f));;
      mret true
  end).
End control.
