(* ===== verification/TurnJournal.v ===== *)
(** * Turns: the effect journal and the recovery checkpoints

    [models/effect_journal.py]: the rows a plan snapshot prescribes and their synchronisation
    with the stored rows; [models/effect_recovery_runtime.py]: the checkpoint a worker makes
    before and after each recovery unit. *)
From S2P Require Import Prelude PyText PyValue Json Failure TurnStore TurnQueue TurnControl.
Local Open Scope Z_scope.

Definition _MAX_ROWS_PER_TURN : Z := 8.
Definition _MAX_PAYLOAD_BYTES : Z := 64 * 1024.
Definition _RETENTION_SECONDS : Z := 7 * 86400.
Definition _CLASSIFICATIONS : list pystr :=
  [u "none"; u "reversible"; u "reconstructable"; u "irreversible"; u "external_or_unknown"].
Definition _RECOVERY_MODES : list pystr := [u "odoo_atomic"; u "segmented"; u "external"].

Definition journal_plan_invalid : turn_exn := CodedError (u "effect_journal_plan_invalid").

(** ** Payloads of a step *)

Definition preview_keys : list pystr :=
  [u "operation"; u "model"; u "record_id"; u "display_name"; u "changes"; u "before_active";
   u "after_active"; u "values"; u "state"; u "expected_states"; u "reconstruction"].

(** [_before_payload] *)
Definition _before_payload (step : pydict) : result turn_exn pyval :=
  preview ← of_option (as_dict (get (u "preview") step)) journal_plan_invalid;
  let selected := omap (λ k, (λ v, (k, v)) <$> dict_lookup k preview) preview_keys in
  Ok (VDict [(u "precondition_fingerprint", get (u "precondition_fingerprint") step);
             (u "binding_fingerprint", get (u "binding_fingerprint") step);
             (u "preview", VDict selected)]).

(** [_after_payload] *)
Definition _after_payload (step : pydict) : result turn_exn pyval :=
  match get (u "result") step, get (u "verification") step with
  | VNone, VNone => Ok (VDict [])
  | VDict r, VDict v => Ok (VDict [(u "result", VDict r); (u "verification", VDict v)])
  | _, _ => Err journal_plan_invalid
  end.

(** [_receipt_payload] *)
Definition _receipt_payload (step : pydict) : pyval :=
  match get (u "result") step, get (u "verification") step with
  | VDict r, VDict v =>
      VDict [(u "verified", VBool true); (u "step_state", get (u "state") step);
             (u "outcome", get (u "outcome") r); (u "capability", get (u "capability") step);
             (u "step_id", get (u "step_id") step); (u "record_model", get (u "model") r);
             (u "record_id", get (u "record_id") r); (u "verification", VDict v)]
  | _, _ => VDict []
  end.

(** One of the unsatisfied dependencies a skipped step names. *)
Definition skipped_dependency (item : pyval) : result turn_exn bool :=
  match item with
  | VDict d =>
      if has_keys d [u "step_id"; u "outcome"] && bool_decide (is_Some (as_str (get (u "step_id") d)))
      then of_option (in_str_set (get (u "outcome") d) [u "partial"; u "blocked"; u "skipped"]) PyError
      else Ok false
  | _ => Ok false
  end.

(** [_validate_skipped_step_payload] *)
Definition _validate_skipped_step_payload (step : pydict) : result turn_exn unit :=
  match get (u "result") step with
  | VDict r =>
      match get (u "dependencies") r with
      | VList dependencies =>
          if has_keys r [u "outcome"; u "reason"; u "executed"; u "dependencies"]
             && py_eq (get (u "outcome") r) (VStr (u "skipped"))
             && py_eq (get (u "reason") r) (VStr (u "dependency_incomplete"))
             && match get (u "executed") r with VBool false => true | _ => false end
             && (1 <=? Z.of_nat (length dependencies)) && (Z.of_nat (length dependencies) <=? 5)
          then
            named ← all_of skipped_dependency dependencies;
            raise_when (negb (named
              && py_eq (get (u "verification") step) (VDict ((u "verified", VBool true) :: r))))
              journal_plan_invalid
          else Err journal_plan_invalid
      | _ => Err journal_plan_invalid
      end
  | _ => Err journal_plan_invalid
  end.

(** [_bounded_payload]; the payloads of a row are dictionaries. *)
Definition _bounded_payload (v : pyval) : result turn_exn pyval :=
  b ← of_option (t ← json_dumps false v; utf8_encode t) (CodedError (u "effect_journal_payload_invalid"));
  raise_when (_MAX_PAYLOAD_BYTES <? Z.of_nat (length b)) (CodedError (u "effect_journal_payload_too_large"));;
  Ok v.

(** ** Rows of a plan *)

(** The turn of the loop over the recovery units. *)
Definition check_journal_unit (units : list (pystr * pydict)) (x : pyval)
    : result turn_exn (list (pystr * pydict)) :=
  d ← of_option (as_dict x) journal_plan_invalid;
  raise_any
    [negb <$> of_option (in_str_set (get (u "mode") d) _RECOVERY_MODES) PyError;
     negb <$> of_option (in_str_set (get (u "state") d) [u "prepared"; u "executing"; u "completed"]) PyError]
    journal_plan_invalid;;
  unit_id ← of_option (as_str (get (u "unit_id") d)) journal_plan_invalid;
  Ok (dict_set unit_id d units).

(** The state a step prescribes for its row. *)
Definition row_state (step unit_ : pydict) : result turn_exn journal_state :=
  if py_eq (get (u "state") step) (VStr (u "completed")) then Ok JVerified
  else if py_eq (get (u "state") step) (VStr (u "skipped")) then
    _validate_skipped_step_payload step;; Ok JSkipped
  else if py_eq (get (u "state") unit_) (VStr (u "executing")) then Ok JExecuting
  else Ok JPrepared.

(** [_row_values] *)
Definition _row_values (id : Z) (t : turn) (v : pyval) (units : list (pystr * pydict)) (expires_at : Z)
    : result turn_exn journal_row :=
  step ← of_option (as_dict v) journal_plan_invalid;
  step_id ← of_option (as_str (get (u "step_id") step)) journal_plan_invalid;
  unit_id ← of_option (as_str (get (u "recovery_unit_id") step)) journal_plan_invalid;
  unit_ ← of_option (dict_lookup unit_id units) journal_plan_invalid;
  capability ← of_option (as_str (get (u "capability") step)) journal_plan_invalid;
  version ← of_option (as_str (get (u "version") step)) journal_plan_invalid;
  raise_any
    [negb <$> of_option (in_str_set (get (u "recovery_mode") step) _RECOVERY_MODES) PyError;
     negb <$> of_option (in_str_set (get (u "journal_classification") step) _CLASSIFICATIONS) PyError]
    journal_plan_invalid;;
  recovery_mode ← of_option (as_str (get (u "recovery_mode") step)) journal_plan_invalid;
  classification ← of_option (as_str (get (u "journal_classification") step)) journal_plan_invalid;
  raise_when (negb (py_eq (get (u "mode") unit_) (VStr recovery_mode))) journal_plan_invalid;;
  before ← _before_payload step;
  after ← _after_payload step;
  state_ ← row_state step unit_;
  before ← _bounded_payload before;
  after ← _bounded_payload after;
  receipt ← _bounded_payload (_receipt_payload step);
  Ok (MkJournal id (t_uuid t) (t_user t) (t_company t) unit_id step_id capability version recovery_mode
        classification state_ before after receipt expires_at).

(** ** Synchronisation *)

(** The state a row keeps or takes. *)
Definition updated_state (current target : journal_state) : journal_state :=
  match current with
  | JReverted => JReverted
  | JVerified => JVerified
  | JSkipped => JSkipped
  | _ => target
  end.

(** A payload is replaced by one that is not empty. *)
Definition updated_payload (current value : pyval) : pyval :=
  if truthy value && negb (py_eq current value) then value else current.

(** [_row_updates] and the write of the row. *)
Definition update_row (row values : journal_row) : journal_row :=
  MkJournal (j_turn row) (j_turn_uuid row) (j_user row) (j_company row) (j_unit_id row) (j_step_id row)
    (j_capability row) (j_version row) (j_recovery_mode row) (j_classification row)
    (updated_state (j_state row) (j_state values)) (j_before row)
    (updated_payload (j_after row) (j_after values)) (updated_payload (j_receipt row) (j_receipt values))
    (j_expires_at values).

(** [_validate_binding] *)
Definition same_binding (row values : journal_row) : bool :=
  str_eqb (j_turn_uuid row) (j_turn_uuid values) && (j_user row =? j_user values)
  && (j_company row =? j_company values) && str_eqb (j_unit_id row) (j_unit_id values)
  && str_eqb (j_step_id row) (j_step_id values) && str_eqb (j_capability row) (j_capability values)
  && str_eqb (j_version row) (j_version values)
  && str_eqb (j_recovery_mode row) (j_recovery_mode values)
  && str_eqb (j_classification row) (j_classification values)
  && py_eq (j_before row) (j_before values).

(** [unique(turn_id, step_id)] *)
Definition same_step (id : Z) (step_id : pystr) (r : journal_row) : bool :=
  (j_turn r =? id) && str_eqb (j_step_id r) step_id.

(** The rows the synchronisation considers. *)
Definition current_row (id : Z) (r : journal_row) : bool :=
  (j_turn r =? id) && negb (bool_decide (j_state r = JRolledBack ∨ j_state r = JReverted)).

(** The turn of the loop over the steps: [existing] are the rows found before it, [seen] the
    steps so far. *)
Definition sync_step (id : Z) (t : turn) (units : list (pystr * pydict)) (expires_at : Z)
    (existing : list journal_row) (seen : list pystr) (v : pyval) : ST db turn_exn (list pystr) :=
  values ← lift (_row_values id t v units expires_at);
  lift (raise_when (mem (j_step_id values) seen) journal_plan_invalid);;
  (match List.find (same_step id (j_step_id values)) existing with
   | None =>
       stored ← gets d_journal;
       lift (raise_when (existsb (same_step id (j_step_id values)) stored) IntegrityError);;
       modify (with_journal (λ l, l ++ [values]))
   | Some row =>
       lift (raise_when (negb (same_binding row values)) (CodedError (u "effect_journal_binding_mismatch")));;
       modify (with_journal (fmap (λ r, if same_step id (j_step_id values) r then update_row r values else r)))
   end);;
  mret (seen ++ [j_step_id values]).

Section journal.
Context `{TurnHost}.

Definition _sync_plan (id : Z) (t : turn) (v : pyval) : TS unit :=
  p ← lift (of_option (as_dict v) journal_plan_invalid);
  lift (raise_when (negb (eq_int (get (u "format_version") p) 3)) journal_plan_invalid);;
  steps ← lift (of_option (as_list (get (u "steps") p)) journal_plan_invalid);
  lift (raise_when (negb ((1 <=? Z.of_nat (length steps)) && (Z.of_nat (length steps) <=? _MAX_ROWS_PER_TURN)))
          journal_plan_invalid);;
  raw_units ← lift (of_option (as_list (get (u "recovery_units") p)) journal_plan_invalid);
  lift (raise_when (bool_decide (length raw_units = 0%nat)) journal_plan_invalid);;
  units ← lift (foldR check_journal_unit [] raw_units);
  existing ← gets (λ s, List.filter (current_row id) (d_journal s));
  n ← now;
  seen ← foldST (sync_step id t units (n + _RETENTION_SECONDS) existing) [] steps;
  lift (raise_when (negb (forallb (λ r, mem (j_step_id r) seen) existing)) journal_plan_invalid).

(** [recovery_checkpoint] around one recovery unit of the snapshot, up to its commit. *)
Definition recovery_checkpoint (id : Z) (lease_token : pystr) (envelope : pydict) (working_payload : pyval)
    (phase : pystr) (plan_snapshot unit_ : pyval) : TS unit := transaction (
  let invalid := CodedError (u "capability_plan_recovery_checkpoint_invalid") in
  lift (raise_when (negb (mem phase [u "before_unit"; u "after_unit"])) invalid);;
  lift (raise_when (negb (bool_decide (is_Some (as_dict plan_snapshot))
                          && bool_decide (is_Some (as_dict unit_)))) invalid);;
  let current := VDict (dict_set (u "plan") plan_snapshot envelope) in
  t ← require_lease lease_lost id lease_token;
  if str_eqb phase (u "before_unit") then
    _ensure_turn_control_current id;;
    _sync_plan id t plan_snapshot;;
    (if negb (t_write_barrier t) then _commit_plan_barrier id lease_token current (Some working_payload)
     else write id [FPlan current; FWorkingItems working_payload])
  else
    lift (raise_when (negb (t_write_barrier t)) (CodedError (u "capability_plan_barrier_missing")));;
    _sync_plan id t plan_snapshot;;
    write id [FPlan current; FWorkingItems working_payload]).
End journal.
