(* ===== verification/TurnSpec.v ===== *)
(** * Turns: the specification of the queue

    The life cycle of one turn ([life]) and of the table of turns ([table_step]), stated apart
    from the code: which rows may change, in which way, under which condition on the other
    rows.  The invariants of the queue are proved here, of the specification; [TurnSteps]
    proves that the operations of the code are steps of it. *)
From S2P Require Import Prelude PyText PyValue Failure TurnStore TurnQueue TurnControl.
Local Open Scope Z_scope.

(** ** One turn *)

(** What the life cycle depends on. *)
Record core := MkCore {
  k_state : turn_state;
  k_barrier : bool;
  k_attempts : Z;
  k_max : Z;
  k_token : option pystr;
  k_expires : option Z }.

Definition core_of (t : turn) : core :=
  MkCore (t_state t) (t_write_barrier t) (t_attempt_count t) (t_max_attempts t) (t_lease_token t)
    (t_lease_expires_at t).

(** What no write changes. *)
Definition ident (t : turn) : pystr * option Z * Z * Z * option pystr :=
  (t_uuid t, t_conversation t, t_user t, t_company t, t_client_request_id t).
(** What never changes; the conversation may be deleted. *)
Definition owner (t : turn) : pystr * Z * Z * option pystr :=
  (t_uuid t, t_user t, t_company t, t_client_request_id t).
Definition same_turn (t t' : turn) : Prop :=
  owner t' = owner t ∧ (t_conversation t' = t_conversation t ∨ t_conversation t' = None).
#[export] Instance same_turn_preorder : PreOrder same_turn.
Proof.
  split; [split; [done|by left]|]. intros t1 t2 t3 [H1 C1] [H2 C2]. split; [congruence|].
  destruct C1, C2; [left|right|right|right]; congruence.
Qed.
Lemma ident_same t t' : ident t' = ident t → same_turn t t'.
Proof. intros H. injection H as H1 H2 H3 H4 H5. split; [unfold owner; congruence|by left]. Qed.

Definition k_active (k : core) : bool :=
  bool_decide (k_state k = TRunning ∨ k_state k = TCancelRequested).
Definition k_claimable (k : core) : bool :=
  bool_decide (k_state k = TQueued) && (k_attempts k <? k_max k).
(** A worker or an approval holds the turn. *)
Definition k_holding (k : core) : bool := k_active k || bool_decide (k_state k = TAwaiting).
Definition k_blocking (k : core) : bool := k_holding k || k_claimable k.

Definition k_valid (k : core) : Prop := 0 <= k_attempts k <= k_max k ∧ 1 <= k_max k.

(** The transitions other than a claim. *)
Inductive life : core → core → Prop :=
| life_barrier a m tok ex :
    life (MkCore TRunning false a m tok ex) (MkCore TRunning true a m tok ex)
| life_ceiling a m tok ex m' :
    m <= m' → life (MkCore TRunning false a m tok ex) (MkCore TRunning false a m' tok ex)
| life_await a m tok ex :
    life (MkCore TRunning false a m tok ex) (MkCore TAwaiting false a m None None)
| life_retry x a m tok ex :
    x = TRunning ∨ x = TCancelRequested → a < m →
    life (MkCore x false a m tok ex) (MkCore TQueued false a m None None)
| life_end x y b a m tok ex :
    x = TRunning ∨ x = TCancelRequested → terminal_turn y = true →
    (y = TFailed → b = false) → (y = TRecoveryRequired → b = true) →
    life (MkCore x b a m tok ex) (MkCore y b a m None None)
| life_decline y b a m tok ex :
    y = TCompleted ∨ y = TCancelled →
    life (MkCore TAwaiting b a m tok ex) (MkCore y b a m None None)
| life_resume b a m tok ex m' :
    life (MkCore TAwaiting b a m tok ex) (MkCore TQueued b a m' None None)
| life_stop b a m tok ex :
    life (MkCore TQueued b a m tok ex) (MkCore TCancelled b a m None None)
| life_resolve a m tok ex :
    life (MkCore TRecoveryRequired true a m tok ex) (MkCore TFailed true a m tok ex).

(** Case analysis of a transition whose cores are concrete. *)
Ltac life_cases :=
  let H := fresh in
  intros H; destruct H;
  repeat match goal with
  | H : _ ∨ _ |- _ => destruct H; subst
  | y : turn_state, H : terminal_turn ?y = true |- _ => destruct y; try discriminate H; clear H
  end.

Lemma life_not_holding k k' : life k k' → k_holding k = false → k_holding k' = false.
Proof. life_cases; done. Qed.

Lemma life_not_blocking k k' : life k k' → k_blocking k = false → k_blocking k' = false.
Proof. life_cases; done. Qed.

Lemma life_not_active k k' : life k k' → k_active k = false → k_active k' = false.
Proof. life_cases; done. Qed.

(** ** The table *)

Abbreviation table := (gmap Z turn).

Definition table_active (T : table) (id : Z) : Prop := ∃ t, T !! id = Some t ∧ k_active (core_of t) = true.

(** [p] blocks [id]: an earlier turn of the same conversation that is not finished. *)
Definition predecessor (T : table) (id : Z) (t : turn) (p : Z) (t' : turn) : Prop :=
  T !! p = Some t' ∧ p < id ∧ (∃ c, t_conversation t = Some c ∧ t_conversation t' = Some c) ∧
  k_blocking (core_of t') = true.

(** The turns a worker runs. *)
Definition active_ids (T : table) : list Z :=
  fst <$> List.filter (λ p, active p.2) (map_to_list T).

Definition fresh_core : core := MkCore TQueued false 0 _MAX_ATTEMPTS None None.

(** A repair clears the barrier. *)
Definition repaired (k : core) : core :=
  MkCore TRunning false (k_attempts k) (k_max k) (k_token k) (k_expires k).

(** A step that changes one row. *)
Inductive row_step (T : table) : table → Prop :=
| step_note id t t' :
    T !! id = Some t → ident t' = ident t → core_of t' = core_of t →
    row_step T (<[id := t']> T)
| step_life id t t' :
    T !! id = Some t → ident t' = ident t → life (core_of t) (core_of t') → k_valid (core_of t') →
    row_step T (<[id := t']> T)
| step_claim id t t' tok ex :
    T !! id = Some t → ident t' = ident t →
    (length (active_ids T) < 2)%nat →
    k_claimable (core_of t) = true → (∀ p t0, ¬ predecessor T id t p t0) →
    core_of t' = MkCore TRunning (t_write_barrier t) (t_attempt_count t + 1) (t_max_attempts t)
                   (Some tok) (Some ex) →
    row_step T (<[id := t']> T).

(** The steps of the table.  The workers of the turns in [late] may write an approval wait or the
    commit of a repair after they lost their lease: the code does not test it there. *)
Inductive table_step (late : Z → Prop) (T : table) : table → Prop :=
| step_row T' : row_step T T' → table_step late T T'
| step_repair id t t' :
    T !! id = Some t → ident t' = ident t → t_state t = TRunning →
    core_of t' = repaired (core_of t) →
    table_step late T (<[id := t']> T)
| step_new id t :
    (∀ j, is_Some (T !! j) → j < id) → core_of t = fresh_core →
    table_step late T (<[id := t]> T)
| step_detach f :
    (∀ t, same_turn t (f t) ∧ core_of (f t) = core_of t) → table_step late T (f <$> T)
| step_late_await id t t' :
    late id → T !! id = Some t → ident t' = ident t →
    core_of t' = MkCore TAwaiting (t_write_barrier t) (t_attempt_count t) (t_max_attempts t) None None →
    table_step late T (<[id := t']> T)
| step_late_repair id t t' :
    late id → T !! id = Some t → ident t' = ident t →
    core_of t' = MkCore (t_state t) false (t_attempt_count t) (t_max_attempts t) (t_lease_token t)
                   (t_lease_expires_at t) →
    table_step late T (<[id := t']> T).

(** ** Invariants *)

(** The lease belongs to the active turns, and the attempts are within their limit. *)
Record core_ok (k : core) : Prop := {
  ko_valid : k_valid k;
  ko_lease : k_active k = true → is_Some (k_token k) ∧ is_Some (k_expires k);
  ko_released : k_active k = false → k_token k = None ∧ k_expires k = None }.

Record table_ok (T : table) : Prop := {
  ok_rows : ∀ id t, T !! id = Some t → core_ok (core_of t);
  ok_capacity : (length (active_ids T) <= 2)%nat }.

(** An unfinished turn without a worker has not crossed the barrier, and one under review has. *)
Record core_timely (k : core) : Prop := {
  kt_barrier : k_state k = TQueued ∨ k_state k = TAwaiting → k_barrier k = false;
  kt_review : k_state k = TRecoveryRequired → k_barrier k = true }.

(** What holds besides of the turns whose worker is never late. *)
Record timely_ok (late : Z → Prop) (T : table) : Prop := {
  ti_rows : ∀ id t, ¬ late id → T !! id = Some t → core_timely (core_of t);
  ti_order : ∀ id t p t', ¬ late id → ¬ late p → T !! id = Some t → k_holding (core_of t) = true →
    ¬ predecessor T id t p t' }.

Lemma life_ok k k' : life k k' → k_valid k' → core_ok k → core_ok k'.
Proof.
  intros Hl Hv [_ Hl1 Hl2]. revert Hl Hv Hl1 Hl2. life_cases; intros; split; simpl in *; auto; done.
Qed.
Lemma life_timely k k' : life k k' → core_timely k → core_timely k'.
Proof.
  intros Hl [Hb Hr]. revert Hl Hb Hr. life_cases; intros; split; simpl in *; auto; try done; try (intros [?|?]; done).
Qed.

Lemma repaired_ok k : k_state k = TRunning → core_ok k → core_ok (repaired k).
Proof. intros Hr [? Hl _]. split; simpl; [done| |done]. intros _. apply Hl. by unfold k_active; rewrite Hr. Qed.
Lemma repaired_timely k : core_timely (repaired k).
Proof. split; [done|]. simpl. done. Qed.

(** ** Counting the active turns *)

Definition one_if (b : bool) : nat := if b then 1%nat else 0%nat.

Lemma length_filter_perm {A} (f : A → bool) (l k : list A) :
  l ≡ₚ k → length (List.filter f l) = length (List.filter f k).
Proof. induction 1; simpl; repeat case_match; simpl; congruence. Qed.

Lemma count_cons (f : Z * turn → bool) p l :
  length (List.filter f (p :: l)) = (one_if (f p) + length (List.filter f l))%nat.
Proof. simpl. by destruct (f p). Qed.

Lemma active_ids_length T : length (active_ids T) = length (List.filter (λ p, active p.2) (map_to_list T)).
Proof. unfold active_ids. by rewrite length_fmap. Qed.

Lemma active_insert T id t :
  length (active_ids (<[id := t]> T)) = (one_if (active t) + length (active_ids (delete id T)))%nat.
Proof.
  rewrite !active_ids_length, <- (insert_delete_eq T).
  rewrite (length_filter_perm _ _ _ (map_to_list_insert _ _ _ (lookup_delete_eq T id))).
  by rewrite count_cons.
Qed.

Lemma active_lookup T id t :
  T !! id = Some t → length (active_ids T) = (one_if (active t) + length (active_ids (delete id T)))%nat.
Proof.
  intros Ht. rewrite <- active_insert. by rewrite insert_id.
Qed.

Lemma active_absent T id : T !! id = None → length (active_ids T) = length (active_ids (delete id T)).
Proof. intros Ht. by rewrite delete_id. Qed.

Lemma active_core t : active t = k_active (core_of t).
Proof. done. Qed.

(** ** Preservation *)

(** A row whose turn became no busier. *)
Definition calmer (k k' : core) : Prop :=
  (k_active k = false → k_active k' = false) ∧ (k_holding k = false → k_holding k' = false) ∧
  (k_blocking k = false → k_blocking k' = false).

Lemma life_calmer k k' : life k k' → calmer k k'.
Proof.
  intros H. split_and!; [by apply life_not_active|by apply life_not_holding|by apply life_not_blocking].
Qed.

Lemma running_calmer k k' : k_state k = TRunning → calmer k k'.
Proof.
  intros Hr. assert (k_active k = true) as Ha by (unfold k_active; by rewrite Hr).
  unfold calmer, k_blocking, k_holding. rewrite Ha. by split_and!.
Qed.

Lemma ident_conversation t t' : ident t' = ident t → t_conversation t' = t_conversation t.
Proof. intros H. by injection H. Qed.

(** A predecessor after a row changed was one before, when the row did not become blocking. *)
Lemma predecessor_insert T i t t' id x p y :
  T !! i = Some t → ident t' = ident t →
  (k_blocking (core_of t) = false → k_blocking (core_of t') = false) →
  predecessor (<[i := t']> T) id x p y → ∃ y', predecessor T id x p y'.
Proof.
  intros Hi Hid Hb (Hp & Hlt & (c & Hc1 & Hc2) & Hy).
  destruct (decide (p = i)) as [->|Hne].
  - rewrite lookup_insert_eq in Hp. injection Hp as <-. exists t. split_and!; [done..| |].
    + exists c. split; [done|]. by rewrite <- (ident_conversation _ _ Hid).
    + destruct (k_blocking (core_of t)) eqn:E; [done|]. by rewrite Hb in Hy.
  - rewrite lookup_insert_ne in Hp by done. exists y. split_and!; eauto.
Qed.

Lemma predecessor_conversation T id x x' p y :
  t_conversation x' = t_conversation x → predecessor T id x p y → predecessor T id x' p y.
Proof. unfold predecessor. by intros ->. Qed.

Lemma insert_rows_ok T id t' :
  table_ok T → core_ok (core_of t') → (length (active_ids (<[id := t']> T)) <= 2)%nat → table_ok (<[id := t']> T).
Proof.
  intros [Hrows _] Hk Hcap. split; [|exact Hcap].
  intros i x. rewrite lookup_insert_Some. intros [[_ <-]|[_ Hx]]; [done|by eapply Hrows].
Qed.

(** The turn became no busier as to the capacity. *)
Lemma calm_insert_ok T id t t' :
  table_ok T → T !! id = Some t → (k_active (core_of t) = false → k_active (core_of t') = false) →
  core_ok (core_of t') → table_ok (<[id := t']> T).
Proof.
  intros Hok Ht Ha Hk. apply insert_rows_ok; [done..|]. destruct Hok as [_ Hcap].
  rewrite (active_lookup T id t Ht) in Hcap. rewrite active_insert.
  rewrite !active_core in *. destruct (k_active (core_of t)), (k_active (core_of t')); simpl in *; lia.
Qed.
(** The same for the order of the conversation. *)
Lemma calm_insert_timely late T id t t' :
  timely_ok late T → T !! id = Some t → ident t' = ident t → calmer (core_of t) (core_of t') →
  (core_timely (core_of t) → core_timely (core_of t')) → timely_ok late (<[id := t']> T).
Proof.
  intros [Hrows Hord] Ht Hid (_ & Hh & Hb) Hk. split.
  - intros i x Hi. rewrite lookup_insert_Some. intros [[<- <-]|[_ Hx]]; [by eapply Hk, Hrows|by eapply Hrows].
  - intros i x p y Hi Hp0 Hx Hhold Hp.
    destruct (predecessor_insert _ _ _ _ _ _ _ _ Ht Hid Hb Hp) as [y' Hp'].
    apply lookup_insert_Some in Hx as [[<- <-]|[Hne Hx]].
    + destruct (k_holding (core_of t)) eqn:E; [|by rewrite Hh in Hhold].
      eapply (Hord id t); [done..|]. eapply predecessor_conversation; [|exact Hp'].
      symmetry. by apply ident_conversation.
    + by eapply (Hord i x).
Qed.
(** A turn whose worker is late has no part in it. *)
Lemma late_insert_timely late T id t' : timely_ok late T → late id → timely_ok late (<[id := t']> T).
Proof.
  intros [Hrows Hord] Hl. split.
  - intros i x Hi. rewrite lookup_insert_ne by congruence. by apply Hrows.
  - intros i x p y Hi Hp. rewrite lookup_insert_ne by congruence. intros Hx Hh (Hpy & H).
    rewrite lookup_insert_ne in Hpy by congruence. by eapply (Hord i x p y).
Qed.

Lemma new_absent (T : table) id : (∀ j, is_Some (T !! j) → j < id) → T !! id = None.
Proof. intros Hid. destruct (T !! id) eqn:E; [|done]. specialize (Hid id). rewrite E in Hid. specialize (Hid ltac:(done)). lia. Qed.
Lemma new_ok T id t :
  table_ok T → (∀ j, is_Some (T !! j) → j < id) → core_of t = fresh_core → table_ok (<[id := t]> T).
Proof.
  intros Hok Hid Hk. apply insert_rows_ok; [done|rewrite Hk; by split; unfold k_valid|].
  rewrite active_insert, active_core, Hk. simpl. rewrite <- active_absent by by apply new_absent. apply Hok.
Qed.
Lemma new_timely late T id t :
  timely_ok late T → (∀ j, is_Some (T !! j) → j < id) → core_of t = fresh_core → timely_ok late (<[id := t]> T).
Proof.
  intros [Hrows Hord] Hid Hk. split.
  - intros i x Hi. rewrite lookup_insert_Some. intros [[_ <-]|[_ Hx]]; [|by eapply Hrows]. rewrite Hk. by split.
  - intros i x p y Hi Hp0. rewrite lookup_insert_Some. intros [[_ <-]|[Hne Hx]] Hhold (Hp & Hlt & Hc & Hy).
    + by rewrite Hk in Hhold.
    + apply lookup_insert_Some in Hp as [[<- _]|[_ Hp]].
      * specialize (Hid i). rewrite Hx in Hid. specialize (Hid ltac:(done)). lia.
      * by eapply (Hord i x p y).
Qed.

Lemma claim_ok T id t t' tok ex :
  table_ok T → T !! id = Some t → (length (active_ids T) < 2)%nat → k_claimable (core_of t) = true →
  core_of t' = MkCore TRunning (t_write_barrier t) (t_attempt_count t + 1) (t_max_attempts t)
                 (Some tok) (Some ex) →
  table_ok (<[id := t']> T).
Proof.
  intros Hok Ht Hlt Hc Hk. apply insert_rows_ok; [done| |].
  - pose proof (ok_rows _ Hok id t Ht) as [[? ?] _ _]. rewrite Hk.
    unfold k_claimable in Hc. apply andb_true_iff in Hc as [_ Hc%Z.ltb_lt].
    unfold core_of in *. simpl in *. split; simpl; [split; simpl; lia|by eauto|done].
  - rewrite active_insert. rewrite (active_lookup T id t Ht) in Hlt. destruct (active t'); simpl; lia.
Qed.
Lemma claim_timely late T id t t' tok ex :
  timely_ok late T → T !! id = Some t → ident t' = ident t →
  k_claimable (core_of t) = true → (∀ p t0, ¬ predecessor T id t p t0) →
  core_of t' = MkCore TRunning (t_write_barrier t) (t_attempt_count t + 1) (t_max_attempts t)
                 (Some tok) (Some ex) →
  timely_ok late (<[id := t']> T).
Proof.
  intros [Hrows Hord] Ht Hid Hc Hpre Hk.
  assert (k_blocking (core_of t) = true) as Hblock.
  { unfold k_blocking. by rewrite Hc, orb_true_r. }
  split.
  - intros i x Hi. rewrite lookup_insert_Some. intros [[_ <-]|[_ Hx]]; [|by eapply Hrows].
    rewrite Hk. split; simpl; [by intros [?|?]|done].
  - intros i x p y Hi Hp0. rewrite lookup_insert_Some. intros [[<- <-]|[Hne Hx]] Hhold Hp.
    + destruct (predecessor_insert T id t t' id t' p y Ht Hid) as [y' Hp']; [by rewrite Hblock|done|].
      eapply (Hpre p y'), predecessor_conversation; [|exact Hp']. symmetry. by apply ident_conversation.
    + destruct (predecessor_insert T id t t' i x p y Ht Hid) as [y' Hp']; [by rewrite Hblock|done|].
      by eapply (Hord i x p).
Qed.

(** Detaching a conversation changes no core. *)
Definition detaching (f : turn → turn) : Prop := ∀ t, same_turn t (f t) ∧ core_of (f t) = core_of t.
Lemma detach_active f T : detaching f → length (active_ids (f <$> T)) = length (active_ids T).
Proof.
  intros Hf. rewrite !active_ids_length, map_to_list_fmap. induction (map_to_list T) as [|[i t] l IH]; [done|].
  rewrite fmap_cons. rewrite !count_cons, IH. simpl. by rewrite !active_core, (proj2 (Hf t)).
Qed.
Lemma detach_ok f T : detaching f → table_ok T → table_ok (f <$> T).
Proof.
  intros Hf [Hrows Hcap]. split; [|by rewrite detach_active].
  intros id x. rewrite lookup_fmap. intros (t & Ht & ->)%fmap_Some. rewrite (proj2 (Hf t)). by eapply Hrows.
Qed.
Lemma detach_timely late f T : detaching f → timely_ok late T → timely_ok late (f <$> T).
Proof.
  intros Hf [Hrows Hord]. split.
  - intros id x Hi. rewrite lookup_fmap. intros (t & Ht & ->)%fmap_Some. rewrite (proj2 (Hf t)). by eapply Hrows.
  - intros id x p y Hi Hp. rewrite lookup_fmap. intros (t & Ht & ->)%fmap_Some Hh (Hy & Hlt & (c & Hc1 & Hc2) & Hb).
    rewrite lookup_fmap in Hy. apply fmap_Some in Hy as (t0 & Ht0 & ->).
    destruct (Hf t) as [[_ Ct] Kt], (Hf t0) as [[_ C0] K0]. rewrite Kt in Hh. rewrite K0 in Hb.
    eapply (Hord id t p t0); [done..|]. split_and!; [done..| |done]. exists c. destruct Ct, C0; split; congruence.
Qed.

Lemma step_ok late T T' : table_step late T T' → table_ok T → table_ok T'.
Proof.
  intros [? [id t t' Ht Hid Hk|id t t' Ht Hid Hl Hv|id t t' tok ex Ht Hid Hlt Hc Hp Hk]|id t t' Ht Hid Hrun Hk
         |id t Hid Hk|f Hf|id t t' _ Ht _ Hk|id t t' _ Ht _ Hk] Hok.
  - eapply calm_insert_ok; [done..| |]; rewrite Hk; [done|by eapply ok_rows].
  - eapply calm_insert_ok; [done..|by apply life_calmer|]. eapply life_ok; [done..|by eapply ok_rows].
  - by eapply claim_ok.
  - eapply calm_insert_ok; [done..| |]; rewrite Hk.
    + by apply running_calmer.
    + apply repaired_ok; [done|by eapply ok_rows].
  - by apply new_ok.
  - by apply detach_ok.
  - eapply calm_insert_ok; [done..|by rewrite Hk|]. rewrite Hk. split; simpl; [|done|done].
    exact (ko_valid _ (ok_rows _ Hok _ _ Ht)).
  - pose proof (ok_rows _ Hok _ _ Ht) as [? H1 H2].
    eapply calm_insert_ok; [done..|by rewrite Hk|]. rewrite Hk. by split.
Qed.

Lemma step_timely late T T' : table_step late T T' → timely_ok late T → timely_ok late T'.
Proof.
  intros [? [id t t' Ht Hid Hk|id t t' Ht Hid Hl Hv|id t t' tok ex Ht Hid Hlt Hc Hp Hk]|id t t' Ht Hid Hrun Hk
         |id t Hid Hk|f Hf|id t t' Hl Ht _ Hk|id t t' Hl Ht _ Hk] Hok.
  - eapply calm_insert_timely; [done..| |]; rewrite Hk; done.
  - eapply calm_insert_timely; [done..|by apply life_calmer|]. by apply life_timely.
  - by eapply claim_timely.
  - eapply calm_insert_timely; [done..| |]; rewrite Hk; [by apply running_calmer|intros _; apply repaired_timely].
  - by apply new_timely.
  - by apply detach_timely.
  - by apply late_insert_timely.
  - by apply late_insert_timely.
Qed.

Lemma steps_ok late T T' : rtc (table_step late) T T' → table_ok T → table_ok T'.
Proof. induction 1; eauto using step_ok. Qed.
Lemma steps_timely late T T' : rtc (table_step late) T T' → timely_ok late T → timely_ok late T'.
Proof. induction 1; eauto using step_timely. Qed.

Lemma empty_table_ok : table_ok ∅.
Proof. split; [intros ??; by rewrite lookup_empty|]. vm_compute. lia. Qed.
Lemma empty_table_timely late : timely_ok late ∅.
Proof. split; [intros ???; by rewrite lookup_empty|intros ??????; by rewrite lookup_empty]. Qed.

(** ** What never comes back *)

(** The steps change the rows of existing turns only, and never who they belong to. *)
Definition same_ids (T T' : table) : Prop := ∀ id, is_Some (T' !! id) → is_Some (T !! id).

Lemma insert_same_ids (T : table) id t t' : T !! id = Some t → same_ids T (<[id := t']> T).
Proof. intros Ht j. rewrite lookup_insert_is_Some. intros [<-|[_ ?]]; [by eexists|done]. Qed.

Lemma row_step_ids T T' : row_step T T' → same_ids T T'.
Proof. intros []; by eapply insert_same_ids. Qed.

Lemma row_steps_ids T T' : rtc row_step T T' → same_ids T T'.
Proof. induction 1 as [|T1 T2 T3 Hs _ IH]; [by intros ?|]. intros id Hid. by eapply row_step_ids, IH. Qed.

(** A relation between the row before and after, kept by each way a row can change. *)
Section per_row.
Context (R : core → core → Prop) `{!PreOrder R}.

Definition rows_by (late : Z → Prop) (T T' : table) : Prop :=
  ∀ id t, ¬ late id → T !! id = Some t →
    ∃ t', T' !! id = Some t' ∧ same_turn t t' ∧ R (core_of t) (core_of t').

Lemma rows_by_insert late T id t t' :
  T !! id = Some t → ident t' = ident t → R (core_of t) (core_of t') → rows_by late T (<[id := t']> T).
Proof.
  intros Ht Hid HR j x Hl Hj. destruct (decide (j = id)) as [->|Hne].
  - rewrite lookup_insert_eq. exists t'. assert (x = t) as -> by congruence. split_and!; [done|by apply ident_same|done].
  - rewrite lookup_insert_ne by done. exists x. by split_and!.
Qed.
Lemma rows_by_late late T id t' : late id → rows_by late T (<[id := t']> T).
Proof. intros Hid j x Hl Hj. rewrite lookup_insert_ne by congruence. exists x. by split_and!. Qed.
Lemma rows_by_detach late T f : detaching f → rows_by late T (f <$> T).
Proof.
  intros Hf j x Hl Hj. exists (f x). rewrite lookup_fmap, Hj. destruct (Hf x) as [? ->]. by split_and!.
Qed.

Lemma rows_by_trans late T1 T2 T3 : rows_by late T1 T2 → rows_by late T2 T3 → rows_by late T1 T3.
Proof.
  intros H1 H2 id t Hl Ht. destruct (H1 _ _ Hl Ht) as (t1 & Ht1 & Hi1 & HR1). destruct (H2 _ _ Hl Ht1) as (t2 & Ht2 & Hi2 & HR2).
  exists t2. split_and!; [done|by etrans|by etrans].
Qed.

Lemma rows_by_refl late T : rows_by late T T.
Proof. intros id t Hl Ht. exists t. by split_and!. Qed.

Hypothesis R_life : ∀ k k', life k k' → R k k'.
Hypothesis R_claim : ∀ k tok ex, k_claimable k = true →
  R k (MkCore TRunning (k_barrier k) (k_attempts k + 1) (k_max k) (Some tok) (Some ex)).

Lemma row_step_by late T T' : row_step T T' → rows_by late T T'.
Proof.
  intros [id t t' Ht Hid Hk|id t t' Ht Hid Hl _|id t t' tok ex Ht Hid _ Hc _ Hk];
    eapply rows_by_insert; eauto; rewrite Hk; [done|by apply (R_claim (core_of t))].
Qed.

Lemma row_steps_by late T T' : rtc row_step T T' → rows_by late T T'.
Proof. induction 1; [apply rows_by_refl|]. by eapply rows_by_trans; [apply row_step_by|]. Qed.
End per_row.

(** A finished turn stays as it is; a reviewed one may be resolved as failed. *)
Definition finished_by (k k' : core) : Prop :=
  terminal_turn (k_state k) = true →
  k' = k ∨ (k_state k = TRecoveryRequired ∧ k' = MkCore TFailed (k_barrier k) (k_attempts k) (k_max k)
                                                 (k_token k) (k_expires k)).

#[export] Instance finished_by_preorder : PreOrder finished_by.
Proof.
  split; [by left|]. intros k1 k2 k3 H1 H2 Ht. destruct (H1 Ht) as [->|[Hr ->]]; [by apply H2|].
  destruct (H2 eq_refl) as [->|[[=] _]]. by right.
Qed.

Lemma life_finished k k' : life k k' → finished_by k k'.
Proof. life_cases; try done. intros _. by right. Qed.

Lemma claim_finished k tok ex :
  k_claimable k = true →
  finished_by k (MkCore TRunning (k_barrier k) (k_attempts k + 1) (k_max k) (Some tok) (Some ex)).
Proof.
  unfold k_claimable. rewrite andb_true_iff. intros [Hq%bool_decide_eq_true _]. unfold finished_by. by rewrite Hq.
Qed.

(** The barrier, once crossed, stays. *)
Definition barrier_by (k k' : core) : Prop := k_barrier k = true → k_barrier k' = true.

#[export] Instance barrier_by_preorder : PreOrder barrier_by.
Proof. split; [by intros ? ?|]. intros ??? H1 H2 ?. by apply H2, H1. Qed.

Lemma life_barrier_by k k' : life k k' → barrier_by k k'.
Proof. life_cases; unfold barrier_by; simpl; done. Qed.

(** A queued turn without attempts left stays, unless the user stops it. *)
Definition stranded (k : core) : Prop := k_state k = TQueued ∧ k_max k <= k_attempts k.
Definition stranded_by (k k' : core) : Prop :=
  (stranded k → k' = k ∨ (k_state k' = TCancelled ∧ k_attempts k' = k_attempts k)) ∧ finished_by k k'.

#[export] Instance stranded_by_preorder : PreOrder stranded_by.
Proof.
  split; [split; [by left|done]|]. intros k1 k2 k3 [H1 H1'] [H2 H2']. split; [|by etrans].
  intros Hs. destruct (H1 Hs) as [->|[Hc Ha]]; [by apply H2|]. right.
  destruct (H2' ltac:(by rewrite Hc)) as [->|[Hr _]]; [done|congruence].
Qed.

Lemma life_stranded k k' : life k k' → stranded_by k k'.
Proof.
  intros Hl. split; [|by apply life_finished]. revert Hl. life_cases; intros [[=] ?]. by right.
Qed.

Lemma claim_stranded k tok ex :
  k_claimable k = true →
  stranded_by k (MkCore TRunning (k_barrier k) (k_attempts k + 1) (k_max k) (Some tok) (Some ex)).
Proof.
  intros Hc. split; [|by apply claim_finished]. intros [_ Hm]. unfold k_claimable in Hc.
  apply andb_true_iff in Hc as [_ Hc%Z.ltb_lt]. lia.
Qed.

(** * Turns: triples over the table

    Which statements leave the table alone ([quiet]), and triples over the table for the others
    ([runs]): the effect of a [write] on the row, and of a whole transaction. *)
Local Open Scope Z_scope.

(** ** What a write changes *)

Definition set_core (k : core) (f : field) : core :=
  MkCore (match f with FState x => x | _ => k_state k end)
    (match f with FWriteBarrier x => x | _ => k_barrier k end)
    (match f with FAttemptCount x => x | _ => k_attempts k end)
    (match f with FMaxAttempts x => x | _ => k_max k end)
    (match f with FLeaseToken x => x | _ => k_token k end)
    (match f with FLeaseExpiresAt x => x | _ => k_expires k end).
Definition set_cores (fs : list field) (k : core) : core := foldl set_core k fs.

Lemma set_fields_core fs t : core_of (set_fields fs t) = set_cores fs (core_of t).
Proof.
  revert t. induction fs as [|f fs IH]; intros t; [done|]. simpl. unfold set_fields, set_cores in *. simpl.
  rewrite IH. by destruct f.
Qed.

Lemma set_fields_ident fs t : ident (set_fields fs t) = ident t.
Proof. revert t. induction fs as [|f fs IH]; intros t; [done|]. unfold set_fields in *. simpl. by rewrite IH. Qed.

Lemma set_fields_failure fs v t : core_of (set_fields (fs ++ [FFailure v]) t) = core_of (set_fields fs t).
Proof. rewrite !set_fields_core. unfold set_cores. rewrite foldl_app. by destruct (foldl set_core (core_of t) fs). Qed.

Lemma attempts_valid_core t : attempts_valid t = true → k_valid (core_of t).
Proof. unfold attempts_valid, k_valid. simpl. rewrite !andb_true_iff, !Z.leb_le. lia. Qed.

(** ** Statements that leave the table alone *)

(** The table is the same, and the identifiers given out stay given out. *)
Definition same_turns (s s' : db) : Prop := d_turns s' = d_turns s ∧ d_next s <= d_next s'.
#[export] Instance same_turns_preorder : PreOrder same_turns.
Proof. split; [done|]. unfold same_turns. intros ??? [??] [??]. split; [congruence|lia]. Qed.

Lemma quiet_modify f :
  (∀ s, same_turns s (f s)) → keeps same_turns (modify f : TS unit).
Proof. intros Hf s. apply Hf. Qed.
#[export] Hint Extern 1 (keeps same_turns (modify _)) =>
  apply quiet_modify; intros ?; split; simpl; [reflexivity|lia] : keeps.

Abbreviation quiet := (keeps same_turns).

Lemma quiet_gets_bind {A B} (f : db → A) (g : A → TS B) :
  (∀ a, quiet (g a)) → quiet (gets f ≫= g).
Proof. intros Hg. apply keeps_bind; [apply _|apply keeps_gets; apply _|done]. Qed.

Lemma quiet_transaction {A} (m : TS A) : quiet m → quiet (transaction m).
Proof. intros Hm s. specialize (Hm s). unfold transaction. by destruct (m s) as [[a|e] s']. Qed.

Lemma quiet_fmap {A B} (f : A → B) (m : TS A) : quiet m → quiet (f <$> m).
Proof. intros Hm s. specialize (Hm s). unfold fmap, ST_fmap. by destruct (m s) as [[a|e] s']. Qed.

#[export] Hint Resolve quiet_transaction quiet_fmap : keeps.

Section quiet_statements.
Context `{TurnHost}.

Lemma quiet_outside {A} (f : nat → A) : quiet (outside f).
Proof. unfold outside. solve_keeps. Qed.
Lemma quiet_get id : quiet (get_turn id).
Proof. unfold get_turn. solve_keeps. Qed.
Hint Resolve quiet_outside quiet_get : keeps.
Lemma quiet_now : quiet now.
Proof. apply quiet_outside. Qed.
Lemma quiet_next_id : quiet next_id.
Proof. unfold next_id. solve_keeps. Qed.
Lemma quiet_wake : quiet wake.
Proof. unfold wake. solve_keeps. Qed.
Hint Resolve quiet_now quiet_next_id quiet_wake : keeps.
Lemma quiet_event id e d : quiet (append_event id e d).
Proof. unfold append_event. solve_keeps. Qed.
Lemma quiet_message m : quiet (create_message m).
Proof. unfold create_message. solve_keeps. Qed.
Lemma quiet_touch c : quiet (touch_conversation c).
Proof. unfold touch_conversation. solve_keeps. Qed.
Lemma quiet_mark id t : quiet (_mark_turn_failure id t).
Proof. unfold _mark_turn_failure. solve_keeps. Qed.
Lemma quiet_overlay t fs : quiet (failure_overlay t fs).
Proof. unfold failure_overlay. solve_keeps. Qed.
Lemma quiet_control id t : quiet (_control_for_turn id t).
Proof. unfold _control_for_turn. solve_keeps. Qed.
Lemma quiet_request id c : quiet (request_cancel id c).
Proof. unfold request_cancel. solve_keeps. Qed.
Lemma quiet_is_requested id t : quiet (cancel_is_requested id t).
Proof. unfold cancel_is_requested, _control_cancel_requested_in_env. solve_keeps. Qed.
Lemma quiet_all_rolled id : quiet (_all_turn_effects_rolled_back id).
Proof. unfold _all_turn_effects_rolled_back. solve_keeps. Qed.
Lemma quiet_status id : quiet (browser_status id).
Proof. unfold browser_status. solve_keeps. Qed.
Lemma quiet_requested_status id : quiet (cancel_requested_status id).
Proof. unfold cancel_requested_status. solve_keeps. Qed.
Lemma quiet_independent t content : quiet (_persist_independent_interrupted_message t content).
Proof. unfold _persist_independent_interrupted_message. solve_keeps. Qed.
Lemma quiet_owned c v : quiet (_owned_turn c v).
Proof. unfold _owned_turn. solve_keeps. Qed.
Lemma quiet_owned_conversation c v : quiet (_owned_conversation c v).
Proof. unfold _owned_conversation. solve_keeps. Qed.
Lemma quiet_snapshot id t : quiet (runtime_control_snapshot id t).
Proof. unfold runtime_control_snapshot. solve_keeps. Qed.
End quiet_statements.

#[export] Hint Resolve quiet_outside quiet_get quiet_now quiet_next_id quiet_wake quiet_event
  quiet_message quiet_touch quiet_mark quiet_overlay quiet_control quiet_request quiet_is_requested
  quiet_all_rolled quiet_status quiet_requested_status quiet_independent quiet_owned
  quiet_owned_conversation quiet_snapshot : keeps.

Lemma quiet_current `{TurnHost} id : quiet (_ensure_turn_control_current id).
Proof. unfold _ensure_turn_control_current. solve_keeps. Qed.
#[export] Hint Resolve quiet_current : keeps.

(** ** Triples *)

(** From a table in [Φ], [m] returns a value and a table in [Ψ], or raises; identifiers given
    out stay given out. *)
Definition runs {A} (Φ : table → Prop) (m : TS A) (Ψ : A → table → Prop) : Prop :=
  ∀ n, hoare (λ s, Φ (d_turns s) ∧ n <= d_next s) m (λ a s, Ψ a (d_turns s) ∧ n <= d_next s)
    (λ _, True).

(** Row [id] now has the core [k]; the steps from [T0] changed no other row. *)
Definition at_row (T0 : table) (id : Z) (k : core) (T : table) : Prop :=
  rtc row_step T0 T ∧ (∃ t, T !! id = Some t ∧ core_of t = k) ∧ ∀ j, j ≠ id → T !! j = T0 !! j.

Lemma runs_ret {A} (Φ : table → Prop) (Ψ : A → table → Prop) a :
  (∀ T, Φ T → Ψ a T) → runs Φ (mret a) Ψ.
Proof. intros HΨ n. apply hoare_ret. intros s [??]. split; [by apply HΨ|done]. Qed.

Lemma runs_raise {A} Φ (Ψ : A → table → Prop) e : runs Φ (raise e) Ψ.
Proof. intros n. by apply hoare_raise. Qed.

Lemma runs_bind {A B} Φ (Ψ : A → table → Prop) (Ξ : B → table → Prop) (m : TS A) f :
  runs Φ m Ψ → (∀ a, runs (Ψ a) (f a) Ξ) → runs Φ (m ≫= f) Ξ.
Proof. intros Hm Hf n. eapply hoare_bind; [exact (Hm n)|intros a; exact (Hf a n)]. Qed.

Lemma runs_bind_lift {A B} Φ (Ξ : B → table → Prop) (r : result turn_exn A) f :
  (∀ a, r = Ok a → runs Φ (f a) Ξ) → runs Φ (lift r ≫= f) Ξ.
Proof. intros Hf n. apply hoare_bind_lift; [done|]. intros a Ha. exact (Hf a Ha n). Qed.

Lemma runs_bind_gets {A B} Φ (Ξ : B → table → Prop) (g : db → A) f :
  (∀ s, Φ (d_turns s) → runs (λ T, T = d_turns s) (f (g s)) Ξ) → runs Φ (gets g ≫= f) Ξ.
Proof. intros Hf n s [Hs Hn]. rewrite ST_bind_at. simpl. by apply (Hf s Hs n s). Qed.

Lemma runs_post {A} Φ (Ψ Ψ' : A → table → Prop) m :
  runs Φ m Ψ → (∀ a T, Ψ a T → Ψ' a T) → runs Φ m Ψ'.
Proof.
  intros Hm HΨ n. eapply hoare_conseq; [exact (Hm n)|done|intros ?? [??]; split; [by apply HΨ|done]|done].
Qed.

Lemma runs_pre {A} (Φ Φ' : table → Prop) (Ψ : A → table → Prop) m :
  runs Φ' m Ψ → (∀ T, Φ T → Φ' T) → runs Φ m Ψ.
Proof.
  intros Hm HΦ n. eapply hoare_conseq; [exact (Hm n)|intros ? [??]; split; [by apply HΦ|done]|done..].
Qed.

Lemma runs_each {A} Φ (Ψ : A → table → Prop) m :
  (∀ T, Φ T → runs (λ T', T' = T) m Ψ) → runs Φ m Ψ.
Proof. intros Hm n s [Hs Hn]. by apply (Hm _ Hs). Qed.

Lemma runs_quiet {A} Φ (m : TS A) : quiet m → runs Φ m (λ _, Φ).
Proof.
  intros Hm n s [Hs Hn]. destruct (Hm s) as [HT HN]. destruct (m s) as [[a|e] s']; simpl in *; [|done].
  rewrite HT. split; [done|lia].
Qed.

Lemma runs_bind_quiet {A B} Φ (Ξ : B → table → Prop) (m : TS A) f :
  quiet m → (∀ a, runs Φ (f a) Ξ) → runs Φ (m ≫= f) Ξ.
Proof. intros Hm Hf. eapply runs_bind; [by apply runs_quiet|done]. Qed.

(** A validated result of a quiet statement. *)
Lemma runs_bind_yields {A B} Φ (Q : A → Prop) (Ξ : B → table → Prop) (m : TS A) f :
  quiet m → yields Q (λ _, True) m → (∀ a, Q a → runs Φ (f a) Ξ) → runs Φ (m ≫= f) Ξ.
Proof.
  intros Hm HQ Hf n s [Hs Hn]. rewrite ST_bind_at. destruct (Hm s) as [HT HN]. specialize (HQ s).
  destruct (m s) as [[a|e] s']; simpl in *; [|done]. apply Hf; [done|]. rewrite HT. split; [done|lia].
Qed.

Section rows_of_the_table.
Context `{TurnHost} (T0 : table) (id : Z).

Lemma at_row_start t : T0 !! id = Some t → at_row T0 id (core_of t) T0.
Proof. intros Ht. split_and!; [done|by eexists|done]. Qed.

Lemma at_row_rtc k T : at_row T0 id k T → rtc row_step T0 T.
Proof. by intros []. Qed.

Lemma runs_read {B} (Ξ : B → table → Prop) f :
  (T0 !! id = None → runs (λ T, T = T0) (f None) Ξ) →
  (∀ t, T0 !! id = Some t → runs (at_row T0 id (core_of t)) (f (Some t)) Ξ) →
  runs (λ T, T = T0) (get_turn id ≫= f) Ξ.
Proof.
  intros Hnone Hsome n s [Hs Hn]. rewrite ST_bind_at. unfold get_turn, gets. rewrite Hs.
  destruct (T0 !! id) as [t|] eqn:E.
  - apply (Hsome t eq_refl n). rewrite Hs. split; [by apply at_row_start|done].
  - by apply Hnone.
Qed.

Lemma runs_reread {B} k (Ξ : B → table → Prop) f :
  (∀ t, core_of t = k → runs (at_row T0 id k) (f (Some t)) Ξ) →
  runs (at_row T0 id k) (get_turn id ≫= f) Ξ.
Proof.
  intros Hf n s [Hs Hn]. pose proof Hs as (_ & (t & Ht & Hk) & _). rewrite ST_bind_at. unfold get_turn, gets.
  rewrite Ht. by apply (Hf t Hk).
Qed.

(** The overlays only touch the failure payload. *)
Lemma overlay_fields t fs :
  yields (λ fs', fs' = fs ∨ ∃ v, fs' = fs ++ [FFailure v]) (λ _, True) (failure_overlay t fs).
Proof.
  unfold failure_overlay.
  repeat first [ case_match | apply (yields_bind _ (λ _, True)); [apply yields_any|intros ? _]
               | apply yields_ret; eauto ].
Qed.

Lemma overlay_core t fs fs' :
  fs' = fs ∨ (∃ v, fs' = fs ++ [FFailure v]) → core_of (set_fields fs' t) = set_cores fs (core_of t).
Proof. intros [->|[v ->]]; [|rewrite set_fields_failure]; apply set_fields_core. Qed.

Lemma update_turn_at s t fs :
  d_turns s !! id = Some t →
  update_turn id fs s =
    if attempts_valid (set_fields fs t)
    then (Ok (set_fields fs t), with_turns <[id := set_fields fs t]> s) else (Err IntegrityError, s).
Proof.
  intros Ht. unfold update_turn. rewrite ST_bind_at. unfold get_turn, gets. rewrite Ht, ST_bind_lift. simpl.
  rewrite ST_bind_lift. by destruct (attempts_valid (set_fields fs t)).
Qed.

Lemma runs_update {A} k fs k' (Ξ : A → table → Prop) f :
  (∀ t, core_of t = k → core_of (set_fields fs t) = k') →
  k' = k ∨ life k k' →
  (∀ t', runs (at_row T0 id k') (f t') Ξ) →
  runs (at_row T0 id k) (update_turn id fs ≫= f) Ξ.
Proof.
  intros Hk' Hstep Hf. eapply runs_bind; [|exact Hf].
  intros n s [(Hrtc & (t & Ht & Hk) & Hothers) Hn]. rewrite (update_turn_at s t fs Ht).
  destruct (attempts_valid (set_fields fs t)) eqn:Hvalid; [|done].
  apply attempts_valid_core in Hvalid. pose proof (Hk' t Hk) as Hkt. simpl.
  split; [split_and!|done].
  - eapply rtc_r; [exact Hrtc|]. destruct Hstep as [->|Hlife].
    + eapply step_note; [exact Ht|apply set_fields_ident|congruence].
    + eapply step_life; [exact Ht|apply set_fields_ident|by rewrite Hk, Hkt|done].
  - eexists. split; [apply lookup_insert_eq|done].
  - intros j Hj. rewrite lookup_insert_ne by done. by apply Hothers.
Qed.

Lemma runs_write k fs :
  set_cores fs k = k ∨ life k (set_cores fs k) →
  runs (at_row T0 id k) (write id fs) (λ _, at_row T0 id (set_cores fs k)).
Proof.
  intros Hstep. unfold write. apply runs_reread. intros t Hk. apply runs_bind_lift. intros ? _.
  eapply runs_bind_yields; [apply quiet_overlay|apply (overlay_fields _ fs)|]. intros fs' Hfs.
  eapply (runs_update _ _ (set_cores fs k)); [intros t' <-; by apply overlay_core|done|]. intros t'.
  apply runs_quiet. repeat case_match; solve_keeps.
Qed.

(** The write of a table that is known. *)
Lemma runs_write_from fs :
  runs (λ T, T = T0) (write id fs) (λ _ T, ∃ t t', T0 !! id = Some t ∧ T = <[id := t']> T0 ∧
    ident t' = ident t ∧ core_of t' = set_cores fs (core_of t)).
Proof.
  unfold write. intros n s [Hs Hn]. rewrite ST_bind_at. unfold get_turn at 1, gets. rewrite Hs.
  destruct (T0 !! id) as [t|] eqn:Ht; [|done]. rewrite ST_bind_lift. simpl.
  revert n s Hs Hn. cut (runs (λ T, T = T0) (fs' ← failure_overlay t fs; t' ← update_turn id fs';
    match written_state fs with
    | Some (TFailed | TRecoveryRequired | TCancelled) =>
        if t_write_barrier t' then _mark_turn_failure id t' else mret tt
    | _ => mret tt
    end) (λ _ T, ∃ t0 t', Some t = Some t0 ∧ T = <[id := t']> T0 ∧
    ident t' = ident t0 ∧ core_of t' = set_cores fs (core_of t0)));
  [intros Hr n s Hs Hn; by apply (Hr n s)|].
  eapply runs_bind_yields; [apply quiet_overlay|apply (overlay_fields _ fs)|]. intros fs' Hfs.
  apply (runs_bind _ (λ _ T, T = <[id := set_fields fs' t]> T0)).
  - intros n s [Hs Hn]. rewrite (update_turn_at s t) by by rewrite Hs.
    destruct (attempts_valid _); [|done]. simpl. by rewrite Hs.
  - intros t'. eapply runs_post; [apply runs_quiet; repeat case_match; solve_keeps|].
    intros ? T ->. exists t, (set_fields fs' t). split_and!; [done..|apply set_fields_ident|].
    by apply overlay_core.
Qed.
End rows_of_the_table.

(** A note on the row keeps its core. *)
Lemma runs_note `{TurnHost} T0 id k fs :
  set_cores fs k = k → runs (at_row T0 id k) (write id fs) (λ _, at_row T0 id k).
Proof. intros Hk. eapply runs_post; [by apply runs_write; left|]. intros ? T. by rewrite Hk. Qed.

Lemma runs_life `{TurnHost} T0 id k fs k' :
  set_cores fs k = k' → life k k' → runs (at_row T0 id k) (write id fs) (λ _, at_row T0 id k').
Proof. intros <- Hlife. apply runs_write. by right. Qed.

(** Walks a statement up to its next write; the leaf is a quiet statement. *)
Ltac runs_walk :=
  repeat first
    [ progress cbv beta
    | match goal with
      | |- runs _ (lift _ ≫= _) _ => apply runs_bind_lift; intros ? ?
      | |- runs _ (get_turn _ ≫= _) _ => apply runs_reread; intros ? ?
      | |- runs _ (raise _) _ => apply runs_raise
      | |- runs _ (get_turn _ ≫= _) _ => fail 1
      | |- runs _ (_ ≫= _) _ => apply runs_bind_quiet; [solve [solve_keeps]|intros ?]
      | |- runs ?Φ _ (λ _, ?Φ) => apply runs_quiet; solve [solve_keeps]
      | |- runs _ (match ?x with _ => _ end) _ => destruct x eqn:?
      end ].

(** A transaction that raises changes nothing. *)
Lemma transaction_cases {A} (m : TS A) Ψ s :
  runs (λ T, T = d_turns s) m Ψ →
  (d_turns (transaction m s).2 = d_turns s ∨ ∃ a, Ψ a (d_turns (transaction m s).2)) ∧
  d_next s <= d_next (transaction m s).2.
Proof.
  intros Hm. specialize (Hm (d_next s) s ltac:(done)). unfold transaction.
  destruct (m s) as [[a|e] s']; [destruct Hm; split; [by right; exists a|done]|by split; [left|]].
Qed.

(** What an operation on existing rows does to the store. *)
Definition advances (s s' : db) : Prop := rtc row_step (d_turns s) (d_turns s') ∧ d_next s <= d_next s'.

(** A transaction of steps on the rows is a sequence of steps. *)
Lemma transaction_steps {A} (m : TS A) s :
  runs (λ T, T = d_turns s) m (λ _, rtc row_step (d_turns s)) → advances s (transaction m s).2.
Proof.
  intros Hm. destruct (transaction_cases m _ s Hm) as [[HT|[_ HT]] Hn]; (split; [|done]); [by rewrite HT|done].
Qed.

Lemma quiet_steps {A} (m : TS A) s : quiet m → advances s (m s).2.
Proof. intros Hm. destruct (Hm s) as [HT Hn]. split; [by rewrite HT|done]. Qed.

Section finalize.
Context `{TurnHost} (T0 : table) (id : Z) (k : core).

Lemma runs_finalize t :
  runs (at_row T0 id k) (_finalize_interrupted_answer id t) (λ _, at_row T0 id k).
Proof.
  unfold _finalize_interrupted_answer, finalize_from_live. runs_walk.
  - eapply runs_bind; [by apply runs_note; destruct k|intros ?]. runs_walk.
  - eapply runs_bind; [apply runs_note; by destruct k, (t_result t)|intros ?]. runs_walk.
Qed.
End finalize.
