(* ===== verification/TurnSteps.v ===== *)
(** * Turns: the transactions refine the specification

    Every transaction of the queue, of the control of a turn and of the worker takes the table by
    steps of [TurnSpec].  The invariants of the table therefore hold after any interleaving. *)
From S2P Require Import Prelude PyText PyValue Failure TurnStore TurnQueue TurnControl TurnJournal TurnSpec.
Local Open Scope Z_scope.

(** What the lease of a row says of its state. *)
Lemma leased_active T id t tok t' :
  table_ok T → T !! id = Some t → leased (Some t) tok = Some t' →
  t' = t ∧ t_lease_token t = Some tok ∧ (t_state t = TRunning ∨ t_state t = TCancelRequested).
Proof.
  intros Hok Ht. unfold leased. simpl. case_bool_decide as Htok; [|done]. intros [= <-].
  split_and!; [done..|]. pose proof (ok_rows _ Hok _ _ Ht) as [_ _ Hr].
  destruct (k_active (core_of t)) eqn:E; [by apply bool_decide_eq_true in E|].
  destruct (Hr eq_refl) as [Hr' _]. simpl in Hr'. congruence.
Qed.

(** Concrete cores: the state of the row is known. *)
Ltac core_steps :=
  repeat match goal with
  | H : t_state ?t = _ |- context [core_of ?t] => unfold core_of; rewrite ?H
  end; cbn.

Lemma runs_to_steps {A} T0 id k (m : TS A) (Ψ : A → table → Prop) :
  runs (at_row T0 id k) m Ψ → (∀ a T, Ψ a T → rtc row_step T0 T) →
  runs (at_row T0 id k) m (λ _, rtc row_step T0).
Proof. intros Hm HΨ. eapply runs_post; [exact Hm|done]. Qed.

Section steps.
Context `{TurnHost}.

(** The end of a transaction that changed nothing, or one row. *)
Lemma runs_nothing {A} T0 (m : TS A) : quiet m → runs (λ T, T = T0) m (λ _, rtc row_step T0).
Proof. intros Hm. eapply runs_post; [by apply runs_quiet|]. by intros ?? ->. Qed.
Lemma runs_row {A} T0 id k (m : TS A) : quiet m → runs (at_row T0 id k) m (λ _, rtc row_step T0).
Proof. intros Hm. eapply runs_post; [by apply runs_quiet|]. intros ? T. apply at_row_rtc. Qed.

Lemma runs_then {A B} T0 id k k' (m : TS A) (m' : TS B) :
  runs (at_row T0 id k) m (λ _, at_row T0 id k') → quiet m' →
  runs (at_row T0 id k) (m;; m') (λ _, rtc row_step T0).
Proof. intros Hm Hm'. eapply runs_bind; [exact Hm|]. intros ?. by apply runs_row. Qed.

Lemma runs_write_last T0 id k fs :
  set_cores fs k = k ∨ life k (set_cores fs k) →
  runs (at_row T0 id k) (write id fs) (λ _, rtc row_step T0).
Proof. intros Hk. eapply runs_post; [by apply runs_write|]. intros ? T. apply at_row_rtc. Qed.

(** The active turn a worker or a recovery ends. *)
Definition is_active (t : turn) : Prop := t_state t = TRunning ∨ t_state t = TCancelRequested.

Lemma end_life t y fs :
  is_active t → terminal_turn y = true → (y = TFailed → t_write_barrier t = false) →
  (y = TRecoveryRequired → t_write_barrier t = true) →
  set_cores fs (core_of t) = MkCore y (t_write_barrier t) (t_attempt_count t) (t_max_attempts t) None None →
  set_cores fs (core_of t) = core_of t ∨ life (core_of t) (set_cores fs (core_of t)).
Proof. intros Ha Hy Hf Hr ->. right. by apply life_end. Qed.

Lemma retry_life t fs :
  is_active t → t_write_barrier t = false → t_attempt_count t < t_max_attempts t →
  set_cores fs (core_of t) = MkCore TQueued (t_write_barrier t) (t_attempt_count t) (t_max_attempts t) None None →
  set_cores fs (core_of t) = core_of t ∨ life (core_of t) (set_cores fs (core_of t)).
Proof. intros Ha Hb Hlt ->. right. unfold core_of. rewrite Hb. by apply life_retry. Qed.

Lemma runs_cancelled T0 id t :
  is_active t →
  runs (at_row T0 id (core_of t)) (write_cancelled id)
    (λ _, at_row T0 id (MkCore TCancelled (t_write_barrier t) (t_attempt_count t) (t_max_attempts t) None None)).
Proof. intros Ha. unfold write_cancelled. runs_walk. eapply runs_life; [done|by apply life_end]. Qed.

(** A leased turn: nothing happens when the lease is lost. *)
Lemma runs_leased {A} T0 id tok (m : TS A) (f : turn → TS A) :
  table_ok T0 → quiet m →
  (∀ t, T0 !! id = Some t → is_active t → t_lease_token t = Some tok →
     runs (at_row T0 id (core_of t)) (f t) (λ _, rtc row_step T0)) →
  runs (λ T, T = T0) (o ← get_turn id; match leased o tok with None => m | Some t => f t end)
    (λ _, rtc row_step T0).
Proof.
  intros Hok Hnone Hsome. apply runs_read.
  - intros _. by apply runs_nothing.
  - intros t Ht. destruct (leased (Some t) tok) as [t'|] eqn:Hl; [|by apply runs_row].
    destruct (leased_active _ _ _ _ _ Hok Ht Hl) as (-> & Htok & Hact). by apply Hsome.
Qed.

Lemma runs_requested {B} Φ (Ξ : B → table → Prop) id t f :
  is_active t → runs Φ (f true) Ξ → (t_state t = TRunning → runs Φ (f false) Ξ) →
  runs Φ (cancel_is_requested id t ≫= f) Ξ.
Proof.
  intros Ha Htrue Hfalse. unfold cancel_is_requested, _control_cancel_requested_in_env.
  destruct Ha as [Ha|Ha]; rewrite Ha; simpl; [|exact Htrue].
  apply runs_bind_quiet; [solve_keeps|]. intros []; [done|by apply Hfalse].
Qed.

(** A cancelled worker's turn. *)
Lemma runs_cancel {A} T0 id t (m : TS A) :
  is_active t → quiet m →
  runs (at_row T0 id (core_of t))
    (_finalize_interrupted_answer id t;; write_cancelled id;; m) (λ _, rtc row_step T0).
Proof.
  intros Ha Hm. eapply runs_bind; [apply runs_finalize|intros ?].
  eapply runs_then; [by apply runs_cancelled|done].
Qed.

Lemma core_active t t' : core_of t' = core_of t → is_active t → is_active t'.
Proof. intros Hk. unfold is_active. injection Hk as -> _ _ _ _ _. done. Qed.

(** The turn of a worker goes back to the queue. *)
Lemma runs_requeue {A} T0 id k t extra (m : TS A) :
  core_of t = k → is_active t → t_write_barrier t = false → t_attempt_count t < t_max_attempts t →
  (∀ k', set_cores extra k' = k') → quiet m →
  runs (at_row T0 id k) (requeue id extra;; m) (λ _, rtc row_step T0).
Proof.
  intros <- Ha Hb Hlt Hextra Hm. unfold requeue. eapply runs_then; [|done].
  runs_walk. eapply runs_life; [|unfold core_of; rewrite Hb; by apply life_retry].
  unfold set_cores. simpl. rewrite <- Hb. exact (Hextra _).
Qed.

Lemma cancel_steps id tok s :
  table_ok (d_turns s) → advances s (cancel_transaction id tok s).2.
Proof.
  intros Hok. apply transaction_steps, runs_leased; [done|solve_keeps|].
  intros t Ht Ha _. apply runs_cancel; [done|solve_keeps].
Qed.

(** The end of a failed turn: a retry, or a final state chosen by the barrier. *)
Lemma runs_settle {A} T0 id k t fs (m : turn_state → TS A) :
  core_of t = k → is_active t → (∀ k', set_cores fs k' = k') → (∀ x, quiet (m x)) →
  let target_state := if t_write_barrier t then TRecoveryRequired else TFailed in
  runs (at_row T0 id k)
    (n ← now; write id (FState target_state :: fs ++ FCompletedAt (Some n) :: released);; m target_state)
    (λ _, rtc row_step T0).
Proof.
  intros <- Ha Hfs Hm target. runs_walk. eapply runs_then; [|done].
  eapply runs_life; [|eapply (life_end _ target)]; [|done|by unfold target; case_match|..].
  - unfold set_cores. simpl. rewrite foldl_app. fold (set_cores fs (set_core (core_of t) (FState target))).
    rewrite Hfs. simpl. done.
  - unfold target. by case_match.
  - unfold target. by case_match.
Qed.

Lemma fail_steps id tok code s :
  table_ok (d_turns s) → advances s (fail_transaction id tok code s).2.
Proof.
  intros Hok. apply transaction_steps, runs_leased; [done|solve_keeps|]. intros t Ht Ha _.
  apply runs_requested; [done|apply runs_cancel; [done|solve_keeps]|]. intros Hrun.
  eapply (runs_bind _ (λ _ T, ∃ k, k_state k = TRunning ∧ at_row (d_turns s) id k T)).
  - destruct (_ && _) eqn:Hc; [|by apply runs_ret; intros T HT; exists (core_of t)]. result_inv.
    eapply runs_post; [apply runs_write; right|intros ? T HT; eexists; split; [|exact HT]; done].
    unfold core_of. cbn. rewrite Hrun. replace (t_write_barrier t) with false by done. apply life_ceiling. lia.
  - intros ?. apply runs_each. intros T (k & Hk & HT). apply (runs_pre _ (at_row (d_turns s) id k)); [|by intros ? ->].
    clear T HT. apply runs_reread. intros t' <-. apply runs_bind_lift. intros ? [= <-].
    assert (is_active t') as Ha' by (by left). destruct (_ && _) eqn:Hc; result_inv.
    + eapply runs_requeue; try done; lia.
    + eapply (runs_settle _ _ _ _ [FErrorCode (Some code)] (λ x, mret (Settled x)));
        [done|done|by intros []|intros ?; solve_keeps].
Qed.
Lemma fail_with_failure_steps id tok carried code s :
  table_ok (d_turns s) →
  advances s (fail_with_failure_transaction id tok carried code s).2.
Proof.
  intros Hok. apply transaction_steps, runs_leased; [done|solve_keeps|]. intros t Ht Ha _.
  apply runs_requested; [done| |].
  - eapply runs_bind; [apply runs_finalize|intros ?]. runs_walk.
    eapply runs_then; [|solve_keeps]. eapply runs_life; [done|by apply life_end].
  - intros Hrun. runs_walk; result_inv.
    + eapply runs_requeue; try done; [lia|by intros []].
    + eapply (runs_settle _ _ _ _ [FErrorCode (Some code); FFailure _] (λ x, mret (Settled x)));
        [done|done|by intros []|intros ?; solve_keeps].
Qed.

(** ** Control *)

Lemma core_state t t' : core_of t' = core_of t → t_state t' = t_state t.
Proof. by intros [=]. Qed.

(** A statement that leaves the table alone, after it. *)
Lemma runs_bind_done {A B} T0 Φ (m : TS A) (f : A → TS B) :
  runs Φ m (λ _, rtc row_step T0) → (∀ a, quiet (f a)) → runs Φ (m ≫= f) (λ _, rtc row_step T0).
Proof. intros Hm Hf. eapply runs_bind; [exact Hm|]. intros a. by apply runs_quiet. Qed.

Lemma runs_cancel_queue T0 id k :
  k_state k = TQueued → runs (at_row T0 id k) (cancel_queue id) (λ _, rtc row_step T0).
Proof.
  intros Hk. unfold cancel_queue. apply runs_reread. intros t <-. apply runs_bind_lift. intros ? [= <-].
  change (t_state t = TQueued) in Hk. rewrite Hk. apply runs_bind_done; [|solve_keeps].
  replace (terminal_turn TQueued) with false by done. rewrite bool_decide_eq_true_2 by done.
  runs_walk. eapply runs_then; [|solve_keeps].
  eapply runs_life; [done|]. unfold core_of. rewrite Hk. apply life_stop.
Qed.

Lemma runs_cancel_awaiting T0 id t :
  t_state t = TAwaiting → runs (at_row T0 id (core_of t)) (cancel_awaiting id t) (λ _, rtc row_step T0).
Proof.
  intros Hk. unfold cancel_awaiting. runs_walk. eapply runs_bind.
  - eapply runs_life; [done|]. unfold core_of. rewrite Hk. apply life_decline. by right.
  - intros ?. apply runs_reread. intros t' _. apply runs_bind_lift. intros ? [= <-].
    eapply runs_bind; [apply runs_finalize|]. intros ?. apply runs_row. solve_keeps.
Qed.

Lemma runs_cancel_control T0 id k : runs (at_row T0 id k) (cancel_control id) (λ _, rtc row_step T0).
Proof.
  unfold cancel_control. apply runs_reread. intros t <-. apply runs_bind_lift. intros ? [= <-].
  apply runs_bind_quiet; [solve_keeps|]. intros [|]; [apply runs_row; solve_keeps|].
  destruct (terminal_turn _); [apply runs_row; solve_keeps|].
  case_bool_decide as Hq; [|case_bool_decide as Ha].
  - unfold cancel_scheduler. apply runs_reread. intros t' Hk. apply runs_bind_lift. intros ? [= <-].
    apply runs_bind_done; [by apply runs_cancel_queue|intros ?; solve_keeps].
  - by apply runs_cancel_awaiting.
  - apply runs_row. solve_keeps.
Qed.

Lemma cancel_control_steps c uuid s :
  advances s (cancel_for_current_user c uuid s).2.
Proof.
  apply transaction_steps. unfold cancel_for_current_user. runs_walk. apply runs_read.
  - intros _. by apply runs_bind_lift.
  - intros t Ht. apply runs_bind_lift. intros ? [= <-]. apply runs_bind_quiet; [solve_keeps|]. intros ?.
    apply runs_bind_done; [apply runs_cancel_control|intros ?; solve_keeps].
Qed.

Lemma runs_supersede T0 id t :
  t_state t = TAwaiting → runs (at_row T0 id (core_of t)) (supersede_approval id t) (λ _, rtc row_step T0).
Proof.
  intros Hk. unfold supersede_approval. runs_walk. apply runs_write_last. right.
  unfold core_of. cbn. rewrite Hk. apply life_resume.
Qed.

Lemma redirect_steps c uuid m cid s :
  advances s (redirect_for_current_user c uuid m cid s).2.
Proof.
  apply transaction_steps. unfold redirect_for_current_user. runs_walk. apply runs_read.
  - intros _. by apply runs_bind_lift.
  - intros t Ht. apply runs_bind_lift. intros ? [= <-]. runs_walk; try (apply runs_row; solve [solve_keeps]).
    apply runs_bind_done; [|intros ?; solve_keeps].
    destruct (bool_decide (t_state t = TAwaiting)) eqn:Hw; [|apply runs_row; solve_keeps].
    by apply runs_supersede, (bool_decide_eq_true (t_state t = TAwaiting)).
Qed.

Lemma decide_steps present c id d s :
  advances s (decide_capability_plan_for_current_user present c id d s).2.
Proof.
  apply transaction_steps. unfold decide_capability_plan_for_current_user. runs_walk. apply runs_read.
  - intros _. by apply runs_bind_lift.
  - intros t Ht. apply runs_bind_lift. intros ? [= <-]. apply runs_bind_lift. intros ? Hw. result_inv.
    apply bool_decide_eq_true in Hw. runs_walk.
    + eapply runs_then; [|solve_keeps]. eapply runs_life; [done|]. unfold core_of. rewrite Hw.
      apply life_decline. by left.
    + eapply runs_then; [|solve_keeps]. eapply runs_life; [done|]. unfold core_of. rewrite Hw.
      apply life_resume.
Qed.

(** ** The worker *)

Lemma runs_require {B} T0 lost id tok (f : turn → TS B) Ξ :
  (∀ t, T0 !! id = Some t → t_state t = TRunning → t_lease_token t = Some tok →
     runs (at_row T0 id (core_of t)) (f t) Ξ) →
  runs (λ T, T = T0) (require_lease lost id tok ≫= f) Ξ.
Proof.
  intros Hf n s [Hs Hn]. unfold require_lease, get_turn, gets. rewrite !ST_bind_at, Hs.
  destruct (T0 !! id) as [t|] eqn:E; [|done]. unfold leased. simpl.
  case_bool_decide as Htok; [|done]. simpl. case_bool_decide as Hr; [|done]. simpl.
  apply (Hf t eq_refl Hr Htok n s). rewrite Hs. split; [by apply at_row_start|done].
Qed.

Lemma transcript_steps id tok v s :
  advances s (persist_working_transcript id tok v s).2.
Proof.
  apply transaction_steps, runs_require. intros t Ht _ _. runs_walk. apply runs_write_last. by left.
Qed.

Lemma barrier_steps id tok e w s :
  advances s (before_effect id tok e w s).2.
Proof.
  apply transaction_steps, runs_bind_quiet; [solve_keeps|intros ?]. apply runs_require. intros t Ht Hrun _.
  runs_walk. eapply runs_then; [|solve_keeps]. apply runs_write.
  unfold core_of. rewrite Hrun. cbn. destruct (t_write_barrier t); [by left|right]. apply life_barrier.
Qed.

Lemma quiet_fold {A B} (f : B → A → TS B) b l : (∀ b x, quiet (f b x)) → quiet (foldST f b l).
Proof.
  intros Hf. revert b. induction l as [|x l IH]; intros b; simpl; [apply keeps_ret, _|].
  apply keeps_bind; [apply _|apply Hf|intros ?; apply IH].
Qed.

Lemma quiet_sync_step id t units n existing seen v : quiet (sync_step id t units n existing seen v).
Proof. unfold sync_step. solve_keeps. Qed.
Hint Resolve quiet_fold quiet_sync_step : keeps.

Lemma quiet_sync id t v : quiet (_sync_plan id t v).
Proof. unfold _sync_plan. solve_keeps. Qed.
Hint Resolve quiet_sync : keeps.

Lemma quiet_require lost id tok : quiet (require_lease lost id tok).
Proof. unfold require_lease. solve_keeps. Qed.

(** The commit of the barrier by the worker that runs the turn. *)
Lemma runs_commit_barrier T0 id tok e w t :
  t_state t = TRunning →
  runs (at_row T0 id (core_of t)) (_commit_plan_barrier id tok e w) (λ _, rtc row_step T0).
Proof.
  intros Hrun. unfold _commit_plan_barrier. apply runs_bind_quiet; [apply quiet_require|intros t'].
  runs_walk. eapply runs_then; [|solve_keeps]. apply runs_write.
  unfold core_of. rewrite Hrun. destruct w; cbn; (destruct (t_write_barrier t); [by left|right; apply life_barrier]).
Qed.

Lemma checkpoint_steps id tok e w phase p x s :
  advances s (recovery_checkpoint id tok e w phase p x s).2.
Proof.
  apply transaction_steps. cbv zeta. apply runs_bind_lift. intros ? _. apply runs_bind_lift. intros ? _.
  apply runs_require. intros t Ht Hrun Htok.
  destruct (str_eqb phase _); [|runs_walk; apply runs_write_last; by left].
  apply runs_bind_quiet; [solve_keeps|intros ?]. apply runs_bind_quiet; [solve_keeps|intros ?].
  destruct (negb _).
  - by apply runs_commit_barrier.
  - apply runs_write_last. by left.
Qed.

Lemma await_steps id e r s t :
  d_turns s !! id = Some t → t_state t = TRunning → t_write_barrier t = false →
  advances s (transaction (_persist_awaiting_plan id e r) s).2.
Proof.
  intros Ht Hrun Hb. apply transaction_steps, runs_read; [congruence|]. intros t' Ht'.
  assert (t' = t) as -> by congruence. runs_walk. eapply runs_then; [|solve_keeps].
  eapply runs_life; [done|]. unfold core_of. rewrite Hrun, Hb. apply life_await.
Qed.

Lemma complete_steps id tok v s :
  advances s (transaction (after_run id tok v) s).2.
Proof.
  apply transaction_steps. unfold after_run. runs_walk. apply runs_read; [by intros; apply runs_bind_lift|].
  intros t Ht. apply runs_bind_lift. intros ? [= <-].
  case_bool_decide as Hl; [|apply runs_row; solve_keeps]. destruct Hl as [Hrun Htok].
  apply runs_bind_done; [|intros ?; solve_keeps]. unfold _stage_completed_turn. runs_walk.
  - eapply runs_then; [|solve_keeps]. eapply runs_life; [done|]. by apply life_end; [left|..].
Qed.

Lemma reconcile_steps id s :
  advances s (reconcile_confirmed_atomic_rollback id s).2.
Proof.
  apply transaction_steps, runs_read; [by intros; apply runs_bind_lift|].
  intros t Ht. apply runs_bind_lift. intros ? [= <-]. 
  destruct (_ && _) eqn:Hc; [|apply runs_row; solve_keeps]. result_inv. 
  destruct (bool_decide_reflect (t_state t = TRecoveryRequired)) as [Hr|]; [|done].
  runs_walk; try (apply runs_row; solve [solve_keeps]).
  eapply runs_then; [|solve_keeps]. eapply runs_life; [done|]. unfold core_of. rewrite Hr.
  replace (t_write_barrier t) with true by done. apply life_resolve.
Qed.

(** The row of a repair, whatever its state. *)
Lemma repair_row id e phase code items s :
  let s' := (repair_recoverable_plan id e phase code items s).2 in
  (d_turns s' = d_turns s ∨ ∃ (_ : unit) t t', d_turns s !! id = Some t ∧ d_turns s' = <[id := t']> (d_turns s) ∧
    ident t' = ident t ∧ core_of t' = MkCore (t_state t) false (t_attempt_count t) (t_max_attempts t)
                                        (t_lease_token t) (t_lease_expires_at t)) ∧ d_next s <= d_next s'.
Proof.
  apply (transaction_cases _ (λ (_ : unit) T, ∃ t t', d_turns s !! id = Some t ∧ T = <[id := t']> (d_turns s) ∧
    ident t' = ident t ∧ core_of t' = MkCore (t_state t) false (t_attempt_count t) (t_max_attempts t)
                                        (t_lease_token t) (t_lease_expires_at t))).
  cbv zeta. runs_walk.
  all: eapply runs_post; [apply runs_write_from|].
  all: intros ? T (t & t' & Ht & -> & Hid & Hk); exists t, t'; split_and!; [done..|]; by rewrite Hk.
Qed.

(** The row of an approval wait, whatever its state. *)
Lemma await_row id e r s :
  let s' := (transaction (_persist_awaiting_plan id e r) s).2 in
  (d_turns s' = d_turns s ∨ ∃ (_ : unit) t t', d_turns s !! id = Some t ∧ d_turns s' = <[id := t']> (d_turns s) ∧
    ident t' = ident t ∧
    core_of t' = MkCore TAwaiting (t_write_barrier t) (t_attempt_count t) (t_max_attempts t) None None) ∧
  d_next s <= d_next s'.
Proof.
  apply (transaction_cases _ (λ (_ : unit) T, ∃ t t', d_turns s !! id = Some t ∧ T = <[id := t']> (d_turns s) ∧
    ident t' = ident t ∧
    core_of t' = MkCore TAwaiting (t_write_barrier t) (t_attempt_count t) (t_max_attempts t) None None)).
  unfold _persist_awaiting_plan. apply runs_bind_quiet; [solve_keeps|intros ?]. runs_walk.
  eapply runs_bind; [apply runs_write_from|intros []; runs_walk].
  eapply runs_post; [apply runs_quiet; solve_keeps|].
  intros ? T (t & t' & Ht & -> & Hid & Hk). exists t, t'. by split_and!.
Qed.

(** A write of fields outside the life cycle. *)
Lemma note_steps id fs s :
  (∀ k, set_cores fs k = k) → advances s (transaction (write id fs) s).2.
Proof.
  intros Hfs. destruct (d_turns s !! id) as [t|] eqn:Ht.
  - apply transaction_steps. apply (runs_pre _ (at_row (d_turns s) id (core_of t))).
    + apply runs_write_last. by left.
    + intros T ->. by apply at_row_start.
  - assert (transaction (write id fs) s = (Err MissingError, s)) as ->; [|by split].
    unfold transaction, write, get_turn, gets. rewrite ST_bind_at, Ht, ST_bind_lift. done.
Qed.

Lemma unlink_detaching ids messages : detaching (unlink_refs ids messages).
Proof.
  intros t. split; [|done]. split; [done|]. simpl. destruct (t_conversation t); [|by left].
  case_bool_decide; [by right|by left].
Qed.
(** The deletion of conversations. *)
Lemma delete_row c uuids s :
  let s' := (delete_owned c uuids s).2 in
  (d_turns s' = d_turns s ∨ ∃ f, detaching f ∧ d_turns s' = f <$> d_turns s) ∧ d_next s <= d_next s'.
Proof.
  unfold delete_owned, transaction. rewrite ST_bind_lift. destruct (mapR _ _); [|by split; [left|]].
  rewrite ST_bind_lift. destruct (raise_when _ _) as [[]|]; [|by split; [left|]].
  unfold gets. rewrite ST_bind_at. cbv beta iota. rewrite ST_bind_lift.
  destruct (raise_when _ _) as [[]|]; [|by split; [left|]].
  split; [right|done]. eexists. split; [apply unlink_detaching|]. reflexivity.
Qed.

(** ** Recovery *)

Lemma runs_recover T id n t :
  T !! id = Some t → is_active t →
  runs (λ T', T' = T) (recover_turn n tt id) (λ _ T', ∃ k, at_row T id k T').
Proof.
  intros Ht Ha. unfold recover_turn. apply runs_read; [congruence|]. intros t' Ht'.
  assert (t' = t) as -> by congruence.
  apply runs_requested; [done| |].
  - eapply runs_bind; [apply runs_finalize|intros ?].
    eapply runs_bind; [eapply runs_life; [done|by apply life_end]|intros ?].
    eapply runs_post; [by apply runs_quiet; solve_keeps|]. intros ? T' HT. eexists; exact HT.
  - intros Hrun. destruct (truthy _); [|destruct (t_write_barrier t) eqn:Hb; [|destruct (_ <? _) eqn:Hlt]].
    all: eapply runs_bind; [apply runs_write; right|intros ?; eapply runs_post; [apply runs_quiet; solve_keeps|intros ? T' HT; eexists; exact HT]].
    + by apply life_end; [left|..].
    + cbn. apply life_end; [by left|done..].
    + unfold core_of. cbn. rewrite Hrun, Hb. apply life_retry; [by left|lia].
    + apply life_end; [by left|done..].
Qed.

(** The rows the scan found, in any order. *)
Lemma runs_recover_all T0 n ids :
  NoDup ids → (∀ id, id ∈ ids → ∃ t, T0 !! id = Some t ∧ is_active t) →
  runs (λ T, T = T0) (foldST (recover_turn n) tt ids) (λ _, rtc row_step T0).
Proof.
  intros Hnd Hids.
  intros n0. set (Inv := λ (seen : list Z) (_ : unit) (s : db),
    (rtc row_step T0 (d_turns s) ∧ ∀ j, j ∉ seen → d_turns s !! j = T0 !! j) ∧ n0 <= d_next s).
  eapply (hoare_conseq _ (Inv [] tt) _ (Inv ids) _ (λ _, True));
    [|intros s [Hs ?]; unfold Inv; by rewrite Hs|by intros ? s [[]]|done].
  apply hoare_fold. intros seen id rest [] Heq s [[Hrtc Hsame] Hn].
  destruct (Hids id) as (t & Ht & Ha); [rewrite Heq; set_solver|].
  assert (id ∉ seen) as Hid. { rewrite Heq in Hnd. apply NoDup_app in Hnd as (_ & Hd & _). set_solver. }
  rewrite <- (Hsame id Hid) in Ht. pose proof (runs_recover (d_turns s) id n t Ht Ha n0 s ltac:(done)) as Hrun.
  destruct (recover_turn n tt id s) as [[a|e] s']; [|done]. destruct Hrun as [(k & Hk & _ & Hothers) Hn'].
  split; [split; [by etrans|]|done]. intros j Hj. rewrite Hothers by set_solver. apply Hsame. set_solver.
Qed.

Lemma stale_ids_active n locked s id :
  id ∈ stale_ids n locked s → ∃ t, d_turns s !! id = Some t ∧ is_active t.
Proof.
  unfold stale_ids. rewrite list_elem_of_fmap. intros ([i t] & -> & Hin).
  apply elem_of_take in Hin as (j & Hin & _). apply list_elem_of_lookup_2 in Hin.
  rewrite sort_by_perm in Hin. apply list_elem_of_In, filter_In in Hin as [Hin Hst].
  apply list_elem_of_In, elem_of_map_to_list in Hin. exists t. split; [done|].
  unfold stale in Hst. result_inv. by apply (bool_decide_eq_true (is_active t)).
Qed.

Lemma filter_sublist {A} (f : A → bool) l : List.filter f l `sublist_of` l.
Proof. induction l as [|x l IH]; simpl; [done|]. destruct (f x); by constructor. Qed.

Lemma sublist_map {A B} (f : A → B) l k : l `sublist_of` k → (f <$> l) `sublist_of` (f <$> k).
Proof. induction 1; simpl; by constructor. Qed.

Lemma stale_ids_nodup n locked s : NoDup (stale_ids n locked s).
Proof.
  unfold stale_ids. eapply sublist_NoDup; [|apply sublist_map, sublist_take].
  rewrite sort_by_perm. eapply sublist_NoDup; [apply (NoDup_fst_map_to_list (d_turns s))|].
  apply sublist_map, filter_sublist.
Qed.

Lemma recover_steps n s : advances s (recover_transaction n s).2.
Proof.
  apply transaction_steps, runs_bind_quiet; [solve_keeps|]. intros locked. apply runs_bind_gets. intros s0 Hs0.
  rewrite <- Hs0. apply runs_bind_done; [|intros ?; solve_keeps]. apply runs_recover_all; [apply stale_ids_nodup|].
  intros id Hid. by eapply stale_ids_active.
Qed.

(** ** The claim *)

Lemma first_by_elem {A} (leb : A → A → bool) l x : first_by leb l = Some x → x ∈ l.
Proof.
  revert x. induction l as [|y l IH]; intros x; simpl; [done|]. unfold first_by in *. simpl.
  destruct (foldr _ None l) as [z|]; [|intros [= <-]; by left].
  destruct (leb y z); intros [= <-]; [by left|]. right. by apply IH.
Qed.

(** What the query of the claim guarantees of the row. *)
Lemma eligible_spec s id t :
  (id, t) ∈ rows s → eligible s (id, t) = true →
  d_turns s !! id = Some t ∧ k_claimable (core_of t) = true ∧
  ∀ p t0, ¬ predecessor (d_turns s) id t p t0.
Proof.
  unfold rows, eligible. rewrite elem_of_map_to_list, andb_true_iff, negb_true_iff, existsb_false. simpl.
  intros Ht [Hc Hb]. split_and!; [done..|]. intros p t0 (Hp & Hlt & (c & Hc1 & Hc2) & Hblock).
  specialize (Hb (p, t0) (proj2 (elem_of_map_to_list _ _ _) Hp)).
  unfold blocks in Hb. simpl in Hb.
  rewrite Hc1, Hc2, Z.eqb_refl, (proj2 (Z.ltb_lt _ _) Hlt) in Hb. simpl in Hb.
  unfold k_blocking, k_holding in Hblock. 
  change (k_active (core_of t0)) with (active t0) in Hblock.
  change (k_claimable (core_of t0)) with (claimable t0) in Hblock.
  change (k_state (core_of t0)) with (t_state t0) in Hblock.
  congruence.
Qed.

Lemma capacity_at_most_two raw : _effective_turn_capacity raw <= 2.
Proof. unfold _effective_turn_capacity, _SUPPORTED_RUNNER_CAPACITY. lia. Qed.

Lemma claim_steps s : advances s (claim_transaction s).2.
Proof.
  apply transaction_steps, runs_bind_quiet; [solve_keeps|]. intros raw. apply runs_bind_gets. intros s0 Hs0.
  rewrite <- Hs0. destruct (_ <=? _) eqn:Hcap; [apply runs_nothing; solve_keeps|].
  runs_walk; [|apply runs_nothing; solve_keeps].
  apply first_by_elem, list_elem_of_In, filter_In in Heqo as [Hin He].
  apply list_elem_of_In in Hin. apply andb_true_iff in He as [He _].
  apply eligible_spec in Hin as (Ht & Hc & Hpre); [|done].
  eapply (runs_bind _ (λ _, rtc row_step (d_turns s0))); [|intros ?; apply runs_quiet; solve_keeps].
  intros n s1 [Hs1 Hn]. rewrite (update_turn_at _ s1 t) by by rewrite Hs1.
  destruct (attempts_valid _); [|done]. simpl. rewrite Hs1. split; [|done]. apply rtc_once.
  eapply step_claim; [done|done| |done|done|done].
  unfold active_count, rows in Hcap. rewrite active_ids_length.
  pose proof (capacity_at_most_two raw). lia.
Qed.

(** ** Enqueuing *)

(** The table is unchanged, or has one new row under an identifier not given out before. *)
Definition enqueued (s s' : db) : Prop :=
  (d_turns s' = d_turns s ∨ ∃ i t, d_turns s' = <[i := t]> (d_turns s) ∧ core_of t = fresh_core ∧
    d_next s <= i < d_next s') ∧ d_next s <= d_next s'.

Lemma enqueued_bind {A B} (m : TS A) (f : A → TS B) s s0 :
  quiet m → same_turns s s0 → (∀ a s1, same_turns s s1 → enqueued s (f a s1).2) →
  enqueued s ((m ≫= f) s0).2.
Proof.
  intros Hm Hs Hf. rewrite ST_bind_at. pose proof (Hm s0) as H1. destruct (m s0) as [[a|e] s1]; simpl in *.
  - apply Hf. by etrans.
  - destruct (transitivity Hs H1). by split; [left|].
Qed.

Lemma enqueued_same s s' : same_turns s s' → enqueued s s'.
Proof. intros []. by split; [left|]. Qed.

Lemma enqueued_insert {A} t (f : Z → TS A) s s0 :
  same_turns s s0 → core_of t = fresh_core → (∀ i, quiet (f i)) →
  enqueued s ((i ← next_id; modify (with_turns <[i := t]>);; f i) s0).2.
Proof.
  intros [HT Hn] Ht Hf. set (s1 := with_turns <[d_next s0 := t]> (bump_next s0)).
  change (enqueued s (f (d_next s0) s1).2). destruct (Hf (d_next s0) s1) as [HT1 Hn1].
  change (d_turns s1) with (<[d_next s0 := t]> (d_turns s0)) in HT1. change (d_next s1) with (d_next s0 + 1) in Hn1.
  split; [right; exists (d_next s0), t|lia]. rewrite HT1, HT. split_and!; [done..|lia].
Qed.

Lemma enqueued_transaction {A} (m : TS A) s : enqueued s (m s).2 → enqueued s (transaction m s).2.
Proof. unfold transaction. destruct (m s) as [[a|e] s']; [done|]. intros _. by apply enqueued_same. Qed.

Lemma enqueue_steps c m screen policy conv request s :
  enqueued s (enqueue_for_current_user c m screen policy conv request s).2.
Proof.
  apply enqueued_transaction. assert (same_turns s s) as Hs by done. revert Hs. generalize s at 2 4. intros s0 Hs.
  repeat first
    [ progress cbv beta zeta
    | match goal with
      | |- enqueued _ (((next_id ≫= _) _).2) => fail 1
      | |- enqueued _ (((_ ≫= _) _).2) => apply enqueued_bind; [solve [solve_keeps]|done|]; clear dependent s0;
           intros ? s0 Hs
      | |- enqueued _ (((match ?x with _ => _ end) _).2) => destruct x
      end ].
  - apply enqueued_same. exact Hs.
  - apply enqueued_insert; [done|done|intros ?; solve_keeps].
Qed.
End steps.
