(* ===== verification/TurnReach.v ===== *)
(** * Turns: what holds after any interleaving

    [turn_step] is one transaction of any session on the store: a request, a slot of the
    scheduler, a checkpoint of a worker, the deletion of conversations, or a statement on the
    other tables.  Sequences of steps are the interleavings of the sessions, and the theorems
    here hold of all of them.

    Two checkpoints of the worker do not test its lease ([_persist_awaiting_plan] and
    [_repair_recoverable_plan]): a worker that comes to them after its lease expired writes all
    the same.  [late] is the set of the turns whose workers do; it is arbitrary in every theorem,
    and what fails of a late turn is stated for the others only.  [TurnExamples] runs both late
    checkpoints. *)
From S2P Require Import Prelude PyText PyValue Failure TurnStore TurnQueue TurnControl TurnJournal TurnSpec.
From S2P Require Import TurnSteps.
Local Open Scope Z_scope.

(** A worker runs the turn under this lease. *)
Definition holds_lease (id : Z) (tok : pystr) (s : db) (t : turn) : Prop :=
  d_turns s !! id = Some t ∧ t_state t = TRunning ∧ t_lease_token t = Some tok.

Inductive turn_step `{TurnHost} (late : Z → Prop) (s : db) : db → Prop :=
| do_other s' : same_turns s s' → turn_step late s s'
| do_enqueue c m screen policy conv request :
    turn_step late s (enqueue_for_current_user c m screen policy conv request s).2
| do_claim : turn_step late s (claim_transaction s).2
| do_recover n : turn_step late s (recover_transaction n s).2
| do_cancel c uuid : turn_step late s (cancel_for_current_user c uuid s).2
| do_redirect c uuid m cid : turn_step late s (redirect_for_current_user c uuid m cid s).2
| do_decide present c uuid d :
    turn_step late s (decide_capability_plan_for_current_user present c uuid d s).2
| do_applied c uuid n : turn_step late s (mark_runtime_control_applied c uuid n s).2
| do_transcript id tok v : turn_step late s (persist_working_transcript id tok v s).2
| do_barrier id tok e w : turn_step late s (before_effect id tok e w s).2
| do_checkpoint id tok e w phase p x :
    turn_step late s (recovery_checkpoint id tok e w phase p x s).2
| do_await id e r :
    late id ∨ (∃ tok t, holds_lease id tok s t ∧ t_write_barrier t = false) →
    turn_step late s (transaction (_persist_awaiting_plan id e r) s).2
| do_repair id e phase code items :
    late id ∨ (∃ tok t, holds_lease id tok s t) →
    turn_step late s (repair_recoverable_plan id e phase code items s).2
(** The executed or the reverted plan, with its transcript or its answer *)
| do_note id fs : (∀ k, set_cores fs k = k) → turn_step late s (transaction (write id fs) s).2
| do_delete c uuids : turn_step late s (delete_owned c uuids s).2
| do_complete id tok v : turn_step late s (transaction (after_run id tok v) s).2
| do_cancelled id tok : turn_step late s (cancel_transaction id tok s).2
| do_fail id tok code : turn_step late s (fail_transaction id tok code s).2
| do_fail_with id tok carried code :
    turn_step late s (fail_with_failure_transaction id tok carried code s).2
| do_reconcile id : turn_step late s (reconcile_confirmed_atomic_rollback id s).2.

(** The invariant of the store: identifiers are given out once. *)
Record store_ok (s : db) : Prop := {
  so_table : table_ok (d_turns s);
  so_next : ∀ j, is_Some (d_turns s !! j) → j < d_next s }.

(** What a late checkpoint writes *)
Definition late_core (t t' : turn) : Prop :=
  core_of t' = MkCore TAwaiting (t_write_barrier t) (t_attempt_count t) (t_max_attempts t) None None ∨
  core_of t' = MkCore (t_state t) false (t_attempt_count t) (t_max_attempts t) (t_lease_token t)
                 (t_lease_expires_at t).

(** What a step is, seen from the table. *)
Inductive step_kind (late : Z → Prop) (s s' : db) : Prop :=
| kind_rows : advances s s' → step_kind late s s'
| kind_new i t :
    d_turns s' = <[i := t]> (d_turns s) → core_of t = fresh_core → d_next s <= i < d_next s' →
    step_kind late s s'
| kind_repair id t t' :
    d_turns s !! id = Some t → t_state t = TRunning → d_turns s' = <[id := t']> (d_turns s) →
    ident t' = ident t → core_of t' = repaired (core_of t) → d_next s <= d_next s' →
    step_kind late s s'
| kind_detach f : detaching f → d_turns s' = f <$> d_turns s → d_next s <= d_next s' → step_kind late s s'
| kind_late id t t' :
    late id → d_turns s !! id = Some t → d_turns s' = <[id := t']> (d_turns s) → ident t' = ident t →
    late_core t t' → d_next s <= d_next s' → step_kind late s s'.

Section reach.
Context `{TurnHost}.
Context (late : Z → Prop).

Lemma quiet_applied c uuid n : quiet (mark_runtime_control_applied c uuid n).
Proof. unfold mark_runtime_control_applied. cbv zeta. apply quiet_transaction. solve_keeps. Qed.

Lemma same_kind s s' : d_turns s' = d_turns s → d_next s <= d_next s' → step_kind late s s'.
Proof. intros HT Hn. apply kind_rows. split; [by rewrite HT|done]. Qed.

(** The steps that do more than advance the rows *)
Definition may_await (id : Z) (s : db) : Prop :=
  late id ∨ ∃ tok t, holds_lease id tok s t ∧ t_write_barrier t = false.
Definition may_repair (id : Z) (s : db) : Prop := late id ∨ ∃ tok t, holds_lease id tok s t.
Inductive step_case (s : db) : db → Prop :=
| case_advances s' : advances s s' → step_case s s'
| case_enqueued s' : enqueued s s' → step_case s s'
| case_awaits id e r : may_await id s → step_case s (transaction (_persist_awaiting_plan id e r) s).2
| case_deletes c uuids : step_case s (delete_owned c uuids s).2
| case_repairs id e phase code items :
    may_repair id s → step_case s (repair_recoverable_plan id e phase code items s).2.

Lemma step_cases s s' : store_ok s → turn_step late s s' → step_case s s'.
Proof.
  intros [Hok _] Hstep. destruct Hstep as [s' [HT Hn]| | | | | | | | | | | | | | | | | | | ].
  all: try (apply case_advances; eauto using claim_steps, recover_steps, cancel_control_steps, redirect_steps,
    decide_steps, transcript_steps, barrier_steps, checkpoint_steps, complete_steps, cancel_steps, fail_steps,
    fail_with_failure_steps, reconcile_steps, quiet_steps, quiet_applied, note_steps; fail).
  - apply case_advances. split; [by rewrite HT|done].
  - apply case_enqueued, enqueue_steps.
  - by apply case_awaits.
  - by apply case_repairs.
  - apply case_deletes.
Qed.

Lemma await_is id e r s : may_await id s → step_kind late s (transaction (_persist_awaiting_plan id e r) s).2.
Proof.
  intros [Hl|(tok & t & (Ht & Hr & _) & Hb)]; [|by apply kind_rows; eapply await_steps].
  destruct (await_row id e r s) as [[HT|(_ & t & t' & Ht & HT & Hid & Hk)] Hn]; [by apply same_kind|].
  eapply kind_late; [exact Hl|exact Ht|exact HT|exact Hid|by left|exact Hn].
Qed.
Lemma repair_is id e phase code items s :
  may_repair id s → step_kind late s (repair_recoverable_plan id e phase code items s).2.
Proof.
  intros Hl. destruct (repair_row id e phase code items s) as [[HT|(_ & t & t' & Ht & HT & Hid & Hk)] Hn]; [by apply same_kind|].
  destruct Hl as [Hl|(tok & x & Hx & Hr & _)].
  - eapply kind_late; [exact Hl|exact Ht|exact HT|exact Hid|by right|exact Hn].
  - assert (x = t) as -> by congruence. eapply kind_repair; [exact Ht|exact Hr|exact HT|exact Hid| |exact Hn].
    rewrite Hk. unfold repaired. by rewrite <- Hr.
Qed.
Lemma step_is s s' : store_ok s → turn_step late s s' → step_kind late s s'.
Proof.
  intros Hok Hstep. destruct (step_cases s s' Hok Hstep) as [s' Ha|s' [[HT|(i & t & HT & Hk & Hi)] Hn]|id e r Hl|c l|id e ph code items Hl].
  - by apply kind_rows.
  - by apply same_kind.
  - by eapply kind_new.
  - by apply await_is.
  - destruct (delete_row c l s) as [[HT|(f & Hf & HT)] Hn]; [by apply same_kind|by eapply kind_detach].
  - by apply repair_is.
Qed.

Lemma rows_to_table T T' : rtc row_step T T' → rtc (table_step late) T T'.
Proof. induction 1; [done|]. eapply rtc_l; [by apply step_row|done]. Qed.

Lemma kind_steps s s' : store_ok s → step_kind late s s' → rtc (table_step late) (d_turns s) (d_turns s').
Proof.
  intros [_ Hnext] [[Hr _]|i t HT Hk Hi|id t t' Ht Hrun HT Hid Hk _|f Hf HT _|id t t' Hl Ht HT Hid Hk _].
  - by apply rows_to_table.
  - rewrite HT. apply rtc_once, step_new; [|done]. intros j Hj. specialize (Hnext j Hj). lia.
  - rewrite HT. by apply rtc_once, (step_repair _ _ id t).
  - rewrite HT. by apply rtc_once, step_detach.
  - rewrite HT. destruct Hk; apply rtc_once; [by apply (step_late_await _ _ id t)|by apply (step_late_repair _ _ id t)].
Qed.

Lemma kind_ok s s' : store_ok s → step_kind late s s' → store_ok s'.
Proof.
  intros Hok Hkind. pose proof Hok as [Htab Hnext].
  split; [by eapply steps_ok; [apply kind_steps|]|]. intros j Hj.
  destruct Hkind as [[Hr Hn]|i t HT Hk Hi|id t t' Ht _ HT _ _ Hn|f _ HT Hn|id t t' _ Ht HT _ _ Hn].
  - specialize (Hnext j (row_steps_ids _ _ Hr j Hj)). lia.
  - rewrite HT, lookup_insert_is_Some in Hj. destruct Hj as [<-|[_ Hj]]; [lia|]. specialize (Hnext j Hj). lia.
  - rewrite HT in Hj. specialize (Hnext j (insert_same_ids _ _ _ _ Ht j Hj)). lia.
  - rewrite HT, lookup_fmap, fmap_is_Some in Hj. specialize (Hnext j Hj). lia.
  - rewrite HT in Hj. specialize (Hnext j (insert_same_ids _ _ _ _ Ht j Hj)). lia.
Qed.

Lemma reach_ok s s' : rtc (turn_step late) s s' → store_ok s → store_ok s'.
Proof. induction 1; eauto using kind_ok, step_is. Qed.

Lemma reach_steps s s' : store_ok s → rtc (turn_step late) s s' → rtc (table_step late) (d_turns s) (d_turns s').
Proof.
  intros Hok Hs. revert Hok. induction Hs as [s|s1 s2 s3 Hs _ IH]; intros Hok; [done|].
  pose proof (step_is _ _ Hok Hs) as Hk. etrans; [by apply kind_steps|]. by apply IH, (kind_ok s1).
Qed.

(** A relation between rows that every kind of step keeps, of the turns that are not late. *)
Lemma kind_rows_by R `{!PreOrder R} s s' :
  (∀ k k', life k k' → R k k') →
  (∀ k tok ex, k_claimable k = true →
     R k (MkCore TRunning (k_barrier k) (k_attempts k + 1) (k_max k) (Some tok) (Some ex))) →
  (∀ k, k_state k = TRunning → R k (repaired k)) →
  store_ok s → step_kind late s s' → rows_by R late (d_turns s) (d_turns s').
Proof.
  intros Hlife Hclaim Hrep [_ Hnext] [[Hr _]|i t HT Hk Hi|id t t' Ht Hrun HT Hid Hk _|f Hf HT _|id t t' Hl Ht HT Hid Hk _].
  - by apply row_steps_by.
  - rewrite HT. intros j x _ Hj. exists x. rewrite lookup_insert_ne; [by split_and!|].
    intros ->. specialize (Hnext j). rewrite Hj in Hnext. specialize (Hnext ltac:(done)). lia.
  - rewrite HT. eapply rows_by_insert; [done..|]. rewrite Hk. by apply Hrep.
  - rewrite HT. apply rows_by_detach; [apply _|done].
  - rewrite HT. apply rows_by_late; [apply _|done].
Qed.

Lemma reach_rows_by R `{!PreOrder R} s s' :
  (∀ k k', life k k' → R k k') →
  (∀ k tok ex, k_claimable k = true →
     R k (MkCore TRunning (k_barrier k) (k_attempts k + 1) (k_max k) (Some tok) (Some ex))) →
  (∀ k, k_state k = TRunning → R k (repaired k)) →
  rtc (turn_step late) s s' → store_ok s → rows_by R late (d_turns s) (d_turns s').
Proof.
  intros Hl Hc Hr. induction 1 as [s|s1 s2 s3 Hs _ IH]; intros Hok; [by apply rows_by_refl|].
  pose proof (step_is _ _ Hok Hs) as Hk. apply (rows_by_trans R _ _ (d_turns s2)); [by apply (kind_rows_by R s1 s2)|].
  by apply IH, (kind_ok s1).
Qed.

(** ** Properties *)

(** C15: Every interleaving of requests, scheduler slots, worker checkpoints and deletions of
    conversations takes the table of turns by the steps of the specification: notes, life-cycle
    transitions, claims under the queue's conditions, new turns, detached conversations, repairs
    of running turns, and, for an arbitrary set of turns whose workers lost their lease, the
    late approval wait and the late repair that the code lets them write. It keeps the invariant
    of the store, and, of the turns outside that set, the barrier and the order of the
    conversations. *)
Theorem turn_steps_refine s s' :
  store_ok s → rtc (turn_step late) s s' →
  rtc (table_step late) (d_turns s) (d_turns s') ∧ store_ok s' ∧
  (timely_ok late (d_turns s) → timely_ok late (d_turns s')).
Proof.
  intros Hok Hs. pose proof (reach_steps _ _ Hok Hs) as Ht.
  split_and!; [done|by eapply reach_ok|by apply steps_timely].
Qed.

(** C26: From an empty table, after any interleaving of transactions, late checkpoints of
    workers included: at most two turns are active, a turn has a lease token exactly when it is
    active, and attempts stay within their limit. Of the turns whose workers write an approval
    wait and a repair only while they hold the lease (and the wait before the write barrier),
    which the code does not test: a waiting or queued turn has not crossed the barrier, and no
    two turns of a conversation are active or waiting for approval at the same time. *)
Theorem queue_invariant s s' :
  d_turns s = ∅ → rtc (turn_step late) s s' →
  active_count s' <= _SUPPORTED_RUNNER_CAPACITY ∧
  (∀ id t, d_turns s' !! id = Some t →
     (active t = true ↔ is_Some (t_lease_token t)) ∧ 0 <= t_attempt_count t <= t_max_attempts t) ∧
  (∀ id t, ¬ late id → d_turns s' !! id = Some t →
     t_state t = TAwaiting ∨ t_state t = TQueued → t_write_barrier t = false) ∧
  (∀ i j t t' c, ¬ late i → ¬ late j → d_turns s' !! i = Some t → d_turns s' !! j = Some t' →
     t_conversation t = Some c → t_conversation t' = Some c →
     k_holding (core_of t) = true → k_holding (core_of t') = true → i = j).
Proof.
  intros Hempty Hs. assert (store_ok s) as Hok.
  { split; rewrite Hempty; [apply empty_table_ok|]. intros j. rewrite lookup_empty. by intros []. }
  assert (timely_ok late (d_turns s')) as [Hti Hord].
  { eapply steps_timely; [by apply reach_steps|]. rewrite Hempty. apply empty_table_timely. }
  apply reach_ok in Hs as [[Hrows Hcap] _]; [|done]. split_and!.
  - rewrite active_ids_length in Hcap. unfold active_count, rows, _SUPPORTED_RUNNER_CAPACITY. lia.
  - intros id t Ht. destruct (Hrows id t Ht) as [[Hv _] Hl Hr]. split; [|apply Hv].
    split; [intros Ha; by apply Hl|]. intros [tok Htok].
    destruct (active t) eqn:E; [done|]. destruct (Hr E) as [Hn _]. simpl in Hn. congruence.
  - intros id t Hid Ht Hst. apply (kt_barrier _ (Hti id t Hid Ht)). destruct Hst; [by right|by left].
  - intros i j t t' c Hli Hlj Hi Hj Hc Hc' Hh Hh'. destruct (Z.lt_trichotomy i j) as [Hlt|[?|Hlt]]; [|done|]; exfalso.
    + eapply (Hord j t' i t); [done..|]. split_and!; [done..|by eauto|]. unfold k_blocking. by rewrite Hh.
    + eapply (Hord i t j t'); [done..|]. split_and!; [done..|by eauto|]. unfold k_blocking. by rewrite Hh'.
Qed.

(** C28: A finished turn, whose worker does not write an approval wait or a repair after it lost
    its lease (which the code does not test), keeps its state, barrier, attempts and identity
    under any interleaving of transactions, whatever the workers of other turns do; but a turn
    under review may be resolved as failed, and its conversation may be deleted. *)
Theorem finished_turns_stay s s' id t :
  store_ok s → rtc (turn_step late) s s' → ¬ late id →
  d_turns s !! id = Some t → terminal_turn (t_state t) = true →
  ∃ t', d_turns s' !! id = Some t' ∧ same_turn t t' ∧ t_attempt_count t' = t_attempt_count t ∧
    t_write_barrier t' = t_write_barrier t ∧
    (t_state t' = t_state t ∨ (t_state t = TRecoveryRequired ∧ t_state t' = TFailed)).
Proof.
  intros Hok Hs Hl Ht Hterm.
  destruct (reach_rows_by finished_by s s' life_finished claim_finished) with (id := id) (t := t)
    as (t' & Ht' & Hid & HR); [|done..|].
  - intros k Hk. unfold finished_by. by rewrite Hk.
  - exists t'. destruct (HR Hterm) as [Hk|[Hr Hk]]; injection Hk as ??????; split_and!; auto.
Qed.

(** A queued turn without attempts left is only ever cancelled. *)
Lemma stays_stranded s s' id t :
  store_ok s → rtc (turn_step late) s s' → ¬ late id → d_turns s !! id = Some t →
  t_state t = TQueued → t_max_attempts t <= t_attempt_count t →
  ∃ t', d_turns s' !! id = Some t' ∧ t_attempt_count t' = t_attempt_count t ∧
    (t_state t' = TQueued ∨ t_state t' = TCancelled).
Proof.
  intros Hok Hs Hl Ht Hq Hm.
  destruct (reach_rows_by stranded_by s s' life_stranded claim_stranded) with (id := id) (t := t)
    as (t' & Ht' & Hid & [HR _]); [|done..|].
  - intros k Hk. split; [by intros [Hq' _]; rewrite Hk in Hq'|]. unfold finished_by. by rewrite Hk.
  - exists t'. destruct HR as [Hk|[Hc Ha]]; [done| |split_and!; auto].
    injection Hk as ??????. split_and!; [done..|left; congruence].
Qed.

(** ** The proof of a repair *)

Definition rolled_back (id : Z) (s : db) : Prop :=
  let rows := filter (λ r, j_turn r = id) (d_journal s) in
  rows ≠ [] ∧ ∀ r, r ∈ rows → j_state r = JRolledBack ∨ j_state r = JSkipped.

Definition same_journal (s s' : db) : Prop := d_journal s' = d_journal s.
#[export] Instance same_journal_preorder : PreOrder same_journal.
Proof. split; [done|]. unfold same_journal. intros ??? ? ?. congruence. Qed.

Lemma write_journal id fs : written_state fs = None → keeps same_journal (write id fs).
Proof.
  intros Hfs. unfold write, update_turn, failure_overlay, get_turn, outside. rewrite Hfs.
  solve_keeps.
Qed.

Lemma all_rolled_back id s b s' :
  _all_turn_effects_rolled_back id s = (Ok b, s') → s' = s ∧ (b = true → rolled_back id s).
Proof.
  intros [= <- <-]. split; [done|]. rewrite andb_true_iff, negb_true_iff, forallb_true.
  intros [Hl%bool_decide_eq_false Hr]. split; [by intros Hn; rewrite Hn in Hl|].
  intros r Hin. by apply (bool_decide_eq_true (_ ∨ _)), Hr.
Qed.

Lemma quiet_lookup s s' id : same_turns s s' → d_turns s' !! id = d_turns s !! id.
Proof. intros [-> _]. done. Qed.

Lemma transaction_Ok {A} (m : TS A) s a s' : transaction m s = (Ok a, s') → m s = (Ok a, s').
Proof. unfold transaction. by destruct (m s) as [[?|?] ?]. Qed.

(** The reading of the row after quiet statements. *)
Lemma quiet_run {A} (m : TS A) s a s' : quiet m → m s = (Ok a, s') → d_turns s' = d_turns s.
Proof. intros Hm Hs. specialize (Hm s). rewrite Hs in Hm. apply Hm. Qed.

Lemma transaction_Err {A} (m : TS A) s e s' : transaction m s = (Err e, s') → s' = s.
Proof. unfold transaction. destruct (m s) as [[?|?] ?]; congruence. Qed.

(** Before the execution, a crossed barrier is not repaired. *)
Lemma prepared_repair id s t x0 x2 x5 x6 x7 (x3 : unit) (e e' : turn_exn) :
  d_turns s !! id = Some t → t_write_barrier t = true →
  _ensure_turn_control_current id s = (Ok x0, x2) → get_turn id x2 = (Ok x5, x6) →
  of_option x5 e' = Ok x7 → raise_when (t_write_barrier x7) e = Ok x3 → False.
Proof.
  intros Ht Hb H1 [= <- <-] H3%of_option_Ok H4%raise_when_Ok.
  apply quiet_run in H1; [|apply quiet_current]. rewrite H1 in H3. congruence.
Qed.

Lemma repair_proof id e phase code items s s' t :
  d_turns s !! id = Some t → t_write_barrier t = true →
  repair_recoverable_plan id e phase code items s = (Ok tt, s') → rolled_back id s'.
Proof.
  intros Ht Hb Hrun%transaction_Ok. cbv zeta in Hrun. st_inv.
  pose proof (write_journal id [FWriteBarrier false; FPlan VNone; FWorkingItems items; FErrorCode None;
    FFailure VNone] eq_refl x4) as Hj. rewrite Hrun in Hj.
  unfold same_journal in Hj. simpl in Hj. unfold rolled_back. rewrite Hj. clear Hj Hrun.
  destruct phase; [|exfalso|exfalso|done]; st_inv.
  - apply all_rolled_back in H9 as [-> Hp]. apply Hp. by result_inv.
  - by eapply (prepared_repair id s t).
  - by eapply (prepared_repair id s t).
Qed.

(** The barrier of a turn is cleared by a repair only. *)
Definition keeps_barriers (s s' : db) : Prop := ∀ id t t',
  d_turns s !! id = Some t → t_write_barrier t = true → d_turns s' !! id = Some t' → t_write_barrier t' = true.
Lemma same_barriers s s' : d_turns s' = d_turns s → keeps_barriers s s'.
Proof. intros HT id t t' Ht Hb Ht'. congruence. Qed.
Lemma insert_barriers s s' j x x' : d_turns s !! j = Some x → d_turns s' = <[j := x']> (d_turns s) →
  t_write_barrier x' = t_write_barrier x → keeps_barriers s s'.
Proof.
  intros Hx HT Hk id t t' Ht Hb. rewrite HT. intros [[<- <-]|[_ Ht']]%lookup_insert_Some; congruence.
Qed.
Lemma step_barriers s s' : store_ok s → turn_step late s s' →
  keeps_barriers s s' ∨
  ∃ id e phase code items, may_repair id s ∧ s' = (repair_recoverable_plan id e phase code items s).2.
Proof.
  intros Hok Hstep. destruct (step_cases s s' Hok Hstep) as [s' [Hr _]|s' [[HT|(i & x & HT & Hk & Hi)] _]|id e r Hl|c l|id e ph code items Hl].
  - left. intros id t t' Ht Hb Ht'.
    destruct (row_steps_by barrier_by life_barrier_by (λ k tok ex _ Hb, Hb) (λ _, False) _ _ Hr id t)
      as (y & Hy & _ & HB); [by intros []|done|]. assert (y = t') as -> by congruence. exact (HB Hb).
  - left. by apply same_barriers.
  - left. intros id t t' Ht Hb Ht'. rewrite HT, lookup_insert_ne in Ht'; [congruence|].
    intros ->. pose proof (so_next _ Hok id ltac:(by eexists)). lia.
  - left. destruct (await_row id e r s) as [[HT|(_ & t & t' & Ht & HT & Hid & Hk)] _]; [by apply same_barriers|].
    eapply insert_barriers; [exact Ht|exact HT|]. by injection Hk.
  - left. destruct (delete_row c l s) as [[HT|(f & Hf & HT)] _]; [by apply same_barriers|].
    intros j t t' Ht Hb. rewrite HT, lookup_fmap, Ht. intros [= <-]. destruct (Hf t) as [_ Hk]. injection Hk. congruence.
  - right. by repeat eexists.
Qed.

(** C27: Whatever transaction runs, late checkpoints of workers included, when the write barrier
    of a turn is cleared its journal is not empty and shows every effect rolled back or skipped,
    and its state and lease stay as they were; the turn is running, unless the worker that
    repairs it had lost its lease, which the code does not test. *)
Theorem barrier_cleared_after_rollback s s' id t t' :
  store_ok s → turn_step late s s' → d_turns s !! id = Some t → t_write_barrier t = true →
  d_turns s' !! id = Some t' → t_write_barrier t' = false →
  rolled_back id s' ∧ t_state t' = t_state t ∧ t_lease_token t' = t_lease_token t ∧
  (late id ∨ t_state t = TRunning).
Proof.
  intros Hok Hs Ht Hb Ht' Hb'.
  destruct (step_barriers s s' Hok Hs) as [Hk|(j & e & ph & c & it & Hl & ->)]; [specialize (Hk id t t'); intuition congruence|].
  destruct (repair_row j e ph c it s) as [[HT|(_ & x & y & Hx & HT & _ & Hk)] _]; [congruence|].
  destruct (decide (j = id)) as [->|Hne]; [|rewrite HT, lookup_insert_ne in Ht' by done; congruence].
  assert (x = t) as -> by congruence. rewrite HT, lookup_insert_eq in Ht'. injection Ht' as ->.
  injection Hk as Hk _ _ _ Htok _. split_and!; [|done|done|].
  - destruct (repair_recoverable_plan id e ph c it s) as [[[]|err] s2] eqn:E; [by eapply repair_proof|].
    apply transaction_Err in E as ->. apply (f_equal (lookup id)) in HT. rewrite lookup_insert_eq in HT.
    simpl in HT. congruence.
  - destruct Hl as [Hl|(tok & z & Hz & Hr & _)]; [by left|]. right. congruence.
Qed.
End reach.
