(* ===== verification/TurnClaim.v ===== *)
(** * Turns: the claim

    The order of the claim's query is a total preorder, and the claim takes its least eligible
    turn whenever there is capacity and an eligible turn that no other session locks. *)
From S2P Require Import Prelude PyText PyValue Failure TurnStore TurnQueue TurnControl TurnSpec.
From S2P Require Import TurnSteps TurnReach.
Local Open Scope Z_scope.

(** ** Orders given by a comparison *)

Class Ordering {A} (c : A → A → comparison) : Prop := {
  ord_sym x y : c y x = CompOpp (c x y);
  ord_eq x y z : c x y = Eq → c x z = c y z;
  ord_trans x y z : c x y = Lt → c y z = Lt → c x z = Lt }.

#[export] Instance Z_ordering : Ordering Z.compare.
Proof.
  split.
  - intros x y. apply Z.compare_antisym.
  - by intros x y z ->%Z.compare_eq.
  - intros x y z. rewrite !Z.compare_lt_iff. lia.
Qed.

#[export] Instance opt_ordering : Ordering compare_opt.
Proof.
  split.
  - intros [x|] [y|]; simpl; [apply ord_sym|done..].
  - intros [x|] [y|] [z|]; simpl; try done. apply ord_eq.
  - intros [x|] [y|] [z|]; simpl; try done. apply ord_trans.
Qed.

Lemma on_ordering {A B} (f : A → B) c : Ordering c → Ordering (λ x y, c (f x) (f y)).
Proof.
  intros [Hs He Ht]. split; [intros x y; apply Hs|intros x y z; apply He|intros x y z; apply Ht].
Qed.

Lemma lex_ordering {A} (c d : A → A → comparison) :
  Ordering c → Ordering d → Ordering (λ x y, lex (c x y) (d x y)).
Proof.
  intros [Cs Ce Ct] [Ds De Dt]. split.
  - intros x y. rewrite Cs, Ds. by destruct (c x y).
  - intros x y z. destruct (c x y) eqn:E; simpl; [|done..]. intros Hd. by rewrite (Ce _ _ z E), (De _ _ z Hd).
  - intros x y z. unfold lex. destruct (c x y) eqn:E1; [|intros _|done].
    + rewrite (Ce _ _ z E1). destruct (c y z); [by apply Dt|done..].
    + destruct (c y z) eqn:E2; [intros _| |done].
      * assert (c z y = Eq) as E3 by (rewrite Cs, E2; done).
        rewrite Cs, (Ce _ _ x E3), Cs, E1. done.
      * intros _. by rewrite (Ct _ _ _ E1 E2).
Qed.

Lemma rank_ordering s : Ordering (λ p q, compare_rank (rank_of s p) (rank_of s q)).
Proof.
  unfold compare_rank, rank_of.
  apply lex_ordering; [exact (on_ordering (λ p, service_active s (t_user p.2)) _ _)|].
  apply lex_ordering; [exact (on_ordering (λ p, last_claimed s (t_user p.2)) _ _)|].
  apply lex_ordering; [exact (on_ordering (λ p, t_queued_at p.2) _ _)|exact (on_ordering fst _ _)].
Qed.

Definition at_most {A} (c : A → A → comparison) (x y : A) : bool :=
  match c x y with Gt => false | _ => true end.

Lemma at_most_total {A} (c : A → A → comparison) : Ordering c → ∀ x y, at_most c x y = false → at_most c y x = true.
Proof. intros [Hs _ _] x y. unfold at_most. rewrite (Hs x y). by destruct (c x y). Qed.

Lemma at_most_trans {A} (c : A → A → comparison) :
  Ordering c → ∀ x y z, at_most c x y = true → at_most c y z = true → at_most c x z = true.
Proof.
  intros [Hs He Ht] x y z. unfold at_most. destruct (c x y) eqn:E; [|intros _|done].
  - by rewrite (He _ _ z E).
  - destruct (c y z) eqn:E2; [intros _| |done].
    + assert (c z y = Eq) as E3 by (rewrite Hs, E2; done). by rewrite Hs, (He _ _ x E3), Hs, E.
    + by rewrite (Ht _ _ _ E E2).
Qed.

Lemma at_most_refl {A} (c : A → A → comparison) x : Ordering c → at_most c x x = true.
Proof. intros [Hs _ _]. unfold at_most. specialize (Hs x x). by destruct (c x x). Qed.

(** The first row of the order is a least one. *)
Lemma first_by_least {A} (c : A → A → comparison) l :
  Ordering c → l ≠ [] →
  ∃ x, first_by (at_most c) l = Some x ∧ x ∈ l ∧ ∀ y, y ∈ l → at_most c x y = true.
Proof.
  intros Hc. induction l as [|x l IH]; [done|]. intros _. destruct l as [|y l].
  - exists x. split_and!; [done|by left|]. intros y ->%list_elem_of_singleton. by apply at_most_refl.
  - destruct IH as (z & Hz & Hin & Hmin); [done|]. unfold first_by in *. simpl in *. rewrite Hz.
    destruct (at_most c x z) eqn:E.
    + exists x. split_and!; [done|by left|]. intros w [->|Hw]%elem_of_cons.
      * by apply at_most_refl.
      * eapply at_most_trans; [done|exact E|by apply Hmin].
    + exists z. split_and!; [done|by right|]. intros w [->|Hw]%elem_of_cons; [by apply at_most_total|by apply Hmin].
Qed.

Section claim.
Context `{TurnHost}.

Definition unlocked (s : db) (p : Z * turn) : Prop :=
  p ∈ rows s ∧ eligible s p = true ∧ row_locked (S (d_ticks s)) p.1 = false.

Lemma unlocked_filter s p :
  p ∈ List.filter (λ p, eligible s p && negb (row_locked (S (d_ticks s)) p.1)) (rows s) ↔ unlocked s p.
Proof.
  rewrite list_elem_of_In, filter_In, <- list_elem_of_In, andb_true_iff, negb_true_iff. done.
Qed.

Lemma claim_valid s id t fs :
  store_ok s → d_turns s !! id = Some t → claimable t = true →
  core_of (set_fields fs t) = MkCore TRunning (t_write_barrier t) (t_attempt_count t + 1) (t_max_attempts t)
    (k_token (core_of (set_fields fs t))) (k_expires (core_of (set_fields fs t))) →
  attempts_valid (set_fields fs t) = true.
Proof.
  intros [[Hrows _] _] Ht Hc Hk. destruct (Hrows id t Ht) as [[Hv Hm] _ _].
  unfold claimable in Hc. apply andb_true_iff in Hc as [_ Hc].
  injection Hk as _ _ Ha Hx. unfold attempts_valid. rewrite Ha, Hx. simpl in *. lia.
Qed.

Lemma outside_bind {A B} (f : nat → A) (k : A → TS B) s :
  (outside f ≫= k) s = k (f (d_ticks s)) (bump_tick s).
Proof. done. Qed.
Lemma gets_bind {A B} (f : db → A) (k : A → TS B) s : (gets f ≫= k) s = k (f s) s.
Proof. done. Qed.

(** C30: When fewer turns are active than the capacity allows and an eligible turn is not
    locked, the claim returns the least eligible turn of the fairness order, running under a
    fresh token and a lease of 300 seconds with one more attempt. *)
Theorem claim_takes_the_fairest s p :
  store_ok s → active_count s < _effective_turn_capacity (capacity_parameter (d_ticks s)) →
  unlocked s p →
  ∃ id t t' tok s',
    claim_transaction s = (Ok (Some (id, tok)), s') ∧ unlocked s (id, t) ∧
    (∀ q, unlocked s q → rank_leb s (id, t) q = true) ∧
    d_turns s' = <[id := t']> (d_turns s) ∧ ident t' = ident t ∧
    t_state t' = TRunning ∧ t_attempt_count t' = t_attempt_count t + 1 ∧ t_lease_token t' = Some tok ∧
    (∃ n, t_heartbeat_at t' = Some n ∧ t_lease_expires_at t' = Some (n + _LEASE_SECONDS)).
Proof.
  intros Hok Hcap Hp. destruct (first_by_least (λ p q, compare_rank (rank_of s p) (rank_of s q))
    (List.filter (λ p, eligible s p && negb (row_locked (S (d_ticks s)) p.1)) (rows s)) (rank_ordering s))
    as ([id t] & Hfirst & Hin & Hmin).
  { intros Hnil. apply unlocked_filter in Hp. rewrite Hnil in Hp. by apply elem_of_nil in Hp. }
  apply unlocked_filter in Hin. pose proof Hin as (Hrow & He & _).
  assert (d_turns s !! id = Some t) as Ht by by apply elem_of_map_to_list in Hrow.
  assert (claimable t = true) as Hc by by apply andb_true_iff in He as [? _].
  set (tok := token_urlsafe (S (S (d_ticks s)))). set (n := clock (S (S (S (d_ticks s))))).
  set (fs := [FState TRunning; FAttemptCount (t_attempt_count t + 1);
         FStartedAt (match t_started_at t with Some x => Some x | None => Some n end);
         FSchedulerClaimedAt (Some n); FHeartbeatAt (Some n);
         FLeaseExpiresAt (Some (n + _LEASE_SECONDS)); FLeaseToken (Some tok)]).
  set (s4 := bump_tick (bump_tick (bump_tick (bump_tick s)))).
  assert (claim_transaction s = (Ok (Some (id, tok)), with_turns <[id := set_fields fs t]> s4)) as Hrun.
  { unfold claim_transaction, transaction. rewrite outside_bind, gets_bind.
    change (active_count (bump_tick s)) with (active_count s).
    destruct (Z.leb_spec (_effective_turn_capacity (capacity_parameter (d_ticks s))) (active_count s)); [lia|].
    assert (first_by (rank_leb (bump_tick s)) (List.filter (λ p, eligible (bump_tick s) p
      && negb (row_locked (d_ticks (bump_tick s)) p.1)) (rows (bump_tick s))) = Some (id, t)) as Hf by exact Hfirst.
    rewrite outside_bind, Hf, outside_bind. unfold now. rewrite outside_bind, ST_bind_at.
    rewrite (update_turn_at _ _ t) by done. by rewrite (claim_valid s id). }
  exists id, t, (set_fields fs t), tok, (with_turns <[id := set_fields fs t]> s4).
  split_and!; [done|done| |done|apply set_fields_ident|done..|by exists n].
  intros q Hq. apply (Hmin q). by apply unlocked_filter.
Qed.
End claim.
