(* ===== verification/TurnRecover.v ===== *)
(** * Turns: the recovery of expired leases

    The recovery transaction always commits, and every turn its scan found is settled according
    to its record: a requested stop, a result, the barrier, the attempts left. *)
From S2P Require Import Prelude PyText Regex PyValue Failure FailureFacts TurnStore TurnQueue TurnControl.
From S2P Require Import TurnSpec TurnSteps TurnReach.
Local Open Scope Z_scope.

(** Statements that return and leave the turns and their controls alone. *)
Definition silent `{TurnHost} {A} (m : TS A) : Prop :=
  ∀ s, ∃ a s', m s = (Ok a, s') ∧ d_turns s' = d_turns s ∧ d_controls s' = d_controls s.

(** Row [id] has the core [k]; the other rows and the controls are those of [s0]. *)
Definition frame (s0 : db) (id : Z) (k : core) (s : db) : Prop :=
  d_controls s = d_controls s0 ∧ (∀ j, j ≠ id → d_turns s !! j = d_turns s0 !! j) ∧
  ∃ t, d_turns s !! id = Some t ∧ core_of t = k.

(** Triples of statements that cannot raise. *)
Abbreviation total P m Q := (hoare P m Q (λ _, False)).

Section silence.
Context `{TurnHost}.

Lemma silent_ret {A} (a : A) : silent (mret a).
Proof. intros s. by eexists _, _. Qed.
Lemma silent_modify f : (∀ s, d_turns (f s) = d_turns s ∧ d_controls (f s) = d_controls s) → silent (modify f).
Proof. intros Hf s. by eexists _, _. Qed.
Lemma silent_bind {A B} (m : TS A) (f : A → TS B) : silent m → (∀ a, silent (f a)) → silent (m ≫= f).
Proof.
  intros Hm Hf s. destruct (Hm s) as (a & s1 & H1 & HT1 & HC1). destruct (Hf a s1) as (b & s2 & H2 & HT2 & HC2).
  exists b, s2. rewrite ST_bind_at, H1. split_and!; congruence.
Qed.
Lemma silent_gets {A} (f : db → A) : silent (gets f).
Proof. intros s. by eexists _, _. Qed.
Lemma silent_outside {A} (f : nat → A) : silent (outside f).
Proof. intros s. by eexists _, _. Qed.
Lemma silent_event id e d : silent (append_event id e d).
Proof.
  apply silent_bind; [apply silent_outside|]. intros []; [by apply silent_modify|apply silent_ret].
Qed.
Lemma silent_message m : silent (create_message m).
Proof. intros s. by eexists _, _. Qed.
Lemma silent_touch c : silent (touch_conversation c).
Proof. destruct c; intros s; by eexists _, _. Qed.
Lemma silent_mark id t : silent (_mark_turn_failure id t).
Proof. by apply silent_modify. Qed.
Lemma silent_requested id t : silent (cancel_is_requested id t).
Proof. unfold cancel_is_requested. case_match; [apply silent_ret|apply silent_gets]. Qed.

Lemma total_bind {A B} P (Q : A → db → Prop) (K : B → db → Prop) (m : TS A) (f : A → TS B) :
  total P m Q → (∀ a, total (Q a) (f a) K) → total P (m ≫= f) K.
Proof. apply hoare_bind. Qed.

Lemma total_silent {A} s0 id k (m : TS A) : silent m → total (frame s0 id k) m (λ _, frame s0 id k).
Proof.
  intros Hm s (HC & HO & t & Ht & Hk). destruct (Hm s) as (a & s' & -> & HT & HC').
  split_and!; [congruence|intros j Hj; rewrite HT; by apply HO|]. exists t. by rewrite HT.
Qed.

Lemma total_bind_silent {A B} s0 id k (m : TS A) (f : A → TS B) K :
  silent m → (∀ a, total (frame s0 id k) (f a) K) → total (frame s0 id k) (m ≫= f) K.
Proof. intros Hm Hf. eapply total_bind; [by apply total_silent|exact Hf]. Qed.
End silence.

Create HintDb silent discriminated.
#[export] Hint Resolve silent_ret silent_gets silent_outside silent_event silent_message silent_touch
  silent_mark silent_requested : silent.

(** ** Writes that cannot fail *)

(** The failure overlay accepts these values: they carry no envelope of their own, and a final
    failure names a code of the contract. *)
Definition accepted (k : core) (fs : list field) : Prop :=
  written_failure fs = None ∧
  (_TERMINAL_FAILURE_STATES (default (k_state k) (written_state fs)) = true →
   ∃ code, written_error fs = Some (Some code) ∧ fullmatch _CODE_RE code = true).

Section writes.
Context `{TurnHost}.
Hypothesis host_diagnostics : ∀ n, fullmatch _DIAGNOSTIC_ID_RE (diagnostic_token n) = true.

Lemma overlay_silent t fs : accepted (core_of t) fs → silent (failure_overlay t fs).
Proof.
  intros [Hf Ha]. unfold failure_overlay. cbv zeta. rewrite Hf.
  change (k_state (core_of t)) with (t_state t) in Ha. change (truthy (default VNone None)) with false. cbv iota.
  destruct (_ || _); [apply silent_ret|].
  destruct (default (t_error_code t) (written_error fs)) as [[|c e]|] eqn:He; try apply silent_ret.
  destruct (_ && _) eqn:Hterm; [|apply silent_ret]. apply andb_true_iff in Hterm as [Hterm _].
  destruct (Ha Hterm) as (code & Hcode & Hre). rewrite Hcode in He. injection He as ->.
  intros s. destruct (terminal_envelope_built None (c :: e)
    (default (t_write_barrier t) (written_barrier fs)) (diagnostic_token (d_ticks s)))
    as (x & Hx & _); [done|done|apply host_diagnostics|].
  rewrite ST_bind_at. change (outside diagnostic_token s) with (@Ok turn_exn _ (diagnostic_token (d_ticks s)), bump_tick s).
  cbv beta iota. rewrite Hx. by eexists _, _.
Qed.

Lemma total_write s0 id k fs :
  accepted k fs → k_valid (set_cores fs k) →
  total (frame s0 id k) (write id fs) (λ _, frame s0 id (set_cores fs k)).
Proof.
  intros Ha Hv s (HC & HO & t & Ht & <-). unfold write. rewrite ST_bind_at. unfold get_turn, gets.
  rewrite Ht, ST_bind_lift. simpl. rewrite ST_bind_at.
  destruct (overlay_silent t fs Ha s) as (fs' & s1 & E & HT1 & HC1).
  pose proof (overlay_fields t fs s) as Hfs. rewrite E in Hfs |- *. simpl in Hfs.
  rewrite ST_bind_at, (update_turn_at _ s1 t) by by rewrite HT1.
  pose proof (overlay_core t fs fs' Hfs) as Hk.
  assert (attempts_valid (set_fields fs' t) = true) as Hav.
  { rewrite <- Hk in Hv. destruct Hv as [[? ?] ?]. unfold attempts_valid. simpl in *. lia. }
  rewrite Hav.
  assert (frame s0 id (set_cores fs (core_of t)) (with_turns <[id := set_fields fs' t]> s1)) as Hframe.
  { split_and!; simpl; [congruence| |].
    - intros j Hj. rewrite lookup_insert_ne by done. rewrite HT1. by apply HO.
    - eexists. by rewrite lookup_insert_eq. }
  revert Hframe. generalize (with_turns <[id := set_fields fs' t]> s1). intros s2.
  assert (silent (match written_state fs with
     | Some (TFailed | TRecoveryRequired | TCancelled) =>
         if t_write_barrier (set_fields fs' t) then _mark_turn_failure id (set_fields fs' t) else mret tt
     | _ => mret tt end)) as Hm by (repeat case_match; eauto with silent).
  exact (total_silent s0 id _ _ Hm s2).
Qed.

Lemma total_finalize s0 id t :
  k_valid (core_of t) → is_active t →
  total (frame s0 id (core_of t)) (_finalize_interrupted_answer id t) (λ _, frame s0 id (core_of t)).
Proof.
  intros Hv Ha.
  assert (∀ k fs, k = core_of t → written_failure fs = None → written_state fs = None → accepted k fs) as Hacc.
  { intros k fs -> Hf Hs. split; [done|]. rewrite Hs. simpl. by destruct Ha as [->| ->]. }
  unfold _finalize_interrupted_answer, finalize_from_live.
  destruct (t_assistant_message t); [apply total_silent; eauto with silent|].
  apply total_bind_silent; [eauto with silent|intros s1].
  destruct (_ ≫= _) as [[m msg]|].
  - eapply total_bind; [apply total_write; [by apply Hacc|done]|intros ?]. apply total_silent. eauto with silent.
  - destruct (t_conversation t) as [c|]; [|apply total_silent; eauto with silent].
    apply total_bind_silent; [eauto with silent|intros at_]. cbv zeta.
    apply total_bind_silent; [eauto with silent|intros m].
    eapply total_bind; [apply total_write; [apply Hacc; [done|by destruct (t_result t)..]|by destruct (t_result t)]|intros ?].
    replace (set_cores _ (core_of t)) with (core_of t) by by destruct (t_result t).
    apply total_silent. eauto with silent.
Qed.

(** What the record of a lost worker's turn makes of it. *)
Definition recovered_core (s : db) (id : Z) (t : turn) : core :=
  let stopped := bool_decide (t_state t = TCancelRequested)
    || match control_of s id t with Some c => c_cancel_requested c | None => false end in
  MkCore
    (if stopped then TCancelled
     else if truthy (t_result t) then TCompleted
     else if t_write_barrier t then TRecoveryRequired
     else if t_attempt_count t <? t_max_attempts t then TQueued else TFailed)
    (t_write_barrier t) (t_attempt_count t) (t_max_attempts t) None None.

Lemma requested_value id t s :
  cancel_is_requested id t s =
  (Ok (bool_decide (t_state t = TCancelRequested)
       || match control_of s id t with Some c => c_cancel_requested c | None => false end), s).
Proof. unfold cancel_is_requested. by destruct (bool_decide _). Qed.

Lemma control_same s s' id t : d_controls s' = d_controls s → control_of s' id t = control_of s id t.
Proof. unfold control_of. by intros ->. Qed.

Lemma total_recover s0 n id t :
  d_turns s0 !! id = Some t → is_active t → k_valid (core_of t) →
  total (λ s, s = s0) (recover_turn n tt id) (λ _, frame s0 id (recovered_core s0 id t)).
Proof.
  intros Ht Ha Hv s Hs. simpl in Hs. rewrite Hs. clear s Hs. unfold recover_turn. rewrite ST_bind_at. unfold get_turn, gets. rewrite Ht.
  rewrite ST_bind_at, requested_value. unfold recovered_core. cbv zeta.
  assert (frame s0 id (core_of t) s0) as Hframe by (split_and!; [done|done|by exists t]).
  assert (∀ code, fullmatch _CODE_RE code = true → ∀ k x n,
    accepted k (FState x :: FErrorCode (Some code) :: FCompletedAt (Some n) :: released)) as Hacc.
  { intros code Hcode k x n'. split; [done|]. intros _. by exists code. }
  pose proof (λ (m : TS unit) Q (Hm : total (frame s0 id (core_of t)) m Q), Hm s0 Hframe) as Hat.
  destruct (_ || _); [|destruct (truthy _); [|destruct (t_write_barrier t) eqn:Hb; [|destruct (_ <? _)]]];
    apply (Hat _ (λ _, frame s0 id _)).
  - eapply total_bind; [by apply total_finalize|intros ?].
    eapply total_bind; [by apply total_write|intros ?]. apply total_silent. eauto with silent.
  - eapply total_bind; [by apply total_write|intros ?]. apply total_silent. eauto with silent.
  - eapply total_bind; [apply total_write; [by apply Hacc|done]|intros ?].
    unfold core_of. rewrite Hb. apply total_silent. eauto with silent.
  - eapply total_bind; [by apply total_write|intros ?].
    unfold core_of. rewrite Hb. apply total_silent. eauto with silent.
  - eapply total_bind; [apply total_write; [by apply Hacc|done]|intros ?].
    unfold core_of. rewrite Hb. apply total_silent. eauto with silent.
Qed.

Lemma recovered_same s s' id t : d_controls s' = d_controls s → recovered_core s' id t = recovered_core s id t.
Proof. intros HC. unfold recovered_core. by rewrite (control_same s s'). Qed.

(** The store while the scan is being worked off. *)
Definition recovering (s0 : db) (seen : list Z) (s : db) : Prop :=
  d_controls s = d_controls s0 ∧ (∀ j, j ∉ seen → d_turns s !! j = d_turns s0 !! j) ∧
  ∀ id t, id ∈ seen → d_turns s0 !! id = Some t →
    ∃ t', d_turns s !! id = Some t' ∧ core_of t' = recovered_core s0 id t.

Lemma total_recover_all s0 n ids :
  NoDup ids → table_ok (d_turns s0) → (∀ id, id ∈ ids → ∃ t, d_turns s0 !! id = Some t ∧ is_active t) →
  total (λ s, s = s0) (foldST (recover_turn n) tt ids) (λ _, recovering s0 ids).
Proof.
  intros Hnd Hok Hids.
  eapply (hoare_conseq _ (recovering s0 []) _ (λ _, recovering s0 ids) _ (λ _, False)); [|intros ? ->|done|done].
  2: { split_and!; [done|done|]. intros ?? []%elem_of_nil. }
  apply (hoare_fold (λ seen (_ : unit), recovering s0 seen)). intros seen id rest [] Heq s (HC & HO & HD).
  destruct (Hids id) as (t & Ht & Ha); [rewrite Heq; set_solver|].
  assert (id ∉ seen) as Hid. { rewrite Heq in Hnd. apply NoDup_app in Hnd as (_ & Hd & _). set_solver. }
  pose proof (ok_rows _ Hok _ _ Ht) as [Hv _ _].
  pose proof Ht as Ht'. rewrite <- (HO id Hid) in Ht'.
  pose proof (total_recover s n id t Ht' Ha Hv s eq_refl) as Hrun.
  destruct (recover_turn n tt id s) as [[a|e] s']; [|done]. destruct Hrun as (HC' & HO' & t' & Ht1 & Hk).
  rewrite (recovered_same s0 s) in Hk by done. split_and!; [congruence| |].
  - intros j Hj. rewrite HO' by set_solver. apply HO. set_solver.
  - intros j x Hj Hx. destruct (decide (j = id)) as [->|Hne].
    + exists t'. split; [done|]. rewrite Hk. congruence.
    + rewrite HO' by done. apply HD; [set_solver|done].
Qed.
End writes.

(** The leases the scan can take: expired and not locked by another session. *)
Definition expired (n : Z) (locked : Z → bool) (s : db) : list (Z * turn) :=
  List.filter (λ p, stale n p.2 && negb (locked p.1)) (rows s).

Lemma stale_ids_all n locked s id t :
  (length (expired n locked s) <= _STALE_SCAN_LIMIT)%nat →
  d_turns s !! id = Some t → stale n t = true → locked id = false → id ∈ stale_ids n locked s.
Proof.
  intros Hlen Ht Hst Hl. unfold stale_ids. rewrite take_ge.
  - apply list_elem_of_fmap. exists (id, t). split; [done|]. rewrite sort_by_perm.
    apply list_elem_of_In, filter_In. rewrite <- list_elem_of_In. split; [by apply elem_of_map_to_list|].
    simpl. by rewrite Hst, Hl.
  - etrans; [|exact Hlen]. apply Nat.eq_le_incl, Permutation_length, sort_by_perm.
Qed.

Section recovery.
Context `{TurnHost}.

(** C29: The recovery transaction always commits: each turn its scan found ends cancelled,
    completed, under review, queued or failed as its stop request, result, barrier and attempts
    decide, without a lease, no other row changes, and the scan finds every expired lease that
    is not locked when at most 25 have expired. *)
Theorem recovery_settles_expired_leases n s :
  (∀ k, fullmatch _DIAGNOSTIC_ID_RE (diagnostic_token k) = true) → store_ok s →
  let locked := row_locked (d_ticks s) in
  let found := stale_ids n locked s in
  ∃ s', recover_transaction n s = (Ok (negb (bool_decide (length found = 0%nat))), s') ∧
    (∀ id t, id ∈ found → d_turns s !! id = Some t →
       ∃ t', d_turns s' !! id = Some t' ∧ core_of t' = recovered_core s id t) ∧
    (∀ id, id ∉ found → d_turns s' !! id = d_turns s !! id) ∧
    ((length (expired n locked s) <= _STALE_SCAN_LIMIT)%nat →
     ∀ id t, d_turns s !! id = Some t → stale n t = true → locked id = false → id ∈ found).
Proof.
  intros Hhost [Hok _] locked found.
  pose proof (total_recover_all Hhost (bump_tick s) n found (stale_ids_nodup _ _ _) Hok
    (stale_ids_active n locked s) (bump_tick s) eq_refl) as Hrun.
  unfold recover_transaction, transaction. rewrite ST_bind_at.
  change (outside row_locked s) with (@Ok turn_exn _ locked, bump_tick s). cbv beta iota.
  rewrite ST_bind_at. change (gets (stale_ids n locked) (bump_tick s)) with (@Ok turn_exn _ found, bump_tick s).
  cbv beta iota. rewrite ST_bind_at.
  destruct (foldST (recover_turn n) tt found (bump_tick s)) as [[a|e] s']; [|done].
  destruct Hrun as (HC & HO & HD). exists s'. split_and!; [done| |done|].
  - intros id t Hid Ht. destruct (HD id t Hid Ht) as (t' & Ht' & Hk). exists t'. split; [done|]. by rewrite Hk.
  - intros Hlen id t. by apply stale_ids_all.
Qed.
End recovery.
