(* ===== verification/TurnWorker.v ===== *)
(** * Turns: workers and requests

    What a worker that lost its lease can do, the repetition of a request, and the slot of the
    scheduler as a sequence of steps. *)
From S2P Require Import Prelude PyText Regex PyValue Json Failure TurnStore TurnQueue TurnControl TurnJournal TurnSpec.
From S2P Require Import TurnSteps TurnReach.
Local Open Scope Z_scope.

(** The transactions of a worker on its turn. *)
Inductive worker_transaction `{TurnHost} (id : Z) (tok : pystr) : (db → db) → Prop :=
| w_transcript v : worker_transaction id tok (λ s, (persist_working_transcript id tok v s).2)
| w_barrier e w : worker_transaction id tok (λ s, (before_effect id tok e w s).2)
| w_checkpoint e w phase p x :
    worker_transaction id tok (λ s, (recovery_checkpoint id tok e w phase p x s).2)
| w_complete v : worker_transaction id tok (λ s, (transaction (after_run id tok v) s).2)
| w_cancel : worker_transaction id tok (λ s, (cancel_transaction id tok s).2)
| w_fail code : worker_transaction id tok (λ s, (fail_transaction id tok code s).2)
| w_fail_with carried code :
    worker_transaction id tok (λ s, (fail_with_failure_transaction id tok carried code s).2).

Section worker.
Context `{TurnHost}.

Lemma get_bind {B} id (k : option turn → TS B) s : (get_turn id ≫= k) s = k (d_turns s !! id) s.
Proof. done. Qed.

Lemma transaction_same {A} (m : TS A) s :
  (∀ a s', m s = (Ok a, s') → d_turns s' = d_turns s) → d_turns (transaction m s).2 = d_turns s.
Proof. intros Hm. unfold transaction. destruct (m s) as [[a|e] s']; [by eapply Hm|done]. Qed.

Lemma lost_lease s id tok :
  (∀ t, d_turns s !! id = Some t → t_lease_token t ≠ Some tok) → leased (d_turns s !! id) tok = None.
Proof.
  intros Hl. unfold leased. destruct (d_turns s !! id) as [t|]; [|done]. simpl.
  rewrite bool_decide_eq_false_2; [done|]. by apply Hl.
Qed.

Lemma require_lost s lost id tok a s' :
  leased (d_turns s !! id) tok = None → require_lease lost id tok s = (Ok a, s') → False.
Proof. intros Hl. unfold require_lease. rewrite get_bind, Hl. done. Qed.

(** A worker whose token is not the token of the turn changes no turn by any checkpoint,
    completion, cancellation or failure transaction. *)
Theorem lost_worker_changes_no_turn s id tok f :
  (∀ t, d_turns s !! id = Some t → t_lease_token t ≠ Some tok) → worker_transaction id tok f →
  d_turns (f s) = d_turns s.
Proof.
  intros Hl Hw. pose proof (lost_lease s id tok Hl) as Hlost. destruct Hw; apply transaction_same; intros a s' Hrun.
  - apply ST_bind_Ok in Hrun as (t & s1 & H1 & _). by apply require_lost in H1.
  - apply ST_bind_Ok in Hrun as (u & s1 & H1 & H2). apply quiet_run in H1; [|apply quiet_current].
    apply ST_bind_Ok in H2 as (t & s2 & H2 & _). rewrite <- H1 in Hlost. by apply require_lost in H2.
  - cbv zeta in Hrun. apply ST_bind_Ok in Hrun as (? & s1 & [_ ->]%lift_Ok & Hrun).
    apply ST_bind_Ok in Hrun as (? & s1 & [_ ->]%lift_Ok & Hrun).
    apply ST_bind_Ok in Hrun as (? & s1 & Hrun & _). by apply require_lost in Hrun.
  - unfold after_run in Hrun. st_inv. unfold get_turn in *. st_inv. result_inv.
    case_bool_decide as Hr; [|by st_inv]. destruct Hr as [_ Hr]. exfalso. by eapply Hl.
  - rewrite get_bind, Hlost in Hrun. by injection Hrun as <- <-.
  - rewrite get_bind, Hlost in Hrun. by injection Hrun as <- <-.
  - rewrite get_bind, Hlost in Hrun. by injection Hrun as <- <-.
Qed.
End worker.

Section enqueue.
Context `{TurnHost}.

Lemma quiet_same {A} (m : TS A) s a s' : m s = (Ok a, s') → quiet m → same_turns s s'.
Proof. intros Hs Hm. specialize (Hm s). by rewrite Hs in Hm. Qed.

(** The turn of a user with a request identifier. *)
Definition requested_by (u : Z) (r : pystr) (t : turn) : Prop := t_user t = u ∧ t_client_request_id t = Some r.

(** The conversation of a request: its own, or a new one. *)
Definition conversation_of (c : caller) (conv : pyval) (text : pystr) : TS Z :=
  if truthy conv then _owned_conversation c conv
  else
    uuid ← outside new_uuid;
    n ← now;
    i ← next_id;
    modify (with_conversations <[i := MkConversation uuid (u_id c) (_title text) n]>);;
    mret i.

Lemma conversation_run c conv text s i s' :
  conversation_of c conv text s = (Ok i, s') →
  same_turns s s' ∧ d_messages s' = d_messages s ∧
  d_conversations s' = if truthy conv then d_conversations s
    else <[d_next s := MkConversation (new_uuid (d_ticks s)) (u_id c) (_title text) (clock (S (d_ticks s)))]>
           (d_conversations s).
Proof.
  unfold conversation_of. destruct (truthy conv).
  - unfold _owned_conversation. intros Hrun. st_inv. case_match; [|done]. case_match. by st_inv.
  - intros [= <- <-]. split_and!; [|done..]. split; simpl; [done|lia].
Qed.

Definition requested (u : Z) (r : pystr) (p : Z * turn) : bool :=
  (t_user p.2 =? u) && bool_decide (t_client_request_id p.2 = Some r).

Lemma requested_true u r p : requested u r p = true ↔ requested_by u r p.2.
Proof. unfold requested, requested_by. by rewrite andb_true_iff, Z.eqb_eq, bool_decide_eq_true. Qed.

Lemma head_filter {A} (f : A → bool) l :
  match head (List.filter f l) with Some x => x ∈ l ∧ f x = true | None => ∀ x, x ∈ l → f x = false end.
Proof.
  induction l as [|x l IH]; simpl; [by intros ? ?%elem_of_nil|]. destruct (f x) eqn:E; simpl; [split; [by left|done]|].
  destruct (head (List.filter f l)); [destruct IH; split; [by right|done]|].
  intros y [->|?]%elem_of_cons; [done|by apply IH].
Qed.

Lemma enqueue_run c m screen policy conv r s i s' :
  r ≠ [] → enqueue_for_current_user c m screen policy conv (VStr r) s = (Ok i, s') →
  ((∃ t, d_turns s !! i = Some t ∧ requested_by (u_id c) r t) ∧
     fst <$> head (List.filter (requested (u_id c) r) (rows s)) = Some i ∧ d_turns s' = d_turns s ∧
     d_messages s' = d_messages s ∧
     (truthy conv = false → ∃ cv, cv_user cv = u_id c ∧ d_conversations s' = <[d_next s := cv]> (d_conversations s))) ∨
  ((∀ j t, d_turns s !! j = Some t → ¬ requested_by (u_id c) r t) ∧ d_next s <= i ∧
   ∃ t, d_turns s' = <[i := t]> (d_turns s) ∧ requested_by (u_id c) r t).
Proof.
  intros Hr Hrun%transaction_Ok. cbv zeta in Hrun.
  apply ST_bind_Ok in Hrun as (? & ? & ?%lift_Ok & Hrun). apply ST_bind_Ok in Hrun as (text & ? & Htext & Hrun).
  apply ST_bind_Ok in Hrun as (sp & ? & Hsp & Hrun). apply ST_bind_Ok in Hrun as (? & ? & Hb & Hrun).
  apply ST_bind_Ok in Hrun as (conversation & s1 & Hc & Hrun). st_inv.
  apply (conversation_run c conv text) in Hc as ([HT Hn] & HM & HC). 
  destruct H0 as [_ ->]. assert (x5 = Some r) as ->.
  { assert (truthy (VStr r) = true) as Htr by by destruct r. rewrite Htr in H1.
    apply fmap_Ok in H1 as (r' & Hr' & ->). unfold _validate_client_request_id in Hr'.
    destruct (fullmatch _ _); congruence. }
  simpl in Hrun. pose proof (head_filter (requested (u_id c) r) (rows s1)) as Hhead. unfold requested at 1 in Hhead.
  change (λ p : Z * turn, (t_user p.2 =? u_id c) && bool_decide (t_client_request_id p.2 = Some r))
    with (requested (u_id c) r) in *.
  unfold rows in *. rewrite HT in *. destruct (head _) as [[j t]|] eqn:Hh.
  - left. st_inv. subst. destruct Hhead as [Hin Hreq]. apply requested_true in Hreq. apply elem_of_map_to_list in Hin.
    split_and!; [by eexists|done|done|done|]. intros Htr. rewrite Htr in HC. eexists. by split; [|exact HC].
  - right. split.
    { intros j t Ht Hreq. assert ((j, t) ∈ map_to_list (d_turns s)) as Hin by by apply elem_of_map_to_list.
      specialize (Hhead _ Hin). apply (requested_true _ _ (j, t)) in Hreq. congruence. }
    st_inv. unfold next_id in *. st_inv.
    subst. repeat match goal with
    | Hm : ?m _ = (Ok _, _) |- _ => apply quiet_same in Hm; [|solve [solve_keeps]]; destruct Hm as [? ?]
    end.
    simpl in *. split; [lia|]. eexists. split; [by repeat match goal with Hd : d_turns _ = _ |- _ => rewrite Hd end|done].
Qed.

(** A request repeated with the same request id by the same user is answered with the same
    turn and adds no turn and no message; without a conversation id it does add one more
    conversation. *)
Theorem repeated_request_answered_once c m screen policy conv c' m' screen' policy' conv' r s i s1 j s2 :
  store_ok s → r ≠ [] → u_id c' = u_id c →
  enqueue_for_current_user c m screen policy conv (VStr r) s = (Ok i, s1) →
  enqueue_for_current_user c' m' screen' policy' conv' (VStr r) s1 = (Ok j, s2) →
  j = i ∧ d_turns s2 = d_turns s1 ∧ d_messages s2 = d_messages s1 ∧
  (truthy conv' = false →
   ∃ cv, cv_user cv = u_id c ∧ d_conversations s2 = <[d_next s1 := cv]> (d_conversations s1)).
Proof.
  intros [_ Hnext] Hr Hu H1 H2. apply enqueue_run in H1; [|done]. apply enqueue_run in H2; [|done]. rewrite Hu in H2.
  destruct H1 as [((t & Ht & Hreq) & Hhead & HT & _ & _)|(Hnone & Hn & t & HT & Hreq)].
  - destruct H2 as [(_ & Hhead2 & HT2 & HM & HC)|(Hnone & _)].
    + split_and!; [|done..]. unfold rows in *. rewrite HT in Hhead2. congruence.
    + exfalso. apply (Hnone i t); [by rewrite HT|done].
  - destruct H2 as [((t2 & Ht2 & Hreq2) & _ & HT2 & HM & HC)|(Hnone2 & _)].
    + split_and!; [|done..]. destruct (decide (j = i)) as [|Hne]; [done|].
      rewrite HT, lookup_insert_ne in Ht2 by done. by destruct (Hnone j t2).
    + exfalso. apply (Hnone2 i t); [|done]. by rewrite HT, lookup_insert_eq.
Qed.
End enqueue.

(** ** The slot of the scheduler *)

(** What the slot relies on: a run of the agent changes the turns by the steps of [turn_step]. *)
Class RuntimeSteps `{TurnHost} `{!Runtime} (late : Z → Prop) : Prop := {
  run_current id tok allowed s : rtc (turn_step late) s (ro_current (run_turn id tok allowed s));
  run_committed id tok allowed s : rtc (turn_step late) s (ro_committed (run_turn id tok allowed s)) }.

Section slot.
Context `{TurnHost} (late : Z → Prop).

Abbreviation stepping := (keeps (rtc (turn_step late))).

Lemma stepping_quiet {A} (m : TS A) : quiet m → stepping m.
Proof. intros Hm s. apply rtc_once, do_other, Hm. Qed.

Lemma stepping_once {A} (m : TS A) : (∀ s, turn_step late s (m s).2) → stepping m.
Proof. intros Hm s. apply rtc_once, Hm. Qed.

Lemma stepping_finally {A} (m : TS A) h : stepping m → stepping h → stepping (finally m h).
Proof.
  intros Hm Hh s. unfold finally. specialize (Hm s). destruct (m s) as [r s1]. specialize (Hh s1).
  simpl in *. destruct (h s1) as [[?|?] s2]; by etrans.
Qed.

Lemma stepping_recover : stepping _recover_stale_turns.
Proof.
  unfold _recover_stale_turns. apply keeps_bind; [apply _|apply stepping_quiet; solve_keeps|intros n].
  apply keeps_bind; [apply _|apply stepping_once; intros s; apply do_recover|intros b].
  apply stepping_quiet. solve_keeps.
Qed.

Lemma stepping_claim : stepping _claim_next_turn.
Proof.
  apply keeps_bind; [apply _|apply stepping_once; intros s; apply do_claim|intros o].
  apply stepping_quiet. solve_keeps.
Qed.

Lemma quiet_settled id code x : quiet (report_settled id code x).
Proof. unfold report_settled. solve_keeps. Qed.

Lemma stepping_fail id tok code : stepping (_fail_claimed_turn id tok code).
Proof.
  apply keeps_bind; [apply _|apply stepping_once; intros s; apply do_fail|intros x].
  apply stepping_quiet, quiet_settled.
Qed.

Lemma stepping_fail_with id tok carried code : stepping (_fail_claimed_turn_with_failure id tok carried code).
Proof.
  apply keeps_bind; [apply _|apply stepping_once; intros s; apply do_fail_with|intros x].
  apply stepping_quiet, quiet_settled.
Qed.

Lemma quiet_cancellation id tok : quiet (_cancellation_requested id tok).
Proof. unfold _cancellation_requested. solve_keeps. Qed.

Lemma stepping_cancel id tok : stepping (_cancel_claimed_turn id tok).
Proof.
  apply keeps_bind; [apply _|apply stepping_once; intros s; apply do_cancelled|intros b].
  apply stepping_quiet. solve_keeps.
Qed.

Context `{!Runtime} `{!RuntimeSteps late}.

Lemma stepping_run id tok allowed : stepping (run_and_commit id tok allowed).
Proof.
  intros s. unfold run_and_commit. destruct (ro_result _) as [v|e]; [|apply run_committed].
  destruct (after_run id tok v (ro_current (run_turn id tok allowed s))) as [[b|e] s'] eqn:E; simpl; [|apply run_committed].
  eapply rtc_r; [apply (run_current id tok allowed)|].
  assert (s' = (transaction (after_run id tok v) (ro_current (run_turn id tok allowed s))).2) as ->
    by (unfold transaction; by rewrite E).
  apply do_complete.
Qed.

Lemma stepping_execute id tok : stepping (_execute_claimed_turn id tok).
Proof.
  apply keeps_bind; [apply _|apply stepping_quiet; eauto using quiet_cancellation with keeps|intros [|]].
  { apply stepping_cancel. }
  apply keeps_bind; [apply _| |intros b; apply stepping_quiet; solve_keeps].
  unfold execute_transaction. apply keeps_bind; [apply _|apply stepping_quiet; solve_keeps|intros o].
  destruct (leased o tok) as [t|]; [|apply stepping_quiet; solve_keeps].
  case_match; [apply stepping_quiet; solve_keeps|].
  apply keeps_bind; [apply _|apply stepping_quiet; solve_keeps|intros user].
  destruct (user _) as [[[|] companies]|]; try (apply stepping_quiet; solve [solve_keeps]).
  apply keeps_bind; [apply _|apply stepping_quiet; solve_keeps|intros ?]. apply stepping_run.
Qed.

(** A slot of the scheduler is a sequence of the transactions of the queue, whatever the
    agent run returns or raises, provided the run itself changes the store by such transactions.
    *)
Theorem slot_is_a_sequence_of_steps s : rtc (turn_step late) s (_cron_run_turn_slot s).2.
Proof.
  revert s. change (stepping _cron_run_turn_slot). unfold _cron_run_turn_slot.
  apply keeps_bind; [apply _|apply stepping_recover|intros ?].
  apply keeps_bind; [apply _|apply stepping_claim|intros [[id tok]|]]; [|apply stepping_quiet; solve_keeps].
  apply stepping_finally; [|apply stepping_quiet; solve_keeps].
  apply keeps_catch; [apply _|apply stepping_execute|intros e].
  destruct e; first [apply stepping_fail_with | apply stepping_fail].
Qed.
End slot.

(** * Turns: the attempts a redirect leaves

    A redirect of a turn that waits for approval sends it back to reasoning with a new limit of
    attempts, except when the limit is exhausted: then the turn is queued and never claimed. *)
Local Open Scope Z_scope.

Section redirect.
Context `{TurnHost} (late : Z → Prop).

Lemma runs_supersede_row T0 id t :
  t_state t = TAwaiting →
  runs (at_row T0 id (core_of t)) (supersede_approval id t) (λ _, at_row T0 id
    (MkCore TQueued (t_write_barrier t) (t_attempt_count t) (next_max_attempts t) None None)).
Proof.
  intros Hk. unfold supersede_approval. runs_walk. eapply runs_life; [done|].
  unfold core_of. rewrite Hk. apply life_resume.
Qed.

(** A new redirect of an approval wait. *)
Lemma redirect_run c uuid m cid s x sequence s' id t :
  redirect_for_current_user c uuid m cid s = (Ok (x, sequence, false), s') →
  _owned_turn c uuid s = (Ok id, s) → d_turns s !! id = Some t → t_state t = TAwaiting →
  ∃ t', d_turns s' !! id = Some t' ∧
    core_of t' = MkCore TQueued (t_write_barrier t) (t_attempt_count t) (next_max_attempts t) None None.
Proof.
  intros Hrun%transaction_Ok Hown Ht Ha.
  apply ST_bind_Ok in Hrun as (? & ? & Hl & Hrun). st_inv.
  match goal with Ho : _owned_turn _ _ _ = (Ok _, _) |- _ => rewrite Hown in Ho; injection Ho as <- <- end.
  unfold get_turn in *. st_inv. 
  assert (x8 = t) as -> by (result_inv; congruence).
  destruct (List.find _ _) as [i|]; st_inv; [congruence|].
  rewrite (bool_decide_eq_true_2 (t_state t = TAwaiting)) in * by done.
  repeat match goal with
    | Hm : _control_for_turn _ _ _ = (Ok _, _) |- _ => apply quiet_same in Hm; [|solve [solve_keeps]]; destruct Hm as [? ?]
    | Hm : create_message _ _ = (Ok _, _) |- _ => apply quiet_same in Hm; [|solve [solve_keeps]]; destruct Hm as [? ?]
    | Hm : touch_conversation _ _ = (Ok _, _) |- _ => apply quiet_same in Hm; [|solve [solve_keeps]]; destruct Hm as [? ?]
    | Hm : (if _ then _ else wake) _ = (Ok _, _) |- _ => apply quiet_same in Hm; [|solve [solve_keeps]]; destruct Hm as [? ?]
    end. simpl in *.
  match goal with Hs : supersede_approval _ _ ?s5 = (Ok _, ?s6) |- _ =>
    assert (d_turns s5 = d_turns s) as HT5 by congruence;
    pose proof (runs_supersede_row (d_turns s5) id t Ha (d_next s5) s5) as Hrow; rewrite Hs in Hrow end.
  destruct Hrow as [(_ & (t' & Ht' & Hk) & _) _].
  { split; [|done]. apply at_row_start. by rewrite HT5. }
  exists t'. split; [|done]. congruence.
Qed.

(** A redirect of an approval wait whose 19 attempts are used up queues the turn with no
    attempt left: from then on it is never claimed, and it stays queued until the user cancels
    it. *)
Theorem redirect_of_the_last_attempt_is_never_run c uuid m cid s x sequence s' s2 id t :
  store_ok s → ¬ late id → _owned_turn c uuid s = (Ok id, s) → d_turns s !! id = Some t → t_state t = TAwaiting →
  t_max_attempts t = _MAX_ATTEMPTS_WITH_REDIRECTS → t_attempt_count t = _MAX_ATTEMPTS_WITH_REDIRECTS →
  redirect_for_current_user c uuid m cid s = (Ok (x, sequence, false), s') → rtc (turn_step late) s' s2 →
  ∃ t', d_turns s2 !! id = Some t' ∧ (t_state t' = TQueued ∨ t_state t' = TCancelled) ∧
    t_attempt_count t' = t_attempt_count t ∧ ∀ s3, turn_step late s2 s3 → active <$> d_turns s3 !! id = Some false.
Proof.
  intros Hok Hl Hown Ht Ha Hm Hc Hrun Hsteps.
  destruct (redirect_run _ _ _ _ _ _ _ _ _ _ Hrun Hown Ht Ha) as (t1 & Ht1 & Hk1).
  injection Hk1 as Hs1 _ Ha1 Hm1 _ _. unfold next_max_attempts in Hm1. rewrite Hm, Hc in Hm1.
  assert (store_ok s') as Hok'.
  { apply (reach_ok late s s'); [|done]. apply rtc_once. 
    replace s' with (redirect_for_current_user c uuid m cid s).2 by by rewrite Hrun. apply do_redirect. }
  assert (t_max_attempts t1 <= t_attempt_count t1) as Hle by (rewrite Hm1, Ha1, Hc; by vm_compute).
  destruct (stays_stranded late s' s2 id t1) as (t2 & Ht2 & Ha2 & Hs2); [done..|].
  exists t2. split_and!; [done|done|congruence|]. intros s3 Hs3.
  destruct (stays_stranded late s' s3 id t1) as (t3 & Ht3 & _ & Hs); [done|by eapply rtc_r|done..|].
  rewrite Ht3. simpl. unfold active. by destruct Hs as [->| ->].
Qed.
End redirect.
