(* ===== verification/TurnRepair.v ===== *)
(** * Turns: what the journal records

    A synchronisation keeps the rows it finds, with their bindings and their settled states, and
    records every step of the plan; a step whose row was rolled back by a repair is refused. *)
From S2P Require Import Prelude PyText PyValue Json Failure TurnStore TurnQueue TurnControl TurnJournal.
From S2P Require Import TurnSpec TurnSteps TurnReach.
Local Open Scope Z_scope.

(** ** Rows and their identity *)

Definition key (r : journal_row) : Z * pystr := (j_turn r, j_step_id r).

(** [unique(turn_id, step_id)], as the table enforces it. *)
Definition journal_unique (l : list journal_row) : Prop := NoDup (key <$> l).

(** What a row never changes. *)
Definition binding (r : journal_row) :=
  (j_turn r, j_turn_uuid r, j_user r, j_company r, j_unit_id r, j_step_id r, j_capability r, j_version r,
   j_recovery_mode r, j_classification r, j_before r).

Definition settled_row (x : journal_state) : Prop :=
  x = JVerified ∨ x = JSkipped ∨ x = JRolledBack ∨ x = JReverted.

(** A row before and after a synchronisation of the turn [id]. *)
Definition kept (id : Z) (r r' : journal_row) : Prop :=
  binding r' = binding r ∧ (j_turn r ≠ id → r' = r) ∧ (settled_row (j_state r) → j_state r' = j_state r) ∧
  (j_state r ≠ JRolledBack → j_state r' ≠ JRolledBack).

(** The journal keeps its rows and gains new ones. *)
Definition extends (id : Z) (l l' : list journal_row) : Prop :=
  ∃ k new, l' = k ++ new ∧ Forall2 (kept id) l k ∧ Forall (λ r, j_turn r = id) new.

#[export] Instance kept_preorder id : PreOrder (kept id).
Proof.
  split; [by intros r; split_and!|]. intros r1 r2 r3 (B1 & T1 & S1 & R1) (B2 & T2 & S2 & R2). split_and!; [congruence| | |auto].
  - intros Hne. rewrite T2, T1; [done|done|]. by rewrite T1.
  - intros Hs. rewrite S2; [by apply S1|]. by rewrite S1.
Qed.

#[export] Instance extends_preorder id : PreOrder (extends id).
Proof.
  split.
  - intros l. exists l, []. split_and!; [by rewrite app_nil_r|reflexivity|done].
  - intros l1 l2 l3 (k1 & n1 & -> & H1 & N1) (k2 & n2 & -> & H2 & N2).
    apply Forall2_app_inv_l in H2 as (k3 & n3 & H3 & H4 & ->).
    exists k3, (n3 ++ n2). split_and!; [by rewrite app_assoc|by etrans|].
    apply Forall_app. split; [|done]. clear -H4 N1. induction H4 as [|x y l l' Hk _ IH]; [done|].
    apply Forall_cons in N1 as [Hx N1]. apply Forall_cons. split; [|by apply IH].
    destruct Hk as (Hb & _). injection Hb as Hb _. congruence.
Qed.

Lemma extends_elem id l l' r : extends id l l' → r ∈ l → ∃ r', r' ∈ l' ∧ kept id r r'.
Proof.
  intros (k & new & -> & Hk & _) Hr. apply list_elem_of_lookup in Hr as [i Hi].
  destruct (Forall2_lookup_l _ _ _ _ _ Hk Hi) as (r' & Hr' & ?). exists r'. split; [|done].
  apply elem_of_app. left. by eapply list_elem_of_lookup_2.
Qed.

Lemma same_step_key id step_id r : same_step id step_id r = true ↔ key r = (id, step_id).
Proof.
  unfold same_step, key. rewrite andb_true_iff, Z.eqb_eq, str_eqb_true. naive_solver.
Qed.

(** ** One step *)

Lemma update_row_kept id r values :
  j_turn r = id → j_state r ≠ JRolledBack → j_state values ≠ JRolledBack → kept id r (update_row r values).
Proof.
  intros Ht Hr Hv. split_and!; [done|by intros []| |].
  - unfold settled_row. simpl. by intros [-> | [-> | [Hs| ->]]].
  - simpl. by destruct (j_state r).
Qed.

(** What the loop over the steps maintains: the rows of the start, the steps so far recorded. *)
Record syncing (id : Z) (l0 : list journal_row) (seen : list pystr) (s : db) : Prop := {
  sy_unique : journal_unique (d_journal s);
  sy_extends : extends id l0 (d_journal s);
  sy_seen : ∀ x, x ∈ seen → ∃ r, r ∈ d_journal s ∧ key r = (id, x) }.

Lemma unique_elem l r r' : journal_unique l → r ∈ l → r' ∈ l → key r = key r' → r = r'.
Proof.
  unfold journal_unique. intros Hu Hr Hr' Hk. apply list_elem_of_lookup in Hr as [i Hi].
  apply list_elem_of_lookup in Hr' as [j Hj].
  assert (i = j) as <-; [|congruence].
  eapply NoDup_lookup; [exact Hu| |]; rewrite list_lookup_fmap; [by rewrite Hi|by rewrite Hj, Hk].
Qed.

Lemma row_state_live step unit_ x : row_state step unit_ = Ok x → x ≠ JRolledBack.
Proof. unfold row_state. intros Hrun. repeat case_match; result_inv; simplify_eq; done. Qed.

Lemma row_values_spec id t v units expires values :
  _row_values id t v units expires = Ok values →
  j_turn values = id ∧ j_state values ≠ JRolledBack ∧
  ∃ d, v = VDict d ∧ get (u "step_id") d = VStr (j_step_id values).
Proof.
  unfold _row_values. intros Hrun. result_inv. destruct v; try discriminate. simplify_eq/=.
  split_and!; [done|by eapply row_state_live|]. eexists. split; [done|]. by apply as_str_Some.
Qed.

(** The journal after the row of a step was found, or created. *)
Lemma updated_syncing id l0 seen s values row :
  syncing id l0 seen s → row ∈ l0 → current_row id row = true → key row = (id, j_step_id values) →
  j_state values ≠ JRolledBack →
  syncing id l0 (seen ++ [j_step_id values])
    (with_journal (fmap (λ r, if same_step id (j_step_id values) r then update_row r values else r)) s).
Proof.
  intros [Hu Hx Hs] Hrow Hcur Hkey Hv.
  set (f := λ r, if same_step id (j_step_id values) r then update_row r values else r).
  assert (∀ r, key (f r) = key r) as Hf. { intros r. unfold f. by case_match. }
  assert (journal_unique (f <$> d_journal s)) as Hu'.
  { unfold journal_unique in *. rewrite <- list_fmap_compose. erewrite list_fmap_ext; [exact Hu|]. intros i r _. apply Hf. }
  split; [exact Hu'| |].
  - etrans; [exact Hx|]. exists (f <$> d_journal s), []. split_and!; [by rewrite app_nil_r| |done].
    apply Forall2_fmap_r, Forall2_same_length_lookup_2; [done|]. intros i r r' Hr Hr'.
    assert (r' = r) as -> by congruence. change (kept id r (f r)). unfold f. destruct (same_step id (j_step_id values) r) eqn:E; [|reflexivity].
    apply same_step_key in E. destruct (extends_elem _ _ _ _ Hx Hrow) as (x & Hin & Hk).
    assert (key x = key row) as Hkx. { destruct Hk as (Hb & _). unfold binding in Hb. unfold key. congruence. }
    assert (x = r) as ->. { eapply unique_elem; [exact Hu|exact Hin|by eapply list_elem_of_lookup_2|congruence]. }
    apply update_row_kept; [by injection E| |done]. apply Hk.
    unfold current_row in Hcur. apply andb_true_iff in Hcur as [_ Hst%negb_true_iff%bool_decide_eq_false].
    intros Hr2. apply Hst. by left.
  - intros x [Hin|Hin%list_elem_of_singleton]%elem_of_app.
    + destruct (Hs x Hin) as (r & Hr & Hk). exists (f r). split; [|by rewrite Hf]. by apply list_elem_of_fmap_2.
    + subst x. destruct (extends_elem _ _ _ _ Hx Hrow) as (r & Hr & Hk). exists (f r).
      split; [by apply list_elem_of_fmap_2|]. rewrite Hf. destruct Hk as (Hb & _). unfold binding in Hb. unfold key in *. congruence.
Qed.

Lemma created_syncing id l0 seen s values :
  syncing id l0 seen s → j_turn values = id →
  existsb (same_step id (j_step_id values)) (d_journal s) = false →
  syncing id l0 (seen ++ [j_step_id values]) (with_journal (λ l, l ++ [values]) s).
Proof.
  intros [Hu Hx Hs] Ht Hnew. rewrite existsb_false in Hnew. split; simpl.
  - unfold journal_unique in *. rewrite fmap_app. apply NoDup_app. split_and!; [done| |by apply NoDup_singleton].
    intros k (r & -> & Hr)%list_elem_of_fmap Hk%list_elem_of_singleton. specialize (Hnew r Hr).
    assert (same_step id (j_step_id values) r = true) as Hc; [|congruence].
    apply same_step_key. rewrite Hk. unfold key. by rewrite Ht.
  - etrans; [exact Hx|]. exists (d_journal s), [values]. split_and!; [done|reflexivity|by constructor].
  - intros x [Hin|Hin%list_elem_of_singleton]%elem_of_app.
    + destruct (Hs x Hin) as (r & Hr & Hk). exists r. split; [|done]. apply elem_of_app. by left.
    + subst x. exists values. split; [|by unfold key; rewrite Ht]. apply elem_of_app. right. by left.
Qed.

(** The step of the plan with the identifier [x], whose row is not a rolled back one. *)
Definition recorded (id : Z) (l0 : list journal_row) (v : pyval) (x : pystr) : Prop :=
  (∃ d, v = VDict d ∧ get (u "step_id") d = VStr x) ∧
  ∀ r, r ∈ l0 → key r = (id, x) → current_row id r = true.

Lemma find_elem {A} (f : A → bool) l x : List.find f l = Some x → x ∈ l ∧ f x = true.
Proof. intros Hf%find_some. by rewrite list_elem_of_In. Qed.

Lemma sync_step_run id t units n l0 seen v s seen' s' :
  journal_unique l0 → syncing id l0 seen s →
  sync_step id t units n (List.filter (current_row id) l0) seen v s = (Ok seen', s') →
  ∃ x, seen' = seen ++ [x] ∧ syncing id l0 seen' s' ∧ recorded id l0 v x.
Proof.
  intros Hu0 Hsync Hrun. unfold sync_step in Hrun.
  apply ST_bind_Ok in Hrun as (values & s1 & [Hv ->]%lift_Ok & Hrun).
  apply row_values_spec in Hv as (Ht & Hstate & d & -> & Hd).
  apply ST_bind_Ok in Hrun as (? & s1 & [_ ->]%lift_Ok & Hrun).
  apply ST_bind_Ok in Hrun as (? & s1 & Hfind & [<- ->]%ret_Ok).
  exists (j_step_id values). split; [done|].
  destruct (List.find _ _) as [row|] eqn:E; st_inv; result_inv.
  - apply find_elem in E as [Hin Hkey]. apply list_elem_of_In, filter_In in Hin as [Hin Hcur].
    apply list_elem_of_In in Hin. apply same_step_key in Hkey. split; [by eapply updated_syncing|].
    split; [by eexists|]. intros r Hr Hkr. by rewrite (unique_elem l0 r row) by congruence.
  - split; [by apply created_syncing|]. split; [by eexists|]. intros r Hr Hkr.
    destruct (extends_elem id l0 (d_journal s) r) as (r' & Hr' & Hk); [apply Hsync|done|].
    match goal with Hn : existsb _ _ = false |- _ => rewrite existsb_false in Hn; specialize (Hn r' Hr') end.
    destruct Hk as (Hb & _). 
    assert (same_step id (j_step_id values) r' = true); [|congruence]. apply same_step_key.
    unfold binding in Hb. unfold key in *. congruence.
Qed.

Lemma sync_steps_run id t units n l0 steps : ∀ seen s seen' s',
  journal_unique l0 → syncing id l0 seen s →
  foldST (sync_step id t units n (List.filter (current_row id) l0)) seen steps s = (Ok seen', s') →
  syncing id l0 seen' s' ∧ ∃ xs, seen' = seen ++ xs ∧ Forall2 (recorded id l0) steps xs.
Proof.
  induction steps as [|v steps IH]; intros seen s seen' s' Hu Hsync Hrun; simpl in Hrun.
  - st_inv. subst. split; [done|]. exists []. by rewrite app_nil_r.
  - apply ST_bind_Ok in Hrun as (seen1 & s1 & H1 & H2).
    destruct (sync_step_run _ _ _ _ _ _ _ _ _ _ Hu Hsync H1) as (x & -> & Hsync1 & Hx).
    destruct (IH _ _ _ _ Hu Hsync1 H2) as (Hsync2 & xs & -> & Hxs). split; [done|].
    exists (x :: xs). split; [by rewrite <- app_assoc|by constructor].
Qed.

Section repair.
Context `{TurnHost}.

Lemma sync_run id t p steps s s' :
  journal_unique (d_journal s) → get (u "steps") p = VList steps →
  _sync_plan id t (VDict p) s = (Ok tt, s') →
  ∃ xs, syncing id (d_journal s) xs s' ∧ Forall2 (recorded id (d_journal s)) steps xs ∧
    ∀ r, r ∈ d_journal s → current_row id r = true → j_step_id r ∈ xs.
Proof.
  intros Hu Hsteps Hrun. unfold _sync_plan in Hrun. st_inv. result_inv. simplify_eq/=.
  rewrite Hsteps in *. simplify_eq/=. 
  match goal with Hn : now s = _ |- _ => injection Hn as <- <- end.
  match goal with Hf : foldST _ _ _ _ = _ |- _ => apply sync_steps_run in Hf as (Hsync & xs & -> & Hxs) end; [|done|].
  - exists xs. split_and!; [exact Hsync|exact Hxs|]. intros r Hr Hcur.
    match goal with Hf : forallb _ _ = true |- _ => rewrite forallb_true in Hf; specialize (Hf r) end.
    match goal with Hf : _ → mem _ _ = true |- _ => apply mem_true in Hf; [exact Hf|] end.
    apply list_elem_of_In, filter_In. by rewrite <- list_elem_of_In.
  - split; [exact Hu|reflexivity|]. by intros ? ?%elem_of_nil.
Qed.

(** A synchronisation that returns changes no turn, keeps one row per turn and step,
    removes no row, changes no row of another turn, no binding and no settled state, and
    afterwards every step of the plan has its row and every live row of the turn is one of the
    plan's steps. *)
Theorem sync_records_the_plan id t p steps s s' :
  journal_unique (d_journal s) → get (u "steps") p = VList steps →
  _sync_plan id t (VDict p) s = (Ok tt, s') →
  d_turns s' = d_turns s ∧ journal_unique (d_journal s') ∧ extends id (d_journal s) (d_journal s') ∧
  (∀ v, v ∈ steps → ∃ d x r, v = VDict d ∧ get (u "step_id") d = VStr x ∧ r ∈ d_journal s' ∧ key r = (id, x)) ∧
  (∀ r, r ∈ d_journal s → current_row id r = true →
     ∃ d, VDict d ∈ steps ∧ get (u "step_id") d = VStr (j_step_id r)).
Proof.
  intros Hu Hsteps Hrun. pose proof (quiet_run _ _ _ _ (quiet_sync id t (VDict p)) Hrun) as HT.
  destruct (sync_run _ _ _ _ _ _ Hu Hsteps Hrun) as (xs & [Hu' Hx Hseen] & Hxs & Hcur).
  split_and!; [done|done|done| |].
  - intros v Hv. apply list_elem_of_lookup in Hv as [i Hi].
    destruct (Forall2_lookup_l _ _ _ _ _ Hxs Hi) as (x & Hix & (d & -> & Hd) & _).
    destruct (Hseen x) as (r & Hr & Hk); [by eapply list_elem_of_lookup_2|]. by exists d, x, r.
  - intros r Hr Hc. specialize (Hcur r Hr Hc). apply list_elem_of_lookup in Hcur as [i Hi].
    destruct (Forall2_lookup_r _ _ _ _ _ Hxs Hi) as (v & Hiv & (d & -> & Hd) & _).
    exists d. split; [by eapply list_elem_of_lookup_2|done].
Qed.

Lemma current_journal id : keeps same_journal (_ensure_turn_control_current id).
Proof.
  unfold _ensure_turn_control_current, runtime_control_snapshot, get_turn. solve_keeps.
Qed.

Lemma require_same lost id tok s t s' : require_lease lost id tok s = (Ok t, s') → s' = s.
Proof. unfold require_lease, get_turn. intros Hrun. by st_inv. Qed.

(** When the journal holds a rolled back row of the turn, every checkpoint with a plan that
    uses the same step id raises and changes nothing: a plan repaired after a rollback cannot
    reuse a step id of the failed plan. *)
Theorem rolled_back_step_ids_are_refused id tok envelope w phase p steps d x r s :
  journal_unique (d_journal s) → r ∈ d_journal s → j_turn r = id → j_state r = JRolledBack →
  get (u "steps") p = VList steps → VDict d ∈ steps → get (u "step_id") d = VStr (j_step_id r) →
  ∃ e, recovery_checkpoint id tok envelope w phase (VDict p) x s = (Err e, s).
Proof.
  intros Hu Hr Ht Hst Hsteps Hd Hid.
  destruct (recovery_checkpoint id tok envelope w phase (VDict p) x s) as [[[]|e] s'] eqn:Hrun;
    [exfalso|exists e; by rewrite (transaction_Err _ _ _ _ Hrun)].
  assert (∀ t s1 s2, d_journal s1 = d_journal s → _sync_plan id t (VDict p) s1 = (Ok tt, s2) → False) as Hno.
  { intros t s1 s2 HJ Hsync. rewrite <- HJ in Hu, Hr.
    destruct (sync_run id t p steps s1 s2 Hu Hsteps Hsync) as (xs & _ & Hxs & _).
    apply list_elem_of_lookup in Hd as [i Hi].
    destruct (Forall2_lookup_l _ _ _ _ _ Hxs Hi) as (y & _ & (d' & [= <-] & Hy) & Hcur).
    rewrite Hid in Hy. injection Hy as <-. 
    specialize (Hcur r Hr). unfold key, current_row in Hcur. rewrite Ht, Hst in Hcur.
    rewrite bool_decide_eq_true_2 in Hcur by auto. rewrite andb_false_r in Hcur. by discriminate Hcur. }
  apply transaction_Ok in Hrun. cbv zeta in Hrun.
  apply ST_bind_Ok in Hrun as (? & s1 & [_ ->]%lift_Ok & Hrun).
  apply ST_bind_Ok in Hrun as (? & s1 & [_ ->]%lift_Ok & Hrun).
  apply ST_bind_Ok in Hrun as (t & s1 & Hreq & Hrun). apply require_same in Hreq as ->.
  destruct (str_eqb _ _).
  - apply ST_bind_Ok in Hrun as (? & s1 & Hcur & Hrun). apply ST_bind_Ok in Hrun as ([] & s2 & Hsync & _).
    eapply Hno; [|exact Hsync]. pose proof (current_journal id s) as HJ. by rewrite Hcur in HJ.
  - apply ST_bind_Ok in Hrun as (? & s1 & [_ ->]%lift_Ok & Hrun). apply ST_bind_Ok in Hrun as ([] & s2 & Hsync & _).
    by eapply Hno.
Qed.
End repair.
