(* ===== verification/TurnExamples.v ===== *)
(** * Turns: the theorems at work

    A host, stores and runs on which the theorems about turns apply. *)
From S2P Require Import Prelude PyText Regex PyValue Json Failure TurnStore TurnQueue TurnControl TurnJournal TurnSpec.
From S2P Require Import TurnSteps TurnReach TurnClaim TurnWorker TurnRecover TurnRepair.
Local Open Scope Z_scope.

#[local] Instance sample_host : TurnHost := {|
  clock n := Z.of_nat n;
  new_uuid _ := u "11111111-1111-4111-8111-111111111111";
  token_urlsafe _ := u "token-1";
  diagnostic_token _ := u "diag-0000";
  event_stored _ := true;
  row_locked _ _ := false;
  capacity_parameter _ := None;
  interrupted_content _ _ := u "partial";
  user_record _ _ := Some (true, [1]) |}.

Definition empty_db : db := MkDb ∅ ∅ [] ∅ ∅ [] [] 0 1 0.
Definition sample_user : caller := MkCaller 7 true 1 [1].
Definition sample_enqueue (conversation : pyval) : TS Z :=
  enqueue_for_current_user sample_user (VStr (u "hola")) (Ok (VDict [])) VNone conversation
    (VStr (u "request-1")).
Definition queued_db : db := (sample_enqueue VNone empty_db).2.
Definition running_db : db := (claim_transaction queued_db).2.

(** The turn of [queued_db], which has the identifier 3, after the conversation and message. *)
Example sample_turn_is_queued : t_state <$> d_turns queued_db !! 3 = Some TQueued.
Proof. vm_compute. reflexivity. Qed.
Example sample_turn_is_claimed : (λ t, (t_state t, t_lease_token t, t_attempt_count t)) <$> d_turns running_db !! 3
  = Some (TRunning, Some (u "token-1"), 1).
Proof. vm_compute. reflexivity. Qed.

Lemma empty_store_ok : store_ok empty_db.
Proof. split; [apply empty_table_ok|]. intros j. simpl. rewrite lookup_empty. by intros []. Qed.

(** Every worker writes in time. *)
Definition none_late (id : Z) : Prop := False.
Definition all_late (id : Z) : Prop := True.

Lemma sample_steps late : rtc (turn_step late) empty_db running_db.
Proof.
  apply (rtc_l _ _ queued_db); [unfold queued_db, sample_enqueue; apply do_enqueue|]. apply rtc_once. unfold running_db. apply do_claim.
Qed.

Lemma turn_steps_refine_witness :
  rtc (table_step none_late) (d_turns empty_db) (d_turns running_db) ∧ store_ok running_db ∧
  timely_ok none_late (d_turns running_db).
Proof.
  destruct (turn_steps_refine none_late empty_db running_db) as (H1 & H2 & H3).
  - exact empty_store_ok.
  - exact (sample_steps none_late).
  - split; [exact H1|]. split; [exact H2|]. exact (H3 (empty_table_timely none_late)).
Defined.

Lemma queue_invariant_witness : active_count running_db <= _SUPPORTED_RUNNER_CAPACITY ∧ active_count running_db = 1.
Proof.
  split; [|vm_compute; reflexivity]. apply (queue_invariant all_late empty_db); [reflexivity|exact (sample_steps all_late)].
Defined.

(** A store with one turn. *)
Definition sample_turn (x : turn_state) (barrier : bool) (attempts maximum : Z) (lease : option (pystr * Z)) : turn :=
  MkTurn (u "11111111-1111-4111-8111-111111111111") (Some 1) 7 1 x (u "hola") VNone [1] VNone None (u "f") None None
    VNone 0 None None (snd <$> lease) (fst <$> lease) attempts maximum barrier None None None VNone None VNone VNone.
Definition one_turn (t : turn) (journal : list journal_row) : db :=
  MkDb {[ 3 := t ]} ∅ [] ∅ ∅ journal [] 0 4 10.

Lemma one_turn_ok t journal :
  core_ok (core_of t) → store_ok (one_turn t journal).
Proof.
  intros Hk. split; simpl.
  - split.
    + intros id x. rewrite lookup_singleton_Some. by intros [_ <-].
    + rewrite active_ids_length, map_to_list_singleton. simpl. destruct (active t); simpl; lia.
  - intros j. rewrite lookup_singleton_is_Some. lia.
Qed.

(** Decides the invariant of a concrete turn. *)
Ltac concrete_core := split; unfold k_valid; simpl; try done; try lia; try (intros [?|?]; done);
  try (intros _; split; by eexists).

Definition finished_db : db := one_turn (sample_turn TRecoveryRequired true 1 3 None) [].

Lemma finished_turns_stay_witness :
  ∃ t', d_turns (claim_transaction finished_db).2 !! 3 = Some t' ∧
    (t_state t' = TRecoveryRequired ∨ t_state t' = TFailed).
Proof.
  destruct (finished_turns_stay none_late finished_db (claim_transaction finished_db).2 3 (sample_turn TRecoveryRequired true 1 3 None))
    as (t' & Ht' & _ & _ & _ & Hs).
  - apply one_turn_ok. concrete_core.
  - apply rtc_once, do_claim.
  - intros [].
  - reflexivity.
  - reflexivity.
  - exists t'. split; [exact Ht'|]. destruct Hs as [Hs|[_ Hs]]; [left; exact Hs|right; exact Hs].
Defined.

(** ** A repair *)

Definition sample_row (x : journal_state) : journal_row :=
  MkJournal 3 (u "11111111-1111-4111-8111-111111111111") 7 1 (u "unit-1") (u "step-1") (u "odoo.record.patch")
    (u "1") (u "odoo_atomic") (u "reversible") x (VDict []) (VDict []) (VDict []) 900.

Definition repairing_turn : turn := sample_turn TRunning true 1 3 (Some (u "token-1", 400)).
Definition repairing_db : db :=
  one_turn repairing_turn [sample_row JExecuting].
Definition repair_envelope : pyval :=
  VDict [(u "plan", VDict [(u "recovery_units",
    VList [VDict [(u "unit_id", VStr (u "unit-1")); (u "mode", VStr (u "odoo_atomic"));
                  (u "state", VStr (u "executing"))]])])].
(** The worker's store holds the plan it executes. *)
Definition with_plan (t : turn) (v : pyval) : turn := set_fields [FPlan v] t.
Definition executing_db : db :=
  one_turn (with_plan repairing_turn repair_envelope)
    [sample_row JExecuting].
Definition repaired_db : db :=
  (repair_recoverable_plan 3 repair_envelope PhaseExecution (u "plan_failed") VNone executing_db).2.

Lemma barrier_cleared_after_rollback_witness :
  t_write_barrier <$> d_turns repaired_db !! 3 = Some false ∧ rolled_back 3 repaired_db.
Proof.
  split; [vm_compute; reflexivity|].
  destruct (d_turns repaired_db !! 3) as [t'|] eqn:E; [|vm_compute in E; discriminate E].
  apply (barrier_cleared_after_rollback none_late executing_db repaired_db 3 (with_plan repairing_turn repair_envelope) t').
  - apply one_turn_ok. concrete_core.
  - unfold repaired_db. apply do_repair. right. exists (u "token-1"), (with_plan repairing_turn repair_envelope).
    split; [reflexivity|split; reflexivity].
  - reflexivity.
  - reflexivity.
  - exact E.
  - assert (t_write_barrier <$> d_turns repaired_db !! 3 = Some false) as Hb by (vm_compute; reflexivity).
    rewrite E in Hb. injection Hb as Hb. exact Hb.
Defined.

(** ** Late workers *)

(** The lease of the worker expires during the effect, the turn goes under review, and then the
    worker comes to its repair: the reviewed turn loses its barrier and its plan, and the
    reconciliation that would resolve it no longer does. *)
Definition reviewed_db : db := (recover_transaction 1000 executing_db).2.
Definition late_repaired_db : db :=
  (repair_recoverable_plan 3 repair_envelope PhaseExecution (u "plan_failed") VNone reviewed_db).2.
Definition barrier_of (s : db) : option (turn_state * bool) :=
  (λ t, (t_state t, t_write_barrier t)) <$> d_turns s !! 3.
Example late_repair :
  barrier_of reviewed_db = Some (TRecoveryRequired, true) ∧
  barrier_of late_repaired_db = Some (TRecoveryRequired, false) ∧
  (reconcile_confirmed_atomic_rollback 3 reviewed_db).1 = Ok true ∧
  (reconcile_confirmed_atomic_rollback 3 late_repaired_db).1 = Ok false.
Proof. vm_compute. done. Qed.

(** The lease of the worker expires while it reasons, the turn fails, and then the worker comes
    to its approval wait: the failed turn waits for the approval of a plan. *)
Definition failed_db : db :=
  (recover_transaction 1000 (one_turn (sample_turn TRunning false 3 3 (Some (u "token-1", 400))) [])).2.
Example late_await :
  t_state <$> d_turns failed_db !! 3 = Some TFailed ∧
  t_state <$> d_turns (transaction (_persist_awaiting_plan 3 repair_envelope
    [(u "answer", VStr (u "hecho"))]) failed_db).2 !! 3 = Some TAwaiting.
Proof. vm_compute. done. Qed.

(** Deleting the conversation of a running turn leaves the turn without it. *)
Example deleted_conversation :
  let s := (delete_owned sample_user [VStr (u "11111111-1111-4111-8111-111111111111")] running_db).2 in
  ((λ t, (t_state t, t_conversation t, t_user_message t)) <$> d_turns s !! 3,
   size (d_conversations s), size (d_messages s)) = (Some (TRunning, None, None), 0%nat, 0%nat).
Proof. vm_compute. reflexivity. Qed.

(** ** A claim *)

Definition waiting_db : db := one_turn (sample_turn TQueued false 0 3 None) [].

Lemma claim_takes_the_fairest_witness :
  ∃ id tok s', claim_transaction waiting_db = (Ok (Some (id, tok)), s').
Proof.
  destruct (claim_takes_the_fairest waiting_db (3, sample_turn TQueued false 0 3 None))
    as (id & t & t' & tok & s' & Hrun & _).
  - apply one_turn_ok. concrete_core.
  - vm_compute. reflexivity.
  - split; [by apply elem_of_map_to_list|]. split; vm_compute; reflexivity.
  - exists id, tok, s'. exact Hrun.
Defined.

(** ** A lost worker *)

Lemma lost_worker_changes_no_turn_witness :
  d_turns (fail_transaction 3 (u "stale-token") (u "boom") repairing_db).2 = d_turns repairing_db.
Proof.
  apply (lost_worker_changes_no_turn repairing_db 3 (u "stale-token")
    (λ s, (fail_transaction 3 (u "stale-token") (u "boom") s).2)).
  - intros t. unfold repairing_db, one_turn. simpl. rewrite lookup_singleton_eq. intros [= <-]. simpl. discriminate.
  - apply w_fail.
Defined.

(** ** A repeated request *)

Definition repeated_db : db := (sample_enqueue VNone queued_db).2.

Lemma repeated_request_answered_once_witness :
  d_turns repeated_db = d_turns queued_db ∧ size (d_conversations queued_db) = 1%nat ∧
  size (d_conversations repeated_db) = 2%nat.
Proof.
  split; [|split; vm_compute; reflexivity].
  destruct (sample_enqueue VNone empty_db) as [[i|e] s1] eqn:E1; [|exfalso; vm_compute in E1; discriminate E1].
  destruct (sample_enqueue VNone s1) as [[j|e] s2] eqn:E2.
  - assert (queued_db = s1) as Hq by (unfold queued_db; rewrite E1; reflexivity).
    unfold repeated_db. rewrite Hq, E2.
    apply (repeated_request_answered_once sample_user (VStr (u "hola")) (Ok (VDict [])) VNone VNone
      sample_user (VStr (u "hola")) (Ok (VDict [])) VNone VNone (u "request-1") empty_db i s1 j s2).
    + exact empty_store_ok.
    + discriminate.
    + reflexivity.
    + exact E1.
    + exact E2.
  - exfalso. assert (s1 = queued_db) as Hq by (unfold queued_db; rewrite E1; reflexivity).
    rewrite Hq in E2. assert (is_ok (sample_enqueue VNone queued_db).1 = true) as Hok by (vm_compute; reflexivity).
    rewrite E2 in Hok. discriminate Hok.
Defined.

(** ** A slot *)

(** An agent that answers, without touching the store. *)
#[local] Instance answering : Runtime := λ id tok allowed s,
  MkOutcome (Ok (VDict [(u "answer", VStr (u "hecho"))])) s s.

Lemma answering_steps : RuntimeSteps none_late.
Proof. split; intros; apply rtc_refl. Qed.

Lemma slot_is_a_sequence_of_steps_witness :
  rtc (turn_step none_late) queued_db (_cron_run_turn_slot queued_db).2 ∧
  (λ t, (t_state t, t_lease_token t, bool_decide (is_Some (t_assistant_message t))))
    <$> d_turns (_cron_run_turn_slot queued_db).2 !! 3 = Some (TCompleted, None, true).
Proof.
  split; [|vm_compute; reflexivity]. apply @slot_is_a_sequence_of_steps. exact answering_steps.
Defined.

(** ** A recovery *)

Definition expired_db : db := one_turn (sample_turn TRunning false 1 3 (Some (u "token-1", 100))) [].

Lemma recovery_settles_expired_leases_witness :
  ∃ s', recover_transaction 200 expired_db = (Ok true, s') ∧ t_state <$> d_turns s' !! 3 = Some TQueued.
Proof.
  destruct (recovery_settles_expired_leases 200 expired_db) as (s' & Hrun & Hfound & _ & Hall).
  - intros k. vm_compute. reflexivity.
  - apply one_turn_ok. concrete_core.
  - exists s'. split; [exact Hrun|].
    destruct (Hfound 3 (sample_turn TRunning false 1 3 (Some (u "token-1", 100)))) as (t' & Ht' & Hk).
    + apply Hall with (t := sample_turn TRunning false 1 3 (Some (u "token-1", 100)));
        vm_compute; first [reflexivity | lia].
    + reflexivity.
    + rewrite Ht'. injection Hk as Hk _ _ _ _ _. simpl. rewrite Hk. reflexivity.
Defined.

(** ** A redirect of the last attempt *)

Definition last_attempt_turn : turn := sample_turn TAwaiting false 19 19 None.
Definition last_attempt_db : db := one_turn last_attempt_turn [].
Definition sample_redirect : TS (turn_state * Z * bool) :=
  redirect_for_current_user sample_user (VStr (u "11111111-1111-4111-8111-111111111111"))
    (VStr (u "mejor otra cosa")) (VStr (u "client-00")).

Lemma redirect_of_the_last_attempt_is_never_run_witness :
  ∃ s' t', (sample_redirect last_attempt_db).2 = s' ∧ d_turns s' !! 3 = Some t' ∧
    (t_state t' = TQueued ∨ t_state t' = TCancelled) ∧ t_attempt_count t' = 19.
Proof.
  destruct (sample_redirect last_attempt_db) as [[[[x sequence] dup]|e] s'] eqn:E;
    [|exfalso; assert (is_ok (sample_redirect last_attempt_db).1 = true) as Hok by (vm_compute; reflexivity);
      rewrite E in Hok; discriminate Hok].
  assert (dup = false) as ->.
  { assert ((λ r, snd <$> r) (sample_redirect last_attempt_db).1 = Ok false) as Hd by (vm_compute; reflexivity).
    rewrite E in Hd. injection Hd as Hd. exact Hd. }
  destruct (redirect_of_the_last_attempt_is_never_run none_late sample_user
    (VStr (u "11111111-1111-4111-8111-111111111111")) (VStr (u "mejor otra cosa")) (VStr (u "client-00"))
    last_attempt_db x sequence s' s' 3 last_attempt_turn) as (t' & Ht' & Hs & Hc & _).
  - apply one_turn_ok. concrete_core.
  - intros [].
  - vm_compute. reflexivity.
  - reflexivity.
  - reflexivity.
  - reflexivity.
  - reflexivity.
  - exact E.
  - apply rtc_refl.
  - exists s', t'. split; [reflexivity|]. split; [exact Ht'|]. split; [exact Hs|]. rewrite Hc. reflexivity.
Defined.

(** ** The journal *)

Definition journal_step : pydict :=
  [(u "step_id", VStr (u "step-1")); (u "recovery_unit_id", VStr (u "unit-1"));
   (u "capability", VStr (u "odoo.record.patch")); (u "version", VStr (u "1"));
   (u "recovery_mode", VStr (u "odoo_atomic")); (u "journal_classification", VStr (u "reversible"));
   (u "state", VStr (u "previewed")); (u "preview", VDict [(u "model", VStr (u "res.partner"))]);
   (u "precondition_fingerprint", VStr (u "p")); (u "binding_fingerprint", VStr (u "b"));
   (u "result", VNone); (u "verification", VNone)].
Definition journal_plan : pydict :=
  [(u "format_version", VInt 3); (u "steps", VList [VDict journal_step]);
   (u "recovery_units", VList [VDict [(u "unit_id", VStr (u "unit-1")); (u "mode", VStr (u "odoo_atomic"));
                                      (u "state", VStr (u "executing"))]])].
Definition plan_ready_db : db := one_turn (sample_turn TRunning false 1 3 (Some (u "token-1", 400))) [].
Definition sample_checkpoint : TS unit :=
  recovery_checkpoint 3 (u "token-1") [] VNone (u "before_unit") (VDict journal_plan) (VDict []).

(** The checkpoint crosses the barrier and records the step as executing. *)
Example checkpoint_records_step :
  let s := (sample_checkpoint plan_ready_db).2 in
  (j_step_id <$> d_journal s, j_state <$> d_journal s, t_write_barrier <$> d_turns s !! 3)
  = ([u "step-1"], [JExecuting], Some true).
Proof. vm_compute. reflexivity. Qed.

(** After the repair the same step is a violation of the journal's constraint. *)
Example checkpoint_after_repair : (sample_checkpoint repaired_db).1 = Err IntegrityError.
Proof. vm_compute. reflexivity. Qed.

Lemma sync_records_the_plan_witness :
  ∃ s', (_sync_plan 3 (sample_turn TRunning false 1 3 None) (VDict journal_plan) plan_ready_db).2 = s' ∧
    journal_unique (d_journal s') ∧ d_turns s' = d_turns plan_ready_db.
Proof.
  destruct (_sync_plan 3 (sample_turn TRunning false 1 3 None) (VDict journal_plan) plan_ready_db)
    as [[[]|e] s'] eqn:E.
  - destruct (sync_records_the_plan 3 (sample_turn TRunning false 1 3 None) journal_plan [VDict journal_step]
      plan_ready_db s') as (HT & Hu & _).
    + apply NoDup_nil_2.
    + reflexivity.
    + exact E.
    + exists s'. split; [reflexivity|]. split; [exact Hu|exact HT].
  - exfalso. assert (is_ok (_sync_plan 3 (sample_turn TRunning false 1 3 None) (VDict journal_plan) plan_ready_db).1 = true)
      as Hok by (vm_compute; reflexivity). rewrite E in Hok. discriminate Hok.
Defined.

Lemma rolled_back_step_ids_are_refused_witness :
  ∃ e, sample_checkpoint repaired_db = (Err e, repaired_db).
Proof.
  assert (d_journal repaired_db = [sample_row JRolledBack]) as Hj by (vm_compute; reflexivity).
  apply (rolled_back_step_ids_are_refused 3 (u "token-1") [] VNone (u "before_unit") journal_plan
    [VDict journal_step] journal_step (VDict []) (sample_row JRolledBack) repaired_db).
  - rewrite Hj. apply NoDup_singleton.
  - rewrite Hj. apply list_elem_of_singleton. reflexivity.
  - reflexivity.
  - reflexivity.
  - reflexivity.
  - apply list_elem_of_singleton. reflexivity.
  - reflexivity.
Defined.
