(* ===== verification/JsonRoundtrip.v ===== *)
(** * Foundations: reading back printed JSON

    [json_loads] applied to the text [json_dumps] prints gives the value again, with the keys of
    its dicts in order.  The statement about a printed part leaves the rest of the text open, so
    the parts compose. *)
From Stdlib Require Import Strings.String Strings.Byte Sorting.Sorted.
From stdpp Require Import pretty.
From S2P Require Import Prelude PyText PyValue Json.
Local Open Scope N_scope.

(** ** Digits *)

Definition codes (s : String.string) : pystr := Byte.to_N <$> list_byte_of_string s.

Lemma digits_value_snoc ds c : digits_value (ds ++ [c]) = digits_value ds * 10 + (c - 48).
Proof. unfold digits_value. by rewrite foldl_app. Qed.

Lemma digit_code d s : d < 10 → codes (String.String (pretty_N_char d) s) = (48 + d) :: codes s.
Proof.
  intros Hd. assert (d = 0 ∨ d = 1 ∨ d = 2 ∨ d = 3 ∨ d = 4 ∨ d = 5 ∨ d = 6 ∨ d = 7 ∨ d = 8 ∨ d = 9) as H by lia.
  repeat destruct H as [->|H]; try reflexivity. by rewrite H.
Qed.

(** The digits of a positive number, most significant first. *)
Record decimal (n : N) (ds : pystr) : Prop := {
  dc_digits : Forall (λ c, is_digit c = true) ds;
  dc_value : digits_value ds = n;
  dc_head : head ds ≠ Some 48;
  dc_nonempty : 0 < n → ds ≠ [] }.

Lemma is_digit_of d : d < 10 → is_digit (48 + d) = true.
Proof. intros Hd. unfold is_digit. apply andb_true_iff. split; apply N.leb_le; lia. Qed.

Lemma pretty_go_decimal n s : ∃ ds, codes (pretty_N_go n s) = ds ++ codes s ∧ decimal n ds.
Proof.
  revert s. induction (N.lt_wf_0 n) as [n _ IH]; intros s. destruct (decide (n = 0)) as [->|Hn].
  - exists []. split; [done|]. split; [by constructor|done|done|lia].
  - rewrite pretty_N_go_step by lia.
    destruct (IH (n / 10) (N.div_lt n 10 ltac:(lia) ltac:(lia)) (String.String (pretty_N_char (n mod 10)) s))
      as (ds & E & [Hd Hv Hh Hne]).
    assert (n mod 10 < 10) as Hm by (apply N.mod_lt; lia).
    exists (ds ++ [48 + n mod 10]). rewrite E, digit_code, <- app_assoc by done. split; [done|]. split.
    + apply Forall_app. split; [done|]. constructor; [by apply is_digit_of|constructor].
    + rewrite digits_value_snoc, Hv, (N.add_comm 48), N.add_sub, (N.mul_comm _ 10). symmetry. apply N.div_mod'.
    + destruct ds as [|c ds]; [|done]. cbn [app head]. intros [= H].
      change (digits_value []) with 0 in Hv. pose proof (N.div_mod' n 10) as Hdm. rewrite <- Hv in Hdm. lia.
    + intros _. by destruct ds.
Qed.

Lemma u_codes s : numeric_text s → u s = codes s.
Proof.
  intros H. unfold u, codes. rewrite utf8_decode_ascii; [done|]. eapply Forall_impl; [exact H|].
  unfold numeric. intros b. simpl. lia.
Qed.

(** The text of an integer: a sign, and the digits of its absolute value. *)
Lemma int_str_decimal z :
  z = 0%Z ∧ int_str z = [48] ∨
  z ≠ 0%Z ∧ ∃ ds, decimal (Z.abs_N z) ds ∧ int_str z = (if (z <? 0)%Z then [45] else []) ++ ds.
Proof.
  destruct z as [|p|p]; [by left|right..]; (split; [done|]).
  - destruct (pretty_go_decimal (N.pos p) "") as (ds & E & Hd). exists ds. split; [done|]. simpl.
    unfold int_str. rewrite u_codes by apply pretty_Z_numeric. rewrite app_nil_r in E. exact E.
  - destruct (pretty_go_decimal (N.pos p) "") as (ds & E & Hd). exists ds. split; [done|]. simpl.
    unfold int_str. rewrite u_codes by apply pretty_Z_numeric. rewrite app_nil_r in E.
    rewrite <- E. reflexivity.
Qed.

(** ** Leaves *)

(** What may follow a value: nothing, a comma or a closing bracket. *)
Definition stops (rest : pystr) : Prop :=
  match rest with [] => True | c :: _ => c = 44 ∨ c = 93 ∨ c = 125 end.

Lemma span_digits_all ds rest :
  Forall (λ c, is_digit c = true) ds → stops rest → span_digits (ds ++ rest) = (ds, rest).
Proof.
  intros Hd Hr. induction Hd as [|c ds Hc _ IH].
  - destruct rest as [|c rest]; [done|]. by destruct Hr as [-> | [-> | ->]].
  - cbn [app span_digits]. by rewrite Hc, IH.
Qed.

Ltac digit_cases c H :=
  assert (c = 48 ∨ c = 49 ∨ c = 50 ∨ c = 51 ∨ c = 52 ∨ c = 53 ∨ c = 54 ∨ c = 55 ∨ c = 56 ∨ c = 57)
    by (unfold is_digit in H; apply andb_true_iff in H as [?%N.leb_le ?%N.leb_le]; lia);
  clear H; repeat match goal with H : _ ∨ _ |- _ => destruct H as [->|H] | H : c = _ |- _ => subst c end.

(** After the integer part there is neither a fraction nor an exponent. *)
Lemma number_ends ip neg rest :
  (length ip ≤ 4300)%nat → stops rest →
  (let '(fp, s) := match rest with
                   | 46 :: r => match span_digits r with ([], _) => ([], rest) | p => p end
                   | _ => ([], rest)
                   end in
   let '(ep, s) := match s with
                   | c :: r =>
                       if (c =? 69) || (c =? 101) then
                         let '(eneg, r') := match r with
                                            | 43 :: r' => (false, r')
                                            | 45 :: r' => (true, r')
                                            | _ => (false, r)
                                            end in
                         match span_digits r' with
                         | ([], _) => (None, s)
                         | (ds, t) => (Some (if eneg : bool then - Z.of_N (digits_value ds)
                                             else Z.of_N (digits_value ds))%Z, t)
                         end
                       else (None, s)
                   | [] => (None, s)
                   end in
   match fp, ep with
   | [], None =>
       if Nat.ltb 4300 (length ip) then Err IntTooLong
       else let z := Z.of_N (digits_value ip) in Ok (VInt (if neg : bool then - z else z)%Z, s)
   | _, _ =>
       Ok (VFloat (mk_float neg (digits_value (ip ++ fp))
                     (default 0%Z ep - Z.of_nat (length fp))), s)
   end) = Ok (VInt (let z := Z.of_N (digits_value ip) in if neg then - z else z)%Z, rest).
Proof.
  intros Hlen Hr. assert ((4300 <? length ip)%nat = false) as E by by apply Nat.ltb_ge.
  destruct rest as [|c rest]; [by rewrite E|]. destruct Hr as [-> | [-> | ->]]; simpl; by rewrite E.
Qed.

Lemma parse_number_int z rest :
  (length (int_str z) ≤ 4300)%nat → stops rest → parse_number (int_str z ++ rest) = Ok (VInt z, rest).
Proof.
  intros Hlen Hr. destruct (int_str_decimal z) as [[-> E]|[Hz (ds & [Hd Hv Hh Hne] & E)]]; rewrite E in Hlen |- *.
  - unfold parse_number. cbn [app]. exact (number_ends [48] false rest Hlen Hr).
  - destruct ds as [|c ds]; [by destruct Hne; [lia|]|]. pose proof Hd as Hds.
    apply Forall_cons in Hd as [Hc _]. unfold parse_number.
    assert ((length (c :: ds) ≤ 4300)%nat) as Hl by (rewrite length_app in Hlen; lia).
    assert (c ≠ 48) as Hc48 by by intros ->.
    assert ((match (c :: ds) ++ rest with
             | 48 :: r => Ok ([48], r)
             | c :: _ => if is_digit c then Ok (span_digits ((c :: ds) ++ rest)) else Err JSONDecodeError
             | [] => Err JSONDecodeError
             end : result json_error (pystr * pystr)) = Ok (c :: ds, rest)) as Hip.
    { pose proof (span_digits_all _ _ Hds Hr) as Hspan. clear - Hc Hc48 Hspan. cbn [app] in Hspan |- *.
      digit_cases c Hc; try done; by rewrite Hspan. }
    destruct (z <? 0)%Z eqn:Ez.
    + cbn [app] in Hip |- *. rewrite Hip. cbn [mbind result_bind].
      rewrite number_ends by done. do 3 f_equal. apply Z.ltb_lt in Ez. rewrite Hv. simpl. lia.
    + cbn [app] in Hip |- *.
      assert (match c :: ds ++ rest with 45 :: r => (true, r) | _ => (false, c :: ds ++ rest) end
        = (false, c :: ds ++ rest)) as -> by (clear - Hc; digit_cases c Hc; done).
      cbv beta iota zeta. rewrite Hip. cbn [mbind result_bind]. rewrite number_ends by done. do 3 f_equal.
      apply Z.ltb_ge in Ez. rewrite Hv. simpl. lia.
Qed.

(** ** Strings *)

Lemma hex4_read c : c < 32 →
  ∃ h1 h2 h3 h4, hex4 c = [h1; h2; h3; h4] ∧ hex4_value h1 h2 h3 h4 = Some c.
Proof.
  intros Hc. eexists _, _, _, _. split; [reflexivity|].
  assert (forallb (λ c, match hex4 c with
                        | [a; b; d; e] => bool_decide (hex4_value a b d e = Some c)
                        | _ => false
                        end) (N.of_nat <$> seq 0 32) = true) as H by (vm_compute; reflexivity).
  rewrite forallb_true in H. refine (bool_decide_eq_true_1 _ (H c _)). apply list_elem_of_fmap. exists (N.to_nat c). rewrite N2Nat.id. split; [done|]. apply elem_of_seq. lia.
Qed.

Lemma parse_escaped c t s rest :
  parse_str t = Some (s, rest) → parse_str (escape_char c ++ t) = Some (c :: s, rest).
Proof.
  intros H. unfold escape_char.
  destruct (c =? 34) eqn:E1; [apply N.eqb_eq in E1 as ->; simpl; by rewrite H|].
  destruct (c =? 92) eqn:E2; [apply N.eqb_eq in E2 as ->; simpl; by rewrite H|].
  destruct (c =? 10) eqn:E3; [apply N.eqb_eq in E3 as ->; simpl; by rewrite H|].
  destruct (c =? 13) eqn:E4; [apply N.eqb_eq in E4 as ->; simpl; by rewrite H|].
  destruct (c =? 9) eqn:E5; [apply N.eqb_eq in E5 as ->; simpl; by rewrite H|].
  destruct (c =? 12) eqn:E6; [apply N.eqb_eq in E6 as ->; simpl; by rewrite H|].
  destruct (c =? 8) eqn:E7; [apply N.eqb_eq in E7 as ->; simpl; by rewrite H|].
  destruct (c <? 32) eqn:E8.
  - apply N.ltb_lt, hex4_read in E8 as (h1 & h2 & h3 & h4 & -> & Hv). cbn -[hex4_value]. rewrite Hv. simpl. by rewrite H.
  - cbn [app parse_str]. rewrite E1, E8, E2. cbn [negb]. by rewrite H.
Qed.
Lemma parse_str_dump s rest : parse_str ((s ≫= escape_char) ++ 34 :: rest) = Some (s, rest).
Proof.
  induction s as [|c s IH]; [done|]. rewrite bind_cons, <- app_assoc. by apply parse_escaped.
Qed.

Definition scalars (s : pystr) : Prop := Forall (λ c, is_scalar c = true) s.

Lemma join_scalars s : scalars s → join_surrogates s = s.
Proof.
  induction 1 as [|c s Hc _ IH]; [done|]. cbn [join_surrogates]. destruct s as [|d s]; [done|].
  assert (is_high c = false) as ->; [|by rewrite IH].
  unfold is_scalar in Hc. apply andb_true_iff in Hc as [_ Hc%negb_true_iff%andb_false_iff].
  unfold is_high. apply andb_false_iff. rewrite !N.leb_gt in *. lia.
Qed.
(** An unescaped surrogate would be in the text. *)
Lemma dump_scalars s : scalars (dump_str s) → scalars s.
Proof.
  unfold dump_str, scalars. rewrite !Forall_app. intros (_ & H & _).
  induction s as [|c s IH]; [done|]. rewrite bind_cons, Forall_app in H. destruct H as [Hc Hs].
  constructor; [|by apply IH]. unfold escape_char in Hc.
  repeat match type of Hc with context [if ?b then _ else _] =>
    destruct b eqn:?; [match goal with H : (_ =? _) = true |- _ => apply N.eqb_eq in H as -> | _ => idtac end|] end;
    try done.
  - apply N.ltb_lt in Heqb6. unfold is_scalar. apply andb_true_iff. split; [apply N.ltb_lt; lia|].
    apply negb_true_iff, andb_false_iff. left. apply N.leb_gt. lia.
  - by apply Forall_cons in Hc as [Hc _].
Qed.

(** ** Values *)

(** The value that is read back: dicts in the order of their keys. *)
Fixpoint canon (v : pyval) : pyval :=
  match v with
  | VList l => VList (map canon l)
  | VDict d => VDict (sort_by entry_leb (map (λ kv, (kv.1, canon kv.2)) d))
  | v => v
  end.

(** Values that JSON carries exactly: no float, no integer that [int] refuses, unique keys. *)
Fixpoint portable (v : pyval) : Prop :=
  match v with
  | VFloat _ => False
  | VInt z => (length (int_str z) ≤ 4300)%nat
  | VList l => (fix go l := match l with [] => True | x :: l => portable x ∧ go l end) l
  | VDict d =>
      NoDup (keys d) ∧
      (fix go (d : pydict) := match d with [] => True | (_, x) :: d => portable x ∧ go d end) d
  | _ => True
  end.

(** How many lists and objects are around the innermost value. *)
Fixpoint nesting (v : pyval) : nat :=
  match v with
  | VList l => S (foldr (λ x, Nat.max (nesting x)) 0%nat l)
  | VDict d => S (foldr (λ kv, Nat.max (nesting kv.2)) 0%nat d)
  | _ => 0%nat
  end.

Lemma nesting_list l n : (nesting (VList l) ≤ S n)%nat ↔ Forall (λ v, nesting v ≤ n)%nat l.
Proof.
  cbn [nesting]. rewrite <- Nat.succ_le_mono. induction l as [|x l IH]; cbn [foldr]; [split; [constructor|lia]|].
  rewrite Forall_cons, <- IH. lia.
Qed.
Lemma nesting_dict d n : (nesting (VDict d) ≤ S n)%nat ↔ Forall (λ kv, nesting kv.2 ≤ n)%nat d.
Proof.
  cbn [nesting]. rewrite <- Nat.succ_le_mono. induction d as [|x d IH]; cbn [foldr]; [split; [constructor|lia]|].
  rewrite Forall_cons, <- IH. lia.
Qed.

Lemma portable_list l : portable (VList l) ↔ Forall portable l.
Proof. cbn [portable]. induction l as [|x l IH]; [naive_solver|]. rewrite Forall_cons. naive_solver. Qed.
Lemma portable_dict d : portable (VDict d) ↔ NoDup (keys d) ∧ Forall (λ kv, portable kv.2) d.
Proof.
  cbn [portable]. assert (∀ d : pydict, (fix go (d : pydict) := match d with [] => True | (_, x) :: d => portable x ∧ go d end) d
    ↔ Forall (λ kv, portable kv.2) d) as ->; [|done].
  clear d. intros d. induction d as [|[k x] d IH]; [naive_solver|]. rewrite Forall_cons. naive_solver.
Qed.

Lemma dumps_list b l t :
  json_dumps b (VList l) = Some t ↔
  ∃ ts, Forall2 (λ x tx, json_dumps b x = Some tx) l ts ∧ t = [91] ++ str_join [44] ts ++ [93].
Proof.
  cbn [json_dumps]. match goal with |- (?go l ≫= _) = _ ↔ _ => set (f := go) end.
  assert (∀ l ts, f l = Some ts ↔ Forall2 (λ x tx, json_dumps b x = Some tx) l ts) as Hf.
  { clear. induction l as [|x l IH]; intros ts; simpl.
    - split; [intros [= <-]; constructor|by intros ->%Forall2_nil_inv_l].
    - rewrite bind_Some. setoid_rewrite bind_Some. setoid_rewrite IH. split.
      + intros (t' & Ht & ts' & Hts & [= <-]). by constructor.
      + intros (t' & ts' & ? & ? & ->)%Forall2_cons_inv_l. eauto. }
  rewrite bind_Some. setoid_rewrite Hf. naive_solver.
Qed.
Definition same_entry b (kv : pystr * pyval) (kt : pystr * pystr) : Prop :=
  kt.1 = kv.1 ∧ json_dumps b kv.2 = Some kt.2.
Lemma dumps_dict b d t :
  json_dumps b (VDict d) = Some t ↔
  ∃ ts, Forall2 (same_entry b) d ts ∧
    t = [123] ++ str_join [44] (dump_entry <$> sort_by entry_leb ts) ++ [125].
Proof.
  cbn [json_dumps]. match goal with |- (?go d ≫= _) = _ ↔ _ => set (f := go) end.
  assert (∀ d ts, f d = Some ts ↔ Forall2 (same_entry b) d ts) as Hf.
  { clear. unfold same_entry. induction d as [|[k x] d IH]; intros ts; simpl.
    - split; [intros [= <-]; constructor|by intros ->%Forall2_nil_inv_l].
    - rewrite bind_Some. setoid_rewrite bind_Some. setoid_rewrite IH. split.
      + intros (t' & Ht & ts' & Hts & [= <-]). by constructor.
      + intros ([k' t'] & ts' & [? ?] & ? & ->)%Forall2_cons_inv_l. simpl in *. subst. eauto. }
  rewrite bind_Some. setoid_rewrite Hf. naive_solver.
Qed.

Lemma insert_by_Forall2 {A B} (R : A → B → Prop) lebA lebB x y l k :
  (∀ a b a' b', R a b → R a' b' → lebA a a' = lebB b b') →
  R x y → Forall2 R l k → Forall2 R (insert_by lebA x l) (insert_by lebB y k).
Proof.
  intros Hleb Hxy. induction 1 as [|a b l k Hab Hlk IH]; simpl; [by repeat constructor|].
  rewrite (Hleb x y a b) by done. destruct (lebB y b); by repeat constructor.
Qed.
Lemma sort_by_Forall2 {A B} (R : A → B → Prop) lebA lebB l k :
  (∀ a b a' b', R a b → R a' b' → lebA a a' = lebB b b') →
  Forall2 R l k → Forall2 R (sort_by lebA l) (sort_by lebB k).
Proof.
  intros Hleb. induction 1 as [|a b l k Hab _ IH]; simpl; [constructor|]. by apply insert_by_Forall2.
Qed.

(** ** Reading *)

(** The first character of a value. *)
Definition starts (t : pystr) : Prop :=
  ∃ c r, t = c :: r ∧ (c = 34 ∨ c = 91 ∨ c = 123 ∨ c = 110 ∨ c = 116 ∨ c = 102 ∨ c = 45 ∨ is_digit c = true).
Definition reads (t : pystr) (v : pyval) : Prop :=
  starts t ∧ ∀ fuel depth rest,
    (length t ≤ fuel)%nat → (nesting v ≤ depth)%nat → stops rest → parse_value fuel depth (t ++ rest) = Ok (v, rest).

Lemma stops_skip rest : stops rest → skip_ws rest = rest.
Proof. destruct rest as [|c rest]; [done|]. by intros [-> | [-> | ->]]. Qed.
Lemma starts_skip t rest : starts t → skip_ws (t ++ rest) = t ++ rest.
Proof.
  intros (c & r & -> & Hc). cbn [app]. repeat destruct Hc as [->|Hc]; try reflexivity. digit_cases c Hc; reflexivity.
Qed.
Lemma starts_not t rest c : starts t → (c = 93 ∨ c = 125) → ∃ d r, t ++ rest = d :: r ∧ d ≠ c.
Proof.
  intros (d & r & -> & Hd) Hc. exists d, (r ++ rest). split; [done|]. intros ->.
  repeat destruct Hd as [->|Hd]; try (by destruct Hc). by destruct Hc as [-> | ->].
Qed.

Lemma read_int z : (length (int_str z) ≤ 4300)%nat → reads (int_str z) (VInt z).
Proof.
  intros Hlen. assert (starts (int_str z)) as Hs.
  { destruct (int_str_decimal z) as [[-> ->]|[Hz (ds & [Hd _ _ Hne] & ->)]].
    - exists 48, []. split; [done|]. do 7 right. done.
    - destruct (z <? 0)%Z; [exists 45, ds; split; [done|]; do 6 right; by left|].
      destruct ds as [|c ds]; [by destruct Hne; [lia|]|]. exists c, ds. split; [done|]. do 7 right.
      by apply Forall_cons in Hd as [? _]. }
  split; [done|]. intros fuel depth rest Hf _ Hr. pose proof (parse_number_int z rest Hlen Hr) as Hp.
  destruct fuel as [|fuel]; [destruct Hs as (c & r & E & _); rewrite E in Hf; simpl in Hf; lia|].
  destruct (int_str_decimal z) as [[-> E]|[Hz (ds & [Hd _ _ Hne] & E)]]; rewrite E in Hp |- *; [exact Hp|].
  destruct ds as [|c ds]; [by destruct Hne; [lia|]|]. apply Forall_cons in Hd as [Hc _].
  destruct (z <? 0)%Z; cbn [app] in Hp |- *; rewrite <- Hp; clear - Hc; digit_cases c Hc; reflexivity.
Qed.

Lemma read_string s : scalars s → reads (dump_str s) (VStr s).
Proof.
  intros Hs. unfold dump_str. split; [by eexists 34, _; split; [|left]|].
  intros [|fuel] depth rest Hf _ _; [simpl in Hf; lia|]. rewrite <- !app_assoc. cbn [app parse_value].
  by rewrite parse_str_dump, join_scalars.
Qed.

Lemma join_cons2 (sep : pystr) t t' ts : str_join sep (t :: t' :: ts) = t ++ sep ++ str_join sep (t' :: ts).
Proof. done. Qed.

Lemma starts_join (sep : pystr) t ts : starts t → starts (str_join sep (t :: ts)).
Proof.
  intros (c & r & -> & Hc). destruct ts; [by exists c, r|]. rewrite join_cons2. eexists c, _. by split.
Qed.
Lemma starts_length t : starts t → (0 < length t)%nat.
Proof. intros (c & r & -> & _). simpl. lia. Qed.

Lemma read_items ts vs fuel depth rest :
  Forall2 reads ts vs → Forall (λ v, nesting v ≤ depth)%nat vs → ts ≠ [] → (length (str_join [44%N] ts) < fuel)%nat →
  parse_items fuel depth (str_join [44%N] ts ++ 93 :: rest) = Ok (vs, rest).
Proof.
  intros H. revert fuel. induction H as [|t v ts vs [Hs Hr] Hts IH]; intros fuel Hd Hne Hf; [done|].
  apply Forall_cons in Hd as [Hd Hds]. destruct fuel as [|fuel]; [lia|]. cbn [parse_items]. destruct ts as [|t' ts].
  - apply Forall2_nil_inv_l in Hts as ->. cbn [str_join] in Hf |- *.
    rewrite Hr; [reflexivity|lia|done|by right; left].
  - rewrite join_cons2 in Hf |- *. rewrite <- !app_assoc. rewrite !length_app in Hf. cbn [app length] in Hf |- *.
    rewrite Hr; [|lia|done|by left]. cbn [mbind result_bind].
    assert (starts t') as Hs' by by apply Forall2_cons_inv_l in Hts as (? & ? & [? _] & _).
    change (skip_ws (44 :: ?x)) with (44 :: x). cbv beta iota.
    rewrite starts_skip by by apply starts_join.
    rewrite IH; [done|done|done|]. apply starts_length in Hs. lia.
Qed.

Definition reads_entry (kt : pystr * pystr) (kv : pystr * pyval) : Prop :=
  kt.1 = kv.1 ∧ scalars kt.1 ∧ reads kt.2 kv.2.

Lemma dict_set_fresh k (v : pyval) d : k ∉ keys d → dict_set k v d = d ++ [(k, v)].
Proof.
  induction d as [|[k' v'] d IH]; [done|]. unfold keys. cbn [fmap list_fmap dict_set fst].
  rewrite not_elem_of_cons. intros [Hk Hd].
  rewrite (proj2 (str_eqb_false k k')) by done. cbn [app]. f_equal. by apply IH.
Qed.

Lemma starts_entry kt kv : reads_entry kt kv → starts (dump_entry kt).
Proof. intros _. eexists 34, _. split; [reflexivity|]. by left. Qed.

Lemma read_entries ts kvs fuel depth acc rest :
  Forall2 reads_entry ts kvs → Forall (λ kv, nesting kv.2 ≤ depth)%nat kvs → ts ≠ [] → NoDup (keys (acc ++ kvs)) →
  (length (str_join [44%N] (dump_entry <$> ts)) < fuel)%nat →
  parse_entries fuel depth acc (str_join [44%N] (dump_entry <$> ts) ++ 125 :: rest) = Ok (acc ++ kvs, rest).
Proof.
  intros H. revert fuel acc. induction H as [|[k t] [k' v] ts kvs Hkv Hts IH]; intros fuel acc Hdep Hne Hnd Hf; [done|].
  apply Forall_cons in Hdep as [Hdv Hdep].
  destruct Hkv as (Hk & Hsc & Hs & Hr). simpl in Hk, Hsc, Hs, Hr. subst k'.
  destruct fuel as [|fuel]; [lia|].
  assert (dict_set k v acc = acc ++ [(k, v)]) as Hset.
  { apply dict_set_fresh. unfold keys in *. rewrite fmap_app, NoDup_app in Hnd.
    destruct Hnd as (_ & Hd & _). intros Hin. apply (Hd k Hin). by left. }
  assert (∀ x, parse_entries (S fuel) depth acc (dump_entry (k, t) ++ x) =
    ('(v, r) ← parse_value fuel depth (t ++ x);
     match skip_ws r with
     | 125 :: r => Ok (dict_set k v acc, r)
     | 44 :: r => parse_entries fuel depth (dict_set k v acc) (skip_ws r)
     | _ => Err JSONDecodeError
     end)) as Hstep.
  { intros x. unfold dump_entry, dump_str. cbn [fst snd]. rewrite <- !app_assoc. cbn [app parse_entries].
    rewrite parse_str_dump. change (skip_ws (58 :: ?y)) with (58 :: y). cbv beta iota.
    by rewrite starts_skip, join_scalars. }
  destruct ts as [|[k2 t2] ts].
  - apply Forall2_nil_inv_l in Hts as ->. cbn [str_join fmap list_fmap] in Hf |- *. rewrite Hstep.
    unfold dump_entry, dump_str in Hf. rewrite !length_app in Hf. cbn [fst snd] in Hf.
    rewrite Hr; [|lia|done|by right; right]. cbn [mbind result_bind]. change (skip_ws (125 :: ?y)) with (125 :: y). cbv beta iota. by rewrite Hset.
  - rewrite !fmap_cons, join_cons2 in Hf |- *. rewrite <- !app_assoc, Hstep.
    rewrite !length_app in Hf. cbn [app length] in Hf |- *.
    assert (length t < length (dump_entry (k, t)))%nat as Ht.
    { unfold dump_entry, dump_str. rewrite !length_app. simpl. lia. }
    rewrite Hr; [|lia|done|by left]. cbn [mbind result_bind]. change (skip_ws (44 :: ?y)) with (44 :: y). cbv beta iota.
    assert (starts (dump_entry (k2, t2))) as Hs'.
    { apply Forall2_cons_inv_l in Hts as (? & ? & Hx & _). by eapply starts_entry. }
    rewrite starts_skip by by apply starts_join.
    rewrite Hset, <- !fmap_cons, IH; [by rewrite <- app_assoc|done|done|by rewrite <- app_assoc|].
    rewrite fmap_cons. lia.
Qed.

(** ** The round trip *)

Lemma scalars_join sep ts : scalars (str_join sep ts) → Forall scalars ts.
Proof.
  induction ts as [|t ts IH]; [constructor|]. destruct ts as [|t' ts]; [by repeat constructor|].
  rewrite join_cons2. unfold scalars. rewrite !Forall_app. intros (? & _ & ?). constructor; [done|]. by apply IH.
Qed.
Lemma scalars_entry kt : scalars (dump_entry kt) → scalars kt.1 ∧ scalars kt.2.
Proof.
  unfold dump_entry, scalars. rewrite !Forall_app. intros (? & _ & ?). split; [by apply dump_scalars|done].
Qed.

Definition canon_entry (kv : pystr * pyval) : pystr * pyval := (kv.1, canon kv.2).
Definition canon_dict (d : pydict) : pydict := sort_by entry_leb (map canon_entry d).

Lemma canon_VDict d : canon (VDict d) = VDict (canon_dict d).
Proof. done. Qed.
Lemma keys_canon d : keys (map canon_entry d) = keys d.
Proof. unfold keys. induction d as [|kv d IH]; [done|]. cbn. by f_equal. Qed.
Lemma keys_canon_dict d : keys (canon_dict d) ≡ₚ keys d.
Proof. rewrite <- (keys_canon d). unfold keys, canon_dict. apply fmap_Permutation, sort_by_perm. Qed.

Definition portable_reads b (v : pyval) : Prop :=
  ∀ t, portable v → json_dumps b v = Some t → scalars t → reads t (canon v).

Lemma match_not_93 {A} (c : N) (r : pystr) (f g : pystr → A) :
  c ≠ 93 → match c :: r with 93 :: r => f r | s => g s end = g (c :: r).
Proof. intros Hc. destruct c as [|p]; [done|]. do 7 (destruct p as [p|p|]; try done). Qed.
Lemma match_not_125 {A} (c : N) (r : pystr) (f g : pystr → A) :
  c ≠ 125 → match c :: r with 125 :: r => f r | s => g s end = g (c :: r).
Proof. intros Hc. destruct c as [|p]; [done|]. do 7 (destruct p as [p|p|]; try done). Qed.

Lemma portable_reads_list b l : Forall (portable_reads b) l → portable_reads b (VList l).
Proof.
  intros IH t Hp Ht Hs. apply portable_list in Hp. apply dumps_list in Ht as (ts & Hts & ->).
  unfold scalars in Hs. rewrite !Forall_app in Hs. destruct Hs as (_ & Hs%scalars_join & _).
  assert (Forall2 reads ts (map canon l)) as Hr.
  { clear - IH Hp Hts Hs. induction Hts as [|x t l ts Hx Hts IHts]; [constructor|].
    apply Forall_cons in IH as [Hi IH], Hp as [Hpx Hp], Hs as [Hst Hs]. constructor; [by apply Hi|by apply IHts]. }
  split; [eexists 91, _; split; [reflexivity|]; by right; left|].
  intros [|fuel] [|depth] rest Hf Hd Hst; try (rewrite length_app in Hf; simpl in Hf; lia); try (simpl in Hd; lia).
  rewrite !length_app in Hf. cbn [length] in Hf. rewrite <- !app_assoc. cbn [app]. cbn [parse_value canon].
  destruct ts as [|t ts].
  - apply Forall2_nil_inv_l in Hr as ->. reflexivity.
  - pose proof (Forall2_cons_inv_l _ _ _ _ Hr) as (v & vs & [Hst' _] & _ & Hvs).
    pose proof (starts_join [44] t ts Hst') as Hsj. rewrite starts_skip by done.
    destruct (starts_not _ (93 :: rest) 93 Hsj ltac:(by left)) as (c & r & E & Hc).
    apply (nesting_list (map canon l)) in Hd.
    pose proof (read_items _ _ fuel depth rest Hr Hd ltac:(done) ltac:(lia)) as Hi. rewrite E in Hi |- *.
    transitivity ('(l, s) ← parse_items fuel depth (c :: r); Ok (VList l, s) : result json_error (pyval * pystr)); [|by rewrite Hi].
    exact (match_not_93 c r (λ r, Ok (VList [], r)) (λ s, '(l, r) ← parse_items fuel depth s; Ok (VList l, r)) Hc).
Qed.

Lemma portable_reads_dict b d : Forall (λ kv, portable_reads b kv.2) d → portable_reads b (VDict d).
Proof.
  intros IH t Hp Ht Hs. apply portable_dict in Hp as [Hnd Hp]. apply dumps_dict in Ht as (ts & Hts & ->).
  unfold scalars in Hs. rewrite !Forall_app in Hs. destruct Hs as (_ & Hs%scalars_join & _).
  apply Forall_fmap in Hs. rewrite sort_by_perm in Hs.
  assert (Forall2 reads_entry (sort_by entry_leb ts) (canon_dict d)) as Hr.
  { apply sort_by_Forall2.
    { intros a b1 a' b1' (E & _) (E' & _). unfold entry_leb. by rewrite E, E'. }
    clear - IH Hp Hts Hs. induction Hts as [|[k x] [k' t] d ts [Hk Hx] Hts IHts]; [constructor|].
    apply Forall_cons in IH as [Hi IH], Hp as [Hpx Hp], Hs as [[Hsk Hst]%scalars_entry Hs].
    constructor; [|by apply IHts]. simpl in *. subst k'. split; [done|]. split; [done|]. by apply Hi. }
  clear Hs Hts IH Hp. set (us := sort_by entry_leb ts) in *. clearbody us. clear ts.
  split; [eexists 123, _; split; [reflexivity|]; by do 2 right; left|].
  intros [|fuel] [|depth] rest Hf Hd Hst; try (rewrite length_app in Hf; simpl in Hf; lia); try (simpl in Hd; lia).
  rewrite !length_app in Hf. cbn [length] in Hf. rewrite <- !app_assoc. cbn [app]. rewrite canon_VDict. cbn [parse_value].
  destruct us as [|kt us].
  - apply Forall2_nil_inv_l in Hr as ->. reflexivity.
  - pose proof (Forall2_cons_inv_l _ _ _ _ Hr) as (v & vs & Hst' & _ & Hvs).
    pose proof (starts_join [44] _ (dump_entry <$> us) (starts_entry _ _ Hst')) as Hsj.
    rewrite <- fmap_cons in Hsj. rewrite starts_skip by done.
    destruct (starts_not _ (125 :: rest) 125 Hsj ltac:(by right)) as (c & r & E & Hc).
    assert (NoDup (keys ([] ++ canon_dict d))) as Hnd' by (cbn [app]; by rewrite keys_canon_dict).
    rewrite canon_VDict in Hd. apply nesting_dict in Hd.
    pose proof (read_entries _ _ fuel depth [] rest Hr Hd ltac:(done) Hnd' ltac:(lia)) as Hi. rewrite E in Hi |- *.
    transitivity ('(d, s) ← parse_entries fuel depth [] (c :: r); Ok (VDict d, s) : result json_error (pyval * pystr)); [|by rewrite Hi].
    exact (match_not_125 c r (λ r, Ok (VDict [], r)) (λ s, '(d, r) ← parse_entries fuel depth [] s; Ok (VDict d, r)) Hc).
Qed.

Lemma read_value b v : portable_reads b v.
Proof.
  induction v as [|x|z|f|s|l IH|d IH] using pyval_deep_ind.
  1: intros t _ [= <-] _. 2: intros t _ Ht _; destruct x; injection Ht as <-.
  1-3: split; [eexists _, _; split; [reflexivity|tauto]|]; intros [|fuel] depth rest Hf _ _; [simpl in Hf; lia|reflexivity].
  - intros t Hp Ht _. cbn [json_dumps] in Ht. destruct (int_too_long z); [done|]. injection Ht as <-. by apply read_int.
  - by intros t Hp.
  - intros t _ [= <-] Hs. apply read_string. by apply dump_scalars.
  - by apply portable_reads_list.
  - by apply portable_reads_dict.
Qed.

Lemma nesting_canon v : nesting (canon v) = nesting v.
Proof.
  assert (∀ n, (nesting (canon v) ≤ n)%nat ↔ (nesting v ≤ n)%nat) as Hn.
  { induction v as [|x|z|f|s|l IH|d IH] using pyval_deep_ind; intros n; try done; destruct n as [|n].
    1,3: split; cbn; lia.
    - change (canon (VList l)) with (VList (map canon l)). rewrite !nesting_list, Forall_map.
      rewrite Forall_forall in IH. rewrite !Forall_forall. split; intros H x Hx; by apply (IH x Hx), H.
    - rewrite canon_VDict, !nesting_dict. unfold canon_dict. rewrite sort_by_perm, Forall_map.
      rewrite Forall_forall in IH. rewrite !Forall_forall. split; intros H x Hx; by apply (IH x Hx), H. }
  pose proof (proj1 (Hn _) (Nat.le_refl _)). pose proof (proj2 (Hn _) (Nat.le_refl _)). lia.
Qed.

Lemma loads_dumps `{Interpreter} b v t :
  portable v → (nesting v ≤ recursion_depth)%nat → json_dumps b v = Some t → scalars t → json_loads t = Ok (canon v).
Proof.
  intros Hp Hn Ht Hs. rewrite <- nesting_canon in Hn. destruct (read_value b v t Hp Ht Hs) as [Hst Hr]. unfold json_loads.
  assert (∀ A (x y : A), match t with 0xFEFF :: _ => x | _ => y end = y) as ->.
  { intros A x y. destruct Hst as (c & r & -> & Hc). repeat destruct Hc as [->|Hc]; try reflexivity.
    digit_cases c Hc; reflexivity. }
  pose proof (starts_skip t [] Hst) as Hk. rewrite app_nil_r in Hk. rewrite Hk.
  specialize (Hr (S (length t)) recursion_depth [] ltac:(lia) Hn I). rewrite app_nil_r in Hr. by rewrite Hr.
Qed.

(** ** Reordered values *)

Lemma get_canon k d : NoDup (keys d) → get k (canon_dict d) = canon (get k d).
Proof.
  intros Hd. unfold get. assert (dict_lookup k (canon_dict d) = canon <$> dict_lookup k d) as ->; [|by destruct (dict_lookup k d)].
  assert (NoDup (keys (canon_dict d))) as Hc by by rewrite keys_canon_dict.
  apply option_eq. intros v. rewrite <- (dict_lookup_in_iff k (canon_dict d) v Hc), fmap_Some. unfold canon_dict.
  rewrite sort_by_perm. setoid_rewrite <- (dict_lookup_in_iff k d _ Hd).
  rewrite list_elem_of_In, in_map_iff. setoid_rewrite <- list_elem_of_In. unfold canon_entry.
  split; [intros ([k' x] & [= -> <-] & ?)|intros (x & ? & ->)]; eauto. exists (k, x). by split.
Qed.
Lemma has_keys_canon d ks : has_keys (canon_dict d) ks = has_keys d ks.
Proof. apply eq_bool_prop_intro. rewrite !Is_true_true, !has_keys_true. by setoid_rewrite keys_canon_dict. Qed.

Lemma str_leb_total s t : str_leb s t = true ∨ str_leb t s = true.
Proof.
  revert t. induction s as [|a s IH]; intros [|b t]; simpl; [by left..|by right|].
  rewrite (N.eqb_sym b a). destruct (N.eqb_spec a b) as [->|Hne]; [apply IH|].
  rewrite !N.ltb_lt. lia.
Qed.
Lemma str_leb_trans s t r : str_leb s t = true → str_leb t r = true → str_leb s r = true.
Proof.
  revert t r. induction s as [|a s IH]; intros [|b t] [|c r]; simpl; try done.
  destruct (N.eqb_spec a b) as [->|Hab]; destruct (N.eqb_spec b c) as [->|Hbc].
  - apply IH.
  - rewrite !N.ltb_lt. intros _ H. done.
  - destruct (N.eqb_spec a c); [done|]. by rewrite !N.ltb_lt.
  - rewrite !N.ltb_lt. intros H1 H2. destruct (N.eqb_spec a c); [lia|]. rewrite N.ltb_lt. lia.
Qed.

Definition sorted_entries {A} (l : list (pystr * A)) : Prop := StronglySorted (λ x y, entry_leb x y = true) l.
Lemma insert_sorted {A} (x : pystr * A) l : sorted_entries l → sorted_entries (insert_by entry_leb x l).
Proof.
  induction 1 as [|y l Hl IH Hy]; cbn [insert_by]; [by repeat constructor|].
  destruct (entry_leb x y) eqn:E.
  - constructor; [by constructor|]. constructor; [done|]. eapply Forall_impl; [exact Hy|].
    intros z Hz. unfold entry_leb in *. by eapply str_leb_trans.
  - constructor; [done|]. rewrite insert_by_perm. constructor; [|done]. unfold entry_leb in *.
    destruct (str_leb_total x.1 y.1); congruence.
Qed.
Lemma sort_sorted {A} (l : list (pystr * A)) : sorted_entries (sort_by entry_leb l).
Proof. induction l as [|x l IH]; [constructor|]. by apply insert_sorted. Qed.
Lemma sort_of_sorted {A} (l : list (pystr * A)) : sorted_entries l → sort_by entry_leb l = l.
Proof.
  induction 1 as [|x l Hl IH Hx]; [done|]. cbn [sort_by foldr]. change (foldr _ _ l) with (sort_by entry_leb l).
  rewrite IH. destruct Hx as [|y l Hxy _]; [done|]. cbn [insert_by]. by rewrite Hxy.
Qed.

(** Printing does not see the order of the keys. *)
Lemma dumps_canon b v t : json_dumps b v = Some t → json_dumps b (canon v) = Some t.
Proof.
  revert t. induction v as [|x|z|f|s|l IH|d IH] using pyval_deep_ind; try done; intros t Ht.
  - apply dumps_list in Ht as (ts & Hts & ->). apply dumps_list. exists ts. split; [|done].
    clear -IH Hts. induction Hts as [|x t l ts Hx _ IHts]; [constructor|].
    apply Forall_cons in IH as [Hi IH]. constructor; [by apply Hi|by apply IHts].
  - apply dumps_dict in Ht as (ts & Hts & ->). rewrite canon_VDict. apply dumps_dict.
    exists (sort_by entry_leb ts). split; [|by rewrite (sort_of_sorted (sort_by _ _)) by apply sort_sorted].
    apply sort_by_Forall2.
    { intros a a' c c' [E _] [E' _]. unfold entry_leb. by rewrite E, E'. }
    clear -IH Hts. induction Hts as [|x t d ts [Hk Hx] _ IHts]; [constructor|].
    apply Forall_cons in IH as [Hi IH]. constructor; [|by apply IHts]. split; [done|]. by apply Hi.
Qed.

(** ** Printed text is one line *)

Lemma escape_no_newline c : 10 ∉ escape_char c.
Proof.
  destruct (N.ltb_spec c 32) as [Hc|Hc].
  - assert (forallb (λ c, negb (mem 10 (escape_char c))) (N.of_nat <$> seq 0 32) = true) as H by (vm_compute; reflexivity).
    rewrite forallb_true in H. specialize (H c). rewrite negb_true_iff, mem_false in H. apply H.
    apply list_elem_of_fmap. exists (N.to_nat c). rewrite N2Nat.id. split; [done|]. apply elem_of_seq. lia.
  - unfold escape_char. rewrite (proj2 (N.ltb_ge c 32)) by done.
    repeat match goal with |- context [c =? ?n] => destruct (N.eqb_spec c n); [by apply mem_false|] end.
    rewrite list_elem_of_singleton. lia.
Qed.
Lemma dump_str_no_newline s : 10 ∉ dump_str s.
Proof.
  unfold dump_str. rewrite !elem_of_app, !list_elem_of_singleton. intros [H|[H|H]]; [done| |done].
  apply list_elem_of_bind in H as (c & H & _). by apply escape_no_newline in H.
Qed.
Lemma join_no_newline sep ts : 10 ∉ sep → Forall (λ t, 10 ∉ t) ts → 10 ∉ str_join sep ts.
Proof.
  intros Hs. induction 1 as [|t ts Ht Hts IH]; [apply not_elem_of_nil|].
  destruct ts; [done|]. rewrite join_cons2, !elem_of_app. tauto.
Qed.
Lemma dumps_no_newline b v t : portable v → json_dumps b v = Some t → 10 ∉ t.
Proof.
  revert t. induction v as [|x|z|f|s|l IH|d IH] using pyval_deep_ind; intros t Hp Ht.
  - injection Ht as <-. by apply mem_false.
  - destruct x; injection Ht as <-; by apply mem_false.
  - cbn [json_dumps] in Ht. destruct (int_too_long z); [done|]. injection Ht as <-. intros H. pose proof (int_str_numeric z) as Hn. rewrite Forall_forall in Hn.
    apply Hn in H. unfold numeric in H. lia.
  - done.
  - injection Ht as <-. apply dump_str_no_newline.
  - apply portable_list in Hp. apply dumps_list in Ht as (ts & Hts & ->).
    rewrite !elem_of_app, !list_elem_of_singleton. intros [H|[H|H]]; [done| |done]. revert H.
    apply join_no_newline; [by apply mem_false|]. clear -IH Hp Hts.
    induction Hts as [|x t l ts Hx _ IHts]; [constructor|].
    apply Forall_cons in IH as [Hi IH], Hp as [Hpx Hp]. constructor; [by apply Hi|by apply IHts].
  - apply portable_dict in Hp as [_ Hp]. apply dumps_dict in Ht as (ts & Hts & ->).
    rewrite !elem_of_app, !list_elem_of_singleton. intros [H|[H|H]]; [done| |done]. revert H.
    apply join_no_newline; [by apply mem_false|]. apply Forall_fmap. rewrite sort_by_perm. clear -IH Hp Hts.
    induction Hts as [|x t d ts [Hk Hx] _ IHts]; [constructor|].
    apply Forall_cons in IH as [Hi IH], Hp as [Hpx Hp]. constructor; [|by apply IHts].
    simpl. unfold dump_entry. rewrite !elem_of_app, list_elem_of_singleton.
    intros [H|[H|H]]; [by apply dump_str_no_newline in H|done|].
    by apply Hi in H.
Qed.

Lemma byte_of_newline n : n < 256 → byte_of n = Byte.x0a → n = 10.
Proof. intros Hn E. apply (f_equal Byte.to_N) in E. by rewrite to_N_byte_of in E. Qed.
Lemma utf8_char_newline c : is_scalar c = true → Byte.x0a ∈ utf8_char c → c = 10.
Proof.
  unfold is_scalar. intros [Hlt%N.ltb_lt _]%andb_true_iff H.
  destruct (digits64 c Hlt) as (p & q & r & s & Hd & ? & ? & ? & ? & E1 & E2 & E3 & E4 & E5 & E6).
  unfold utf8_char in H. rewrite E1, E2, E3, E4, E5, E6 in H.
  destruct (N.ltb_spec c 0x80); [|destruct (N.ltb_spec c 0x800); [|destruct (N.ltb_spec c 0x10000)]];
    rewrite ?elem_of_cons, ?elem_of_nil in H; repeat destruct H as [H|H]; try done;
    symmetry in H; apply byte_of_newline in H; lia.
Qed.
Lemma utf8_encode_newline t b : utf8_encode t = Some b → 10 ∉ t → Byte.x0a ∉ b.
Proof.
  unfold utf8_encode, encodable. destruct (forallb _ _) eqn:E; [|done]. intros [= <-] Ht (c & Hc & Hin)%list_elem_of_bind.
  rewrite forallb_true in E. apply utf8_char_newline in Hc; [by subst|by apply E].
Qed.
Lemma utf8_encode_scalars t b : utf8_encode t = Some b → scalars t.
Proof.
  unfold utf8_encode, encodable. destruct (forallb _ _) eqn:E; [|done]. intros _.
  apply Forall_forall. intros c Hc. rewrite forallb_true in E. by apply E.
Qed.

(** ** Short integers *)

Lemma digits_value_app ds es : digits_value (ds ++ es) = digits_value ds * 10 ^ N.of_nat (length es) + digits_value es.
Proof.
  induction es as [|e es IH] using rev_ind; [rewrite app_nil_r; cbn; lia|].
  rewrite app_assoc, !digits_value_snoc, IH, length_app. cbn [length].
  replace (N.of_nat (length es + 1)) with (N.succ (N.of_nat (length es))) by lia. rewrite N.pow_succ_r'. lia.
Qed.
Lemma decimal_long n ds : decimal n ds → 10 ^ N.of_nat (pred (length ds)) ≤ n ∨ ds = [].
Proof.
  intros [Hd Hv Hh _]. destruct ds as [|c ds]; [by right|left]. apply Forall_cons in Hd as [Hc _].
  change (c :: ds) with ([c] ++ ds) in Hv. rewrite digits_value_app in Hv.
  assert (1 ≤ digits_value [c]) as H1.
  { unfold digits_value. cbn. unfold is_digit in Hc. apply andb_true_iff in Hc as [?%N.leb_le ?%N.leb_le].
    assert (c ≠ 48) by by intros ->. lia. }
  rewrite <- Hv. cbn [length pred]. nia.
Qed.
(** A 64-bit integer has few digits. *)
Lemma int_str_length z : (Z.abs z < 2 ^ 64)%Z → (length (int_str z) ≤ 41)%nat.
Proof.
  intros Hz. destruct (int_str_decimal z) as [[-> ->]|[Hne (ds & Hd & ->)]]; [simpl; lia|].
  assert (length ds ≤ 40)%nat as Hl.
  { destruct (decimal_long _ _ Hd) as [Hle| ->]; [|cbn [length]; lia].
    assert (Z.abs_N z < 10 ^ 30) as Hlt by (apply N2Z.inj_lt; rewrite N2Z.inj_abs_N; etrans; [exact Hz|reflexivity]).
    assert (N.of_nat (pred (length ds)) < 30); [|lia]. apply (N.pow_lt_mono_r_iff 10); [lia|].
    by eapply N.le_lt_trans. }
  rewrite length_app. destruct (z <? 0)%Z; cbn [length]; lia.
Qed.
Lemma int_str_short z : (Z.abs z < 2 ^ 64)%Z → (length (int_str z) ≤ 4300)%nat.
Proof. intros H%int_str_length. lia. Qed.
Lemma dumps_int b z : (Z.abs z < 2 ^ 64)%Z → json_dumps b (VInt z) = Some (int_str z).
Proof.
  intros Hz. cbn [json_dumps]. unfold int_too_long.
  by rewrite (proj2 (Nat.ltb_ge _ _) (int_str_short (Z.abs z) ltac:(by rewrite Z.abs_idemp))).
Qed.
