(* ===== verification/BrokerClient.v ===== *)
(** * Broker client

    [runtime/host_broker.py] and [host_broker_wire.py]: the Odoo side of the broker's protocol.
    [call] binds one typed operation to its turn, sends it over one connection and checks the
    receipt.  The socket, the clock, the random tokens and the turn's row are reached through
    [BrokerPeer]. *)
From S2P Require Import Prelude PyText Regex Sha256 PyValue Json EffectPlan CapabilityValidation.
From S2P Require Import BrokerServer.
Local Open Scope Z_scope.

Definition client_error (code : pystr) : plan_exn := CapabilityError code [].
Definition OSError : plan_exn := OtherError (u "OSError").
Definition UnicodeEncodeError : plan_exn := OtherError (u "UnicodeEncodeError").
Definition PyRecursionError : plan_exn := OtherError (u "RecursionError").
Definition byte_len (b : pybytes) : Z := Z.of_nat (length b).

(** ** Wire rules *)

Definition PROTOCOL_VERSION : Z := 1.
Definition DEFAULT_SOCKET : pystr := u "/run/odoo-ai-host-broker/broker.sock".
Definition DEFAULT_BROKER_UID : Z := 0.
Definition MAX_REQUEST_BYTES : Z := 64 * 1024.
Definition MAX_RESPONSE_BYTES : Z := 128 * 1024.
Definition MAX_PAYLOAD_BYTES : Z := 32 * 1024.
Definition PHASES : list pystr := [u "preview"; u "execute"; u "verify"].
Definition _RECEIPT_STATUSES : list pystr := [u "ok"; u "denied"; u "stale"; u "error"; u "uncertain"].
Definition _RECEIPT_EFFECT_STATES : list pystr := [u "none"; u "applied"; u "unknown"].
Definition _RECOVERY_CLASSIFICATIONS : list pystr := [u "none"; u "backup_available"; u "external_or_unknown"].

Local Open Scope regex_scope.
Definition _SAFE_IDENTIFIER_RE : regex :=
  RRep (RSet (upper ++ lower ++ digit ++ chars (u "_.:@/-"))) 1 128.
Definition _RECEIPT_ID_RE : regex := RLit (u "receipt:v1:") · RRep (RSet hexdigits) 32 64.
Definition _ERROR_CODE_RE : regex := RSet lower · RRep (RSet (lower ++ digit ++ chars (u "_"))) 0 127.
Local Close Scope regex_scope.

(** [int(raw, 10)] refuses more than 4300 digits; digits outside ASCII, which it reads too, are
    refused by [py_int]. *)
Definition expected_uid_from_environment (raw : option pystr) : result plan_exn Z :=
  let bad := client_error (u "host_broker_configuration_invalid") in
  match raw with
  | None | Some [] => Ok DEFAULT_BROKER_UID
  | Some raw =>
      raise_when (4300 <? length (filter (λ c, is_digit c = true) raw))%nat bad;;
      value ← of_option (py_int raw) bad;
      raise_when (value <? 0) bad;;
      Ok value
  end.

Definition safe_identifier (v : pyval) : bool :=
  match v with VStr s => fullmatch _SAFE_IDENTIFIER_RE s | _ => false end.
Definition bounded_identifier (s code : pystr) : result plan_exn pystr :=
  raise_when (negb (safe_identifier (VStr s))) (client_error code);;
  Ok s.

Definition sha256_fingerprint (v : pyval) : bool :=
  let prefix := u "sha256:" in
  match v with
  | VStr s =>
      startswith prefix s && (length s =? length prefix + 64)%nat
      && forallb (λ c, mem c (u "0123456789abcdef")) (drop (length prefix) s)
  | _ => false
  end.
Definition sha256_bytes (value : pybytes) : pystr := u "sha256:" ++ sha256_hexdigest value.

Definition canonical_json (value : pyval) : result plan_exn pybytes :=
  of_option (t ← json_dumps false value; utf8_encode t) (client_error (u "host_broker_request_invalid")).

(** A copy of the frozen value out of plain dicts and lists: what a [pyval] is made of. *)
Fixpoint thaw_json (v : pyval) : pyval :=
  match v with
  | VDict d => VDict (map (λ kv, (kv.1, thaw_json kv.2)) d)
  | VList l => VList (map thaw_json l)
  | v => v
  end.

Definition safe_error_code (v : pyval) : pystr :=
  match v with
  | VStr s => if fullmatch _ERROR_CODE_RE s then s else u "broker_error"
  | _ => u "broker_error"
  end.

(** ** Receipts *)

(** [v not in S] *)
Definition not_in (v : pyval) (ss : list pystr) : result plan_exn bool :=
  negb <$> of_option (in_str_set v ss) PyTypeError.

Definition _RECEIPT_KEYS : list pystr :=
  [u "protocol_version"; u "request_id"; u "receipt_id"; u "operation"; u "phase"; u "status";
   u "effect_state"; u "precondition_fingerprint"; u "postcondition_fingerprint"; u "summary";
   u "recovery"; u "error_code"; u "started_at"; u "completed_at"].

Definition token_invalid (v : pyval) : bool :=
  match v with
  | VNone => false
  | VStr t => (160 <? Z.of_nat (length t)) || mem 0%N t
  | _ => true
  end.

Definition recovery_keys_wrong (v : pyval) : bool :=
  match v with VDict recovery => negb (has_keys recovery [u "classification"; u "token"]) | _ => true end.
Definition times_wrong (receipt : pydict) : bool :=
  match get (u "started_at") receipt, get (u "completed_at") receipt with
  | VInt s, VInt c => c <? s
  | _, _ => true
  end.

Definition validate_receipt (receipt request : pydict) : result plan_exn unit :=
  let bad := client_error (u "host_broker_response_invalid") in
  let differs k := negb (py_eq (get k receipt) (get k request)) in
  raise_any
    [Ok (negb (has_keys receipt _RECEIPT_KEYS));
     Ok (negb (eq_int (get (u "protocol_version") receipt) PROTOCOL_VERSION));
     Ok (differs (u "request_id")); Ok (differs (u "operation")); Ok (differs (u "phase"));
     not_in (get (u "status") receipt) _RECEIPT_STATUSES;
     not_in (get (u "effect_state") receipt) _RECEIPT_EFFECT_STATES;
     Ok (negb (bool_decide (is_Some (as_dict (get (u "summary") receipt)))));
     Ok (recovery_keys_wrong (get (u "recovery") receipt));
     Ok (times_wrong receipt)] bad;;
  raise_when (match get (u "receipt_id") receipt with VStr s => negb (fullmatch _RECEIPT_ID_RE s) | _ => true end) bad;;
  let recovery := default [] (as_dict (get (u "recovery") receipt)) in
  raise_any
    [not_in (get (u "classification") recovery) _RECOVERY_CLASSIFICATIONS;
     Ok (token_invalid (get (u "token") recovery))] bad;;
  raise_when
    (match get (u "error_code") receipt with
     | VNone => false | VStr s => negb (fullmatch _ERROR_CODE_RE s) | _ => true
     end) bad;;
  raise_when
    (existsb (λ k, negb (is_none (get k receipt)) && negb (sha256_fingerprint (get k receipt)))
       [u "precondition_fingerprint"; u "postcondition_fingerprint"]) bad;;
  whole ← canonical_json (VDict receipt);
  raise_when (MAX_RESPONSE_BYTES <? byte_len whole) bad.

Definition _uncertain_transport_error (code : pyval) : plan_exn :=
  CapabilityError (u "host_effect_uncertain") [(u "broker_code", VStr (safe_error_code code))].

(** ** The request *)

(** The caller's context: [ctx_dbname] is [context.env.cr.dbname], [None] when there is none. *)
Record client_context := MkClientContext {
  ctx_turn_id : pystr;
  ctx_conversation_id : option pystr;
  ctx_metadata : pydict;
  ctx_uid : Z;
  ctx_dbname : pyval }.

(** What the search of the caller's turn gives: nothing, an exception, or the plan's envelope. *)
Inductive turn_lookup : Type :=
| NoTurn
| LookupCapabilityError (code : pystr) (details : pydict)
| LookupError
| TurnPlan (envelope : pyval).

Definition _database_fingerprint (c : client_context) : result plan_exn pystr :=
  match ctx_dbname c with
  | VStr ((_ :: _) as dbname) => sha256_bytes <$> of_option (utf8_encode dbname) UnicodeEncodeError
  | _ => Err (client_error (u "host_broker_request_invalid"))
  end.

Definition _stable_request_id (turn_id step_id binding_fingerprint operation args_fingerprint : pystr)
    : result plan_exn pystr :=
  body ← of_option (utf8_encode (str_join (u "|") [turn_id; step_id; binding_fingerprint; operation; args_fingerprint]))
           UnicodeEncodeError;
  Ok (u "req:v1:" ++ take 40 (sha256_hexdigest body)).

(** The identifiers of an effectful request, when they have their formats. *)
Definition safe_binding (step_id binding_fingerprint precondition_fingerprint : pyval)
    : option (pystr * pystr * pystr) :=
  if safe_identifier step_id && sha256_fingerprint binding_fingerprint
     && sha256_fingerprint precondition_fingerprint then
    s ← as_str step_id; b ← as_str binding_fingerprint; p ← as_str precondition_fingerprint; Some (s, b, p)
  else None.

(** A step of the stored plan that may be the one being executed. *)
Definition candidate_step (capability : pystr) (expected_arguments : pybytes) (raw_step : pyval)
    : result plan_exn bool :=
  match raw_step with
  | VDict s =>
      skip ← any_of [Ok (negb (py_eq (get (u "capability") s) (VStr capability)));
                     not_in (get (u "state") s) [u "previewed"; u "executing"]];
      Ok (negb skip &&
          match canonical_json (get (u "arguments") s) with
          | Ok b => bool_decide (b = expected_arguments)
          | Err _ => false
          end)
  | _ => Ok false
  end.

Definition _binding_from_durable_plan (turn : turn_lookup) (capability : pystr) (arguments : pyval)
    : result plan_exn (pystr * pystr * pystr) :=
  let missing := client_error (u "host_broker_plan_binding_missing") in
  envelope ← match turn with
             | NoTurn | LookupError => Err missing
             | LookupCapabilityError code details => Err (CapabilityError code details)
             | TurnPlan envelope => Ok envelope
             end;
  let plan := match envelope with VDict e => get (u "plan") e | _ => VNone end in
  let steps := match plan with VDict p => get (u "steps") p | _ => VNone end in
  steps ← of_option (as_list steps) missing;
  expected_arguments ← canonical_json (thaw_json arguments);
  matches ← foldR (λ acc raw_step,
    b ← candidate_step capability expected_arguments raw_step;
    Ok (if b : bool then acc ++ [raw_step] else acc)) [] steps;
  match matches with
  | [VDict step] =>
      of_option (safe_binding (get (u "step_id") step) (get (u "binding_fingerprint") step)
                   (get (u "precondition_fingerprint") step)) missing
  | _ => Err missing
  end.

Definition opt_str (b : bool) (s : pystr) : pyval := if b then VStr s else VNone.

(** The request's dict and its binding: [ids] are the step's identifier, its binding and its
    precondition. *)
Definition binding_value (turn_id : pystr) (conversation_id : option pystr) (uid : Z)
    (database capability args_fingerprint : pystr) (effectful : bool) (ids : pystr * pystr * pystr) : pydict :=
  [(u "turn_id", VStr turn_id);
   (u "conversation_id", of_opt_str conversation_id);
   (u "odoo_uid", VInt uid);
   (u "database_fingerprint", VStr database);
   (u "capability", VStr capability);
   (u "step_id", opt_str effectful ids.1.1);
   (u "args_sha256", VStr args_fingerprint);
   (u "binding_fingerprint", opt_str effectful ids.1.2);
   (u "precondition_fingerprint", opt_str effectful ids.2)].
Definition request_value (timeout now : Z) (request_id operation phase : pystr) (binding : pydict) (payload : pyval)
    : pydict :=
  [(u "protocol_version", VInt PROTOCOL_VERSION);
   (u "request_id", VStr request_id);
   (u "operation", VStr operation);
   (u "phase", VStr phase);
   (u "issued_at", VInt now);
   (u "expires_at", VInt (now + Z.min 120 (Z.max 5 (timeout + 5))));
   (u "binding", VDict binding);
   (u "payload", payload)].

(** ** The client *)

Record HostBrokerClient := MkClient {
  cl_socket_path : pystr;
  cl_expected_uid : Z;
  cl_timeout_seconds : pyval }.

(** [int(v)] of a finite number *)
Definition int_of_number (v : pyval) : Z :=
  match as_number v with
  | Some (FDec neg m e) =>
      let z := if e <? 0 then Z.of_N m / 10 ^ (- e) else Z.of_N m * 10 ^ e in
      if neg then - z else z
  | _ => 0
  end.
(** [0.1 <= float(v) <= 600.0] of an [int] or a [float] *)
Definition timeout_wrong (v : pyval) : bool :=
  match as_number v with
  | Some FNan | None => true
  | Some f => float_ltb f (FDec false 1 (-1)) || float_ltb (FDec false 600 0) f
  end.

(** [float(v)] raises [OverflowError]. *)
Definition float_overflows (v : pyval) : bool :=
  match v with VInt z => 2 ^ 1024 - 2 ^ 970 <=? Z.abs z | _ => false end.

(** [HostBrokerClient(socket_path=..., expected_uid=..., timeout_seconds=...)]: [env_socket] and
    [env_uid] are the two environment variables. *)
Definition host_broker_client (env_socket env_uid : option pystr) (socket_path expected_uid timeout_seconds : pyval)
    : result plan_exn HostBrokerClient :=
  let bad := client_error (u "host_broker_configuration_invalid") in
  let path := if truthy socket_path then socket_path else VStr (default DEFAULT_SOCKET env_socket) in
  uid ← (if is_none expected_uid then VInt <$> expected_uid_from_environment env_uid else Ok expected_uid);
  path ← of_option (as_str path) bad;
  raise_when (negb (startswith (u "/") path) || mem 0%N path || (1024 <? length path)%nat) bad;;
  uid ← of_option (as_int uid) bad;
  raise_when (uid <? 0) bad;;
  raise_when (float_overflows timeout_seconds) (OtherError (u "OverflowError"));;
  raise_when (timeout_wrong timeout_seconds) bad;;
  Ok (MkClient path uid timeout_seconds).

(** What [SO_PEERCRED] reports. *)
Inductive peer_credentials : Type := CredUnsupported | CredFailed | CredUid (uid : Z).

(** The process's surroundings; [false] and [None] stand for an [OSError]. *)
Class BrokerPeer (W : Type) := {
  (** how deep the interpreter nests *)
  peer_interpreter :: Interpreter;
  (** [int(time.time())] and [secrets.token_hex(n)] *)
  peer_time : W → Z * W;
  peer_token_hex : nat → W → pystr * W;
  (** the turn with this [turn_uuid] owned by this user *)
  peer_turn : pystr → Z → W → turn_lookup;
  peer_socket : W → bool * W;
  peer_connect : pystr → W → bool * W;
  peer_getsockopt : W → peer_credentials * W;
  peer_sendall : pybytes → W → bool * W;
  peer_recv : nat → W → option pybytes * W }.

(** [cw_sent] lists what was handed to [sendall], latest first. *)
Record client_world (W : Type) := MkClientWorld { cw_env : W; cw_sent : list pybytes }.
Arguments MkClientWorld {W}.
Arguments cw_env {W}.
Arguments cw_sent {W}.

Section client.
Context {W : Type} `{!BrokerPeer W}.
Abbreviation M := (ST (client_world W) plan_exn).

Definition sys {A} (f : W → A * W) : M A := λ w,
  let '(a, e) := f (cw_env w) in (Ok a, MkClientWorld e (cw_sent w)).
(** A call that returns or raises [OSError]. *)
Definition sys_ok (f : W → bool * W) : M unit :=
  ok ← sys f; lift (raise_when (negb ok) OSError).

Definition verify_peer_uid (expected_uid : Z) : M unit :=
  creds ← sys peer_getsockopt;
  lift (raise_when (match creds with CredUid uid => negb (uid =? expected_uid) | _ => true end)
          (client_error (u "host_broker_peer_unverified"))).

Definition sendall (raw : pybytes) : M unit :=
  modify (λ w, MkClientWorld (cw_env w) (raw :: cw_sent w));;
  sys_ok (peer_sendall raw).

(** Every chunk adds to [data], so [maximum + 2] rounds are enough. *)
Fixpoint recv_loop (fuel : nat) (maximum : Z) (data : pybytes) : M pybytes :=
  match fuel with
  | O => raise (OtherError (u "fuel"))
  | S fuel =>
      if byte_len data <=? maximum then
        chunk ← sys (peer_recv (Z.to_nat (Z.min 8192 (maximum + 1 - byte_len data))));
        chunk ← lift (of_option chunk OSError);
        match chunk with
        | [] => mret data
        | _ => if mem newline_byte chunk then mret (data ++ chunk)
               else recv_loop fuel maximum (data ++ chunk)
        end
      else mret data
  end.

Definition recv_line (maximum : Z) : M pybytes :=
  data ← recv_loop (Z.to_nat (maximum + 2)) maximum [];
  lift (raise_when (maximum <? byte_len data) (client_error (u "host_broker_response_invalid"));;
        match split_line data with
        | Some (line, trailing) =>
            raise_when (negb (bool_decide (trailing = []))) (client_error (u "host_broker_response_invalid"));;
            Ok line
        | None =>
            raise_when (bool_decide (data = [])) (client_error (u "host_broker_unavailable"));;
            Ok data
        end).

(** The exception handlers around the connection. *)
Definition transport_failure (effectful dispatched : bool) (e : plan_exn) : plan_exn :=
  match e with
  | CapabilityError code _ =>
      if effectful && dispatched then _uncertain_transport_error (VStr code) else e
  | OtherError cls =>
      if str_eqb cls (u "OSError") then
        if effectful && dispatched then _uncertain_transport_error (VStr (u "broker_transport_uncertain"))
        else client_error (u "host_broker_unavailable")
      else e
  | e => e
  end.

Definition response_failure (effectful : bool) : plan_exn :=
  if effectful then _uncertain_transport_error (VStr (u "broker_response_uncertain"))
  else client_error (u "host_broker_response_invalid").

Definition decode_response `{Interpreter} (effectful : bool) (raw : pybytes) : result plan_exn pydict :=
  text ← of_option (utf8_decode raw) (response_failure effectful);
  value ← match json_loads text with
          | Ok v => Ok v
          | Err IntTooLong => Err PyValueError
          | Err RecursionError => Err PyRecursionError
          | Err _ => Err (response_failure effectful)
          end;
  of_option (as_dict value) (response_failure effectful).

Definition _exchange (c : HostBrokerClient) (effectful : bool) (raw_request : pybytes) : M pydict :=
  sys_ok peer_socket;;
  catch (sys_ok (peer_connect (cl_socket_path c));; verify_peer_uid (cl_expected_uid c))
    (λ e, raise (transport_failure effectful false e));;
  raw ← catch (sendall raw_request;; recv_line MAX_RESPONSE_BYTES)
          (λ e, raise (transport_failure effectful true e));
  lift (decode_response effectful raw).

(** The step's identifiers: the context's, or the stored plan's. *)
Definition effect_binding (ctx : client_context) (capability : pystr) (payload : pyval)
    : M (pystr * pystr * pystr) :=
  let metadata := ctx_metadata ctx in
  match safe_binding (get (u "capability_plan_step_id") metadata)
          (get (u "capability_plan_binding_fingerprint") metadata)
          (get (u "capability_precondition_fingerprint") metadata) with
  | Some ids => mret ids
  | None =>
      turn ← gets (λ w, peer_turn (ctx_turn_id ctx) (ctx_uid ctx) (cw_env w));
      lift (_binding_from_durable_plan turn capability payload)
  end.

(** The request of a call, or what raises before anything is sent. *)
Definition build_request (c : HostBrokerClient) (ctx : client_context)
    (capability operation phase : pystr) (payload : pyval) (effectful : bool) : M pydict :=
  lift (raise_when (negb (mem phase PHASES) || negb (bool_decide (is_Some (as_dict payload))))
          (client_error (u "host_broker_request_invalid")));;
  let mutable_payload := thaw_json payload in
  encoded_payload ← lift (canonical_json mutable_payload);
  lift (raise_when (MAX_PAYLOAD_BYTES <? byte_len encoded_payload)
          (client_error (u "host_broker_request_too_large")));;
  ids ← (if effectful then effect_binding ctx capability mutable_payload else mret ([], [], []));
  let args_fingerprint := sha256_bytes encoded_payload in
  now ← sys peer_time;
  request_id ←
    (if effectful then lift (_stable_request_id (ctx_turn_id ctx) ids.1.1 ids.1.2 operation args_fingerprint)
     else token ← sys (peer_token_hex 20); mret (u "req:v1:" ++ token));
  turn_id ← lift (bounded_identifier (ctx_turn_id ctx) (u "host_broker_request_invalid"));
  conversation_id ←
    lift (match ctx_conversation_id ctx with
          | Some ((_ :: _) as s) => Some <$> bounded_identifier s (u "host_broker_request_invalid")
          | _ => Ok None
          end);
  database ← lift (_database_fingerprint ctx);
  let binding := binding_value turn_id conversation_id (ctx_uid ctx) database capability args_fingerprint effectful ids in
  mret (request_value (int_of_number (cl_timeout_seconds c)) now request_id operation phase binding mutable_payload).

(** What a checked receipt means to the caller. *)
Definition interpret_receipt (receipt : pydict) : result plan_exn pydict :=
  let details := [(u "broker_code", VStr (safe_error_code (get (u "error_code") receipt)))] in
  let holds k s := py_eq (get k receipt) (VStr s) in
  if holds (u "status") (u "ok") then Ok receipt
  else if holds (u "status") (u "stale") then Err (client_error (u "capability_plan_precondition_changed"))
  else if holds (u "status") (u "uncertain") || holds (u "effect_state") (u "unknown") then
    Err (CapabilityError (u "host_effect_uncertain") details)
  else if holds (u "status") (u "denied") then Err (CapabilityError (u "host_broker_denied") details)
  else Err (CapabilityError (u "host_broker_operation_failed") details).

(** [canonical_json(request) + b"\n"] *)
Definition request_line (request : pydict) : result plan_exn pybytes :=
  (λ b, b ++ [newline_byte]) <$> canonical_json (VDict request).

Definition call (c : HostBrokerClient) (ctx : client_context) (capability operation phase : pystr)
    (payload : pyval) (effectful : bool) : M pydict :=
  request ← build_request c ctx capability operation phase payload effectful;
  raw_request ← lift (request_line request);
  lift (raise_when (MAX_REQUEST_BYTES <? byte_len raw_request) (client_error (u "host_broker_request_too_large")));;
  receipt ← _exchange c effectful raw_request;
  lift (map_err (λ e, match e with
                      | CapabilityError code _ => if effectful then _uncertain_transport_error (VStr code) else e
                      | e => e
                      end) (validate_receipt receipt request);;
        interpret_receipt receipt).
End client.
