(* ===== verification/BrokerClientFacts.v ===== *)
(** * Broker client: its requests at the broker

    The client's request line is read back by the broker as the request that was built, the
    broker admits it, and an effect asked for twice keeps its request id. *)
From S2P Require Import Prelude PyText Regex Sha256 PyValue Json JsonRoundtrip EffectPlan.
From S2P Require Import BrokerClient.
From S2P Require Import BrokerProtocol BrokerPolicy BrokerHost BrokerLedger BrokerEngine BrokerServer.
From S2P Require Import BrokerAdmission BrokerEngineFacts.
From S2P Require Import BrokerExamples.
Local Open Scope Z_scope.

#[local] Arguments fullmatch : simpl never.
#[local] Arguments get : simpl never.

(** ** One line on the wire *)

Lemma client_canonical v b :
  BrokerClient.canonical_json v = Ok b ↔ ∃ t, json_dumps false v = Some t ∧ utf8_encode t = Some b.
Proof. unfold BrokerClient.canonical_json. by rewrite of_option_Ok, bind_Some. Qed.
Lemma server_canonical v b :
  canonical_json v = Ok b ↔ ∃ t, json_dumps false v = Some t ∧ utf8_encode t = Some b.
Proof. unfold canonical_json. by rewrite of_option_Ok, bind_Some. Qed.
Lemma canonical_agree v b : BrokerClient.canonical_json v = Ok b → canonical_json (canon v) = Ok b.
Proof.
  rewrite client_canonical, server_canonical. intros (t & Ht & Hb). exists t. split; [|done]. by apply dumps_canon.
Qed.

Lemma line_read_back {I : Interpreter} v line :
  portable v → (nesting v ≤ @recursion_depth I)%nat → BrokerClient.canonical_json v = Ok line →
  decode_request line = Ok (canon v) ∧ newline_byte ∉ line.
Proof.
  intros Hp Hn (t & Ht & Hb)%client_canonical. split.
  - unfold decode_request. rewrite (utf8_decode_encode _ _ Hb).
    by rewrite (loads_dumps _ _ _ Hp Hn Ht (utf8_encode_scalars _ _ Hb)).
  - apply (utf8_encode_newline _ _ Hb). by eapply dumps_no_newline.
Qed.

Lemma thaw_json_id v : thaw_json v = v.
Proof.
  induction v as [|x|z|f|s|l IH|d IH] using pyval_deep_ind; try done; cbn [thaw_json]; f_equal.
  - induction IH as [|x l Hx _ IHl]; [done|]. cbn. by rewrite Hx, IHl.
  - induction IH as [|[k x] d Hx _ IHd]; [done|]. cbn in *. by rewrite Hx, IHd.
Qed.

(** ** The built request *)

Lemma sha256_bytes_fingerprint b : sha256_bytes b = fingerprint_of b.
Proof. done. Qed.

Lemma startswith_split p s : startswith p s = true → ∃ t, s = p ++ t.
Proof.
  revert s. induction p as [|a p IH]; intros s; [by exists s|]. destruct s as [|b s]; [done|].
  cbn [startswith]. intros [->%N.eqb_eq [t ->]%IH]%andb_true_iff. by exists t.
Qed.
Lemma client_fingerprint v : sha256_fingerprint v = true → str_matches _FINGERPRINT_RE v = true.
Proof.
  destruct v as [| | | |s| |]; try done. cbn [sha256_fingerprint str_matches].
  intros [[Hp Hl%Nat.eqb_eq]%andb_true_iff Hc]%andb_true_iff. apply fullmatch_prefix.
  apply startswith_split in Hp as [t ->]. exists t. rewrite length_app in Hl.
  rewrite drop_app_length in Hc. split_and!; [done|lia|lia|]. apply Forall_forall. intros c Hin.
  rewrite forallb_true in Hc. apply Hc, mem_true in Hin.
  assert (forallb (in_ranges hexdigits) (u "0123456789abcdef") = true) as Hx by (vm_compute; reflexivity).
  rewrite forallb_true in Hx. by apply Hx.
Qed.

Lemma safe_identifier_str s : safe_identifier (VStr s) = fullmatch _SAFE_ID_RE s.
Proof. done. Qed.

Lemma request_id_matches t : length t = 40%nat → Forall (λ c, in_ranges hexdigits c = true) t →
  fullmatch _REQUEST_ID_RE (u "req:v1:" ++ t) = true.
Proof. intros Hl Ht. apply fullmatch_prefix. exists t. split_and!; [done|lia|lia|done]. Qed.

Lemma stable_id_matches t s b o a id :
  _stable_request_id t s b o a = Ok id → fullmatch _REQUEST_ID_RE id = true.
Proof.
  unfold _stable_request_id. intros (body & _ & [= <-])%bind_Ok. apply request_id_matches.
  - rewrite length_take, length_sha256_hexdigest. lia.
  - apply Forall_take, sha256_hexdigest_chars.
Qed.

Lemma safe_binding_Some s b p ids :
  safe_binding s b p = Some ids →
  s = VStr ids.1.1 ∧ b = VStr ids.1.2 ∧ p = VStr ids.2 ∧
  safe_identifier s = true ∧ sha256_fingerprint b = true ∧ sha256_fingerprint p = true.
Proof.
  unfold safe_binding. destruct (_ && _) eqn:E; [|done]. apply andb_true_iff in E as [[? ?]%andb_true_iff ?].
  intros (x & ->%as_str_Some & (y & ->%as_str_Some & (z & ->%as_str_Some & [= <-])%bind_Some)%bind_Some)%bind_Some. done.
Qed.

Definition safe_ids (ids : pystr * pystr * pystr) : Prop :=
  safe_identifier (VStr ids.1.1) = true ∧ sha256_fingerprint (VStr ids.1.2) = true ∧
  sha256_fingerprint (VStr ids.2) = true.
Lemma safe_binding_ids s b p ids : safe_binding s b p = Some ids → safe_ids ids.
Proof. intros (-> & -> & -> & ?)%safe_binding_Some. done. Qed.

Section client.
Context {W : Type} `{!BrokerPeer W}.
Implicit Types (w : client_world W) (c : HostBrokerClient) (ctx : client_context).

Lemma effect_binding_Ok ctx capability payload w ids w' :
  effect_binding ctx capability payload w = (Ok ids, w') → w' = w ∧ safe_ids ids.
Proof.
  unfold effect_binding. destruct (safe_binding _ _ _) as [x|] eqn:E.
  - intros [= -> ->]. split; [done|]. by eapply safe_binding_ids.
  - intros H. st_inv. unfold _binding_from_durable_plan in *. result_inv. split; [done|].
    repeat case_match; try done. result_inv. by eapply safe_binding_ids.
Qed.

(** What a request is made of. *)
Record built c ctx capability operation phase payload (effectful : bool) w (request : pydict) : Prop := {
  bt_phase : phase ∈ PHASES;
  bt_payload : ∃ p, payload = VDict p;
  bt_fields : ∃ body ids now rid conv db,
    BrokerClient.canonical_json payload = Ok body ∧ BrokerClient.byte_len body ≤ BrokerClient.MAX_PAYLOAD_BYTES ∧
    (if effectful then
       effect_binding ctx capability payload w = (Ok ids, w) ∧ safe_ids ids ∧
       _stable_request_id (ctx_turn_id ctx) ids.1.1 ids.1.2 operation (sha256_bytes body) = Ok rid
     else ∃ e, rid = u "req:v1:" ++ (peer_token_hex 20 e).1) ∧
    safe_identifier (VStr (ctx_turn_id ctx)) = true ∧
    (∀ s, conv = Some s → safe_identifier (VStr s) = true) ∧
    _database_fingerprint ctx = Ok db ∧ (∃ e, now = (peer_time e).1) ∧
    request = request_value (int_of_number (cl_timeout_seconds c)) now rid operation phase
                (binding_value (ctx_turn_id ctx) conv (ctx_uid ctx) db capability (sha256_bytes body) effectful ids) payload }.

Lemma bounded_identifier_Ok s e t : bounded_identifier s e = Ok t → t = s ∧ safe_identifier (VStr s) = true.
Proof. unfold bounded_identifier. intros H. result_inv. done. Qed.

Lemma client_sys_Ok {A} (f : W → A * W) w a w' : BrokerClient.sys f w = (Ok a, w') → a = (f (cw_env w)).1.
Proof. unfold BrokerClient.sys. destruct (f (cw_env w)) as [x e]. by intros [= <- _]. Qed.

Lemma build_request_Ok c ctx capability operation phase payload effectful w request w' :
  build_request c ctx capability operation phase payload effectful w = (Ok request, w') →
  built c ctx capability operation phase payload effectful w request.
Proof.
  unfold build_request. rewrite thaw_json_id. intros H. st_inv.
  repeat match goal with Hs : BrokerClient.sys _ _ = _ |- _ => apply client_sys_Ok in Hs as -> end. result_inv.
  match goal with H : bounded_identifier _ _ = Ok _ |- _ => apply bounded_identifier_Ok in H as [-> Hturn] end.
  match goal with H : mem _ _ = true |- _ => apply mem_true in H end.
  match goal with H : bool_decide _ = true |- _ => apply bool_decide_eq_true in H as [p ->%as_dict_Some] end.
  match goal with H : (_ <? _) = false |- _ => apply Z.ltb_ge in H end.
  subst request. split; [done|by exists p|].
  match goal with
  | Hb : BrokerClient.canonical_json _ = Ok ?b, Hd : _database_fingerprint _ = Ok ?d,
    Hr : (if effectful then lift (_stable_request_id _ ?ids.1.1 _ _ _) else _) _ = (Ok ?rid, _),
    Hc : _ = Ok ?conv |- context [request_value _ ?now _ _ _ (binding_value _ ?conv _ _ _ _ _ _)] => exists b, ids, now, rid, conv, d end.
  split_and!; try done; [| |by eexists].
  - destruct effectful; cycle 1.
    { st_inv. match goal with Hs : BrokerClient.sys _ _ = _ |- _ => apply client_sys_Ok in Hs as -> end. subst. by eexists. }
    match goal with Hi : effect_binding _ _ _ _ = _ |- _ => destruct (effect_binding_Ok _ _ _ _ _ _ Hi) as [-> ?] end.
    st_inv. done.
  - intros s ->. destruct (ctx_conversation_id ctx) as [[|a t]|]; result_inv; try done. simplify_eq.
    match goal with Hb : bounded_identifier _ _ = Ok _ |- _ => by apply bounded_identifier_Ok in Hb as [-> ?] end.
Qed.
End client.

(** ** What the broker reads *)

Lemma get_seen k d : has_dup (keys d) = false → get k (canon_dict d) = canon (get k d).
Proof. intros Hd. by apply get_canon, has_dup_false. Qed.

Lemma validated_fields d now r :
  validate_request (VDict d) now = Ok r →
  get (u "request_id") d = VStr (rq_request_id r) ∧ get (u "phase") d = VStr (rq_phase r).
Proof.
  unfold validate_request. intros H. result_inv. simplify_eq/=.
  repeat match goal with
  | H : matching_str _ _ _ = Ok _ |- _ => apply matching_str_Ok in H as [? ?]
  | H : as_str _ = Some _ |- _ => apply as_str_Some in H
  end. done.
Qed.

Section wire.
Context (timeout now : Z) (rid operation phase turn_id : pystr) (conv : option pystr) (uid : Z)
  (db : pystr) (effectful : bool) (ids : pystr * pystr * pystr) (payload : pydict) (body : pybytes).
Abbreviation binding := (binding_value turn_id conv uid db operation (fingerprint_of body) effectful ids).
Abbreviation request := (request_value timeout now rid operation phase binding (VDict payload)).

Lemma seen_get k : get k (canon_dict request) = canon (get k request).
Proof. by apply get_seen. Qed.
Lemma binding_get k : get k (canon_dict binding) = canon (get k binding).
Proof. by apply get_seen. Qed.

Hypothesis Hrid : fullmatch _REQUEST_ID_RE rid = true.
Hypothesis Hop : fullmatch _OPERATION_RE operation = true.
Hypothesis Hphase : phase ∈ PHASES.
Hypothesis Heff : effectful = str_eqb phase (u "execute").
Hypothesis Huid : 0 < uid.
Hypothesis Hturn : fullmatch _SAFE_ID_RE turn_id = true.
Hypothesis Hconv : ∀ s, conv = Some s → fullmatch _SAFE_ID_RE s = true.
Hypothesis Hdb : fullmatch _FINGERPRINT_RE db = true.
Hypothesis Hids : effectful = true → safe_ids ids.
Hypothesis Hbody : canonical_json (canon (VDict payload)) = Ok body.
Hypothesis Hlen : byte_len body ≤ MAX_PAYLOAD_BYTES.

Lemma raise_then {E A} b (e : E) (k : result E A) : b = false → (raise_when b e;; k) = k.
Proof. by intros ->. Qed.
Lemma optional_ok re b s : (b = true → fullmatch re s = true) → none_or_matches re (canon (opt_str b s)) = true.
Proof. destruct b; [|done]. intros H. exact (H eq_refl). Qed.

Lemma binding_admitted : _validate_binding (canon_dict binding) = Ok tt.
Proof.
  unfold _validate_binding. rewrite !binding_get.
  change (get (u "turn_id") binding) with (VStr turn_id).
  change (get (u "conversation_id") binding) with (of_opt_str conv).
  change (get (u "odoo_uid") binding) with (VInt uid).
  change (get (u "step_id") binding) with (opt_str effectful ids.1.1).
  change (get (u "capability") binding) with (VStr operation).
  change (get (u "database_fingerprint") binding) with (VStr db).
  change (get (u "args_sha256") binding) with (VStr (fingerprint_of body)).
  change (get (u "binding_fingerprint") binding) with (opt_str effectful ids.1.2).
  change (get (u "precondition_fingerprint") binding) with (opt_str effectful ids.2).
  assert (none_or_matches _SAFE_ID_RE (canon (of_opt_str conv)) = true) as Hc by (destruct conv; [by apply Hconv|done]).
  assert (∀ b s, (b = true → sha256_fingerprint (VStr s) = true) →
    none_or_matches _FINGERPRINT_RE (canon (opt_str b s)) = true) as Hf.
  { intros b s Hs. apply optional_ok. intros Hb. by apply (client_fingerprint (VStr s)), Hs. }
  rewrite !raise_then.
  - apply raise_when_Ok, negb_false_iff, Hf. intros Hb. by apply Hids.
  - apply negb_false_iff, Hf. intros Hb. by apply Hids.
  - apply negb_false_iff, fingerprint_matches.
  - apply negb_false_iff, Hdb.
  - apply negb_false_iff, Hop.
  - by apply Z.leb_gt.
  - apply negb_false_iff, optional_ok. intros Hb. by apply Hids.
  - by apply negb_false_iff.
  - by apply negb_false_iff.
Qed.

Context (broker_now : Z).
Hypothesis Htime : now - 30 ≤ broker_now ≤ now + Z.min 120 (Z.max 5 (timeout + 5)).
Hypothesis Hwhole : ∃ line, canonical_json (VDict (canon_dict request)) = Ok line ∧ byte_len line ≤ MAX_REQUEST_BYTES.

Lemma request_admitted :
  validate_request (VDict (canon_dict request)) broker_now =
    Ok (MkRequest (VInt PROTOCOL_VERSION) rid operation phase now (now + Z.min 120 (Z.max 5 (timeout + 5)))
          (canon_dict binding) (canon_dict payload)).
Proof.
  unfold validate_request. cbn [as_dict of_option mbind result_bind]. rewrite !seen_get, has_keys_canon.
  change (get (u "protocol_version") request) with (VInt PROTOCOL_VERSION).
  change (get (u "request_id") request) with (VStr rid).
  change (get (u "operation") request) with (VStr operation).
  change (get (u "phase") request) with (VStr phase).
  change (get (u "issued_at") request) with (VInt now).
  change (get (u "expires_at") request) with (VInt (now + Z.min 120 (Z.max 5 (timeout + 5)))).
  change (get (u "binding") request) with (VDict binding).
  change (get (u "payload") request) with (VDict payload).
  rewrite !raise_then by reflexivity. rewrite !canon_VDict.
  change (canon (VStr ?x)) with (VStr x). change (canon (VInt ?x)) with (VInt x). unfold matching_str. rewrite Hrid, Hop.
  cbn [mbind result_bind as_str as_int of_option].
  assert (not_in (VStr phase) _PHASES = Ok false) as ->.
  { unfold not_in, in_str_set. cbn [hashable of_option]. by rewrite (proj2 (mem_true phase _PHASES) Hphase). }
  cbn [mbind result_bind]. rewrite (raise_then false) by done.
  assert ((now + Z.min 120 (Z.max 5 (timeout + 5)) <=? now)
    || (MAX_REQUEST_LIFETIME_SECONDS <? now + Z.min 120 (Z.max 5 (timeout + 5)) - now)
    || (now + Z.min 120 (Z.max 5 (timeout + 5)) <? broker_now) || (broker_now + 30 <? now) = false) as ->.
  { unfold MAX_REQUEST_LIFETIME_SECONDS. rewrite !orb_false_iff, !Z.leb_gt, !Z.ltb_ge. lia. }
  rewrite (raise_then false) by done. cbn [as_dict of_option mbind result_bind]. rewrite has_keys_canon.
  rewrite raise_then by reflexivity. rewrite binding_admitted. cbn [mbind result_bind].
  rewrite canon_VDict in Hbody. rewrite Hbody. cbn [mbind result_bind].
  rewrite raise_then by by apply Z.ltb_ge.
  unfold canonical_sha256. rewrite Hbody, !binding_get.
  change (get (u "capability") binding) with (VStr operation).
  change (get (u "args_sha256") binding) with (VStr (fingerprint_of body)).
  change (get (u "step_id") binding) with (opt_str effectful ids.1.1).
  change (get (u "binding_fingerprint") binding) with (opt_str effectful ids.1.2).
  change (get (u "precondition_fingerprint") binding) with (opt_str effectful ids.2).
  assert (∀ t : pystr, str_eqb t t = true) as Hrefl by (intros t; by apply str_eqb_true).
  assert (raise_any [Ok (negb (py_eq (canon (VStr operation)) (VStr operation)));
    (λ h, negb (py_eq (canon (VStr (fingerprint_of body))) (VStr h))) <$> (fingerprint_of <$> Ok body)]
    (BrokerProtocolError (u "broker_binding_invalid")) = Ok tt) as ->.
  { cbn -[fingerprint_of]. by rewrite !Hrefl. }
  cbn [mbind result_bind]. rewrite raise_then by (rewrite <- Heff; by destruct effectful).
  destruct Hwhole as (line & -> & Hl). cbn [mbind result_bind]. by rewrite raise_then by by apply Z.ltb_ge.
Qed.
End wire.

Lemma database_fingerprint_matches ctx db :
  _database_fingerprint ctx = Ok db → fullmatch _FINGERPRINT_RE db = true.
Proof.
  unfold _database_fingerprint. intros H. destruct (ctx_dbname ctx) as [| | | |[|a s]| |]; try done.
  apply fmap_Ok in H as (b & _ & ->). rewrite sha256_bytes_fingerprint. apply fingerprint_matches.
Qed.

Lemma request_line_Ok request raw :
  request_line request = Ok raw →
  ∃ line, raw = line ++ [newline_byte] ∧ BrokerClient.canonical_json (VDict request) = Ok line.
Proof. unfold request_line. intros (line & H & ->)%fmap_Ok. eauto. Qed.

(** The broker receives the line, in whatever segments, and decodes the request. *)
Lemma request_received {I : Interpreter} request raw s :
  portable (VDict request) → (nesting (VDict request) ≤ @recursion_depth I)%nat → request_line request = Ok raw → byte_len raw ≤ MAX_REQUEST_BYTES →
  concat s = raw →
  ∃ line, _recv_line s MAX_REQUEST_BYTES = Ok line ∧ decode_request line = Ok (VDict (canon_dict request)) ∧
    canonical_json (VDict (canon_dict request)) = Ok line ∧ byte_len line ≤ MAX_REQUEST_BYTES.
Proof.
  intros Hp Hnest (line & -> & Hline)%request_line_Ok Hlen Hs. destruct (line_read_back _ _ Hp Hnest Hline) as [Hd Hn].
  exists line. rewrite canon_VDict in Hd. assert (byte_len line < MAX_REQUEST_BYTES) as Hl.
  { unfold byte_len in *. rewrite length_app in Hlen. simpl in Hlen. lia. }
  split_and!; [by apply recv_line_Ok|done| |lia]. rewrite <- canon_VDict. by apply canonical_agree.
Qed.

Section client_theorems.
Context {W : Type} `{!BrokerPeer W}.
Implicit Types (w : client_world W) (c : HostBrokerClient) (ctx : client_context).

(** [secrets.token_hex(20)] gives 40 hexadecimal digits; the clock's seconds fit 63 bits. *)
Definition hex_tokens : Prop :=
  ∀ e : W, length (peer_token_hex 20 e).1 = 40%nat ∧ Forall (λ d, in_ranges hexdigits d = true) (peer_token_hex 20 e).1.
Definition short_int (z : Z) : Prop := Z.abs z < 2 ^ 63.
Definition short_clock : Prop := ∀ e : W, short_int (peer_time e).1.

Lemma built_portable c ctx capability operation phase payload effectful w request :
  built c ctx capability operation phase payload effectful w request →
  short_clock → short_int (ctx_uid ctx) → portable payload → portable (VDict request).
Proof.
  intros [_ [p ->] (body & ids & now & rid & conv & db & _ & _ & _ & _ & _ & _ & [e ->] & ->)] Hclock Huid Hp.
  specialize (Hclock e). unfold short_int in *.
  apply portable_dict. split; [apply has_dup_false; reflexivity|]. unfold request_value.
  repeat (apply Forall_cons; split); try done; cbn [snd portable].
  - by apply (int_str_short 1).
  - apply int_str_short. lia.
  - apply int_str_short. lia.
  - apply portable_dict. split; [apply has_dup_false; reflexivity|]. unfold binding_value, opt_str.
    repeat (apply Forall_cons; split); try done; try (by destruct effectful); try (by destruct conv).
    apply int_str_short. lia.
Qed.

(** The request is a dict around the payload. *)
Lemma built_nesting c ctx capability operation phase payload effectful w request :
  built c ctx capability operation phase payload effectful w request →
  nesting (VDict request) = S (nesting payload).
Proof.
  intros [_ [p ->] (body & ids & now & rid & conv & db & _ & _ & _ & _ & _ & _ & _ & ->)].
  unfold request_value, binding_value, opt_str, of_opt_str. destruct effectful, conv; cbn -[Nat.max]; lia.
Qed.

(** The broker receives and decodes the request with its own interpreter [I]. *)
Lemma request_is_admitted {I : Interpreter} c ctx operation phase payload effectful w request w' raw s broker_now :
  hex_tokens → short_clock → short_int (ctx_uid ctx) →
  portable payload → (nesting payload < @recursion_depth I)%nat →
  build_request c ctx operation operation phase payload effectful w = (Ok request, w') →
  request_line request = Ok raw → byte_len raw ≤ MAX_REQUEST_BYTES →
  fullmatch _OPERATION_RE operation = true → 0 < ctx_uid ctx →
  effectful = str_eqb phase (u "execute") →
  (∀ issued expires, get (u "issued_at") request = VInt issued → get (u "expires_at") request = VInt expires →
     issued - 30 ≤ broker_now ≤ expires) →
  concat s = raw →
  ∃ line value r, _recv_line s MAX_REQUEST_BYTES = Ok line ∧ decode_request (I := I) line = Ok value ∧
    validate_request value broker_now = Ok r ∧
    get (u "request_id") request = VStr (rq_request_id r) ∧ rq_operation r = operation ∧ rq_phase r = phase ∧
    canon payload = VDict (rq_payload r).
Proof.
  intros Hhex Hclock Hshort Hpay Hnest Hb Hraw Hlen Hop Huid Heff Htime Hs. apply build_request_Ok in Hb.
  pose proof (built_portable _ _ _ _ _ _ _ _ _ Hb Hclock Hshort Hpay) as Hp.
  pose proof (built_nesting _ _ _ _ _ _ _ _ _ Hb) as Hn.
  destruct (request_received (I := I) _ _ _ Hp ltac:(lia) Hraw Hlen Hs) as (line & Hrecv & Hdec & Hwhole & Hll).
  destruct Hb as [Hph [p ->] (body & ids & now & rid & conv & db & Hbody & Hbl & Hid & Hturn & Hconv & Hdb & _ & ->)].
  exists line. eexists _, _. split; [done|]. split; [done|]. split.
  - apply request_admitted; try done.
    + destruct effectful; [|destruct Hid as [e ->]; by apply request_id_matches; apply Hhex].
      destruct Hid as (_ & _ & Hid). by apply stable_id_matches in Hid.
    + by apply database_fingerprint_matches in Hdb.
    + intros ->. apply Hid.
    + by apply canonical_agree.
    + by apply Htime.
    + by exists line.
  - done.
Qed.

(** ** What a call sends *)

Definition same_sent w w' : Prop := cw_sent w' = cw_sent w.
#[export] Instance same_sent_preorder : PreOrder same_sent.
Proof. split; [done|]. intros w1 w2 w3 H12 H23. unfold same_sent in *. congruence. Qed.

Lemma sys_sent {A} (f : W → A * W) : keeps same_sent (BrokerClient.sys f).
Proof. intros w. unfold BrokerClient.sys. by destruct (f (cw_env w)). Qed.
#[local] Hint Resolve sys_sent : keeps.

Lemma recv_loop_sent fuel maximum data : keeps same_sent (BrokerClient.recv_loop fuel maximum data).
Proof.
  revert data. induction fuel as [|fuel IH]; intros data; cbn [BrokerClient.recv_loop]; solve_keeps.
Qed.
#[local] Hint Resolve recv_loop_sent : keeps.
Lemma recv_line_sent maximum : keeps same_sent (recv_line maximum).
Proof. unfold recv_line. solve_keeps. Qed.
Lemma effect_binding_sent ctx capability payload : keeps same_sent (effect_binding ctx capability payload).
Proof. unfold effect_binding. solve_keeps. Qed.
#[local] Hint Resolve recv_line_sent effect_binding_sent : keeps.
Lemma build_request_sent c ctx capability operation phase payload effectful :
  keeps same_sent (build_request c ctx capability operation phase payload effectful).
Proof. unfold build_request. solve_keeps. Qed.
Lemma verify_peer_uid_sent uid : keeps same_sent (verify_peer_uid uid).
Proof. unfold verify_peer_uid. solve_keeps. Qed.
Lemma sys_ok_sent f : keeps same_sent (sys_ok f).
Proof. unfold sys_ok. solve_keeps. Qed.
#[local] Hint Resolve build_request_sent verify_peer_uid_sent sys_ok_sent : keeps.

(** An exchange sends its request once, or raises without sending anything. *)
Lemma exchange_sends c effectful raw w x w' :
  _exchange c effectful raw w = (x, w') →
  (cw_sent w' = cw_sent w ∧ ∃ e, x = Err e) ∨ cw_sent w' = raw :: cw_sent w.
Proof.
  unfold _exchange, mbind, ST_bind, catch. intros H.
  pose proof (sys_ok_sent peer_socket w) as H1. destruct (sys_ok peer_socket w) as [[[]|e] w1]; simpl in H1.
  2: { injection H as <- <-. left. split; [done|by eexists]. }
  assert (keeps same_sent (sys_ok (peer_connect (cl_socket_path c));; verify_peer_uid (cl_expected_uid c))) as H2 by solve_keeps.
  specialize (H2 w1). unfold mbind, ST_bind in H2.
  match type of H2 with same_sent _ ?m.2 => destruct m as [[[]|e] w2] end; simpl in H2.
  2: { injection H as <- <-. left. split; [by etrans|by eexists]. }
  right. unfold sendall, mbind, ST_bind in H. cbn [modify] in H.
  match type of H with context [sys_ok ?f ?v] => pose proof (sys_ok_sent f v) as H3; destruct (sys_ok f v) as [[[]|e] w3] end;
    simpl in H3.
  - pose proof (recv_line_sent BrokerClient.MAX_RESPONSE_BYTES w3) as H4.
    destruct (recv_line _ w3) as [[line|e] w4]; simpl in H4; injection H as _ <-; unfold same_sent in *; simpl in *; congruence.
  - injection H as _ <-; unfold same_sent in *; simpl in *; congruence.
Qed.

Lemma call_sends c ctx capability operation phase payload effectful w x w' :
  call c ctx capability operation phase payload effectful w = (x, w') →
  (cw_sent w' = cw_sent w ∧ ∃ e, x = Err e) ∨
  ∃ request raw w1 y, build_request c ctx capability operation phase payload effectful w = (Ok request, w1) ∧
    request_line request = Ok raw ∧ byte_len raw ≤ MAX_REQUEST_BYTES ∧
    _exchange c effectful raw w1 = (y, w') ∧ cw_sent w1 = cw_sent w ∧
    cw_sent w' = raw :: cw_sent w ∧
    x = (receipt ← y;
         map_err (λ e, match e with
                       | CapabilityError code _ => if effectful then _uncertain_transport_error (VStr code) else e
                       | e => e
                       end) (BrokerClient.validate_receipt receipt request);;
         interpret_receipt receipt).
Proof.
  unfold call. rewrite ST_bind_at. intros H.
  pose proof (build_request_sent c ctx capability operation phase payload effectful w) as H1.
  destruct (build_request _ _ _ _ _ _ _ w) as [[request|e] w1] eqn:Hb; simpl in H1.
  2: { injection H as <- <-. left. split; [done|by eexists]. }
  rewrite ST_bind_lift in H. destruct (request_line request) as [raw|e] eqn:Hraw.
  2: { injection H as <- <-. left. split; [done|by eexists]. }
  rewrite ST_bind_lift in H. destruct (raise_when _ _) as [[]|e] eqn:Hlen.
  2: { injection H as <- <-. left. split; [done|by eexists]. }
  apply raise_when_Ok, Z.ltb_ge in Hlen. rewrite ST_bind_at in H.
  destruct (_exchange c effectful raw w1) as [y w2] eqn:He.
  destruct (exchange_sends _ _ _ _ _ _ He) as [[Hs [e ->]]|Hs].
  { injection H as <- <-. left. split; [by etrans|by eexists]. }
  right. exists request, raw, w1, y. assert (w' = w2) as -> by (destruct y; by injection H).
  split_and!; try done; [unfold same_sent in *; congruence|destruct y; by injection H].
Qed.

(** ** What a call can end with *)

Definition transport_exn (e : plan_exn) : Prop := e = BrokerClient.OSError ∨ ∃ code d, e = CapabilityError code d.

Lemma split_line_None data : split_line data = None → newline_byte ∉ data.
Proof.
  induction data as [|b r IH]; [by intros _ ?%not_elem_of_nil|]. cbn [split_line]. case_decide; [done|].
  destruct (split_line r) as [[? ?]|]; [done|]. intros _. rewrite not_elem_of_cons. auto.
Qed.
Lemma split_line_Some data line rest :
  split_line data = Some (line, rest) → data = line ++ newline_byte :: rest ∧ newline_byte ∉ line.
Proof.
  revert line. induction data as [|b r IH]; intros line; [done|]. cbn [split_line]. case_decide as Hb.
  - intros [= <- <-]. subst b. split; [done|apply not_elem_of_nil].
  - destruct (split_line r) as [[a c]|]; [|done]. intros [= <- <-]. destruct (IH a eq_refl) as [-> ?].
    split; [done|]. rewrite not_elem_of_cons. auto.
Qed.

Lemma recv_loop_ends fuel maximum data w :
  maximum + 1 - byte_len data < Z.of_nat fuel → (0 < fuel)%nat →
  result_in (λ _, True) transport_exn (BrokerClient.recv_loop fuel maximum data w).1.
Proof.
  revert data w. induction fuel as [|fuel IH]; intros data w Hf Hpos; [lia|]. cbn [BrokerClient.recv_loop].
  destruct (Z.leb_spec (BrokerClient.byte_len data) maximum) as [Hle|]; [|done]. rewrite ST_bind_at.
  unfold BrokerClient.sys. destruct (peer_recv _ _) as [[chunk|] e]; [|by left]. cbn [of_option]. rewrite ST_bind_lift.
  destruct chunk as [|b chunk]; [done|]. destruct (mem newline_byte (b :: chunk)); [done|].
  unfold BrokerClient.byte_len, byte_len in *. apply IH; rewrite ?length_app; cbn [length] in *; lia.
Qed.

Lemma recv_line_bound maximum w :
  0 ≤ maximum →
  result_in (λ line, (newline_byte ∉ line) ∧ (byte_len line ≤ maximum)) transport_exn (recv_line maximum w).1.
Proof.
  intros Hm. unfold recv_line. rewrite ST_bind_at.
  pose proof (recv_loop_ends (Z.to_nat (maximum + 2)) maximum [] w) as H. unfold byte_len in H. simpl in H.
  specialize (H ltac:(lia) ltac:(lia)). destruct (BrokerClient.recv_loop _ _ _ w) as [[data|e] w1]; [|done].
  cbn [lift fst]. destruct (Z.ltb_spec maximum (BrokerClient.byte_len data)) as [|Hd]; [by right; do 2 eexists|].
  cbn [raise_when mbind result_bind]. destruct (split_line data) as [[line rest]|] eqn:Es.
  - apply split_line_Some in Es as [-> Hn]. destruct (bool_decide (rest = [])); [|by right; do 2 eexists].
    split; [done|]. unfold BrokerClient.byte_len, byte_len in *. rewrite length_app in Hd. cbn [length] in Hd. lia.
  - apply split_line_None in Es. destruct (bool_decide (data = [])); [by right; do 2 eexists|]. by split.
Qed.

(** Reading a line always ends, whatever the peer sends and however it is cut: with a line of at
    most [maximum] bytes that holds no newline, or with an exception of the socket or of the
    framing rules. *)
Theorem recv_line_ends maximum w :
  0 ≤ maximum →
  result_in (λ line, (newline_byte ∉ line) ∧ (byte_len line ≤ maximum)) transport_exn (recv_line maximum w).1.
Proof. apply recv_line_bound. Qed.

(** The errors that a receipt leads to. *)
Definition verdict_codes : list pystr :=
  [u "capability_plan_precondition_changed"; u "host_effect_uncertain"; u "host_broker_denied";
   u "host_broker_operation_failed"].
Lemma interpret_receipt_cases receipt :
  interpret_receipt receipt = Ok receipt ∨
  ∃ code details, interpret_receipt receipt = Err (CapabilityError code details) ∧ code ∈ verdict_codes.
Proof.
  unfold interpret_receipt. repeat case_bool; [by left|right..]; do 2 eexists; (split; [reflexivity|]); by apply mem_true.
Qed.

(** How an effectful call may end once its request was handed to the socket. *)
Inductive sent_outcome (request : pydict) : result plan_exn pydict → Prop :=
| sent_ok receipt :
    BrokerClient.validate_receipt receipt request = Ok tt → interpret_receipt receipt = Ok receipt →
    sent_outcome request (Ok receipt)
| sent_verdict receipt code details :
    BrokerClient.validate_receipt receipt request = Ok tt →
    interpret_receipt receipt = Err (CapabilityError code details) → code ∈ verdict_codes →
    sent_outcome request (Err (CapabilityError code details))
| sent_uncertain details : sent_outcome request (Err (CapabilityError (u "host_effect_uncertain") details))
| sent_crash e : e = PyTypeError ∨ e = PyValueError ∨ e = PyRecursionError → sent_outcome request (Err e).

Definition uncertain_or_crash (e : plan_exn) : Prop :=
  (∃ d, e = CapabilityError (u "host_effect_uncertain") d) ∨ e = PyValueError ∨ e = PyRecursionError.

Lemma transport_failure_dispatched e : transport_exn e → uncertain_or_crash (transport_failure true true e).
Proof. by intros [-> | (code & d & ->)]; left; eexists. Qed.

Lemma decode_response_effectful {I : Interpreter} raw : result_in (λ _, True) uncertain_or_crash (decode_response true raw).
Proof.
  unfold decode_response. destruct (utf8_decode raw) as [t|]; [|by left; eexists]. cbn [of_option mbind result_bind].
  destruct (json_loads t) as [v|[]]; cbn; try (by left; eexists); [|by right; left|by right; right].
  destruct v; by try (left; eexists).
Qed.

Lemma exchange_dispatched c raw w y w' :
  _exchange c true raw w = (y, w') → cw_sent w' ≠ cw_sent w → result_in (λ _, True) uncertain_or_crash y.
Proof.
  unfold _exchange. rewrite ST_bind_at. intros H Hne.
  pose proof (sys_ok_sent peer_socket w) as H1. destruct (sys_ok peer_socket w) as [[[]|e] w1]; simpl in H1.
  2: { injection H as <- <-. done. }
  rewrite ST_bind_at in H. unfold catch at 1 in H.
  assert (keeps same_sent (sys_ok (peer_connect (cl_socket_path c));; verify_peer_uid (cl_expected_uid c))) as H2 by solve_keeps.
  specialize (H2 w1). match type of H2 with same_sent _ ?m.2 => destruct m as [[[]|e] w2] end; simpl in H2.
  2: { injection H as <- <-. destruct Hne. by etrans. }
  rewrite ST_bind_at in H. unfold catch at 1 in H.
  assert (result_in (λ _, True) transport_exn ((sendall raw;; recv_line BrokerClient.MAX_RESPONSE_BYTES) w2).1) as H3.
  { rewrite ST_bind_at. unfold sendall. rewrite ST_bind_at. cbn [modify]. unfold sys_ok. rewrite ST_bind_at.
    unfold BrokerClient.sys at 1. destruct (peer_sendall _ _) as [[|] e]; [|by left]. cbn [negb lift raise_when].
    pose proof (recv_line_bound BrokerClient.MAX_RESPONSE_BYTES (MkClientWorld e (raw :: cw_sent w2)) ltac:(done)) as Hr.
    destruct (recv_line _ _) as [[line|x] w3]; [done|exact Hr]. }
  match type of H3 with result_in _ _ ?m.1 => destruct m as [[line|e] w3] end; simpl in H3.
  - injection H as <- _. apply decode_response_effectful.
  - injection H as <- _. by apply transport_failure_dispatched.
Qed.

Definition receipt_exn (e : plan_exn) : Prop := e = PyTypeError ∨ ∃ code d, e = CapabilityError code d.
Lemma not_in_errors v ss : result_in (λ _, True) receipt_exn (BrokerClient.not_in v ss).
Proof. unfold BrokerClient.not_in. destruct (in_str_set v ss); [done|by left]. Qed.
Lemma any_of_errors cs : Forall (result_in (λ _, True) receipt_exn) cs → result_in (λ _, True) receipt_exn (any_of cs).
Proof. induction 1 as [|[[]|e] cs Hc _ IH]; done. Qed.
Lemma raise_any_errors cs code d :
  Forall (result_in (λ _, True) receipt_exn) cs → result_in (λ _, True) receipt_exn (raise_any cs (CapabilityError code d)).
Proof.
  intros H. apply any_of_errors in H. unfold raise_any. destruct (any_of cs) as [[]|e]; [|done|done]. right. by do 2 eexists.
Qed.
Lemma raise_when_errors b code d : result_in (λ _ : unit, True) receipt_exn (raise_when b (CapabilityError code d)).
Proof. destruct b; [|done]. right. by do 2 eexists. Qed.

Lemma validate_receipt_errors receipt request :
  result_in (λ _, True) receipt_exn (BrokerClient.validate_receipt receipt request).
Proof.
  unfold BrokerClient.validate_receipt, client_error.
  apply (result_in_bind _ (λ _, True)); [apply raise_any_errors; repeat constructor; apply not_in_errors|intros _ _].
  apply (result_in_bind _ (λ _, True)); [apply raise_when_errors|intros _ _].
  apply (result_in_bind _ (λ _, True)); [apply raise_any_errors; repeat constructor; apply not_in_errors|intros _ _].
  do 2 (apply (result_in_bind _ (λ _, True)); [apply raise_when_errors|intros _ _]).
  apply (result_in_bind _ (λ _, True)); [|intros b _; apply raise_when_errors].
  unfold BrokerClient.canonical_json. destruct (_ ≫= _); [done|]. right. by do 2 eexists.
Qed.

(** C23: An effectful call that raises before anything was handed to the socket has sent
    nothing; once the request was, it returns a checked receipt whose status is ok, raises what
    a checked receipt says, or raises host_effect_uncertain, but for the TypeError, the
    ValueError and the RecursionError that a malformed response raises and that escape. *)
Theorem effectful_call_fails_closed c ctx capability operation phase payload w x w' :
  call c ctx capability operation phase payload true w = (x, w') →
  (cw_sent w' = cw_sent w ∧ ∃ e, x = Err e) ∨
  ∃ request raw w1, build_request c ctx capability operation phase payload true w = (Ok request, w1) ∧
    request_line request = Ok raw ∧ cw_sent w' = raw :: cw_sent w ∧ sent_outcome request x.
Proof.
  intros H. apply call_sends in H as [H|(request & raw & w1 & y & Hb & Hraw & _ & He & Hs1 & Hs & ->)]; [by left|right].
  exists request, raw, w1. split_and!; try done.
  assert (cw_sent w' ≠ cw_sent w1) as Hne.
  { rewrite Hs, Hs1. intros E. apply (f_equal length) in E. simpl in E. lia. }
  pose proof (exchange_dispatched _ _ _ _ _ He Hne) as Hy.
  destruct y as [receipt|e]; cbn [mbind result_bind]; cycle 1.
  { destruct Hy as [[d ->] | He']; [by apply sent_uncertain|by apply sent_crash; right]. }
  pose proof (validate_receipt_errors receipt request) as Hv.
  destruct (BrokerClient.validate_receipt receipt request) as [[]|e] eqn:Ev; cbn [map_err mbind result_bind].
  - destruct (interpret_receipt_cases receipt) as [Hi|(code & d & Hi & Hc)]; rewrite Hi; [by constructor|by eapply sent_verdict].
  - destruct Hv as [-> | (code & d & ->)]; [by apply sent_crash; left|by apply sent_uncertain].
Qed.

(** ** Retries *)

Lemma sent_request {I : Interpreter} c ctx operation payload w x w' raw s :
  call c ctx operation operation (u "execute") payload true w = (x, w') → cw_sent w' = raw :: cw_sent w →
  concat s = raw → short_clock → short_int (ctx_uid ctx) → portable payload → (nesting payload < @recursion_depth I)%nat →
  ∃ body ids id line value,
    BrokerClient.canonical_json payload = Ok body ∧ effect_binding ctx operation payload w = (Ok ids, w) ∧
    _stable_request_id (ctx_turn_id ctx) ids.1.1 ids.1.2 operation (sha256_bytes body) = Ok id ∧
    _recv_line s MAX_REQUEST_BYTES = Ok line ∧ decode_request (I := I) line = Ok value ∧
    ∀ now r, validate_request value now = Ok r → rq_request_id r = id ∧ rq_phase r = u "execute".
Proof.
  intros Hcall Hsent Hs Hclock Huid Hpay Hnest. apply call_sends in Hcall as [[E _]|(request & raw' & w1 & y & Hb & Hraw & Hlen & _ & _ & E & _)].
  { rewrite Hsent in E. apply (f_equal length) in E. simpl in E. lia. }
  rewrite Hsent in E. injection E as <-. apply build_request_Ok in Hb.
  pose proof (built_portable _ _ _ _ _ _ _ _ _ Hb Hclock Huid Hpay) as Hp.
  pose proof (built_nesting _ _ _ _ _ _ _ _ _ Hb) as Hn.
  destruct (request_received (I := I) _ _ _ Hp ltac:(lia) Hraw Hlen Hs) as (line & Hrecv & Hdec & _).
  destruct Hb as [Hph [p ->] (body & ids & now & rid & conv & db & Hbody & _ & (Hids & _ & Hid) & _ & _ & _ & _ & ->)].
  exists body, ids, rid, line. eexists. split_and!; try done. intros bnow r Hv.
  apply validated_fields in Hv as [H1 H2]. rewrite !get_seen in H1, H2 by reflexivity.
  change (VStr rid = VStr (rq_request_id r)) in H1. change (VStr (u "execute") = VStr (rq_phase r)) in H2.
  injection H1 as <-. by injection H2 as <-.
Qed.
End client_theorems.

Section retries.
Context {Env : Type} `{!Host Env} (policy : BrokerPolicy) (backups_dir : pystr).
Context {W : Type} `{!BrokerPeer W}.
Implicit Types (bw : world Env) (w : client_world W).

Lemma serve_one_world peer s bw line value :
  _recv_line s MAX_REQUEST_BYTES = Ok line → decode_request (I := host_interpreter) line = Ok value →
  (serve_one policy backups_dir peer s bw).2 = (handle policy backups_dir peer value None bw).2.
Proof.
  intros Hr Hd. assert ((_handle_connection policy backups_dir peer s bw).2 = (handle policy backups_dir peer value None bw).2) as E.
  { unfold _handle_connection. rewrite ST_bind_lift, Hr, ST_bind_lift, Hd, ST_bind_at.
    destruct (handle policy backups_dir peer value None bw) as [[receipt|e] bw1]; [|done].
    rewrite ST_bind_lift. destruct (canonical_json _) as [b|e]; [|done].
    rewrite ST_bind_lift. by destruct (raise_when _ _). }
  rewrite <- E. unfold serve_one, catch. rewrite ST_bind_at.
  destruct (_handle_connection policy backups_dir peer s bw) as [[reply|e] bw1]; [done|]. by repeat case_match.
Qed.

Lemma handle_refused peer value bw :
  (∀ r, validate_request value (request_time None bw) ≠ Ok r) →
  no_effects bw (handle policy backups_dir peer value None bw).2.
Proof.
  intros Hv. rewrite handle_eq. destruct (validate_request value _) as [r|e]; [by destruct (Hv r)|].
  trans (request_world None bw); [done|]. unfold _invalid_receipt. pose proof (receipt_effects (Env := Env)) as He.
  assert (keeps no_effects (match e with
    | BrokerProtocolError code => _invalid_receipt (Env := Env) value code (request_time None bw)
    | _ => raise e end)) as Hk; [|apply Hk].
  destruct e; try apply keeps_raise, _. unfold _invalid_receipt. solve_keeps.
Qed.

(** Two requests for the same effect: the same operation and payload, for the same step and
    binding of the same turn. *)
Lemma same_effect_once c1 c2 ctx1 ctx2 operation payload w1 w1' x1 raw1 w2 w2' x2 raw2 ids1 ids2
    s1 s2 peer1 peer2 bw1 bw2 :
  short_clock → short_int (ctx_uid ctx1) → short_int (ctx_uid ctx2) →
  portable payload → (nesting payload < @recursion_depth host_interpreter)%nat →
  call c1 ctx1 operation operation (u "execute") payload true w1 = (x1, w1') → cw_sent w1' = raw1 :: cw_sent w1 →
  call c2 ctx2 operation operation (u "execute") payload true w2 = (x2, w2') → cw_sent w2' = raw2 :: cw_sent w2 →
  ctx_turn_id ctx1 = ctx_turn_id ctx2 →
  effect_binding ctx1 operation payload w1 = (Ok ids1, w1) → effect_binding ctx2 operation payload w2 = (Ok ids2, w2) →
  ids1.1 = ids2.1 →
  concat s1 = raw1 → concat s2 = raw2 →
  ¬ no_effects bw1 (serve_one policy backups_dir peer1 s1 bw1).2 →
  rtc (broker_step policy backups_dir) (serve_one policy backups_dir peer1 s1 bw1).2 bw2 →
  no_effects bw2 (serve_one policy backups_dir peer2 s2 bw2).2.
Proof.
  intros Hclock Hu1 Hu2 Hp Hn H1 Hs1 H2 Hs2 Hturn Hb1 Hb2 Hids Hc1 Hc2 Hne Hrun.
  destruct (sent_request (I := host_interpreter) _ _ _ _ _ _ _ _ _ H1 Hs1 Hc1 Hclock Hu1 Hp Hn) as (b1 & i1 & id1 & l1 & v1 & Hbody1 & Hi1 & Hid1 & Hr1 & Hd1 & Hv1).
  destruct (sent_request (I := host_interpreter) _ _ _ _ _ _ _ _ _ H2 Hs2 Hc2 Hclock Hu2 Hp Hn) as (b2 & i2 & id2 & l2 & v2 & Hbody2 & Hi2 & Hid2 & Hr2 & Hd2 & Hv2).
  assert (id2 = id1) as -> by congruence.
  rewrite (serve_one_world _ _ _ _ _ Hr2 Hd2). rewrite (serve_one_world _ _ _ _ _ Hr1 Hd1) in Hne, Hrun.
  destruct (validate_request v1 (request_time None bw1)) as [r1|e1] eqn:E1.
  2: { destruct Hne. apply handle_refused. intros r. by rewrite E1. }
  destruct (validate_request v2 (request_time None bw2)) as [r2|e2] eqn:E2.
  2: { apply handle_refused. intros r. by rewrite E2. }
  destruct (Hv1 _ _ E1) as [Er1 Ep1], (Hv2 _ _ E2) as [Er2 Ep2].
  apply (handle_known _ _ peer2 v2 None bw2 r2); [done..|].
  destruct (handle_registers _ _ _ _ _ _ _ E1 Ep1 Hne) as [row Hrow].
  destruct (broker_run_le _ _ _ _ Hrun _ _ Hrow) as (b & Hb & _). exists b. congruence.
Qed.
End retries.

(** * Broker client: a concrete connection

    The restart of the sample deployment asked for through the client, and the theorems about the
    client applied to it. *)
Local Open Scope Z_scope.

(** A connection to the root-owned broker: the store is what the broker still has to answer. *)
#[export] Instance sample_peer : BrokerPeer stream := {|
  peer_interpreter := 900%nat;
  peer_time := λ w, (100, w);
  peer_token_hex := λ n w, (replicate (n + n) 97%N, w);
  peer_turn := λ _ _ _, NoTurn;
  peer_socket := λ w, (true, w);
  peer_connect := λ _ w, (true, w);
  peer_getsockopt := λ w, (CredUid 0, w);
  peer_sendall := λ _ w, (true, w);
  peer_recv := λ n w, let '(chunk, w') := recv n w in (Some chunk, w') |}.

Definition sample_client : HostBrokerClient := MkClient DEFAULT_SOCKET 0 (VInt 12).
Definition sample_context : client_context :=
  MkClientContext (u "turn-1") None
    [(u "capability_plan_step_id", VStr (u "step-1"));
     (u "capability_plan_binding_fingerprint", VStr module_database);
     (u "capability_precondition_fingerprint", VStr service_before)] 2 (VStr (u "db")).
Definition sample_ids : pystr * pystr * pystr := (u "step-1", module_database, service_before).
Definition silent : client_world stream := MkClientWorld [] [].

Definition sample_call : result plan_exn pydict * client_world stream :=
  call sample_client sample_context (u "host.service.restart") (u "host.service.restart") (u "execute")
    (VDict service_payload) true silent.
Definition sample_request_dict : pydict := Eval vm_compute in
  result_or [] (build_request sample_client sample_context (u "host.service.restart") (u "host.service.restart")
                  (u "execute") (VDict service_payload) true silent).1.
Definition sample_raw : pybytes := Eval vm_compute in result_or [] (request_line sample_request_dict).

Lemma sample_hex : hex_tokens (W := stream).
Proof. intros e. split; [reflexivity|]. apply Forall_replicate. reflexivity. Qed.
Lemma sample_clock : short_clock (W := stream).
Proof. done. Qed.
Lemma sample_portable : portable (VDict service_payload).
Proof. split; [apply has_dup_false; reflexivity|done]. Qed.

(** The broker closes the connection without an answer. *)
Lemma effectful_call_fails_closed_witness :
  sample_call.1 = Err (CapabilityError (u "host_effect_uncertain") [(u "broker_code", VStr (u "host_broker_unavailable"))]) ∧
  ∃ request raw w1,
    build_request sample_client sample_context (u "host.service.restart") (u "host.service.restart")
      (u "execute") (VDict service_payload) true silent = (Ok request, w1) ∧
    request_line request = Ok raw ∧ cw_sent sample_call.2 = [raw] ∧ sent_outcome request sample_call.1.
Proof.
  split; [vm_compute; reflexivity|].
  destruct (effectful_call_fails_closed sample_client sample_context (u "host.service.restart")
              (u "host.service.restart") (u "execute") (VDict service_payload) silent sample_call.1 sample_call.2)
    as [[H _]|H]; [vm_compute; reflexivity| |exact H].
  vm_compute in H. discriminate.
Defined.

Lemma recv_line_ends_witness :
  result_in (λ line, (newline_byte ∉ line) ∧ (byte_len line ≤ MAX_RESPONSE_BYTES)) transport_exn
    (recv_line MAX_RESPONSE_BYTES (MkClientWorld [[Byte.x7b]; [Byte.x7d; newline_byte]] [])).1.
Proof. refine (recv_line_ends MAX_RESPONSE_BYTES _ _). done. Defined.
