(* ===== verification/HostTools.v ===== *)
(** * Host capabilities

    [runtime/capabilities/providers/technical_host.py] with the decorator of
    [capabilities/decorators.py]: the definitions of the capabilities that work on the host and
    their handlers, which call the broker through [BrokerClient] and read its receipts. *)
From S2P Require Import Prelude PyText Regex PyValue EffectPlan Capability CapabilityValidation BrokerClient.
From S2P Require Import Sha256 Json BrokerProtocol BrokerPolicy BrokerHost BrokerEngine BrokerServer BrokerExamples.
Local Open Scope Z_scope.

(** ** The decorator *)

(** Registered handlers are told apart by the name of their capability. *)
Record tool_spec := MkTool {
  tl_name : pystr; tl_title : pystr; tl_description : pystr;
  tl_input_schema : pydict; tl_output_schema : pydict;
  tl_risk : CapabilityRisk; tl_effect : CapabilityEffect;
  tl_exposure : CapabilityExposure; tl_approval : CapabilityApproval;
  tl_required_groups : list pystr; tl_guard : bool; tl_lifecycle : bool;  (* preview and verify *)
  tl_tags : list pystr; tl_audit_metadata : pydict; tl_max_calls : Z; tl_timeout_seconds : option Z }.

Definition _default_activity_from_tags (tags : list pystr) : option CapabilityActivitySpec :=
  if subset_of [u "odoo"; u "navigation"] tags then
    Some (MkActivity (u "odoo.navigation.resolve") (u "activity.navigation.resolve") true)
  else if subset_of [u "odoo"; u "action"; u "schema"] tags then
    Some (MkActivity (u "odoo.schema.write.inspect") (u "activity.prepare.model") false)
  else if subset_of [u "odoo"; u "query"; u "schema"] tags then
    Some (MkActivity (u "odoo.schema.read.inspect") (u "activity.inspect.model") false)
  else None.

(** [tool(...)] with the parameters that no host capability gives at their defaults *)
Definition tool (t : tool_spec) : result plan_exn CapabilityDefinition :=
  new_definition (MkDefinition (tl_name t) (tl_description t) (tl_input_schema t) (tl_output_schema t)
    (tl_risk t) (tl_effect t) (tl_title t) (u "1") (tl_exposure t) (tl_approval t) (tl_tags t) [] []
    (tl_required_groups t) true (tl_timeout_seconds t) (tl_max_calls t) (16 * 1024) (96 * 1024)
    (tl_audit_metadata t) [] (_default_activity_from_tags (tl_tags t))
    (tl_lifecycle t) (tl_lifecycle t) (tl_guard t)).

(** ** Schemas *)

Definition typed (t : pystr) : pyval := VDict [(u "type", VStr t)].
Definition str_schema : pyval := typed (u "string").
Definition bool_schema : pyval := typed (u "boolean").
Definition nullable_schema : pyval := VDict [(u "type", VList [VStr (u "string"); VStr (u "null")])].
Definition object_schema (properties : pydict) (required : list pystr) : pydict :=
  [(u "type", VStr (u "object")); (u "properties", VDict properties);
   (u "required", VList (VStr <$> required)); (u "additionalProperties", VBool false)].
(** Every property is required, as in all of these schemas. *)
Definition all_required (properties : pydict) : pydict := object_schema properties (keys properties).

Definition _TECHNICAL_GROUPS : list pystr := [u "base.group_system"].
Definition _TARGET_SCHEMA : pyval :=
  VDict [(u "type", VStr (u "string")); (u "pattern", VStr (u "^[a-z][a-z0-9_.-]{0,63}$"))].
Definition _KEY_SCHEMA : pyval :=
  VDict [(u "type", VStr (u "string")); (u "pattern", VStr (u "^[A-Za-z][A-Za-z0-9_.-]{0,63}$"))].

Definition _CONFIG_INSPECT_INPUT : pydict :=
  all_required [(u "target", _TARGET_SCHEMA); (u "key", _KEY_SCHEMA)].
Definition _CONFIG_INSPECT_OUTPUT : pydict :=
  all_required [(u "target", str_schema); (u "key", str_schema); (u "value", nullable_schema);
                (u "fingerprint", str_schema)].
Definition _CONFIG_PATCH_INPUT : pydict :=
  all_required [(u "target", _TARGET_SCHEMA); (u "key", _KEY_SCHEMA);
                (u "value", VDict [(u "type", VStr (u "string")); (u "maxLength", VInt 1024)])].
Definition _CONFIG_PATCH_OUTPUT : pydict :=
  all_required [(u "receipt_id", str_schema); (u "target", str_schema); (u "key", str_schema);
                (u "changed", bool_schema); (u "value", str_schema);
                (u "postcondition_fingerprint", str_schema); (u "recovery_classification", str_schema);
                (u "recovery_token", nullable_schema)].
Definition _SERVICE_INPUT : pydict := all_required [(u "target", _TARGET_SCHEMA)].
Definition _SERVICE_STATUS_OUTPUT : pydict :=
  all_required [(u "target", str_schema); (u "active_state", str_schema); (u "sub_state", str_schema);
                (u "unit_file_state", str_schema); (u "exec_main_status", str_schema);
                (u "active_enter_timestamp_monotonic", str_schema); (u "fingerprint", str_schema)].
Definition _SERVICE_RESTART_OUTPUT : pydict :=
  all_required [(u "receipt_id", str_schema); (u "target", str_schema); (u "active_state", str_schema);
                (u "sub_state", str_schema); (u "postcondition_fingerprint", str_schema);
                (u "recovery_classification", str_schema)].
Definition _MODULE_UPDATE_OUTPUT : pydict :=
  all_required [(u "receipt_id", str_schema); (u "target", str_schema); (u "module", str_schema);
                (u "state", str_schema); (u "previous_database_version", nullable_schema);
                (u "database_version", nullable_schema); (u "source_version", nullable_schema);
                (u "postcondition_fingerprint", str_schema); (u "recovery_classification", str_schema)].

(** ** Definitions *)

Definition host_audit : pydict :=
  [(u "recovery_mode", VStr (u "external")); (u "journal_classification", VStr (u "external_or_unknown"))].

Definition config_inspect_tool : tool_spec := {|
  tl_name := u "odoo.config.inspect";
  tl_title := u "Inspect a managed Odoo configuration value";
  tl_description := u "Read one deployment-approved Odoo configuration key through the local host broker. Input uses logical target/key identifiers only; arbitrary filesystem paths are not accepted. Technical users only.";
  tl_input_schema := _CONFIG_INSPECT_INPUT; tl_output_schema := _CONFIG_INSPECT_OUTPUT;
  tl_risk := RiskRead; tl_effect := ReadOnly; tl_exposure := ExposeReasoning; tl_approval := ApprovalNone;
  tl_required_groups := _TECHNICAL_GROUPS; tl_guard := true; tl_lifecycle := false;
  tl_tags := [u "odoo"; u "technical"; u "config"; u "host"]; tl_audit_metadata := [];
  tl_max_calls := 8; tl_timeout_seconds := Some 8 |}.
Definition config_patch_tool : tool_spec := {|
  tl_name := u "odoo.config.patch";
  tl_title := u "Patch a managed Odoo configuration value";
  tl_description := u "Change one deployment-approved Odoo configuration key through the local broker. Technical users only. The broker resolves the path from root-owned policy, requires the exact preview fingerprint, writes atomically, keeps a private backup and verifies the result. Never use this for an arbitrary path or secret retrieval.";
  tl_input_schema := _CONFIG_PATCH_INPUT; tl_output_schema := _CONFIG_PATCH_OUTPUT;
  tl_risk := RiskHost; tl_effect := HostEffect; tl_exposure := ExposePlan; tl_approval := ApprovalPolicy;
  tl_required_groups := _TECHNICAL_GROUPS; tl_guard := true; tl_lifecycle := true;
  tl_tags := [u "odoo"; u "technical"; u "config"; u "host"; u "write"]; tl_audit_metadata := host_audit;
  tl_max_calls := 2; tl_timeout_seconds := Some 15 |}.
Definition service_status_tool : tool_spec := {|
  tl_name := u "host.service.status";
  tl_title := u "Inspect a managed host service";
  tl_description := u "Inspect one deployment-approved systemd service target through the local broker. Technical users only. The logical target is resolved by broker policy; arbitrary unit names or commands are not accepted.";
  tl_input_schema := _SERVICE_INPUT; tl_output_schema := _SERVICE_STATUS_OUTPUT;
  tl_risk := RiskRead; tl_effect := ReadOnly; tl_exposure := ExposeReasoning; tl_approval := ApprovalNone;
  tl_required_groups := _TECHNICAL_GROUPS; tl_guard := true; tl_lifecycle := false;
  tl_tags := [u "host"; u "technical"; u "service"; u "status"]; tl_audit_metadata := [];
  tl_max_calls := 8; tl_timeout_seconds := Some 8 |}.
Definition service_restart_tool : tool_spec := {|
  tl_name := u "host.service.restart";
  tl_title := u "Restart a managed host service";
  tl_description := u "Restart exactly one deployment-approved systemd service target through the local privilege broker. Technical users only. Uses preview/precondition binding, fixed argv, policy-driven approval and post-restart health verification. It cannot run commands or restart arbitrary unit names.";
  tl_input_schema := _SERVICE_INPUT; tl_output_schema := _SERVICE_RESTART_OUTPUT;
  tl_risk := RiskHost; tl_effect := HostEffect; tl_exposure := ExposePlan; tl_approval := ApprovalPolicy;
  tl_required_groups := _TECHNICAL_GROUPS; tl_guard := true; tl_lifecycle := true;
  tl_tags := [u "host"; u "technical"; u "service"; u "restart"]; tl_audit_metadata := host_audit;
  tl_max_calls := 2; tl_timeout_seconds := Some 90 |}.
Definition module_update_tool : tool_spec := {|
  tl_name := u "odoo.module.update";
  tl_title := u "Update a deployment-managed Odoo module";
  tl_description := u "Update exactly one deployment-approved Odoo module through the lifecycle-safe maintenance broker. Technical users only. The broker fixes the database, module, Odoo executable, configuration and addon paths; the model supplies only a logical target. Execution occurs outside the Assistant cron worker and is verified through a fresh Odoo registry.";
  tl_input_schema := _SERVICE_INPUT; tl_output_schema := _MODULE_UPDATE_OUTPUT;
  tl_risk := RiskHost; tl_effect := HostEffect; tl_exposure := ExposePlan; tl_approval := ApprovalPolicy;
  tl_required_groups := _TECHNICAL_GROUPS; tl_guard := true; tl_lifecycle := true;
  tl_tags := [u "odoo"; u "technical"; u "module"; u "update"; u "host"]; tl_audit_metadata := host_audit;
  tl_max_calls := 1; tl_timeout_seconds := Some 600 |}.
Definition host_tools : list tool_spec :=
  [config_inspect_tool; config_patch_tool; service_status_tool; service_restart_tool; module_update_tool].

(** ** Reading receipts *)

Definition response_invalid : plan_exn := client_error (u "host_broker_response_invalid").

Definition _summary (receipt : pydict) : result plan_exn pydict :=
  of_option (as_dict (get (u "summary") receipt)) response_invalid.

Definition _required_string (mapping : pydict) (key : pystr) (maximum : nat) : result plan_exn pystr :=
  value ← of_option (as_str (get key mapping)) response_invalid;
  raise_when (bool_decide (value = []) || mem 0%N value || (maximum <? length value)%nat) response_invalid;;
  Ok value.

Definition _optional_string (mapping : pydict) (key : pystr) (maximum : nat) : result plan_exn (option pystr) :=
  match get key mapping with
  | VNone => Ok None
  | VStr value =>
      raise_when (mem 0%N value || (maximum <? length value)%nat) response_invalid;;
      Ok (Some value)
  | _ => Err response_invalid
  end.

Definition _required_bool (mapping : pydict) (key : pystr) : result plan_exn bool :=
  of_option (as_bool (get key mapping)) response_invalid.

Definition _required_receipt_id (receipt : pydict) : result plan_exn pystr :=
  _required_string receipt (u "receipt_id") 96.

Definition _recovery (receipt : pydict) : result plan_exn (pystr * option pystr) :=
  recovery ← of_option (as_dict (get (u "recovery") receipt)) response_invalid;
  classification ← _required_string recovery (u "classification") 64;
  raise_when (negb (mem classification [u "none"; u "backup_available"; u "external_or_unknown"])) response_invalid;;
  token ← _optional_string recovery (u "token") 160;
  Ok (classification, token).

(** [isinstance(receipt.get(k), str)] *)
Definition fingerprint_str (receipt : pydict) (k : pystr) : result plan_exn pystr :=
  of_option (as_str (get k receipt)) response_invalid.

(** [CapabilityPreview(...)] and [CapabilityVerification(...)] *)
Definition new_preview (summary : pydict) (fingerprint : pystr) : result plan_exn CapabilityPreview :=
  refuse (negb (fullmatch (RLit (u "sha256:") · RRep (RSet hexdigits) 64 64)%regex fingerprint))
    (u "capability_preview_fingerprint_invalid");;
  summary ← freeze_contract_mapping summary;
  Ok (MkPreview summary fingerprint).
Definition new_verification (verified : bool) (summary : pydict) : result plan_exn CapabilityVerification :=
  summary ← freeze_contract_mapping summary;
  Ok (MkVerification verified summary).

(** [{"operation": o, **summary, k: v}] *)
Definition dict_update (d e : pydict) : pydict := foldl (λ d kv, dict_set kv.1 kv.2 d) d e.
Definition preview_summary (operation : pystr) (summary : pydict) (k v : pystr) : pydict :=
  dict_set k (VStr v) (dict_update [(u "operation", VStr operation)] summary).

(** [arguments[k]] *)
Definition argument (k : pystr) (arguments : pydict) : result plan_exn pyval :=
  of_option (dict_lookup k arguments) (OtherError (u "KeyError")).

(** ** Handlers *)

Section handlers.
(** The two environment variables, and [available]: the socket is there. *)
Context {W : Type} `{!BrokerPeer W} (env_socket env_uid : option pystr) (socket_present : pystr → W → bool).
Abbreviation M := (ST (client_world W) plan_exn).
Implicit Types ctx : client_context.

Definition _broker (timeout_seconds : Z) : result plan_exn HostBrokerClient :=
  host_broker_client env_socket env_uid VNone VNone (VInt timeout_seconds).
Definition available (c : HostBrokerClient) : M bool :=
  gets (λ w, socket_present (cl_socket_path c) (cw_env w)).
(** [except CapabilityError: return False] *)
Definition false_on_capability_error (m : M bool) : M bool :=
  catch m (λ e, match e with CapabilityError _ _ => mret false | e => raise e end).

Definition broker_call ctx (timeout_seconds : Z) (operation phase : pystr) (payload : pydict) (effectful : bool)
    : M pydict :=
  client ← lift (_broker timeout_seconds);
  call client ctx operation operation phase (VDict payload) effectful.

Definition _broker_guard : M bool :=
  false_on_capability_error (client ← lift (_broker 5); available client).

Definition _module_update_guard ctx : M bool :=
  false_on_capability_error
    (client ← lift (_broker 5);
     ok ← available client;
     if negb ok then mret false
     else
       receipt ← call client ctx (u "broker.status") (u "broker.status") (u "preview") (VDict []) false;
       mret match get (u "summary") receipt with
            | VDict summary =>
                match get (u "operations") summary, get (u "module_targets") summary with
                | VList operations, VList targets =>
                    existsb (py_eq (VStr (u "odoo.module.update"))) operations && truthy (VList targets)
                | _, _ => false
                end
            | _ => false
            end).

(** A read: the summary of its receipt. *)
Definition read_summary ctx (operation : pystr) (arguments : pydict) : M pydict :=
  receipt ← broker_call ctx 5 operation (u "preview") arguments false;
  lift (_summary receipt).
Definition config_inspect ctx (arguments : pydict) : M pydict := read_summary ctx (u "odoo.config.inspect") arguments.
Definition service_status ctx (arguments : pydict) : M pydict := read_summary ctx (u "host.service.status") arguments.

(** A preview: the summary with two fields of its own, bound to the precondition. *)
Definition host_preview ctx (timeout_seconds : Z) (operation label k v : pystr) (arguments : pydict)
    : M CapabilityPreview :=
  receipt ← broker_call ctx timeout_seconds operation (u "preview") arguments false;
  lift (fingerprint ← fingerprint_str receipt (u "precondition_fingerprint");
        summary ← _summary receipt;
        new_preview (preview_summary label summary k v) fingerprint).
Definition _config_patch_preview ctx (arguments : pydict) : M CapabilityPreview :=
  host_preview ctx 5 (u "odoo.config.patch") (u "config_patch") (u "recovery") (u "backup_available_when_changed") arguments.
Definition _service_restart_preview ctx (arguments : pydict) : M CapabilityPreview :=
  host_preview ctx 5 (u "host.service.restart") (u "service_restart") (u "verification") (u "post_restart_active_state") arguments.
Definition _module_update_preview ctx (arguments : pydict) : M CapabilityPreview :=
  host_preview ctx 120 (u "odoo.module.update") (u "module_update") (u "verification") (u "fresh_registry_version_match") arguments.

(** A verification: what the broker says of the result in the context's metadata. *)
Definition host_verify ctx (timeout_seconds : Z) (operation : pystr)
    (payload : pydict → result plan_exn pydict) : M CapabilityVerification :=
  res ← lift (of_option (as_dict (get (u "capability_result") (ctx_metadata ctx)))
                (client_error (u "capability_verification_invalid")));
  client ← lift (_broker timeout_seconds);
  payload ← lift (payload res);
  receipt ← call client ctx operation operation (u "verify") (VDict payload) false;
  lift (summary ← _summary receipt;
        verified ← _required_bool summary (u "verified");
        new_verification verified summary).
Definition _config_patch_verify ctx (arguments : pydict) : M CapabilityVerification :=
  host_verify ctx 5 (u "odoo.config.patch") (λ res,
    target ← argument (u "target") arguments;
    key ← argument (u "key") arguments;
    value ← argument (u "value") arguments;
    Ok [(u "target", target); (u "key", key); (u "value", value);
        (u "receipt_id", get (u "receipt_id") res);
        (u "postcondition_fingerprint", get (u "postcondition_fingerprint") res)]).
Definition _service_restart_verify ctx (arguments : pydict) : M CapabilityVerification :=
  host_verify ctx 5 (u "host.service.restart") (λ res,
    target ← argument (u "target") arguments;
    Ok [(u "target", target); (u "receipt_id", get (u "receipt_id") res)]).
Definition _module_update_verify ctx (arguments : pydict) : M CapabilityVerification :=
  host_verify ctx 120 (u "odoo.module.update") (λ res,
    target ← argument (u "target") arguments;
    Ok [(u "target", target); (u "receipt_id", get (u "receipt_id") res);
        (u "postcondition_fingerprint", get (u "postcondition_fingerprint") res)]).

(** What the effectful handlers return of their receipt. *)
Definition config_patch_result (receipt : pydict) : result plan_exn pydict :=
  summary ← _summary receipt;
  postcondition ← fingerprint_str receipt (u "postcondition_fingerprint");
  '(classification, token) ← _recovery receipt;
  receipt_id ← _required_receipt_id receipt;
  target ← _required_string summary (u "target") 64;
  key ← _required_string summary (u "key") 64;
  changed ← _required_bool summary (u "changed");
  value ← _required_string summary (u "value") 1024;
  Ok [(u "receipt_id", VStr receipt_id); (u "target", VStr target); (u "key", VStr key);
      (u "changed", VBool changed); (u "value", VStr value);
      (u "postcondition_fingerprint", VStr postcondition);
      (u "recovery_classification", VStr classification); (u "recovery_token", of_opt_str token)].
Definition service_restart_result (receipt : pydict) : result plan_exn pydict :=
  summary ← _summary receipt;
  postcondition ← fingerprint_str receipt (u "postcondition_fingerprint");
  receipt_id ← _required_receipt_id receipt;
  target ← _required_string summary (u "target") 64;
  active ← _required_string summary (u "active_state") 64;
  sub ← _required_string summary (u "sub_state") 64;
  recovery ← _recovery receipt;
  Ok [(u "receipt_id", VStr receipt_id); (u "target", VStr target); (u "active_state", VStr active);
      (u "sub_state", VStr sub); (u "postcondition_fingerprint", VStr postcondition);
      (u "recovery_classification", VStr recovery.1)].
Definition module_update_result (receipt : pydict) : result plan_exn pydict :=
  summary ← _summary receipt;
  postcondition ← fingerprint_str receipt (u "postcondition_fingerprint");
  receipt_id ← _required_receipt_id receipt;
  target ← _required_string summary (u "target") 64;
  module ← _required_string summary (u "module") 128;
  state ← _required_string summary (u "state") 64;
  previous ← _optional_string summary (u "previous_database_version") 160;
  database ← _optional_string summary (u "database_version") 160;
  source ← _optional_string summary (u "source_version") 160;
  recovery ← _recovery receipt;
  Ok [(u "receipt_id", VStr receipt_id); (u "target", VStr target); (u "module", VStr module);
      (u "state", VStr state); (u "previous_database_version", of_opt_str previous);
      (u "database_version", of_opt_str database); (u "source_version", of_opt_str source);
      (u "postcondition_fingerprint", VStr postcondition); (u "recovery_classification", VStr recovery.1)].

(** An effect: the one call of the broker that is effectful. *)
Definition host_effect ctx (timeout_seconds : Z) (operation : pystr) (res : pydict → result plan_exn pydict)
    (arguments : pydict) : M pydict :=
  receipt ← broker_call ctx timeout_seconds operation (u "execute") arguments true;
  lift (res receipt).
Definition config_patch ctx (arguments : pydict) : M pydict :=
  host_effect ctx 12 (u "odoo.config.patch") config_patch_result arguments.
Definition service_restart ctx (arguments : pydict) : M pydict :=
  host_effect ctx 30 (u "host.service.restart") service_restart_result arguments.
Definition module_update ctx (arguments : pydict) : M pydict :=
  host_effect ctx 600 (u "odoo.module.update") module_update_result arguments.
End handlers.

(** * Host capabilities: what their handlers return

    The definitions pass the checks of their construction; what an effectful handler returns
    conforms to the output schema of its capability; a value that the broker accepts and the
    handler refuses. *)
Local Open Scope Z_scope.

(** The five definitions are constructed; those with an effect are for approved plans, with a
    preview and a verification, and are journalled as external. *)
Definition host_definition_ok (d : CapabilityDefinition) : bool :=
  bool_decide (d_required_groups d = _TECHNICAL_GROUPS) && d_guard d &&
  (bool_decide (d_effect d = ReadOnly) ||
   bool_decide (d_exposure d = ExposePlan) && bool_decide (d_approval d = ApprovalPolicy) &&
   d_preview_handler d && d_verify_handler d &&
   py_eq (get (u "journal_classification") (d_audit_metadata d)) (VStr (u "external_or_unknown"))).
Lemma host_tools_constructed :
  forallb (λ t, match tool t with Ok d => host_definition_ok d | Err _ => false end) host_tools = true.
Proof. vm_compute. reflexivity. Qed.

Definition accepted_output (schema : pydict) (r : pydict) : Prop :=
  ∀ code, _validate_node (S _MAX_DEPTH) code (VDict r) schema = Ok tt.

Lemma config_patch_output receipt r : config_patch_result receipt = Ok r → accepted_output _CONFIG_PATCH_OUTPUT r.
Proof. unfold config_patch_result. intros H code. result_inv. case_match. result_inv. by destruct o. Qed.
Lemma service_restart_output receipt r : service_restart_result receipt = Ok r → accepted_output _SERVICE_RESTART_OUTPUT r.
Proof. unfold service_restart_result. intros H code. by result_inv. Qed.
Lemma module_update_output receipt r : module_update_result receipt = Ok r → accepted_output _MODULE_UPDATE_OUTPUT r.
Proof. unfold module_update_result. intros H code. result_inv. by repeat match goal with o : option pystr |- _ => destruct o end. Qed.

Section handlers.
Context {W : Type} `{!BrokerPeer W} (env_socket env_uid : option pystr).
Implicit Types w : client_world W.

Lemma host_effect_Ok ctx t operation res arguments w r w' :
  host_effect env_socket env_uid ctx t operation res arguments w = (Ok r, w') → ∃ receipt, res receipt = Ok r.
Proof. unfold host_effect. intros H. st_inv. eauto. Qed.

(** Whatever the broker answers, a result that a handler of the host provider returns
    conforms to the output schema that its capability declares: the schema check of the executor
    never refuses the result of an effect that happened. *)
Theorem host_results_conform ctx arguments w r w' :
  (config_patch env_socket env_uid ctx arguments w = (Ok r, w') → accepted_output _CONFIG_PATCH_OUTPUT r) ∧
  (service_restart env_socket env_uid ctx arguments w = (Ok r, w') → accepted_output _SERVICE_RESTART_OUTPUT r) ∧
  (module_update env_socket env_uid ctx arguments w = (Ok r, w') → accepted_output _MODULE_UPDATE_OUTPUT r).
Proof.
  split_and!; intros (receipt & Hr)%host_effect_Ok;
    [by eapply config_patch_output|by eapply service_restart_output|by eapply module_update_output].
Qed.
End handlers.

(** ** A handler on the sample broker *)

(** The socket leads to the sample broker; the store is its machine and what it has answered. *)
#[export] Instance linked_peer : BrokerPeer (world unit * stream) := {|
  peer_interpreter := 900%nat;
  peer_time := λ w, (100, w);
  peer_token_hex := λ n w, (replicate (n + n) 97%N, w);
  peer_turn := λ _ _ _, NoTurn;
  peer_socket := λ w, (true, w);
  peer_connect := λ _ w, (true, w);
  peer_getsockopt := λ w, (CredUid 0, w);
  peer_sendall := λ raw w,
    match serve_one sample_policy backups 1000 [raw] w.1 with
    | (Ok (Some reply), bw) => (true, (bw, [reply]))
    | (_, bw) => (true, (bw, []))
    end;
  peer_recv := λ n w, let '(chunk, s) := recv n w.2 in (Some chunk, (w.1, s)) |}.

Definition patch_context : client_context :=
  MkClientContext (u "turn-1") None
    [(u "capability_plan_step_id", VStr (u "step-1"));
     (u "capability_plan_binding_fingerprint", VStr module_database);
     (u "capability_precondition_fingerprint", VStr config_before)] 2 (VStr (u "db")).
Definition patch_arguments (value : pystr) : pydict :=
  [(u "target", VStr (u "odoo")); (u "key", VStr (u "workers")); (u "value", VStr value)].
Definition linked_patch (value : pystr) : result plan_exn pydict * client_world (world unit * stream) :=
  config_patch None None patch_context (patch_arguments value) (MkClientWorld (sample_world, []) []).
Definition patched_text (value : pystr) : option pystr :=
  (w_fs (cw_env (linked_patch value).2).1 !! u "/etc/odoo.conf") ≫= λ f, utf8_decode (f_data f).

(** A value is set end to end; the empty value is set too, and then the handler refuses the
    broker's receipt, with an error that does not say that the effect happened. *)
Theorem empty_value_applied_and_refused :
  patched_text (u "4") = Some (u "[options]" ++ newline ++ u "workers = 4" ++ newline) ∧
  get (u "value") (result_or [] (linked_patch (u "4")).1) = VStr (u "4") ∧
  patched_text [] = Some (u "[options]" ++ newline ++ u "workers = " ++ newline) ∧
  (linked_patch []).1 = Err (client_error (u "host_broker_response_invalid")).
Proof. split_and!; vm_compute; reflexivity. Qed.

Lemma host_results_conform_witness :
  accepted_output _CONFIG_PATCH_OUTPUT (result_or [] (linked_patch (u "4")).1).
Proof.
  refine (proj1 (host_results_conform None None patch_context (patch_arguments (u "4"))
            (MkClientWorld (sample_world, []) []) (result_or [] (linked_patch (u "4")).1) (linked_patch (u "4")).2) _).
  vm_compute. reflexivity.
Defined.
