(* ===== verification/HostToolsFacts.v ===== *)
(** * Host capabilities: what their handlers send

    The requests of the handlers of [HostTools] as the broker reads them: each handler sends at
    most one request, the broker admits it, and an effect that is asked for twice happens once. *)
From S2P Require Import Prelude PyText Regex Sha256 PyValue Json JsonRoundtrip EffectPlan Capability.
From S2P Require Import BrokerClient HostTools.
From S2P Require Import BrokerProtocol BrokerPolicy BrokerHost BrokerLedger BrokerEngine BrokerServer.
From S2P Require Import BrokerEngineFacts BrokerExamples BrokerClientFacts.
Local Open Scope Z_scope.

(** The values that JSON carries exactly and that an interpreter reads inside of one more dict. *)
Definition carried (I : Interpreter) (v : pyval) : Prop :=
  portable v ∧ (nesting v < @recursion_depth I)%nat.

(** ** Parts of carried values *)

Lemma nesting_lookup k d v : dict_lookup k d = Some v → (nesting v < nesting (VDict d))%nat.
Proof.
  intros Hk%dict_lookup_Some_in. pose proof (proj1 (nesting_dict d (pred (nesting (VDict d))))) as H.
  rewrite Forall_forall in H. specialize (H ltac:(simpl; lia) (k, v) Hk). simpl in *. lia.
Qed.
Lemma portable_lookup k d v : portable (VDict d) → dict_lookup k d = Some v → portable v.
Proof.
  intros [_ Hp]%portable_dict Hk%dict_lookup_Some_in. rewrite Forall_forall in Hp. by apply (Hp (k, v)).
Qed.

(** A field of a carried dict, one level further in. *)
Definition inner (I : Interpreter) (v : pyval) : Prop := portable v ∧ (S (nesting v) < @recursion_depth I)%nat.

Lemma inner_lookup I k d v : carried I (VDict d) → dict_lookup k d = Some v → inner I v.
Proof.
  intros [Hp Hn] Hk. split; [by eapply portable_lookup|]. pose proof (nesting_lookup _ _ _ Hk). lia.
Qed.
Lemma inner_get I k d : carried I (VDict d) → inner I (get k d).
Proof.
  intros Hd. unfold get. destruct (dict_lookup k d) as [v|] eqn:E; [by eapply inner_lookup|].
  split; [done|]. destruct Hd as [_ Hd]. cbn in *. lia.
Qed.
Lemma carried_fields I (d : pydict) :
  (1 < @recursion_depth I)%nat → has_dup (keys d) = false → Forall (λ kv, inner I kv.2) d → carried I (VDict d).
Proof.
  intros HI Hk%has_dup_false Hd. split.
  - apply portable_dict. split; [done|]. eapply Forall_impl; [exact Hd|]. by intros kv [? _].
  - assert (nesting (VDict d) ≤ S (pred (pred (@recursion_depth I))))%nat; [|lia].
    apply nesting_dict. eapply Forall_impl; [exact Hd|]. simpl. intros kv [_ ?]. lia.
Qed.

(** ** The request of a handler *)

Section requests.
Context {W : Type} `{!BrokerPeer W} (env_socket env_uid : option pystr) (socket_present : pystr → W → bool).
Implicit Types (w : client_world W) (ctx : client_context).

(** The statement sends nothing, or what one call of the client with such an operation, phase,
    flag and payload sends. *)
Definition asks {A} ctx (Q : pystr → pystr → bool → pydict → Prop) (m : ST (client_world W) plan_exn A) : Prop :=
  ∀ w, cw_sent (m w).2 = cw_sent w ∨
    ∃ c operation phase effectful payload w0, Q operation phase effectful payload ∧ cw_sent w0 = cw_sent w ∧
      cw_sent (m w).2 = cw_sent (call c ctx operation operation phase (VDict payload) effectful w0).2.

Section rules.
Context (ctx : client_context) (Q : pystr → pystr → bool → pydict → Prop).

Lemma asks_quiet {A} (m : ST (client_world W) plan_exn A) : keeps same_sent m → asks ctx Q m.
Proof. intros Hm w. left. apply Hm. Qed.
Lemma asks_call c operation phase effectful payload :
  Q operation phase effectful payload → asks ctx Q (call c ctx operation operation phase (VDict payload) effectful).
Proof. intros HQ w. right. do 6 eexists. by split_and!. Qed.
Lemma asks_lift {A B} (r : result plan_exn A) (f : A → ST (client_world W) plan_exn B) :
  (∀ a, r = Ok a → asks ctx Q (f a)) → asks ctx Q (lift r ≫= f).
Proof. intros Hf w. rewrite ST_bind_lift. destruct r as [a|e]; [by apply Hf|by left]. Qed.
Lemma asks_then {A B} (m : ST (client_world W) plan_exn A) (f : A → ST (client_world W) plan_exn B) :
  asks ctx Q m → (∀ a, keeps same_sent (f a)) → asks ctx Q (m ≫= f).
Proof.
  intros Hm Hf w. rewrite ST_bind_at. specialize (Hm w). destruct (m w) as [[a|e] w1]; [|exact Hm].
  specialize (Hf a w1). unfold same_sent in Hf. simpl in Hm. by rewrite Hf.
Qed.
Lemma asks_gets {A B} (g : client_world W → A) (f : A → ST (client_world W) plan_exn B) :
  (∀ a, asks ctx Q (f a)) → asks ctx Q (gets g ≫= f).
Proof. intros Hf w. rewrite ST_bind_at. apply Hf. Qed.
Lemma asks_guarded (m : ST (client_world W) plan_exn bool) :
  asks ctx Q m → asks ctx Q (false_on_capability_error m).
Proof.
  intros Hm w. specialize (Hm w). unfold false_on_capability_error, catch.
  destruct (m w) as [[b|[]] w1]; exact Hm.
Qed.
End rules.

(** The calls that the provider makes: their operation, phase and flag. *)
Definition host_calls : list (pystr * pystr * bool) :=
  [(u "broker.status", u "preview", false);
   (u "odoo.config.inspect", u "preview", false); (u "host.service.status", u "preview", false);
   (u "odoo.config.patch", u "preview", false); (u "odoo.config.patch", u "execute", true);
   (u "odoo.config.patch", u "verify", false);
   (u "host.service.restart", u "preview", false); (u "host.service.restart", u "execute", true);
   (u "host.service.restart", u "verify", false);
   (u "odoo.module.update", u "preview", false); (u "odoo.module.update", u "execute", true);
   (u "odoo.module.update", u "verify", false)].

(** The statements of the provider that may call the broker. *)
Inductive host_statement ctx (arguments : pydict) : ∀ A, ST (client_world W) plan_exn A → Prop :=
| hs_guard : host_statement ctx arguments _ (_module_update_guard env_socket env_uid socket_present ctx)
| hs_config_inspect : host_statement ctx arguments _ (config_inspect env_socket env_uid ctx arguments)
| hs_service_status : host_statement ctx arguments _ (service_status env_socket env_uid ctx arguments)
| hs_patch_preview : host_statement ctx arguments _ (_config_patch_preview env_socket env_uid ctx arguments)
| hs_patch : host_statement ctx arguments _ (config_patch env_socket env_uid ctx arguments)
| hs_patch_verify : host_statement ctx arguments _ (_config_patch_verify env_socket env_uid ctx arguments)
| hs_restart_preview : host_statement ctx arguments _ (_service_restart_preview env_socket env_uid ctx arguments)
| hs_restart : host_statement ctx arguments _ (service_restart env_socket env_uid ctx arguments)
| hs_restart_verify : host_statement ctx arguments _ (_service_restart_verify env_socket env_uid ctx arguments)
| hs_update_preview : host_statement ctx arguments _ (_module_update_preview env_socket env_uid ctx arguments)
| hs_update : host_statement ctx arguments _ (module_update env_socket env_uid ctx arguments)
| hs_update_verify : host_statement ctx arguments _ (_module_update_verify env_socket env_uid ctx arguments).

(** A call of the provider with a payload that the broker can read. *)
Definition host_call (I : Interpreter) (operation phase : pystr) (effectful : bool) (payload : pydict) : Prop :=
  (operation, phase, effectful) ∈ host_calls ∧ carried I (VDict payload).

Section handlers.
Context (I : Interpreter) (ctx : client_context) (arguments : pydict).
Hypothesis HI : (2 < @recursion_depth I)%nat.
Hypothesis Harguments : carried I (VDict arguments).
Hypothesis Hresult : carried I (get (u "capability_result") (ctx_metadata ctx)).
Abbreviation asked := (asks ctx (host_call I)).

Lemma broker_call_asks t operation phase effectful payload :
  host_call I operation phase effectful payload →
  asked (broker_call env_socket env_uid ctx t operation phase payload effectful).
Proof. intros H. apply asks_lift. intros c _. by apply asks_call. Qed.

Lemma read_asks operation :
  (operation, u "preview", false) ∈ host_calls → asked (read_summary env_socket env_uid ctx operation arguments).
Proof. intros H. apply asks_then; [by apply broker_call_asks|]. intros. solve_keeps. Qed.
Lemma preview_asks t operation label k v :
  (operation, u "preview", false) ∈ host_calls →
  asked (host_preview env_socket env_uid ctx t operation label k v arguments).
Proof. intros H. apply asks_then; [by apply broker_call_asks|]. intros. solve_keeps. Qed.
Lemma effect_asks t operation res :
  (operation, u "execute", true) ∈ host_calls →
  asked (host_effect env_socket env_uid ctx t operation res arguments).
Proof. intros H. apply asks_then; [by apply broker_call_asks|]. intros. solve_keeps. Qed.
Lemma verify_asks t operation payload :
  (operation, u "verify", false) ∈ host_calls →
  (∀ res p, carried I (VDict res) → payload res = Ok p → carried I (VDict p)) →
  asked (host_verify env_socket env_uid ctx t operation payload).
Proof.
  intros H Hp. apply asks_lift. intros res Hr%of_option_Ok%as_dict_Some. rewrite Hr in Hresult.
  apply asks_lift. intros c _. apply asks_lift. intros p Hpay. apply asks_then; [|intros; solve_keeps].
  apply asks_call. split; [done|]. by eapply Hp.
Qed.

Lemma argument_inner k v : argument k arguments = Ok v → inner I v.
Proof. intros H%of_option_Ok. by eapply inner_lookup. Qed.

Lemma statement_asks {A} (m : ST (client_world W) plan_exn A) : host_statement ctx arguments A m → asked m.
Proof.
  assert (∀ res k, carried I (VDict res) → inner I (get k res)) as Hget by (intros; by apply inner_get).
  assert (∀ x, x ∈ host_calls ↔ mem x host_calls = true) as Hin by (intros; by rewrite mem_true).
  intros [].
  1: { apply asks_guarded, asks_lift. intros c _. unfold available. apply asks_gets. intros [|]; cbn [negb].
       2: { apply asks_quiet. solve_keeps. }
       apply asks_then; [|intros; solve_keeps]. apply asks_call. split; [by apply Hin|].
       split; [by apply portable_dict; split; constructor|cbn; lia]. }
  1-2: apply read_asks, Hin; reflexivity.
  1: by apply preview_asks, Hin.
  1: by apply effect_asks, Hin.
  2: by apply preview_asks, Hin.
  2: by apply effect_asks, Hin.
  3: by apply preview_asks, Hin.
  3: by apply effect_asks, Hin.
  all: apply verify_asks; [by apply Hin|]; intros res p Hr Hp; result_inv;
    repeat match goal with H : argument _ _ = Ok _ |- _ => apply argument_inner in H end;
    apply carried_fields; [lia|reflexivity|]; repeat first [apply Forall_nil_2|apply Forall_cons_2]; cbn [snd]; by auto.
Qed.
End handlers.
End requests.

Section theorems.
Context {W : Type} `{!BrokerPeer W} (env_socket env_uid : option pystr) (socket_present : pystr → W → bool).
Implicit Types (w : client_world W) (ctx : client_context).

Lemma host_call_operation I operation phase effectful payload :
  host_call I operation phase effectful payload →
  fullmatch _OPERATION_RE operation = true ∧ effectful = str_eqb phase (u "execute").
Proof.
  intros [Hin _]. assert (forallb (λ x : pystr * pystr * bool,
    fullmatch _OPERATION_RE x.1.1 && Bool.eqb x.2 (str_eqb x.1.2 (u "execute"))) host_calls = true) as H by (vm_compute; reflexivity).
  rewrite forallb_true in H. specialize (H _ Hin). apply andb_true_iff in H as [? ?%Bool.eqb_prop]. done.
Qed.

(** C19: Every request that the handlers of the host provider and the guard of module updates
    send is one that the broker admits: received in any segments within the lifetime the client
    gave it, it decodes and passes the validation of the broker, with the identifier, the
    operation, the phase and the payload of the client. The user identifier is positive and,
    like the clock, of 63 bits, and the arguments are ones JSON carries unchanged within the
    recursion limit of the broker's interpreter. *)
Theorem client_request_admitted {I : Interpreter} ctx arguments A (m : ST (client_world W) plan_exn A) w :
  hex_tokens (W := W) → short_clock (W := W) → short_int (ctx_uid ctx) → 0 < ctx_uid ctx →
  (2 < @recursion_depth I)%nat → carried I (VDict arguments) →
  carried I (get (u "capability_result") (ctx_metadata ctx)) →
  host_statement env_socket env_uid socket_present ctx arguments A m →
  cw_sent (m w).2 = cw_sent w ∨
  ∃ raw request issued expires operation phase payload,
    cw_sent (m w).2 = raw :: cw_sent w ∧ request_line request = Ok raw ∧
    get (u "issued_at") request = VInt issued ∧ get (u "expires_at") request = VInt expires ∧
    get (u "operation") request = VStr operation ∧ get (u "phase") request = VStr phase ∧
    get (u "payload") request = VDict payload ∧ (∃ effectful, (operation, phase, effectful) ∈ host_calls) ∧
    ∀ s broker_now, concat s = raw → issued - 30 ≤ broker_now ≤ expires →
    ∃ line value r, _recv_line s MAX_REQUEST_BYTES = Ok line ∧ decode_request (I := I) line = Ok value ∧
      validate_request value broker_now = Ok r ∧ get (u "request_id") request = VStr (rq_request_id r) ∧
      rq_operation r = operation ∧ rq_phase r = phase ∧ canon (VDict payload) = VDict (rq_payload r).
Proof.
  intros Hhex Hclock Hshort Huid HI Harg Hres Hm.
  destruct (statement_asks _ _ _ I ctx arguments HI Harg Hres m Hm w) as [H|H]; [by left|].
  destruct H as (c & operation & phase & eff & payload & w0 & Hcall & Hs0 & Hs).
  destruct (call c ctx operation operation phase (VDict payload) eff w0) as [x w1] eqn:E. simpl in Hs.
  apply call_sends in E as [[E _]|(request & raw & w2 & y & Hb & Hraw & Hlen & _ & _ & E & _)].
  { left. congruence. }
  right. exists raw, request. pose proof (build_request_Ok _ _ _ _ _ _ _ _ _ _ Hb) as Hbuilt.
  destruct Hbuilt as [_ _ (body & ids & now & rid & conv & db & _ & _ & _ & _ & _ & _ & _ & Hreq)].
  exists now, (now + Z.min 120 (Z.max 5 (int_of_number (cl_timeout_seconds c) + 5))), operation, phase, payload.
  destruct (host_call_operation _ _ _ _ _ Hcall) as [Hop Heff]. destruct Hcall as [Hin [Hp Hn]].
  split_and!; [congruence|done|by subst request..|by eexists|].
  intros s bn Hc Ht. refine (request_is_admitted (I := I) c ctx operation phase (VDict payload) eff w0 request w2 raw s bn
    Hhex Hclock Hshort Hp Hn Hb Hraw Hlen Hop Huid Heff _ Hc).
  intros issued expires Hi He. subst request. injection Hi as <-. injection He as <-. exact Ht.
Qed.

(** The handlers with an effect, and their operations. *)
Inductive effect_statement ctx (arguments : pydict) : pystr → ST (client_world W) plan_exn pydict → Prop :=
| es_patch : effect_statement ctx arguments (u "odoo.config.patch") (config_patch env_socket env_uid ctx arguments)
| es_restart : effect_statement ctx arguments (u "host.service.restart") (service_restart env_socket env_uid ctx arguments)
| es_update : effect_statement ctx arguments (u "odoo.module.update") (module_update env_socket env_uid ctx arguments).

Lemma effect_sends ctx t operation res arguments w raw :
  cw_sent (host_effect env_socket env_uid ctx t operation res arguments w).2 = raw :: cw_sent w →
  ∃ c x w', call c ctx operation operation (u "execute") (VDict arguments) true w = (x, w') ∧ cw_sent w' = raw :: cw_sent w.
Proof.
  unfold host_effect, broker_call. rewrite !ST_bind_at. unfold lift at 1.
  destruct (_broker env_socket env_uid t) as [c|e]; intros H.
  2: { apply (f_equal length) in H. simpl in H. lia. }
  destruct (call c ctx _ _ _ _ true w) as [x w'] eqn:E. exists c, x, w'. split; [done|]. by destruct x.
Qed.
Lemma statement_sends ctx arguments operation m w raw :
  effect_statement ctx arguments operation m → cw_sent (m w).2 = raw :: cw_sent w →
  ∃ c x w', call c ctx operation operation (u "execute") (VDict arguments) true w = (x, w') ∧ cw_sent w' = raw :: cw_sent w.
Proof. intros []; apply effect_sends. Qed.

Context {Env : Type} `{!Host Env} (policy : BrokerPolicy) (backups_dir : pystr).

(** C18: Two executions of a host operation by the same handler of the provider, with the same
    arguments, for the same step of the same turn and the same binding fingerprint, happen at
    most once: when serving the request of the first changed the machine, serving the request of
    the second changes nothing, whatever the broker served in between and however the
    connections of both calls ended. The arguments are ones JSON carries unchanged: no floats,
    no integers of more than 4300 digits, nested no deeper than the recursion limit of the
    broker's interpreter. *)
Theorem repeated_effect_happens_once ctx1 ctx2 arguments operation m1 m2 w1 w2 raw1 raw2 ids1 ids2 s1 s2
    peer1 peer2 (bw1 bw2 : world Env) :
  short_clock (W := W) → short_int (ctx_uid ctx1) → short_int (ctx_uid ctx2) →
  carried host_interpreter (VDict arguments) →
  effect_statement ctx1 arguments operation m1 → effect_statement ctx2 arguments operation m2 →
  ctx_turn_id ctx1 = ctx_turn_id ctx2 →
  effect_binding ctx1 operation (VDict arguments) w1 = (Ok ids1, w1) →
  effect_binding ctx2 operation (VDict arguments) w2 = (Ok ids2, w2) →
  ids1.1 = ids2.1 →
  cw_sent (m1 w1).2 = raw1 :: cw_sent w1 → cw_sent (m2 w2).2 = raw2 :: cw_sent w2 →
  concat s1 = raw1 → concat s2 = raw2 →
  ¬ no_effects bw1 (serve_one policy backups_dir peer1 s1 bw1).2 →
  rtc (broker_step policy backups_dir) (serve_one policy backups_dir peer1 s1 bw1).2 bw2 →
  no_effects bw2 (serve_one policy backups_dir peer2 s2 bw2).2.
Proof.
  intros Hclock Hu1 Hu2 [Hp Hn] Hm1 Hm2 Hturn Hb1 Hb2 Hids H1 H2 Hs1 Hs2.
  destruct (statement_sends _ _ _ _ _ _ Hm1 H1) as (c1 & x1 & w1' & Hc1 & Hr1).
  destruct (statement_sends _ _ _ _ _ _ Hm2 H2) as (c2 & x2 & w2' & Hc2 & Hr2).
  by apply (same_effect_once policy backups_dir c1 c2 ctx1 ctx2 operation (VDict arguments) w1 w1' x1 raw1
    w2 w2' x2 raw2 ids1 ids2).
Qed.
End theorems.

(** ** The sample deployment *)

(** The handler asks the broker of [linked_peer] for a restart; the raw request is served again. *)
Definition restart_handler : ST (client_world stream) plan_exn pydict :=
  service_restart None None sample_context service_payload.

Lemma sample_carried : carried 900%nat (VDict service_payload).
Proof. split; [apply sample_portable|]. apply Nat.ltb_lt. vm_compute. reflexivity. Qed.
Lemma empty_carried : carried 900%nat VNone.
Proof. split; [done|]. apply Nat.ltb_lt. vm_compute. reflexivity. Qed.

Lemma client_request_admitted_witness :
  ∃ raw request issued expires operation phase payload,
    cw_sent (restart_handler silent).2 = raw :: cw_sent silent ∧ request_line request = Ok raw ∧
    get (u "issued_at") request = VInt issued ∧ get (u "expires_at") request = VInt expires ∧
    get (u "operation") request = VStr operation ∧ get (u "phase") request = VStr phase ∧
    get (u "payload") request = VDict payload ∧ (∃ effectful, (operation, phase, effectful) ∈ host_calls) ∧
    ∀ s broker_now, concat s = raw → issued - 30 ≤ broker_now ≤ expires →
    ∃ line value r, _recv_line s MAX_REQUEST_BYTES = Ok line ∧ decode_request (I := 900%nat) line = Ok value ∧
      validate_request value broker_now = Ok r ∧ get (u "request_id") request = VStr (rq_request_id r) ∧
      rq_operation r = operation ∧ rq_phase r = phase ∧ canon (VDict payload) = VDict (rq_payload r).
Proof.
  destruct (client_request_admitted None None (λ _ _, true) (I := 900%nat) sample_context service_payload _ restart_handler silent)
    as [H|H]; [exact sample_hex|exact sample_clock|reflexivity|reflexivity|vm_compute; lia|exact sample_carried
      |exact empty_carried|apply hs_restart| |exact H].
  vm_compute in H. discriminate.
Defined.

Definition restart_raw : pybytes := Eval vm_compute in default [] (head (cw_sent (restart_handler silent).2)).

(** The restart is served; the client, which saw no answer, asks again. *)
Definition sample_served : world unit := (serve_one sample_policy backups 1000 [restart_raw] sample_world).2.
Lemma sample_served_effect : ¬ no_effects sample_world sample_served.
Proof. intros [_ H]. apply (f_equal length) in H. vm_compute in H. discriminate. Qed.

Lemma repeated_effect_happens_once_witness :
  no_effects sample_served (serve_one sample_policy backups 1000 [restart_raw] sample_served).2.
Proof.
  refine (repeated_effect_happens_once None None sample_policy backups sample_context sample_context service_payload
            (u "host.service.restart") restart_handler restart_handler silent silent restart_raw restart_raw
            sample_ids sample_ids [restart_raw] [restart_raw] 1000 1000
            sample_world sample_served sample_clock _ _ sample_carried (es_restart _ _ _ _) (es_restart _ _ _ _)
            _ _ _ _ _ _ _ _ sample_served_effect (rtc_refl _ _));
    first [vm_compute; reflexivity | reflexivity].
Defined.
