(* ===== verification/HostReceipts.v ===== *)
(** * Host loop: what the host adds to the transcript

    The functions at the end of [models/embedded_runtime_host_loop.py]: the record of a failed
    preparation, of a prepared plan and of a verified effect, and the answer that a receipt
    dictates. *)
From S2P Require Import Prelude PyText PyValue Json WorkingTranscript EffectPlan AgentDecision AgentTurn.
Local Open Scope Z_scope.

(** What leaves the runtime: its own error, or what the layers below raise. *)
Inductive runtime_exn : Type :=
| EmbeddedRuntimeError (code : pystr)
| RuntimeTranscript (e : transcript_exn)
| RuntimeAgent (e : agent_exn)
| RuntimePlan (e : plan_exn)
| RuntimeOther (cls : pystr).

Definition plan_corrupt : runtime_exn := EmbeddedRuntimeError (u "capability_plan_corrupt").
Definition runtime_type_error : runtime_exn := RuntimeOther (u "TypeError").

Definition _COMPACT_RECEIPT_SCALARS : list pystr :=
  [u "operation"; u "model"; u "outcome"; u "reason"; u "executed"; u "verified"; u "count";
   u "requested_count"; u "failed_count"; u "excluded_count"; u "omitted_retained_count"].
Definition _COMPACT_RECEIPT_ID_SAMPLE : nat := 20.
Definition _COMPACT_RECEIPT_GROUP_SAMPLE : nat := 5.
Definition _COMPACT_RECEIPT_GROUP_ID_SAMPLE : nat := 10.
Definition _POST_EFFECT_CONTINUATION_HEADROOM_BYTES : Z := 64 * 1024.

(** ** Compact evidence *)

Definition _compact_scalar (v : pyval) : bool :=
  match v with
  | VNone | VBool _ | VInt _ | VFloat _ => true
  | VStr s => (length s <=? 512)%nat
  | _ => false
  end.

(** [{key: value[key] for key in ks if key in value and _compact_scalar(value[key])}] *)
Definition scalars (ks : list pystr) (value : pydict) : pydict :=
  omap (λ k, v ← dict_lookup k value; if _compact_scalar v then Some (k, v) else None) ks.

(** A list cut to a sample, with the number of the elements left out *)
Definition sampled {A} (key : pystr) (maximum : nat) (f : list A → list pyval) (l : list A) : pydict :=
  [(key ++ u "_sample", VList (f (take maximum l)));
   (key ++ u "_omitted_count", VInt (Z.max 0 (Z.of_nat (length l) - Z.of_nat maximum)))].
Definition sampled_ids (key : pystr) (maximum : nat) (value : pydict) : pydict :=
  match get key value with VList ids => sampled key maximum id ids | _ => [] end.

Definition _compact_retained_group (group : pydict) : pydict :=
  scalars [u "state"; u "error_code"; u "message"; u "resolution"; u "blocking_model"; u "count"] group
  ++ sampled_ids (u "record_ids") _COMPACT_RECEIPT_GROUP_ID_SAMPLE group.

Definition compact_dependency (item : pyval) : option pyval :=
  d ← as_dict item;
  step_id ← as_str (get (u "step_id") d);
  outcome ← as_str (get (u "outcome") d);
  Some (VDict [(u "step_id", VStr step_id); (u "outcome", VStr outcome)]).
Definition compact_dependencies (value : pydict) : pydict :=
  match get (u "dependencies") value with
  | VList l => [(u "dependencies", VList (omap compact_dependency (take 5 l)))]
  | _ => []
  end.

Definition _compact_receipt_result (value : pydict) : pydict :=
  scalars _COMPACT_RECEIPT_SCALARS value
  ++ sampled_ids (u "failed_record_ids") _COMPACT_RECEIPT_ID_SAMPLE value
  ++ sampled_ids (u "excluded_record_ids") _COMPACT_RECEIPT_ID_SAMPLE value
  ++ match get (u "retained_groups") value with
     | VList l =>
         sampled (u "retained_groups") _COMPACT_RECEIPT_GROUP_SAMPLE
           (omap (λ g, (λ d, VDict (_compact_retained_group d)) <$> as_dict g)) l
     | _ => []
     end
  ++ compact_dependencies value.

Definition _minimal_receipt_result (value : pydict) : pydict :=
  scalars _COMPACT_RECEIPT_SCALARS value ++ compact_dependencies value.

(** ** Steps of a receipt *)

Definition skipped_entry (item : pyval) : result runtime_exn bool :=
  match item with
  | VDict d =>
      if has_keys d [u "step_id"; u "outcome"] && bool_decide (is_Some (as_str (get (u "step_id") d)))
      then of_option (in_str_set (get (u "outcome") d) [u "partial"; u "blocked"; u "skipped"]) runtime_type_error
      else Ok false
  | _ => Ok false
  end.

Definition _valid_skipped_receipt (result_ verification : pydict) : result runtime_exn bool :=
  match get (u "dependencies") result_ with
  | VList dependencies =>
      if has_keys result_ [u "outcome"; u "reason"; u "executed"; u "dependencies"]
         && py_eq (get (u "outcome") result_) (VStr (u "skipped"))
         && py_eq (get (u "reason") result_) (VStr (u "dependency_incomplete"))
         && match get (u "executed") result_ with VBool false => true | _ => false end
         && (1 <=? length dependencies)%nat && (length dependencies <=? 5)%nat
      then
        named ← all_of skipped_entry dependencies;
        Ok (named && py_eq (VDict verification) (VDict ((u "verified", VBool true) :: result_)))
      else Ok false
  | _ => Ok false
  end.

Record receipt_step := MkReceiptStep {
  rs_position : pyval; rs_step_id : pyval; rs_capability : pyval; rs_title : pyval; rs_state : pyval;
  rs_result : pydict; rs_verification : pydict }.
Definition rs_skipped (s : receipt_step) : bool := py_eq (rs_state s) (VStr (u "skipped")).

(** The turn of the loop over the steps of the executed plan. *)
Definition read_receipt_step (v : pyval) : result runtime_exn receipt_step :=
  step ← of_option (as_dict v) plan_corrupt;
  let state := get (u "state") step in
  known ← of_option (in_str_set state [u "completed"; u "skipped"]) runtime_type_error;
  raise_when (negb known) plan_corrupt;;
  result_ ← of_option (as_dict (get (u "result") step)) plan_corrupt;
  verification ← of_option (as_dict (get (u "verification") step)) plan_corrupt;
  (if py_eq state (VStr (u "skipped")) then
     raise_when (negb (bool_decide (is_Some (as_str (get (u "step_id") step))))) plan_corrupt;;
     valid ← _valid_skipped_receipt result_ verification;
     raise_when (negb valid) plan_corrupt
   else Ok tt);;
  Ok (MkReceiptStep (get (u "position") step) (get (u "step_id") step) (get (u "capability") step)
        (get (u "title") step) state result_ verification).

Definition rich_receipt_step (s : receipt_step) : pyval :=
  VDict [(u "position", rs_position s); (u "step_id", rs_step_id s); (u "capability", rs_capability s);
         (u "title", rs_title s); (u "state", rs_state s); (u "result", VDict (rs_result s));
         (u "verification", VDict (rs_verification s))].
Definition _compact_receipt_step (s : receipt_step) : pyval :=
  VDict [(u "position", rs_position s); (u "step_id", rs_step_id s); (u "capability", rs_capability s);
         (u "title", rs_title s); (u "state", rs_state s);
         (u "result", VDict (_compact_receipt_result (rs_result s)));
         (u "verification", VDict (_compact_receipt_result (rs_verification s)))].
Definition _minimal_receipt_step (s : receipt_step) : pyval :=
  VDict [(u "step_id", rs_step_id s); (u "capability", rs_capability s); (u "state", rs_state s);
         (u "result", VDict (_minimal_receipt_result (rs_result s)));
         (u "verification", VDict (_minimal_receipt_result (rs_verification s)))].

(** ** The receipt *)

(** The fields every form of the receipt has. *)
Definition receipt_head (steps : list receipt_step) : pydict :=
  let skipped := filter (λ s, rs_skipped s = true) steps in
  [(u "verified", VBool true); (u "plan_state", VStr (u "completed"));
   (u "step_count", VInt (Z.of_nat (length steps)));
   (u "skipped_step_count", VInt (Z.of_nat (length skipped)));
   (u "skipped_step_ids", VList (rs_step_id <$> skipped))].
Definition reduced_receipt (form : receipt_step → pyval) (steps : list receipt_step) : pydict :=
  receipt_head steps ++
  [(u "details_omitted", VBool true); (u "capabilities", VList (rs_capability <$> steps));
   (u "steps", VList (form <$> steps))].
Definition rich_receipt (steps : list receipt_step) : pydict :=
  receipt_head steps ++ [(u "steps", VList (rich_receipt_step <$> steps))].
Definition compact_receipt : list receipt_step → pydict := reduced_receipt _compact_receipt_step.
Definition minimal_receipt : list receipt_step → pydict := reduced_receipt _minimal_receipt_step.

(** The user's request and the latest task plan, numbered anew *)
Definition renumbered (items : list WorkingItem) : list WorkingItem :=
  imap (λ i x, MkItem (Z.of_nat i + 1) (wi_kind x) (wi_data x)) items.
Definition latest_task_plan (items : list WorkingItem) : option WorkingItem :=
  List.find (is_kind (u "task_plan")) (reverse items).
Definition _post_effect_transcript_baseline (items : list WorkingItem) : result runtime_exn (list WorkingItem) :=
  user_input ← of_option (List.find (is_kind (u "user_input")) items)
                 (EmbeddedRuntimeError (u "agent_working_transcript_invalid"));
  Ok (renumbered (user_input :: option_list (latest_task_plan items))).

Definition receipt_kind : pystr := u "verified_effect_receipt".
Definition transcript_full : pystr := u "agent_working_transcript_too_large".

(** What [append_working_item] gives, or the code of an error the loop goes on after *)
Definition try_receipt (items : list WorkingItem) (payload : pydict)
    : result runtime_exn (pystr + list WorkingItem) :=
  match append_working_item items receipt_kind payload with
  | Ok candidate => Ok (inr candidate)
  | Err (WorkingTranscriptError code) =>
      raise_when (negb (mem code [item_too_large; transcript_full])) (EmbeddedRuntimeError code);;
      Ok (inl code)
  | Err e => Err (RuntimeTranscript e)
  end.

(** The candidate, when it leaves the headroom *)
Definition with_headroom (candidate : list WorkingItem) : result runtime_exn bool :=
  n ← map_err RuntimeTranscript (working_transcript_bytes candidate);
  Ok (n <=? MAX_TRANSCRIPT_BYTES - _POST_EFFECT_CONTINUATION_HEADROOM_BYTES).

(** The second attempt of a form; [next] goes on with the next one. *)
Definition on_baseline (items : list WorkingItem) (payload : pydict)
    (next : pystr → result runtime_exn (list WorkingItem)) : result runtime_exn (list WorkingItem) :=
  baseline ← _post_effect_transcript_baseline items;
  outcome ← try_receipt baseline payload;
  match outcome with inr items' => Ok items' | inl code => next code end.

(** The loop over the forms, with [last_error]. *)
Fixpoint record_receipt (items : list WorkingItem) (last_error : pystr) (forms : list pydict)
    : result runtime_exn (list WorkingItem) :=
  match forms with
  | [] => Err (EmbeddedRuntimeError last_error)
  | payload :: forms =>
      let next code := record_receipt items code forms in
      outcome ← try_receipt items payload;
      match outcome with
      | inr candidate =>
          roomy ← with_headroom candidate;
          if roomy : bool then Ok candidate else on_baseline items payload next
      | inl code => if str_eqb code transcript_full then on_baseline items payload next else next code
      end
  end.

Definition _append_verified_effect_receipt (items : list WorkingItem) (plan : pyval)
    : result runtime_exn (list WorkingItem) :=
  plan ← of_option (as_dict plan) plan_corrupt;
  raise_when (negb (py_eq (get (u "state") plan) (VStr (u "completed")))) plan_corrupt;;
  steps ← of_option (as_list (get (u "steps") plan)) plan_corrupt;
  raise_when (bool_decide (length steps = 0%nat)) plan_corrupt;;
  steps ← mapR read_receipt_step steps;
  record_receipt items [] [rich_receipt steps; compact_receipt steps; minimal_receipt steps].

(** ** A failed preparation *)

Definition is_replan (x : WorkingItem) : bool := is_kind (u "plan_execution_error") x.
Definition replans (items : list WorkingItem) : Z := count_if is_replan items.

(** The attributes of a [CapabilityPlanStepError] *)
Record step_error := MkStepError {
  se_code : pystr; se_step_id : pystr; se_capability : pystr; se_phase : pystr; se_details : pydict }.

Definition prepare_error_payload (e : step_error) (details : list (pystr * pyval)) (replan : Z) : pydict :=
  [(u "code", VStr (se_code e)); (u "step_id", VStr (se_step_id e));
   (u "capability", VStr (se_capability e)); (u "phase", VStr (u "prepare"))] ++ details ++
  [(u "effect_state", VStr (u "none")); (u "rolled_back", VBool false); (u "replan", VInt replan)].

Definition _append_prepare_error (items : list WorkingItem) (e : step_error)
    : result runtime_exn (list WorkingItem) :=
  let replan := 1 + replans items in
  let append details := append_working_item items (u "plan_execution_error") (prepare_error_payload e details replan) in
  match append [(u "details", VDict (se_details e))] with
  | Ok items' => Ok items'
  | Err (WorkingTranscriptError code) =>
      raise_when (bool_decide (length (se_details e) = 0%nat) || negb (str_eqb code item_too_large))
        (EmbeddedRuntimeError code);;
      map_err RuntimeTranscript (append [])
  | Err e => Err (RuntimeTranscript e)
  end.

(** ** A prepared plan *)

(** The turn of the loop over the proposals and the steps. *)
Definition bind_proposal (proposal : WorkingItem) (step : pydict) : result runtime_exn (pystr * pystr) :=
  let invalid := EmbeddedRuntimeError (u "agent_working_transcript_invalid") in
  call_id ← of_option (as_str (get (u "call_id") (wi_data proposal))) invalid;
  capability ← of_option (as_str (get (u "capability") (wi_data proposal))) invalid;
  arguments ← of_option (as_dict (get (u "arguments") (wi_data proposal))) invalid;
  let mismatch := EmbeddedRuntimeError (u "capability_plan_binding_mismatch") in
  raise_when (negb (py_eq (get (u "capability") step) (VStr capability))
              || negb (py_eq (get (u "arguments") step) (VDict arguments))) mismatch;;
  named ← of_option (in_str_set (get (u "step_id") step) [call_id]) runtime_type_error;
  raise_when (negb (is_none (get (u "step_id") step) || named)) mismatch;;
  Ok (call_id, capability).

Definition _append_plan_prepared (items : list WorkingItem) (prepared : pyval)
    : result runtime_exn (list WorkingItem) :=
  steps ← of_option (d ← as_dict prepared; as_list (get (u "steps") d)) plan_corrupt;
  raise_when (bool_decide (length steps = 0%nat) || (5 <? length steps)%nat) plan_corrupt;;
  steps ← mapR (λ v, of_option (as_dict v) plan_corrupt) steps;
  let proposals := List.filter (is_kind (u "plan_step_proposed")) items in
  raise_when (length proposals <? length steps)%nat (EmbeddedRuntimeError (u "agent_working_transcript_invalid"));;
  let proposals := drop (length proposals - length steps) proposals in
  bound ← mapR (λ ps, bind_proposal ps.1 ps.2) (zip proposals steps);
  let d := default [] (as_dict prepared) in
  map_err RuntimeTranscript (append_working_item items (u "plan_prepared")
    [(u "call_ids", VList (VStr <$> bound.*1)); (u "capabilities", VList (VStr <$> bound.*2));
     (u "state", get (u "state") d);
     (u "requires_confirmation", VBool match get (u "requires_confirmation") d with VBool b => b | _ => false end);
     (u "step_count", VInt (Z.of_nat (length steps)))]).

(** ** The answer after an effect *)

(** [not isinstance(lang, str) or lang.lower().startswith("es")] *)
Definition spanish (lang : option pystr) : bool :=
  match lang with None => true | Some l => startswith (u "es") (lower_ascii <$> l) end.

Definition incomplete_summary (plan : pyval) : result runtime_exn (option (bool * outcome_counts)) :=
  map_err (λ _, runtime_type_error)
    (incomplete_effect_summary match plan with VDict d => get_default (u "steps") (VList []) d | _ => VList [] end).

Definition _grounded_post_effect_result (plan : pyval) (provider_answer provider_confidence : pystr)
    (lang : option pystr) : result runtime_exn (pystr * pystr) :=
  incomplete ← incomplete_summary plan;
  Ok (match incomplete with
      | None => (provider_answer, provider_confidence)
      | Some i => (incomplete_effect_answer i (spanish lang), u "high")
      end).
