(* ===== verification/HostReceiptsFacts.v ===== *)
(** * Host loop: what the receipts guarantee

    The receipt of a verified effect is always recorded, in one of its three forms, and leaves
    room for the answer; the records of a preparation say what was prepared. *)
From S2P Require Import Prelude PyText Regex PyValue Json EffectPlan WorkingTranscript.
From S2P Require Import AgentDecision AgentTurn JsonRoundtrip HostReceipts.
Local Open Scope Z_scope.

#[local] Arguments json_bytes : simpl never.
#[local] Arguments append_working_item : simpl never.
#[local] Arguments u : simpl never.

(** ** Sizes of JSON texts *)

Definition text_size (t : pystr) (n : Z) : Prop :=
  ∃ bytes, utf8_encode t = Some bytes ∧ n = Z.of_nat (length bytes).

Lemma json_bytes_text v n : json_bytes v = Some n ↔ ∃ t, json_dumps false v = Some t ∧ text_size t n.
Proof.
  unfold json_bytes, text_size. split.
  - intros (t & Ht & H)%bind_Some. apply bind_Some in H as (b & Hb & [= <-]). eauto.
  - intros (t & -> & b & Hb & ->). simpl. by rewrite Hb.
Qed.
Lemma text_size_app s t m n : text_size s m → text_size t n → text_size (s ++ t) (m + n).
Proof.
  unfold text_size, utf8_encode, encodable. intros (b & Hb & ->) (c & Hc & ->). rewrite forallb_app.
  destruct (forallb is_scalar s), (forallb is_scalar t); simplify_eq/=.
  eexists. split; [done|]. rewrite bind_app, length_app. lia.
Qed.

Lemma joined_size ts ns : Forall2 text_size ts ns →
  ∃ m, text_size (str_join [44%N] ts) m ∧ m ≤ foldr (λ n acc, n + 1 + acc) 0 ns.
Proof.
  induction 1 as [|t n ts ns Ht Hts (m & Hm & Hle)]; [exists 0; split; [by exists []|done]|].
  destruct ts as [|t' ts].
  - inversion Hts; subst. exists n. split; [done|]. simpl. lia.
  - exists (n + (1 + m)). split; [|simpl in *; lia].
    apply (text_size_app t); [done|]. apply text_size_app; [by exists [Byte.x2c]|done].
Qed.
Lemma list_size l ns : Forall2 (λ v n, json_bytes v = Some n) l ns →
  ∃ m, json_bytes (VList l) = Some m ∧ m ≤ 2 + foldr (λ n acc, n + 1 + acc) 0 ns.
Proof.
  intros H. assert (∃ ts, Forall2 (λ v t, json_dumps false v = Some t) l ts ∧ Forall2 text_size ts ns) as (ts & Hd & Hs).
  { induction H as [|v n l ns Hv _ (ts & ? & ?)]; [by exists []|].
    apply json_bytes_text in Hv as (t & ? & ?). exists (t :: ts). by split; constructor. }
  destruct (joined_size _ _ Hs) as (m & Hm & Hle). exists (1 + (m + 1)). split; [|lia].
  apply json_bytes_text. exists ([91%N] ++ str_join [44%N] ts ++ [93%N]). split; [apply dumps_list; eauto|].
  apply text_size_app; [by exists [Byte.x5b]|]. apply text_size_app; [done|by exists [Byte.x5d]].
Qed.

(** What surrounds the data of an item *)
Definition item_head : pystr := [123%N] ++ dump_str (u "data") ++ [58%N].
Definition item_tail (kind : pystr) (sequence : Z) : pystr :=
  [44%N] ++ dump_str (u "kind") ++ [58%N] ++ dump_str kind
  ++ [44%N] ++ dump_str (u "sequence") ++ [58%N] ++ int_str sequence ++ [125%N].

Lemma item_text kind sequence data t : int_too_long sequence = false → json_dumps false (VDict data) = Some t →
  json_dumps false (item_payload (MkItem sequence kind data)) = Some (item_head ++ t ++ item_tail kind sequence).
Proof.
  intros Hlong H. apply dumps_dict. exists [(u "sequence", int_str sequence); (u "kind", dump_str kind); (u "data", t)].
  split.
  { assert (same_entry false (u "sequence", VInt sequence) (u "sequence", int_str sequence)).
    { split; [done|]. cbn [snd json_dumps]. by rewrite Hlong. }
    by repeat (apply Forall2_cons_2; [done|]). }
  assert (∀ a b c : pystr,
    sort_by entry_leb [(u "sequence", a); (u "kind", b); (u "data", c)] =
    [(u "data", c); (u "kind", b); (u "sequence", a)]) as -> by done.
  unfold item_head, item_tail. cbn [fmap list_fmap str_join dump_entry fst snd]. by rewrite <- !app_assoc.
Qed.

Definition small_tail (kind : pystr) (sequence : Z) : bool :=
  negb (int_too_long sequence) &&
  match utf8_encode (item_tail kind sequence) with Some b => (length b <=? 100)%nat | None => false end.
Lemma item_size kind sequence data n : small_tail kind sequence = true →
  json_bytes (VDict data) = Some n →
  ∃ m, json_bytes (item_payload (MkItem sequence kind data)) = Some m ∧ m ≤ n + 108.
Proof.
  unfold small_tail. intros [Hlong%negb_true_iff Htail]%andb_true_iff (t & Ht & Hn)%json_bytes_text.
  destruct (utf8_encode (item_tail _ _)) as [b|] eqn:Eb; [|done]. apply Nat.leb_le in Htail.
  exists (8 + (n + Z.of_nat (length b))). split; [|lia]. apply json_bytes_text. eexists. split; [by apply item_text|].
  apply text_size_app; [eexists; split; [vm_compute; reflexivity|reflexivity]|].
  apply text_size_app; [done|]. by exists b.
Qed.

(** ** Appending a receipt *)

(** A receipt has no call identifier, so only its size can keep it out. *)
Definition too_large (e : transcript_exn) : Prop :=
  e = WorkingTranscriptError item_too_large ∨ e = WorkingTranscriptError transcript_full.
Lemma receipt_kind_allowed : mem receipt_kind _ALLOWED_KINDS = true.
Proof. by vm_compute. Qed.
Lemma receipt_limit : item_limit receipt_kind = MAX_RESULT_BYTES.
Proof. by vm_compute. Qed.
Lemma receipt_no_call : mem receipt_kind call_kinds = false.
Proof. by vm_compute. Qed.

Lemma receipt_item_ok sequence payload n : get (u "call_id") payload = VNone →
  json_bytes (VDict payload) = Some n → n ≤ MAX_RESULT_BYTES → item_ok (MkItem sequence receipt_kind payload).
Proof.
  intros Hc Hn Hle. split.
  - apply mem_true, receipt_kind_allowed.
  - exists n. cbn [wi_data wi_kind]. by rewrite receipt_limit.
  - unfold call_id. simpl. rewrite Hc. apply mem_false, receipt_no_call.
Qed.
Lemma no_ids kinds items x : mem (wi_kind x) kinds = false → ids_of kinds (items ++ [x]) = ids_of kinds items.
Proof. intros H. by rewrite ids_of_snoc, H, app_nil_r. Qed.

Lemma bounded_Err v maximum code e : _bounded v maximum code = Err e → e = code.
Proof. unfold _bounded. destruct (json_bytes v); simpl; [by intros [_ ->]%raise_when_Err|by intros [= <-]]. Qed.

Lemma append_receipt items payload n : transcript_ok items → get (u "call_id") payload = VNone →
  json_bytes (VDict payload) = Some n → n ≤ MAX_RESULT_BYTES →
  let items' := items ++ [MkItem (Z.of_nat (length items) + 1) receipt_kind payload] in
  append_working_item items receipt_kind payload = Ok items' ∨
  append_working_item items receipt_kind payload = Err (WorkingTranscriptError transcript_full) ∧
    ¬ ∃ m, json_bytes (payload_of items') = Some m ∧ m ≤ MAX_TRANSCRIPT_BYTES.
Proof.
  intros [Hg Hd Ht _] Hc Hn Hle items'. pose proof (receipt_item_ok (Z.of_nat (length items) + 1) _ _ Hc Hn Hle) as Hx.
  unfold append_working_item. rewrite (proj2 (validate_item_ok _) Hx). cbn [mbind result_bind].
  assert (grows numbered items') as Hg' by by apply grows_snoc.
  unfold validate_transcript. fold items'. rewrite (proj2 (validate_call_ids_ok items' (numbered_items _ Hg')));
    [|unfold items'; rewrite !no_ids by (by vm_compute); done].
  cbn [mbind result_bind]. destruct (_bounded _ _ _) as [[]|e] eqn:E; [by left|]. right. split.
  - by apply bounded_Err in E as ->.
  - intros Hm. by rewrite (proj2 (bounded_Ok _ _ transcript_too_large tt) Hm) in E.
Qed.

Lemma append_receipt_Err items payload e : transcript_ok items → get (u "call_id") payload = VNone →
  append_working_item items receipt_kind payload = Err e → too_large e.
Proof.
  intros Hok Hc He. destruct (json_bytes (VDict payload)) as [n|] eqn:Hn.
  - destruct (decide (n ≤ MAX_RESULT_BYTES)) as [Hle|Hle].
    + destruct (append_receipt _ _ _ Hok Hc Hn Hle) as [E|[E _]]; rewrite E in He; simplify_eq. by right.
    + left. unfold append_working_item, _validate_item, _bounded in He. cbn [wi_kind wi_data] in He.
      rewrite receipt_kind_allowed, receipt_limit, Hn in He. cbn in He.
      rewrite (proj2 (Z.ltb_lt _ _)) in He by lia. by simplify_eq/=.
  - left. unfold append_working_item, _validate_item, _bounded in He. cbn [wi_kind wi_data] in He.
    rewrite receipt_kind_allowed, receipt_limit, Hn in He. by simplify_eq/=.
Qed.

Lemma try_receipt_spec items payload : transcript_ok items → get (u "call_id") payload = VNone →
  match try_receipt items payload with
  | Ok (inr items') => append_working_item items receipt_kind payload = Ok items'
  | Ok (inl code) =>
      append_working_item items receipt_kind payload = Err (WorkingTranscriptError code) ∧
      (code = item_too_large ∨ code = transcript_full)
  | Err _ => False
  end.
Proof.
  intros Hok Hc. unfold try_receipt. destruct (append_working_item _ _ _) as [items'|e] eqn:E; [done|].
  destruct (append_receipt_Err _ _ _ Hok Hc E) as [-> | ->]; vm_compute; auto.
Qed.

(** ** The baseline *)

Definition baseline_kinds : list pystr := [u "user_input"; u "task_plan"].
Definition retained (x : WorkingItem) : Prop := item_ok x ∧ wi_kind x ∈ baseline_kinds.

Lemma find_kind k items x : List.find (is_kind k) items = Some x → x ∈ items ∧ wi_kind x = k.
Proof. intros [H E]%List.find_some. split; [by apply list_elem_of_In|by apply str_eqb_true]. Qed.

Lemma baseline_Ok items pre : transcript_ok items → _post_effect_transcript_baseline items = Ok pre →
  ∃ x, List.find (is_kind (u "user_input")) items = Some x ∧
    pre = renumbered (x :: option_list (latest_task_plan items)) ∧
    retained x ∧ Forall retained (option_list (latest_task_plan items)).
Proof.
  intros Hok H. unfold _post_effect_transcript_baseline in H. apply bind_Ok in H as (y & Hy%of_option_Ok & [= <-]).
  pose proof (numbered_items _ (tk_items _ Hok)) as Hitems. rewrite Forall_forall in Hitems.
  exists y. split_and!; [done|done| |].
  - destruct (find_kind _ _ _ Hy) as [Hin E]. split; [by apply Hitems|]. rewrite E. by left.
  - unfold latest_task_plan. destruct (List.find _ (reverse items)) as [z|] eqn:Hz; [|done].
    destruct (find_kind _ _ _ Hz) as [Hin E]. constructor; [|done].
    split; [by apply Hitems, elem_of_reverse|]. rewrite E. by right; left.
Qed.

Lemma retained_size x : retained x → ∃ n, json_bytes (VDict (wi_data x)) = Some n ∧ n ≤ 16384.
Proof.
  intros [[_ (n & Hn & Hle) _] Hk]. exists n. split; [done|]. etrans; [exact Hle|].
  unfold baseline_kinds in Hk. by apply elem_of_cons in Hk as [-> | ->%list_elem_of_singleton]; vm_compute.
Qed.

(** Items numbered from one, each within a size *)
Lemma items_size xs ns :
  Forall2 (λ x n, small_tail (wi_kind x) (wi_sequence x) = true ∧
                  ∃ m, json_bytes (VDict (wi_data x)) = Some m ∧ m ≤ n) xs ns →
  ∃ m, json_bytes (payload_of xs) = Some m ∧ m ≤ 2 + foldr (λ n acc, n + 109 + acc) 0 ns.
Proof.
  intros H. assert (∃ ms, Forall2 (λ v m, json_bytes v = Some m) (item_payload <$> xs) ms ∧
    foldr (λ n acc, n + 1 + acc) 0 ms ≤ foldr (λ n acc, n + 109 + acc) 0 ns) as (ms & Hms & Hle).
  { induction H as [|[seq kind data] n xs ns (Ht & m & Hm & Hmn) _ (ms & Hms & Hle)]; [by exists []|].
    destruct (item_size _ _ _ _ Ht Hm) as (m' & Hm' & Hle'). exists (m' :: ms). split; [by constructor|]. simpl. lia. }
  destruct (list_size _ _ Hms) as (m & Hm & Hmle). exists m. split; [done|]. lia.
Qed.

Lemma retained_tail kind sequence : kind ∈ baseline_kinds → sequence = 1 ∨ sequence = 2 → small_tail kind sequence = true.
Proof.
  unfold baseline_kinds. by intros [-> | ->%list_elem_of_singleton]%elem_of_cons [-> | ->]; vm_compute.
Qed.

Definition receipt_after (pre : list WorkingItem) (payload : pydict) : list WorkingItem :=
  pre ++ [MkItem (Z.of_nat (length pre) + 1) receipt_kind payload].

(** Enough room for the rest of the turn: half of the transcript, but for the items' fields. *)
Definition receipt_room : Z := 66000.

Lemma baseline_size x o payload n : retained x → Forall retained (option_list o) →
  json_bytes (VDict payload) = Some n → n ≤ MAX_RESULT_BYTES →
  let pre := renumbered (x :: option_list o) in
  (∃ m, json_bytes (payload_of pre) = Some m ∧ m ≤ receipt_room) ∧
  (∃ m, json_bytes (payload_of (receipt_after pre payload)) = Some m ∧ m ≤ receipt_room).
Proof.
  intros Hx Ho Hn Hle pre. pose proof (retained_size _ Hx) as Hs. destruct Hx as [_ Hk].
  assert (∀ k, small_tail receipt_kind k = true → ∃ m, json_bytes (VDict payload) = Some m ∧ m ≤ 32768) as Hr by eauto.
  destruct o as [y|]; simpl in Ho.
  - apply Forall_cons in Ho as [Hy _]. pose proof (retained_size _ Hy) as Hsy. destruct Hy as [_ Hky].
    split.
    + destruct (items_size pre [16384; 16384]) as (m & Hm & Hmle).
      { repeat constructor; simpl; auto using retained_tail. }
      exists m. split; [done|]. etrans; [exact Hmle|]. by vm_compute.
    + destruct (items_size (receipt_after pre payload) [16384; 16384; 32768]) as (m & Hm & Hmle).
      { repeat constructor; simpl; auto using retained_tail. all: eauto. }
      exists m. split; [done|]. etrans; [exact Hmle|]. by vm_compute.
  - split.
    + destruct (items_size pre [16384]) as (m & Hm & Hmle).
      { repeat constructor; simpl; auto using retained_tail. }
      exists m. split; [done|]. etrans; [exact Hmle|]. by vm_compute.
    + destruct (items_size (receipt_after pre payload) [16384; 32768]) as (m & Hm & Hmle).
      { repeat constructor; simpl; auto using retained_tail. all: eauto. }
      exists m. split; [done|]. etrans; [exact Hmle|]. by vm_compute.
Qed.

Lemma renumbered_numbered l : Forall item_ok l → grows numbered (renumbered l).
Proof.
  intros Hl i x Hi. unfold renumbered in Hi. apply list_lookup_imap_Some in Hi as (y & Hy & ->). split.
  - unfold renumbered. simpl. rewrite length_take, length_imap. apply lookup_lt_Some in Hy. lia.
  - apply Forall_lookup_1 with (i := i) (x := y) in Hl; [|done]. by destruct Hl; constructor.
Qed.
Lemma renumbered_ids kinds l : Forall (λ x, mem (wi_kind x) kinds = false) l → ids_of kinds (renumbered l) = [].
Proof.
  intros H. unfold ids_of, renumbered. assert (∀ (f : nat → Z), omap (λ x, if mem (wi_kind x) kinds then as_str (call_id x) else None)
    (imap (λ i x, MkItem (f i) (wi_kind x) (wi_data x)) l) = []) as E; [|apply E].
  induction H as [|x l Hx _ IH]; intros f; [done|]. simpl. rewrite Hx. apply (IH (f ∘ S)).
Qed.

Lemma retained_kind kinds x : existsb (λ k, mem k kinds) baseline_kinds = false → retained x → mem (wi_kind x) kinds = false.
Proof.
  unfold baseline_kinds. simpl. rewrite !orb_false_iff. intros (H1 & H2 & _) [_ Hk].
  by apply elem_of_cons in Hk as [-> | ->%list_elem_of_singleton].
Qed.

Lemma baseline_ok items pre payload n : transcript_ok items → _post_effect_transcript_baseline items = Ok pre →
  get (u "call_id") payload = VNone → json_bytes (VDict payload) = Some n → n ≤ MAX_RESULT_BYTES →
  transcript_ok pre ∧ append_working_item pre receipt_kind payload = Ok (receipt_after pre payload) ∧
  ∃ m, working_transcript_bytes (receipt_after pre payload) = Ok m ∧ m ≤ receipt_room.
Proof.
  intros Hok H Hc Hn Hle. destruct (baseline_Ok _ _ Hok H) as (x & _ & -> & Hx & Ho).
  destruct (baseline_size _ _ _ _ Hx Ho Hn Hle) as [(m & Hm & Hmle) (m' & Hm' & Hmle')].
  assert (Forall retained (x :: option_list (latest_task_plan items))) as Hall by by constructor.
  assert (transcript_ok (renumbered (x :: option_list (latest_task_plan items)))) as Hpre.
  { split.
    - apply renumbered_numbered. eapply Forall_impl; [exact Hall|]. by intros y [].
    - rewrite renumbered_ids; [constructor|]. eapply Forall_impl; [exact Hall|]. intros y. by apply retained_kind.
    - rewrite renumbered_ids; [constructor|]. eapply Forall_impl; [exact Hall|]. intros y. by apply retained_kind.
    - exists m. split; [done|]. etrans; [exact Hmle|]. by vm_compute. }
  split_and!; [done| |exists m'; unfold working_transcript_bytes; by rewrite Hm'].
  destruct (append_receipt _ _ _ Hpre Hc Hn Hle) as [E|[_ E]]; [exact E|].
  destruct E. exists m'. split; [done|]. etrans; [exact Hmle'|]. by vm_compute.
Qed.

(** ** The loop over the forms *)

Lemma append_receipt_Ok items payload items' : transcript_ok items →
  append_working_item items receipt_kind payload = Ok items' →
  items' = receipt_after items payload ∧ transcript_ok items' ∧
  ∃ n, json_bytes (VDict payload) = Some n ∧ n ≤ MAX_RESULT_BYTES.
Proof.
  intros Hok H. destruct (append_Ok _ _ _ _ Hok H) as [-> Hok']. split_and!; [done..|].
  pose proof (numbered_items _ (tk_items _ Hok')) as [_ Hx]%Forall_app. apply Forall_cons in Hx as [[_ (n & Hn & Hle) _] _].
  exists n. by rewrite <- receipt_limit.
Qed.

(** What a recorded receipt is, of one of the forms *)
Definition recorded (items : list WorkingItem) (forms : list pydict) (items' : list WorkingItem) : Prop :=
  ∃ pre payload, items' = receipt_after pre payload ∧ payload ∈ forms ∧ transcript_ok items' ∧
    (pre = items ∨ _post_effect_transcript_baseline items = Ok pre) ∧
    ∃ m, working_transcript_bytes items' = Ok m ∧ m ≤ receipt_room.
Lemma recorded_more items payload forms items' : recorded items forms items' → recorded items (payload :: forms) items'.
Proof. intros (pre & p & E & Hp & H). exists pre, p. split_and!; [done|by right|apply H..]. Qed.

Lemma transcript_bytes items : transcript_ok items → ∃ m, working_transcript_bytes items = Ok m.
Proof. intros [_ _ _ (m & Hm & _)]. exists m. unfold working_transcript_bytes. by rewrite Hm. Qed.

Lemma record_receipt_recorded items last forms items' : transcript_ok items →
  Forall (λ p, get (u "call_id") p = VNone) forms →
  record_receipt items last forms = Ok items' → recorded items forms items'.
Proof.
  intros Hok Hf. revert last. induction Hf as [|p forms Hc _ IH]; intros last; cbn [record_receipt]; [done|].
  set (next := λ code, record_receipt items code forms).
  assert (on_baseline items p next = Ok items' → recorded items (p :: forms) items') as Hbase.
  { intros H. unfold on_baseline in H. apply bind_Ok in H as (pre & Hpre & H). apply bind_Ok in H as (o & Ho & H).
    destruct o as [code|cand]; [by eauto using recorded_more|]. injection H as ->.
    unfold try_receipt in Ho. destruct (append_working_item pre _ _) as [c|[]] eqn:E; simplify_eq/=; [|by result_inv].
    assert (∃ n, json_bytes (VDict p) = Some n ∧ n ≤ MAX_RESULT_BYTES) as (n & Hn & Hle).
    { unfold append_working_item in E. result_inv. match goal with H : _validate_item _ = _ |- _ => apply validate_item_ok in H as [_ (n & Hn & Hle) _] end.
      exists n. by rewrite <- receipt_limit. }
    destruct (baseline_ok _ _ _ _ Hok Hpre Hc Hn Hle) as (Hp & E' & Hm). rewrite E' in E. injection E as <-.
    exists pre, p. split_and!; [done|by left| |by right|done]. apply (append_Ok _ _ _ _ Hp E'). }
  intros H. apply bind_Ok in H as (o & Ho & H). pose proof (try_receipt_spec _ _ Hok Hc) as Ht. rewrite Ho in Ht.
  destruct o as [code|cand].
  - case_bool; [by apply Hbase|]. by eapply recorded_more, IH.
  - apply bind_Ok in H as (roomy & Hr & H). destruct roomy; [|by apply Hbase]. injection H as <-.
    destruct (append_receipt_Ok _ _ _ Hok Ht) as (-> & Hok' & _). exists items, p. split_and!; [done|by left|done|by left|].
    unfold with_headroom in Hr. apply bind_Ok in Hr as (m & Hm%map_err_Ok & [= Hle%Z.leb_le]).
    exists m. split; [done|]. etrans; [exact Hle|]. by vm_compute.
Qed.

(** The last form is what everything falls back on. *)
Lemma record_receipt_fits items last forms minimal n pre : transcript_ok items →
  _post_effect_transcript_baseline items = Ok pre →
  Forall (λ p, get (u "call_id") p = VNone) (forms ++ [minimal]) →
  json_bytes (VDict minimal) = Some n → n ≤ MAX_RESULT_BYTES →
  ∃ items', record_receipt items last (forms ++ [minimal]) = Ok items'.
Proof.
  intros Hok Hpre Hf Hn Hle. revert last.
  assert (transcript_ok pre) as Hp.
  { apply Forall_app in Hf as [_ Hc%Forall_cons]. by apply (baseline_ok _ _ _ _ Hok Hpre (proj1 Hc) Hn Hle). }
  induction forms as [|p forms IH]; intros last; cbn [record_receipt app].
  - apply Forall_cons in Hf as [Hc _]. destruct (baseline_ok _ _ _ _ Hok Hpre Hc Hn Hle) as (_ & E & _).
    assert (∀ next, on_baseline items minimal next = Ok (receipt_after pre minimal)) as Hib.
    { intros next. unfold on_baseline, try_receipt. rewrite Hpre. cbn [mbind result_bind]. by rewrite E. }
    rewrite Hib.
    pose proof (try_receipt_spec _ _ Hok Hc) as Ht. cbn [mbind result_bind].
    destruct (try_receipt items minimal) as [[code|cand]|e]; [| |done]; cbn [mbind result_bind].
    + destruct Ht as [E' [-> | ->]]; [|by eexists]. exfalso.
      destruct (append_receipt _ _ _ Hok Hc Hn Hle) as [E2|[E2 _]]; by rewrite E2 in E'.
    + destruct (append_receipt_Ok _ _ _ Hok Ht) as (-> & Hok' & _). destruct (transcript_bytes _ Hok') as (m & Hm).
      unfold with_headroom. rewrite Hm. cbn [map_err mbind result_bind]. case_bool; eauto.
  - apply Forall_cons in Hf as [Hc Hf]. specialize (IH Hf). set (next := λ code, record_receipt items code _).
    assert (∃ items', on_baseline items p next = Ok items') as [ib Hib].
    { unfold on_baseline. rewrite Hpre. cbn [mbind result_bind]. pose proof (try_receipt_spec _ _ Hp Hc) as Hb.
      destruct (try_receipt pre p) as [[code|i]|e]; cbn [mbind result_bind]; [apply IH|eauto|done]. }
    rewrite Hib. pose proof (try_receipt_spec _ _ Hok Hc) as Ht.
    destruct (try_receipt items p) as [[code|cand]|e]; [| |done]; cbn [mbind result_bind].
    + case_bool; [by eauto|apply IH].
    + destruct (append_receipt_Ok _ _ _ Hok Ht) as (-> & Hok' & _). destruct (transcript_bytes _ Hok') as (m & Hm).
      unfold with_headroom. rewrite Hm. cbn [map_err mbind result_bind]. case_bool; eauto.
Qed.

(** ** The receipt of an executed plan *)

Lemma as_list_Some v l : as_list v = Some l → v = VList l.
Proof. destruct v; simpl; congruence. Qed.

Lemma read_steps_dicts l steps : mapR read_receipt_step l = Ok steps →
  ∃ ds, l = VDict <$> ds ∧ Forall2 (λ d s, rs_step_id s = get (u "step_id") d ∧
    rs_capability s = get (u "capability") d ∧ rs_state s = get (u "state") d) ds steps.
Proof.
  intros H%mapR_Ok. induction H as [|v s l steps Hv _ (ds & -> & IH)]; [by exists []|].
  unfold read_receipt_step in Hv. apply bind_Ok in Hv as (d & Hd%of_option_Ok & Hv).
  destruct v; simplify_eq/=. exists (d :: ds). split; [done|]. constructor; [|done].
  apply bind_Ok in Hv as (k & _ & Hv). apply bind_Ok in Hv as (x & _ & Hv).
  apply bind_Ok in Hv as (r & _ & Hv). apply bind_Ok in Hv as (w & _ & Hv).
  by apply bind_Ok in Hv as (x' & _ & [= <-]).
Qed.

(** What a receipt says of the steps of the plan, in every form *)
Definition receipt_states (payload : pydict) (steps : list pydict) : Prop :=
  get (u "verified") payload = VBool true ∧
  get (u "step_count") payload = VInt (Z.of_nat (length steps)) ∧
  ∃ entries, get (u "steps") payload = VList (VDict <$> entries) ∧
    Forall2 (λ d e, get (u "step_id") e = get (u "step_id") d ∧ get (u "capability") e = get (u "capability") d ∧
      get (u "state") e = get (u "state") d) steps entries.

Lemma form_entries (form : receipt_step → pyval) ds steps :
  (∀ s, ∃ e, form s = VDict e ∧ get (u "step_id") e = rs_step_id s ∧ get (u "capability") e = rs_capability s ∧
    get (u "state") e = rs_state s) →
  Forall2 (λ d s, rs_step_id s = get (u "step_id") d ∧ rs_capability s = get (u "capability") d ∧
    rs_state s = get (u "state") d) ds steps →
  ∃ entries, form <$> steps = VDict <$> entries ∧
    Forall2 (λ d e, get (u "step_id") e = get (u "step_id") d ∧ get (u "capability") e = get (u "capability") d ∧
      get (u "state") e = get (u "state") d) ds entries.
Proof.
  intros Hform. induction 1 as [|d s ds steps (E1 & E2 & E3) _ (entries & E & IH)]; [by exists []|].
  destruct (Hform s) as (e & He & H1 & H2 & H3). exists (e :: entries). split; [by rewrite !fmap_cons, He, E|].
  constructor; [|done]. by rewrite H1, H2, H3.
Qed.

Lemma forms_state ds steps : Forall2 (λ d s, rs_step_id s = get (u "step_id") d ∧
    rs_capability s = get (u "capability") d ∧ rs_state s = get (u "state") d) ds steps →
  Forall (λ p, receipt_states p ds) [rich_receipt steps; compact_receipt steps; minimal_receipt steps].
Proof.
  intros H. pose proof (Forall2_length _ _ _ H) as Hlen.
  assert (∀ form payload, get (u "verified") payload = VBool true →
    get (u "step_count") payload = VInt (Z.of_nat (length steps)) → get (u "steps") payload = VList (form <$> steps) →
    (∀ s, ∃ e, form s = VDict e ∧ get (u "step_id") e = rs_step_id s ∧ get (u "capability") e = rs_capability s ∧
      get (u "state") e = rs_state s) → receipt_states payload ds) as Hs.
  { intros form payload Hv Hc Hl Hform. split_and!; [done|by rewrite Hc, Hlen|].
    destruct (form_entries form ds steps Hform H) as (entries & E & HF). exists entries. by rewrite Hl, E. }
  repeat constructor; (eapply Hs; [reflexivity|reflexivity|reflexivity|]); intros s; by eexists.
Qed.

Lemma forms_no_call steps :
  Forall (λ p, get (u "call_id") p = VNone) [rich_receipt steps; compact_receipt steps; minimal_receipt steps].
Proof. by repeat constructor. Qed.

(** What is recorded: the receipt is the last item of a valid transcript that keeps room for the
    answer, states the final state of every step of the executed plan, and displaces at most the
    records between the request and the latest task plan. *)
Definition receipt_in (items : list WorkingItem) (plan : pydict) (items' : list WorkingItem) : Prop :=
  ∃ steps pre payload, get (u "steps") plan = VList (VDict <$> steps) ∧
    items' = pre ++ [MkItem (Z.of_nat (length pre) + 1) receipt_kind payload] ∧ receipt_states payload steps ∧
    transcript_ok items' ∧
    (pre = items ∨ ∃ x, List.find (is_kind (u "user_input")) items = Some x ∧
                        pre = renumbered (x :: option_list (latest_task_plan items))) ∧
    ∃ m, working_transcript_bytes items' = Ok m ∧ m ≤ receipt_room.

(** What the recording returns has the receipt. *)
Theorem verified_receipt_recorded items plan items' :
  transcript_ok items → _append_verified_effect_receipt items (VDict plan) = Ok items' →
  receipt_in items plan items'.
Proof.
  intros Hok H. unfold _append_verified_effect_receipt in H. cbn [as_dict of_option mbind result_bind] in H.
  apply bind_Ok in H as (x & _ & H). apply bind_Ok in H as (l & Hl%of_option_Ok%as_list_Some & H).
  apply bind_Ok in H as (x' & _ & H). apply bind_Ok in H as (steps & Hs & H).
  destruct (read_steps_dicts _ _ Hs) as (ds & -> & Hds). exists ds.
  destruct (record_receipt_recorded _ _ _ _ Hok (forms_no_call steps) H) as (pre & p & -> & Hp & Hok' & Hpre & Hm).
  pose proof (forms_state _ _ Hds) as Hf. rewrite Forall_forall in Hf.
  exists pre, p. split_and!; [exact Hl|reflexivity|by apply Hf|done| |done].
  destruct Hpre as [->|Hpre]; [by left|]. right. destruct (baseline_Ok _ _ Hok Hpre) as (y & Hy & -> & _). eauto.
Qed.

(** C39: However full the transcript is, the receipt of a well-formed executed plan is recorded
    as soon as its minimal form is within the limit of one item: the result is a valid
    transcript that ends with the receipt, states the final state of every step, keeps the
    records before it (or, when they leave no room, the request and the latest task plan), and
    leaves room for the answer. *)
Theorem receipt_always_recorded items plan l steps n :
  transcript_ok items → is_Some (List.find (is_kind (u "user_input")) items) →
  py_eq (get (u "state") plan) (VStr (u "completed")) = true → get (u "steps") plan = VList l →
  mapR read_receipt_step l = Ok steps → steps ≠ [] →
  json_bytes (VDict (minimal_receipt steps)) = Some n → n ≤ MAX_RESULT_BYTES →
  ∃ items', _append_verified_effect_receipt items (VDict plan) = Ok items' ∧ receipt_in items plan items'.
Proof.
  intros Hok [x Hx] Hstate Hl Hs Hne Hn Hle.
  assert (∃ items', _append_verified_effect_receipt items (VDict plan) = Ok items') as [items' H];
    [|exists items'; split; [exact H|by apply verified_receipt_recorded]].
  unfold _append_verified_effect_receipt.
  cbn [as_dict of_option mbind result_bind]. rewrite Hstate, Hl. cbn [negb raise_when as_list of_option mbind result_bind].
  assert (length l = length steps) as Hlen by by apply mapR_Ok, Forall2_length in Hs.
  rewrite bool_decide_false by (rewrite Hlen; by destruct steps). rewrite Hs. cbn [raise_when mbind result_bind].
  eapply (record_receipt_fits items [] [rich_receipt steps; compact_receipt steps]); [done| |apply forms_no_call|done..].
  unfold _post_effect_transcript_baseline. by rewrite Hx.
Qed.

(** ** Preparation *)

Lemma replans_snoc items x : replans (items ++ [x]) = replans items + (if is_replan x then 1 else 0).
Proof. unfold replans, count_if. rewrite filter_app, length_app, filter_cons. case_decide as E; [rewrite E|destruct (is_replan x)]; simpl; try done; lia. Qed.

Lemma append_prepare_error_Ok items e items' : transcript_ok items → _append_prepare_error items e = Ok items' →
  ∃ payload, items' = items ++ [MkItem (Z.of_nat (length items) + 1) (u "plan_execution_error") payload] ∧
    transcript_ok items' ∧ get (u "replan") payload = VInt (replans items') ∧ replans items' = replans items + 1.
Proof.
  intros Hok H. assert (∃ details, append_working_item items (u "plan_execution_error")
    (prepare_error_payload e details (1 + replans items)) = Ok items' ∧
    (details = [] ∨ details = [(u "details", VDict (se_details e))])) as (details & Ha & Hd).
  { unfold _append_prepare_error in H. destruct (append_working_item _ _ _) as [i|[]] eqn:E; simplify_eq; [by eauto|].
    apply bind_Ok in H as (x & _ & H%map_err_Ok). eauto. }
  destruct (append_Ok _ _ _ _ Hok Ha) as [E Hok']. eexists. split; [exact E|]. rewrite E, replans_snoc.
  assert (∀ n d, is_replan (MkItem n (u "plan_execution_error") d) = true) as -> by done.
  rewrite <- E. split_and!; [done| |lia]. rewrite (Z.add_comm (replans items)). by destruct Hd as [-> | ->].
Qed.

(** The step of a prepared plan is the proposal that the provider made and the host recorded. *)
Definition prepared_as_proposed (proposal : WorkingItem) (step : pydict) : Prop :=
  ∃ call_id capability arguments,
    get (u "call_id") (wi_data proposal) = VStr call_id ∧
    get (u "capability") (wi_data proposal) = VStr capability ∧
    get (u "arguments") (wi_data proposal) = VDict arguments ∧
    get (u "capability") step = VStr capability ∧ py_eq (get (u "arguments") step) (VDict arguments) = true ∧
    (get (u "step_id") step = VNone ∨ get (u "step_id") step = VStr call_id).

Lemma bind_proposal_Ok p s r : bind_proposal p s = Ok r → prepared_as_proposed p s.
Proof.
  intros H. unfold bind_proposal in H.
  apply bind_Ok in H as (call_id & H1%of_option_Ok%as_str_Some & H).
  apply bind_Ok in H as (capability & H2%of_option_Ok%as_str_Some & H).
  apply bind_Ok in H as (arguments & H3%of_option_Ok%as_dict_Some & H).
  apply bind_Ok in H as (x & [H4%negb_false_iff%py_eq_str H5%negb_false_iff]%raise_when_Ok%orb_false_iff & H).
  apply bind_Ok in H as (named & H6%of_option_Ok & H). apply bind_Ok in H as (y & H7%raise_when_Ok%negb_false_iff & _).
  exists call_id, capability, arguments. split_and!; try assumption.
  apply orb_true_iff in H7 as [H7|H7]; [left; by destruct (get (u "step_id") s)|right].
  unfold in_str_set in H6. rewrite H7 in H6. destruct (get (u "step_id") s) as [| | | |t| |]; simpl in H6; try discriminate H6.
  injection H6 as H6%mem_true%list_elem_of_singleton. by rewrite H6.
Qed.

Lemma dicts_of (e : runtime_exn) l steps : mapR (λ v, of_option (as_dict v) e) l = Ok steps → l = VDict <$> steps.
Proof. intros H%mapR_Ok. by induction H as [|v s l steps ->%of_option_Ok%as_dict_Some _ ->]. Qed.
Lemma bound_proposals ps steps bound : length ps = length steps →
  Forall2 (λ x y, bind_proposal x.1 x.2 = Ok y) (zip ps steps) bound → Forall2 prepared_as_proposed ps steps.
Proof.
  revert steps bound. induction ps as [|p ps IH]; intros [|s steps] bound E Hz; simplify_eq/=; [constructor|].
  inversion Hz; subst. constructor; [by eapply bind_proposal_Ok|by eapply IH].
Qed.

(** A prepared plan is recorded only when its one to five steps are, in order, the latest
    proposals of the transcript: the same capability, the same arguments and, where given, the
    call as the step identifier. *)
Theorem prepared_plan_is_proposed items d items' : transcript_ok items →
  _append_plan_prepared items (VDict d) = Ok items' →
  transcript_ok items' ∧ (∃ x, items' = items ++ [x] ∧ wi_kind x = u "plan_prepared") ∧
  ∃ earlier proposals steps,
    List.filter (is_kind (u "plan_step_proposed")) items = earlier ++ proposals ∧
    get (u "steps") d = VList (VDict <$> steps) ∧ (1 ≤ length steps ≤ 5)%nat ∧
    Forall2 prepared_as_proposed proposals steps.
Proof.
  intros Hok H. unfold _append_plan_prepared in H. cbn [as_dict mbind option_bind] in H.
  apply bind_Ok in H as (l & Hl%of_option_Ok%as_list_Some & H). apply bind_Ok in H as (x & Hb%raise_when_Ok & H).
  apply bind_Ok in H as (steps & ->%dicts_of & H). apply bind_Ok in H as (x2 & Hlen%raise_when_Ok & H).
  apply bind_Ok in H as (bound & Hz%mapR_Ok & H%map_err_Ok).
  destruct (append_Ok _ _ _ _ Hok H) as [-> Hok']. split_and!; [done|by eexists|].
  set (all := List.filter _ items) in *. set (n := (length all - length steps)%nat) in *.
  apply Nat.ltb_ge in Hlen. apply orb_false_iff in Hb as [Hb1%bool_decide_eq_false Hb2%Nat.ltb_ge].
  rewrite length_fmap in *. exists (take n all), (drop n all), steps. split_and!; [by rewrite take_drop| |lia|lia|].
  - exact Hl.
  - eapply bound_proposals; [rewrite length_drop; lia|exact Hz].
Qed.

(** ** A turn with one change *)

Definition proposal_data : pydict :=
  [(u "call_id", VStr (u "write-1")); (u "capability", VStr (u "odoo.write")); (u "arguments", VDict [])].
Definition asked_items : list WorkingItem :=
  result_or [] (append_working_item [] (u "user_input") [(u "message", VStr (u "update the partner"))]).
Definition proposed_items : list WorkingItem :=
  result_or [] (append_working_item asked_items (u "plan_step_proposed") proposal_data).
Definition executed_step : pydict :=
  [(u "position", VInt 1); (u "step_id", VStr (u "write-1")); (u "capability", VStr (u "odoo.write"));
   (u "arguments", VDict []); (u "title", VStr (u "Update")); (u "state", VStr (u "completed"));
   (u "result", VDict [(u "outcome", VStr (u "completed")); (u "count", VInt 1)]);
   (u "verification", VDict [(u "verified", VBool true)])].
Definition executed_plan : pydict :=
  [(u "state", VStr (u "completed")); (u "steps", VList [VDict executed_step])].
Definition executed_steps : list receipt_step := result_or [] (mapR read_receipt_step [VDict executed_step]).

Lemma append_or_ok items kind data : transcript_ok items →
  transcript_ok (result_or [] (append_working_item items kind data)).
Proof.
  intros Hok. destruct (append_working_item _ _ _) eqn:E; [by eapply append_Ok|apply empty_ok].
Qed.
Lemma proposed_items_ok : transcript_ok proposed_items.
Proof. repeat apply append_or_ok. apply empty_ok. Qed.

Lemma verified_receipt_recorded_witness :
  ∃ payload, last (result_or [] (_append_verified_effect_receipt proposed_items (VDict executed_plan))) = Some payload ∧
    wi_kind payload = receipt_kind.
Proof.
  destruct (verified_receipt_recorded proposed_items executed_plan
    (result_or [] (_append_verified_effect_receipt proposed_items (VDict executed_plan)))) as (steps & pre & p & _ & E & _).
  - apply proposed_items_ok.
  - vm_compute. reflexivity.
  - rewrite E. eexists. split; [by rewrite last_snoc|reflexivity].
Defined.

Lemma receipt_always_recorded_witness :
  ∃ items', _append_verified_effect_receipt proposed_items (VDict executed_plan) = Ok items' ∧
    receipt_in proposed_items executed_plan items'.
Proof.
  apply (receipt_always_recorded proposed_items executed_plan [VDict executed_step] executed_steps
    (default 0 (json_bytes (VDict (minimal_receipt executed_steps))))).
  - apply proposed_items_ok.
  - vm_compute. eexists. reflexivity.
  - vm_compute. reflexivity.
  - reflexivity.
  - vm_compute. reflexivity.
  - vm_compute. discriminate.
  - vm_compute. reflexivity.
  - vm_compute. discriminate.
Defined.

Definition prepared_plan : pydict :=
  [(u "state", VStr (u "authorized")); (u "requires_confirmation", VBool false);
   (u "steps", VList [VDict executed_step])].
Lemma prepared_plan_is_proposed_witness :
  transcript_ok (result_or [] (_append_plan_prepared proposed_items (VDict prepared_plan))).
Proof.
  refine (proj1 (prepared_plan_is_proposed proposed_items prepared_plan _ _ _)).
  - apply proposed_items_ok.
  - vm_compute. reflexivity.
Defined.
