(* ===== verification/HostLoop.v ===== *)
(** * Host loop: one turn from the request to the answer

    [run_turn] of [models/embedded_runtime_host_loop.py] with [_execute_plan] and
    [_repair_recoverable_plan] of [models/effect_recovery_runtime.py], which overrides the former's,
    and the stop after an effect of [models/turn_control_post_effect.py]: the composition of the turn service ([AgentTurn]) and the plan service ([EffectPlanService])
    around the stored turn.  What the loop does to the stored turn goes through [HostRuntime]; the
    milestones that decide its safety are logged. *)
From S2P Require Import Prelude PyText Regex PyValue Json Failure TurnStore TurnQueue TurnControl.
From S2P Require Import Budgets WorkingTranscript EffectPlan Capability CapabilityRegistry.
From S2P Require Import EffectPlanService EffectPlanApproval AgentDecision AgentTurn HostReceipts.
Local Open Scope Z_scope.

(** [EmbeddedRuntimeError.__init__] *)
Definition embedded_error (code : pystr) : runtime_exn :=
  EmbeddedRuntimeError (if fullmatch (RRep (RSet (lower ++ digit ++ chars (u "_"))) 1 128) code then code
                        else u "runtime_unavailable").

(** ** Outside *)

(** The service that reasons before a plan, after a failed plan, and after an effect. *)
Inductive phase : Type := Reasoning | Repair | Synthesis.
(** Telemetry of a phase; it is silent for a reasoning that never started to work. *)
Inductive milestone : Type := Started | Failed | Completed.

Class HostRuntime (W : Type) := {
  (** [browse(turn_id).exists()] *)
  ht_row : Z → W → result runtime_exn (option turn) * W;
  (** [turn.runtime_control_snapshot]: cancelled, sequence and applied sequence *)
  ht_control : W → result runtime_exn (bool * Z * Z) * W;
  (** [persist_working_transcript], its [RuntimeError] wrapped *)
  ht_persist : list WorkingItem → W → result runtime_exn unit * W;
  ht_capture_navigation : list WorkingItem → W → result runtime_exn unit * W;
  ht_conversation_summary : W → result runtime_exn pystr * W;
  (** The decision engine with its decorators *)
  ht_engine : phase → list WorkingItem → remaining_budget → W → provider_outcome * W;
  ht_work_started : W → result agent_exn unit * W;
  ht_telemetry : phase → milestone → W → result runtime_exn unit * W;
  (** [turn.write], [cr.commit] and [cr.rollback] with the caches *)
  ht_write : list field → W → result runtime_exn unit * W;
  ht_commit : W → result runtime_exn unit * W;
  ht_rollback : W → result runtime_exn unit * W;
  ht_write_barrier : W → result runtime_exn bool * W;
  (** [journal._sync_plan], its [EffectJournalError] wrapped *)
  ht_sync_plan : pyval → W → result runtime_exn unit * W;
  (** [_mark_turn_failure], and whether [_all_turn_effects_rolled_back] *)
  ht_effects_rolled_back : W → result runtime_exn bool * W;
  (** [recovery_checkpoint] of an envelope and a stored transcript.  Both its
      [EmbeddedRuntimeError] and its [EffectJournalError] leave [_execute_plan] with their code, as
      a [CapabilityPlanError] does. *)
  ht_checkpoint : pydict → pyval → checkpoint_stage → plan → unit_ → bool → W → result plan_exn unit * W;
  ht_persist_awaiting_plan : pydict → pydict → W → result runtime_exn unit * W;
  ht_plan_response : pydict → W → result runtime_exn pydict * W;
  ht_read_only_response : AgentTurnResult → W → result runtime_exn pydict * W;
  ht_browser_citations : W → result runtime_exn pyval * W }.

Inductive loop_event : Type :=
| Reasoned (p : phase)
| Preparing (requests : list PlannedCapability)
| Executing (plan : pyval) (human_approved : bool)
| Executed (plan : pyval)
| Awaiting (envelope : pydict).

Record loop (W : Type) := MkLoop { l_world : W; l_log : list loop_event }.
Arguments MkLoop {W}.
Arguments l_world {W}.
Arguments l_log {W}.

(** [except Exception] *)
Definition is_exception (e : runtime_exn) : bool :=
  match e with RuntimeAgent (AgentBaseException _) => false | _ => true end.

(** What an exception of the runtime is to the turn service *)
Definition agent_of_runtime (e : runtime_exn) : agent_exn :=
  match e with
  | EmbeddedRuntimeError code => AgentException (Some code) code
  | RuntimeTranscript e => of_transcript e
  | RuntimeAgent e => e
  | RuntimePlan e => of_capability e
  | RuntimeOther cls => AgentException None cls
  end.

(** The service returns before its fuel ends ([AgentTurnBudgets.run_ends]). *)
Definition decided {A} (r : result agent_exn (option A)) : result agent_exn A :=
  o ← r; of_option o (AgentBaseException (u "fuel")).

Section loop.
Context {W R : Type} (base : AgentHost W R) `{!PlanExecutor W R} `{!HostRuntime W}.
Context (reg : registry) (rg : CapabilityRegistry) (metadata : pydict).
Abbreviation HS := (ST (loop W) runtime_exn).

Definition host_do {A} (f : W → result runtime_exn A * W) : HS A := λ s,
  let '(r, w) := f (l_world s) in (r, MkLoop w (l_log s)).
Definition log_event (e : loop_event) : HS unit := modify (λ s, MkLoop (l_world s) (l_log s ++ [e])).

Definition _ensure_turn_control_current : HS unit :=
  '(cancel, sequence, applied) ← host_do ht_control;
  lift (raise_when cancel (EmbeddedRuntimeError (u "agent_cancelled")));;
  lift (raise_when (negb (sequence =? applied)) (EmbeddedRuntimeError (u "agent_redirected"))).

(** ** The services *)

Definition service_host (p : phase) : AgentHost W R := {|
  ag_result_data := ag_result_data;
  ag_superuser := ag_superuser;
  ag_lang := ag_lang;
  ag_user := ag_user;
  ag_next_decision := ht_engine p;
  ag_persist := Some (λ items w, let '(r, w) := ht_persist items w in (map_err agent_of_runtime r, w));
  ag_cancelled := ag_cancelled;
  ag_work_started := match p with Reasoning => Some ht_work_started | _ => None end;
  ag_execute := ag_execute;
  ag_savepoint := ag_savepoint;
  ag_flush := ag_flush;
  ag_emit := ag_emit |}.
Definition allow_plan_proposals (p : phase) : bool := match p with Synthesis => false | _ => true end.

(** A call of a service: what it returns or raises, and its transcript after it *)
Definition service_call {A} (items : list WorkingItem) (m : ST (agent_run W) agent_exn A)
    : HS (result agent_exn A * list WorkingItem) := λ s,
  let '(r, a) := m (MkAgentRun (l_world s) items false []) in
  (Ok (r, an_items a), MkLoop (an_world a) (l_log s)).

Definition run_service (p : phase) (message : pystr) (items : list WorkingItem)
    : HS (result agent_exn AgentTurnResult * list WorkingItem) :=
  summary ← host_do ht_conversation_summary;
  log_event (Reasoned p);;
  '(r, items) ← service_call items
    (@AgentTurn.run W R (service_host p) rg metadata (allow_plan_proposals p) None message summary);
  mret (decided r, items).
Definition finish_service (p : phase) (items : list WorkingItem) (code : pystr)
    : HS (AgentTurnResult * list WorkingItem) :=
  '(r, items) ← service_call items (@finish_safely W R (service_host p) code);
  r ← lift (map_err RuntimeAgent r);
  mret (r, items).

(** [service.run], the control check where the source has it here, and the references *)
Definition reason (p : phase) (message : pystr) (items : list WorkingItem)
    : HS (AgentTurnResult * list WorkingItem) :=
  '(r, items) ← run_service p message items;
  r ← lift (map_err RuntimeAgent r);
  (match p with Repair => mret tt | _ => _ensure_turn_control_current end);;
  host_do (ht_capture_navigation items);;
  mret (r, items).
(** [except Exception: emit_optional_telemetry(...); raise] *)
Definition reporting {A} (p : phase) (m : HS A) : HS A :=
  catch m (λ e, if is_exception e then host_do (ht_telemetry p Failed);; raise e else raise e).

(** A call of the plan service, and what its exceptions become *)
Definition plans_call {A B} (m : ST (EffectPlanService.run W) plan_exn A)
    (f : result plan_exn A → result runtime_exn B) : HS B := λ s,
  let '(r, t) := m (MkRun (l_world s) []) in (f r, MkLoop (r_world t) (l_log s)).

Definition prepare_plan (requests : list PlannedCapability) : HS (plan + step_error) :=
  log_event (Preparing requests);;
  plans_call (EffectPlanService.prepare reg requests) (λ r,
    match r with
    | Ok p => Ok (inl p)
    | Err (CapabilityPlanStepError code step_id capability phase_ details) =>
        Ok (inr (MkStepError code step_id capability phase_ details))
    | Err e => Err (RuntimePlan e)
    end).

(** ** After an effect *)

Definition set_answer (answer confidence : pystr) (envelope : pydict) : pydict :=
  dict_set (u "confidence") (VStr confidence) (dict_set (u "answer") (VStr answer) envelope).
Definition envelope_plan (envelope : pydict) : result runtime_exn pyval :=
  of_option (dict_lookup (u "plan") envelope) (RuntimeOther (u "KeyError")).

(** The synthesis: its result, or the safe one when the provider failed *)
Definition synthesize (message : pystr) (items : list WorkingItem) : HS (AgentTurnResult * bool) :=
  '(r, items) ← reporting Synthesis (run_service Synthesis message items);
  match r with
  | Err (AgentProviderFailure code) =>
      host_do (ht_telemetry Synthesis Failed);;
      '(r, _) ← finish_service Synthesis items code;
      mret (r, true)
  | _ =>
      reporting Synthesis (
        r ← lift (map_err RuntimeAgent r);
        _ensure_turn_control_current;;
        host_do (ht_capture_navigation items);;
        mret (r, false))
  end.

Definition _continue_after_effect (message : pystr) (lang : option pystr) (completed : pydict)
    (items : list WorkingItem) : HS pydict :=
  plan ← lift (envelope_plan completed);
  incomplete ← lift (incomplete_summary plan);
  match incomplete with
  | Some summary =>
      let answer := incomplete_effect_answer summary (spanish lang) in
      grounded ← lift (map_err RuntimeTranscript (append_working_item items (u "final_answer")
        [(u "answer", VStr answer); (u "confidence", VStr (u "high")); (u "host_grounded_outcome", VBool true)]));
      host_do (ht_persist grounded);;
      host_do (ht_plan_response (set_answer answer (u "high") completed))
  | None =>
      host_do (ht_telemetry Synthesis Started);;
      '(r, failed) ← synthesize message items;
      lift (raise_when (negb (bool_decide (length (tr_plan r) = 0%nat)))
              (EmbeddedRuntimeError (u "agent_post_effect_plan_forbidden")));;
      (if failed : bool then mret tt else host_do (ht_telemetry Synthesis Completed));;
      '(answer, confidence) ← lift (_grounded_post_effect_result plan (tr_answer r) (tr_confidence r) lang);
      host_do (ht_plan_response (set_answer answer confidence completed))
  end.

(** [getattr(error, "code", None)] *)
Definition error_code (e : runtime_exn) : option pystr :=
  match e with
  | EmbeddedRuntimeError code | RuntimeTranscript (WorkingTranscriptError code)
  | RuntimeAgent (AgentTurnError code | AgentProviderFailure code | AgentCapabilityError code _
                  | AgentTranscriptError code)
  | RuntimePlan (CapabilityPlanError code | CapabilityPlanStepError code _ _ _ _ | CapabilityError code _) => Some code
  | RuntimeAgent (AgentException code _) => code
  | _ => None
  end.
Definition stopped_answer : pystr :=
  u "Procesamiento detenido. Los cambios que ya se habían realizado quedaron verificados en Odoo.".
(** The override of [turn_control_post_effect.py]: a stop ends the synthesis and keeps the effects. *)
Definition continue_or_stop (message : pystr) (lang : option pystr) (completed : pydict)
    (items : list WorkingItem) : HS pydict :=
  catch (_continue_after_effect message lang completed items) (λ e,
    if bool_decide (error_code e = Some (u "agent_cancelled")) then
      response ← host_do (ht_plan_response completed);
      mret (dict_set (u "answer") (VStr stopped_answer) response)
    else raise e).

(** ** Execution and repair *)

Definition new_envelope (r : AgentTurnResult) (human_approved : bool) (plan : pyval) : pydict :=
  [(u "format_version", VInt 1); (u "answer", VStr (tr_answer r)); (u "confidence", VStr (tr_confidence r));
   (u "human_approved", VBool human_approved); (u "plan", plan)].

Definition stored_items (items : list WorkingItem) : HS pyval :=
  lift (map_err RuntimeTranscript (transcript_payload items)).

Definition await_approval (envelope : pydict) (items : list WorkingItem) : HS pydict :=
  payload ← stored_items items;
  host_do (ht_write [FWorkingItems payload]);;
  response ← host_do (ht_plan_response envelope);
  log_event (Awaiting envelope);;
  host_do (ht_persist_awaiting_plan envelope response);;
  mret response.

(** [plans.execute] with the checkpoints of the recovery units *)
Definition execute_plan_once (envelope : pydict) (payload : pyval) : HS (plan + step_error) :=
  source ← lift (envelope_plan envelope);
  let human_approved := truthy (get (u "human_approved") envelope) in
  log_event (Executing source human_approved);;
  plans_call (EffectPlanService.execute reg human_approved None (Some (ht_checkpoint envelope payload)) source) (λ r,
    match r with
    | Ok (p, _) => Ok (inl p)
    | Err (CapabilityPlanStepError code step_id capability phase_ details) =>
        Ok (inr (MkStepError code step_id capability phase_ details))
    | Err (CapabilityPlanError code) | Err (CapabilityError code _) => Err (embedded_error code)
    | Err e => Err (RuntimePlan e)
    end).

(** [_execute_plan]: the completed envelope with the receipt, or the error of a step *)
Definition _execute_plan (envelope : pydict) (items : list WorkingItem)
    : HS (pydict * list WorkingItem + step_error) :=
  payload ← stored_items items;
  o ← execute_plan_once envelope payload;
  match o with
  | inr e => mret (inr e)
  | inl p =>
      let executed := plan_payload p in
      log_event (Executed executed);;
      let completed := dict_set (u "plan") executed envelope in
      receipt_items ← lift (_append_verified_effect_receipt items executed);
      host_do (ht_sync_plan executed);;
      payload ← stored_items receipt_items;
      host_do (ht_write [FPlan (VDict completed); FWorkingItems payload]);;
      mret (inl (completed, receipt_items))
  end.

(** The proof that a failed plan had no effect *)
Definition settle_failure (envelope : pydict) (e : step_error) : HS unit :=
  let failed := embedded_error (se_code e) in
  units ← lift (of_option (p ← as_dict (get (u "plan") envelope); as_list (get (u "recovery_units") p)) failed);
  lift (raise_when (bool_decide (length units = 0%nat)) failed);;
  if str_eqb (se_phase e) (u "execution") then
    atomic ← lift (match units with
                   | [VDict x] => Ok (py_eq (get (u "mode") x) (VStr (u "odoo_atomic")))
                   | [_] => Err (RuntimeOther (u "AttributeError"))
                   | _ => Ok false
                   end);
    lift (raise_when (negb atomic) failed);;
    host_do ht_rollback;;
    _ensure_turn_control_current;;
    proven ← host_do ht_effects_rolled_back;
    lift (raise_when (negb proven) failed)
  else
    lift (raise_when (negb (mem (se_phase e) [u "prepare"; u "preflight"])) failed);;
    _ensure_turn_control_current;;
    barrier ← host_do ht_write_barrier;
    lift (raise_when barrier failed).

Definition execution_error_payload (e : step_error) (replan : Z) : pydict :=
  [(u "code", VStr (se_code e)); (u "step_id", VStr (se_step_id e)); (u "capability", VStr (se_capability e));
   (u "phase", VStr (se_phase e)); (u "details", VDict (se_details e)); (u "effect_state", VStr (u "none"));
   (u "rolled_back", VBool (str_eqb (se_phase e) (u "execution"))); (u "replan", VInt replan)].

Inductive job : Type :=
| Execute (envelope : pydict) (items : list WorkingItem)
| RepairPlan (envelope : pydict) (e : step_error) (items : list WorkingItem).

(** [{**prepared, "state": "authorized"}] *)
Definition authorized_plan (prepared : plan) : pyval :=
  plan_payload (MkPlan Authorized (p_requires_confirmation prepared) (p_recovery_units prepared) (p_steps prepared)).

(** What follows the preparation of a repaired plan *)
Definition continue_repaired (envelope : pydict) (r : AgentTurnResult) (p : plan) (items : list WorkingItem)
    : HS (pydict + job) :=
  prepared_items ← lift (_append_plan_prepared items (plan_payload p));
  refines ← lift (map_err RuntimePlan (approval_refines reg (get (u "plan") envelope) (plan_payload p)));
  if refines : bool then
    mret (inr (Execute (new_envelope r (truthy (get (u "human_approved") envelope)) (authorized_plan p)) prepared_items))
  else if p_requires_confirmation p then inl <$> await_approval (new_envelope r false (plan_payload p)) prepared_items
  else mret (inr (Execute (new_envelope r false (plan_payload p)) prepared_items)).

(** [_repair_recoverable_plan]: a response, or what it calls next *)
Definition _repair_recoverable_plan (message : pystr) (max_replans : pyval) (envelope : pydict) (e : step_error)
    (items : list WorkingItem) : HS (pydict + job) :=
  settle_failure envelope e;;
  let replan_count := replans items in
  repaired ← lift (map_err RuntimeTranscript
    (append_working_item items (u "plan_execution_error") (execution_error_payload e (replan_count + 1))));
  payload ← stored_items repaired;
  host_do (ht_write [FWriteBarrier false; FPlan VNone; FWorkingItems payload; FErrorCode None; FFailure VNone]);;
  host_do ht_commit;;
  if match as_int max_replans with Some n => n <=? replan_count | None => true end then
    '(r, _) ← finish_service Repair repaired (se_code e);
    inl <$> host_do (ht_read_only_response r)
  else
    host_do (ht_telemetry Repair Started);;
    '(r, items) ← reporting Repair (reason Repair message repaired);
    _ensure_turn_control_current;;
    host_do (ht_telemetry Repair Completed);;
    if bool_decide (length (tr_plan r) = 0%nat) then inl <$> host_do (ht_read_only_response r)
    else
      o ← prepare_plan (tr_plan r);
      match o with
      | inr e => mret (inr (RepairPlan envelope e items))
      | inl p => continue_repaired envelope r p items
      end.

(** The mutual recursion of the two; [None] when the fuel ends. *)
Fixpoint run_job (message : pystr) (lang : option pystr) (max_replans : pyval) (fuel : nat) (j : job)
    : HS (option pydict) :=
  match fuel with
  | 0%nat => mret None
  | S fuel =>
      match j with
      | Execute envelope items =>
          o ← _execute_plan envelope items;
          match o with
          | inl (completed, items) => Some <$> continue_or_stop message lang completed items
          | inr e => run_job message lang max_replans fuel (RepairPlan envelope e items)
          end
      | RepairPlan envelope e items =>
          o ← _repair_recoverable_plan message max_replans envelope e items;
          match o with
          | inl response => mret (Some response)
          | inr j => run_job message lang max_replans fuel j
          end
      end
  end.

(** Every second call of the recursion is a repair that adds to the failures in the transcript. *)
Definition limit_of (max_replans : pyval) : nat := Z.to_nat (default 0 (as_int max_replans)).
Definition job_fuel (max_replans : pyval) : nat := 2 * limit_of max_replans + 3.

(** ** Preparation *)

(** The [while] loop of [run_turn]; [None] when the fuel ends. *)
Fixpoint prepare_loop (message : pystr) (max_replans : pyval) (fuel : nat) (r : AgentTurnResult)
    (items : list WorkingItem) : HS (option (AgentTurnResult * list WorkingItem * option plan)) :=
  if bool_decide (length (tr_plan r) = 0%nat) then mret (Some (r, items, None))
  else
    match fuel with
    | 0%nat => mret None
    | S fuel =>
        o ← prepare_plan (tr_plan r);
        match o with
        | inl p => mret (Some (r, items, Some p))
        | inr e =>
            repaired ← lift (_append_prepare_error items e);
            host_do (ht_persist repaired);;
            if match as_int max_replans with Some n => n <? replans repaired | None => true end then
              '(r, items) ← finish_service Reasoning repaired (se_code e);
              mret (Some (r, items, None))
            else
              '(r, items) ← reason Reasoning message repaired;
              prepare_loop message max_replans fuel r items
        end
    end.

(** ** The turn *)

(** After the preparation *)
Definition conclude (message : pystr) (lang : option pystr) (max_replans : pyval)
    (o : AgentTurnResult * list WorkingItem * option plan) : HS (option pydict) :=
  let '(r, items, prepared) := o in
  host_do (ht_telemetry Reasoning Completed);;
  if bool_decide (length (tr_plan r) = 0%nat) then
    response ← host_do (ht_read_only_response r);
    citations ← host_do ht_browser_citations;
    mret (Some (dict_set (u "citations") citations response))
  else
    p ← lift (of_option prepared plan_corrupt);
    _ensure_turn_control_current;;
    prepared_items ← lift (_append_plan_prepared items (plan_payload p));
    let envelope := new_envelope r false (plan_payload p) in
    if p_requires_confirmation p then Some <$> await_approval envelope prepared_items
    else run_job message lang max_replans (job_fuel max_replans) (Execute envelope prepared_items).

(** [turn._working_items_from_turn(turn)] *)
Definition items_of_row (row : turn) : result runtime_exn (list WorkingItem) :=
  map_err (λ e, match e with WorkingTranscriptError code => embedded_error code | e => RuntimeTranscript e end)
    (load_working_transcript (t_working_items row)).

(** A redirected turn starts from an empty transcript. *)
Definition starting_items (row : turn) : HS (list WorkingItem) :=
  items ← lift (items_of_row row);
  '(cancel, sequence, applied) ← host_do ht_control;
  lift (raise_when cancel (EmbeddedRuntimeError (u "agent_cancelled")));;
  if applied <? sequence then host_do (ht_persist []);; mret [] else mret items.

Definition run_new (row : turn) (lang : option pystr) (max_replans : pyval) : HS (option pydict) :=
  items ← starting_items row;
  '(r, items) ← reporting Reasoning (reason Reasoning (t_input_message row) items);
  o ← prepare_loop (t_input_message row) max_replans (S (limit_of max_replans)) r items;
  match o with
  | None => mret None
  | Some o => conclude (t_input_message row) lang max_replans o
  end.

Definition stored_envelope (row : turn) : result runtime_exn (option pydict) :=
  map_err (λ e, match e with CodedError code => embedded_error code | _ => RuntimeOther (u "TypeError") end)
    (_plan_envelope (t_plan row)).
(** [envelope["plan"]["state"] == "authorized"] *)
Definition is_authorized (envelope : pydict) : result runtime_exn bool :=
  state ← of_option (p ← as_dict (get (u "plan") envelope); dict_lookup (u "state") p) (RuntimeOther (u "KeyError"));
  Ok (py_eq state (VStr (u "authorized"))).

(** [resolve_capability_policy] and [simple_social_answer] with the language of the turn *)
Context (resolve_policy : pyval → result runtime_exn pydict) (simple_social_answer : pystr → option pystr).

(** After the checks of the binding *)
Definition run_bound (row : turn) (policy : pydict) (lang : option pystr) : HS (option pydict) :=
  let max_replans := get_default (u "max_replans") (VInt 0) policy in
  match simple_social_answer (t_input_message row) with
  | Some answer =>
      _ensure_turn_control_current;;
      Some <$> host_do (ht_read_only_response (MkTurnResult answer (u "high") [] None))
  | None =>
      envelope ← lift (stored_envelope row);
      match envelope with
      | Some e =>
          authorized ← lift (is_authorized e);
          if authorized : bool then
            items ← lift (items_of_row row);
            run_job (t_input_message row) lang max_replans (job_fuel max_replans) (Execute e items)
          else run_new row lang max_replans
      | None => run_new row lang max_replans
      end
  end.

Definition run_turn (superuser : bool) (uid company : Z) (lang : option pystr) (turn_id : Z) (lease_token : pystr)
    : HS (option pydict) :=
  lift (raise_when superuser (RuntimeOther (u "AccessError")));;
  lift (raise_when (turn_id <=? 0) (RuntimeOther (u "ValidationError")));;
  o ← host_do (ht_row turn_id);
  row ← lift (of_option o (RuntimeOther (u "AccessError")));
  lift (raise_when (negb (t_user row =? uid) || negb (t_company row =? company)
                    || negb (bool_decide (t_state row = TRunning))
                    || negb (bool_decide (t_lease_token row = Some lease_token))) (RuntimeOther (u "AccessError")));;
  policy ← lift (resolve_policy (t_policy row));
  run_bound row policy lang.
End loop.
