(* ===== verification/HostLoopFacts.v ===== *)
(** * Host loop: what a turn executes and how it ends

    The milestones of a turn in their order: which plans it executes and on whose authority, that
    nothing but the synthesis follows an effect, that the repairs are bounded, and who answers
    for an incomplete effect. *)
From S2P Require Import Prelude PyText Regex PyValue Json Failure TurnStore TurnQueue TurnControl.
From S2P Require Import Budgets WorkingTranscript EffectPlan Capability CapabilityRegistry.
From S2P Require Import EffectPlanService EffectPlanApproval AgentDecision AgentTurn AgentTurnFacts.
From S2P Require Import AgentTurnBudgets AgentTurnGuards HostReceipts HostReceiptsFacts HostLoop.
Local Open Scope Z_scope.

#[local] Arguments u : simpl never.
#[local] Arguments append_working_item : simpl never.
#[local] Arguments transcript_payload : simpl never.

Section facts.
Context {W R : Type} (base : AgentHost W R) `{!PlanExecutor W R} `{!HostRuntime W}.
Context (reg : registry) (rg : CapabilityRegistry) (metadata : pydict).
Abbreviation HS := (ST (loop W) runtime_exn).
Implicit Types (s : loop W) (P : list loop_event → Prop).

(** ** Statements that log nothing *)

Definition same_events s s' : Prop := l_log s' = l_log s.
#[local] Instance same_events_preorder : PreOrder same_events.
Proof. split; [done|]. intros s1 s2 s3 H1 H2. unfold same_events in *. congruence. Qed.

Lemma host_do_silent {A} (f : W → result runtime_exn A * W) : keeps same_events (host_do f : HS A).
Proof. intros s. unfold host_do. by destruct (f (l_world s)). Qed.
Lemma service_call_silent {A} items (m : ST (agent_run W) agent_exn A) :
  keeps same_events (service_call items m : HS _).
Proof. intros s. unfold service_call. by destruct (m _). Qed.
Lemma plans_call_silent {A B} (m : ST (EffectPlanService.run W) plan_exn A) (f : result plan_exn A → result runtime_exn B) :
  keeps same_events (plans_call m f : HS B).
Proof. intros s. unfold plans_call. by destruct (m _). Qed.
#[local] Hint Resolve host_do_silent service_call_silent plans_call_silent : keeps.

Lemma control_silent : keeps same_events (_ensure_turn_control_current : HS unit).
Proof. unfold _ensure_turn_control_current. apply keeps_bind; [apply _|solve_keeps|intros [[? ?] ?]]. solve_keeps. Qed.
Lemma reporting_silent {A} p (m : HS A) : keeps same_events m → keeps same_events (reporting p m).
Proof. intros Hm. unfold reporting. apply keeps_catch; [apply _|done|intros e]. destruct (is_exception e); solve_keeps. Qed.
#[local] Hint Resolve control_silent : keeps.
Lemma finish_silent p items code : keeps same_events (finish_service base p items code : HS _).
Proof. unfold finish_service. apply keeps_bind; [apply _|solve_keeps|intros [r i]]. solve_keeps. Qed.
Lemma stored_silent items : keeps same_events (stored_items items : HS _).
Proof. unfold stored_items. solve_keeps. Qed.
Lemma settle_silent envelope e : keeps same_events (settle_failure envelope e : HS unit).
Proof. unfold settle_failure. solve_keeps. Qed.
Lemma starting_silent row : keeps same_events (starting_items row : HS _).
Proof.
  unfold starting_items. apply keeps_bind; [apply _|solve_keeps|intros items].
  apply keeps_bind; [apply _|solve_keeps|intros [[? ?] ?]]. solve_keeps.
Qed.
#[local] Hint Resolve finish_silent stored_silent settle_silent starting_silent : keeps.

(** A log predicate through a statement *)
Definition logged P s : Prop := P (l_log s).
Lemma hoare_silent {A} P (m : HS A) : keeps same_events m → hoare (logged P) m (λ _, logged P) (logged P).
Proof.
  intros Hm s Hs. specialize (Hm s). unfold logged, same_events in *. destruct (m s) as [[a|e] s']; simpl in *; by rewrite Hm.
Qed.
Lemma hoare_event P e X : hoare (logged (λ l, P (l ++ [e]))) (log_event e : HS unit) (λ _, logged P) X.
Proof. by intros s Hs. Qed.

(** A statement that logs nothing, before another *)
Lemma hoare_then {A B} P (m : HS A) (f : A → HS B) Q (X : loop W → Prop) :
  keeps same_events m → (∀ s, logged P s → X s) → (∀ a, hoare (logged P) (f a) Q X) →
  hoare (logged P) (m ≫= f) Q X.
Proof.
  intros Hm HX Hf. eapply hoare_bind; [|exact Hf].
  eapply hoare_conseq; [by apply (hoare_silent P)|done|done|exact HX].
Qed.
Lemma hoare_last {A} P (m : HS A) (X : loop W → Prop) :
  keeps same_events m → (∀ s, logged P s → X s) → hoare (logged P) m (λ _, logged P) X.
Proof. intros Hm HX. eapply hoare_conseq; [by apply (hoare_silent P)|done|done|exact HX]. Qed.

(** ** Authority *)

(** The last milestone is a preparation, and it gave this plan. *)
Definition fresh (log : list loop_event) (p : plan) : Prop := ∃ requests w t,
  last log = Some (Preparing requests) ∧ EffectPlanService.prepare reg requests (MkRun w []) = (Ok p, t).

(** A plan the turn may execute after the milestones [log], and whether as approved by a human:
    the approved plan that is stored, before anything else; a plan just prepared that needs no
    confirmation; or one just prepared that refines a plan the turn tried to execute, with the
    approval of that plan. *)
Inductive authorised (row : turn) (log : list loop_event) : pyval → bool → Prop :=
| auth_stored envelope plan :
    log = [] → stored_envelope row = Ok (Some envelope) → is_authorized envelope = Ok true →
    dict_lookup (u "plan") envelope = Some plan →
    authorised row log plan (truthy (get (u "human_approved") envelope))
| auth_unconfirmed p :
    fresh log p → p_requires_confirmation p = false → authorised row log (plan_payload p) false
| auth_refined source approved p :
    fresh log p → Executing source approved ∈ log → approval_refines reg source (plan_payload p) = Ok true →
    authorised row log (authorized_plan p) approved.

Context (row : turn).
(** The plan of the envelope may be executed now. *)
Definition envelope_at (log : list loop_event) (envelope : pydict) : Prop := ∀ plan,
  dict_lookup (u "plan") envelope = Some plan → authorised row log plan (truthy (get (u "human_approved") envelope)).
(** The turn tried to execute the plan of the envelope. *)
Definition tried (envelope : pydict) (log : list loop_event) : Prop := ∀ plan,
  dict_lookup (u "plan") envelope = Some plan → Executing plan (truthy (get (u "human_approved") envelope)) ∈ log.
Definition job_at (j : job) (log : list loop_event) : Prop :=
  match j with Execute envelope _ => envelope_at log envelope | RepairPlan envelope _ _ => tried envelope log end.

Lemma new_envelope_at log r h plan : authorised row log plan h → envelope_at log (new_envelope r h plan).
Proof. intros H plan' E. assert (dict_lookup (u "plan") (new_envelope r h plan) = Some plan) as E' by reflexivity.
  rewrite E' in E. injection E as <-. exact H. Qed.
Lemma refined_at log r envelope p : tried envelope log → fresh log p →
  approval_refines reg (get (u "plan") envelope) (plan_payload p) = Ok true →
  envelope_at log (new_envelope r (truthy (get (u "human_approved") envelope)) (authorized_plan p)).
Proof.
  intros He Hf Hr. apply new_envelope_at. unfold get in Hr. destruct (dict_lookup (u "plan") envelope) as [plan|] eqn:E.
  - by eapply auth_refined; [|apply He|].
  - by vm_compute in Hr.
Qed.
Lemma tried_snoc envelope log e : tried envelope log → tried envelope (log ++ [e]).
Proof. intros H plan Hp. apply elem_of_app. left. by apply H. Qed.

(** ** The course of a turn *)

(** Before an effect: the work of the services, preparations, and executions of authorised plans
    that failed *)
Definition before (pre : list loop_event) (e : loop_event) : Prop :=
  match e with
  | Reasoned p => p ≠ Synthesis
  | Preparing _ => True
  | Executing plan approved => authorised row pre plan approved
  | Executed _ | Awaiting _ => False
  end.
Definition synthesis (e : loop_event) : Prop := e = Reasoned Synthesis.
(** How it ends: without an effect, with a plan just prepared that waits for a human, or with one
    effect and its synthesis *)
Inductive ending (pre : list loop_event) : list loop_event → Prop :=
| ends_without : ending pre []
| ends_waiting r p : fresh pre p → p_requires_confirmation p = true →
    ending pre [Awaiting (new_envelope r false (plan_payload p))]
| ends_applied plan approved p answer : authorised row pre plan approved → Forall synthesis answer →
    ending pre (Executing plan approved :: Executed (plan_payload p) :: answer).
Definition quiet_log (log : list loop_event) : Prop := grows before log.
Definition course (log : list loop_event) : Prop := ∃ pre post, log = pre ++ post ∧ quiet_log pre ∧ ending pre post.
Definition applied (log : list loop_event) : Prop := ∃ pre plan approved p answer,
  log = pre ++ Executing plan approved :: Executed (plan_payload p) :: answer ∧ quiet_log pre ∧
  authorised row pre plan approved ∧ Forall synthesis answer.
Definition executing (source : pyval) (approved : bool) (log : list loop_event) : Prop := ∃ pre,
  log = pre ++ [Executing source approved] ∧ quiet_log pre ∧ authorised row pre source approved.

Lemma quiet_course log : quiet_log log → course log.
Proof. intros H. exists log, []. rewrite app_nil_r. split_and!; [done|done|constructor]. Qed.
Lemma applied_course log : applied log → course log.
Proof. intros (pre & plan & a & p & answer & -> & H1 & H2 & H3). eexists pre, _. split_and!; [done|done|by constructor]. Qed.
Lemma quiet_snoc log e : before log e → quiet_log log → quiet_log (log ++ [e]).
Proof. intros He H. by apply grows_snoc. Qed.
Lemma executing_quiet source a log : executing source a log → quiet_log log.
Proof. intros (pre & -> & H1 & H2). by apply quiet_snoc. Qed.
Lemma executing_course source a log : executing source a log → course log.
Proof. by intros ?%executing_quiet%quiet_course. Qed.
Lemma applied_snoc log : applied log → applied (log ++ [Reasoned Synthesis]).
Proof.
  intros (pre & plan & a & p & answer & -> & H1 & H2 & H3). exists pre, plan, a, p, (answer ++ [Reasoned Synthesis]).
  rewrite <- app_assoc. split_and!; [done..|]. apply Forall_app. split; [done|]. by constructor.
Qed.
#[local] Hint Resolve quiet_course applied_course executing_course executing_quiet : core.
Abbreviation Done := (logged course).

(** Nothing was applied. *)
Definition unapplied (log : list loop_event) : Prop := course log ∧ ∀ p, Executed p ∉ log.
Lemma before_unapplied log p : quiet_log log → Executed p ∉ log.
Proof. intros H [i Hi]%list_elem_of_lookup. exact (H i _ Hi). Qed.
Lemma quiet_unapplied log : quiet_log log → unapplied log.
Proof. intros H. split; [by apply quiet_course|]. intros p. by apply before_unapplied. Qed.
Lemma waiting_unapplied r p log : p_requires_confirmation p = true → quiet_log log ∧ fresh log p →
  unapplied (log ++ [Awaiting (new_envelope r false (plan_payload p))]).
Proof.
  intros Hp [H Hf]. split; [exists log, [Awaiting (new_envelope r false (plan_payload p))]; split_and!; [done|done|by constructor]|].
  intros q [Hq|Hq%list_elem_of_singleton]%elem_of_app; [by eapply before_unapplied|done].
Qed.

(** The response to a user who stopped the turn after its effect *)
Definition answered_stop (plan : pyval) (response : pydict) : Prop := ∃ envelope w w' shown,
  ht_plan_response envelope w = (Ok shown, w') ∧ get (u "plan") envelope = plan ∧
  response = dict_set (u "answer") (VStr stopped_answer) shown.
(** For an incomplete effect the host answers: after it no service runs, and the response is made
    of the counts of the executed plan, unless the user stopped the turn. *)
Definition host_answered (lang : option pystr) (response : pydict) (log : list loop_event) : Prop :=
  ∀ pre plan post summary, log = pre ++ Executed plan :: post → incomplete_summary plan = Ok (Some summary) →
  post = [] ∧ (answered_stop plan response ∨ ∃ envelope w w', ht_plan_response envelope w = (Ok response, w') ∧
    get (u "answer") envelope = VStr (incomplete_effect_answer summary (spanish lang)) ∧
    get (u "confidence") envelope = VStr (u "high") ∧ get (u "plan") envelope = plan).
Definition finished (lang : option pystr) (o : option pydict) s : Prop :=
  course (l_log s) ∧ ∀ response, o = Some response → host_answered lang response (l_log s).
Lemma unapplied_finished lang o s : logged unapplied s → finished lang o s.
Proof.
  intros [Hc Hn]. split; [done|]. intros response _ pre plan post summary E. destruct (Hn plan).
  rewrite E. apply elem_of_app. right. by left.
Qed.
Lemma none_finished lang s : Done s → finished lang None s.
Proof. by split. Qed.

(** *** The services *)

Lemma get_set_answer answer confidence envelope :
  get (u "answer") (set_answer answer confidence envelope) = VStr answer ∧
  get (u "confidence") (set_answer answer confidence envelope) = VStr confidence ∧
  get (u "plan") (set_answer answer confidence envelope) = get (u "plan") envelope.
Proof.
  unfold get, set_answer. rewrite dict_lookup_set_eq, !(dict_lookup_set_ne (u "confidence")), !dict_lookup_set_eq,
    !(dict_lookup_set_ne (u "answer")) by by vm_compute. done.
Qed.

Lemma run_service_events P p message items (X : loop W → Prop) :
  (∀ l, P l → P (l ++ [Reasoned p])) → (∀ s, logged P s → X s) →
  hoare (logged P) (run_service base rg metadata p message items : HS _) (λ _, logged P) X.
Proof.
  intros Hp HX. unfold run_service. apply hoare_then; [solve_keeps|done|intros summary].
  eapply hoare_bind; [eapply hoare_conseq; [apply (hoare_event P)|intros s; apply Hp|done|by intros s H; exact H]|].
  intros []. apply hoare_then; [solve_keeps|done|intros [r i]]. apply hoare_last; [solve_keeps|done].
Qed.
Lemma reason_events P p message items (X : loop W → Prop) :
  (∀ l, P l → P (l ++ [Reasoned p])) → (∀ s, logged P s → X s) →
  hoare (logged P) (reason base rg metadata p message items : HS _) (λ _, logged P) X.
Proof.
  intros Hp HX. unfold reason. eapply hoare_bind; [by apply run_service_events|]. intros [r i].
  apply hoare_bind_lift; [exact HX|intros a _]. apply hoare_then; [destruct p; solve_keeps|exact HX|intros []].
  apply hoare_last; [solve_keeps|exact HX].
Qed.
Lemma reporting_events {A} P p (m : HS A) (X : loop W → Prop) :
  hoare (logged P) m (λ _, logged P) (logged P) → (∀ s, logged P s → X s) →
  hoare (logged P) (reporting p m) (λ _, logged P) X.
Proof.
  intros Hm HX. unfold reporting. eapply hoare_catch; [exact Hm|]. intros e.
  destruct (is_exception e); [|by apply hoare_raise].
  apply hoare_then; [solve_keeps|exact HX|intros []]. by apply hoare_raise.
Qed.
(** A preparation that gives a plan is its last milestone. *)
Definition prepared_or_failed (P : list loop_event → Prop) (o : plan + step_error) : loop W → Prop :=
  match o with inl p => logged (λ l, P l ∧ fresh l p) | inr _ => logged P end.
Lemma prepare_events P requests (X : loop W → Prop) :
  (∀ l, P l → P (l ++ [Preparing requests])) → (∀ s, logged P s → X s) →
  hoare (logged P) (prepare_plan reg requests : HS _) (prepared_or_failed P) X.
Proof.
  intros HP HX s Hs%HP. unfold prepare_plan. rewrite ST_bind_at. cbn [log_event modify fst snd].
  unfold plans_call. cbn [l_world l_log].
  destruct (EffectPlanService.prepare reg requests (MkRun (l_world s) [])) as [[p|e] t] eqn:E.
  - split; [exact Hs|]. exists requests, (l_world s), t. split; [|exact E]. simpl. by rewrite last_snoc.
  - destruct e; try (apply HX; exact Hs). exact Hs.
Qed.

(** *** After an effect *)

Lemma synthesize_events P message items (X : loop W → Prop) :
  (∀ l, P l → P (l ++ [Reasoned Synthesis])) → (∀ s, logged P s → X s) →
  hoare (logged P) (synthesize base rg metadata message items : HS _) (λ _, logged P) X.
Proof.
  intros HP HX. unfold synthesize. eapply hoare_bind; [apply (reporting_events P); [|exact HX]|].
  - by apply run_service_events.
  - intros [r i]. assert (∀ r', hoare (logged P) (reporting Synthesis (
        r ← lift (map_err RuntimeAgent (r' : result agent_exn AgentTurnResult));
        _ensure_turn_control_current;; host_do (ht_capture_navigation i);; mret (r, false)) : HS _) (λ _, logged P) X) as Hr.
    { intros r'. apply reporting_events; [|exact HX]. apply hoare_bind_lift; [done|intros a _]. apply hoare_last; [solve_keeps|done]. }
    destruct r as [r|[code|code|code d|code|c m|cls]]; try apply (Hr (Ok r)); try exact (Hr (Err _)).
    apply hoare_then; [solve_keeps|exact HX|intros []]. apply hoare_then; [solve_keeps|exact HX|intros [r j]].
    by apply hoare_ret.
Qed.
Lemma continue_events P message lang completed items (X : loop W → Prop) :
  (∀ l, P l → P (l ++ [Reasoned Synthesis])) → (∀ s, logged P s → X s) →
  hoare (logged P) (_continue_after_effect base rg metadata message lang completed items : HS _) (λ _, logged P) X.
Proof.
  intros HP HX.
  unfold _continue_after_effect. do 2 (apply hoare_bind_lift; [exact HX|intros ? _]). destruct a0 as [summary|].
  - apply hoare_last; [solve_keeps|exact HX].
  - apply hoare_then; [solve_keeps|exact HX|intros []]. eapply hoare_bind; [by apply synthesize_events|]. intros [r failed].
    apply hoare_last; [|exact HX]. apply keeps_bind; [apply _|solve_keeps|intros []].
    apply keeps_bind; [apply _|destruct failed; solve_keeps|intros []].
    apply keeps_bind; [apply _|solve_keeps|intros [answer confidence]; solve_keeps].
Qed.

(** *** Execution and repair *)

Lemma await_events r p items : p_requires_confirmation p = true →
  hoare (logged (λ l, quiet_log l ∧ fresh l p)) (await_approval (new_envelope r false (plan_payload p)) items : HS _) (λ _, logged unapplied) Done.
Proof.
  intros Hp. assert (∀ s, logged (λ l, quiet_log l ∧ fresh l p) s → Done s) as HX by (intros s [H _]; by apply quiet_course).
  unfold await_approval. do 3 (apply hoare_then; [solve_keeps|exact HX|intros ?]).
  eapply hoare_bind; [eapply hoare_conseq; [apply (hoare_event unapplied)| |done|by intros s H; exact H]|].
  - intros s Hs. by apply waiting_unapplied.
  - intros []. apply hoare_last; [solve_keeps|by intros s []].
Qed.

(** The last milestone is the effect of the plan of the envelope. *)
Definition just_applied (completed : pydict) (log : list loop_event) : Prop := ∃ pre plan approved p,
  log = pre ++ [Executing plan approved; Executed (plan_payload p)] ∧ quiet_log pre ∧
  authorised row pre plan approved ∧ dict_lookup (u "plan") completed = Some (plan_payload p).
Lemma just_applied_applied completed log : just_applied completed log → applied log.
Proof. intros (pre & plan & a & p & -> & H1 & H2 & _). exists pre, plan, a, p, []. split_and!; [done..|constructor]. Qed.
Definition failed_trying (envelope : pydict) (log : list loop_event) : Prop := quiet_log log ∧ tried envelope log.
Definition executed_or_failed (envelope : pydict) (o : pydict * list WorkingItem + step_error) : loop W → Prop :=
  match o with inl (completed, _) => logged (just_applied completed) | inr _ => logged (failed_trying envelope) end.
Lemma executing_tried envelope source log : dict_lookup (u "plan") envelope = Some source →
  executing source (truthy (get (u "human_approved") envelope)) log → failed_trying envelope log.
Proof.
  intros Hs H. split; [by eapply executing_quiet|]. destruct H as (pre & -> & _). intros plan Hp.
  rewrite Hs in Hp. injection Hp as ->. apply elem_of_app. right. by left.
Qed.
Lemma execute_once_events envelope payload :
  hoare (logged (λ l, quiet_log l ∧ envelope_at l envelope)) (execute_plan_once reg envelope payload : HS _)
    (λ _ s, ∃ source, dict_lookup (u "plan") envelope = Some source ∧
              executing source (truthy (get (u "human_approved") envelope)) (l_log s)) Done.
Proof.
  unfold execute_plan_once. apply hoare_bind_lift; [intros s [H _]; by apply quiet_course|intros source Hs].
  unfold envelope_plan in Hs. apply of_option_Ok in Hs.
  eapply hoare_bind; [eapply hoare_conseq; [apply (hoare_event (executing source (truthy (get (u "human_approved") envelope))))| |done|by intros s H; exact H]|].
  - intros s [Hq He]. exists (l_log s). split_and!; [done|exact Hq|by apply He].
  - intros []. eapply hoare_conseq; [apply (hoare_last (executing source (truthy (get (u "human_approved") envelope))) _ Done); [solve_keeps|]
      |done|intros a s H; by exists source|done]. intros s. apply executing_course.
Qed.
Lemma execute_events envelope items :
  hoare (logged (λ l, quiet_log l ∧ envelope_at l envelope)) (_execute_plan reg envelope items : HS _)
    (executed_or_failed envelope) Done.
Proof.
  unfold _execute_plan. apply hoare_then; [solve_keeps|intros s [H _]; by apply quiet_course|intros payload].
  eapply hoare_bind; [apply execute_once_events|].
  intros [p|e]; [|apply hoare_ret; intros s (source & Hs & H); by eapply executing_tried].
  set (completed := dict_set _ _ _).
  eapply hoare_bind; [eapply hoare_conseq; [apply (hoare_event (just_applied completed))| |done|by intros s H; exact H]|].
  - intros s (source & _ & pre & E & H1 & H2). eexists pre, source, _, p.
    unfold logged in *. rewrite E, <- app_assoc. split_and!; [done..|apply dict_lookup_set_eq].
  - intros []. assert (∀ s, logged (just_applied completed) s → Done s) as HA by (intros s ?%just_applied_applied; by apply applied_course).
    apply hoare_bind_lift; [exact HA|intros r _].
    do 3 (apply hoare_then; [solve_keeps|exact HA|intros ?]). by apply hoare_ret.
Qed.

Definition repaired_or_done (o : pydict + job) : loop W → Prop :=
  match o with inl _ => logged unapplied | inr j => logged (λ l, quiet_log l ∧ job_at j l) end.
Lemma repaired_events envelope r p items :
  hoare (logged (λ l, failed_trying envelope l ∧ fresh l p)) (continue_repaired reg envelope r p items : HS _)
    repaired_or_done Done.
Proof.
  assert (∀ s, logged (λ l, failed_trying envelope l ∧ fresh l p) s → Done s) as HX by (intros s [[H _] _]; by apply quiet_course).
  unfold continue_repaired. apply hoare_bind_lift; [exact HX|intros i _].
  apply hoare_bind_lift; [exact HX|intros refines Hr]. rewrite map_err_Ok in Hr. destruct refines.
  - apply hoare_ret. intros s [[Hq Ht] Hf]. split; [exact Hq|]. by apply refined_at.
  - destruct (p_requires_confirmation p) eqn:Hp.
    + intros s [[Hq _] Hf]. pose proof (await_events r p i Hp s (conj Hq Hf)) as H. unfold fmap, ST_fmap.
      by destruct (await_approval _ _ s) as [[a|e] s'].
    + apply hoare_ret. intros s [[Hq _] Hf]. split; [exact Hq|]. by apply new_envelope_at, auth_unconfirmed.
Qed.

(** A final read-only response *)
Lemma read_only_events (m : HS pydict) P (Q : pydict + job → loop W → Prop) (X : loop W → Prop) :
  keeps same_events m → (∀ r s, logged P s → Q (inl r) s) → (∀ s, logged P s → X s) → hoare (logged P) (inl <$> m) Q X.
Proof.
  intros Hm HQ HX s Hs. specialize (Hm s). unfold fmap, ST_fmap, logged, same_events in *.
  destruct (m s) as [[a|e] s']; simpl in *; [apply HQ|apply HX]; by rewrite Hm.
Qed.
Lemma repair_events message max_replans envelope e items :
  hoare (logged (failed_trying envelope)) (_repair_recoverable_plan base reg rg metadata message max_replans envelope e items : HS _)
    repaired_or_done Done.
Proof.
  assert (∀ s, logged (failed_trying envelope) s → Done s) as HX by (intros s [H _]; by apply quiet_course).
  assert (∀ e l, (∀ l, before l e) → failed_trying envelope l → failed_trying envelope (l ++ [e])) as Hsnoc.
  { intros e' l He [H1 H2]. split; [by apply quiet_snoc|by apply tried_snoc]. }
  unfold _repair_recoverable_plan. apply hoare_then; [solve_keeps|exact HX|intros []].
  apply hoare_bind_lift; [exact HX|intros repaired _]. do 3 (apply hoare_then; [solve_keeps|exact HX|intros ?]).
  destruct (match as_int max_replans with Some _ => _ | None => _ end).
  - apply hoare_then; [solve_keeps|exact HX|intros [r i]].
    apply (read_only_events _ (failed_trying envelope)); [solve_keeps|intros r' s [H _]; by apply quiet_unapplied|exact HX].
  - apply hoare_then; [solve_keeps|exact HX|intros ?].
    eapply hoare_bind; [apply (reporting_events (failed_trying envelope)); [|exact HX]|].
    { apply reason_events; [|done]. intros l. by apply Hsnoc. }
    intros [r i]. do 2 (apply hoare_then; [solve_keeps|exact HX|intros ?]). destruct (bool_decide _).
    + apply (read_only_events _ (failed_trying envelope)); [solve_keeps|intros r' s [H _]; by apply quiet_unapplied|exact HX].
    + eapply hoare_bind; [by apply (prepare_events (failed_trying envelope)); [intros l; by apply Hsnoc|]|].
      intros [p|e']; [by apply repaired_events|]. by apply hoare_ret.
Qed.

(** The effect of an executed plan is where the log ends. *)
Lemma applied_last pre0 plan0 a0 p0 pre plan post : quiet_log pre0 → authorised row pre0 plan0 a0 →
  pre0 ++ [Executing plan0 a0; Executed p0] = pre ++ Executed plan :: post → post = [] ∧ plan = p0.
Proof.
  intros H1 H2 E. change (pre0 ++ [Executing plan0 a0; Executed p0]) with (pre0 ++ [Executing plan0 a0] ++ [Executed p0]) in E.
  rewrite app_assoc in E. destruct post as [|x post _] using rev_ind.
  - apply app_inj_tail in E as [_ [= ->]]. done.
  - rewrite app_comm_cons, app_assoc in E. apply app_inj_tail in E as [E _]. exfalso.
    apply (before_unapplied (pre0 ++ [Executing plan0 a0]) plan); [by apply quiet_snoc|].
    rewrite E. apply elem_of_app. right. by left.
Qed.
Definition answered_after (start log : list loop_event) : Prop := ∃ answer, log = start ++ answer ∧ Forall synthesis answer.
Lemma answered_now log : answered_after log log.
Proof. exists []. by rewrite app_nil_r. Qed.
Lemma answered_snoc start log : answered_after start log → answered_after start (log ++ [Reasoned Synthesis]).
Proof.
  intros (answer & -> & H). exists (answer ++ [Reasoned Synthesis]). rewrite app_assoc. split; [done|].
  apply Forall_app. split; [done|]. by constructor.
Qed.
(** When the outcome is incomplete, neither the host's answer nor the stop runs a service. *)
Lemma incomplete_silent message lang completed items plan summary :
  dict_lookup (u "plan") completed = Some plan → incomplete_summary plan = Ok (Some summary) →
  keeps same_events (_continue_after_effect base rg metadata message lang completed items : HS _).
Proof.
  intros Hp Hs. unfold _continue_after_effect, envelope_plan. rewrite Hp.
  apply keeps_bind_lift; [apply _|intros a [= <-]]. rewrite Hs. apply keeps_bind_lift; [apply _|intros a [= <-]].
  solve_keeps.
Qed.
Lemma stop_silent completed : keeps same_events (
    response ← host_do (ht_plan_response completed);
    mret (dict_set (u "answer") (VStr stopped_answer) response) : HS pydict).
Proof. solve_keeps. Qed.
Lemma or_stop_silent message lang completed items :
  keeps same_events (_continue_after_effect base rg metadata message lang completed items : HS _) →
  keeps same_events (continue_or_stop base rg metadata message lang completed items : HS _).
Proof.
  intros H. unfold continue_or_stop. apply keeps_catch; [apply _|done|intros e].
  destruct (bool_decide _); [apply stop_silent|solve_keeps].
Qed.
Lemma or_stop_events P message lang completed items (X : loop W → Prop) :
  (∀ l, P l → P (l ++ [Reasoned Synthesis])) → (∀ s, logged P s → X s) →
  hoare (logged P) (continue_or_stop base rg metadata message lang completed items : HS _) (λ _, logged P) X.
Proof.
  intros HP HX. unfold continue_or_stop. eapply (hoare_catch _ _ _ (logged P)); [by apply (continue_events P)|]. intros e.
  destruct (bool_decide _); [apply hoare_last; [apply stop_silent|exact HX]|by apply hoare_raise].
Qed.
(** The answer for an incomplete outcome, with or without a stop *)
Lemma incomplete_answer message lang completed items plan summary s response s' :
  dict_lookup (u "plan") completed = Some plan → incomplete_summary plan = Ok (Some summary) →
  _continue_after_effect base rg metadata message lang completed items s = (Ok response, s') →
  ∃ envelope w w', ht_plan_response envelope w = (Ok response, w') ∧
    get (u "answer") envelope = VStr (incomplete_effect_answer summary (spanish lang)) ∧
    get (u "confidence") envelope = VStr (u "high") ∧ get (u "plan") envelope = plan.
Proof.
  intros Hp Hs H. unfold _continue_after_effect, envelope_plan in H. rewrite Hp in H.
  apply ST_bind_Ok in H as (? & s1 & [[= <-] ->]%lift_Ok & H).
  rewrite Hs in H. apply ST_bind_Ok in H as (? & s1 & [[= <-] ->]%lift_Ok & H).
  apply ST_bind_Ok in H as (g & s3 & _ & H). apply ST_bind_Ok in H as (x & s4 & _ & H).
  unfold host_do in H. destruct (ht_plan_response _ (l_world s4)) as [[resp|e] w] eqn:Hw; [|done].
  injection H as -> _. eexists _, _, _. split_and!; [exact Hw|by apply get_set_answer..|].
  unfold get, set_answer. by rewrite !dict_lookup_set_ne, Hp by by vm_compute.
Qed.
Lemma stop_answer message lang completed items plan s response s' :
  dict_lookup (u "plan") completed = Some plan →
  continue_or_stop base rg metadata message lang completed items s = (Ok response, s') →
  _continue_after_effect base rg metadata message lang completed items s = (Ok response, s') ∨
  answered_stop plan response.
Proof.
  intros Hp H. unfold continue_or_stop, catch in H. destruct (_continue_after_effect _ _ _ _ _ _ _ s) as [[a|e] s1]; [by left|].
  right. destruct (bool_decide _); [|done]. apply ST_bind_Ok in H as (shown & s2 & Hw & [= <- <-]).
  unfold host_do in Hw. destruct (ht_plan_response completed (l_world s1)) as [[x|] w] eqn:E; [|done].
  injection Hw as -> _. eexists _, _, _, _. split_and!; [exact E| |reflexivity]. unfold get. by rewrite Hp.
Qed.
Lemma continue_answers message lang completed items s response s' : logged (just_applied completed) s →
  continue_or_stop base rg metadata message lang completed items s = (Ok response, s') →
  host_answered lang response (l_log s').
Proof.
  intros (pre0 & plan0 & a0 & p & E & H1 & H2 & Hp) H pre plan post summary El Hsum.
  pose proof (or_stop_events (answered_after (l_log s)) message lang completed items _ (answered_snoc _)
    (λ s Hs, Hs) s (answered_now _)) as Ha. rewrite H in Ha. destruct Ha as (answer & Ea & Ha).
  assert (plan = plan_payload p) as ->.
  { rewrite Ea, E in El.
    assert (Executed plan ∈ pre0 ++ [Executing plan0 a0; Executed (plan_payload p)] ++ answer) as Hin.
    { rewrite app_assoc, El. apply elem_of_app. right. by left. }
    rewrite Forall_forall in Ha. apply elem_of_app in Hin as [Hin|[[Hin|[Hin|Hin]%elem_of_cons]%elem_of_cons|Hin]%elem_of_app].
    - by destruct (before_unapplied pre0 plan H1).
    - done.
    - by injection Hin as ->.
    - by apply elem_of_nil in Hin.
    - by apply Ha in Hin. }
  pose proof (or_stop_silent _ _ _ _ (incomplete_silent message lang completed items _ _ Hp Hsum) s) as Es.
  rewrite H in Es. unfold same_events in Es. simpl in Es. rewrite Es, E in El.
  split; [by destruct (applied_last _ _ _ _ _ _ _ H1 H2 El)|].
  destruct (stop_answer _ _ _ _ _ _ _ _ Hp H) as [Hc|Hc]; [right|by left]. by eapply incomplete_answer.
Qed.

Lemma run_job_events message lang max_replans fuel j :
  hoare (logged (λ l, quiet_log l ∧ job_at j l)) (run_job base reg rg metadata message lang max_replans fuel j : HS _) (finished lang) Done.
Proof.
  revert j. induction fuel as [|fuel IH]; intros j; cbn [run_job];
    [apply hoare_ret; intros s [?%quiet_course _]; by apply none_finished|].
  destruct j as [envelope items|envelope e items]; simpl.
  - eapply hoare_bind; [by apply execute_events|]. intros [[completed i]|e]; [|exact (IH (RepairPlan envelope e items))].
    intros s Hs. pose proof (or_stop_events applied message lang completed i Done applied_snoc (λ s, applied_course _) s (just_applied_applied _ _ Hs)) as H. unfold fmap, ST_fmap.
    destruct (continue_or_stop _ _ _ _ _ _ _ s) as [[a|e] s'] eqn:Hc; [|done].
    split; [by apply applied_course|]. intros response [= <-]. by eapply continue_answers.
  - eapply hoare_bind; [apply repair_events|]. intros [response|j]; [apply hoare_ret; intros s; apply unapplied_finished|].
    exact (IH j).
Qed.

(** *** The whole turn *)

(** The plan that the loop returns was just prepared. *)
Definition loop_result (o : option (AgentTurnResult * list WorkingItem * option plan)) (log : list loop_event) : Prop :=
  quiet_log log ∧ ∀ r items p, o = Some (r, items, Some p) → fresh log p.
Lemma prepare_loop_events message max_replans fuel r items :
  hoare (logged quiet_log) (prepare_loop base reg rg metadata message max_replans fuel r items : HS _)
    (λ o, logged (loop_result o)) Done.
Proof.
  assert (∀ s, logged quiet_log s → Done s) as HX by (intros s; apply quiet_course).
  revert r items. induction fuel as [|fuel IH]; intros r items; cbn [prepare_loop]; destruct (bool_decide _);
    try by apply hoare_ret.
  eapply hoare_bind; [by apply (prepare_events quiet_log); [intros l; by apply quiet_snoc|]|].
  intros [p|e]; [apply hoare_ret; intros s [Hq Hf]; split; [exact Hq|by intros ??? [= _ _ <-]]|].
  apply hoare_bind_lift; [exact HX|intros repaired _]. apply hoare_then; [solve_keeps|exact HX|intros []].
  destruct (match as_int max_replans with Some _ => _ | None => _ end).
  - apply hoare_then; [solve_keeps|exact HX|intros [r' i]]. by apply hoare_ret.
  - eapply hoare_bind; [apply reason_events; [intros l; by apply quiet_snoc|exact HX]|]. intros [r' i]. apply IH.
Qed.

Lemma conclude_events message lang max_replans o :
  hoare (logged (loop_result (Some o))) (conclude base reg rg metadata message lang max_replans o : HS _) (finished lang) Done.
Proof.
  assert (∀ s, logged (loop_result (Some o)) s → Done s) as HX by (intros s [H _]; by apply quiet_course).
  destruct o as [[r items] prepared]. unfold conclude. apply hoare_then; [solve_keeps|exact HX|intros []].
  destruct (bool_decide _).
  - do 2 (apply hoare_then; [solve_keeps|exact HX|intros ?]). apply hoare_ret.
    intros s [Hs _]. by apply unapplied_finished, quiet_unapplied.
  - apply hoare_bind_lift; [exact HX|intros p ->%of_option_Ok]. apply hoare_then; [solve_keeps|exact HX|intros []].
    apply hoare_bind_lift; [exact HX|intros i _]. destruct (p_requires_confirmation p) eqn:Hp.
    + intros s [Hq Hf]. pose proof (await_events r p i Hp s (conj Hq (Hf _ _ _ eq_refl))) as H. unfold fmap, ST_fmap.
      destruct (await_approval _ _ s) as [[a|e] s']; [by apply unapplied_finished|done].
    + eapply hoare_conseq; [apply run_job_events| |done|done]. intros s [Hq Hf]. split; [exact Hq|].
      apply new_envelope_at, auth_unconfirmed; [by eapply Hf|done].
Qed.

Lemma run_new_events lang max_replans :
  hoare (logged quiet_log) (run_new base reg rg metadata row lang max_replans : HS _) (finished lang) Done.
Proof.
  assert (∀ s, logged quiet_log s → Done s) as HX by (intros s; apply quiet_course).
  unfold run_new. apply hoare_then; [solve_keeps|exact HX|intros items].
  eapply hoare_bind; [apply (reporting_events quiet_log); [|exact HX]|].
  { apply reason_events; [intros l; by apply quiet_snoc|done]. }
  intros [r i]. eapply hoare_bind; [apply prepare_loop_events|]. intros [o|]; [apply conclude_events|].
  apply hoare_ret. intros s [?%quiet_course _]. by apply none_finished.
Qed.

Lemma run_bound_events social policy lang :
  hoare (logged (λ l, l = [])) (run_bound base reg rg metadata social row policy lang : HS _) (finished lang) Done.
Proof.
  assert (∀ s, logged quiet_log s → Done s) as HX by (intros s; apply quiet_course).
  assert (∀ s : loop W, logged (λ l, l = []) s → logged quiet_log s) as HQ 
    by (intros s Hs; unfold logged in *; rewrite Hs; apply grows_nil).
  assert (∀ s : loop W, logged (λ l, l = []) s → Done s) as HE by eauto.
  unfold run_bound. destruct (social _) as [answer|].
  - apply hoare_then; [solve_keeps|exact HE|intros []]. intros s Hs%HQ. unfold fmap, ST_fmap, host_do.
    destruct (ht_read_only_response _ _) as [[r|e] w]; [|by apply HX].
    by apply unapplied_finished, quiet_unapplied.
  - assert (hoare (logged (λ l, l = [])) (run_new base reg rg metadata row lang
      (get_default (u "max_replans") (VInt 0) policy) : HS _) (finished lang) Done) as Hnew.
    { eapply hoare_conseq; [apply run_new_events|exact HQ|done|done]. }
    apply hoare_bind_lift; [exact HE|intros [e|] Hrow]; [|exact Hnew].
    apply hoare_bind_lift; [exact HE|intros authorized Ha]. destruct authorized; [|exact Hnew].
    apply hoare_bind_lift; [exact HE|intros items _]. eapply hoare_conseq; [apply run_job_events| |done|done].
    intros s Hs. split; [by apply HQ|]. intros plan Hplan. by eapply auth_stored.
Qed.
End facts.

(** ** Termination *)

Section termination.
Context {W R : Type} (base : AgentHost W R) `{!PlanExecutor W R} `{!HostRuntime W}.
Context (reg : registry) (rg : CapabilityRegistry) (metadata : pydict).
Abbreviation HS := (ST (loop W) runtime_exn).
Implicit Types (s : loop W).

Lemma replans_app items l : replans items ≤ replans (items ++ l).
Proof. unfold replans, count_if. rewrite filter_app, length_app. lia. Qed.
Lemma replans_pos items : 0 ≤ replans items.
Proof. unfold replans, count_if. lia. Qed.

Lemma host_do_Ok {A} (f : W → result runtime_exn A * W) s a s' : (host_do f : HS A) s = (Ok a, s') → l_log s' = l_log s.
Proof. unfold host_do. destruct (f (l_world s)). by intros [= _ <-]. Qed.

(** A service only adds to its transcript. *)
Lemma run_service_items p message items s r items' s' :
  (run_service base rg metadata p message items : HS _) s = (Ok (r, items'), s') → ∃ l, items' = items ++ l.
Proof.
  unfold run_service. intros H. apply ST_bind_Ok in H as (summary & s1 & _ & H).
  apply ST_bind_Ok in H as (x & s2 & _ & H). apply ST_bind_Ok in H as ([r1 i] & s3 & Hc & H).
  apply ret_Ok in H as [[= _ <-] _]. unfold service_call in Hc.
  destruct (run rg metadata _ None message summary _) as [r2 a] eqn:Hr. injection Hc as _ <- _.
  destruct (@run_guarded W R (service_host base p) rg metadata (allow_plan_proposals p) message summary
              (MkAgentRun (l_world s2) items false [])) as [[Hl _] _]. by rewrite Hr in Hl.
Qed.
Lemma reason_items p message items s r items' s' :
  (reason base rg metadata p message items : HS _) s = (Ok (r, items'), s') → replans items ≤ replans items'.
Proof.
  unfold reason. intros H. apply ST_bind_Ok in H as ([r1 i] & s1 & Hr & H).
  apply ST_bind_Ok in H as (r2 & s2 & _ & H). apply ST_bind_Ok in H as (x & s3 & _ & H).
  apply ST_bind_Ok in H as (y & s4 & _ & H). apply ret_Ok in H as [[= _ <-] _].
  apply run_service_items in Hr as [l ->]. apply replans_app.
Qed.
Lemma reporting_Ok {A} p (m : HS A) s a s' : reporting p m s = (Ok a, s') → m s = (Ok a, s').
Proof.
  unfold reporting, catch. destruct (m s) as [[b|e] s1]; [done|]. destruct (is_exception e); [|done].
  intros H. by apply ST_bind_Ok in H as (x & s2 & _ & H).
Qed.

Lemma prepare_error_replans items e items' : _append_prepare_error items e = Ok items' → replans items' = replans items + 1.
Proof.
  unfold _append_prepare_error. intros H.
  assert (∃ d, append_working_item items (u "plan_execution_error") d = Ok items') as [d Hd].
  { destruct (append_working_item _ _ _) as [i|[]] eqn:E; simplify_eq; [by eauto|]. apply bind_Ok in H as (x & _ & H%map_err_Ok). eauto. }
  apply append_shape in Hd as ->. by rewrite replans_snoc.
Qed.
Lemma prepared_replans items p items' : _append_plan_prepared items p = Ok items' → replans items ≤ replans items'.
Proof.
  unfold _append_plan_prepared. intros H. do 5 (apply bind_Ok in H as (? & _ & H)).
  apply map_err_Ok, append_shape in H as ->. apply replans_app.
Qed.

Definition job_items (j : job) : list WorkingItem :=
  match j with Execute _ items | RepairPlan _ _ items => items end.

(** A repair that goes on has used one of the replans. *)
Lemma repair_continues message max_replans envelope e items s j s' :
  (_repair_recoverable_plan base reg rg metadata message max_replans envelope e items : HS _) s = (Ok (inr j), s') →
  replans items < Z.of_nat (limit_of max_replans) ∧ replans items + 1 ≤ replans (job_items j).
Proof.
  unfold _repair_recoverable_plan. intros H. apply ST_bind_Ok in H as (? & s1 & _ & H).
  apply ST_bind_Ok in H as (repaired & s2 & [Ha _]%lift_Ok & H). apply map_err_Ok, append_shape in Ha.
  do 3 (apply ST_bind_Ok in H as (? & ? & _ & H)).
  assert (replans repaired = replans items + 1) as Hrep by (rewrite Ha; by rewrite replans_snoc).
  destruct (as_int max_replans) as [n|] eqn:Hn.
  2: { apply ST_bind_Ok in H as ([? ?] & ? & _ & H). unfold fmap, ST_fmap in H. by destruct (host_do _ _) as [[]]. }
  unfold limit_of. rewrite Hn. simpl. destruct (n <=? replans items) eqn:Hle.
  { apply ST_bind_Ok in H as ([? ?] & ? & _ & H). unfold fmap, ST_fmap in H. by destruct (host_do _ _) as [[]]. }
  apply Z.leb_gt in Hle. pose proof (replans_pos items).
  apply ST_bind_Ok in H as (? & ? & _ & H). apply ST_bind_Ok in H as ([r i] & s5 & Hr%reporting_Ok & H).
  apply reason_items in Hr. do 2 (apply ST_bind_Ok in H as (? & ? & _ & H)). split; [lia|].
  destruct (bool_decide _); [unfold fmap, ST_fmap in H; by destruct (host_do _ _) as [[]]|].
  apply ST_bind_Ok in H as ([p|e'] & ? & _ & H).
  - unfold continue_repaired in H. apply ST_bind_Ok in H as (pi & ? & [Hp _]%lift_Ok & H). apply prepared_replans in Hp.
    apply ST_bind_Ok in H as (refines & ? & _ & H). destruct refines; [apply ret_Ok in H as [[= <-] _]; simpl; lia|].
    destruct (p_requires_confirmation p); [unfold fmap, ST_fmap in H; by destruct (await_approval _ _ _) as [[]]|].
    apply ret_Ok in H as [[= <-] _]. simpl. lia.
  - apply ret_Ok in H as [[= <-] _]. simpl. lia.
Qed.

(** The calls that may follow, of a job whose transcript has so many failures *)
Definition job_rank (max_replans : pyval) (j : job) : nat :=
  2 * (limit_of max_replans - Z.to_nat (replans (job_items j))) + match j with Execute _ _ => 2 | RepairPlan _ _ _ => 1 end.
Lemma run_job_ends message lang max_replans fuel j s s' : (job_rank max_replans j ≤ fuel)%nat →
  (run_job base reg rg metadata message lang max_replans fuel j : HS _) s ≠ (Ok None, s').
Proof.
  revert j s. induction fuel as [|fuel IH]; intros j s Hf; [destruct j; unfold job_rank in Hf; lia|].
  cbn [run_job]. intros H. destruct j as [envelope items|envelope e items].
  - apply ST_bind_Ok in H as ([[completed i]|e] & s1 & _ & H).
    + unfold fmap, ST_fmap in H. by destruct (continue_or_stop _ _ _ _ _ _ _ _) as [[]].
    + eapply IH; [|exact H]. unfold job_rank in *. simpl in *. lia.
  - apply ST_bind_Ok in H as ([response|j] & s1 & Hr & H); [by apply ret_Ok in H as [? _]|].
    apply repair_continues in Hr as [Hlt Hle]. pose proof (replans_pos items). eapply IH; [|exact H].
    unfold job_rank in *. simpl in Hf. destruct j; simpl in *; lia.
Qed.

Lemma prepare_loop_ends message max_replans fuel r items s s' :
  (S (limit_of max_replans - Z.to_nat (replans items)) ≤ fuel)%nat →
  (prepare_loop base reg rg metadata message max_replans fuel r items : HS _) s ≠ (Ok None, s').
Proof.
  revert r items s. induction fuel as [|fuel IH]; intros r items s Hf; [lia|].
  cbn [prepare_loop]. destruct (bool_decide _); [by intros [? _]%ret_Ok|]. intros H.
  apply ST_bind_Ok in H as ([p|e] & s1 & _ & H); [by apply ret_Ok in H as [? _]|].
  apply ST_bind_Ok in H as (repaired & s2 & [Ha _]%lift_Ok & H). apply prepare_error_replans in Ha.
  apply ST_bind_Ok in H as (? & s3 & _ & H).
  destruct (as_int max_replans) as [n|] eqn:Hn.
  2: { apply ST_bind_Ok in H as ([? ?] & ? & _ & H). by apply ret_Ok in H as [? _]. }
  destruct (n <? replans repaired) eqn:Hlt.
  { apply ST_bind_Ok in H as ([? ?] & ? & _ & H). by apply ret_Ok in H as [? _]. }
  apply Z.ltb_ge in Hlt. apply ST_bind_Ok in H as ([r' i] & s4 & Hr & H). apply reason_items in Hr.
  pose proof (replans_pos items). assert (limit_of max_replans = Z.to_nat n) as El by by unfold limit_of; rewrite Hn.
  eapply IH; [|exact H]. lia.
Qed.

Lemma some_result {A} (m : HS A) s s' : (Some <$> m : HS (option A)) s ≠ (Ok None, s').
Proof. unfold fmap, ST_fmap. by destruct (m s) as [[]]. Qed.
Lemma execute_job_ends message lang max_replans envelope items s s' :
  (run_job base reg rg metadata message lang max_replans (job_fuel max_replans) (Execute envelope items) : HS _) s
    ≠ (Ok None, s').
Proof. apply run_job_ends. unfold job_rank, job_fuel. lia. Qed.
Lemma conclude_ends message lang max_replans o s s' :
  (conclude base reg rg metadata message lang max_replans o : HS _) s ≠ (Ok None, s').
Proof.
  destruct o as [[r items] prepared]. unfold conclude. intros H. apply ST_bind_Ok in H as (? & s1 & _ & H).
  destruct (bool_decide _).
  - do 2 (apply ST_bind_Ok in H as (? & ? & _ & H)). by apply ret_Ok in H as [? _].
  - do 3 (apply ST_bind_Ok in H as (? & ? & _ & H)).
    destruct (p_requires_confirmation _); [by apply some_result in H|by apply execute_job_ends in H].
Qed.
Lemma run_new_ends row lang max_replans s s' :
  (run_new base reg rg metadata row lang max_replans : HS _) s ≠ (Ok None, s').
Proof.
  unfold run_new. intros H. apply ST_bind_Ok in H as (items & s1 & _ & H). apply ST_bind_Ok in H as ([r i] & s2 & _ & H).
  apply ST_bind_Ok in H as ([o|] & s3 & Hl & H); [by apply conclude_ends in H|].
  apply prepare_loop_ends in Hl; [done|]. lia.
Qed.
End termination.

Section turn.
Context {W R : Type} (base : AgentHost W R) `{!PlanExecutor W R} `{!HostRuntime W}.
Context (reg : registry) (rg : CapabilityRegistry) (metadata : pydict).
Context (resolve_policy : pyval → result runtime_exn pydict) (social : pystr → option pystr).

Lemma lift_err {S E A B} (r : result E A) (f : A → ST S E B) s b s' :
  (lift r ≫= f) s = (b, s') → (∃ e, r = Err e ∧ b = Err e ∧ s' = s) ∨ ∃ a, r = Ok a ∧ f a s = (b, s').
Proof. destruct r as [a|e]; simpl; [by right; eauto|]. intros [= <- <-]. left. eauto. Qed.

(** C8: A turn of the host loop always returns a response or raises: the loop of preparations
    and the recursion of execution and repair end before the fuel of the model does, whatever
    the services do. *)
Theorem run_turn_ends superuser uid company lang turn_id lease_token s s' :
  run_turn base reg rg metadata resolve_policy social superuser uid company lang turn_id lease_token s ≠ (Ok None, s').
Proof.
  unfold run_turn. intros H. do 2 (apply ST_bind_Ok in H as (? & ? & _ & H)).
  apply ST_bind_Ok in H as (o & s1 & _ & H). apply ST_bind_Ok in H as (bound & s2 & _ & H).
  apply ST_bind_Ok in H as (? & s3 & _ & H). apply ST_bind_Ok in H as (policy & s4 & _ & H).
  unfold run_bound in H. destruct (social _) as [answer|].
  - apply ST_bind_Ok in H as (? & s5 & _ & H). by apply some_result in H.
  - apply ST_bind_Ok in H as ([e|] & s5 & _ & H); [|by apply run_new_ends in H].
    apply ST_bind_Ok in H as ([] & s6 & _ & H); [|by apply run_new_ends in H].
    apply ST_bind_Ok in H as (items & s7 & _ & H). by apply execute_job_ends in H.
Qed.

(** The turn that is bound *)
Definition bound_to (uid company : Z) (turn_id : Z) (lease_token : pystr) s (row : turn) : Prop :=
  (ht_row turn_id (l_world s)).1 = Ok (Some row) ∧ t_user row = uid ∧ t_company row = company ∧
  t_state row = TRunning ∧ t_lease_token row = Some lease_token.

Lemma run_turn_finished superuser uid company lang turn_id lease_token s r s' :
  l_log s = [] →
  run_turn base reg rg metadata resolve_policy social superuser uid company lang turn_id lease_token s = (r, s') →
  (l_log s' = [] ∧ ∃ e, r = Err e) ∨
  ∃ row, bound_to uid company turn_id lease_token s row ∧ superuser = false ∧
    match r with Ok o => finished reg row lang o s' | Err _ => logged (course reg row) s' end.
Proof.
  intros Hlog H. unfold run_turn in H.
  apply lift_err in H as [(e & _ & -> & ->)|([] & Hsu%raise_when_Ok & H)]; [by left; eauto|].
  apply lift_err in H as [(e & _ & -> & ->)|([] & _ & H)]; [by left; eauto|].
  rewrite ST_bind_at in H. unfold host_do at 1 in H. destruct (ht_row turn_id (l_world s)) as [o w] eqn:Hrow.
  set (s1 := MkLoop w (l_log s)) in H. assert (l_log s1 = []) as Hlog1 by done.
  destruct o as [o|e]; [|injection H as <- <-; by left; eauto].
  apply lift_err in H as [(e & _ & -> & ->)|(row & ->%of_option_Ok & H)]; [by left; eauto|].
  apply lift_err in H as [(e & _ & -> & ->)|([] & Hb%raise_when_Ok & H)]; [by left; eauto|].
  apply lift_err in H as [(e & _ & -> & ->)|(policy & _ & H)]; [by left; eauto|].
  right. exists row. result_inv. rewrite !Z.eqb_eq, !bool_decide_eq_true in *.
  split; [unfold bound_to; by rewrite Hrow|]. split; [done|].
  pose proof (run_bound_events base reg rg metadata row social policy lang s1) as Hc.
  specialize (Hc Hlog1). rewrite H in Hc. by destruct r.
Qed.

(** C5: Whatever the provider, the database and the capabilities do, a turn of the host loop
    starts work only for the running row that its user and lease bind. It executes only the
    authorised plan of the stored envelope, before anything else, or a plan that the plan
    service just prepared: the preparation is the milestone right before the execution, and the
    plan either needs no confirmation or refines a plan that the turn tried to execute before,
    with the approval of that one. A plan it asks approval for was also just prepared, and
    asking is its last milestone; after an executed plan it only reasons about the answer. *)
Theorem turn_executes_what_is_authorised superuser uid company lang turn_id lease_token s r s' :
  l_log s = [] →
  run_turn base reg rg metadata resolve_policy social superuser uid company lang turn_id lease_token s = (r, s') →
  l_log s' = [] ∨
  ∃ row, bound_to uid company turn_id lease_token s row ∧ superuser = false ∧ course reg row (l_log s').
Proof.
  intros Hlog H. destruct (run_turn_finished _ _ _ _ _ _ _ _ _ Hlog H) as [[? _]|(row & Hb & Hs & Hr)]; [by left|].
  right. exists row. by destruct r; [destruct Hr|].
Qed.

End turn.
