(* ===== verification/HostLoopExamples.v ===== *)
(** * Host loop: a turn with a repair

    A provider that proposes one write and then answers, on a plan service whose first execution
    fails and whose second one is partial: the turn repairs its plan, applies it and answers with
    the counts of the receipt. *)
From S2P Require Import Prelude CapabilityExamples AgentTurnExamples.
From S2P Require Import PyText Regex PyValue Json Failure TurnStore TurnQueue TurnControl.
From S2P Require Import Budgets WorkingTranscript EffectPlan Capability CapabilityRegistry.
From S2P Require Import EffectPlanService EffectPlanApproval AgentDecision AgentTurn.
From S2P Require Import HostReceipts HostLoop HostLoopFacts.
Local Open Scope Z_scope.

(** The executions and the tokens so far *)
Abbreviation attempts := (nat * nat)%type (only parsing).
Definition fine {A} (a : A) (n : attempts) : result runtime_exn A * attempts := (Ok a, n).

Definition partial_outcome : pydict :=
  [(u "outcome", VStr (u "partial")); (u "count", VInt 1); (u "requested_count", VInt 2);
   (u "failed_count", VInt 1); (u "excluded_count", VInt 0)].
#[export] Instance failing_once : PlanExecutor attempts pydict := {
  result_data r := r;
  ex_preview _ _ _ n := (Ok (MkPreview [] (u "sha256:" ++ replicate 64 48%N)), n);
  ex_execute _ _ _ _ n :=
    (match n.1 with 0%nat => Err (CapabilityError (u "record_locked") []) | _ => Ok partial_outcome end, (S n.1, n.2));
  ex_verify _ _ _ _ n := (Ok (MkVerification true []), n);
  ex_approval_required _ _ n := (Ok false, n);
  ex_token_hex n := (replicate 31 97%N ++ [48 + N.of_nat (n.2 mod 10)]%N, (n.1, S n.2)) }.

(** It proposes a write when its plan is not open, and answers then. *)
Definition write_then_answer (items : list WorkingItem) : NextDecision :=
  if existsb (is_kind (u "plan_step_proposed")) (_active_plan_epoch items)
  then FinalAnswer (u "All of them are done.") (u "high")
  else PlanStepProposal (u "c" ++ int_str (Z.of_nat (length items))) (u "demo.note") (text (u "hi")) (u "Write a note").
Definition quiet_call {A} (a : A) (n : attempts) : result agent_exn A * attempts := (Ok a, n).
Definition ambient : AgentHost attempts pydict := {|
  ag_result_data r := r;
  ag_superuser := false;
  ag_lang := Some (u "en_US");
  ag_user _ := everyone;
  ag_next_decision items _ n := (Decided (Some (write_then_answer items)), n);
  ag_persist := None;
  ag_cancelled := quiet_call false;
  ag_work_started := None;
  ag_execute _ _ := quiet_call [];
  ag_savepoint := None;
  ag_flush := quiet_call tt;
  ag_emit _ _ _ := quiet_call tt |}.

Definition bound_turn : turn := {|
  t_uuid := u "turn-1"; t_conversation := Some 1; t_user := 2; t_company := 1; t_state := TRunning;
  t_input_message := u "Note it"; t_screen := VNone; t_allowed_companies := [1]; t_policy := VNone;
  t_client_request_id := None; t_request_fingerprint := []; t_user_message := Some 1; t_assistant_message := None;
  t_result := VNone; t_queued_at := 0; t_started_at := Some 1; t_heartbeat_at := Some 1;
  t_lease_expires_at := Some 300; t_lease_token := Some (u "lease"); t_attempt_count := 1; t_max_attempts := 3;
  t_write_barrier := false; t_cancel_requested_at := None; t_completed_at := None; t_error_code := None;
  t_failure := VNone; t_scheduler_claimed_at := Some 1; t_plan := VNone; t_working_items := VNone |}.

(** The response is the envelope itself. *)
Definition stored_turn_of (persist : attempts → result runtime_exn unit * attempts) : HostRuntime attempts := {|
  ht_row _ := fine (Some bound_turn);
  ht_control := fine (false, 0, 0);
  ht_persist _ := persist;
  ht_capture_navigation _ := fine tt;
  ht_conversation_summary := fine [];
  ht_engine _ items _ n := (Decided (Some (write_then_answer items)), n);
  ht_work_started := quiet_call tt;
  ht_telemetry _ _ := fine tt;
  ht_write _ := fine tt;
  ht_commit := fine tt;
  ht_rollback := fine tt;
  ht_write_barrier := fine false;
  ht_sync_plan _ := fine tt;
  ht_effects_rolled_back := fine true;
  ht_checkpoint _ _ _ _ _ _ n := (Ok tt, n);
  ht_persist_awaiting_plan _ _ := fine tt;
  ht_plan_response := fine;
  ht_read_only_response r := fine [(u "answer", VStr (tr_answer r))];
  ht_browser_citations := fine (VList []) |}.
#[export] Instance stored_turn : HostRuntime attempts := stored_turn_of (fine tt).

Definition replans_allowed (max_replans : Z) (_ : pyval) : result runtime_exn pydict :=
  Ok [(u "max_replans", VInt max_replans)].
Definition before_turn : loop attempts := MkLoop (0, 0)%nat [].
Definition repaired_turn (max_replans : Z) : result runtime_exn (option pydict) * loop attempts :=
  run_turn ambient (by_name (rg_definitions turn_registry)) turn_registry turn_metadata (replans_allowed max_replans)
    (λ _, None) false 2 1 (Some (u "en_US")) 1 (u "lease") before_turn.
Definition final_response : pydict := default [] (result_or None (repaired_turn 2).1).

Definition milestone_name (e : loop_event) : pystr :=
  match e with
  | Reasoned Reasoning => u "reasoned" | Reasoned Repair => u "repaired" | Reasoned Synthesis => u "synthesised"
  | Preparing _ => u "preparing" | Executing _ _ => u "executing" | Executed _ => u "executed"
  | Awaiting _ => u "awaiting"
  end.
Example repaired_turn_log :
  milestone_name <$> l_log (repaired_turn 2).2 =
    [u "reasoned"; u "preparing"; u "executing"; u "repaired"; u "preparing"; u "executing"; u "executed"] ∧
  get (u "answer") final_response =
    VStr (u "The result was verified, but the operation was partial: it applied to 1 of 2 records; 1 failed and 0 were excluded.").
Proof. split; vm_compute; reflexivity. Qed.
(** Without a replan the turn ends with the failure. *)
Example unrepaired_turn_log :
  milestone_name <$> l_log (repaired_turn 0).2 = [u "reasoned"; u "preparing"; u "executing"].
Proof. vm_compute. reflexivity. Qed.

(** A stop that arrives with the answer keeps the effect and changes the answer. *)
Definition stopped_turn : result runtime_exn (option pydict) * loop attempts :=
  @run_turn _ _ ambient failing_once
    (stored_turn_of (λ n, if (n.1 =? 2)%nat then (Err (EmbeddedRuntimeError (u "agent_cancelled")), n) else (Ok tt, n)))
    (by_name (rg_definitions turn_registry)) turn_registry turn_metadata (replans_allowed 2)
    (λ _, None) false 2 1 (Some (u "en_US")) 1 (u "lease") before_turn.
Example stopped_turn_completes :
  l_log stopped_turn.2 = l_log (repaired_turn 2).2 ∧
  get (u "answer") (default [] (result_or None stopped_turn.1)) = VStr stopped_answer ∧
  get (u "plan") (default [] (result_or None stopped_turn.1)) = get (u "plan") final_response.
Proof. split_and!; vm_compute; reflexivity. Qed.

(** ** The theorems on the run *)

Lemma turn_executes_what_is_authorised_witness :
  l_log (repaired_turn 2).2 = [] ∨
  ∃ row, bound_to 2 1 1 (u "lease") before_turn row ∧ false = false ∧
    course (by_name (rg_definitions turn_registry)) row (l_log (repaired_turn 2).2).
Proof.
  exact (turn_executes_what_is_authorised ambient (by_name (rg_definitions turn_registry)) turn_registry turn_metadata
    (replans_allowed 2) (λ _, None) false 2 1 (Some (u "en_US")) 1 (u "lease") before_turn (repaired_turn 2).1
    (repaired_turn 2).2 eq_refl (surjective_pairing (repaired_turn 2))).
Defined.

