(* ===== verification/ConversationContext.v ===== *)
(** * Conversation context: what a turn tells the provider of the turns before it

    [models/conversation_context.py] and the response language of
    [models/conversation_preferences.py]: every turn stores once a bounded projection of its
    predecessors (messages, summaries, references), built from the newest checkpoint among them,
    and is given it as JSON text of bounded length.  [_conversation_summary] of the host loop is
    [conversation_context_for_provider]. *)
From S2P Require Import Prelude PyText Regex PyValue Json Failure TurnStore TurnQueue.
Local Open Scope Z_scope.

Definition _MAX_PREDECESSOR_SCAN : nat := 24.
Definition _MAX_RECENT_MESSAGES : nat := 6.
Definition _MAX_RECENT_CONTENT : nat := 640.
Definition _MAX_ROLLING_SUMMARY : nat := 6.
Definition _MAX_USER_INTENT : nat := 180.
Definition _MAX_ASSISTANT_OUTCOME : nat := 240.
Definition _MAX_ACTIVE_REFS : nat := 8.
Definition _MAX_EFFECT_REFS : nat := 8.
Definition _MAX_EVIDENCE_REFS : nat := 8.
Definition _MAX_SESSION_SETTINGS : nat := 8.
Definition _MAX_PROVIDER_CONTEXT_CHARS : Z := 8000.

Definition safe_token (s : pystr) : bool :=
  fullmatch (RRep (RSet (upper ++ lower ++ digit ++ chars (u "_.:-"))) 1 128) s.
Definition safe_setting_key (s : pystr) : bool :=
  fullmatch (RSet lower · RRep (RSet (lower ++ digit ++ chars (u "_.-"))) 0 63)%regex s.
Definition model_name (s : pystr) : bool :=
  fullmatch (RSet (upper ++ lower ++ chars (u "_")) · RRep (RSet (upper ++ lower ++ digit ++ chars (u "_."))) 0 127)%regex s.

Abbreviation checked := (result turn_exn).
Definition refuse (b : bool) : checked unit := raise_when b ValidationError.
(** [v not in {...}] *)
Definition refuse_outside (v : pyval) (ss : list pystr) : checked unit :=
  known ← of_option (in_str_set v ss) PyError; refuse (negb known).
Definition is_str (p : pystr → bool) (v : pyval) : bool :=
  match v with VStr s => p s | _ => false end.
(** [1 <= len(s) <= 64] *)
Definition short_id (s : pystr) : bool := (1 <=? length s)%nat && (length s <=? 64)%nat.
Definition positive_int (v : pyval) : bool := match v with VInt z => 0 <? z | _ => false end.

Definition terminal_states : list pystr :=
  [u "completed"; u "failed"; u "cancelled"; u "recovery_required"].

(** ** Validation *)

Definition dict_of (v : pyval) : checked pydict := of_option (as_dict v) ValidationError.

Definition _validate_message_item (v : pyval) : checked unit :=
  item ← dict_of v;
  refuse (negb (has_keys item [u "message_id"; u "role"; u "content"]));;
  refuse (negb (is_str short_id (get (u "message_id") item)));;
  refuse_outside (get (u "role") item) [u "user"; u "assistant"];;
  refuse (negb (is_str (λ s, (length s <=? _MAX_RECENT_CONTENT)%nat) (get (u "content") item))).

Definition _validate_summary_item (v : pyval) : checked unit :=
  item ← dict_of v;
  refuse (negb (has_keys item
    [u "turn_id"; u "state"; u "user_intent"; u "assistant_outcome"; u "failure_code"]));;
  refuse (negb (is_str short_id (get (u "turn_id") item)));;
  refuse_outside (get (u "state") item) terminal_states;;
  refuse (negb (is_str (λ s, (length s <=? _MAX_USER_INTENT)%nat) (get (u "user_intent") item))
          || negb (is_str (λ s, (length s <=? _MAX_ASSISTANT_OUTCOME)%nat) (get (u "assistant_outcome") item)));;
  refuse (negb (is_none (get (u "failure_code") item) || is_str safe_token (get (u "failure_code") item))).

Definition _validate_active_ref (v : pyval) : checked unit :=
  item ← dict_of v;
  refuse (negb (has_keys item [u "kind"; u "model"; u "res_id"]));;
  refuse_outside (get (u "kind") item) [u "odoo_model"; u "odoo_record"];;
  refuse (negb (is_str model_name (get (u "model") item)));;
  if py_eq (get (u "kind") item) (VStr (u "odoo_model")) then refuse (negb (is_none (get (u "res_id") item)))
  else refuse (negb (positive_int (get (u "res_id") item))).

Definition _validate_evidence_ref (v : pyval) : checked unit :=
  item ← dict_of v;
  refuse (negb (has_keys item [u "kind"; u "ref"]));;
  refuse (negb (is_str safe_token (get (u "kind") item)));;
  refuse (negb (is_str safe_token (get (u "ref") item))).

(** [len(set(record_ids)) != len(record_ids)] on integers *)
Definition _validate_effect_resource (v : pyval) : checked unit :=
  resource ← dict_of v;
  refuse (negb (has_keys resource [u "model"; u "record_ids"]));;
  ids ← of_option (as_list (get (u "record_ids") resource)) ValidationError;
  refuse (negb (is_str model_name (get (u "model") resource))
          || negb ((1 <=? length ids)%nat && (length ids <=? 500)%nat)
          || negb (forallb positive_int ids) || has_dup (omap as_int ids)).

Definition _validate_effect_ref (v : pyval) : checked unit :=
  let required := [u "turn_id"; u "position"; u "capability"; u "state"] in
  item ← dict_of v;
  refuse (negb (subset_of required (keys item) && keys_within item (required ++ [u "operation"; u "resource"])));;
  refuse (negb (is_str short_id (get (u "turn_id") item)));;
  refuse (negb (positive_int (get (u "position") item)));;
  refuse (negb (is_str safe_token (get (u "capability") item))
          || negb (py_eq (get (u "state") item) (VStr (u "completed"))));;
  refuse (negb (is_none (get (u "operation") item) || is_str safe_token (get (u "operation") item)));;
  if is_none (get (u "resource") item) then Ok tt else _validate_effect_resource (get (u "resource") item).

Definition setting_ok (kv : pystr * pyval) : bool :=
  safe_setting_key kv.1 &&
  match kv.2 with
  | VNone | VBool _ | VInt _ => true
  | VStr s => (length s <=? 128)%nat && negb (mem 0%N s)
  | _ => false
  end.
Definition _validate_session_settings (v : pyval) : checked unit :=
  settings ← dict_of v;
  refuse (_MAX_SESSION_SETTINGS <? length settings)%nat;;
  refuse (negb (forallb setting_ok settings)).

(** A list of at most [n] valid items *)
Definition _validate_items (n : nat) (check : pyval → checked unit) (v : pyval) : checked unit :=
  items ← of_option (as_list v) ValidationError;
  refuse (n <? length items)%nat;;
  (λ _, tt) <$> mapR check items.

Definition context_keys : list pystr :=
  [u "format_version"; u "conversation_id"; u "revision"; u "recent_messages"; u "rolling_summary";
   u "active_refs"; u "evidence_refs"; u "verified_effect_refs"; u "session_settings"].

Definition _validate_snapshot (v : pyval) : checked pydict :=
  value ← dict_of v;
  refuse (negb (has_keys value context_keys));;
  refuse (negb (eq_int (get (u "format_version") value) 1));;
  refuse (negb (is_str (λ _, true) (get (u "conversation_id") value)));;
  refuse (match get (u "revision") value with VInt z => z <? 0 | _ => true end);;
  _validate_items _MAX_RECENT_MESSAGES _validate_message_item (get (u "recent_messages") value);;
  _validate_items _MAX_ROLLING_SUMMARY _validate_summary_item (get (u "rolling_summary") value);;
  _validate_items _MAX_ACTIVE_REFS _validate_active_ref (get (u "active_refs") value);;
  _validate_items _MAX_EVIDENCE_REFS _validate_evidence_ref (get (u "evidence_refs") value);;
  _validate_items _MAX_EFFECT_REFS _validate_effect_ref (get (u "verified_effect_refs") value);;
  _validate_session_settings (get (u "session_settings") value);;
  Ok value.

(** ** Texts and lists *)

(** [items[-maximum:]] *)
Definition _bounded_tail {A} (items : list A) (maximum : nat) : list A :=
  drop (length items - maximum) items.

(** [value.replace("\x00", "")] *)
Definition without_nul (s : pystr) : pystr := List.filter (λ c, negb (c =? 0)%N) s.
Definition _excerpt (value : pystr) (maximum : nat) : pystr :=
  let normalized := normalize_ws (without_nul value) in
  if (length normalized <=? maximum)%nat then normalized
  else rstrip (take (maximum - 1) normalized) ++ [8230%N].

(** ** References *)

Definition record_ref (model : pystr) (id : Z) : pydict :=
  [(u "kind", VStr (u "odoo_record")); (u "model", VStr model); (u "res_id", VInt id)].
Definition model_ref (model : pystr) : pydict :=
  [(u "kind", VStr (u "odoo_model")); (u "model", VStr model); (u "res_id", VNone)].

Definition positive_ids (v : pyval) : list Z :=
  List.filter (λ z, 0 <? z) (match v with VInt z => [z] | VList l => omap as_int l | _ => [] end).

Definition _screen_refs (screen : pyval) : list pydict :=
  match screen with
  | VDict screen =>
      match get (u "model") screen with
      | VStr model =>
          if model_name model then
            let ids := positive_ids match get (u "res_id") screen with VInt z => VInt z | _ => VNone end
                       ++ positive_ids match get (u "selected_ids") screen with VList l => VList l | _ => VNone end in
            match ids with [] => [model_ref model] | _ => record_ref model <$> ids end
          else []
      | _ => []
      end
  | _ => []
  end.

(** The key of a validated reference *)
Definition ref_key (item : pydict) : pystr * pystr * option Z :=
  (default [] (as_str (get (u "kind") item)), default [] (as_str (get (u "model") item)), as_int (get (u "res_id") item)).
Definition positions_of (merged : list pydict) : gmap (pystr * pystr * option Z) nat :=
  foldl (λ m p, <[ref_key p.2 := p.1]> m) ∅ (imap pair merged).

(** The turn of the loop of [_merge_refs]; the lists of a context hold values, the new references
    are dictionaries. *)
Definition merge_ref (mp : list pydict * gmap (pystr * pystr * option Z) nat) (v : pyval)
    : checked (list pydict * gmap (pystr * pystr * option Z) nat) :=
  _validate_active_ref v;;
  item ← dict_of v;
  let key := ref_key item in
  mp ← match mp.2 !! key with
       | Some i =>
           raise_when (length mp.1 <=? i)%nat PyError;;
           let merged := delete i mp.1 in Ok (merged, positions_of merged)
       | None => Ok mp
       end;
  Ok (mp.1 ++ [item], <[key := length mp.1]> mp.2).
Definition _merge_refs (existing : list pyval) (new : list pydict) : checked (list pydict) :=
  mp ← foldR merge_ref ([], ∅) (existing ++ (VDict <$> new));
  Ok (_bounded_tail mp.1 _MAX_ACTIVE_REFS).

(** [if type(x) is not int or x <= 0 or x in seen: return None], and the append *)
Fixpoint distinct_ids (seen : list Z) (l : list pyval) : option (list Z) :=
  match l with
  | [] => Some seen
  | VInt z :: l => if (z <=? 0) || mem z seen then None else distinct_ids (seen ++ [z]) l
  | _ => None
  end.
Definition _effect_resource (v : pyval) : option pydict :=
  res ← as_dict v;
  model ← as_str (get (u "model") res);
  if negb (model_name model) then None
  else
    let ids := match get (u "record_ids") res with
               | VList l => l
               | _ => match get (u "record_id") res with VInt z => [VInt z] | _ => [] end
               end in
    ids ← distinct_ids [] ids;
    if bool_decide (length ids = 0%nat) || (500 <? length ids)%nat then None
    else Some [(u "model", VStr model); (u "record_ids", VList (VInt <$> ids))].

(** The turn of the loop over the steps *)
Definition effect_ref (turn_id : pystr) (index : nat) (v : pyval) : option pydict :=
  step ← as_dict v;
  if negb (py_eq (get (u "state") step) (VStr (u "completed"))) then None
  else
    capability ← as_str (get (u "capability") step);
    if negb (safe_token capability) then None
    else
      let position := match get (u "position") step with
                      | VInt z => if z <=? 0 then Z.of_nat index else z
                      | _ => Z.of_nat index
                      end in
      let res := get (u "result") step in
      Some ([(u "turn_id", VStr turn_id); (u "position", VInt position); (u "capability", VStr capability);
             (u "state", VStr (u "completed"))]
            ++ match _effect_resource res with Some r => [(u "resource", VDict r)] | None => [] end
            ++ match res with
               | VDict d => match get (u "operation") d with
                            | VStr s => if safe_token s then [(u "operation", VStr s)] else []
                            | _ => []
                            end
               | _ => []
               end).
Definition _verified_effect_refs (turn_id : pystr) (envelope : pyval) : list pydict :=
  default [] (
    envelope ← as_dict envelope;
    plan ← as_dict (get (u "plan") envelope);
    if negb (py_eq (get (u "state") plan) (VStr (u "completed"))) then None
    else
      steps ← as_list (get (u "steps") plan);
      Some (_bounded_tail (omap id (imap (λ i step, effect_ref turn_id (S i) step) steps)) _MAX_EFFECT_REFS)).

Definition effect_key (item : pydict) : pystr * Z * pystr :=
  (default [] (as_str (get (u "turn_id") item)), default 0 (as_int (get (u "position") item)),
   default [] (as_str (get (u "capability") item))).
Definition merge_effect_ref (merged : list pydict) (v : pyval) : checked (list pydict) :=
  _validate_effect_ref v;;
  item ← dict_of v;
  let key := effect_key item in
  let merged := if mem key (effect_key <$> merged) then filter (λ row, effect_key row ≠ key) merged else merged in
  Ok (merged ++ [item]).
Definition _merge_effect_refs (existing : list pyval) (new : list pydict) : checked (list pydict) :=
  merged ← foldR merge_effect_ref [] (existing ++ (VDict <$> new));
  Ok (_bounded_tail merged _MAX_EFFECT_REFS).

(** ** The rows *)

(** The columns of a turn that the other parts do not use *)
Record context_row := MkContextRow {
  cx_lang : option pystr;
  cx_response_mode : pystr;
  cx_response_language : option pystr;
  cx_context : pyval }.
Record context_db := MkContextDb {
  x_db : db;
  x_rows : gmap Z context_row;
  x_message_uuid : gmap Z pystr }.
Abbreviation CS := (ST context_db turn_exn).

(** A turn with what its references lead to *)
Record turn_view := MkView {
  tv_id : Z;
  tv_turn : turn;
  tv_row : context_row;
  tv_user_message : option (pystr * message);
  tv_assistant_message : option (pystr * message) }.

Definition view_message (s : context_db) (o : option Z) : option (pystr * message) :=
  id ← o; m ← d_messages (x_db s) !! id; Some (default [] (x_message_uuid s !! id), m).
Definition no_row : context_row := MkContextRow None (u "inherit") None VNone.
Definition view_turn (s : context_db) (p : Z * turn) : turn_view :=
  MkView p.1 p.2 (default no_row (x_rows s !! p.1))
    (view_message s (t_user_message p.2)) (view_message s (t_assistant_message p.2)).

Definition id_leb {A} (p q : Z * A) : bool := p.1 <=? q.1.
(** The newest turns before this one in its conversation, in their order *)
Definition predecessors (s : context_db) (conversation id : Z) : list turn_view :=
  view_turn s <$> _bounded_tail (sort_by id_leb
    (List.filter (λ p, bool_decide (t_conversation p.2 = Some conversation) && (p.1 <? id)) (rows (x_db s))))
    _MAX_PREDECESSOR_SCAN.

(** ** Building a context *)

Definition _empty_context (conversation_uuid : pystr) : pydict :=
  [(u "format_version", VInt 1); (u "conversation_id", VStr conversation_uuid); (u "revision", VInt 0);
   (u "recent_messages", VList []); (u "rolling_summary", VList []); (u "active_refs", VList []);
   (u "evidence_refs", VList []); (u "verified_effect_refs", VList []); (u "session_settings", VDict [])].

Definition _message_context (m : pystr * message) : checked pyval :=
  refuse (negb (mem (m_role m.2) [u "user"; u "assistant"]));;
  Ok (VDict [(u "message_id", VStr m.1); (u "role", VStr (m_role m.2));
             (u "content", VStr (_excerpt (m_content m.2) _MAX_RECENT_CONTENT))]).
Definition _recent_causal_messages (ps : list turn_view) : checked (list pyval) :=
  messages ← mapR _message_context
    (ps ≫= λ p, option_list (tv_user_message p) ++ option_list (tv_assistant_message p));
  Ok (_bounded_tail messages _MAX_RECENT_MESSAGES).

Definition _turn_summary (p : turn_view) : pyval :=
  let user_text := match tv_user_message p with Some m => m_content m.2 | None => t_input_message (tv_turn p) end in
  let assistant_text := match tv_assistant_message p with Some m => m_content m.2 | None => [] end in
  VDict [(u "turn_id", VStr (t_uuid (tv_turn p))); (u "state", VStr (state_event (t_state (tv_turn p))));
         (u "user_intent", VStr (_excerpt user_text _MAX_USER_INTENT));
         (u "assistant_outcome", VStr (_excerpt assistant_text _MAX_ASSISTANT_OUTCOME));
         (u "failure_code", match t_error_code (tv_turn p) with
                            | Some code => if safe_token code then VStr code else VNone
                            | None => VNone
                            end)].

(** [current[k]] for the lists of a validated context *)
Definition items (k : pystr) (context : pydict) : list pyval := default [] (as_list (get k context)).

Definition _fold_turn (context : pydict) (p : turn_view) : checked pydict :=
  current ← _validate_snapshot (VDict context);
  let current := dict_set (u "revision") (VInt (default 0 (as_int (get (u "revision") current)) + 1)) current in
  let current := dict_set (u "rolling_summary")
    (VList (_bounded_tail (items (u "rolling_summary") current ++ [_turn_summary p]) _MAX_ROLLING_SUMMARY)) current in
  refs ← _merge_refs (items (u "active_refs") current) (_screen_refs (t_screen (tv_turn p)));
  let current := dict_set (u "active_refs") (VList (VDict <$> refs)) current in
  effects ← _merge_effect_refs (items (u "verified_effect_refs") current)
              (_verified_effect_refs (t_uuid (tv_turn p)) (t_plan (tv_turn p)));
  let current := dict_set (u "verified_effect_refs") (VList (VDict <$> effects)) current in
  Ok (dict_set (u "recent_messages") (VList []) current).

(** The newest stored context and the turns from its owner on; [_base_checkpoint] *)
Fixpoint newest_context (later : list turn_view) (reversed : list turn_view) : option (pyval * list turn_view) :=
  match reversed with
  | [] => None
  | p :: reversed =>
      if truthy (cx_context (tv_row p)) then Some (cx_context (tv_row p), p :: later)
      else newest_context (p :: later) reversed
  end.
Definition _base_checkpoint (ps : list turn_view) (conversation_uuid : pystr) : checked (pydict * list turn_view) :=
  match newest_context [] (reverse ps) with
  | Some (payload, rest) =>
      validated ← _validate_snapshot payload;
      refuse (negb (py_eq (get (u "conversation_id") validated) (VStr conversation_uuid)));;
      Ok (validated, rest)
  | None => Ok (_empty_context conversation_uuid, ps)
  end.

Definition _session_settings_for_turn (existing : pydict) (lang : option pystr) : pydict :=
  match lang with
  | Some ((_ :: _) as l) =>
      if (length l <=? 35)%nat && negb (mem 0%N l) then dict_set (u "odoo_user_language") (VStr l) existing else existing
  | _ => dict_set (u "odoo_user_language") (VBool false) existing
  end.

(** [models/conversation_preferences.py] *)
Definition _RESPONSE_LANGUAGE_MODES : list pystr := [u "inherit"; u "automatic"; u "odoo"; u "fixed"].
Definition language_tag (s : pystr) : bool :=
  fullmatch (RRep (RSet (upper ++ lower)) 2 8
             · RRep (RSet (chars (u "-_")) · RRep (RSet (upper ++ lower ++ digit)) 2 8) 0 3)%regex s.
Definition _normalize_response_language (mode language : pystr) : checked (pystr * pystr) :=
  refuse (negb (mem mode _RESPONSE_LANGUAGE_MODES));;
  let normalized := strip language in
  (if str_eqb mode (u "fixed") then refuse (negb (language_tag normalized))
   else refuse (negb (bool_decide (normalized = []))));;
  Ok (mode, normalized).
Definition or_inherit (mode : pystr) : pystr := match mode with [] => u "inherit" | _ => mode end.
Definition response_settings (row : context_row) (snapshot : pydict) : checked pydict :=
  let mode := or_inherit (cx_response_mode row) in
  let language := default [] (cx_response_language row) in
  _normalize_response_language mode language;;
  settings ← of_option (as_dict (get (u "session_settings") snapshot)) PyError;
  let settings := dict_set (u "response_language_mode") (VStr mode) settings in
  let settings := dict_set (u "response_language")
    (match language with [] => VBool false | _ => VStr language end) settings in
  _validate_snapshot (VDict (dict_set (u "session_settings") (VDict settings) snapshot)).

Definition is_terminal (t : turn) : bool := mem (state_event (t_state t)) terminal_states.

Definition _build_conversation_context_snapshot (conversation_uuid : pystr) (ps : list turn_view) (p : turn_view)
    : checked pydict :=
  refuse (existsb (λ q, negb (is_terminal (tv_turn q))) ps);;
  '(base, rest) ← _base_checkpoint ps conversation_uuid;
  base ← foldR _fold_turn base rest;
  recent ← _recent_causal_messages ps;
  refs ← _merge_refs (items (u "active_refs") base) (_screen_refs (t_screen (tv_turn p)));
  settings ← of_option (as_dict (get (u "session_settings") base)) PyError;
  snapshot ← _validate_snapshot (VDict
    [(u "format_version", VInt 1); (u "conversation_id", VStr conversation_uuid); (u "revision", get (u "revision") base);
     (u "recent_messages", VList recent); (u "rolling_summary", get (u "rolling_summary") base);
     (u "active_refs", VList (VDict <$> refs)); (u "evidence_refs", get (u "evidence_refs") base);
     (u "verified_effect_refs", get (u "verified_effect_refs") base);
     (u "session_settings", VDict (_session_settings_for_turn settings (cx_lang (tv_row p))))]);
  response_settings (tv_row p) snapshot.

(** ** The stored context *)

(** [create] and [write] of the column: by the host only, and never to another value *)
Definition create_allowed (host has_context : bool) : checked unit := refuse (negb host && has_context).
Definition with_context (v : pyval) (row : context_row) : context_row :=
  MkContextRow (cx_lang row) (cx_response_mode row) (cx_response_language row) v.
Definition write_context (host : bool) (id : Z) (v : pyval) : CS unit :=
  lift (refuse (negb host));;
  row ← gets (λ s, default no_row (x_rows s !! id));
  lift (refuse (truthy (cx_context row) && negb (py_eq v (cx_context row))));;
  modify (λ s, MkContextDb (x_db s) (<[id := with_context v row]> (x_rows s)) (x_message_uuid s)).

Definition conversation_context_snapshot (id : Z) : CS (option pydict) :=
  o ← gets (λ s, (λ t, view_turn s (id, t)) <$> d_turns (x_db s) !! id);
  p ← lift (of_option o MissingError);
  if truthy (cx_context (tv_row p)) then Some <$> lift (_validate_snapshot (cx_context (tv_row p)))
  else
    match t_conversation (tv_turn p) with
    | None => mret None
    | Some c =>
        o ← gets (λ s, d_conversations (x_db s) !! c);
        conversation ← lift (of_option o MissingError);
        ps ← gets (λ s, predecessors s c id);
        snapshot ← lift (_build_conversation_context_snapshot (cv_uuid conversation) ps p);
        write_context true id (VDict snapshot);;
        mret (Some snapshot)
    end.

(** ** The text for the provider *)

Definition pop_oldest (k : pystr) (context : pydict) : pydict :=
  dict_set k (VList (drop 1 (items k context))) context.
(** What the loop drops from a text that is too long *)
Definition shrink_context (context : pydict) : option pydict :=
  if (2 <? length (items (u "recent_messages") context))%nat then Some (pop_oldest (u "recent_messages") context)
  else if (2 <? length (items (u "rolling_summary") context))%nat then Some (pop_oldest (u "rolling_summary") context)
  else if (0 <? length (items (u "active_refs") context))%nat then Some (pop_oldest (u "active_refs") context)
  else if (0 <? length (items (u "verified_effect_refs") context))%nat
    then Some (pop_oldest (u "verified_effect_refs") context)
  else if (0 <? length (items (u "evidence_refs") context))%nat then Some (pop_oldest (u "evidence_refs") context)
  else None.

(** The [while True]; [None] when the fuel ends. *)
Fixpoint provider_loop (fuel : nat) (compact : pydict) : checked (option pystr) :=
  match fuel with
  | 0%nat => Ok None
  | S fuel =>
      encoded ← of_option (json_dumps false (VDict compact)) PyError;
      if Z.of_nat (length encoded) <=? _MAX_PROVIDER_CONTEXT_CHARS then Ok (Some encoded)
      else
        match shrink_context compact with
        | Some compact => provider_loop fuel compact
        | None => Err ValidationError
        end
  end.
(** At most 4 + 4 + 8 + 8 + 8 items can be dropped. *)
Definition provider_fuel : nat := 33.
Definition _provider_context_json (snapshot : pydict) : checked (option pystr) :=
  compact ← _validate_snapshot (VDict snapshot);
  provider_loop provider_fuel compact.

Definition conversation_context_for_provider (id : Z) : CS (option pystr) :=
  snapshot ← conversation_context_snapshot id;
  match snapshot with
  | None => mret (Some [])
  | Some snapshot => lift (_provider_context_json snapshot)
  end.
