(* ===== verification/ConversationFacts.v ===== *)
(** * Conversation context: checkpoints agree with the history

    The merges of references as a normal form, valid contexts, and the equivalence of the
    incremental construction with the one that folds every turn of the conversation. *)
From S2P Require Import Prelude PyText Regex PyValue Json JsonRoundtrip Failure TurnStore TurnQueue ConversationContext.
Local Open Scope Z_scope.

(** ** The end of a list *)

Lemma tail_short {A} (l : list A) n : (length l ≤ n)%nat → _bounded_tail l n = l.
Proof. intros H. unfold _bounded_tail. by replace (length l - n)%nat with 0%nat by lia. Qed.
Lemma tail_length {A} (l : list A) n : (length (_bounded_tail l n) ≤ n)%nat.
Proof. unfold _bounded_tail. rewrite length_drop. lia. Qed.
Lemma tail_Forall {A} (P : A → Prop) l n : Forall P l → Forall P (_bounded_tail l n).
Proof. apply Forall_drop. Qed.
Lemma tail_fmap {A B} (f : A → B) l n : f <$> _bounded_tail l n = _bounded_tail (f <$> l) n.
Proof. unfold _bounded_tail. by rewrite length_fmap, <- fmap_drop. Qed.
Lemma tail_app {A} (l k : list A) n : (n ≤ length k)%nat → _bounded_tail (l ++ k) n = _bounded_tail k n.
Proof.
  intros HP. unfold _bounded_tail. rewrite length_app, drop_app. rewrite drop_ge by lia. simpl. f_equal. lia.
Qed.
Lemma tail_split {A} (l : list A) n : ∃ k, l = k ++ _bounded_tail l n.
Proof. exists (take (length l - n) l). symmetry. apply take_drop. Qed.

(** ** The last occurrence of a key wins *)

Section last_wins.
Context {A K : Type} `{EqDecision K} (key : A → K).

Definition put (acc : list A) (x : A) : list A := filter (λ y, key y ≠ key x) acc ++ [x].
Definition last_wins (l : list A) : list A := foldl put [] l.

Lemma last_wins_snoc l x : last_wins (l ++ [x]) = put (last_wins l) x.
Proof. unfold last_wins. by rewrite foldl_app. Qed.

Lemma foldl_put acc l : foldl put acc l = filter (λ y, key y ∉ key <$> l) acc ++ last_wins l.
Proof.
  revert acc. induction l as [|x l IH] using rev_ind; intros acc.
  - simpl. rewrite app_nil_r. symmetry. apply filter_all. intros y _. apply not_elem_of_nil.
  - rewrite last_wins_snoc, foldl_app. simpl. rewrite (IH acc). unfold put.
    rewrite filter_app, <- app_assoc. f_equal. rewrite list_filter_filter. apply list_filter_iff.
    intros y. rewrite fmap_app, elem_of_app. simpl. rewrite list_elem_of_singleton. tauto.
Qed.
Lemma last_wins_app l k : last_wins (l ++ k) = filter (λ y, key y ∉ key <$> k) (last_wins l) ++ last_wins k.
Proof. unfold last_wins at 1. by rewrite foldl_app, foldl_put. Qed.
Lemma last_wins_sub l x : x ∈ last_wins l → x ∈ l.
Proof.
  induction l as [|y l IH] using rev_ind; [done|]. rewrite last_wins_snoc. unfold put.
  rewrite !elem_of_app, list_elem_of_filter. intros [[_ H]|H]; [left; by apply IH|by right].
Qed.
Lemma last_wins_NoDup l : NoDup (key <$> last_wins l).
Proof.
  induction l as [|x l IH] using rev_ind; [constructor|]. rewrite last_wins_snoc. unfold put.
  rewrite fmap_app. apply NoDup_app. split_and!.
  - eapply sublist_NoDup; [exact IH|]. apply fmap_sublist, sublist_filter.
  - intros k (y & -> & [Hy _]%list_elem_of_filter)%list_elem_of_fmap. by intros E%list_elem_of_singleton.
  - apply NoDup_singleton.
Qed.
Lemma last_wins_id l : NoDup (key <$> l) → last_wins l = l.
Proof.
  induction l as [|x l IH] using rev_ind; [done|]. rewrite fmap_app. intros (H1 & H2 & _)%NoDup_app.
  rewrite last_wins_snoc. unfold put. rewrite (IH H1). f_equal.
  apply filter_all. intros y Hy E. apply (H2 (key y)); [by apply list_elem_of_fmap_2|].
  simpl. rewrite E. by left.
Qed.
Lemma last_wins_keys l x : x ∈ last_wins l → key x ∈ key <$> l.
Proof. intros H%last_wins_sub. by apply list_elem_of_fmap_2. Qed.

(** Merging the same references a second time changes nothing. *)
Lemma merge_again l k n :
  let m := _bounded_tail (last_wins (l ++ k)) n in _bounded_tail (last_wins (m ++ k)) n = m.
Proof.
  intros m. assert (NoDup (key <$> m)) as Hm.
  { unfold m. rewrite tail_fmap. eapply sublist_NoDup; [apply (last_wins_NoDup (l ++ k))|].
    apply sublist_drop. }
  rewrite last_wins_app, (last_wins_id m Hm). unfold m. rewrite last_wins_app. set (L := last_wins k).
  set (F := filter _ (last_wins l)).
  assert (filter (λ y, key y ∉ key <$> k) F = F) as HF.
  { apply filter_all. intros y [Hy _]%list_elem_of_filter. exact Hy. }
  assert (∀ j, filter (λ y, key y ∉ key <$> k) (drop j L) = []) as HL.
  { intros j. apply filter_none. intros y Hy Hn. apply Hn, last_wins_keys.
    eapply elem_of_sublist; [exact Hy|apply sublist_drop]. }
  assert (∀ j, filter (λ y, key y ∉ key <$> k) (drop j F) = drop j F) as HFd.
  { intros j. apply filter_all. intros y Hy. unfold F in Hy.
    apply elem_of_sublist with (2 := sublist_drop _ _) in Hy. by apply list_elem_of_filter in Hy as [? _]. }
  set (n0 := (length F + length L - n)%nat).
  assert (_bounded_tail (F ++ L) n = drop n0 F ++ drop (n0 - length F) L) as ->.
  { unfold _bounded_tail. by rewrite length_app, drop_app. }
  rewrite filter_app, HL, HFd, app_nil_r.
  unfold _bounded_tail. rewrite length_app, length_drop, drop_app, drop_drop, length_drop.
  destruct (decide (length F ≤ n0)%nat) as [Hn|Hn].
  - rewrite !(drop_ge F) by lia. simpl. f_equal. lia.
  - f_equal; f_equal; lia.
Qed.
End last_wins.

(** ** The merges in normal form *)

Lemma positions_snoc m x : positions_of (m ++ [x]) = <[ref_key x := length m]> (positions_of m).
Proof. unfold positions_of. rewrite imap_app, foldl_app. simpl. by rewrite Nat.add_0_r. Qed.
Lemma positions_lookup m k : NoDup (ref_key <$> m) →
  match positions_of m !! k with
  | Some i => ∃ x, m !! i = Some x ∧ ref_key x = k
  | None => k ∉ ref_key <$> m
  end.
Proof.
  induction m as [|x m IH] using rev_ind; [intros _; apply not_elem_of_nil|].
  rewrite positions_snoc, fmap_app. intros (Hm & Hx & _)%NoDup_app. specialize (IH Hm).
  destruct (decide (ref_key x = k)) as [<-|Hk].
  - rewrite lookup_insert_eq. exists x. by rewrite lookup_app_r, Nat.sub_diag by lia.
  - rewrite lookup_insert_ne by done. destruct (positions_of m !! k) as [i|].
    + destruct IH as (y & Hy & <-). exists y. split; [|done]. by apply lookup_app_l_Some.
    + rewrite elem_of_app. simpl. intros [?|E%list_elem_of_singleton]; [done|]. by subst.
Qed.
Lemma delete_key {A K} `{EqDecision K} (key : A → K) m i x : NoDup (key <$> m) → m !! i = Some x →
  delete i m = filter (λ y, key y ≠ key x) m.
Proof.
  intros Hm Hi. apply list_elem_of_split_length in Hi as (l & k & -> & ->). rewrite delete_middle.
  rewrite fmap_app, fmap_cons in Hm. apply NoDup_app in Hm as (_ & Hl & [Hk _]%NoDup_cons).
  rewrite filter_app, filter_cons_False by tauto. f_equal; symmetry; apply filter_all; intros y Hy E.
  - apply (Hl (key y)); [by apply list_elem_of_fmap_2|]. rewrite E. left.
  - apply Hk. rewrite <- E. by apply list_elem_of_fmap_2.
Qed.

Lemma put_NoDup {A K} `{EqDecision K} (key : A → K) m x : NoDup (key <$> m) → NoDup (key <$> put key m x).
Proof.
  intros Hm. rewrite <- (last_wins_id key m Hm), <- last_wins_snoc. apply last_wins_NoDup.
Qed.

Lemma merge_ref_put m item : NoDup (ref_key <$> m) → _validate_active_ref (VDict item) = Ok tt →
  merge_ref (m, positions_of m) (VDict item) = Ok (put ref_key m item, positions_of (put ref_key m item)).
Proof.
  intros Hm Hv. unfold merge_ref. rewrite Hv. cbn [mbind result_bind dict_of as_dict of_option fst snd].
  unfold put. rewrite positions_snoc.
  pose proof (positions_lookup m (ref_key item) Hm) as Hp. destruct (positions_of m !! ref_key item) as [i|].
  - destruct Hp as (x & Hx & E). assert ((length m <=? i)%nat = false) as ->.
    { apply Nat.leb_gt. by eapply lookup_lt_Some. }
    cbn [raise_when mbind result_bind fst snd]. rewrite (delete_key ref_key m i x Hm Hx), E. done.
  - rewrite (filter_all (λ y, ref_key y ≠ ref_key item) m); [done|].
    intros y Hy E. apply Hp. rewrite <- E. by apply list_elem_of_fmap_2.
Qed.

Definition valid_refs (l : list pydict) : Prop := Forall (λ d, _validate_active_ref (VDict d) = Ok tt) l.
Definition valid_effects (l : list pydict) : Prop := Forall (λ d, _validate_effect_ref (VDict d) = Ok tt) l.

Lemma merge_refs_eq existing new : valid_refs existing → valid_refs new →
  _merge_refs (VDict <$> existing) new = Ok (_bounded_tail (last_wins ref_key (existing ++ new)) _MAX_ACTIVE_REFS).
Proof.
  intros He Hn. unfold _merge_refs. rewrite <- fmap_app.
  assert (∀ l m, valid_refs l → NoDup (ref_key <$> m) →
    foldR merge_ref (m, positions_of m) (VDict <$> l) = Ok (foldl (put ref_key) m l, positions_of (foldl (put ref_key) m l))) as H.
  { induction l as [|x l IH]; intros m Hl Hm; [done|]. apply Forall_cons in Hl as [Hx Hl].
    cbn [foldR fmap list_fmap]. rewrite merge_ref_put by done. apply IH; [done|by apply put_NoDup]. }
  change (∅ : gmap (pystr * pystr * option Z) nat) with (positions_of []). rewrite H; [done| |constructor].
  by apply Forall_app.
Qed.

Lemma merge_effect_ref_put m item : _validate_effect_ref (VDict item) = Ok tt →
  merge_effect_ref m (VDict item) = Ok (put effect_key m item).
Proof.
  intros Hv. unfold merge_effect_ref. rewrite Hv. cbn [mbind result_bind dict_of as_dict of_option]. unfold put.
  do 2 f_equal. destruct (mem _ _) eqn:E; [done|]. apply mem_false in E. symmetry. apply filter_all.
  intros y Hy Ey. apply E. rewrite <- Ey. by apply list_elem_of_fmap_2.
Qed.

Lemma merge_effect_refs_eq existing new : valid_effects existing → valid_effects new →
  _merge_effect_refs (VDict <$> existing) new
    = Ok (_bounded_tail (last_wins effect_key (existing ++ new)) _MAX_EFFECT_REFS).
Proof.
  intros He Hn. unfold _merge_effect_refs. rewrite <- fmap_app.
  assert (∀ l m, valid_effects l →
    foldR merge_effect_ref m (VDict <$> l) = Ok (foldl (put effect_key) m l)) as H.
  { induction l as [|x l IH]; intros m Hl; [done|]. apply Forall_cons in Hl as [Hx Hl].
    cbn [foldR fmap list_fmap]. rewrite merge_effect_ref_put by done. by apply IH. }
  rewrite H; [done|]. by apply Forall_app.
Qed.

(** ** Valid contexts *)

Record parts := MkParts {
  pt_revision : Z;
  pt_recent : list pyval;
  pt_summary : list pyval;
  pt_active : list pydict;
  pt_evidence : list pyval;
  pt_effects : list pydict;
  pt_settings : pydict }.
Definition context_of (conversation_uuid : pystr) (x : parts) : pydict :=
  [(u "format_version", VInt 1); (u "conversation_id", VStr conversation_uuid); (u "revision", VInt (pt_revision x));
   (u "recent_messages", VList (pt_recent x)); (u "rolling_summary", VList (pt_summary x));
   (u "active_refs", VList (VDict <$> pt_active x)); (u "evidence_refs", VList (pt_evidence x));
   (u "verified_effect_refs", VList (VDict <$> pt_effects x)); (u "session_settings", VDict (pt_settings x))].

Definition all_valid (check : pyval → checked unit) (n : nat) (l : list pyval) : Prop :=
  (length l ≤ n)%nat ∧ Forall (λ v, check v = Ok tt) l.
Record valid_parts (x : parts) : Prop := {
  vp_revision : 0 ≤ pt_revision x;
  vp_recent : all_valid _validate_message_item _MAX_RECENT_MESSAGES (pt_recent x);
  vp_summary : all_valid _validate_summary_item _MAX_ROLLING_SUMMARY (pt_summary x);
  vp_active : (length (pt_active x) ≤ _MAX_ACTIVE_REFS)%nat ∧ valid_refs (pt_active x);
  vp_evidence : all_valid _validate_evidence_ref _MAX_EVIDENCE_REFS (pt_evidence x);
  vp_effects : (length (pt_effects x) ≤ _MAX_EFFECT_REFS)%nat ∧ valid_effects (pt_effects x);
  vp_settings : _validate_session_settings (VDict (pt_settings x)) = Ok tt }.

Lemma validate_items_Ok n check l : all_valid check n l → _validate_items n check (VList l) = Ok tt.
Proof.
  intros [Hn Hl]. unfold _validate_items. cbn [as_list of_option mbind result_bind].
  unfold refuse. rewrite (proj2 (Nat.ltb_ge _ _) Hn). cbn [raise_when mbind result_bind].
  assert (mapR check l = Ok ((λ _, tt) <$> l)) as ->; [|done].
  apply mapR_Ok. apply Forall2_fmap_r. rewrite Forall2_same_length_lookup. split; [done|].
  intros i x y Hx Hy. assert (x = y) as <- by congruence. rewrite Forall_lookup in Hl. by apply (Hl i).
Qed.
Lemma dicts_valid check n l : (length l ≤ n)%nat → Forall (λ d : pydict, check (VDict d) = Ok tt) l →
  all_valid check n (VDict <$> l).
Proof. intros Hn Hl. split; [by rewrite length_fmap|]. by apply Forall_fmap. Qed.

Lemma validate_context c x : valid_parts x → _validate_snapshot (VDict (context_of c x)) = Ok (context_of c x).
Proof.
  intros [H1 H2 H3 [H4 H4'] H5 [H6 H6'] H7]. unfold _validate_snapshot.
  cbn [dict_of as_dict of_option mbind result_bind].
  replace (has_keys (context_of c x) context_keys) with true by (symmetry; vm_compute; reflexivity).
  change (get (u "format_version") (context_of c x)) with (VInt 1).
  change (get (u "conversation_id") (context_of c x)) with (VStr c).
  change (get (u "revision") (context_of c x)) with (VInt (pt_revision x)).
  change (get (u "recent_messages") (context_of c x)) with (VList (pt_recent x)).
  change (get (u "rolling_summary") (context_of c x)) with (VList (pt_summary x)).
  change (get (u "active_refs") (context_of c x)) with (VList (VDict <$> pt_active x)).
  change (get (u "evidence_refs") (context_of c x)) with (VList (pt_evidence x)).
  change (get (u "verified_effect_refs") (context_of c x)) with (VList (VDict <$> pt_effects x)).
  change (get (u "session_settings") (context_of c x)) with (VDict (pt_settings x)).
  unfold refuse. change (eq_int (VInt 1) 1) with true. cbn [negb is_str raise_when mbind result_bind].
  rewrite (proj2 (Z.ltb_ge _ _) H1). cbn [raise_when mbind result_bind].
  rewrite !validate_items_Ok, H7 by (first [done|by apply dicts_valid]). done.
Qed.

(** Reads a dictionary whose keys are written out. *)
Ltac known_keys :=
  match goal with |- context [has_keys ?d ?ks] =>
    replace (has_keys d ks) with true by (symmetry; vm_compute; reflexivity)
  end.
Ltac open_item := cbn [dict_of as_dict of_option mbind result_bind]; known_keys.

(** ** Texts *)

Lemma excerpt_length s n : (0 < n)%nat → (length (_excerpt s n) ≤ n)%nat.
Proof.
  intros Hn. unfold _excerpt. destruct (_ <=? n)%nat eqn:E; [by apply Nat.leb_le in E|].
  set (t := take _ _). destruct (rstrip_prefix t) as [p Hp]. rewrite length_app. simpl.
  assert (length (rstrip t) ≤ length t)%nat by (rewrite Hp at 2; rewrite length_app; lia).
  assert (length t ≤ n - 1)%nat by (unfold t; rewrite length_take; lia). lia.
Qed.

Definition message_ok (m : pystr * message) : Prop := short_id m.1 = true ∧ m_role m.2 ∈ [u "user"; u "assistant"].

Lemma role_hashable s ss : refuse_outside (VStr s) ss = refuse (negb (mem s ss)).
Proof. done. Qed.

Definition message_value (m : pystr * message) : pyval :=
  VDict [(u "message_id", VStr m.1); (u "role", VStr (m_role m.2));
         (u "content", VStr (_excerpt (m_content m.2) _MAX_RECENT_CONTENT))].
Lemma message_context_Ok m : message_ok m →
  _message_context m = Ok (message_value m) ∧ _validate_message_item (message_value m) = Ok tt.
Proof.
  intros [Hid Hr%mem_true]. unfold _message_context. rewrite Hr. split; [done|].
  unfold _validate_message_item, message_value. open_item.
  match goal with |- context [get (u "message_id") ?d] =>
    change (get (u "message_id") d) with (VStr m.1); change (get (u "role") d) with (VStr (m_role m.2));
    change (get (u "content") d) with (VStr (_excerpt (m_content m.2) _MAX_RECENT_CONTENT)) end.
  rewrite role_hashable, Hr. cbn [is_str]. rewrite Hid.
  by rewrite (proj2 (Nat.leb_le _ _) (excerpt_length (m_content m.2) _MAX_RECENT_CONTENT ltac:(unfold _MAX_RECENT_CONTENT; lia))).
Qed.

(** ** Turns *)

Definition message_list (p : turn_view) : list (pystr * message) :=
  option_list (tv_user_message p) ++ option_list (tv_assistant_message p).
Record turn_ok (p : turn_view) : Prop := {
  to_terminal : is_terminal (tv_turn p) = true;
  to_uuid : short_id (t_uuid (tv_turn p)) = true;
  to_messages : Forall message_ok (message_list p);
  to_asked : is_Some (tv_user_message p) }.

Lemma turn_summary_valid p : turn_ok p → _validate_summary_item (_turn_summary p) = Ok tt.
Proof.
  intros [Ht Hu _ _]. unfold _turn_summary, _validate_summary_item. cbn [dict_of as_dict of_option mbind result_bind].
  set (intent := _excerpt _ _MAX_USER_INTENT). set (outcome := _excerpt _ _MAX_ASSISTANT_OUTCOME).
  set (code := match t_error_code _ with Some _ => _ | None => _ end). known_keys.
  match goal with |- context [get (u "turn_id") ?d] =>
    change (get (u "turn_id") d) with (VStr (t_uuid (tv_turn p)));
    change (get (u "state") d) with (VStr (state_event (t_state (tv_turn p))));
    change (get (u "user_intent") d) with (VStr intent); change (get (u "assistant_outcome") d) with (VStr outcome);
    change (get (u "failure_code") d) with code end.
  rewrite role_hashable. unfold is_terminal in Ht. rewrite Ht. cbn [is_str]. rewrite Hu.
  assert (length intent ≤ _MAX_USER_INTENT)%nat as ->%Nat.leb_le by (apply excerpt_length; unfold _MAX_USER_INTENT; lia).
  assert (length outcome ≤ _MAX_ASSISTANT_OUTCOME)%nat as ->%Nat.leb_le
    by (apply excerpt_length; unfold _MAX_ASSISTANT_OUTCOME; lia).
  unfold code. destruct (t_error_code _) as [c|]; [|done]. destruct (safe_token c) eqn:E; [|done].
  cbn [is_none is_str orb]. by rewrite E.
Qed.

Lemma record_ref_valid model id : model_name model = true → 0 < id → _validate_active_ref (VDict (record_ref model id)) = Ok tt.
Proof.
  intros Hm Hi. unfold record_ref, _validate_active_ref. open_item.
  match goal with |- context [get (u "kind") ?d] =>
    change (get (u "kind") d) with (VStr (u "odoo_record")); change (get (u "model") d) with (VStr model);
    change (get (u "res_id") d) with (VInt id) end.
  rewrite role_hashable. replace (mem (u "odoo_record") _) with true by (symmetry; vm_compute; reflexivity).
  replace (py_eq (VStr (u "odoo_record")) _) with false by (symmetry; vm_compute; reflexivity).
  cbn [is_str positive_int]. by rewrite Hm, (proj2 (Z.ltb_lt _ _) Hi).
Qed.
Lemma model_ref_valid model : model_name model = true → _validate_active_ref (VDict (model_ref model)) = Ok tt.
Proof.
  intros Hm. unfold model_ref, _validate_active_ref. open_item.
  match goal with |- context [get (u "kind") ?d] =>
    change (get (u "kind") d) with (VStr (u "odoo_model")); change (get (u "model") d) with (VStr model);
    change (get (u "res_id") d) with VNone end.
  rewrite role_hashable. replace (mem (u "odoo_model") _) with true by (symmetry; vm_compute; reflexivity).
  replace (py_eq (VStr (u "odoo_model")) _) with true by (symmetry; vm_compute; reflexivity).
  cbn [is_str]. by rewrite Hm.
Qed.
Lemma screen_refs_valid screen : valid_refs (_screen_refs screen).
Proof.
  unfold _screen_refs, valid_refs. destruct screen as [| | | | | |d]; try constructor.
  destruct (get (u "model") d) as [| | | |model| |]; try constructor. destruct (model_name model) eqn:Hm; [|constructor].
  assert (∀ v, Forall (λ z, 0 < z) (positive_ids v)) as Hp.
  { intros v. apply Forall_forall. intros z Hz%list_elem_of_In. unfold positive_ids in Hz.
    apply filter_In in Hz as [_ ?%Z.ltb_lt]. done. }
  set (ids := positive_ids _ ++ positive_ids _).
  assert (Forall (λ z, 0 < z) ids) as Hl by by apply Forall_app.
  destruct ids as [|z l]; [constructor; [by apply model_ref_valid|constructor]|].
  apply Forall_fmap. eapply Forall_impl; [exact Hl|]. intros y Hy. by apply record_ref_valid.
Qed.

Lemma distinct_ids_spec l seen ids : NoDup seen → Forall (λ z, 0 < z) seen → distinct_ids seen l = Some ids →
  NoDup ids ∧ Forall (λ z, 0 < z) ids.
Proof.
  revert seen. induction l as [|v l IH]; intros seen Hn Hp; simpl; [by intros [= <-]|].
  destruct v; try done. destruct (_ || _) eqn:E; [done|].
  apply orb_false_iff in E as [Hz%Z.leb_gt Hm%mem_false]. apply IH.
  - apply NoDup_app. split_and!; [done| |apply NoDup_singleton]. intros x Hx ->%list_elem_of_singleton. done.
  - apply Forall_app. split; [done|]. by constructor.
Qed.

Lemma omap_ints (ids : list Z) : omap as_int (VInt <$> ids) = ids.
Proof. induction ids as [|z ids IH]; [done|]. cbn. by rewrite IH. Qed.

Lemma effect_resource_valid v d : _effect_resource v = Some d → _validate_effect_resource (VDict d) = Ok tt.
Proof.
  unfold _effect_resource. destruct (as_dict v) as [res|]; [|done]. simpl.
  destruct (as_str _) as [model|]; [|done]. simpl. destruct (model_name model) eqn:Hm; [|done]. simpl.
  destruct (distinct_ids [] _) as [ids|] eqn:Hd; [|done]. simpl. destruct (_ || _) eqn:Hl; [done|]. intros [= <-].
  apply distinct_ids_spec in Hd as [Hn Hp]; [|constructor..]. apply orb_false_iff in Hl as [H0%bool_decide_eq_false H1%Nat.ltb_ge].
  unfold _validate_effect_resource. open_item.
  match goal with |- context [get (u "record_ids") ?d] =>
    change (get (u "record_ids") d) with (VList (VInt <$> ids)); change (get (u "model") d) with (VStr model) end.
  cbn [as_list of_option mbind result_bind is_str]. rewrite Hm, length_fmap, omap_ints, (proj2 (has_dup_false ids) Hn).
  rewrite (proj2 (Nat.leb_le _ _) H1), (proj2 (Nat.leb_le 1 (length ids))) by lia.
  replace (forallb positive_int (VInt <$> ids)) with true; [done|]. symmetry. apply forallb_true.
  intros x (z & -> & Hz)%list_elem_of_fmap. rewrite Forall_forall in Hp. by apply Z.ltb_lt, Hp.
Qed.

Lemma validate_effect_ref_Ok turn_id position capability more :
  let d := [(u "turn_id", VStr turn_id); (u "position", VInt position); (u "capability", VStr capability);
            (u "state", VStr (u "completed"))] ++ more in
  short_id turn_id = true → 0 < position → safe_token capability = true →
  keys more ⊆ [u "operation"; u "resource"] →
  (is_none (get (u "operation") d) || is_str safe_token (get (u "operation") d) = true) →
  (get (u "resource") d = VNone ∨ _validate_effect_resource (get (u "resource") d) = Ok tt) →
  _validate_effect_ref (VDict d) = Ok tt.
Proof.
  intros d Ht Hp Hc Hk Ho Hr. unfold _validate_effect_ref. cbn [dict_of as_dict of_option mbind result_bind].
  assert (subset_of [u "turn_id"; u "position"; u "capability"; u "state"] (keys d) = true) as ->.
  { apply subset_of_true. intros k Hin. unfold keys, d. rewrite fmap_app, elem_of_app. by left. }
  assert (keys_within d ([u "turn_id"; u "position"; u "capability"; u "state"] ++ [u "operation"; u "resource"]) = true) as ->.
  { apply subset_of_true. intros k. unfold keys, d. rewrite fmap_app, !elem_of_app.
    intros [H|H]; [by left|right]. by apply Hk. }
  change (get (u "turn_id") d) with (VStr turn_id). change (get (u "position") d) with (VInt position).
  change (get (u "capability") d) with (VStr capability). change (get (u "state") d) with (VStr (u "completed")).
  cbn [is_str positive_int andb negb refuse raise_when mbind result_bind].
  rewrite Ht, Hc, (proj2 (Z.ltb_lt _ _) Hp), Ho. cbn [negb orb refuse raise_when mbind result_bind].
  replace (py_eq (VStr (u "completed")) (VStr (u "completed"))) with true by (symmetry; vm_compute; reflexivity).
  cbn [negb refuse raise_when mbind result_bind].
  destruct Hr as [->|Hr]; [done|]. by destruct (get (u "resource") d).
Qed.

Lemma effect_ref_valid turn_id i v d : short_id turn_id = true → (0 < i)%nat →
  effect_ref turn_id i v = Some d → _validate_effect_ref (VDict d) = Ok tt.
Proof.
  intros Ht Hi. unfold effect_ref. destruct (as_dict v) as [step|]; [|done]. simpl. destruct (negb _); [done|].
  destruct (as_str _) as [c|]; [|done]. simpl. destruct (safe_token c) eqn:Hc; [|done]. simpl.
  set (position := match get (u "position") step with VInt _ => _ | _ => _ end).
  assert (0 < position) as Hp.
  { unfold position. destruct (get _ step); try lia. destruct (z <=? 0) eqn:E; [lia|by apply Z.leb_gt in E]. }
  set (operation := match get (u "result") step with VDict _ => _ | _ => _ end).
  assert (operation = [] ∨ ∃ s, safe_token s = true ∧ operation = [(u "operation", VStr s)]) as Hop.
  { unfold operation. destruct (get (u "result") step) as [| | | | | |d0]; try (by left). destruct (get _ d0) as [| | | |s| |]; try (by left).
    destruct (safe_token s) eqn:E; [right; eauto|by left]. }
  pose proof (effect_resource_valid (get (u "result") step)) as Hres.
  destruct (_effect_resource _) as [r|]; intros [= <-].
  - specialize (Hres r eq_refl).
    destruct Hop as [->|(s & Hs & ->)]; apply validate_effect_ref_Ok; try done.
    + intros k. simpl. set_solver.
    + by right.
    + intros k. simpl. set_solver.
    + by right.
  - destruct Hop as [->|(s & Hs & ->)]; apply validate_effect_ref_Ok; try done; try (by left);
      intros k; simpl; set_solver.
Qed.

(** ** What a context says, as a fold over the history *)

Definition with_settings (settings : pydict) (x : parts) : parts :=
  MkParts (pt_revision x) (pt_recent x) (pt_summary x) (pt_active x) (pt_evidence x) (pt_effects x) settings.
Definition merged_active (active : list pydict) (p : turn_view) : list pydict :=
  _bounded_tail (last_wins ref_key (active ++ _screen_refs (t_screen (tv_turn p)))) _MAX_ACTIVE_REFS.
Definition turn_effects (p : turn_view) : list pydict :=
  _verified_effect_refs (t_uuid (tv_turn p)) (t_plan (tv_turn p)).
Definition fold_parts (x : parts) (p : turn_view) : parts :=
  MkParts (pt_revision x + 1) [] (_bounded_tail (pt_summary x ++ [_turn_summary p]) _MAX_ROLLING_SUMMARY)
    (merged_active (pt_active x) p) (pt_evidence x)
    (_bounded_tail (last_wins effect_key (pt_effects x ++ turn_effects p)) _MAX_EFFECT_REFS) (pt_settings x).
Definition empty_parts : parts := MkParts 0 [] [] [] [] [] [].
Definition history_parts (h : list turn_view) : parts := foldl fold_parts empty_parts h.

Definition recent_messages (ps : list turn_view) : list pyval :=
  _bounded_tail (message_value <$> (ps ≫= message_list)) _MAX_RECENT_MESSAGES.
Definition settings_of (row : context_row) : pydict :=
  [(u "odoo_user_language", match cx_lang row with Some ((_ :: _) as l) => VStr l | _ => VBool false end);
   (u "response_language_mode", VStr (or_inherit (cx_response_mode row)));
   (u "response_language", match default [] (cx_response_language row) with [] => VBool false | l => VStr l end)].
Definition capture (b : parts) (ps : list turn_view) (p : turn_view) (settings : pydict) : parts :=
  MkParts (pt_revision b) (recent_messages ps) (pt_summary b) (merged_active (pt_active b) p) (pt_evidence b)
    (pt_effects b) settings.
Definition snapshot_parts (h : list turn_view) (p : turn_view) : parts :=
  capture (history_parts h) h p (settings_of (tv_row p)).

Lemma turn_effects_valid p : turn_ok p → valid_effects (turn_effects p).
Proof.
  intros [_ Hu _ _]. unfold turn_effects, _verified_effect_refs, valid_effects.
  destruct (as_dict (t_plan _)) as [envelope|]; [|constructor]. simpl.
  destruct (as_dict _) as [plan|]; [|constructor]. simpl. destruct (negb _); [constructor|].
  destruct (as_list _) as [steps|]; [|constructor]. simpl. apply tail_Forall, Forall_forall.
  intros d (o & Ho & Hd)%list_elem_of_omap. apply list_elem_of_lookup in Ho as [i Hi].
  rewrite list_lookup_imap in Hi. destruct (steps !! i) as [v|]; [|done]. injection Hi as <-.
  eapply effect_ref_valid; [exact Hu| |exact Hd]. lia.
Qed.

Lemma merged_active_ok active p : valid_refs active →
  (length (merged_active active p) ≤ _MAX_ACTIVE_REFS)%nat ∧ valid_refs (merged_active active p).
Proof.
  intros Ha. split; [apply tail_length|]. apply tail_Forall, Forall_forall. intros d Hd%last_wins_sub.
  assert (valid_refs (active ++ _screen_refs (t_screen (tv_turn p)))) as H by (apply Forall_app; split; [done|apply screen_refs_valid]).
  unfold valid_refs in H. rewrite Forall_forall in H. by apply H.
Qed.

Lemma fold_parts_valid x p : valid_parts x → turn_ok p → valid_parts (fold_parts x p).
Proof.
  intros [H1 H2 H3 H4 H5 H6 H7] Hp. split; simpl; [lia|split; [apply Nat.le_0_l|constructor]| |apply merged_active_ok, H4|exact H5| |exact H7].
  - split; [apply tail_length|]. apply tail_Forall, Forall_app. split; [apply H3|].
    constructor; [by apply turn_summary_valid|constructor].
  - split; [apply tail_length|]. apply tail_Forall, Forall_forall. intros d Hd%last_wins_sub.
    assert (valid_effects (pt_effects x ++ turn_effects p)) as H by (apply Forall_app; split; [apply H6|by apply turn_effects_valid]).
    unfold valid_effects in H. rewrite Forall_forall in H. by apply H.
Qed.

(** Writing a field of a written out context *)
Lemma set_revision c x z : dict_set (u "revision") (VInt z) (context_of c x) =
  context_of c (MkParts z (pt_recent x) (pt_summary x) (pt_active x) (pt_evidence x) (pt_effects x) (pt_settings x)).
Proof. reflexivity. Qed.
Lemma set_summary c x l : dict_set (u "rolling_summary") (VList l) (context_of c x) =
  context_of c (MkParts (pt_revision x) (pt_recent x) l (pt_active x) (pt_evidence x) (pt_effects x) (pt_settings x)).
Proof. reflexivity. Qed.
Lemma set_active c x l : dict_set (u "active_refs") (VList (VDict <$> l)) (context_of c x) =
  context_of c (MkParts (pt_revision x) (pt_recent x) (pt_summary x) l (pt_evidence x) (pt_effects x) (pt_settings x)).
Proof. reflexivity. Qed.
Lemma set_effects c x l : dict_set (u "verified_effect_refs") (VList (VDict <$> l)) (context_of c x) =
  context_of c (MkParts (pt_revision x) (pt_recent x) (pt_summary x) (pt_active x) (pt_evidence x) l (pt_settings x)).
Proof. reflexivity. Qed.
Lemma set_recent c x l : dict_set (u "recent_messages") (VList l) (context_of c x) =
  context_of c (MkParts (pt_revision x) l (pt_summary x) (pt_active x) (pt_evidence x) (pt_effects x) (pt_settings x)).
Proof. reflexivity. Qed.
Lemma set_settings c x d : dict_set (u "session_settings") (VDict d) (context_of c x) = context_of c (with_settings d x).
Proof. reflexivity. Qed.
Lemma items_summary c x : items (u "rolling_summary") (context_of c x) = pt_summary x.
Proof. reflexivity. Qed.
Lemma items_active c x : items (u "active_refs") (context_of c x) = VDict <$> pt_active x.
Proof. reflexivity. Qed.
Lemma items_effects c x : items (u "verified_effect_refs") (context_of c x) = VDict <$> pt_effects x.
Proof. reflexivity. Qed.

Lemma fold_turn_parts c x p : valid_parts x → turn_ok p → _fold_turn (context_of c x) p = Ok (context_of c (fold_parts x p)).
Proof.
  intros Hx Hp. unfold _fold_turn. rewrite validate_context by done. cbn [mbind result_bind].
  change (get (u "revision") (context_of c x)) with (VInt (pt_revision x)).
  rewrite set_revision, items_summary, set_summary, items_active. cbn [as_int default pt_active pt_summary].
  rewrite merge_refs_eq by (first [apply Hx|apply screen_refs_valid]). cbn [mbind result_bind].
  rewrite set_active, items_effects. cbn [pt_effects]. fold (turn_effects p).
  rewrite merge_effect_refs_eq by (first [apply Hx|by apply turn_effects_valid]). cbn [mbind result_bind].
  rewrite set_effects, set_recent. done.
Qed.
Lemma fold_turns_parts c x h : valid_parts x → Forall turn_ok h →
  foldR _fold_turn (context_of c x) h = Ok (context_of c (foldl fold_parts x h)) ∧ valid_parts (foldl fold_parts x h).
Proof.
  intros Hx Hh. revert x Hx. induction Hh as [|p h Hp Hh IH]; intros x Hx; [done|]. cbn [foldR foldl].
  rewrite fold_turn_parts by done. by apply IH, fold_parts_valid.
Qed.

(** ** Settings *)

Definition short_text (s : pystr) : Prop := (length s ≤ 35)%nat ∧ 0%N ∉ s.
Record settings_ok (row : context_row) : Prop := {
  so_lang : from_option short_text True (cx_lang row);
  so_language : short_text (default [] (cx_response_language row));
  so_response : is_ok (_normalize_response_language (or_inherit (cx_response_mode row))
                         (default [] (cx_response_language row))) = true }.

Lemma setting_text_ok k s : safe_setting_key k = true → short_text s → setting_ok (k, VStr s) = true.
Proof.
  intros Hk [Hl Hn]. unfold setting_ok. cbn [fst snd]. rewrite Hk, (proj2 (mem_false 0%N s) Hn). cbn [andb negb].
  rewrite andb_true_r. apply Nat.leb_le. lia.
Qed.
Lemma lang_setting_ok row : settings_ok row →
  setting_ok (u "odoo_user_language", match cx_lang row with Some ((_ :: _) as l) => VStr l | _ => VBool false end) = true.
Proof.
  intros [H _ _]. destruct (cx_lang row) as [[|c l]|]; try (vm_compute; reflexivity).
  apply setting_text_ok; [by vm_compute|exact H].
Qed.
Lemma settings_of_ok row : settings_ok row → forallb setting_ok (settings_of row) = true.
Proof.
  intros H. unfold settings_of. cbn [forallb]. rewrite lang_setting_ok by done.
  assert (setting_ok (u "response_language_mode", VStr (or_inherit (cx_response_mode row))) = true) as ->.
  { destruct H as [_ _ H]. unfold _normalize_response_language in H. destruct (mem _ _) eqn:E; [|done].
    apply mem_true in E. apply setting_text_ok; [by vm_compute|].
    assert (Forall short_text _RESPONSE_LANGUAGE_MODES) as Hm.
    { repeat constructor; try (vm_compute; lia); apply (bool_decide_unpack _); by vm_compute. }
    rewrite Forall_forall in Hm. by apply Hm. }
  cbn [andb]. rewrite andb_true_r. destruct (default [] _) eqn:E; [by vm_compute|].
  apply setting_text_ok; [by vm_compute|]. rewrite <- E. apply H.
Qed.

Lemma settings_valid d : (length d ≤ 8)%nat → forallb setting_ok d = true → _validate_session_settings (VDict d) = Ok tt.
Proof.
  intros Hl Hd. unfold _validate_session_settings, _MAX_SESSION_SETTINGS. cbn [dict_of as_dict of_option mbind result_bind].
  by rewrite (proj2 (Nat.ltb_ge _ _) Hl), Hd.
Qed.

(** The settings of a checkpoint are none, or those of its turn. *)
Definition captured_settings (d : pydict) : Prop := d = [] ∨ ∃ row, settings_ok row ∧ d = settings_of row.

Lemma session_settings row d : settings_ok row → captured_settings d →
  let d' := _session_settings_for_turn d (cx_lang row) in
  _validate_session_settings (VDict d') = Ok tt ∧
  dict_set (u "response_language")
    (match default [] (cx_response_language row) with [] => VBool false | _ => VStr (default [] (cx_response_language row)) end)
    (dict_set (u "response_language_mode") (VStr (or_inherit (cx_response_mode row))) d') = settings_of row.
Proof.
  intros Hrow Hd. pose proof (lang_setting_ok row Hrow) as Hl.
  set (v := match cx_lang row with Some ((_ :: _) as l) => VStr l | _ => VBool false end) in *.
  assert (_session_settings_for_turn d (cx_lang row) = dict_set (u "odoo_user_language") v d) as ->.
  { unfold _session_settings_for_turn, v. destruct (cx_lang row) as [[|c l]|] eqn:E; [done| |done].
    destruct Hrow as [H _ _]. rewrite E in H. destruct H as [H1 H2].
    by rewrite (proj2 (mem_false 0%N _) H2), (proj2 (Nat.leb_le _ _) H1). }
  unfold settings_of. fold v. destruct Hd as [->|(r & Hr & ->)].
  - split; [|by destruct (default [] _)].
    apply settings_valid; [vm_compute; lia|]. change (dict_set (u "odoo_user_language") v []) with [(u "odoo_user_language", v)].
    cbn [forallb]. by rewrite Hl.
  - split; [|by destruct (default [] (cx_response_language row))].
    apply settings_valid; [vm_compute; lia|]. pose proof (settings_of_ok r Hr) as Ho. unfold settings_of in *.
    match goal with |- context [dict_set ?k v ((?k, ?w) :: ?l)] => change (dict_set k v ((k, w) :: l)) with ((k, v) :: l) end.
    cbn [forallb] in *. rewrite Hl. by apply andb_true_iff in Ho as [_ Ho].
Qed.

(** ** Building *)

Lemma recent_eq ps : Forall turn_ok ps →
  _recent_causal_messages ps = Ok (recent_messages ps) ∧
  all_valid _validate_message_item _MAX_RECENT_MESSAGES (recent_messages ps).
Proof.
  intros Hps. assert (Forall message_ok (ps ≫= message_list)) as Hm.
  { apply Forall_bind. eapply Forall_impl; [exact Hps|]. intros p Hp. apply Hp. }
  unfold _recent_causal_messages. fold message_list.
  assert (mapR _message_context (ps ≫= message_list) = Ok (message_value <$> (ps ≫= message_list))) as ->.
  { apply mapR_Ok, Forall2_fmap_r, Forall_Forall2_diag. eapply Forall_impl; [exact Hm|].
    intros m H. by apply message_context_Ok. }
  split; [done|]. split; [apply tail_length|]. apply tail_Forall, Forall_fmap.
  eapply Forall_impl; [exact Hm|]. intros m H. by apply message_context_Ok.
Qed.

Lemma fold_settings x h : pt_settings (foldl fold_parts x h) = pt_settings x.
Proof. revert x. induction h as [|p h IH]; intros x; [done|]. simpl. by rewrite IH. Qed.

Lemma capture_valid b ps p d : valid_parts b → Forall turn_ok ps → _validate_session_settings (VDict d) = Ok tt →
  valid_parts (capture b ps p d).
Proof.
  intros [H1 H2 H3 H4 H5 H6 H7] Hps Hd.
  split; simpl; [done|by apply recent_eq|exact H3|apply merged_active_ok, H4|exact H5|exact H6|exact Hd].
Qed.

Lemma response_settings_eq c x row : settings_ok row →
  dict_set (u "response_language")
    (match default [] (cx_response_language row) with [] => VBool false | _ => VStr (default [] (cx_response_language row)) end)
    (dict_set (u "response_language_mode") (VStr (or_inherit (cx_response_mode row))) (pt_settings x)) = settings_of row →
  valid_parts (with_settings (settings_of row) x) →
  response_settings row (context_of c x) = Ok (context_of c (with_settings (settings_of row) x)).
Proof.
  intros Hrow Hd Hx. unfold response_settings.
  pose proof (so_response row Hrow) as Hn. destruct (_normalize_response_language _ _) as [m|e]; [|done].
  change (get (u "session_settings") (context_of c x)) with (VDict (pt_settings x)).
  cbn [mbind result_bind as_dict of_option]. rewrite <- (validate_context c _ Hx). f_equal. f_equal.
  rewrite set_settings. f_equal. f_equal. rewrite <- Hd. by destruct (default [] _).
Qed.

Lemma build_from c ps p b rest : Forall turn_ok ps → settings_ok (tv_row p) →
  _base_checkpoint ps c = Ok (context_of c b, rest) → valid_parts b → captured_settings (pt_settings b) →
  Forall turn_ok rest →
  _build_conversation_context_snapshot c ps p =
    Ok (context_of c (capture (foldl fold_parts b rest) ps p (settings_of (tv_row p)))).
Proof.
  intros Hps Hrow Hbase Hb Hd Hrest. unfold _build_conversation_context_snapshot.
  assert (existsb (λ q, negb (is_terminal (tv_turn q))) ps = false) as ->.
  { apply existsb_false. intros q Hq. rewrite Forall_forall in Hps. by rewrite (to_terminal q (Hps q Hq)). }
  cbn [refuse raise_when mbind result_bind]. rewrite Hbase. cbn [mbind result_bind].
  destruct (fold_turns_parts c b rest Hb Hrest) as [-> Hx]. set (x := foldl fold_parts b rest) in *.
  cbn [mbind result_bind]. destruct (recent_eq ps Hps) as [-> Hr]. cbn [mbind result_bind].
  rewrite items_active, merge_refs_eq by (first [apply Hx|apply screen_refs_valid]). cbn [mbind result_bind].
  change (get (u "session_settings") (context_of c x)) with (VDict (pt_settings x)). cbn [as_dict of_option mbind result_bind].
  assert (pt_settings x = pt_settings b) as -> by apply fold_settings.
  destruct (session_settings (tv_row p) (pt_settings b) Hrow Hd) as [Hv Hs].
  set (d := _session_settings_for_turn _ _) in *.
  pose proof (capture_valid x ps p d Hx Hps Hv) as Hc. pose proof (validate_context c _ Hc) as Hval.
  match goal with |- context [VDict ?l] => change l with (context_of c (capture x ps p d)) end.
  rewrite Hval. cbn [mbind result_bind]. rewrite response_settings_eq; [done|done|exact Hs|].
  apply (capture_valid x ps p (settings_of (tv_row p)) Hx Hps). apply settings_valid; [vm_compute; lia|].
  by apply settings_of_ok.
Qed.

(** ** Checkpoints *)

Definition forget (p : turn_view) : turn_view :=
  MkView (tv_id p) (tv_turn p) (with_context VNone (tv_row p)) (tv_user_message p) (tv_assistant_message p).
Definition has_context (p : turn_view) : Prop := truthy (cx_context (tv_row p)) = true.

(** The context that the whole history gives: the construction without any stored context *)
Definition rebuild (c : pystr) (h : list turn_view) (p : turn_view) : checked pydict :=
  _build_conversation_context_snapshot c (forget <$> h) p.

Lemma newest_context_none l later : Forall (λ p, ¬ has_context p) l → newest_context later l = None.
Proof.
  revert later. induction l as [|p l IH]; intros later; [done|]. intros [Hp Hl]%Forall_cons. simpl.
  unfold has_context in Hp. destruct (truthy _); [by destruct Hp|]. by apply IH.
Qed.
Lemma newest_context_split l later : Exists has_context l →
  ∃ l1 q l2, l = reverse l2 ++ q :: l1 ∧ has_context q ∧
    newest_context later l = Some (cx_context (tv_row q), q :: l2 ++ later).
Proof.
  revert later. induction l as [|p l IH]; intros later; [by inversion 1|]. intros H. simpl.
  destruct (truthy (cx_context (tv_row p))) eqn:E; [by exists l, p, []|].
  apply Exists_cons in H as [H|H]; [by unfold has_context in H; rewrite E in H|].
  destruct (IH (p :: later) H) as (l1 & q & l2 & -> & Hq & Hn). exists l1, q, (l2 ++ [p]).
  rewrite reverse_app. simpl. split_and!; [done..|]. by rewrite Hn, <- app_assoc.
Qed.

Lemma Exists_reverse {A} (P : A → Prop) l : Exists P l → Exists P (reverse l).
Proof. rewrite !Exists_exists. intros (x & Hx & HP). exists x. by rewrite elem_of_reverse. Qed.

Lemma forget_turn_ok p : turn_ok p → turn_ok (forget p).
Proof. by intros [? ? ? ?]. Qed.
Lemma forget_history x h : foldl fold_parts x (forget <$> h) = foldl fold_parts x h.
Proof. revert x. induction h as [|p h IH]; intros x; [done|]. simpl. by rewrite IH. Qed.
Lemma forget_recent h : recent_messages (forget <$> h) = recent_messages h.
Proof.
  unfold recent_messages. do 2 f_equal. induction h as [|p h IH]; [done|].
  cbn [fmap list_fmap mbind list_bind]. by f_equal.
Qed.

Lemma empty_valid : valid_parts empty_parts.
Proof.
  split; simpl; [lia|..|vm_compute; reflexivity]; (split; [apply Nat.le_0_l|constructor]).
Qed.
Lemma rebuild_parts c h p : Forall turn_ok h → settings_ok (tv_row p) →
  rebuild c h p = Ok (context_of c (snapshot_parts h p)).
Proof.
  intros Hh Hp. assert (Forall turn_ok (forget <$> h)) as Hf.
  { apply Forall_fmap. eapply Forall_impl; [exact Hh|]. exact forget_turn_ok. }
  unfold rebuild. rewrite (build_from c _ p empty_parts (forget <$> h)); [|done|done| |apply empty_valid|by left|done].
  - unfold capture, snapshot_parts. by rewrite forget_history, forget_recent.
  - unfold _base_checkpoint. rewrite newest_context_none; [done|]. apply Forall_reverse, Forall_fmap, Forall_true. done.
Qed.

(** Every stored context is the one that the turns before it gave. *)
Definition checkpointed (c : pystr) (h : list turn_view) : Prop :=
  ∀ h1 q h2, h = h1 ++ q :: h2 → has_context q →
    ∃ snapshot, cx_context (tv_row q) = VDict snapshot ∧ rebuild c h1 q = Ok snapshot.

Lemma fold_with_settings d x h :
  foldl fold_parts (with_settings d x) h = with_settings d (foldl fold_parts x h).
Proof. revert x. induction h as [|p h IH]; intros x; [done|]. simpl. by rewrite <- IH. Qed.
Lemma fold_captured b h1 q d : fold_parts (capture b h1 q d) q = with_settings d (fold_parts b q).
Proof.
  unfold fold_parts, capture, with_settings. cbn [pt_revision pt_summary pt_active pt_evidence pt_effects pt_settings].
  f_equal. unfold merged_active. exact (merge_again ref_key (pt_active b) _ _MAX_ACTIVE_REFS).
Qed.

Lemma recent_of_scan h : Forall turn_ok h →
  recent_messages (_bounded_tail h _MAX_PREDECESSOR_SCAN) = recent_messages h.
Proof.
  intros Hh. destruct (decide (length h ≤ _MAX_PREDECESSOR_SCAN)%nat) as [H|H]; [by rewrite tail_short|].
  destruct (tail_split h _MAX_PREDECESSOR_SCAN) as [k Hk]. set (scan := _bounded_tail h _) in *.
  assert (length scan = _MAX_PREDECESSOR_SCAN) as Hl by (unfold scan, _bounded_tail; rewrite length_drop; lia).
  assert (∀ l, Forall turn_ok l → (length l ≤ length (l ≫= message_list))%nat) as Hm.
  { induction 1 as [|p l [_ _ _ [m Hm]] _ IH]; [done|]. cbn [mbind list_bind]. rewrite length_app.
    unfold message_list at 1. rewrite Hm. simpl. lia. }
  unfold recent_messages. rewrite Hk, bind_app, fmap_app, tail_app; [done|].
  rewrite length_fmap. etrans; [|apply Hm]; [rewrite Hl; unfold _MAX_RECENT_MESSAGES, _MAX_PREDECESSOR_SCAN; lia|].
  by apply tail_Forall.
Qed.

(** The turns before [p] are usable, their checkpoints true, and the scan reaches one or the start. *)
Record known_history (c : pystr) (h : list turn_view) (p : turn_view) : Prop := {
  kh_turns : Forall turn_ok h;
  kh_settings : Forall (λ q, settings_ok (tv_row q)) h;
  kh_turn : settings_ok (tv_row p);
  kh_checkpoints : checkpointed c h;
  kh_scan : (length h ≤ _MAX_PREDECESSOR_SCAN)%nat ∨ Exists has_context (_bounded_tail h _MAX_PREDECESSOR_SCAN) }.

Lemma build_of_history c h p : known_history c h p →
  _build_conversation_context_snapshot c (_bounded_tail h _MAX_PREDECESSOR_SCAN) p = Ok (context_of c (snapshot_parts h p)).
Proof.
  intros [Hh Hs Hp Hc Hscan]. set (scan := _bounded_tail h _) in *.
  assert (Forall turn_ok scan) as Hok by by apply tail_Forall.
  destruct (decide (Exists has_context scan)) as [He|Hn].
  - apply Exists_reverse in He. destruct (newest_context_split (reverse scan) [] He) as (l1 & q & l2 & Hrev & Hq & Hnew).
    rewrite app_nil_r in Hnew.
    assert (scan = reverse l1 ++ q :: l2) as Hsplit.
    { rewrite <- (reverse_involutive scan), Hrev, reverse_app, reverse_involutive, reverse_cons, <- app_assoc. done. }
    destruct (tail_split h _MAX_PREDECESSOR_SCAN) as [k Hk]. fold scan in Hk. rewrite Hsplit, app_assoc in Hk.
    set (h1 := k ++ reverse l1) in *. destruct (Hc h1 q l2 Hk Hq) as (snapshot & Hv & Hr).
    rewrite Hk in Hh, Hs. apply Forall_app in Hh as [Hh1 [Hhq Hh2]%Forall_cons]. apply Forall_app in Hs as [Hs1 [Hsq Hs2]%Forall_cons].
    rewrite rebuild_parts in Hr by done. injection Hr as <-.
    destruct (fold_turns_parts c empty_parts h1 empty_valid Hh1) as [_ Hv1]. fold (history_parts h1) in Hv1.
    assert (valid_parts (snapshot_parts h1 q)) as Hv2.
    { apply capture_valid; [done..|]. apply settings_valid; [vm_compute; lia|]. by apply settings_of_ok. }
    rewrite (build_from c scan p (snapshot_parts h1 q) (q :: l2)); [|done|done| |done|right; eauto|by constructor].
    + do 2 f_equal. unfold snapshot_parts at 2. unfold capture. f_equal.
      all: try (unfold history_parts; rewrite Hk, foldl_app; fold (history_parts h1); cbn [foldl];
                unfold snapshot_parts; by rewrite fold_captured, fold_with_settings).
      unfold scan. rewrite recent_of_scan; [done|]. rewrite Hk. apply Forall_app. by split; [|constructor].
    + unfold _base_checkpoint. rewrite Hnew, Hv, validate_context by done. cbn [mbind result_bind].
      change (get (u "conversation_id") (context_of c (snapshot_parts h1 q))) with (VStr c).
      assert (py_eq (VStr c) (VStr c) = true) as -> by by apply str_eqb_true. done.
  - assert (scan = h) as -> by (apply tail_short; by destruct Hscan).
    rewrite (build_from c h p empty_parts h); [done|done|done| |apply empty_valid|by left|done].
    unfold _base_checkpoint. rewrite newest_context_none; [done|]. apply Forall_reverse, Forall_forall.
    intros q Hq Hcq. apply Hn, Exists_exists. eauto.
Qed.

(** ** Histories that grew *)

(** A conversation grew turn by turn: a turn ended without a context (it was stopped before it
    ran), or with the one that was built when it ran.  The construction reads of the turn itself
    only what its request fixed: the screen, the language and the settings. *)
Inductive grown (c : pystr) : list turn_view → Prop :=
| grown_nil : grown c []
| grown_skipped h q :
    grown c h → turn_ok q → settings_ok (tv_row q) → ¬ has_context q → grown c (h ++ [q])
| grown_captured h q snapshot :
    grown c h → turn_ok q → settings_ok (tv_row q) →
    _build_conversation_context_snapshot c (_bounded_tail h _MAX_PREDECESSOR_SCAN) q = Ok snapshot →
    cx_context (tv_row q) = VDict snapshot → grown c (h ++ [q]).

(** The search for predecessors never sees 24 turns without a context and stops short of the start. *)
Definition gapless (h : list turn_view) : Prop :=
  ∀ h1 h2, h = h1 ++ h2 →
    (length h1 ≤ _MAX_PREDECESSOR_SCAN)%nat ∨ Exists has_context (_bounded_tail h1 _MAX_PREDECESSOR_SCAN).

Lemma checkpointed_snoc c h q :
  checkpointed c h → (has_context q → ∃ snapshot, cx_context (tv_row q) = VDict snapshot ∧ rebuild c h q = Ok snapshot) →
  checkpointed c (h ++ [q]).
Proof.
  intros Hc Hq h1 q' h2 E Hctx. destruct h2 as [|x h2 _] using rev_ind.
  - apply app_inj_tail in E as [<- <-]. by apply Hq.
  - rewrite app_comm_cons, app_assoc in E. apply app_inj_tail in E as [-> _]. by eapply Hc.
Qed.

Lemma grown_known c h : grown c h → gapless h → ∀ p, settings_ok (tv_row p) → known_history c h p.
Proof.
  induction 1 as [|h q Hh IH Hq Hs Hn|h q snapshot Hh IH Hq Hs Hb Hc]; intros Hg p Hp.
  - split; try done; [by intros [|] ? ? ?|left; apply Nat.le_0_l].
  - specialize (IH ltac:(intros h1 h2 ->; apply (Hg h1 (h2 ++ [q])); by rewrite app_assoc) q Hs) as [H1 H2 _ H4 _].
    split; [by apply Forall_app; split; [|constructor]..|done|by apply checkpointed_snoc|].
    apply (Hg _ []). by rewrite app_nil_r.
  - specialize (IH ltac:(intros h1 h2 ->; apply (Hg h1 (h2 ++ [q])); by rewrite app_assoc) q Hs) as Hk.
    pose proof (build_of_history c h q Hk) as E. destruct Hk as [H1 H2 H3 H4 _].
    split; [by apply Forall_app; split; [|constructor]..|done| |apply (Hg _ []); by rewrite app_nil_r].
    apply checkpointed_snoc; [done|]. intros _. exists snapshot. split; [done|]. rewrite rebuild_parts by done. congruence.
Qed.

(** C17: In a conversation that grew turn by turn (each turn ended without a context, or with
    the one that was built when it ran, and its row did not change afterwards), in which no turn
    finds a captured context missing in all its 24 predecessors unless they are all there are,
    the incremental context, which starts from the checkpoint of the latest turn that has one,
    is the context rebuilt by folding all turns from the first, without any stored context. *)
Theorem checkpoints_agree_with_history c h p :
  grown c h → gapless h → settings_ok (tv_row p) →
  ∃ snapshot, rebuild c h p = Ok snapshot ∧
    _build_conversation_context_snapshot c (_bounded_tail h _MAX_PREDECESSOR_SCAN) p = Ok snapshot.
Proof.
  intros Hh Hg Hp. pose proof (grown_known c h Hh Hg p Hp) as Hk.
  eexists. split; [apply rebuild_parts; apply Hk|]. by apply build_of_history.
Qed.
