(* ===== verification/ConversationText.v ===== *)
(** * Conversation context: the text for the provider

    The loop that shortens a context ends, drops only the oldest entries and keeps the text
    within its limit; the context that is built from readable texts always has a text. *)
From S2P Require Import Prelude PyText Regex PyValue Json JsonRoundtrip Failure TurnStore TurnQueue.
From S2P Require Import ConversationContext ConversationFacts.
Local Open Scope Z_scope.

(** ** Shortening *)

Definition list_keys : list pystr :=
  [u "recent_messages"; u "rolling_summary"; u "active_refs"; u "verified_effect_refs"; u "evidence_refs"].
(** [y] is [x] without some of the oldest entries of its lists; two messages and two summaries
    stay when there were as many. *)
Record shortened (x y : pydict) : Prop := {
  sh_lists : ∀ k, k ∈ list_keys → items k y `suffix_of` items k x;
  sh_rest : ∀ k, k ∉ list_keys → get k y = get k x;
  sh_kept : ∀ k, k ∈ [u "recent_messages"; u "rolling_summary"] →
    (Nat.min 2 (length (items k x)) ≤ length (items k y))%nat }.

Lemma shortened_refl x : shortened x x.
Proof. split; [done|done|]. intros k _. lia. Qed.
Lemma shortened_trans x y z : shortened x y → shortened y z → shortened x z.
Proof.
  intros [H1 H2 H3] [K1 K2 K3]. split.
  - intros k Hk. etrans; [by apply K1|by apply H1].
  - intros k Hk. by rewrite K2, H2.
  - intros k Hk. specialize (H3 k Hk). specialize (K3 k Hk). lia.
Qed.

Lemma items_pop k k' x : items k (pop_oldest k' x) = if str_eqb k k' then drop 1 (items k x) else items k x.
Proof.
  unfold items at 1, pop_oldest, get. destruct (str_eqb k k') eqn:E.
  - apply str_eqb_true in E as <-. by rewrite dict_lookup_set_eq.
  - apply str_eqb_false in E. by rewrite dict_lookup_set_ne.
Qed.
Lemma pop_shortened k x : k ∈ list_keys →
  (k ∈ [u "recent_messages"; u "rolling_summary"] → (2 < length (items k x))%nat) → shortened x (pop_oldest k x).
Proof.
  intros Hk Hl. split.
  - intros k' _. rewrite items_pop. destruct (str_eqb k' k) eqn:E; [|done]. apply suffix_drop.
  - intros k' Hk'. unfold get, pop_oldest. rewrite dict_lookup_set_ne; [done|]. by intros ->.
  - intros k' Hk'. rewrite items_pop. destruct (str_eqb k' k) eqn:E; [|lia]. apply str_eqb_true in E as ->.
    rewrite length_drop. specialize (Hl Hk'). lia.
Qed.

(** What is left to drop *)
Definition droppable (x : pydict) : nat :=
  (length (items (u "recent_messages") x) - 2) + (length (items (u "rolling_summary") x) - 2)
  + length (items (u "active_refs") x) + length (items (u "verified_effect_refs") x)
  + length (items (u "evidence_refs") x).
Definition shortest (x : pydict) : Prop :=
  (length (items (u "recent_messages") x) ≤ 2)%nat ∧ (length (items (u "rolling_summary") x) ≤ 2)%nat ∧
  items (u "active_refs") x = [] ∧ items (u "verified_effect_refs") x = [] ∧ items (u "evidence_refs") x = [].

Lemma shrink_Some x y : shrink_context x = Some y → shortened x y ∧ (droppable y < droppable x)%nat.
Proof.
  unfold shrink_context. intros H.
  repeat match type of H with (if ?b then _ else _) = _ => destruct b eqn:?E end; try done; injection H as <-;
    rewrite ?Nat.ltb_lt, ?Nat.ltb_ge in *;
    (split; [apply pop_shortened; [by apply (bool_decide_unpack _)|first [done|intros _; done|
       intros Hk; exfalso; revert Hk; by apply (bool_decide_unpack _)]]
    |unfold droppable; rewrite !items_pop;
     repeat match goal with |- context [str_eqb (u ?a) (u ?b)] =>
       let v := eval vm_compute in (str_eqb (u a) (u b)) in change (str_eqb (u a) (u b)) with v end;
     cbv iota; rewrite length_drop; lia]).
Qed.
Lemma shrink_None x : shrink_context x = None → shortest x.
Proof.
  unfold shrink_context. intros H.
  repeat match type of H with (if ?b then _ else _) = _ => destruct b eqn:?E end; try done.
  rewrite Nat.ltb_ge in *. unfold shortest. split_and!; [done|done|..]; apply nil_length_inv; lia.
Qed.

Lemma provider_loop_spec (P : pydict → Prop) fuel x :
  (∀ x y, P x → shrink_context x = Some y → P y) → P x →
  match provider_loop fuel x with
  | Ok (Some text) => Z.of_nat (length text) ≤ _MAX_PROVIDER_CONTEXT_CHARS ∧
      ∃ y, shortened x y ∧ json_dumps false (VDict y) = Some text
  | Ok None => (fuel ≤ droppable x)%nat
  | Err e => ∃ y, P y ∧ (json_dumps false (VDict y) = None ∨ shortest y ∧
      ∃ text, json_dumps false (VDict y) = Some text ∧ _MAX_PROVIDER_CONTEXT_CHARS < Z.of_nat (length text))
  end.
Proof.
  intros HP. revert x. induction fuel as [|fuel IH]; intros x Hx; [simpl; lia|]. cbn [provider_loop].
  destruct (json_dumps false (VDict x)) as [text|] eqn:Ht; cbn [of_option mbind result_bind];
    [|exists x; split; [done|by left]].
  destruct (_ <=? _) eqn:E.
  - apply Z.leb_le in E. split; [done|]. exists x. split; [apply shortened_refl|done].
  - apply Z.leb_gt in E. destruct (shrink_context x) as [y|] eqn:Hy.
    + specialize (IH y (HP x y Hx Hy)). apply shrink_Some in Hy as [Hs Hd].
      destruct (provider_loop fuel y) as [[t|]|e]; [|lia|done].
      destruct IH as [Hl (z & Hz & Hj)]. split; [done|]. exists z. split; [by eapply shortened_trans|done].
    + apply shrink_None in Hy. exists x. split; [done|]. right. eauto.
Qed.

Lemma validated_items n check v : _validate_items n check v = Ok tt → (length (default [] (as_list v)) ≤ n)%nat.
Proof.
  unfold _validate_items. intros (l & Hl%of_option_Ok & H)%bind_Ok. apply bind_Ok in H as (x & Hx%raise_when_Ok & _).
  rewrite Hl. simpl. by apply Nat.ltb_ge in Hx.
Qed.
Lemma validated_droppable v x : _validate_snapshot v = Ok x → (droppable x < provider_fuel)%nat.
Proof.
  unfold _validate_snapshot. intros (d & _ & H)%bind_Ok. do 4 (apply bind_Ok in H as (? & _ & H)).
  apply bind_Ok in H as ([] & H1%validated_items & H). apply bind_Ok in H as ([] & H2%validated_items & H).
  apply bind_Ok in H as ([] & H3%validated_items & H). apply bind_Ok in H as ([] & H4%validated_items & H).
  apply bind_Ok in H as ([] & H5%validated_items & H). apply bind_Ok in H as (? & _ & H). injection H as <-.
  unfold droppable, items, provider_fuel, _MAX_RECENT_MESSAGES, _MAX_ROLLING_SUMMARY, _MAX_ACTIVE_REFS,
    _MAX_EVIDENCE_REFS, _MAX_EFFECT_REFS in *. lia.
Qed.

(** The text of a context ends within the limit or is refused, whatever the context holds: the loop
    drops only the oldest entries, at most 32 of them, and keeps the last two messages and
    summaries. *)
Theorem provider_context_bounded snapshot :
  match _provider_context_json snapshot with
  | Ok (Some text) => Z.of_nat (length text) ≤ 8000 ∧
      ∃ compact, shortened snapshot compact ∧ json_dumps false (VDict compact) = Some text
  | Ok None => False
  | Err _ => True
  end.
Proof.
  unfold _provider_context_json. destruct (_validate_snapshot (VDict snapshot)) as [x|e] eqn:Hx; [|done].
  assert (x = snapshot) as ->.
  { unfold _validate_snapshot in Hx. cbn [dict_of as_dict of_option mbind result_bind] in Hx.
    repeat (apply bind_Ok in Hx as (? & _ & Hx)). by injection Hx. }
  cbn [mbind result_bind]. pose proof (provider_loop_spec (λ _, True) provider_fuel snapshot (λ _ _ _ _, I) I) as H.
  apply validated_droppable in Hx. by destruct (provider_loop _ _) as [[t|]|e]; [|lia|].
Qed.

(** ** Lengths of texts *)

Definition fits (n : nat) (v : pyval) : Prop := ∃ t, json_dumps false v = Some t ∧ (length t ≤ n)%nat.
Definition dumps (v : pyval) : Prop := is_Some (json_dumps false v).
Lemma fits_dumps n v : fits n v → dumps v.
Proof. intros (t & Ht & _). by exists t. Qed.
Lemma fits_mono n m v : fits n v → (n ≤ m)%nat → fits m v.
Proof. intros (t & Ht & Hl) H. exists t. split; [done|lia]. Qed.

(** No control characters: two characters are enough for the escape of each. *)
Definition plain (s : pystr) : Prop := Forall (λ c, 32 ≤ c)%N s.
Lemma fits_str s : plain s → fits (2 * length s + 2) (VStr s).
Proof.
  intros Hs. eexists. split; [reflexivity|]. unfold dump_str. rewrite !length_app. cbn [length].
  enough (length (s ≫= escape_char) ≤ 2 * length s)%nat by lia. induction Hs as [|c s Hc _ IH]; [done|].
  rewrite bind_cons, length_app. cbn [length]. assert (length (escape_char c) ≤ 2)%nat; [|lia].
  unfold escape_char. repeat case_match; simpl; try lia. exfalso. match goal with H : (c <? 32)%N = true |- _ => apply N.ltb_lt in H end. lia.
Qed.
Lemma fits_str_within s n : plain s → (length s ≤ n)%nat → fits (2 * n + 2) (VStr s).
Proof. intros Hs Hn. eapply fits_mono; [by apply fits_str|lia]. Qed.
Lemma fits_int z : Z.abs z < 2 ^ 64 → fits 41 (VInt z).
Proof. intros Hz. eexists. split; [by apply dumps_int|by apply int_str_length]. Qed.
Lemma fits_none : fits 4 VNone.
Proof. eexists. split; [reflexivity|]. vm_compute. lia. Qed.
Lemma fits_false : fits 5 (VBool false).
Proof. eexists. split; [reflexivity|]. vm_compute. lia. Qed.

Lemma join_length (sep : N) ts : (length (str_join [sep] ts) ≤ sum_list_with (λ t, S (length t)) ts)%nat.
Proof.
  induction ts as [|t [|t' ts] IH]; [done|simpl; lia|]. rewrite join_cons2, !length_app.
  change (sum_list_with (λ t, S (length t)) (t :: t' :: ts))
    with (S (length t) + sum_list_with (λ t, S (length t)) (t' :: ts))%nat. cbn [length]. lia.
Qed.

Lemma dumps_all l : Forall dumps l → ∃ ts, Forall2 (λ x tx, json_dumps false x = Some tx) l ts.
Proof. induction 1 as [|v l [t Ht] _ (ts & IH)]; [by exists []|]. exists (t :: ts). by constructor. Qed.
Lemma dumps_VList l : Forall dumps l → dumps (VList l).
Proof. intros (ts & H)%dumps_all. eexists. apply dumps_list. eauto. Qed.
Lemma fits_list l n k : Forall (fits n) l → (length l ≤ k)%nat → fits (2 + k * (n + 1)) (VList l).
Proof.
  intros Hl Hk. destruct (dumps_all l) as (ts & Hts); [by eapply Forall_impl; [exact Hl|intros v; apply fits_dumps]|].
  eexists. split; [apply dumps_list; eauto|]. rewrite !length_app. cbn [length].
  assert (sum_list_with (λ t, S (length t)) ts ≤ length l * (n + 1))%nat as Hs.
  { clear Hk. revert Hl. induction Hts as [|v t l ts Ht _ IH]; [done|]. intros [(t' & Ht' & Hn) Hl]%Forall_cons.
    specialize (IH Hl). rewrite Ht in Ht'. injection Ht' as <-. simpl. lia. }
  pose proof (join_length 44 ts). assert (length l * (n + 1) ≤ k * (n + 1))%nat by (by apply Nat.mul_le_mono_r). lia.
Qed.

(** An object whose values have these lengths *)
Definition entry_cost (kn : pystr * nat) : nat := (length (dump_str kn.1) + 2 + kn.2)%nat.
Lemma dumps_VDict d : Forall (λ kv, dumps kv.2) d → dumps (VDict d).
Proof.
  intros H. assert (∃ ts, Forall2 (same_entry false) d ts) as (ts & Hts).
  { induction H as [|[k v] d [t Ht] _ (ts & IH)]; [by exists []|]. exists ((k, t) :: ts). by constructor. }
  eexists. apply dumps_dict. eauto.
Qed.
Lemma fits_dict d ns : Forall2 (λ kv n, fits n kv.2) d ns →
  fits (2 + sum_list_with entry_cost (zip d.*1 ns)) (VDict d).
Proof.
  intros H. assert (∃ ts, Forall2 (same_entry false) d ts ∧
    (sum_list_with (λ kt, S (length (dump_entry kt))) ts ≤ sum_list_with entry_cost (zip d.*1 ns))%nat) as (ts & Hts & Hs).
  { induction H as [|[k v] n d ns (t & Ht & Hn) _ (ts & IH1 & IH2)]; [by exists []|]. exists ((k, t) :: ts).
    split; [by constructor|]. cbn [sum_list_with fmap list_fmap zip zip_with].
    unfold dump_entry at 1, entry_cost at 1. cbn [fst snd]. rewrite !length_app. cbn [length]. simpl in Hn. lia. }
  eexists. split; [apply dumps_dict; eauto|]. rewrite !length_app. cbn [length].
  pose proof (join_length 44 (dump_entry <$> sort_by entry_leb ts)) as Hj.
  assert (sum_list_with (λ t, S (length t)) (dump_entry <$> sort_by entry_leb ts)
          = sum_list_with (λ kt, S (length (dump_entry kt))) ts) as E.
  { rewrite <- (sum_list_with_Permutation_proper _ _ _ (sort_by_perm entry_leb ts)).
    generalize (sort_by entry_leb ts). induction l as [|kt l IH]; [done|]. cbn. by rewrite IH. }
  lia.
Qed.

(** ** A readable context has a text *)

(** Python's white space is replaced and NUL is removed, so other control characters remain. *)
Definition readable (s : pystr) : Prop := Forall (λ c, c = 0%N ∨ is_space c = true ∨ (32 ≤ c)%N) s.

Lemma in_normalize_word s c : c ∈ normalize_ws s → c = 32%N ∨ (c ∈ s ∧ is_space c = false).
Proof.
  intros [->|(w & Hw & Hc)]%in_join; [by left|right]. split; [by eapply in_split_ws|].
  pose proof (split_ws_words s) as H. rewrite Forall_forall in H. destruct (H w Hw) as [_ H2].
  rewrite Forall_forall in H2. by apply H2.
Qed.
Lemma excerpt_plain s n : readable s → plain (_excerpt s n).
Proof.
  intros Hs. assert (plain (normalize_ws (without_nul s))) as Hn.
  { apply Forall_forall. intros c [->|[Hc Hw]]%in_normalize_word; [done|].
    unfold without_nul in Hc. apply list_elem_of_In, filter_In in Hc as [Hc%list_elem_of_In Hz].
    unfold readable in Hs. rewrite Forall_forall in Hs. destruct (Hs c Hc) as [->|[H|H]]; [done|congruence|done]. }
  unfold _excerpt. destruct (_ <=? n)%nat; [done|]. apply Forall_app. split; [|repeat constructor; lia].
  set (t := take _ _). destruct (rstrip_prefix t) as [p Hp]. assert (plain t) as Ht by by apply Forall_take.
  rewrite Hp in Ht. by apply Forall_app in Ht as [? _].
Qed.

Record text_parts (c : pystr) (x : parts) : Prop := {
  tp_uuid : plain c ∧ short_id c = true;
  tp_revision : Z.abs (pt_revision x) < 2 ^ 64;
  tp_recent : Forall (fits 1500) (pt_recent x);
  tp_summary : Forall (fits 1400) (pt_summary x);
  tp_active : Forall (λ d, dumps (VDict d)) (pt_active x);
  tp_evidence : Forall dumps (pt_evidence x);
  tp_effects : Forall (λ d, dumps (VDict d)) (pt_effects x);
  tp_settings : fits 500 (VDict (pt_settings x)) }.

Lemma text_dumps c x : text_parts c x → dumps (VDict (context_of c x)).
Proof.
  intros [[H1 _] H2 H3 H4 H5 H6 H7 H8]. apply dumps_VDict. unfold context_of.
  repeat apply Forall_cons_2; try apply Forall_nil_2; cbn [snd].
  - by apply (fits_dumps 41), fits_int.
  - eapply fits_dumps, fits_str. exact H1.
  - by apply (fits_dumps 41), fits_int.
  - apply dumps_VList. eapply Forall_impl; [exact H3|]. intros v. apply fits_dumps.
  - apply dumps_VList. eapply Forall_impl; [exact H4|]. intros v. apply fits_dumps.
  - by apply dumps_VList, Forall_fmap.
  - by apply dumps_VList.
  - by apply dumps_VList, Forall_fmap.
  - by apply (fits_dumps 500).
Qed.
Lemma shortest_text c x : text_parts c x → shortest (context_of c x) → fits (Z.to_nat _MAX_PROVIDER_CONTEXT_CHARS) (VDict (context_of c x)).
Proof.
  intros [[H1 H1'] H2 H3 H4 H5 H6 H7 H8] (L1 & L2 & L3 & L4 & L5).
  change (length (pt_recent x) ≤ 2)%nat in L1. change (length (pt_summary x) ≤ 2)%nat in L2.
  change (VDict <$> pt_active x = []) in L3. change (VDict <$> pt_effects x = []) in L4. change (pt_evidence x = []) in L5.
  unfold context_of. rewrite L3, L4, L5. eapply fits_mono.
  - apply (fits_dict _ [41; 130; 41; 3004; 2804; 2; 2; 2; 500]%nat). repeat apply Forall2_cons_2; try apply Forall2_nil_2; cbn [snd].
    + by apply fits_int.
    + apply (fits_str_within c 64); [done|]. unfold short_id in H1'. apply andb_true_iff in H1' as [_ H]. by apply Nat.leb_le.
    + by apply fits_int.
    + by apply (fits_list _ 1500 2).
    + by apply (fits_list _ 1400 2).
    + apply (fits_list [] 0 0); [constructor|done].
    + apply (fits_list [] 0 0); [constructor|done].
    + apply (fits_list [] 0 0); [constructor|done].
    + done.
  - apply Nat.leb_le. vm_compute. reflexivity.
Qed.

Lemma shrink_parts c x y : text_parts c x → shrink_context (context_of c x) = Some y →
  ∃ x', y = context_of c x' ∧ text_parts c x'.
Proof.
  intros [H1 H2 H3 H4 H5 H6 H7 H8] Hy. unfold shrink_context in Hy.
  repeat match type of Hy with (if ?b then _ else _) = _ => destruct b end; try done; injection Hy as <-; unfold pop_oldest.
  - change (items (u "recent_messages") (context_of c x)) with (pt_recent x). rewrite set_recent.
    eexists. split; [done|]. split; simpl; try done. by apply Forall_drop.
  - rewrite items_summary, set_summary. eexists. split; [done|]. split; simpl; try done. by apply Forall_drop.
  - rewrite items_active, <- fmap_drop, set_active. eexists. split; [done|]. split; simpl; try done. by apply Forall_drop.
  - rewrite items_effects, <- fmap_drop, set_effects. eexists. split; [done|]. split; simpl; try done. by apply Forall_drop.
  - change (items (u "evidence_refs") (context_of c x)) with (pt_evidence x).
    change (dict_set (u "evidence_refs") ?v (context_of c x)) with
      (context_of c (MkParts (pt_revision x) (pt_recent x) (pt_summary x) (pt_active x) (drop 1 (pt_evidence x)) (pt_effects x) (pt_settings x))).
    eexists. split; [done|]. split; simpl; try done. by apply Forall_drop.
Qed.

Lemma text_provided c x : valid_parts x → text_parts c x →
  ∃ text, _provider_context_json (context_of c x) = Ok (Some text).
Proof.
  intros Hv Ht. unfold _provider_context_json. pose proof (validate_context c x Hv) as Hval. rewrite Hval.
  cbn [mbind result_bind]. apply validated_droppable in Hval.
  pose proof (provider_loop_spec (λ d, ∃ x, d = context_of c x ∧ text_parts c x) provider_fuel (context_of c x)) as H.
  destruct (provider_loop _ _) as [[text|]|e]; [by exists text|..].
  - exfalso. assert (provider_fuel ≤ droppable (context_of c x))%nat; [|lia]. apply H; [|eauto].
    intros a b (y & -> & Hy) Hs. by apply (shrink_parts c y).
  - exfalso. destruct H as (y & (x' & -> & Hx') & Hy); [|eauto|].
    { intros a b (y & -> & Hy) Hs. by apply (shrink_parts c y). }
    destruct Hy as [Hn|(Hs & text & Htext & Hl)].
    + destruct (text_dumps c x' Hx') as [t E]. congruence.
    + destruct (shortest_text c x' Hx' Hs) as (t & E & Hle). rewrite Htext in E. injection E as <-. unfold _MAX_PROVIDER_CONTEXT_CHARS in *. lia.
Qed.

(** ** Printable references *)

(** References hold texts and integers only. *)
Fixpoint floatless (v : pyval) : bool :=
  match v with
  | VFloat _ => false
  | VList l => forallb floatless l
  | VDict d => forallb (λ kv, floatless kv.2) d
  | _ => true
  end.
(** No integer of more than 4300 digits, as in every value that was read from JSON text *)
Fixpoint short_ints (v : pyval) : bool :=
  match v with
  | VInt z => negb (int_too_long z)
  | VList l => forallb short_ints l
  | VDict d => forallb (λ kv, short_ints kv.2) d
  | _ => true
  end.
Lemma printable v : floatless v = true → short_ints v = true → dumps v.
Proof.
  induction v as [|[]|z|f|s|l IH|d IH] using pyval_deep_ind; try done; try (by eexists); cbn [floatless short_ints].
  - unfold dumps. cbn [json_dumps]. by destruct (int_too_long z).
  - rewrite !forallb_true. intros Hf Hs. rewrite Forall_forall in IH. apply dumps_VList, Forall_forall. auto.
  - rewrite !forallb_true. intros Hf Hs. rewrite Forall_forall in IH. apply dumps_VDict, Forall_forall. auto.
Qed.
Lemma floatless_VDict d : Forall (λ kv, floatless kv.2 = true) d → floatless (VDict d) = true.
Proof. intros H. cbn [floatless]. apply forallb_true. by apply Forall_forall. Qed.
Lemma floatless_VList l : Forall (λ v, floatless v = true) l → floatless (VList l) = true.
Proof. intros H. cbn [floatless]. apply forallb_true. by apply Forall_forall. Qed.
Definition refs_short (refs : list pydict) : Prop := Forall (λ d, short_ints (VDict d) = true) refs.
Lemma refs_dump refs :
  Forall (λ d, floatless (VDict d) = true) refs → refs_short refs → Forall (λ d, dumps (VDict d)) refs.
Proof. unfold refs_short. rewrite !Forall_forall. intros Hf Hs d Hd. apply printable; auto. Qed.

(** ** Readable turns *)

Record turn_readable (p : turn_view) : Prop := {
  tr_uuid : plain (t_uuid (tv_turn p));
  tr_input : readable (t_input_message (tv_turn p));
  tr_messages : Forall (λ m, plain m.1 ∧ readable (m_content m.2)) (message_list p);
  tr_refs : refs_short (_screen_refs (t_screen (tv_turn p))) ∧ refs_short (turn_effects p) }.
Record settings_plain (row : context_row) : Prop := {
  sp_lang : from_option plain True (cx_lang row);
  sp_language : plain (default [] (cx_response_language row)) }.

Lemma plain_codes s : forallb (λ c, 32 <=? c)%N s = true → plain s.
Proof. intros H. apply Forall_forall. intros c Hc. rewrite forallb_true in H. by apply N.leb_le, H. Qed.
Lemma short_id_length s : short_id s = true → (length s ≤ 64)%nat.
Proof. intros [_ H]%andb_true_iff. by apply Nat.leb_le. Qed.

Lemma message_fits m : message_ok m → plain m.1 → readable (m_content m.2) → fits 1500 (message_value m).
Proof.
  intros [Hid Hr] Hp Hc. unfold message_value. eapply fits_mono.
  - apply (fits_dict _ [130; 20; 1282]%nat). repeat apply Forall2_cons_2; try apply Forall2_nil_2; cbn [snd].
    + apply (fits_str_within _ 64); [done|by apply short_id_length].
    + assert (plain (m_role m.2) ∧ (length (m_role m.2) ≤ 9)%nat) as [? ?]; [|by apply (fits_str_within _ 9)].
      apply elem_of_cons in Hr as [->|Hr%list_elem_of_singleton]; [|rewrite Hr];
        (split; [apply plain_codes; vm_compute; reflexivity|vm_compute; lia]).
    + apply (fits_str_within _ 640); [by apply excerpt_plain|apply excerpt_length; unfold _MAX_RECENT_CONTENT; lia].
  - apply Nat.leb_le. vm_compute. reflexivity.
Qed.

Lemma token_plain s : safe_token s = true → plain s ∧ (length s ≤ 128)%nat.
Proof.
  intros ([_ Hl] & H)%fullmatch_correct%rep_set_matches. split; [|lia]. eapply Forall_impl; [exact H|].
  intros c Hc. apply (in_ranges_within _ 32 200) in Hc; [lia|by vm_compute].
Qed.
Lemma terminal_text t : is_terminal t = true → plain (state_event (t_state t)) ∧ (length (state_event (t_state t)) ≤ 17)%nat.
Proof.
  unfold is_terminal. destruct (t_state t); intros H; first [by vm_compute in H|split; [apply plain_codes; vm_compute; reflexivity|vm_compute; lia]].
Qed.

Lemma summary_fits p : turn_ok p → turn_readable p → fits 1400 (_turn_summary p).
Proof.
  intros [Ht Hu _ _] [Hp Hi Hm _]. unfold _turn_summary.
  assert (∀ o, o = tv_user_message p ∨ o = tv_assistant_message p → from_option (λ m, readable (m_content m.2)) True o) as Ho.
  { intros o Ho. destruct o as [m|]; [|done]. rewrite Forall_forall in Hm. apply (Hm m). unfold message_list.
    rewrite elem_of_app. destruct Ho as [<-|<-]; [left|right]; by left. }
  eapply fits_mono.
  - apply (fits_dict _ [130; 36; 362; 482; 258]%nat). repeat apply Forall2_cons_2; try apply Forall2_nil_2; cbn [snd].
    + apply (fits_str_within _ 64); [done|by apply short_id_length].
    + destruct (terminal_text _ Ht). by apply (fits_str_within _ 17).
    + apply (fits_str_within _ 180); [apply excerpt_plain|apply excerpt_length; unfold _MAX_USER_INTENT; lia].
      pose proof (Ho _ (or_introl eq_refl)) as H. by destruct (tv_user_message p).
    + apply (fits_str_within _ 240); [apply excerpt_plain|apply excerpt_length; unfold _MAX_ASSISTANT_OUTCOME; lia].
      pose proof (Ho _ (or_intror eq_refl)) as H. destruct (tv_assistant_message p); [done|constructor].
    + destruct (t_error_code _) as [code|]; [|by eapply fits_mono; [apply fits_none|lia]].
      destruct (safe_token code) eqn:E; [|by eapply fits_mono; [apply fits_none|lia]].
      apply token_plain in E as [? ?]. by apply (fits_str_within _ 128).
  - apply Nat.leb_le. vm_compute. reflexivity.
Qed.

Lemma settings_fit row : settings_ok row → settings_plain row → fits 500 (VDict (settings_of row)).
Proof.
  intros [Hl Hg Hr] [Pl Pg]. unfold settings_of. eapply fits_mono.
  - apply (fits_dict _ [72; 20; 72]%nat). repeat apply Forall2_cons_2; try apply Forall2_nil_2; cbn [snd].
    + destruct (cx_lang row) as [[|c l]|]; [by eapply fits_mono; [apply fits_false|lia]|apply (fits_str_within _ 35); [done|apply Hl]|by eapply fits_mono; [apply fits_false|lia]].
    + unfold _normalize_response_language in Hr. destruct (mem _ _) eqn:E; [|done]. apply mem_true in E.
      assert (Forall (λ m, plain m ∧ (length m ≤ 9)%nat) _RESPONSE_LANGUAGE_MODES) as Hm.
      { repeat apply Forall_cons_2; try apply Forall_nil_2; (split; [apply plain_codes; vm_compute; reflexivity|vm_compute; lia]). }
      rewrite Forall_forall in Hm. destruct (Hm _ E). by apply (fits_str_within _ 9).
    + destruct (default [] _) as [|c l] eqn:E; [by eapply fits_mono; [apply fits_false|lia]|]. apply (fits_str_within _ 35); [done|apply Hg].
  - apply Nat.leb_le. vm_compute. reflexivity.
Qed.

Lemma screen_refs_floatless screen : Forall (λ d, floatless (VDict d) = true) (_screen_refs screen).
Proof.
  unfold _screen_refs. destruct screen as [| | | | | |d]; try constructor.
  destruct (get (u "model") d) as [| | | |model| |]; try constructor. destruct (model_name model); [|constructor].
  set (ids := positive_ids _ ++ positive_ids _). destruct ids as [|z l].
  - by constructor.
  - by apply Forall_fmap, Forall_true.
Qed.
Lemma effect_ref_floatless turn_id i v d : effect_ref turn_id i v = Some d → floatless (VDict d) = true.
Proof.
  unfold effect_ref. destruct (as_dict v) as [step|]; [|done]. simpl. destruct (negb _); [done|].
  destruct (as_str _) as [c|]; [|done]. simpl. destruct (negb _); [done|]. intros [= <-].
  apply floatless_VDict. repeat apply Forall_cons_2; try done.
  apply Forall_app. split.
  - destruct (_effect_resource _) as [r|] eqn:Hr; [|constructor]. constructor; [|constructor]. cbn [snd].
    unfold _effect_resource in Hr. destruct (as_dict _) as [res|]; [|done]. simpl in Hr. destruct (as_str _) as [m|]; [|done].
    simpl in Hr. destruct (negb _); [done|]. destruct (distinct_ids _ _) as [ids|]; [|done]. simpl in Hr.
    destruct (_ || _); [done|]. injection Hr as <-. apply floatless_VDict. repeat apply Forall_cons_2; try apply Forall_nil_2; cbn [snd].
    + done.
    + apply floatless_VList, Forall_fmap, Forall_true. intros z. done.
  - destruct (get (u "result") step) as [| | | | | |r]; try constructor. destruct (get (u "operation") r) as [| | | |s| |]; try constructor.
    destruct (safe_token s); [|constructor]. constructor; [|constructor]. done.
Qed.
Lemma turn_effects_floatless p : Forall (λ d, floatless (VDict d) = true) (turn_effects p).
Proof.
  unfold turn_effects, _verified_effect_refs. destruct (as_dict (t_plan _)) as [envelope|]; [|constructor]. simpl.
  destruct (as_dict _) as [plan|]; [|constructor]. simpl. destruct (negb _); [constructor|].
  destruct (as_list _) as [steps|]; [|constructor]. simpl. apply tail_Forall, Forall_forall.
  intros d (o & Ho & Hd)%list_elem_of_omap. apply list_elem_of_lookup in Ho as [i Hi].
  rewrite list_lookup_imap in Hi. destruct (steps !! i) as [v|]; [|done]. injection Hi as <-.
  by eapply effect_ref_floatless.
Qed.

Lemma screen_refs_dump screen : refs_short (_screen_refs screen) → Forall (λ d, dumps (VDict d)) (_screen_refs screen).
Proof. apply refs_dump, screen_refs_floatless. Qed.
Lemma turn_effects_dump p : refs_short (turn_effects p) → Forall (λ d, dumps (VDict d)) (turn_effects p).
Proof. apply refs_dump, turn_effects_floatless. Qed.

Lemma last_wins_Forall {K} `{EqDecision K} (key : pydict → K) (P : pydict → Prop) l :
  Forall P l → Forall P (last_wins key l).
Proof. rewrite !Forall_forall. intros H x Hx%last_wins_sub. by apply H. Qed.

Lemma fold_text c x p : turn_ok p → turn_readable p → pt_evidence x = [] →
  Z.abs (pt_revision x + 1) < 2 ^ 64 → text_parts c x → text_parts c (fold_parts x p).
Proof.
  intros Hp Hr He Hz [H1 H2 H3 H4 H5 H6 H7 H8]. destruct (tr_refs _ Hr) as [Hsr Her]. split; simpl; try done.
  - apply tail_Forall, Forall_app. split; [done|]. constructor; [by apply summary_fits|constructor].
  - apply tail_Forall, last_wins_Forall, Forall_app. split; [done|by apply screen_refs_dump].
  - apply tail_Forall, last_wins_Forall, Forall_app. split; [done|by apply turn_effects_dump].
Qed.

Lemma history_text c h : plain c → short_id c = true → Forall turn_ok h → Forall turn_readable h →
  Z.of_nat (length h) < 2 ^ 64 →
  text_parts c (history_parts h) ∧ pt_revision (history_parts h) = Z.of_nat (length h) ∧ pt_evidence (history_parts h) = [].
Proof.
  intros Hc Hs. induction h as [|p h IH] using rev_ind; intros Ho Hr Hl.
  - split_and!; [|done..]. split; simpl; [done|lia|by constructor..|]. exists (u "{}"). split; [reflexivity|vm_compute; lia].
  - apply Forall_app in Ho as [Ho [Hp _]%Forall_cons]. apply Forall_app in Hr as [Hr [Hrp _]%Forall_cons].
    rewrite length_app in *. cbn [length] in *. destruct (IH Ho Hr) as (Ht & Hz & He); [lia|].
    unfold history_parts in *. rewrite foldl_app. cbn [foldl]. split_and!; [|simpl; lia|done].
    apply fold_text; [done..| |done]. lia.
Qed.

Lemma snapshot_text c h p : plain c → short_id c = true → Forall turn_ok h → Forall turn_readable h →
  settings_ok (tv_row p) → settings_plain (tv_row p) →
  refs_short (_screen_refs (t_screen (tv_turn p))) → Z.of_nat (length h) < 2 ^ 64 →
  valid_parts (snapshot_parts h p) ∧ text_parts c (snapshot_parts h p).
Proof.
  intros Hc Hs Ho Hr Hso Hsp Hsr Hl. destruct (history_text c h Hc Hs Ho Hr Hl) as ([H1 H2 H3 H4 H5 H6 H7 H8] & _ & _).
  destruct (fold_turns_parts c empty_parts h empty_valid Ho) as [_ Hv].
  split; [apply capture_valid; [done..|]; apply settings_valid; [vm_compute; lia|by apply settings_of_ok]|].
  split; simpl; try done.
  - apply tail_Forall, Forall_fmap, Forall_bind. rewrite Forall_forall in Ho, Hr. apply Forall_forall. intros q Hq.
    pose proof (to_messages q (Ho q Hq)) as Hm. pose proof (tr_messages q (Hr q Hq)) as Hrm.
    rewrite Forall_forall in Hm, Hrm. apply Forall_forall. intros m Hin. destruct (Hrm m Hin). by apply message_fits; [apply Hm|..].
  - apply tail_Forall, last_wins_Forall, Forall_app. split; [done|by apply screen_refs_dump].
  - by apply settings_fit.
Qed.

(** C16: For a conversation that grew turn by turn (each turn ended without a context, or with
    the one that was built when it ran), in which no turn finds a captured context missing in
    all its 24 predecessors unless they are all there are, with readable texts (apart from white
    space and NUL, which the excerpts remove, no control characters), plain identifiers and
    languages, and references whose integers json.dumps can write: the context of the next turn
    is built, and a shortened form of it that serialises to at most 8000 characters is found for
    the provider, however long the texts are. *)
Theorem context_always_provided c h p :
  grown c h → gapless h → settings_ok (tv_row p) →
  plain c → short_id c = true → Forall turn_readable h → settings_plain (tv_row p) →
  refs_short (_screen_refs (t_screen (tv_turn p))) → Z.of_nat (length h) < 2 ^ 64 →
  ∃ snapshot text,
    _build_conversation_context_snapshot c (_bounded_tail h _MAX_PREDECESSOR_SCAN) p = Ok snapshot ∧
    _provider_context_json snapshot = Ok (Some text) ∧ Z.of_nat (length text) ≤ 8000 ∧
    ∃ compact, shortened snapshot compact ∧ json_dumps false (VDict compact) = Some text.
Proof.
  intros Hgr Hg Hp Hc Hs Hr Hsp Hsr Hl. pose proof (grown_known c h Hgr Hg p Hp) as Hk.
  destruct (snapshot_text c h p Hc Hs (kh_turns _ _ _ Hk) Hr (kh_turn _ _ _ Hk) Hsp Hsr Hl) as [Hv Ht].
  destruct (text_provided c _ Hv Ht) as [text Htext]. exists (context_of c (snapshot_parts h p)), text.
  split; [by apply build_of_history|]. split; [done|].
  pose proof (provider_context_bounded (context_of c (snapshot_parts h p))) as Hb. by rewrite Htext in Hb.
Qed.

(** ** The stored context *)

Lemma validate_same v x : _validate_snapshot v = Ok x → v = VDict x ∧ x ≠ [].
Proof.
  unfold _validate_snapshot. intros (d & Hd%of_option_Ok & H)%bind_Ok. apply as_dict_Some in Hd as ->.
  apply bind_Ok in H as (? & Hk%raise_when_Ok & H). repeat (apply bind_Ok in H as (? & _ & H)). injection H as <-.
  split; [done|]. intros ->. by vm_compute in Hk.
Qed.
Lemma dict_truthy x : x ≠ [] → truthy (VDict x) = true.
Proof. by destruct x. Qed.

Lemma build_validated c ps p x : _build_conversation_context_snapshot c ps p = Ok x → _validate_snapshot (VDict x) = Ok x.
Proof.
  unfold _build_conversation_context_snapshot. intros (? & _ & H)%bind_Ok. apply bind_Ok in H as ([base rest] & _ & H).
  do 5 (apply bind_Ok in H as (? & _ & H)). unfold response_settings in H. do 2 (apply bind_Ok in H as (? & _ & H)).
  destruct (validate_same _ _ H) as [Hx _]. by rewrite Hx in H.
Qed.

(** C32: Once the context of a turn is captured, reading it again gives the same value and
    changes nothing, and every other value written for the turn is refused. *)
Theorem context_captured_once id s c s' :
  conversation_context_snapshot id s = (Ok (Some c), s') →
  ∀ s2, is_Some (d_turns (x_db s2) !! id) → x_rows s2 !! id = x_rows s' !! id →
    conversation_context_snapshot id s2 = (Ok (Some c), s2) ∧
    ∀ host v, py_eq v (VDict c) = false → write_context host id v s2 = (Err ValidationError, s2).
Proof.
  intros H s2 [t Ht] Hrow.
  assert (cx_context (default no_row (x_rows s' !! id)) = VDict c ∧ _validate_snapshot (VDict c) = Ok c) as [Hc Hv].
  { unfold conversation_context_snapshot in H. apply ST_bind_Ok in H as (o & s1 & [-> ->]%gets_Ok & H).
    apply ST_bind_Ok in H as (p & s1 & [Hp%of_option_Ok ->]%lift_Ok & H).
    destruct (d_turns (x_db s) !! id) as [t'|]; [|done]. injection Hp as <-. cbn [view_turn tv_row tv_turn fst snd] in H.
    destruct (truthy _) eqn:E.
    - unfold lift, fmap, ST_fmap in H. destruct (_validate_snapshot _) as [x|] eqn:Hx; [|done]. injection H as <- <-.
      destruct (validate_same _ _ Hx) as [Hx' _]. by rewrite Hx' in Hx |- *.
    - destruct (t_conversation t') as [cid|]; [|done].
      apply ST_bind_Ok in H as (o & s1 & [-> ->]%gets_Ok & H). apply ST_bind_Ok in H as (cv & s1 & [Hcv ->]%lift_Ok & H).
      apply ST_bind_Ok in H as (ps & s1 & [-> ->]%gets_Ok & H). apply ST_bind_Ok in H as (x & s1 & [Hx ->]%lift_Ok & H).
      apply ST_bind_Ok in H as (y & s1 & Hw & H). apply ret_Ok in H as [H <-]. injection H as <-.
      unfold write_context in Hw. apply ST_bind_Ok in Hw as (? & ? & [_ ->]%lift_Ok & Hw).
      apply ST_bind_Ok in Hw as (row & ? & [-> ->]%gets_Ok & Hw). apply ST_bind_Ok in Hw as (? & ? & [_ ->]%lift_Ok & Hw).
      apply modify_Ok in Hw as ->. cbn [x_rows]. rewrite lookup_insert_eq. split; [done|].
      by eapply build_validated. }
  destruct (validate_same _ _ Hv) as [_ Hne]. apply dict_truthy in Hne. split.
  - unfold conversation_context_snapshot. rewrite ST_bind_at. unfold gets. rewrite Ht. cbn [fmap option_fmap option_map].
    rewrite ST_bind_lift. cbn [of_option view_turn tv_row fst]. rewrite Hrow, Hc, Hne. unfold lift, fmap, ST_fmap. by rewrite Hv.
  - intros host v Hneq. unfold write_context. rewrite ST_bind_lift. destruct host; [|done].
    cbn [negb refuse raise_when]. rewrite ST_bind_at. unfold gets. rewrite ST_bind_lift, Hrow, Hc, Hne, Hneq. done.
Qed.

(** ** A conversation *)

Definition sample_step (position id : Z) : pyval :=
  VDict [(u "position", VInt position); (u "capability", VStr (u "odoo.write")); (u "state", VStr (u "completed"));
         (u "result", VDict [(u "model", VStr (u "res.partner")); (u "record_id", VInt id)])].
Definition sample_envelope : pyval :=
  VDict [(u "plan", VDict [(u "state", VStr (u "completed")); (u "steps", VList [sample_step 0 7; sample_step 1 8])])].

Definition sample_view (id : Z) (uuid text answer : pystr) (plan context : pyval) : turn_view :=
  MkView id
    (MkTurn uuid (Some 1) 2 1 TCompleted text
       (VDict [(u "model", VStr (u "res.partner")); (u "res_id", VInt 7)]) [1] VNone None [] (Some 1) (Some 2) VNone
       0 None None None None 1 2 false None None None VNone None plan VNone)
    (MkContextRow (Some (u "en_US")) (u "inherit") None context)
    (Some (uuid ++ u "-q", MkMessage (Some 1) (u "user") text []))
    (Some (uuid ++ u "-a", MkMessage (Some 1) (u "assistant") answer [])).
Definition sample_conversation : pystr := u "conversation-1".
Definition first_turn : turn_view := sample_view 1 (u "turn-1") (u "show the partner") (u "done") VNone VNone.
Definition second_context : pydict :=
  result_or [] (rebuild sample_conversation [first_turn] (sample_view 2 (u "turn-2") (u "rename both") (u "renamed") sample_envelope VNone)).
Definition second_turn : turn_view :=
  sample_view 2 (u "turn-2") (u "rename both") (u "renamed") sample_envelope (VDict second_context).
Definition third_turn : turn_view := sample_view 3 (u "turn-3") (u "and now?") [] VNone VNone.

Lemma sample_turn_ok id uuid text answer plan context :
  short_id uuid = true → short_id (uuid ++ u "-q") = true → short_id (uuid ++ u "-a") = true →
  turn_ok (sample_view id uuid text answer plan context).
Proof.
  intros H1 H2 H3. split; [by vm_compute|exact H1| |by eexists].
  repeat apply Forall_cons_2; try apply Forall_nil_2; (split; [done|apply (bool_decide_unpack _); by vm_compute]).
Qed.
Lemma sample_settings_ok id uuid text answer plan context : settings_ok (tv_row (sample_view id uuid text answer plan context)).
Proof. split; try by vm_compute. all: split; [vm_compute; lia|apply (bool_decide_unpack _); by vm_compute]. Qed.

Lemma sample_grown : grown sample_conversation [first_turn; second_turn].
Proof.
  apply (grown_captured _ [first_turn] second_turn second_context);
    [|apply sample_turn_ok; by vm_compute|apply sample_settings_ok|vm_compute; reflexivity|reflexivity].
  apply (grown_skipped _ [] first_turn);
    [constructor|apply sample_turn_ok; by vm_compute|apply sample_settings_ok|intros H; by vm_compute in H].
Qed.
Lemma sample_gapless : gapless [first_turn; second_turn].
Proof.
  intros h1 h2 E. left. apply (f_equal length) in E. rewrite length_app in E. unfold _MAX_PREDECESSOR_SCAN. simpl in E. lia.
Qed.

Lemma checkpoints_agree_with_history_witness :
  ∃ snapshot, rebuild sample_conversation [first_turn; second_turn] third_turn = Ok snapshot ∧
    _build_conversation_context_snapshot sample_conversation [first_turn; second_turn] third_turn = Ok snapshot.
Proof.
  exact (checkpoints_agree_with_history sample_conversation [first_turn; second_turn] third_turn
           sample_grown sample_gapless (sample_settings_ok _ _ _ _ _ _)).
Defined.

Lemma readable_codes s : forallb (λ c, 32 <=? c)%N s = true → readable s.
Proof. intros H%plain_codes. eapply Forall_impl; [exact H|]. auto. Qed.
Lemma context_always_provided_witness :
  ∃ snapshot text,
    _build_conversation_context_snapshot sample_conversation [first_turn; second_turn] third_turn = Ok snapshot ∧
    _provider_context_json snapshot = Ok (Some text) ∧ Z.of_nat (length text) ≤ 8000 ∧
    ∃ compact, shortened snapshot compact ∧ json_dumps false (VDict compact) = Some text.
Proof.
  refine (context_always_provided sample_conversation [first_turn; second_turn] third_turn
            sample_grown sample_gapless (sample_settings_ok _ _ _ _ _ _) _ _ _ _ _ _).
  - apply plain_codes. vm_compute. reflexivity.
  - vm_compute. reflexivity.
  - repeat apply Forall_cons_2; try apply Forall_nil_2;
      (split; [apply plain_codes; vm_compute; reflexivity|apply readable_codes; vm_compute; reflexivity| |
               split; repeat constructor]);
      repeat apply Forall_cons_2; try apply Forall_nil_2;
      (split; [apply plain_codes; vm_compute; reflexivity|apply readable_codes; vm_compute; reflexivity]).
  - split; apply plain_codes; vm_compute; reflexivity.
  - repeat constructor.
  - vm_compute. reflexivity.
Defined.

(** The tables with the three turns *)
Definition sample_context_db : context_db :=
  MkContextDb
    (MkDb (list_to_map ((λ p, (tv_id p, tv_turn p)) <$> [first_turn; second_turn; third_turn])) ∅ []
       (list_to_map [(1, MkMessage (Some 1) (u "user") (u "rename both") []); (2, MkMessage (Some 1) (u "assistant") (u "renamed") [])])
       {[ 1 := MkConversation sample_conversation 2 [] 0 ]} [] [] 0 10 0)
    (list_to_map ((λ p, (tv_id p, tv_row p)) <$> [first_turn; second_turn; third_turn]))
    (list_to_map [(1, u "m-1"); (2, u "m-2")]).
Definition captured : result turn_exn (option pydict) * context_db := conversation_context_snapshot 3 sample_context_db.
Definition captured_context : pydict := default [] (result_or None captured.1).
Lemma context_captured_once_witness :
  conversation_context_snapshot 3 captured.2 = (Ok (Some captured_context), captured.2).
Proof.
  apply (context_captured_once 3 sample_context_db captured_context captured.2);
    [vm_compute; reflexivity|vm_compute; eauto|reflexivity].
Defined.

(** The positions of a plan start at 0, and a position that is not positive is replaced by the
    index from 1: the first two effects of a capability get the same reference, and one of the
    two records is forgotten. *)
Example effects_of_one_plan_collide :
  (get (u "position") <$> _verified_effect_refs (u "turn-2") sample_envelope) = [VInt 1; VInt 1] ∧
  ((λ d, get (u "resource") d) <$> result_or [] (_merge_effect_refs [] (_verified_effect_refs (u "turn-2") sample_envelope)))
    = [VDict [(u "model", VStr (u "res.partner")); (u "record_ids", VList [VInt 8])]].
Proof. split; vm_compute; reflexivity. Qed.

(** A control character takes six characters of the text: one turn whose messages are full of them
    leaves no context that fits, and the next turn cannot run. *)
Definition control_turn : turn_view :=
  sample_view 1 (u "turn-1") (replicate 640 1%N) (replicate 640 1%N) VNone VNone.
Example control_characters_do_not_fit :
  turn_ok control_turn ∧
  (snapshot ← _build_conversation_context_snapshot sample_conversation [control_turn] third_turn;
   _provider_context_json snapshot) = Err ValidationError.
Proof. split; [apply sample_turn_ok; by vm_compute|vm_compute; reflexivity]. Qed.

(** Twenty-five turns that were stopped before they ran are more than the search for predecessors
    sees: the context forgets the first one, with everything before it. *)
Definition stopped_turns : list turn_view :=
  (λ id, sample_view id (u "turn") (u "question") (u "stopped") VNone VNone) <$> seqZ 1 25.
Example long_gap_forgets :
  (get (u "revision") <$>
     _build_conversation_context_snapshot sample_conversation (_bounded_tail stopped_turns _MAX_PREDECESSOR_SCAN) third_turn)
    = Ok (VInt 24) ∧
  (get (u "revision") <$> rebuild sample_conversation stopped_turns third_turn) = Ok (VInt 25).
Proof. split; vm_compute; reflexivity. Qed.
