(* ===== verification/ChatPolicy.v ===== *)
(** * Chat policy: the layers that bound a turn

    [models/chat_policy.py], the autonomy of [models/user_preferences.py] and of
    [models/conversation_preferences.py]: a turn stores four layers when it is queued, and the
    worker resolves them to the policy that the capabilities are held to.  The theorems: the
    resolved policy is the strictest of its layers, every stored set of layers resolves, and what
    the user chose, for the conversation or in general, is what the capabilities are held to. *)
From S2P Require Import Prelude PyText Regex PyValue Json Failure TurnStore EffectPlan Capability.
Local Open Scope Z_scope.

Definition _MODE_RANK : list (pystr * Z) :=
  [(u "always_confirm", 0); (u "risk_based", 1); (u "protected_only", 2)].
Definition _RISK_RANK : list (pystr * Z) :=
  [(u "low", 0); (u "moderate", 1); (u "high", 2); (u "protected", 3)].
Definition _MODES : list pystr := keys _MODE_RANK.
Definition _RISKS : list pystr := keys _RISK_RANK.
Definition _PERMISSIVE_MODE : pystr := u "protected_only".
Definition _PERMISSIVE_RISK : pystr := u "protected".
Definition _P6_MAX_EFFECT_STEPS : Z := 5.

(** A layer, in the order of its keys *)
Definition layer (mode risk : pystr) (synthetic : bool) : pydict :=
  [(u "confirmation_mode", VStr mode); (u "max_auto_risk", VStr risk); (u "allow_synthetic_data", VBool synthetic);
   (u "max_tool_calls_per_turn", VInt 32); (u "max_write_steps_per_plan", VInt 12); (u "max_replans", VInt 2);
   (u "max_consecutive_failures", VInt 3)].
Definition _SYSTEM_LAYER : pydict := layer _PERMISSIVE_MODE _PERMISSIVE_RISK true.
Definition _policy_layer (mode risk : pystr) (synthetic : bool) : pydict :=
  layer (if mem mode _MODES then mode else _PERMISSIVE_MODE) (if mem risk _RISKS then risk else _PERMISSIVE_RISK) synthetic.

(** ** Resolution *)

Abbreviation checked := (result turn_exn).
Definition refuse (b : bool) : checked unit := raise_when b ValidationError.

(** [type(v) is not int or not low <= v <= high] *)
Definition int_within (low high : Z) (v : pyval) : bool :=
  match v with VInt z => (low <=? z) && (z <=? high) | _ => false end.
Definition layer_keys : list pystr :=
  [u "confirmation_mode"; u "max_auto_risk"; u "allow_synthetic_data"; u "max_tool_calls_per_turn";
   u "max_write_steps_per_plan"; u "max_replans"; u "max_consecutive_failures"].
Definition layer_limits : list (pystr * (Z * Z)) :=
  [(u "max_tool_calls_per_turn", (1, 32)); (u "max_write_steps_per_plan", (0, 12)); (u "max_replans", (0, 2));
   (u "max_consecutive_failures", (1, 3))].

(** [a not in A or b not in B]: the second test is made when the first is false. *)
Definition _validated_layer (v : pyval) : checked pydict :=
  value ← of_option (as_dict v) ValidationError;
  refuse (negb (has_keys value layer_keys));;
  raise_any [negb <$> of_option (in_str_set (get (u "confirmation_mode") value) _MODES) PyError;
             negb <$> of_option (in_str_set (get (u "max_auto_risk") value) _RISKS) PyError] ValidationError;;
  refuse (negb (bool_decide (is_Some (as_bool (get (u "allow_synthetic_data") value)))));;
  refuse (negb (forallb (λ kl, int_within kl.2.1 kl.2.2 (get kl.1 value)) layer_limits));;
  Ok value.

Definition layer_names : list pystr := [u "system_ceiling"; u "administrator"; u "user"; u "conversation"].
Definition rank (ranks : list (pystr * Z)) (k : pystr) (l : pydict) : Z :=
  default 0 (s ← as_str (get k l); dict_lookup s ranks).
Definition number (k : pystr) (l : pydict) : Z := default 0 (as_int (get k l)).
(** [min(..., key=...)]: the first of the smallest *)
Fixpoint min_by {A} (f : A → Z) (x : A) (l : list A) : A :=
  match l with
  | [] => x
  | y :: l => min_by f (if f y <? f x then y else x) l
  end.
Definition smallest (f : pydict → Z) (ls : list pydict) : pydict :=
  match ls with [] => [] | l :: ls => min_by f l ls end.
Definition least (k : pystr) (ls : list pydict) : Z := number k (smallest (number k) ls).

Definition resolve_capability_policy (v : pyval) : checked pydict :=
  snapshot ← of_option (as_dict v) ValidationError;
  refuse (negb (has_keys snapshot [u "layers"; u "synthetic_data_authorized"]));;
  layers ← of_option (as_dict (get (u "layers") snapshot)) ValidationError;
  refuse (negb (has_keys layers layer_names));;
  normalized ← mapR (λ name, _validated_layer (get name layers)) layer_names;
  let max_write_steps := least (u "max_write_steps_per_plan") normalized in
  Ok [(u "confirmation_mode",
         get (u "confirmation_mode") (smallest (rank _MODE_RANK (u "confirmation_mode")) normalized));
      (u "max_auto_risk", get (u "max_auto_risk") (smallest (rank _RISK_RANK (u "max_auto_risk")) normalized));
      (u "allow_synthetic_data", VBool (forallb (λ l, truthy (get (u "allow_synthetic_data") l)) normalized));
      (u "synthetic_data_authorized", VBool (truthy (get (u "synthetic_data_authorized") snapshot)));
      (u "max_tool_calls_per_turn", VInt (least (u "max_tool_calls_per_turn") normalized));
      (u "max_write_steps_per_plan", VInt max_write_steps);
      (u "max_effect_steps_per_plan", VInt (Z.min _P6_MAX_EFFECT_STEPS max_write_steps));
      (u "max_replans", VInt (least (u "max_replans") normalized));
      (u "max_consecutive_failures", VInt (least (u "max_consecutive_failures") normalized))].

(** ** What a message says of synthetic data *)

(** The parts of a pattern that [re.search] looks for; [\b] depends on both neighbours. *)
Inductive piece : Type :=
| Boundary
| Some_of (r : regex)
| Word_characters                       (* [\w*] *)
| Up_to (n : nat)                       (* [.{0,n}] *).

(** The Unicode data of the interpreter: [str.casefold] and the class [\w] *)
Section synthetic.
Context (str_casefold : pystr → pystr) (is_word : N → bool).

Definition word_at (o : option N) : bool := from_option is_word false o.
(** [k] after a prefix that [r] matches, and after at most [n] characters of a class *)
Fixpoint after_match (k : option N → pystr → bool) (r : regex) (prev : option N) (s : pystr) : bool :=
  (nullable r && k prev s) ||
  match r, s with
  | RNone, _ | _, [] => false
  | _, c :: s => after_match k (deriv c r) (Some c) s
  end.
Fixpoint after_some (k : option N → pystr → bool) (class : N → bool) (n : nat) (prev : option N) (s : pystr) : bool :=
  k prev s ||
  match n, s with
  | S n, c :: s => class c && after_some k class n (Some c) s
  | _, _ => false
  end.
Fixpoint match_pieces (ps : list piece) (prev : option N) (s : pystr) : bool :=
  match ps with
  | [] => true
  | Boundary :: ps => xorb (word_at prev) (word_at (head s)) && match_pieces ps prev s
  | Some_of r :: ps => after_match (match_pieces ps) r prev s
  | Word_characters :: ps => after_some (match_pieces ps) is_word (length s) prev s
  | Up_to k :: ps => after_some (match_pieces ps) (λ c, negb (c =? 10)%N) k prev s
  end.
Fixpoint search (ps : list piece) (prev : option N) (s : pystr) : bool :=
  match_pieces ps prev s || match s with [] => false | c :: s => search ps (Some c) s end.

Definition gender : regex := RSet (chars (u "oa")).
Definition plural : regex := ROpt (RLit (u "s")).
Definition synthetic_word : piece :=
  Some_of (RAlts [RLit (u "prueba"); RLit (u "demo");
                  (RLit (u "demostraci") · RSet [(111, 111); (243, 243)]%N · RLit (u "n"))%regex;
                  (RLit (u "fictici") · gender · plural)%regex;
                  (RLit (u "sint") · RSet [(101, 101); (233, 233)]%N · RLit (u "tic") · gender · plural)%regex;
                  (RLit (u "inventad") · gender · plural)%regex]).
Definition refusal : list piece :=
  [Boundary; Some_of (RLit (u "no ") · RAlts [(RLit (u "use") · plural)%regex; (RLit (u "cree") · plural)%regex])%regex;
   Boundary; Up_to 40; Boundary; synthetic_word; Boundary].
Definition permission : list piece := [Boundary; Some_of (RLit (u "puedes")); Boundary; Up_to 50; Boundary; synthetic_word; Boundary].
Definition authorization : list piece :=
  [Boundary; Some_of (RLit (u "autoriza")); Word_characters; Boundary; Up_to 50; Boundary; synthetic_word; Boundary].

(** The two keys of the dictionary have one value; [None] is the empty dictionary. *)
Definition _synthetic_override (message : pyval) : option bool :=
  match message with
  | VStr message =>
      let normalized := normalize_ws (str_casefold message) in
      if search refusal None normalized then Some false
      else if search permission None normalized || search authorization None normalized then Some true
      else None
  | _ => None
  end.
Definition _explicit_synthetic_request (message : pyval) : bool :=
  match message with
  | VStr message => search [Boundary; synthetic_word; Boundary] None (normalize_ws (str_casefold message))
  | _ => false
  end.

(** ** The stored choices *)

Record chat_policy := MkChatPolicy {
  cp_mode : pystr;
  cp_risk : pystr;
  cp_allow_synthetic : bool;
  cp_authorized : bool;
  cp_override : bool }.
Record user_preference := MkPreference {
  up_profile : option pystr;
  up_mode : pystr;
  up_risk : pystr;
  up_allow_synthetic : bool }.
(** The rows are unique by user and conversation, and by user. *)
Record policy_db := MkPolicyDb {
  pl_policies : gmap (Z * pystr) chat_policy;
  pl_preferences : gmap Z user_preference;
  pl_administrator : option pystr           (* the parameter of the administrator *) }.
Abbreviation PS := (ST policy_db turn_exn).
Definition with_policy (k : Z * pystr) (r : chat_policy) (s : policy_db) : policy_db :=
  MkPolicyDb (<[k := r]> (pl_policies s)) (pl_preferences s) (pl_administrator s).
Definition with_preference (k : Z) (r : user_preference) (s : policy_db) : policy_db :=
  MkPolicyDb (pl_policies s) (<[k := r]> (pl_preferences s)) (pl_administrator s).

Definition _AUTONOMY_PROFILES : list (pystr * (pystr * pystr)) :=
  [(u "strict", (u "always_confirm", u "low")); (u "balanced", (u "risk_based", u "moderate"));
   (u "autonomous", (u "protected_only", u "high")); (u "full_access", (u "protected_only", u "protected"))].
(** [_profile_from_policy], the same as [_profile_from_legacy] *)
Definition _profile_from_policy (mode risk : pystr) : pystr :=
  if str_eqb mode (u "always_confirm") then u "strict"
  else if str_eqb mode (u "protected_only") && str_eqb risk (u "protected") then u "full_access"
  else if str_eqb mode (u "protected_only") then u "autonomous"
  else u "balanced".
Definition profile_values (profile : pystr) : checked (pystr * pystr) :=
  of_option (dict_lookup profile _AUTONOMY_PROFILES) PyError.

Definition current_agent_profile (uid : Z) (s : policy_db) : pystr :=
  match pl_preferences s !! uid with
  | None => u "balanced"
  | Some p =>
      match up_profile p with
      | Some profile => if has_key profile _AUTONOMY_PROFILES then profile else _profile_from_policy (up_mode p) (up_risk p)
      | None => _profile_from_policy (up_mode p) (up_risk p)
      end
  end.
Definition set_current_agent_profile (uid : Z) (profile : pystr) : PS pystr :=
  values ← lift (of_option (dict_lookup profile _AUTONOMY_PROFILES) ValidationError);
  s ← gets (λ s, s);
  let allow := match pl_preferences s !! uid with Some p => up_allow_synthetic p | None => true end in
  modify (with_preference uid (MkPreference (Some profile) values.1 values.2 allow));;
  mret profile.
Definition current_agent_policy (uid : Z) (s : policy_db) : checked pydict :=
  values ← profile_values (current_agent_profile uid s);
  Ok (layer values.1 values.2 match pl_preferences s !! uid with Some p => up_allow_synthetic p | None => true end).
Definition _administrator_layer (s : policy_db) : pydict :=
  let raw := match pl_administrator s with Some ((_ :: _) as raw) => raw | _ => u "True" end in
  _policy_layer _PERMISSIVE_MODE _PERMISSIVE_RISK (mem (lower_ascii <$> strip raw) [u "1"; u "true"; u "yes"]).

(** ** The layers of a turn *)

(** [policy_layers_for_turn] of [chat_policy.py]; an empty identifier is no conversation. *)
Definition base_layers (uid : Z) (conversation_id : pystr) (message : pyval) : PS (pydict * bool) :=
  let override := _synthetic_override message in
  let key := (uid, conversation_id) in
  (match conversation_id, override with
   | _ :: _, Some b =>
       s ← gets (λ s, s);
       modify (with_policy key
         match pl_policies s !! key with
         | Some r => MkChatPolicy (cp_mode r) (cp_risk r) b b (cp_override r)
         | None => MkChatPolicy _PERMISSIVE_MODE _PERMISSIVE_RISK b b false
         end)
   | _, _ => mret tt
   end);;
  s ← gets (λ s, s);
  let record := match conversation_id with [] => None | _ => pl_policies s !! key end in
  let conversation := _policy_layer _PERMISSIVE_MODE _PERMISSIVE_RISK
                        match record with Some r => cp_allow_synthetic r | None => true end in
  user ← lift (current_agent_policy uid s);
  let authorized := match override with
                    | Some b => b
                    | None => _explicit_synthetic_request message
                              || match record with Some r => cp_authorized r | None => false end
                    end in
  mret ([(u "system_ceiling", VDict _SYSTEM_LAYER); (u "administrator", VDict (_administrator_layer s));
         (u "user", VDict user); (u "conversation", VDict conversation)], authorized).

(** [_owned_conversation] raises for a conversation of another user. *)
Context (owned : Z → pystr → checked unit).
Definition conversation_autonomy_profile (uid : Z) (conversation_id : pystr) : PS (option pystr) :=
  lift (owned uid conversation_id);;
  s ← gets (λ s, s);
  mret match pl_policies s !! (uid, conversation_id) with
       | Some r => if cp_override r then Some (_profile_from_policy (cp_mode r) (cp_risk r)) else None
       | None => None
       end.
(** [profile in (None, "", "inherit")] is [None]. *)
Definition set_conversation_autonomy_profile (uid : Z) (conversation_id : pystr) (profile : option pystr)
    : PS (option pystr) :=
  lift (owned uid conversation_id);;
  s ← gets (λ s, s);
  let key := (uid, conversation_id) in
  match profile with
  | None =>
      (match pl_policies s !! key with
       | Some r => modify (with_policy key (MkChatPolicy (cp_mode r) (cp_risk r) (cp_allow_synthetic r) (cp_authorized r) false))
       | None => mret tt
       end);;
      mret None
  | Some profile =>
      values ← lift (of_option (dict_lookup profile _AUTONOMY_PROFILES) ValidationError);
      let r := default (MkChatPolicy [] [] true false false) (pl_policies s !! key) in
      modify (with_policy key (MkChatPolicy values.1 values.2 (cp_allow_synthetic r) (cp_authorized r) true));;
      mret (Some profile)
  end.

(** The explicit profile of the conversation replaces the user's layer. *)
Definition replace_user (profile : option pystr) (layers : pydict) : checked pydict :=
  match profile with
  | None => Ok layers
  | Some profile =>
      values ← profile_values profile;
      user ← of_option (as_dict (get (u "user") layers)) PyError;
      Ok (dict_set (u "user")
            (VDict (_policy_layer values.1 values.2 (truthy (get (u "allow_synthetic_data") user)))) layers)
  end.
(** [policy_layers_for_turn] of [conversation_preferences.py], which overrides and calls the former *)
Definition policy_layers_for_turn (uid : Z) (conversation_id : pystr) (message : pyval) : PS pyval :=
  '(layers, authorized) ← base_layers uid conversation_id message;
  profile ← (match conversation_id with [] => mret None | _ => conversation_autonomy_profile uid conversation_id end);
  layers ← lift (replace_user profile layers);
  mret (VDict [(u "layers", VDict layers); (u "synthetic_data_authorized", VBool authorized)]).
End synthetic.

(** ** The resolved policy is the strictest of its layers *)

Lemma min_by_spec {A} (f : A → Z) x l : min_by f x l ∈ x :: l ∧ ∀ y, y ∈ x :: l → f (min_by f x l) ≤ f y.
Proof.
  revert x. induction l as [|z l IH]; intros x; simpl; [split; [by left|by intros y ->%list_elem_of_singleton]|].
  destruct (IH (if f z <? f x then z else x)) as [Hin Hle]. set (m := min_by _ _ _) in *.
  assert (f m ≤ f x ∧ f m ≤ f z) as [Hx Hz].
  { pose proof (Hle _ (list_elem_of_here _ _)). destruct (f z <? f x) eqn:E; [apply Z.ltb_lt in E|apply Z.ltb_ge in E]; lia. }
  split.
  - apply elem_of_cons in Hin as [->|Hin]; [destruct (_ <? _); [right; left|left]|by right; right].
  - intros y [->|[->|Hy]%elem_of_cons]%elem_of_cons; [done..|]. apply Hle. by right.
Qed.
Lemma smallest_spec f ls : ls ≠ [] → smallest f ls ∈ ls ∧ ∀ l, l ∈ ls → f (smallest f ls) ≤ f l.
Proof. destruct ls as [|x l]; [done|]. intros _. apply min_by_spec. Qed.

Lemma number_of k l z : get k l = VInt z → number k l = z.
Proof. intros H. unfold number. by rewrite H. Qed.

Record valid_layer (l : pydict) : Prop := {
  vl_mode : ∃ m, get (u "confirmation_mode") l = VStr m ∧ m ∈ _MODES;
  vl_risk : ∃ r, get (u "max_auto_risk") l = VStr r ∧ r ∈ _RISKS;
  vl_limits : ∀ k lo hi, (k, (lo, hi)) ∈ layer_limits → ∃ z, get k l = VInt z ∧ lo ≤ z ≤ hi }.

Lemma validated_layer_valid v l : _validated_layer v = Ok l → v = VDict l ∧ valid_layer l.
Proof.
  unfold _validated_layer. intros (d & ->%of_option_Ok%as_dict_Some & H)%bind_Ok.
  apply bind_Ok in H as (? & _ & H). apply bind_Ok in H as (? & Hs%raise_any_Ok & H).
  apply bind_Ok in H as (? & _ & H). apply bind_Ok in H as (? & Hl%raise_when_Ok%negb_false_iff & H). injection H as <-.
  apply Forall_cons in Hs as [H1 [H2 _]%Forall_cons]. split; [done|].
  apply fmap_Ok in H1 as (b1 & H1%of_option_Ok & E1). apply fmap_Ok in H2 as (b2 & H2%of_option_Ok & E2).
  symmetry in E1, E2. apply negb_false_iff in E1 as ->. apply negb_false_iff in E2 as ->. split.
  - apply in_str_set_true in H1 as (m & ? & ?). eauto.
  - apply in_str_set_true in H2 as (m & ? & ?). eauto.
  - intros k lo hi Hk. rewrite forallb_true in Hl. specialize (Hl _ Hk). cbn [fst snd] in Hl.
    destruct (get k d) as [| |z| | | |]; try done. exists z. split; [done|].
    apply andb_true_iff in Hl as [?%Z.leb_le ?%Z.leb_le]. lia.
Qed.

Lemma resolve_layers v p : resolve_capability_policy v = Ok p → ∃ snapshot layers ls,
  v = VDict snapshot ∧ get (u "layers") snapshot = VDict layers ∧ ls ≠ [] ∧
  Forall2 (λ name l, get name layers = VDict l ∧ valid_layer l) layer_names ls ∧
  get (u "confirmation_mode") p = get (u "confirmation_mode") (smallest (rank _MODE_RANK (u "confirmation_mode")) ls) ∧
  get (u "max_auto_risk") p = get (u "max_auto_risk") (smallest (rank _RISK_RANK (u "max_auto_risk")) ls) ∧
  (∀ k, k ∈ keys layer_limits → get k p = VInt (least k ls)) ∧
  get (u "max_effect_steps_per_plan") p = VInt (Z.min 5 (least (u "max_write_steps_per_plan") ls)) ∧
  get (u "allow_synthetic_data") p = VBool (forallb (λ l, truthy (get (u "allow_synthetic_data") l)) ls).
Proof.
  unfold resolve_capability_policy. intros (snapshot & ->%of_option_Ok%as_dict_Some & H)%bind_Ok.
  apply bind_Ok in H as (? & _ & H). apply bind_Ok in H as (layers & Hl%of_option_Ok%as_dict_Some & H).
  apply bind_Ok in H as (? & _ & H). apply bind_Ok in H as (ls & Hls%mapR_Ok & H). injection H as <-.
  exists snapshot, layers, ls. split_and!; try done.
  - intros ->. by apply Forall2_length in Hls.
  - eapply Forall2_impl; [exact Hls|]. intros name l Hn. by apply validated_layer_valid in Hn.
  - intros k Hk. unfold layer_limits, keys in Hk. simpl in Hk.
    repeat (apply elem_of_cons in Hk as [->|Hk]; [reflexivity|]). by apply not_elem_of_nil in Hk.
Qed.

(** Each layer with its name *)
Definition layer_of (v : pyval) (name : pystr) (l : pydict) : Prop :=
  ∃ snapshot layers, v = VDict snapshot ∧ get (u "layers") snapshot = VDict layers ∧ name ∈ layer_names ∧
    get name layers = VDict l.

Lemma layer_listed layers ls name l :
  Forall2 (λ name l, get name layers = VDict l ∧ valid_layer l) layer_names ls → name ∈ layer_names →
  get name layers = VDict l → l ∈ ls ∧ valid_layer l.
Proof.
  intros Hf Hn Hl. apply list_elem_of_lookup in Hn as [i Hi].
  destruct (Forall2_lookup_l _ _ _ _ _ Hf Hi) as (l' & Hl' & E & Hv). rewrite Hl in E. injection E as ->.
  split; [by eapply list_elem_of_lookup_2|done].
Qed.

Lemma resolved_limits v p : resolve_capability_policy v = Ok p →
  (∀ k lo hi, (k, (lo, hi)) ∈ layer_limits → ∃ z, get k p = VInt z ∧ lo ≤ z ≤ hi) ∧
  ∃ z, get (u "max_effect_steps_per_plan") p = VInt z ∧ 0 ≤ z ≤ 5.
Proof.
  intros H. destruct (resolve_layers v p H) as (snapshot & layers & ls & -> & Hl & Hne & Hls & Hm & Hr & Hk & He & Ha).
  assert (∀ k lo hi, (k, (lo, hi)) ∈ layer_limits → lo ≤ least k ls ≤ hi) as Hb.
  { intros k lo hi Hin. destruct (smallest_spec (number k) ls Hne) as [Hs _]. unfold least.
    apply list_elem_of_lookup in Hs as [i Hi]. destruct (Forall2_lookup_r _ _ _ _ _ Hls Hi) as (name & _ & _ & Hv).
    destruct (vl_limits _ Hv k lo hi Hin) as (z & Hz & ?). by rewrite (number_of _ _ _ Hz). }
  split.
  - intros k lo hi Hin. exists (least k ls). split; [|by eapply Hb]. apply Hk.
    by apply (list_elem_of_fmap_2 fst _ (k, (lo, hi))).
  - eexists. split; [exact He|].
    assert (0 ≤ least (u "max_write_steps_per_plan") ls ≤ 12) by (apply Hb; right; left). lia.
Qed.
Lemma resolved_within v p name l : resolve_capability_policy v = Ok p → layer_of v name l →
  valid_layer l ∧
  rank _MODE_RANK (u "confirmation_mode") p ≤ rank _MODE_RANK (u "confirmation_mode") l ∧
  rank _RISK_RANK (u "max_auto_risk") p ≤ rank _RISK_RANK (u "max_auto_risk") l ∧
  (get (u "allow_synthetic_data") p = VBool true → truthy (get (u "allow_synthetic_data") l) = true) ∧
  ∀ k, k ∈ keys layer_limits → number k p ≤ number k l.
Proof.
  intros H (s' & layers' & E & Hl' & Hn & Hg).
  destruct (resolve_layers v p H) as (snapshot & layers & ls & -> & Hl & Hne & Hls & Hm & Hr & Hk & He & Ha).
  injection E as <-. rewrite Hl in Hl'. injection Hl' as <-.
  destruct (layer_listed layers ls name l Hls Hn Hg) as [Hin Hv]. unfold rank at 1 3. rewrite Hm, Hr. split_and!; [done|..].
  - by apply (smallest_spec (rank _MODE_RANK (u "confirmation_mode")) ls Hne).
  - by apply (smallest_spec (rank _RISK_RANK (u "max_auto_risk")) ls Hne).
  - rewrite Ha. intros [= Et]. rewrite forallb_true in Et. by apply Et.
  - intros k Hkin. unfold number at 1. rewrite Hk by done. cbn [as_int default].
    by apply (smallest_spec (number k) ls Hne).
Qed.

(** C31: The resolved policy is no more permissive than any of its layers in confirmation mode,
    risk, synthetic data and every numeric limit, and allows at most 2 replans and 5 effect
    steps per plan. *)
Theorem resolved_policy_is_strictest v p : resolve_capability_policy v = Ok p →
  (∀ name l, layer_of v name l →
     rank _MODE_RANK (u "confirmation_mode") p ≤ rank _MODE_RANK (u "confirmation_mode") l ∧
     rank _RISK_RANK (u "max_auto_risk") p ≤ rank _RISK_RANK (u "max_auto_risk") l ∧
     (get (u "allow_synthetic_data") p = VBool true → truthy (get (u "allow_synthetic_data") l) = true) ∧
     ∀ k, k ∈ keys layer_limits → number k p ≤ number k l) ∧
  (∃ z, get (u "max_replans") p = VInt z ∧ 0 ≤ z ≤ 2) ∧
  ∃ z, get (u "max_effect_steps_per_plan") p = VInt z ∧ 0 ≤ z ≤ 5.
Proof.
  intros H. destruct (resolved_limits v p H) as [Hl He]. split_and!; [|apply Hl; right; right; left|exact He].
  intros name l Hn. by destruct (resolved_within v p name l H Hn) as [_ ?].
Qed.

(** ** What the layers require of a capability *)

Lemma requires_valid d l metadata : valid_layer l → get (u "capability_policy") metadata = VDict l →
  _policy_requires_approval d metadata = Ok (
    if rank _MODE_RANK (u "confirmation_mode") l =? 0 then negb (bool_decide (d_effect d = ReadOnly))
    else rank _RISK_RANK (u "max_auto_risk") l <? Capability._RISK_RANK (_effective_risk d)).
Proof.
  intros [(m & Hm & Hmin) (r & Hr & Hrin) _] Hp. unfold _policy_requires_approval. rewrite Hp. unfold rank. rewrite Hm, Hr.
  unfold _MODES, _RISKS, keys in *. simpl in Hmin, Hrin.
  repeat (apply elem_of_cons in Hmin as [->|Hmin]); [..|by apply not_elem_of_nil in Hmin];
    (repeat (apply elem_of_cons in Hrin as [->|Hrin]); [..|by apply not_elem_of_nil in Hrin]); reflexivity.
Qed.
Lemma rank_of_valid l : valid_layer l → 0 ≤ rank _MODE_RANK (u "confirmation_mode") l.
Proof.
  intros [(m & Hm & Hmin) _ _]. unfold rank. rewrite Hm. unfold _MODES, keys in Hmin. simpl in Hmin.
  repeat (apply elem_of_cons in Hmin as [->|Hmin]; [vm_compute; done|]). by apply not_elem_of_nil in Hmin.
Qed.

Lemma strictest_mode l : valid_layer l → (rank _MODE_RANK (u "confirmation_mode") l =? 0) = true →
  get (u "confirmation_mode") l = VStr (u "always_confirm").
Proof.
  intros [(m & Hm & Hmin) _ _]. unfold rank. rewrite Hm. unfold _MODES, keys in Hmin. simpl in Hmin.
  repeat (apply elem_of_cons in Hmin as [->|Hmin]; [by vm_compute|]). by apply not_elem_of_nil in Hmin.
Qed.

Lemma resolved_valid v p : resolve_capability_policy v = Ok p → valid_layer p.
Proof.
  intros H. destruct (resolved_limits v p H) as [Hlimits _].
  destruct (resolve_layers v p H) as (snapshot & layers & ls & -> & _ & Hne & Hls & Hm & Hr & _).
  assert (∀ l, l ∈ ls → valid_layer l) as Hv.
  { intros l [i Hi]%list_elem_of_lookup. by destruct (Forall2_lookup_r _ _ _ _ _ Hls Hi) as (name & _ & _ & Hv). }
  split; [rewrite Hm|rewrite Hr|exact Hlimits]; apply Hv, smallest_spec, Hne.
Qed.

(** C22: When one of the layers of the policy requires approval for a capability, the policy
    resolved from the layers requires it too, with one exception: of a read-only capability,
    when the resolved mode is always_confirm, which exempts everything read-only whatever its
    risk. *)
Theorem no_layer_is_bypassed v p d metadata name l :
  resolve_capability_policy v = Ok p → layer_of v name l →
  get (u "capability_policy") metadata = VDict p →
  _policy_requires_approval d [(u "capability_policy", VDict l)] = Ok true →
  _policy_requires_approval d metadata = Ok true ∨
  d_effect d = ReadOnly ∧ get (u "confirmation_mode") p = VStr (u "always_confirm").
Proof.
  intros Hp Hl Hmd Hr. destruct (resolved_within v p name l Hp Hl) as (Hv & Hmode & Hrisk & _).
  rewrite (requires_valid d l) in Hr by done. rewrite (requires_valid d p) by (first [done|by eapply resolved_valid]).
  injection Hr as Hr. pose proof (resolved_valid v p Hp) as Hpv. destruct (rank _MODE_RANK _ p =? 0) eqn:Ep.
  { destruct (decide (d_effect d = ReadOnly)) as [E|E]; [right; split; [done|by apply strictest_mode]|].
    left. by rewrite bool_decide_false. }
  left. f_equal. apply Z.eqb_neq in Ep. pose proof (rank_of_valid p Hpv) as Hp0.
  destruct (rank _MODE_RANK _ l =? 0) eqn:El; [apply Z.eqb_eq in El; lia|].
  apply Z.ltb_lt in Hr. apply Z.ltb_lt. lia.
Qed.

(** ** The layers of a queued turn *)

Definition chosen_profile (uid : Z) (conversation_id : pystr) (s : policy_db) : pystr :=
  match conversation_id, pl_policies s !! (uid, conversation_id) with
  | _ :: _, Some r => if cp_override r then _profile_from_policy (cp_mode r) (cp_risk r) else current_agent_profile uid s
  | _, _ => current_agent_profile uid s
  end.

Lemma profile_from_policy_known mode risk : _profile_from_policy mode risk ∈ keys _AUTONOMY_PROFILES.
Proof. unfold _profile_from_policy. repeat case_bool; apply (bool_decide_unpack _); by vm_compute. Qed.
Lemma current_profile_known uid s : current_agent_profile uid s ∈ keys _AUTONOMY_PROFILES.
Proof.
  unfold current_agent_profile. destruct (_ !! uid) as [p|]; [|apply (bool_decide_unpack _); by vm_compute].
  destruct (up_profile p) as [profile|]; [|apply profile_from_policy_known].
  destruct (has_key _ _) eqn:E; [by apply mem_true in E|apply profile_from_policy_known].
Qed.

Definition user_values (profile : pystr) : pystr * pystr := default ([], []) (dict_lookup profile _AUTONOMY_PROFILES).
Lemma profile_values_known profile : profile ∈ keys _AUTONOMY_PROFILES → profile_values profile = Ok (user_values profile).
Proof.
  unfold keys, _AUTONOMY_PROFILES. simpl. intros H.
  repeat (apply elem_of_cons in H as [->|H]; [reflexivity|]). by apply not_elem_of_nil in H.
Qed.

(** The four layers with the user's values resolve to these values. *)
Definition queued_layers (administrator user conversation : bool) (mode risk : pystr) : pydict :=
  [(u "system_ceiling", VDict _SYSTEM_LAYER);
   (u "administrator", VDict (_policy_layer _PERMISSIVE_MODE _PERMISSIVE_RISK administrator));
   (u "user", VDict (layer mode risk user));
   (u "conversation", VDict (_policy_layer _PERMISSIVE_MODE _PERMISSIVE_RISK conversation))].
Lemma queued_layers_resolve a b c authorized profile : profile ∈ keys _AUTONOMY_PROFILES →
  let values := user_values profile in
  resolve_capability_policy
    (VDict [(u "layers", VDict (queued_layers a b c values.1 values.2)); (u "synthetic_data_authorized", VBool authorized)])
  = Ok [(u "confirmation_mode", VStr values.1); (u "max_auto_risk", VStr values.2);
        (u "allow_synthetic_data", VBool (a && b && c)); (u "synthetic_data_authorized", VBool authorized);
        (u "max_tool_calls_per_turn", VInt 32); (u "max_write_steps_per_plan", VInt 12);
        (u "max_effect_steps_per_plan", VInt 5); (u "max_replans", VInt 2); (u "max_consecutive_failures", VInt 3)].
Proof.
  unfold keys, _AUTONOMY_PROFILES. simpl. intros H.
  repeat (apply elem_of_cons in H as [->|H]; [by destruct a, b, c; vm_compute|]). by apply not_elem_of_nil in H.
Qed.

Lemma layers_replaced a b c mode risk profile : profile ∈ keys _AUTONOMY_PROFILES →
  replace_user (Some profile) (queued_layers a b c mode risk)
    = Ok (queued_layers a b c (user_values profile).1 (user_values profile).2).
Proof.
  unfold keys, _AUTONOMY_PROFILES. simpl. intros H.
  repeat (apply elem_of_cons in H as [->|H]; [by destruct b; vm_compute|]). by apply not_elem_of_nil in H.
Qed.

Section queued.
Context (str_casefold : pystr → pystr) (is_word : N → bool) (owned : Z → pystr → checked unit).

(** The message may set what is said of synthetic data, and nothing else. *)
Definition same_choices (uid : Z) (conversation_id : pystr) (s s' : policy_db) : Prop :=
  pl_preferences s' = pl_preferences s ∧
  chosen_profile uid conversation_id s' = chosen_profile uid conversation_id s.
Lemma base_layers_Ok uid conversation_id message s : ∃ a b c authorized s',
  base_layers str_casefold is_word uid conversation_id message s
    = (Ok (queued_layers a b c (user_values (current_agent_profile uid s)).1 (user_values (current_agent_profile uid s)).2,
           authorized), s') ∧ same_choices uid conversation_id s s'.
Proof.
  unfold base_layers. set (o := _synthetic_override _ _ _). set (m1 := match conversation_id with [] => _ | _ => _ end).
  assert (∃ s', m1 s = (Ok tt, s') ∧ same_choices uid conversation_id s s') as (s' & Hm & Hs).
  { unfold m1. destruct conversation_id as [|x conversation_id]; [by eexists|]. destruct o as [b|]; [|by eexists].
    rewrite ST_bind_at. unfold gets. eexists. split; [reflexivity|]. split; [done|]. unfold chosen_profile.
    cbn [with_policy pl_policies]. rewrite lookup_insert_eq. by destruct (_ !! _) as [r|]. }
  rewrite ST_bind_at, Hm. rewrite ST_bind_at. unfold gets. rewrite ST_bind_lift.
  unfold current_agent_policy. assert (current_agent_profile uid s' = current_agent_profile uid s) as ->.
  { unfold current_agent_profile. by rewrite (proj1 Hs). }
  rewrite profile_values_known by apply current_profile_known. cbn [mbind result_bind].
  eexists _, _, _, _, s'. split; [|done]. reflexivity.
Qed.
Lemma conversation_profile_Ok uid conversation_id s : owned uid conversation_id = Ok tt →
  conversation_autonomy_profile owned uid conversation_id s =
    (Ok (r ← pl_policies s !! (uid, conversation_id);
         if cp_override r then Some (_profile_from_policy (cp_mode r) (cp_risk r)) else None), s).
Proof.
  intros H. unfold conversation_autonomy_profile. rewrite ST_bind_lift, H, ST_bind_at. unfold gets.
  by destruct (_ !! _).
Qed.

(** Every turn gets layers that resolve, whatever the message says: the resolved policy has the mode
    and the risk of the profile chosen for the conversation or, without one, by the user, and the
    limits of the system. *)
Theorem queued_policy_is_chosen uid conversation_id message s :
  (conversation_id ≠ [] → owned uid conversation_id = Ok tt) →
  ∃ v s' p, policy_layers_for_turn str_casefold is_word owned uid conversation_id message s = (Ok v, s') ∧
    resolve_capability_policy v = Ok p ∧
    dict_lookup (chosen_profile uid conversation_id s) _AUTONOMY_PROFILES = Some
      (default [] (as_str (get (u "confirmation_mode") p)), default [] (as_str (get (u "max_auto_risk") p))) ∧
    get (u "max_replans") p = VInt 2 ∧ get (u "max_effect_steps_per_plan") p = VInt 5.
Proof.
  intros Howned. unfold policy_layers_for_turn.
  destruct (base_layers_Ok uid conversation_id message s) as (a & b & c & authorized & s' & Hb & Hpref & Hch).
  set (chosen := chosen_profile uid conversation_id s) in *.
  assert (∃ o, (match conversation_id with [] => mret None | _ => conversation_autonomy_profile owned uid conversation_id end : ST policy_db turn_exn _) s' = (Ok o, s') ∧
    chosen = default (current_agent_profile uid s) o ∧ from_option (λ p, p ∈ keys _AUTONOMY_PROFILES) True o) as (o & Ho & Hdef & Hk).
  { rewrite <- Hch. unfold chosen_profile. assert (current_agent_profile uid s' = current_agent_profile uid s) as ->.
    { unfold current_agent_profile. by rewrite Hpref. }
    destruct conversation_id as [|x l]; [by eexists|]. rewrite (conversation_profile_Ok uid (x :: l) s' (Howned ltac:(done))).
    eexists. split; [done|]. destruct (pl_policies s' !! _) as [r|]; [|done]. simpl.
    destruct (cp_override r); [split; [done|apply profile_from_policy_known]|done]. }
  assert (replace_user o (queued_layers a b c (user_values (current_agent_profile uid s)).1 (user_values (current_agent_profile uid s)).2)
          = Ok (queued_layers a b c (user_values chosen).1 (user_values chosen).2)) as Hrep.
  { rewrite Hdef. destruct o as [profile|]; [|done]. by apply layers_replaced. }
  assert (chosen ∈ keys _AUTONOMY_PROFILES) as Hc by (rewrite Hdef; destruct o; [done|apply current_profile_known]).
  rewrite ST_bind_at, Hb, ST_bind_at, Ho, ST_bind_lift, Hrep. eexists _, _, _. split; [reflexivity|].
  rewrite queued_layers_resolve by done. split; [reflexivity|]. split; [|done].
  unfold user_values. unfold keys, _AUTONOMY_PROFILES in Hc. simpl in Hc.
  repeat (apply elem_of_cons in Hc as [->|Hc]; [reflexivity|]). by apply not_elem_of_nil in Hc.
Qed.
End queued.

(** ** A user who confirms everything *)

Definition latin_word (c : N) : bool := in_ranges (lower ++ upper ++ digit ++ chars (u "_") ++ [(192, 255)]%N) c.
Definition said (message : pystr) : option bool * bool :=
  (_synthetic_override casefold latin_word (VStr message), _explicit_synthetic_request casefold latin_word (VStr message)).
Example synthetic_messages :
  said (u "Por favor,  no uses datos de prueba") = (Some false, true) ∧
  said (u "Puedes crear un pedido demo") = (Some true, true) ∧
  said (u "autorizado: clientes ficticios") = (Some true, true) ∧
  said (u "crea una demostraci" ++ [243%N] ++ u "n") = (None, true) ∧
  said (u "borra la demora") = (None, false).
Proof. split_and!; vm_compute; reflexivity. Qed.

(** The user's profile is full access, this conversation is strict. *)
Definition sample_policies : policy_db :=
  MkPolicyDb {[ (2, u "c-1") := MkChatPolicy (u "always_confirm") (u "low") true false true ]}
    {[ 2 := MkPreference (Some (u "full_access")) (u "protected_only") (u "protected") true ]} None.
Definition sample_run := policy_layers_for_turn casefold latin_word (λ _ _, Ok tt) 2 (u "c-1") (VStr (u "crea un pedido")) sample_policies.
Definition sample_snapshot : pyval := result_or VNone sample_run.1.
Definition sample_resolved : pydict := result_or [] (resolve_capability_policy sample_snapshot).

Lemma queued_policy_is_chosen_witness :
  ∃ v s' p, policy_layers_for_turn casefold latin_word (λ _ _, Ok tt) 2 (u "c-1") (VStr (u "crea un pedido")) sample_policies = (Ok v, s') ∧
    resolve_capability_policy v = Ok p ∧
    dict_lookup (u "strict") _AUTONOMY_PROFILES = Some
      (default [] (as_str (get (u "confirmation_mode") p)), default [] (as_str (get (u "max_auto_risk") p))) ∧
    get (u "max_replans") p = VInt 2 ∧ get (u "max_effect_steps_per_plan") p = VInt 5.
Proof. exact (queued_policy_is_chosen casefold latin_word (λ _ _, Ok tt) 2 (u "c-1") (VStr (u "crea un pedido")) sample_policies (λ _, eq_refl)). Defined.

Definition sample_user_layer : pydict := layer (u "always_confirm") (u "low") true.
Lemma sample_layer : layer_of sample_snapshot (u "user") sample_user_layer.
Proof.
  eexists _, _. split_and!; [vm_compute; reflexivity|reflexivity| |reflexivity]. right; right; left.
Qed.
Lemma sample_resolves : resolve_capability_policy sample_snapshot = Ok sample_resolved.
Proof. vm_compute. reflexivity. Qed.

Lemma resolved_policy_is_strictest_witness :
  rank _MODE_RANK (u "confirmation_mode") sample_resolved ≤ rank _MODE_RANK (u "confirmation_mode") sample_user_layer.
Proof. exact (proj1 (proj1 (resolved_policy_is_strictest _ _ sample_resolves) _ _ sample_layer)). Defined.

Definition sample_capability : CapabilityDefinition :=
  MkDefinition (u "odoo.write") (u "Write") [] [] RiskWrite InternalReversible (u "Write") (u "1") ExposePlan ApprovalPolicy
    [] [] [] [] true None 8 4096 4096 [] [] None true true false.
Lemma no_layer_is_bypassed_witness :
  _policy_requires_approval sample_capability [(u "capability_policy", VDict sample_resolved)] = Ok true.
Proof.
  destruct (no_layer_is_bypassed sample_snapshot sample_resolved sample_capability [(u "capability_policy", VDict sample_resolved)] (u "user") sample_user_layer
            sample_resolves sample_layer eq_refl) as [H|[H _]]; [vm_compute; reflexivity|exact H|discriminate H].
Defined.

(** The stricter mode asks for effects only: a capability that reads and whose risk is above the
    limit needs approval under the layer of the user, and none once another layer always confirms. *)
Definition preview_capability : CapabilityDefinition :=
  MkDefinition (u "odoo.preview") (u "Preview") [(u "type", VStr (u "object"))] [(u "type", VStr (u "object"))] RiskActionPreview ReadOnly (u "Preview") (u "1") ExposePlan ApprovalPolicy
    [] [] [] [] true None 8 4096 4096 [] [] None true true false.
Definition low_risk_layer : pydict := layer (u "risk_based") (u "low") true.
Definition two_layers : pyval :=
  VDict [(u "layers", VDict [(u "system_ceiling", VDict low_risk_layer); (u "administrator", VDict low_risk_layer);
                             (u "user", VDict low_risk_layer);
                             (u "conversation", VDict (layer (u "always_confirm") (u "low") true))]);
         (u "synthetic_data_authorized", VBool false)].
Example reading_is_bypassed :
  is_ok (new_definition preview_capability) = true ∧
  _policy_requires_approval preview_capability [(u "capability_policy", VDict low_risk_layer)] = Ok true ∧
  (p ← resolve_capability_policy two_layers;
   map_err (λ _, ValidationError) (_policy_requires_approval preview_capability [(u "capability_policy", VDict p)])) = Ok false.
Proof. split_and!; vm_compute; reflexivity. Qed.
