(* ===== verification/Compensation.v ===== *)
(** * Capabilities: compensation of a completed plan

    [runtime/agent/compensation.py]: which completed plans can be reverted, and the service that
    runs the host-only compensators of a plan on the capability executor, in reverse order.  The
    theorems say which compensators a run calls, and how its plans relate to the plans that the
    plan service executes. *)
From S2P Require Import Prelude PyText Regex PyValue Json EffectPlan Capability CapabilityValidation.
From S2P Require Import Dependencies CapabilityRegistry CapabilityRegistryFacts CapabilityConfig.
From S2P Require Import CapabilityPublic CapabilityExecutor CapabilityExecutorFacts EffectPlanFacts.
Local Open Scope Z_scope.

(** What the service raises: its own error, or an exception of the capabilities that it does not
    translate. *)
Inductive compensation_exn : Type :=
| CapabilityCompensationError (code : pystr)
| CompensationOther (e : plan_exn).

Definition compensation_plan_invalid : compensation_exn :=
  CapabilityCompensationError (u "capability_compensation_plan_invalid").

Definition compensation_capability_name (capability : pyval) : result compensation_exn pystr :=
  match capability with
  | VStr ((_ :: _) as s) => Ok (s ++ u ".revert")
  | _ => Err (CapabilityCompensationError (u "capability_compensation_invalid"))
  end.

(** [registry.resolve(name)] of any value *)
Definition resolve_value (reg : registry) (name : pyval) : result plan_exn CapabilityDefinition :=
  if hashable name then
    match name with VStr s => resolve reg s | _ => capability_error (u "capability_not_registered") end
  else Err PyTypeError.

(** The [try] of [plan_is_compensatable]: a capability, its compensator and the name of the latter *)
Definition with_compensator (reg : registry) (name : pyval)
    : result plan_exn (option (CapabilityDefinition * pystr * CapabilityDefinition)) :=
  match resolve_value reg name with
  | Err (CapabilityError _ _) => Ok None
  | Err e => Err e
  | Ok original =>
      match compensation_capability_name name with
      | Err _ => Ok None
      | Ok compensation_name =>
          match resolve reg compensation_name with
          | Err (CapabilityError _ _) => Ok None
          | Err e => Err e
          | Ok compensation => Ok (Some (original, compensation_name, compensation))
          end
      end
  end.

Definition compensatable_step (reg : registry) (available_names : list pystr) (v : pyval) : result plan_exn bool :=
  match v with
  | VDict step =>
      o ← with_compensator reg (get (u "capability") step);
      Ok (match o with
          | Some (original, compensation_name, compensation) =>
              py_eq (VStr (d_version original)) (get (u "version") step)
              && bool_decide (d_effect original = InternalReversible)
              && mem compensation_name available_names
              && bool_decide (d_exposure compensation = ExposeHost)
              && bool_decide (d_effect compensation = InternalReversible)
          | None => false
          end)
  | _ => Ok false
  end.

Definition plan_is_compensatable (user : CapabilityUser) (rg : CapabilityRegistry) (metadata : pydict) (v : pyval)
    : result plan_exn bool :=
  match v with
  | VDict p =>
      match get (u "steps") p with
      | VList ((_ :: _) as steps) =>
          if negb (py_eq (get (u "state") p) (VStr (u "completed"))) then Ok false
          else
            usable ← @available user metadata rg;
            all_of (compensatable_step (by_name (rg_definitions rg)) (d_name <$> usable)) steps
      | _ => Ok false
      end
  | _ => Ok false
  end.

Definition is_dict (v : pyval) : bool := bool_decide (is_Some (as_dict v)).
Definition is_string (v : pyval) : bool := bool_decide (is_Some (as_str v)).

(** One step of the loop of [_validated_completed_steps], at [position = length normalized] *)
Definition completed_step (normalized : list pydict) (v : pyval) : result compensation_exn (list pydict) :=
  match v with
  | VDict step =>
      if eq_int (get (u "position") step) (Z.of_nat (length normalized))
         && is_string (get (u "capability") step) && is_string (get (u "version") step)
         && is_dict (get (u "arguments") step) && is_dict (get (u "preview") step)
         && is_dict (get (u "result") step) && is_dict (get (u "verification") step)
         && py_eq (get (u "state") step) (VStr (u "completed"))
      then Ok (normalized ++ [step])
      else Err compensation_plan_invalid
  | _ => Err compensation_plan_invalid
  end.
Definition _validated_completed_steps (v : pyval) : result compensation_exn (list pydict) :=
  match v with
  | VDict p =>
      raise_when (negb (py_eq (get (u "state") p) (VStr (u "completed")))) compensation_plan_invalid;;
      match get (u "steps") p with
      | VList steps =>
          raise_when (negb ((1 <=? length steps)%nat && (length steps <=? 12)%nat)) compensation_plan_invalid;;
          foldR completed_step [] steps
      | _ => Err compensation_plan_invalid
      end
  | _ => Err compensation_plan_invalid
  end.

(** The arguments of a compensator; the steps were validated. *)
Definition compensation_payload (step : pydict) : pydict :=
  [(u "original_capability", get (u "capability") step); (u "original_version", get (u "version") step);
   (u "arguments", get (u "arguments") step); (u "preview", get (u "preview") step);
   (u "result", get (u "result") step); (u "verification", get (u "verification") step)].

(** [except CapabilityError as error] around the executor *)
Definition compensation_error (e : plan_exn) : compensation_exn :=
  match e with
  | CapabilityError code _ => CapabilityCompensationError code
  | e => CompensationOther e
  end.

Section compensation.
Context {D X Evidence : Type} `{!CapabilityHost D X Evidence}.
Context (rg : CapabilityRegistry) (metadata : pydict).
Let reg := by_name (rg_definitions rg).
Abbreviation CS := (ST (executor D X) compensation_exn).

Definition of_executor {A} (f : plan_exn → compensation_exn) (m : ST (executor D X) plan_exn A) : CS A := λ s,
  let '(r, s') := m s in (map_err f r, s').

Definition compensate_step (results : list (CapabilityResult Evidence)) (step : pydict)
    : CS (list (CapabilityResult Evidence)) :=
  let name := get (u "capability") step in
  original ← lift (map_err CompensationOther (resolve_value reg name));
  lift (raise_when (negb (py_eq (VStr (d_version original)) (get (u "version") step)))
          (CapabilityCompensationError (u "capability_compensation_version_mismatch")));;
  compensation ← lift (compensation_capability_name name);
  result_ ← of_executor compensation_error
              (execute rg metadata compensation (compensation_payload step) AuthorityHost true None);
  lift (raise_when (match get (u "verified") (cr_data result_) with VBool true => false | _ => true end)
          (CapabilityCompensationError (u "capability_compensation_verification_failed")));;
  mret (results ++ [result_]).

Definition compensate (plan : pyval) : CS (list (CapabilityResult Evidence)) :=
  steps ← lift (_validated_completed_steps plan);
  user ← gets (λ s, host_user (x_world s));
  ready ← lift (map_err CompensationOther (plan_is_compensatable user rg metadata plan));
  lift (raise_when (negb ready) (CapabilityCompensationError (u "capability_compensation_unavailable")));;
  foldST compensate_step [] (reverse steps).
End compensation.

(** ** Which plans can be compensated *)

Section facts.
Context (metadata : pydict) (definitions : list CapabilityDefinition)
  (statuses : list CapabilityProviderStatus) (providers : list (pystr * pystr)) (rg : CapabilityRegistry).
Hypothesis built : new_registry definitions statuses providers = Ok rg.
Let reg := by_name (rg_definitions rg).

(** A step of a reversible capability, at its registered version, with a compensator that is
    usable by the user and out of reach of the model. *)
Definition compensatable (user : CapabilityUser) (v : pyval) : Prop := ∃ step name original compensation,
  v = VDict step ∧ get (u "capability") step = VStr name ∧ name ≠ [] ∧
  reg !! name = Some original ∧ get (u "version") step = VStr (d_version original) ∧
  d_effect original = InternalReversible ∧
  reg !! (name ++ u ".revert") = Some compensation ∧ @usable user metadata reg compensation ∧
  d_exposure compensation = ExposeHost ∧ d_effect compensation = InternalReversible.

Lemma resolve_value_Ok name d : resolve_value reg name = Ok d ↔ ∃ s, name = VStr s ∧ reg !! s = Some d.
Proof.
  unfold resolve_value, resolve. destruct name as [| | | |s| |]; simpl; try (split; [done|naive_solver]).
  rewrite of_option_Ok. naive_solver.
Qed.

Lemma compensatable_step_true user k v :
  (∀ name d, reg !! name = Some d → (mem name (d_name <$> k) = true ↔ @usable user metadata reg d)) →
  compensatable_step reg (d_name <$> k) v = Ok true ↔ compensatable user v.
Proof.
  intros Hk. split.
  - destruct v as [| | | | | |step]; try done. unfold compensatable_step. rewrite bind_Ok. intros (o & Ho & H).
    assert (∀ b, Ok b = (Ok true : result plan_exn bool) → b = true) as Hb by congruence. apply Hb in H. clear Hb.
    destruct o as [[[original cname] compensation]|]; [|done].
    rewrite !andb_true_iff, !bool_decide_eq_true, py_eq_str_l in H. destruct H as ((((Hv & He) & Hm) & Hx) & Hce).
    unfold with_compensator in Ho. destruct (resolve_value _ _) as [d|[]] eqn:Hr; try done.
    apply resolve_value_Ok in Hr as (name & Hn & Hreg). rewrite Hn in Ho. destruct name as [|c name]; [done|].
    cbn [compensation_capability_name] in Ho.
    destruct (resolve reg ((c :: name) ++ u ".revert")) as [comp|[]] eqn:Hc; try done.
    apply of_option_Ok in Hc. injection Ho as -> <- ->.
    exists step, (c :: name), original, compensation. apply (Hk _ _ Hc) in Hm.
    split_and!; [reflexivity|exact Hn|discriminate|exact Hreg|exact Hv|exact He|exact Hc|exact Hm|exact Hx|exact Hce].
  - intros (step & name & original & compensation & -> & Hn & Hne & Hreg & Hv & He & Hc & Hu & Hx & Hce). unfold compensatable_step.
    unfold with_compensator. rewrite Hn, (proj2 (resolve_value_Ok (VStr name) original)) by eauto.
    destruct name as [|c name]; [done|]. cbn [compensation_capability_name]. unfold resolve. rewrite Hc.
    cbn [of_option mbind result_bind]. apply (Hk _ _ Hc) in Hu. rewrite Hu, Hv, He, Hx, Hce, !bool_decide_true by done.
    by rewrite (proj2 (py_eq_str _ _)).
Qed.

Lemma all_of_true {E A} (f : A → result E bool) l : all_of f l = Ok true ↔ Forall (λ x, f x = Ok true) l.
Proof.
  induction l as [|x l IH]; simpl; [split; [constructor|done]|]. rewrite Forall_cons, <- IH.
  destruct (f x) as [[]|e]; simpl; naive_solver.
Qed.

Lemma plan_compensatable user v : plan_is_compensatable user rg metadata v = Ok true ↔
  ∃ p steps, v = VDict p ∧ get (u "state") p = VStr (u "completed") ∧ get (u "steps") p = VList steps ∧
    steps ≠ [] ∧ Forall (compensatable user) steps.
Proof.
  destruct (@available_named user metadata _ _ _ _ built) as (k & Ek & Hk). unfold plan_is_compensatable. split.
  - destruct v as [| | | | | |p]; try done. destruct (get (u "steps") p) as [| | | | |[|x steps]|] eqn:Hs; try done.
    destruct (negb _) eqn:Hc; [done|]. apply negb_false_iff, py_eq_str in Hc. rewrite Ek. cbn [mbind result_bind].
    intros H%all_of_true. exists p, (x :: steps). split_and!; [done..|]. eapply Forall_impl; [exact H|].
    intros y Hy. by apply (compensatable_step_true user k y Hk).
  - intros (p & steps & -> & Hc & Hs & Hne & H). rewrite Hs. destruct steps as [|x steps]; [done|].
    rewrite (proj2 (py_eq_str _ _) Hc), Ek. cbn [negb mbind result_bind]. apply all_of_true.
    eapply Forall_impl; [exact H|]. intros y Hy. by apply (compensatable_step_true user k y Hk).
Qed.

(** ** The steps of a completed plan *)

Lemma completed_steps_of acc l steps : foldR completed_step acc l = Ok steps →
  ∃ new, steps = acc ++ new ∧ l = VDict <$> new ∧ Forall (λ d, get (u "state") d = VStr (u "completed")) new.
Proof.
  revert acc. induction l as [|v l IH]; intros acc; simpl; [intros [= <-]; exists []; by rewrite app_nil_r|].
  intros (acc' & Hv & H)%bind_Ok. apply IH in H as (new & -> & -> & Hn). unfold completed_step in Hv.
  destruct v as [| | | | | |d]; try done. destruct (_ && _) eqn:Hc in Hv; [|done]. injection Hv as <-.
  apply andb_true_iff in Hc as [_ Hc%py_eq_str]. exists (d :: new). rewrite <- app_assoc. split_and!; [done..|by constructor].
Qed.
Lemma validated_steps v steps : _validated_completed_steps v = Ok steps →
  ∃ p, v = VDict p ∧ get (u "state") p = VStr (u "completed") ∧ get (u "steps") p = VList (VDict <$> steps) ∧
    steps ≠ [] ∧ Forall (λ d, get (u "state") d = VStr (u "completed")) steps.
Proof.
  destruct v as [| | | | | |p]; try done. unfold _validated_completed_steps.
  intros ([] & Hs%raise_when_Ok%negb_false_iff%py_eq_str & H)%bind_Ok. destruct (get (u "steps") p) as [| | | | |l|] eqn:El; try done.
  apply bind_Ok in H as ([] & Hl%raise_when_Ok%negb_false_iff & H). apply completed_steps_of in H as (new & -> & -> & Hn).
  exists p. rewrite app_nil_l. split_and!; [done..| |done]. intros ->. done.
Qed.
End facts.

(** ** What a compensation calls *)

Section run.
Context {D X Evidence : Type} `{!CapabilityHost D X Evidence}.
Context (metadata : pydict) (definitions : list CapabilityDefinition)
  (statuses : list CapabilityProviderStatus) (providers : list (pystr * pystr)) (rg : CapabilityRegistry).
Hypothesis built : new_registry definitions statuses providers = Ok rg.
Implicit Types (s : executor D X).

(** The one call that reverts a step *)
Definition compensation_call (step : pydict) : handler_call :=
  MkCall ExecuteStage (default [] (as_str (get (u "capability") step)) ++ u ".revert")
    (compensation_payload step) (Some (AuthorityHost, true)).
Definition result_verified (x : CapabilityResult Evidence) : Prop := get (u "verified") (cr_data x) = VBool true.

Lemma compensate_step_run results step s :
  let '(r, s') := compensate_step rg metadata results step s in
  added (compensation_call step) r s s' ∧ ∀ new, r = Ok new → ∃ x, new = results ++ [x] ∧ result_verified x.
Proof.
  unfold compensate_step. rewrite ST_bind_lift. destruct (map_err _ _) as [original|e]; [|split; [by left|done]].
  rewrite ST_bind_lift. destruct (raise_when _ _) as [[]|e]; [|split; [by left|done]].
  rewrite ST_bind_lift. destruct (compensation_capability_name _) as [name|e] eqn:Hn; [|split; [by left|done]].
  assert (name = default [] (as_str (get (u "capability") step)) ++ u ".revert") as ->.
  { unfold compensation_capability_name in Hn. destruct (get (u "capability") step) as [| | | |[|]| |]; try done.
    by injection Hn as <-. }
  rewrite ST_bind_at. unfold of_executor.
  pose proof (execute_makes rg metadata _ _ _ built (default [] (as_str (get (u "capability") step)) ++ u ".revert")
    (compensation_payload step) AuthorityHost true None s) as Hm.
  destruct (execute _ _ _ _ _ _ _ s) as [[x|e] s1]; simpl in Hm |- *; [|split; [exact Hm|done]].
  rewrite ST_bind_lift. unfold result_verified. destruct (get (u "verified") (cr_data x)) as [|[]| | | | |] eqn:Hv; simpl;
    (split; [by first [exact Hm|right; exact Hm]|]); intros new Hnew; try done. injection Hnew as <-. by exists x.
Qed.

Lemma compensate_loop steps results s :
  let '(r, s') := foldST (compensate_step rg metadata) results steps s in
  ∃ done_, done_ `prefix_of` steps ∧ x_trace s' = x_trace s ++ (compensation_call <$> done_) ∧
    ∀ new, r = Ok new → done_ = steps ∧ ∃ xs, new = results ++ xs ∧ length xs = length steps ∧ Forall result_verified xs.
Proof.
  revert results s. induction steps as [|step steps IH]; intros results s; cbn [foldST].
  - exists []. rewrite app_nil_r. split_and!; [by exists []|done|]. intros new [= <-]. split; [done|]. exists []. by rewrite app_nil_r.
  - rewrite ST_bind_at. pose proof (compensate_step_run results step s) as Hs.
    destruct (compensate_step _ _ _ _ s) as [[results'|e] s1]; destruct Hs as [Ha Hr].
    + destruct (Hr _ eq_refl) as (x & -> & Hx). specialize (IH (results ++ [x]) s1).
      destruct (foldST _ _ _ s1) as [r s2]. destruct IH as (done_ & [k ->] & Ht & Hok). simpl in Ha.
      exists (step :: done_). split_and!; [by exists k|rewrite Ht, Ha; by rewrite <- app_assoc|]. intros new Hn.
      destruct (Hok new Hn) as (E & xs & -> & Hl & Hf). split; [by f_equal|].
      exists (x :: xs). rewrite <- app_assoc. split_and!; [done|simpl; congruence|by constructor].
    + destruct Ha as [Ha|Ha].
      * exists []. rewrite app_nil_r. split_and!; [by exists (step :: steps)|done|done].
      * exists [step]. split_and!; [by exists steps|done|done].
Qed.

Lemma compensate_run plan s r s' :
  compensate rg metadata plan s = (r, s') →
  x_trace s' = x_trace s ∧ (∃ e, r = Err e) ∨
  ∃ p steps calls, plan = VDict p ∧ get (u "state") p = VStr (u "completed") ∧
    get (u "steps") p = VList (VDict <$> steps) ∧
    Forall (λ step, get (u "state") step = VStr (u "completed") ∧
      compensatable metadata rg (host_user (x_world s)) (VDict step)) steps ∧
    x_trace s' = x_trace s ++ (compensation_call <$> calls) ∧ calls `prefix_of` reverse steps ∧
    ∀ results, r = Ok results →
      calls = reverse steps ∧ length results = length steps ∧ Forall result_verified results.
Proof.
  unfold compensate. rewrite ST_bind_lift. destruct (_validated_completed_steps plan) as [steps|e] eqn:Hv;
    [|intros [= <- <-]; left; eauto].
  apply validated_steps in Hv as (p & -> & Hc & Hs & _ & Hst). unfold gets. rewrite ST_bind_at, ST_bind_lift.
  destruct (plan_is_compensatable _ _ _ _) as [ready|e] eqn:Hp; cbn [map_err]; [|intros [= <- <-]; left; eauto].
  rewrite ST_bind_lift. destruct ready; [|intros [= <- <-]; left; eauto]. cbn [negb raise_when]. intros H.
  pose proof (compensate_loop (reverse steps) [] s) as Hl. rewrite H in Hl. destruct Hl as (calls & Hpre & Ht & Hok).
  right. exists p, steps, calls. split_and!; [done..| |done|done|].
  - apply (plan_compensatable metadata _ _ _ _ built) in Hp as (p' & l & [= <-] & _ & Hs' & _ & Hf).
    rewrite Hs in Hs'. injection Hs' as <-. rewrite Forall_fmap in Hf. apply Forall_and. by split.
  - intros results Hr. destruct (Hok _ Hr) as (-> & xs & -> & Hlen & Hf). split_and!; [done| |done].
    simpl. by rewrite Hlen, length_reverse.
Qed.

(** C21: A compensation calls nothing, or, for a completed plan whose steps all have a host-only
    compensator usable by the user, the compensators of a final segment of the steps in reverse
    order, each once with the stored data of its step; when it returns it called all of them and
    each result is verified. *)
Theorem compensators_run_in_reverse plan s r s' :
  compensate rg metadata plan s = (r, s') →
  x_trace s' = x_trace s ∧ (∃ e, r = Err e) ∨
  ∃ p steps calls, plan = VDict p ∧ get (u "state") p = VStr (u "completed") ∧
    get (u "steps") p = VList (VDict <$> steps) ∧
    Forall (λ step, get (u "state") step = VStr (u "completed") ∧
      compensatable metadata rg (host_user (x_world s)) (VDict step)) steps ∧
    x_trace s' = x_trace s ++ (compensation_call <$> calls) ∧ calls `prefix_of` reverse steps ∧
    ∀ results, r = Ok results →
      calls = reverse steps ∧ length results = length steps ∧ Forall result_verified results.
Proof. apply compensate_run. Qed.
End run.

(** ** The plans that the plan service completes *)

Section plans.
Implicit Types (p : plan).

Definition step_reversible (s : step) : Prop :=
  s_state s = StepCompleted ∧ is_Some (as_dict (s_result s)) ∧ is_Some (as_dict (s_verification s)).

Lemma completed_step_payload acc (s : step) pre :
  step_ok pre s → length acc = length pre →
  completed_step acc (step_payload s) =
    if bool_decide (s_state s = StepCompleted) && is_dict (s_result s) && is_dict (s_verification s)
    then Ok (acc ++ [default [] (as_dict (step_payload s))]) else Err compensation_plan_invalid.
Proof.
  intros Hs Hl. unfold completed_step, step_payload. cbn [as_dict default].
  set (d := [(u "position", _); _; _; _; _; _; _; _; _; _; _; _; _; _; _; _; _; _; _; _; _] : pydict).
  change (get (u "position") d) with (s_position s). change (get (u "capability") d) with (VStr (s_capability s)).
  change (get (u "version") d) with (VStr (s_version s)). change (get (u "arguments") d) with (VDict (s_arguments s)).
  change (get (u "preview") d) with (VDict (s_preview s)). change (get (u "result") d) with (s_result s).
  change (get (u "verification") d) with (s_verification s). change (get (u "state") d) with (name_of step_states (s_state s)).
  rewrite Hl, (so_position _ _ Hs). change (is_string (VStr (s_capability s))) with true. change (is_string (VStr (s_version s))) with true.
  change (is_dict (VDict (s_arguments s))) with true. change (is_dict (VDict (s_preview s))) with true.
  assert (py_eq (name_of step_states (s_state s)) (VStr (u "completed")) = bool_decide (s_state s = StepCompleted)) as ->
    by (destruct (s_state s); vm_compute; reflexivity).
  cbn [andb]. by rewrite (andb_comm (is_dict (s_result s) && _)), andb_assoc.
Qed.

(** The steps of a completed plan are accepted exactly when all of them are completed. *)
Lemma validated_payload p :
  plan_ok p → p_state p = PlanCompleted →
  _validated_completed_steps (plan_payload p) =
    if forallb (λ s, bool_decide (s_state s = StepCompleted) && is_dict (s_result s) && is_dict (s_verification s)) (p_steps p)
    then Ok ((λ s, default [] (as_dict (step_payload s))) <$> p_steps p) else Err compensation_plan_invalid.
Proof.
  intros [Hn Hg _ _] Hst. unfold _validated_completed_steps, plan_payload.
  set (d := [(u "format_version", _); _; _; _; _] : pydict). change (get (u "steps") d) with (VList (step_payload <$> p_steps p)).
  change (get (u "state") d) with (name_of plan_states (p_state p)). rewrite Hst.
  assert (∀ l acc, grows step_ok (acc ++ l) →
    foldR completed_step ((λ s, default [] (as_dict (step_payload s))) <$> acc) (step_payload <$> l) =
    if forallb (λ s, bool_decide (s_state s = StepCompleted) && is_dict (s_result s) && is_dict (s_verification s)) l
    then Ok ((λ s, default [] (as_dict (step_payload s))) <$> acc ++ l) else Err compensation_plan_invalid) as Hf.
  { induction l as [|s l IH]; intros acc Hgl; [by rewrite app_nil_r|]. cbn [fmap list_fmap foldR forallb].
    rewrite (completed_step_payload _ s acc); [|by eapply grows_middle|by rewrite length_fmap].
    destruct (_ && _ && _); [|done]. cbn [mbind result_bind andb]. specialize (IH (acc ++ [s])).
    rewrite <- app_assoc in IH. rewrite fmap_app in IH. by apply IH. }
  rewrite length_fmap. rewrite (proj2 (andb_true_iff _ _)) by (split; apply Nat.leb_le; lia).
  exact (Hf (p_steps p) [] Hg).
Qed.

(** A plan that completed with a skipped step *)
Lemma skipped_step_refused {D X Evidence : Type} `{!CapabilityHost D X Evidence} rg metadata p (s : executor D X) :
  plan_ok p → p_state p = PlanCompleted → Exists (λ x, s_state x = Skipped) (p_steps p) →
  compensate rg metadata (plan_payload p) s = (Err compensation_plan_invalid, s).
Proof.
  intros Hp Hst He. unfold compensate. rewrite validated_payload by done.
  destruct (forallb _ (p_steps p)) eqn:Hf; [|done]. exfalso.
  apply Exists_exists in He as (x & Hx & Hs). rewrite forallb_true in Hf. apply Hf in Hx.
  by rewrite Hs in Hx.
Qed.
End plans.

(** C34: The compensation of a completed plan with a skipped step is always refused before any
    call, although whether the plan is shown as revertible depends only on the capabilities of
    its steps, not on their states. *)
Theorem skipped_plan_cannot_revert {D X Evidence : Type} `{!CapabilityHost D X Evidence} metadata definitions
    statuses providers rg (p : plan) (s : executor D X) :
  new_registry definitions statuses providers = Ok rg →
  plan_ok p → p_state p = PlanCompleted → Exists (λ x, s_state x = Skipped) (p_steps p) →
  compensate rg metadata (plan_payload p) s = (Err compensation_plan_invalid, s) ∧
  (plan_is_compensatable (host_user (x_world s)) rg metadata (plan_payload p) = Ok true ↔
   Forall (compensatable metadata rg (host_user (x_world s))) (step_payload <$> p_steps p)).
Proof.
  intros Hb Hp Hst He. split; [by apply skipped_step_refused|].
  rewrite (plan_compensatable metadata _ _ _ _ Hb). split.
  - intros (p' & steps & [= <-] & _ & Hs & _ & Hf). by injection Hs as <-.
  - intros Hf. eexists _, (step_payload <$> p_steps p). split_and!; [reflexivity| |reflexivity| |done].
    + change (name_of plan_states (p_state p) = VStr (u "completed")). by rewrite Hst.
    + destruct Hp as [Hl _ _ _]. by destruct (p_steps p); simpl in *; [lia|].
Qed.

(** ** A catalog with a compensator *)

Definition noting (name : pystr) (risk : CapabilityRisk) (exposure : CapabilityExposure) (approval : CapabilityApproval) (max_calls : Z)
    (handlers : bool) : CapabilityDefinition :=
  MkDefinition name (u "A note.") [(u "type", VStr (u "object"))] [(u "type", VStr (u "object"))] risk
    InternalReversible (u "Note") (u "2") exposure approval [] [] [] [] true None max_calls 16384 98304 [] [] None
    handlers handlers false.
Definition noted : CapabilityDefinition := noting (u "demo.note") RiskWrite ExposePlan ApprovalAlways 2 true.
Definition unnoted : CapabilityDefinition := noting (u "demo.note.revert") RiskHost ExposeHost ApprovalNone 12 false.
Definition note_registry : CapabilityRegistry :=
  MkRegistry [noted; unnoted] [] [].
Lemma note_registry_built : new_registry [unnoted; noted] [] [] = Ok note_registry.
Proof. vm_compute. reflexivity. Qed.
Example noting_constructed : forallb (λ d, is_ok (new_definition d)) [noted; unnoted] = true.
Proof. vm_compute. reflexivity. Qed.

(** The database counts the notes; a compensator removes one, and says "not verified" when there is
    none. *)
Definition note_host : CapabilityHost nat nat unit := {|
  host_user _ := {| user_has_group := None; guard_result _ := None |};
  host_parameter _ _ := None;
  has_cursor := true;
  flush w := (Returned tt, w);
  call_handler _ name _ _ w :=
    (Returned (RawMapping [(u "operation", VStr (u "note_revert")); (u "verified", VBool (0 <? w_db w)%nat)]),
     MkWorld (pred (w_db w)) (w_rest w));
  call_projector _ _ _ w := (Returned VNone, w);
  event_sink := None;
  model_label _ w := (Returned [], w);
  existing_ids _ ids w := (Returned ids, w);
  display_names _ _ w := (Returned [], w);
  token_hex w := (replicate 32 97%N, w);
  elapsed_ms _ := FDec false 0 0 |}.

Definition note_step (i : nat) (state : step_state) (body : pyval) : step :=
  MkStep (VInt (Z.of_nat i)) (step_name i) [] (u "demo.note") (u "2") [(u "text", VStr (u "hi"))] (u "Note")
    (VStr (u "write")) (VStr (u "internal_reversible")) (u "always") true VNone VNone [] state body body
    (MkGroups (u "semantic:v1:" ++ replicate 32 97%N) (u "semantic:v1:" ++ replicate 32 98%N)
       (u "semantic:v1:" ++ replicate 32 99%N)) (u "unit-1") OdooAtomic (u "reversible").
Definition noted_plan (second : step_state) : plan :=
  MkPlan PlanCompleted true [MkUnit (u "unit-1") OdooAtomic [step_name 0; step_name 1] UnitCompleted]
    [note_step 0 StepCompleted (VDict []); note_step 1 second (VDict [])].
Definition notes (n : nat) : executor nat nat := MkExecutor (MkWorld n 0%nat) ∅ [].
Definition revert_notes (n : nat) (p : plan) :=
  @compensate nat nat unit note_host note_registry [] (plan_payload p) (notes n).

(** Both notes are removed; with one note only, the second compensator is not verified. *)
Example notes_reverted :
  let '(r, s) := revert_notes 2 (noted_plan StepCompleted) in
  length <$> r = Ok 2%nat ∧ w_db (x_world s) = 0%nat ∧ hk_name <$> x_trace s = [u "demo.note.revert"; u "demo.note.revert"].
Proof. vm_compute. done. Qed.
Example notes_not_verified :
  (revert_notes 1 (noted_plan StepCompleted)).1
    = Err (CapabilityCompensationError (u "capability_compensation_verification_failed")).
Proof. vm_compute. reflexivity. Qed.
(** The plan with a skipped step is shown as revertible. *)
Example skipped_shown :
  @plan_is_compensatable (@host_user _ _ _ note_host (MkWorld 2 0)%nat) note_registry [] (plan_payload (noted_plan Skipped)) = Ok true.
Proof. vm_compute. reflexivity. Qed.

(** ** The theorems on the notes *)

Lemma noted_plan_ok second : plan_ok (noted_plan second).
Proof.
  assert (_validated_plan (plan_payload (noted_plan second)) = Ok (noted_plan second)) as H
    by (destruct second; vm_compute; reflexivity).
  by apply validated_plan_wf in H.
Qed.

Lemma compensators_run_in_reverse_witness :
  let plan := plan_payload (noted_plan StepCompleted) in
  let '(r, s') := revert_notes 2 (noted_plan StepCompleted) in
  ∃ p steps calls, plan = VDict p ∧ get (u "state") p = VStr (u "completed") ∧
    get (u "steps") p = VList (VDict <$> steps) ∧
    Forall (λ step, get (u "state") step = VStr (u "completed") ∧
      compensatable [] note_registry (@host_user _ _ _ note_host (MkWorld 2 0)%nat) (VDict step)) steps ∧
    x_trace s' = [] ++ (compensation_call <$> calls) ∧ calls `prefix_of` reverse steps ∧
    ∀ results, r = Ok results →
      calls = reverse steps ∧ length results = length steps ∧ Forall result_verified results.
Proof.
  cbv zeta. destruct (revert_notes 2 (noted_plan StepCompleted)) as [r s'] eqn:E.
  destruct (@compensators_run_in_reverse nat nat unit note_host [] _ _ _ note_registry note_registry_built
    (plan_payload (noted_plan StepCompleted)) (notes 2) r s' E) as [[_ [e ->]]|H]; [|exact H].
  exfalso. apply (f_equal (is_ok ∘ fst)) in E. vm_compute in E. discriminate.
Defined.

Lemma skipped_plan_cannot_revert_witness :
  revert_notes 2 (noted_plan Skipped) = (Err compensation_plan_invalid, notes 2) ∧
  Forall (compensatable [] note_registry (@host_user _ _ _ note_host (MkWorld 2 0)%nat))
    (step_payload <$> p_steps (noted_plan Skipped)).
Proof.
  destruct (@skipped_plan_cannot_revert nat nat unit note_host [] [unnoted; noted] [] [] note_registry (noted_plan Skipped) (notes 2)
    note_registry_built (noted_plan_ok Skipped) eq_refl ltac:(apply Exists_exists; exists (note_step 1 Skipped (VDict [])); split;
      [right; left|reflexivity])) as [H1 H2].
  split; [exact H1|]. apply H2. exact skipped_shown.
Defined.
