(* ===== verification/Reversion.v ===== *)
(** * Turns: the reversion of a completed turn

    [revert_for_current_user] of [models/turn_control.py] with its overlay in
    [models/effect_journal_reversion.py] and the request of [controllers/turn_control.py]: the
    compensation service ([Compensation]) around the stored turn; and the state of reversion that
    [_plan_response] of [models/turn_control.py] and [models/turn_control_projection.py] stores
    and shows.  The theorems say what a reversion changes when it succeeds and when it fails. *)
From S2P Require Import Prelude PyText Regex PyValue Json Failure TurnStore TurnQueue TurnSpec ChatPolicy.
From S2P Require Import EffectPlan EffectPlanFacts Capability CapabilityValidation Dependencies CapabilityRegistry.
From S2P Require Import CapabilityRegistryFacts CapabilityConfig CapabilityPublic CapabilityExecutor.
From S2P Require Import CapabilityExecutorFacts Compensation TurnExamples.
Local Open Scope Z_scope.

(** ** The stored reversion *)

(** The columns [reversion_state], [reversion_payload] and [reverted_at] of a turn *)
Record reversion_row := MkReversionRow {
  rv_state : pystr;
  rv_payload : pyval;
  rv_reverted_at : option Z }.
Definition no_reversion : reversion_row := MkReversionRow (u "none") VNone None.

(** The rows of the turns, the database of the handlers with the rest of the world, and the calls
    of handlers so far *)
Record reversion_db (D X : Type) := MkReversion {
  rd_db : db;
  rd_rows : gmap Z reversion_row;
  rd_world : world D X;
  rd_calls : list handler_call }.
Arguments MkReversion {D X}.
Arguments rd_db {D X}.
Arguments rd_rows {D X}.
Arguments rd_world {D X}.
Arguments rd_calls {D X}.

(** ** Responses *)

Definition _REVERSION_STATES : list pystr := [u "none"; u "available"; u "unavailable"; u "completed"].

(** [dict(plan.get("metadata") or {})] *)
Definition _plan_with_reversion_state (plan : pyval) (state_ : pystr) : result turn_exn pyval :=
  match plan with
  | VDict p =>
      let normalized := if mem state_ _REVERSION_STATES then state_ else u "none" in
      metadata ← (if truthy (get (u "metadata") p) then of_option (as_dict (get (u "metadata") p)) PyError else Ok []);
      let metadata := dict_set (u "revertible") (VBool (str_eqb normalized (u "available"))) metadata in
      let metadata := dict_set (u "reversion_state") (VStr normalized) metadata in
      Ok (VDict (dict_set (u "metadata") (VDict metadata) p))
  | _ => Ok plan
  end.

Definition _response_with_reversion_state (response : pyval) (state_ : pystr) : result turn_exn pydict :=
  match response with
  | VDict r =>
      match get (u "plan") r with
      | VDict p =>
          plan ← _plan_with_reversion_state (VDict p) state_;
          Ok (dict_set (u "plan") plan r)
      | _ => Err (CodedError (u "turn_reversion_response_invalid"))
      end
  | _ => Err (CodedError (u "turn_reversion_response_invalid"))
  end.

Section reversion.
Context `{TurnHost} {D X Evidence : Type} `{!CapabilityHost D X Evidence} (rg : CapabilityRegistry).
Abbreviation RS := (ST (reversion_db D X) turn_exn).

Definition on_rows {A} (m : TS A) : RS A := λ s,
  let '(r, d) := m (rd_db s) in (r, MkReversion d (rd_rows s) (rd_world s) (rd_calls s)).
Definition row_of (id : Z) (s : reversion_db D X) : reversion_row := default no_reversion (rd_rows s !! id).
Definition set_row (id : Z) (r : reversion_row) (s : reversion_db D X) : reversion_db D X :=
  MkReversion (rd_db s) (<[id := r]> (rd_rows s)) (rd_world s) (rd_calls s).
Definition set_reversion_state (id : Z) (state_ : pystr) : RS unit :=
  modify (λ s, set_row id (MkReversionRow state_ (rv_payload (row_of id s)) (rv_reverted_at (row_of id s))) s).

(** ** The state that a response shows *)

Definition capability_failed {A} (r : result plan_exn A) : result turn_exn A :=
  map_err (λ e, match e with CapabilityError code _ => CodedError code | _ => PyError end) r.

(** The metadata of the context: the enabled capabilities and the policy *)
Definition reversion_metadata (policy : pyval) (w : world D X) : result turn_exn pydict :=
  enablement ← capability_failed (availability_overrides (Some (host_parameter w)) (rg_definitions rg));
  Ok [(u "capability_enabled", VDict ((λ p, (p.1, VBool p.2)) <$> enablement)); (u "capability_policy", policy)].

Definition _plan_reversion_state (plan policy : pyval) : RS pystr :=
  w ← gets rd_world;
  metadata ← lift (reversion_metadata policy w);
  b ← lift (capability_failed (plan_is_compensatable (host_user w) rg metadata plan));
  mret (if b : bool then u "available" else u "unavailable").

(** [isinstance(plan, dict) and plan.get("state") == "completed"] of [envelope["plan"]] *)
Definition completed_plan (envelope : pyval) : option pyval :=
  match envelope with
  | VDict e =>
      match get (u "plan") e with
      | VDict p => if py_eq (get (u "state") p) (VStr (u "completed")) then Some (VDict p) else None
      | _ => None
      end
  | _ => None
  end.
Definition or_none (state_ : pystr) : pystr := match state_ with [] => u "none" | _ => state_ end.

(** [_plan_response] of [turn_control.py] around the response of the modules before it *)
Definition _plan_response (id : Z) (envelope policy : pyval) (completed : bool) (super : RS pydict) : RS pydict :=
  state_ ← gets (λ s, or_none (rv_state (row_of id s)));
  state_ ← match (if completed then completed_plan envelope else None) with
           | Some plan => x ← _plan_reversion_state plan policy; set_reversion_state id x;; mret x
           | None => mret state_
           end;
  response ← super;
  plan ← lift (_plan_with_reversion_state (get (u "plan") response) state_);
  mret (dict_set (u "plan") plan response).

(** [_plan_response] of [turn_control_projection.py], around the former *)
Definition projected_plan_response (id : Z) (envelope policy : pyval) (completed : bool) (super : RS pydict) : RS pydict :=
  response ← _plan_response id envelope policy completed super;
  state_ ← gets (λ s, or_none (rv_state (row_of id s)));
  state_ ← match completed_plan envelope with
           | Some plan =>
               if str_eqb state_ (u "none") then x ← _plan_reversion_state plan policy; set_reversion_state id x;; mret x
               else mret state_
           | None => mret state_
           end;
  match get (u "plan") response with
  | VDict p =>
      plan ← lift (_plan_with_reversion_state (VDict p) state_);
      mret (dict_set (u "plan") plan response)
  | _ => mret response
  end.

(** ** The reversion *)

(** [self.env.cr.savepoint()] flushes before and after; what a flush raises leaves it. *)
Definition flush_error (o : outcome unit) : turn_exn :=
  match o with
  | RaisedOther cls =>
      if str_eqb cls (u "ValidationError") then ValidationError
      else if str_eqb cls (u "AccessError") then AccessError else PyError
  | _ => PyError
  end.

Definition at_world (w : world D X) (calls : list handler_call) (s : reversion_db D X) : reversion_db D X :=
  MkReversion (rd_db s) (rd_rows s) w (rd_calls s ++ calls).

(** [with savepoint: compensate(plan)], and its [CapabilityCompensationError] *)
Definition compensate_in_savepoint (metadata : pydict) (plan : pyval)
    : RS (result pystr (list (CapabilityResult Evidence))) := λ s,
  match flush (rd_world s) with
  | (Returned _, w1) =>
      let '(r, x) := compensate rg metadata plan (MkExecutor w1 ∅ []) in
      let undone := at_world (rolled_back w1 (x_world x)) (x_trace x) s in
      match r with
      | Ok results =>
          match flush (x_world x) with
          | (Returned _, w2) => (Ok (Ok results), at_world w2 (x_trace x) s)
          | (o, w2) => (Err (flush_error o), at_world (rolled_back w1 w2) (x_trace x) s)
          end
      | Err (CapabilityCompensationError code) => (Ok (Err code), undone)
      | Err (CompensationOther _) => (Err PyError, undone)
      end
  | (o, w1) => (Err (flush_error o), at_world w1 [] s)
  end.

Definition reverted_content : pystr := u "He revertido y verificado los cambios de esta operación.".
Definition reversion_summary (results : list (CapabilityResult Evidence)) : pyval :=
  VDict [(u "verified", VBool true); (u "step_count", VInt (Z.of_nat (length results)));
         (u "operations", VList ((λ r, get (u "operation") (cr_data r)) <$> results))].

(** What a turn must be to be reverted: its stored plan *)
Definition revertible_plan (t : turn) (row : reversion_row) : result turn_exn pyval :=
  raise_when (negb (bool_decide (t_state t = TCompleted ∨ t_state t = TCancelled)))
    (CodedError (u "turn_reversion_not_ready"));;
  raise_when (negb (t_write_barrier t) || negb (str_eqb (rv_state row) (u "available")))
    (CodedError (u "turn_reversion_unavailable"));;
  of_option (completed_plan (t_plan t)) (CodedError (u "turn_reversion_unavailable")).

(** After the savepoint: the rows and the message; the column of the message's conversation is
    not null. *)
Definition record_reversion (id : Z) (t : turn) (results : list (CapabilityResult Evidence)) : RS (pydict * Z) :=
  response ← lift (_response_with_reversion_state (t_result t) (u "completed"));
  n ← on_rows now;
  on_rows (write id [FResult (VDict response)]);;
  modify (set_row id (MkReversionRow (u "completed") (reversion_summary results) (Some n)));;
  lift (raise_when (bool_decide (t_conversation t = None)) IntegrityError);;
  m ← on_rows (create_message (MkMessage (t_conversation t) (u "assistant") reverted_content (u "AGENT_REVERSION")));
  on_rows (touch_conversation (t_conversation t));;
  on_rows (append_event id (u "reversion.completed") None);;
  mret (response, m).

(** [revert_for_current_user] of [turn_control.py]: the response and the message *)
Definition revert_plan (c : caller) (turn_uuid : pyval) : RS (pydict * Z) :=
  id ← on_rows (_owned_turn c turn_uuid);
  o ← on_rows (get_turn id);
  t ← lift (of_option o MissingError);
  row ← gets (row_of id);
  plan ← lift (revertible_plan t row);
  policy ← lift (resolve_capability_policy (if truthy (t_policy t) then t_policy t else VDict []));
  w ← gets rd_world;
  metadata ← lift (reversion_metadata (VDict policy) w);
  o ← compensate_in_savepoint metadata plan;
  match o with
  | Ok results => record_reversion id t results
  | Err code => on_rows (append_event id (u "reversion.failed") (Some code));; raise (CodedError code)
  end.

(** The overlay of [effect_journal_reversion.py] *)
Definition revert_for_current_user (c : caller) (turn_uuid : pyval) : RS (pydict * Z) :=
  result_ ← revert_plan c turn_uuid;
  id ← on_rows (_owned_turn c turn_uuid);
  on_rows (_mark_reverted id);;
  mret result_.

(** [/odoo_ai/v1/turn/revert]: the codes that the request answers with; the transaction of a
    request that answers is committed, and rolled back when an exception leaves it. *)
Definition revert_turn (c : caller) (turn_uuid : pyval) : RS (result pystr (pydict * Z)) := λ s,
  match revert_for_current_user c turn_uuid s with
  | (Ok r, s') => (Ok (Ok r), s')
  | (Err AccessError, s') => (Ok (Err (u "turn_not_found")), s')
  | (Err ValidationError, s') => (Ok (Err (u "invalid_context")), s')
  | (Err (CodedError code), s') => (Ok (Err code), s')
  | (Err e, s') => (Err e, MkReversion (rd_db s) (rd_rows s) (rolled_back (rd_world s) (rd_world s')) (rd_calls s'))
  end.
End reversion.

(** ** What a reversion changes *)

Section facts.
Context `{TurnHost} {D X Evidence : Type} `{!CapabilityHost D X Evidence}.
Context (definitions : list CapabilityDefinition) (statuses : list CapabilityProviderStatus)
  (providers : list (pystr * pystr)) (rg : CapabilityRegistry).
Hypothesis built : new_registry definitions statuses providers = Ok rg.
Implicit Types (s : reversion_db D X).

Lemma on_rows_at {A} (m : TS A) s : on_rows m s =
  ((m (rd_db s)).1, MkReversion (m (rd_db s)).2 (rd_rows s) (rd_world s) (rd_calls s)).
Proof. unfold on_rows. by destruct (m (rd_db s)). Qed.

(** *** The owner *)

Lemma owned_turn_run c v (d : db) r d' : _owned_turn c v d = (r, d') → d' = d ∧
  match r with
  | Ok id => ∃ t, d_turns d !! id = Some t ∧ v = VStr (t_uuid t) ∧ t_user t = u_id c
  | Err e => e = ValidationError ∨ e = AccessError
  end.
Proof.
  unfold _owned_turn. rewrite ST_bind_lift. destruct (_canonical_uuid v) as [canonical|e] eqn:Hc.
  - assert (v = VStr canonical) as ->.
    { unfold _canonical_uuid in Hc. destruct v; try done. by destruct (fullmatch _ _); [injection Hc as ->|]. }
    unfold gets. rewrite ST_bind_at. destruct (head _) as [[id t]|] eqn:Hh; intros [= <- <-]; (split; [done|]); [|by right].
    destruct (List.filter _ _) as [|[id' t'] l] eqn:Hf; [done|]. injection Hh as -> ->.
    assert (In (id, t) (List.filter (λ p, str_eqb (t_uuid p.2) canonical && (t_user p.2 =? u_id c)) (rows d))) as Hin
      by (rewrite Hf; by left).
    apply filter_In in Hin as [Hin Hp]. simpl in Hp. apply andb_true_iff in Hp as [Hu%str_eqb_true Hw%Z.eqb_eq].
    exists t. split_and!; [|by rewrite Hu|done]. by apply elem_of_map_to_list, list_elem_of_In.
  - intros [= <- <-]. split; [done|]. unfold _canonical_uuid in Hc. left. destruct v; try congruence.
    destruct (fullmatch _ _); congruence.
Qed.

(** The owner depends on the identities only. *)
Lemma owned_turn_same c v (d d' : db) : ident <$> d_turns d' = ident <$> d_turns d →
  (_owned_turn c v d').1 = (_owned_turn c v d).1.
Proof.
  intros Hi. unfold _owned_turn. rewrite !ST_bind_lift. destruct (_canonical_uuid v) as [canonical|e]; [|done].
  unfold gets. rewrite !ST_bind_at. unfold rows.
  assert (∀ l l' : list (Z * turn), prod_map id ident <$> l' = prod_map id ident <$> l →
    fst <$> head (List.filter (λ p, str_eqb (t_uuid p.2) canonical && (t_user p.2 =? u_id c)) l') =
    fst <$> head (List.filter (λ p, str_eqb (t_uuid p.2) canonical && (t_user p.2 =? u_id c)) l)) as Hf.
  { induction l as [|[i t] l IH]; intros [|[i' t'] l'] [=]; [done|]. simpl.
    assert (t_uuid t' = t_uuid t ∧ t_user t' = t_user t) as [-> ->] by (unfold ident in *; split; congruence).
    destruct (_ && _); simpl; [congruence|]. by apply IH. }
  specialize (Hf (map_to_list (d_turns d)) (map_to_list (d_turns d'))).
  rewrite <- !map_to_list_fmap, Hi in Hf. specialize (Hf eq_refl).
  destruct (head (List.filter _ (map_to_list (d_turns d')))) as [[i t]|], (head (List.filter _ (map_to_list (d_turns d)))) as [[j t']|];
    simpl in *; congruence.
Qed.

(** *** The rows *)

Definition settled (t : turn) : Prop := t_state t = TCompleted ∨ t_state t = TCancelled.
Lemma write_result id t v (d : db) : d_turns d !! id = Some t → settled t →
  write id [FResult v] d =
    if attempts_valid t then (Ok tt, with_turns <[id := set_field t (FResult v)]> d) else (Err IntegrityError, d).
Proof.
  intros Ht Hs. unfold write. rewrite ST_bind_at. unfold get_turn at 1, gets. rewrite Ht, ST_bind_lift. cbn [of_option].
  assert (∀ d, failure_overlay t [FResult v] d = (Ok [FResult v], d)) as Ho.
  { intros d0. unfold failure_overlay. cbn [written_state written_error written_failure omap list_omap head default truthy].
    rewrite !bool_decide_false by done. cbn [orb]. destruct (t_error_code t) as [[|x e]|]; try reflexivity.
    unfold _TERMINAL_FAILURE_STATES. rewrite bool_decide_false; [reflexivity|]. destruct Hs as [->| ->]; by intros [|]. }
  rewrite ST_bind_at, Ho. cbn beta iota. rewrite ST_bind_at. unfold update_turn. rewrite ST_bind_at. unfold get_turn, gets. rewrite Ht, ST_bind_lift. cbn [of_option].
  change (set_fields [FResult v] t) with (set_field t (FResult v)).
  change (attempts_valid (set_field t (FResult v))) with (attempts_valid t).
  rewrite ST_bind_lift. by destruct (attempts_valid t).
Qed.

Definition same_db (d d' : db) : Prop :=
  d_turns d' = d_turns d ∧ d_journal d' = d_journal d ∧ d_messages d' = d_messages d ∧ d_conversations d' = d_conversations d.

(** An exception that leaves the request *)
Definition crash (e : turn_exn) : Prop :=
  match e with AccessError | ValidationError | CodedError _ => False | _ => True end.

Lemma response_errors v st e : _response_with_reversion_state v st = Err e →
  crash e ∨ e = CodedError (u "turn_reversion_response_invalid").
Proof.
  unfold _response_with_reversion_state. destruct v as [| | | | | |r]; try (intros [= <-]; by right).
  destruct (get (u "plan") r) as [| | | | | |p]; try (intros [= <-]; by right). unfold _plan_with_reversion_state.
  rewrite bind_Err. intros [He|(plan & _ & He)]; [|done]. left. destruct (truthy _); simpl in He; [|done].
  destruct (as_dict _); simpl in He; [done|]. by injection He as <-.
Qed.

Definition recorded id t (results : list (CapabilityResult Evidence)) s (r : result turn_exn (pydict * Z)) s' : Prop :=
  match r with
  | Ok (response, m) => ∃ n, _response_with_reversion_state (t_result t) (u "completed") = Ok response ∧
      d_turns (rd_db s') = <[id := set_field t (FResult (VDict response))]> (d_turns (rd_db s)) ∧
      d_journal (rd_db s') = d_journal (rd_db s) ∧
      rd_rows s' = <[id := MkReversionRow (u "completed") (reversion_summary results) (Some n)]> (rd_rows s) ∧
      rd_world s' = rd_world s ∧ rd_calls s' = rd_calls s
  | Err e => rd_world s' = rd_world s ∧ rd_calls s' = rd_calls s ∧
      (crash e ∨ s' = s ∧ e = CodedError (u "turn_reversion_response_invalid") ∧
         _response_with_reversion_state (t_result t) (u "completed") = Err e)
  end.

(** Statements that return and leave the turns and the journal alone *)
Definition aside {A} (m : TS A) : Prop := ∀ d, ∃ a d',
  m d = (Ok a, d') ∧ d_turns d' = d_turns d ∧ d_journal d' = d_journal d.
Lemma aside_now : aside now.
Proof. intros d. by eexists _, _. Qed.
Lemma aside_message m : aside (create_message m).
Proof. intros d. by eexists _, _. Qed.
Lemma aside_touch c : aside (touch_conversation c).
Proof. intros d. destruct c; by eexists _, _. Qed.
Lemma aside_event id e x : aside (append_event id e x).
Proof.
  intros d. unfold append_event. rewrite ST_bind_at.
  change (TurnStore.outside event_stored d) with (@Ok turn_exn _ (event_stored (d_ticks d)), bump_tick d). cbv beta iota.
  destruct (event_stored _); by eexists _, _.
Qed.
Lemma on_aside {A B} (m : TS A) (f : A → ST (reversion_db D X) turn_exn B) s : aside m →
  ∃ a d', (on_rows m ≫= f) s = f a (MkReversion d' (rd_rows s) (rd_world s) (rd_calls s)) ∧
    d_turns d' = d_turns (rd_db s) ∧ d_journal d' = d_journal (rd_db s).
Proof.
  intros Hm. destruct (Hm (rd_db s)) as (a & d' & E & HT & HJ). exists a, d'. by rewrite ST_bind_at, on_rows_at, E.
Qed.

#[local] Ltac aside_step Hrun L :=
  match type of Hrun with
  | (on_rows ?m ≫= ?f) ?x = _ =>
      let E := fresh in destruct (on_aside m f x L) as (? & ? & E & ? & ?); rewrite E in Hrun; clear E; cbn [rd_db rd_rows rd_world rd_calls] in *
  end.

Lemma record_reversion_run id t results s r s' : d_turns (rd_db s) !! id = Some t → settled t →
  record_reversion id t results s = (r, s') → recorded id t results s r s'.
Proof.
  intros Ht Hset Hrun. unfold record_reversion in Hrun. rewrite ST_bind_lift in Hrun.
  destruct (_response_with_reversion_state _ _) as [response|e] eqn:Hr.
  2: { injection Hrun as <- <-. simpl. split_and!; [done..|]. destruct (response_errors _ _ _ Hr) as [?| ->]; auto. }
  aside_step Hrun aside_now. rewrite ST_bind_at, on_rows_at in Hrun. cbn [rd_db rd_rows rd_world rd_calls] in Hrun.
  rewrite (write_result id t) in Hrun by (congruence || done).
  destruct (attempts_valid t); [|injection Hrun as <- <-; simpl; auto]. cbn [fst snd] in Hrun.
  unfold modify in Hrun. rewrite ST_bind_at in Hrun. cbn [set_row rd_db rd_rows rd_world rd_calls] in Hrun.
  rewrite ST_bind_lift in Hrun. destruct (t_conversation t) as [c|]; [|injection Hrun as <- <-; simpl; auto].
  rewrite bool_decide_false in Hrun by done. cbn [raise_when] in Hrun.
  aside_step Hrun (aside_message (MkMessage (Some c) (u "assistant") reverted_content (u "AGENT_REVERSION"))).
  aside_step Hrun (aside_touch (Some c)). aside_step Hrun (aside_event id (u "reversion.completed") None).
  injection Hrun as <- <-. unfold with_turns in *. simpl in *. eexists. split_and!; [done|congruence|congruence|done..].
Qed.

(** *** The savepoint *)

(** The database of the handlers is as it was, or as the flush before the savepoint left it. *)
Definition undone s s' : Prop :=
  w_db (rd_world s') = w_db (rd_world s) ∨ w_db (rd_world s') = w_db (flush (rd_world s)).2.
(** Every compensator of the plan was called once, in reverse order, and verified. *)
Definition compensated (plan : pyval) (results : list (CapabilityResult Evidence)) s s' : Prop := ∃ p steps,
  plan = VDict p ∧ get (u "steps") p = VList (VDict <$> steps) ∧
  rd_calls s' = rd_calls s ++ (compensation_call <$> reverse steps) ∧
  length results = length steps ∧ Forall result_verified results.

Lemma savepoint_run metadata plan s r s' : compensate_in_savepoint rg metadata plan s = (r, s') →
  rd_db s' = rd_db s ∧ rd_rows s' = rd_rows s ∧
  match r with
  | Ok (Ok results) => compensated plan results s s'
  | Ok (Err _) => undone s s'
  | Err e => undone s s' ∧ ∀ code, e ≠ CodedError code
  end.
Proof.
  assert (∀ o code, flush_error o ≠ CodedError code) as Hflush.
  { intros o code. unfold flush_error. destruct o; try done. by repeat case_match. }
  unfold compensate_in_savepoint. unfold undone. destruct (flush (rd_world s)) as [o w1] eqn:Hf.
  destruct o as [[]| | | |]; try (intros [= <- <-]; split_and!; [done|done|by right|first [done|apply (Hflush (RaisedOther _))]]).
  destruct (compensate rg metadata plan _) as [rc x] eqn:Hc. destruct rc as [results|[code|e]].
  - destruct (flush (x_world x)) as [o w2].
    destruct o as [[]| | | |]; try (intros [= <- <-]; split_and!; [done|done|by right|first [done|apply (Hflush (RaisedOther _))]]).
    intros [= <- <-]. split_and!; [done..|].
    apply (compensate_run metadata _ _ _ _ built) in Hc as [[_ [e He]]|(p & steps & calls & -> & _ & Hs & _ & Ht & _ & Hok)]; [done|].
    destruct (Hok _ eq_refl) as (-> & Hl & Hv). exists p, steps. split_and!; try done. simpl. by rewrite Ht.
  - intros [= <- <-]. split_and!; [done..|by right].
  - intros [= <- <-]. split_and!; [done|done|by right|done].
Qed.

(** *** The request *)

(** The turn that a caller may revert, and its plan *)
Record target (c : caller) (v : pyval) s (id : Z) (t : turn) (plan : pyval) : Prop := {
  tg_owned : (_owned_turn c v (rd_db s)).1 = Ok id;
  tg_turn : d_turns (rd_db s) !! id = Some t;
  tg_uuid : v = VStr (t_uuid t);
  tg_user : t_user t = u_id c;
  tg_settled : settled t;
  tg_barrier : t_write_barrier t = true;
  tg_available : rv_state (row_of id s) = u "available";
  tg_plan : completed_plan (t_plan t) = Some plan }.

Definition unchanged s s' : Prop :=
  d_turns (rd_db s') = d_turns (rd_db s) ∧ d_journal (rd_db s') = d_journal (rd_db s) ∧ rd_rows s' = rd_rows s.

(** The compensators ran, the turn keeps everything but its response, and its verified reversible
    effects are marked. *)
Definition reverted (c : caller) (v : pyval) s (response : pydict) s' : Prop := ∃ id t plan results n,
  target c v s id t plan ∧ compensated plan results s s' ∧
  _response_with_reversion_state (t_result t) (u "completed") = Ok response ∧
  d_turns (rd_db s') = <[id := set_field t (FResult (VDict response))]> (d_turns (rd_db s)) ∧
  rd_rows s' = <[id := MkReversionRow (u "completed") (reversion_summary results) (Some n)]> (rd_rows s) ∧
  d_journal (rd_db s') = d_journal (_mark_reverted id (rd_db s)).2.

(** Only the response of the turn was refused, after the compensators ran. *)
Definition half_reverted (c : caller) (v : pyval) s (code : pystr) s' : Prop := ∃ id t plan results,
  target c v s id t plan ∧ compensated plan results s s' ∧
  _response_with_reversion_state (t_result t) (u "completed") = Err (CodedError code).

Lemma revertible_plan_run t row r : revertible_plan t row = r →
  match r with
  | Ok plan => settled t ∧ t_write_barrier t = true ∧ rv_state row = u "available" ∧ completed_plan (t_plan t) = Some plan
  | Err e => ∃ code, e = CodedError code
  end.
Proof.
  intros <-. unfold revertible_plan. destruct (bool_decide _) eqn:Hs; [|by eexists]. apply bool_decide_eq_true in Hs.
  cbn [negb raise_when mbind result_bind]. destruct (negb (t_write_barrier t) || _) eqn:Hb; [by eexists|].
  apply orb_false_iff in Hb as [Hb%negb_false_iff Ha%negb_false_iff%str_eqb_true].
  cbn [raise_when mbind result_bind]. destruct (completed_plan (t_plan t)) eqn:Hp; [by split_and!|by eexists].
Qed.

Definition plan_result (c : caller) (v : pyval) s (r : result turn_exn (pydict * Z)) s' : Prop :=
  match r with
  | Ok (response, m) => ∃ id t plan results n,
      target c v s id t plan ∧ compensated plan results s s' ∧
      _response_with_reversion_state (t_result t) (u "completed") = Ok response ∧
      d_turns (rd_db s') = <[id := set_field t (FResult (VDict response))]> (d_turns (rd_db s)) ∧
      rd_rows s' = <[id := MkReversionRow (u "completed") (reversion_summary results) (Some n)]> (rd_rows s) ∧
      d_journal (rd_db s') = d_journal (rd_db s)
  | Err e => crash e ∨ unchanged s s' ∧ (undone s s' ∨ ∃ code, e = CodedError code ∧ half_reverted c v s code s')
  end.

Lemma plan_result_refused c v s e : plan_result c v s (Err e) s.
Proof. right. split; [done|]. left. by left. Qed.
Lemma revert_plan_run c v s r s' : revert_plan rg c v s = (r, s') → plan_result c v s r s'.
Proof.
  unfold revert_plan. rewrite ST_bind_at, on_rows_at. destruct (_owned_turn c v (rd_db s)) as [ro d] eqn:Ho.
  pose proof (owned_turn_run _ _ _ _ _ Ho) as [-> Hro]. cbn [fst snd].
  assert (MkReversion (rd_db s) (rd_rows s) (rd_world s) (rd_calls s) = s) as -> by by destruct s.
  destruct ro as [id|e]; [|intros [= <- <-]; apply plan_result_refused]. destruct Hro as (t & Ht & Hv & Hu).
  rewrite ST_bind_at, on_rows_at. unfold get_turn, gets. cbn [fst snd]. rewrite Ht.
  assert (MkReversion (rd_db s) (rd_rows s) (rd_world s) (rd_calls s) = s) as -> by by destruct s.
  rewrite ST_bind_lift. cbn [of_option]. rewrite ST_bind_at, ST_bind_lift.
  destruct (revertible_plan t (row_of id s)) as [plan|e] eqn:Hr; [|intros [= <- <-]; apply plan_result_refused].
  apply revertible_plan_run in Hr as (Hset & Hbar & Hav & Hpl).
  assert (target c v s id t plan) as Htg by (split; [by rewrite Ho|done..]).
  rewrite ST_bind_lift. destruct (resolve_capability_policy _) as [policy|e]; [|intros [= <- <-]; apply plan_result_refused].
  rewrite ST_bind_at, ST_bind_lift. destruct (reversion_metadata _ _ _) as [metadata|e]; [|intros [= <- <-]; apply plan_result_refused].
  rewrite ST_bind_at. destruct (compensate_in_savepoint rg metadata plan s) as [rs s1] eqn:Hsv.
  apply savepoint_run in Hsv as (Hdb & Hrows & Hsv). destruct rs as [[results|code]|e].
  - intros Hrec. assert (d_turns (rd_db s1) !! id = Some t) as Ht1 by by rewrite Hdb.
    apply (record_reversion_run _ _ _ _ _ _ Ht1 Hset) in Hrec.
    assert (∀ s2, rd_calls s2 = rd_calls s1 → compensated plan results s s2) as Hcomp.
    { intros s2 E. destruct Hsv as (p & steps & ? & ? & ? & ? & ?). exists p, steps. split_and!; try done. by rewrite E. }
    destruct r as [[response m]|e]; simpl in Hrec |- *.
    + destruct Hrec as (n & Hresp & HT & HJ & HR & HW & HC). exists id, t, plan, results, n.
      rewrite Hdb in HT, HJ. rewrite Hrows in HR. split_and!; try done. by apply Hcomp.
    + destruct Hrec as (HW & HC & [He|(-> & -> & Hresp)]); [by left|]. right. split; [unfold unchanged; by rewrite Hdb|].
      right. eexists. split; [reflexivity|]. exists id, t, plan, results. split_and!; [done|by apply Hcomp|done].
  - rewrite ST_bind_at, on_rows_at. destruct (aside_event id (u "reversion.failed") (Some code) (rd_db s1)) as (a & d & E & HT & HJ).
    rewrite E. intros [= <- <-]. right. unfold unchanged, undone in *. simpl. rewrite HT, HJ, Hdb. split; [done|by left].
  - intros [= <- <-]. destruct Hsv as [Hun _]. right. unfold unchanged. rewrite Hdb. split; [done|by left].
Qed.

Lemma owned_at c v s : on_rows (_owned_turn c v) s = ((_owned_turn c v (rd_db s)).1, s).
Proof.
  rewrite on_rows_at. destruct (_owned_turn c v (rd_db s)) as [ro d] eqn:Ho.
  apply owned_turn_run in Ho as [-> _]. by destruct s.
Qed.

Lemma ident_insert (T : gmap Z turn) id t t' : T !! id = Some t → ident t' = ident t →
  ident <$> <[id := t']> T = ident <$> T.
Proof.
  intros Ht Hi. rewrite fmap_insert, Hi. apply insert_id. by rewrite lookup_fmap, Ht.
Qed.

(** The outcome at the end of the request *)
Definition request_result (c : caller) (v : pyval) s (r : result turn_exn (result pystr (pydict * Z))) s' : Prop :=
  match r with
  | Ok (Ok (response, m)) => reverted c v s response s'
  | Ok (Err code) => unchanged s s' ∧ (undone s s' ∨ half_reverted c v s code s')
  | Err _ => rd_db s' = rd_db s ∧ rd_rows s' = rd_rows s ∧ w_db (rd_world s') = w_db (rd_world s)
  end.

Lemma revert_result c v s : match revert_for_current_user rg c v s with
  | (Ok (response, m), s') => reverted c v s response s'
  | (Err e, s') => crash e ∨ unchanged s s' ∧ (undone s s' ∨ ∃ code, e = CodedError code ∧ half_reverted c v s code s')
  end.
Proof.
  unfold revert_for_current_user. rewrite ST_bind_at. destruct (revert_plan rg c v s) as [[[response m]|e] s1] eqn:Hp;
    apply revert_plan_run in Hp; [|exact Hp].
  destruct Hp as (id & t & plan & results & n & Htg & Hcomp & Hresp & HT & HR & HJ).
  rewrite ST_bind_at, owned_at. rewrite (owned_turn_same c v (rd_db s) (rd_db s1)), (tg_owned _ _ _ _ _ _ Htg)
    by (rewrite HT; by eapply ident_insert; [apply Htg|]).
  rewrite ST_bind_at, on_rows_at. cbn [fst snd mret ST_ret]. exists id, t, plan, results, n.
  split_and!; [exact Htg|exact Hcomp|exact Hresp|exact HT|exact HR|]. simpl. by rewrite HJ.
Qed.

Lemma revert_turn_result c v s r s' : revert_turn rg c v s = (r, s') → request_result c v s r s'.
Proof.
  unfold revert_turn. pose proof (revert_result c v s) as H0.
  destruct (revert_for_current_user rg c v s) as [[[response m]|e] s1]; [by intros [= <- <-]|].
  destruct e; intros [= <- <-]; simpl; try done; destruct H0 as [[]|[Hu [Hun|(code' & Hc & Hh)]]];
    try (split; [exact Hu|by left]); try done.
  injection Hc as ->. split; [exact Hu|by right].
Qed.

(** C20: A request to revert a turn either runs every compensator of its completed plan once in
    reverse order, all verified, stores that and changes only the response of the turn and its
    verified reversible effects in the journal, or leaves the turns, the journal and the
    database of the handlers as they were, except when only the stored response is refused after
    the compensators ran; an exception that leaves the request undoes everything. *)
Theorem reversion_all_or_nothing c v s r s' : revert_turn rg c v s = (r, s') → request_result c v s r s'.
Proof. apply revert_turn_result. Qed.

(** C33: After a reversion succeeded, every further request to revert the turn is refused and
    changes nothing. *)
Theorem reverted_once c v s response m s' : revert_turn rg c v s = (Ok (Ok (response, m)), s') →
  revert_turn rg c v s' = (Ok (Err (u "turn_reversion_unavailable")), s').
Proof.
  intros Hr. apply revert_turn_result in Hr as (id & t & plan & results & n & Htg & _ & _ & HT & HR & _).
  destruct Htg as [Ho Ht Hv Hu Hset Hbar _ _].
  unfold revert_turn, revert_for_current_user, revert_plan.
  rewrite ST_bind_at, ST_bind_at, owned_at, (owned_turn_same c v (rd_db s) (rd_db s')), Ho
    by (rewrite HT; by eapply ident_insert).
  rewrite ST_bind_at, on_rows_at. unfold get_turn, gets. cbn [fst snd]. rewrite HT, lookup_insert_eq.
  assert (MkReversion (rd_db s') (rd_rows s') (rd_world s') (rd_calls s') = s') as -> by by destruct s'.
  rewrite ST_bind_lift. cbn [of_option]. rewrite ST_bind_at, ST_bind_lift.
  assert (revertible_plan (set_field t (FResult (VDict response))) (row_of id s') = Err (CodedError (u "turn_reversion_unavailable"))) as ->; [|done].
  unfold revertible_plan, row_of. rewrite HR, lookup_insert_eq. cbn [default rv_state from_option].
  change (t_state (set_field t (FResult (VDict response)))) with (t_state t). change (t_write_barrier _) with (t_write_barrier t).
  rewrite bool_decide_true by done. by rewrite Hbar.
Qed.
End facts.

(** ** A completed turn that is reverted *)

#[local] Existing Instance sample_host.
#[local] Existing Instance note_host.

Definition noted_turn (shown : pyval) : turn :=
  MkTurn (u "11111111-1111-4111-8111-111111111111") (Some 1) 7 1 TCompleted (u "hola") VNone [1] sample_snapshot None
    (u "f") None None shown 0 None None None None 1 3 true None (Some 5) None VNone None
    (VDict [(u "plan", plan_payload (noted_plan StepCompleted))]) VNone.
Definition noted_row (state : journal_state) : journal_row :=
  MkJournal 3 (u "11111111-1111-4111-8111-111111111111") 7 1 (u "unit-1") (u "step-1") (u "demo.note") (u "2")
    (u "odoo_atomic") (u "reversible") state VNone VNone VNone 0.
Definition noted_store (shown : pyval) (n : nat) : reversion_db nat nat :=
  MkReversion (one_turn (noted_turn shown) [noted_row JVerified]) {[ 3 := MkReversionRow (u "available") VNone None ]}
    (MkWorld n 0%nat) [].
Definition shown_plan : pyval := VDict [(u "plan", VDict [])].
Definition revert_noted (s : reversion_db nat nat) :=
  revert_turn note_registry sample_user (VStr (u "11111111-1111-4111-8111-111111111111")) s.

(** Both notes are removed, the turn and its journal are marked; a compensator that is not verified
    undoes the other; a second request is refused. *)
Example noted_reverted :
  let '(r, s) := revert_noted (noted_store shown_plan 2) in
  (is_ok <$> r = Ok true ∧ w_db (rd_world s) = 0%nat ∧ j_state <$> d_journal (rd_db s) = [JReverted] ∧
   rv_state (row_of 3 s) = u "completed") ∧
  (revert_noted s).1 = Ok (Err (u "turn_reversion_unavailable")).
Proof. vm_compute. done. Qed.
Example noted_not_reverted :
  let '(r, s) := revert_noted (noted_store shown_plan 1) in
  r = Ok (Err (u "capability_compensation_verification_failed")) ∧ w_db (rd_world s) = 1%nat ∧
  length (rd_calls s) = 2%nat ∧ rv_state (row_of 3 s) = u "available".
Proof. vm_compute. done. Qed.
(** A turn without a stored response: the effects are reverted, and the request says otherwise. *)
Example noted_half_reverted :
  let '(r, s) := revert_noted (noted_store VNone 2) in
  r = Ok (Err (u "turn_reversion_response_invalid")) ∧ w_db (rd_world s) = 0%nat ∧ rv_state (row_of 3 s) = u "available".
Proof. vm_compute. done. Qed.

Lemma reversion_all_or_nothing_witness :
  request_result sample_user (VStr (u "11111111-1111-4111-8111-111111111111")) (noted_store shown_plan 1)
    (revert_noted (noted_store shown_plan 1)).1 (revert_noted (noted_store shown_plan 1)).2.
Proof.
  apply (reversion_all_or_nothing [unnoted; noted] [] [] note_registry note_registry_built).
  apply surjective_pairing.
Defined.
Lemma reverted_once_witness :
  (revert_noted (revert_noted (noted_store shown_plan 2)).2).1 = Ok (Err (u "turn_reversion_unavailable")).
Proof.
  assert (∃ response m, (revert_noted (noted_store shown_plan 2)).1 = Ok (Ok (response, m))) as (response & m & E)
    by (eexists _, _; vm_compute; reflexivity).
  assert (revert_noted (noted_store shown_plan 2) = (Ok (Ok (response, m)), (revert_noted (noted_store shown_plan 2)).2)) as H
    by (rewrite <- E; apply surjective_pairing).
  exact (f_equal fst (reverted_once [unnoted; noted] [] [] note_registry note_registry_built sample_user _ _ _ _ _ H)).
Defined.
